(* ===== verification/_CoqProject ===== *)
-Q . S2P
Prelude.v
Endian.v
Writer.v
Reader.v
Headers.v
Utf.v
Strings.v
Formatter.v
Collections.v
Assoc.v
Nullable.v
Objects.v
Decoded.v
Union.v
VersionTolerant.v
Unmanaged.v
Macros.v
DotNet.v
Typing.v
Api.v
Catalogue.v
Packet.v
CoreTheorems.v
ContainerTheorems.v
Text.v
Net.v
Sockets.v
CppServer.v
ServerTheorems.v
ServerMain.v
ServerMainTheorems.v
ChatProtocol.v
ChatConsole.v
ChatTheorems.v
ChatThreads.v
ChatMain.v
ChatMainTheorems.v
CppClient.v
ClientPackets.v
ClientTheorems.v
ClientMain.v
Golden.v
ChatGui.v
ChatGuiTheorems.v
ChatGuiWindow.v
ChatGuiMain.v
ChatDispatch.v
Schema.v
GoldenTheorems.v
Console.v
ConsoleTheorems.v
ExampleQuickStart.v
ExampleNested.v
ExampleNullables.v
ExampleUnions.v
ExampleUnmanaged.v
ExampleBuffers.v
ExampleFraming.v
ExampleErrors.v
ExampleVersions.v
ExampleDotNet.v
ExampleTheorems.v
Benchmarks.v
BenchmarkTheorems.v
BenchmarkPaths.v
Progress.v
Fuzz.v
FuzzTheorems.v
Floats.v
Files.v
TestHarness.v
InteropTypes.v
InteropCatalogue.v
InteropTests.v
Fixtures.v
InteropTheorems.v
UnitTypes.v
UnitTests.v
UnitTheorems.v
FuzzReplay.v
