(* ===== verification/Prelude.v ===== *)
(** * MemoryPackCpp: a verification development

    MemoryPackCpp ([src/include/memorypack/]) reads and writes the wire format of the C#
    library MemoryPack. It is header-only; the samples under [src/samples/] use it over
    sockets, the programs under [src/examples/] show one feature each, and the suite under
    [src/benchmarks/] measures it, and those under [src/tests/] test it. This development
    models the library, four sample programs with what they use of the operating system,
    the ten examples, the benchmarks, the unit tests, the interop suite, the fuzz target
    and the headers the code generator is expected to write, and proves that they do what
    they promise.

    ** How the program is modelled

    Code that changes state is a function [S → outcome A * S] ([M S A] in this file, with
    the usual notation): an [outcome] is a value, a thrown [MemoryPackException], or
    undefined behaviour. [W] is the monad of the writer's state, [R] that of the reader's.
    Every memory access is checked against the object it touches, so "no [UB]" in a
    theorem means that no access is out of bounds. Integers are [Z] with each wrap-around
    written out; a byte string is a list of bytes as [Z]; [float] and [double] are their
    bit patterns, which the code only copies.

    What C++ leaves to the platform is the class [Platform]: the width of [size_t], the
    byte order, whether exceptions are compiled in, and the alignment of 8-byte types.
    Theorems hold for every platform unless they say otherwise; [host64] and [host32] are
    concrete ones for examples and witnesses.

    ** The library, bottom up

    - [Prelude]: outcomes, the state monad, [Platform], lists by [Z] lengths, hints, tactics.
    - [Endian] ([core.hpp], namespace [detail]): arithmetic types, object representations,
      [byteswap], [endian_convert].
    - [Writer], [Reader] ([core.hpp]: [MemoryPackWriter], [MemoryPackReader]): the three
      storage modes and the cursor with its limits, sticky error and depth. A write
      operation is specified by [emits m bs] (it appends exactly [bs], or reports the
      overflow), a read operation by [safe] (any input: no undefined behaviour, an error
      is recorded once) and [reads o d m bs v] (it decodes exactly [bs] to [v], and every
      proper prefix of [bs] is an error).
    - [Headers], [Utf], [Strings]: headers, variable-length lengths, UTF-8 and UTF-16, strings.
    - [Formatter]: the dispatch of [Write<T>]/[Read<T>]. [MemoryPackFormatter] is the class
      of operations, [WireFormat] the encoding of a type, [FormatterLaws] the contract
      between them; containers are proved against the contract of their elements.
    - [Collections], [Assoc], [Nullable], [Objects], [Union], [VersionTolerant],
      [Unmanaged] ([core.hpp], [containers.hpp]): each discharges [FormatterLaws] for its
      types. A [MEMORYPACK_DEFINE] struct is an instance of [Members].
    - [Macros] ([core.hpp], [MEMORYPACK_PP_...]): the preprocessor machinery that turns the
      member list of [MEMORYPACK_DEFINE] into the statements [Objects] models.
    - [Decoded], [Typing]: what a reader returns on arbitrary input, by type: [decoded o v]
      is an invariant of the values within the limits [o], and [DecodedLaws] says that a
      reader keeps it. [Decoded] has the primitives, strings and sequences, [Typing] the
      other formatters.
    - [DotNet] ([dotnet.hpp]): Guid, DateTime, TimeSpan, DateTimeOffset, Decimal, Half,
      Int128, vectors.
    - [Api]: [Serialize], [SerializeTo], [Deserialize], [DeserializeExact] and the
      exception-free forms, end to end, for a type that meets the contract.
    - [Catalogue]: [serializable], an inductive predicate of the types that the library's
      formatters and macros build, with their formatters, wire formats and [decoded]
      values. By induction every one of them meets [FormatterLaws] and [DecodedLaws], so
      that the theorems on any input hold of all of them without a hypothesis about a
      reader. A user's struct is described by [Struct] (its members are its own and make
      up its value), a variant by [Alternatives].
    - [Packet] ([packet.hpp]): the header policy as a class, [WritePacket], [MakePacket],
      and [BasicPacketFrameParser], which refines a decoder of the whole stream.

    ** The samples

    - [Text], [Net]: console text, and the operating system: [System] says how much each
      [send] or [recv] does and what the clock shows, [SystemLaws] is what is documented
      of them; the loops around [send] and [recv]. [Sockets]: a program's other calls
      ([socket], [bind], [accept], [connect], [close], Winsock, output) as a trace; what is
      open follows from the trace, a call on a socket that is not open is undefined, and
      the answers are the class [SocketSystem] with its laws [SocketLaws].
    - [CppServer] ([samples/CppServer]): one connection of the server, from [recv] through
      [Feed] to the handlers and the reply. [ServerTheorems] gives the replies as a function
      of the packets received and proves that [Run] refines it. [ServerMain]: the program,
      that is the listening socket, the accept loop and one detached thread per client,
      interleaved by the step relation [server_step]. [ServerMainTheorems].
    - [ChatProtocol] ([samples/ChatClientConsole/packets.hpp], the same packets as in
      [samples/ChatClient/packets.hpp]): the packets of the two chat clients.
    - [ChatConsole] ([samples/ChatClientConsole]): the command loop and the receive thread,
      interleaved by the step relation [chat_step]. [ChatTheorems] and [ChatThreads]. [ChatMain]: the
      program, from the command line and the prompts through [Connect] to [Stop] and the
      end; its steps are those of the threads with the life of the socket around them.
      [ChatMainTheorems].
    - [ChatGui] ([samples/ChatClient]): the Win32 client. Its window is the text and the
      enabled state of each control; the user's clicks, the receive thread's rounds, the
      posted messages and the closing of the window are the events of [gui_step]. What
      Windows does is the class [Windows], with its documented laws [WindowsLaws].
      [ChatGuiTheorems]. [ChatGuiWindow]: the controls [WM_CREATE] makes, and the dispatch
      of commands. [ChatGuiMain]: the window procedure and [wWinMain], which refine
      [gui_step].
    - [ChatDispatch] ([samples/ChatClient/packets.hpp]): the generated dispatch table.
    - [Schema] ([tools/cs2cpp/SchemaHash.cs], [samples/*/Packets.cs]): the schema hash of a
      protocol, and the classes of the C# servers beside the structs of the C++ headers.
    - [CppClient] ([samples/CppClient]): the ten tests over a blocking exchange, with
      hand-written formatters of C arrays. [ClientPackets] and [ClientTheorems].
      [ClientMain]: the program with its connection.
    - [Golden] ([tools/cs2cpp.Tests/Expected]): the sixteen headers the generator is expected
      to write, one module each. [GoldenTheorems]: its two modes agree.

    ** The examples and the benchmarks

    - [Console]: a program that writes to a console and has globals; [printf] down to the
      characters it writes (a format an argument does not fit is undefined behaviour),
      floating-point literals and comparison, [try]/[catch], and the helpers every example
      has its own copy of ([Dump], [Show], [Check]). [ConsoleTheorems] says what [Dump] and
      [Show] write for any bytes and any value.
    - [ExampleQuickStart] ([examples/01_quick_start.cpp]), [ExampleNested] ([02_...]),
      [ExampleNullables] ([03_...]), [ExampleUnions] ([04_...]), [ExampleUnmanaged]
      ([05_...]), [ExampleBuffers] ([06_...]), [ExampleFraming] ([07_...]),
      [ExampleErrors] ([08_...]), [ExampleVersions] ([09_...]) and [ExampleDotNet]
      ([10_...]): each program whole, a definition for every part of its [main], so that it
      can be run and its output read. [ExampleTheorems] proves that they succeed.
    - [Benchmarks] ([benchmarks/memorypack_bench.cpp]): the 22 benchmarks over a model of
      [benchmark::State]; the number of iterations is a parameter, and the values passed to
      [DoNotOptimize] are the trace. [BenchmarkTheorems] and [BenchmarkPaths].

    ** The tests

    - [Progress]: no read moves the cursor back, and a byte that is read moves it forward.
    - [Fuzz] ([tests/fuzz/fuzz_deserialize.cpp]): the types, the harness and the entry point
      of the fuzz target. [FuzzTheorems]: no input makes it crash. [FuzzReplay]
      ([tests/fuzz/fuzz_replay.cpp]): the driver that replays a corpus from files.
    - [Floats]: the nearest [float] or [double] of a decimal literal, and comparisons.
    - [Files]: what the test programs use of a file system.
    - [TestHarness] ([tests/test_harness.hpp]): counters, reports, the [CHECK] macros.
    - [InteropTypes] ([tests/interop_types.hpp]; [InteropCatalogue]: they are in the
      catalogue), [InteropTests] ([tests/interop_tests.cpp]):
      the C++ mirrors of the C# types, and the suite that decodes, checks and re-encodes
      each fixture. [Fixtures] ([tests/fixtures/manifest.json]): the bytes that the C#
      library produced. [InteropTheorems]: the suite passes on them.
    - [UnitTypes], [UnitTests] ([tests/memorypack_tests.cpp]): the types and every test; the
      order of hash tables and the clock are parameters. [UnitTheorems]: all of them pass.

    ** What the theorems show

    - Round trips: every type whose formatter meets the contract survives serialization;
      packets survive the stream in any chunks; strings, headers, Guid, Half and time
      points survive their conversions.
    - Safety on any input: deserialization (of every [serializable] type: nothing is assumed
      of its reader, and no truncated encoding passes for a value), the frame parser, the server and the clients
      have no undefined behaviour whatever bytes arrive (the exceptions are stated, and
      recorded as findings).
    - Typing: what comes out of a reader of a [serializable] type is a value of its C++ type
      within the limits, whatever the bytes were. (A [bool] that is copied, in an array, an
      optional or an enum, may hold any byte.)
    - Invariants: of the maps and sets a reader fills, and of every reachable state of the
      Win32 client, by induction on its events.
    - Bounds: a fixed buffer is never overrun; a length header cannot make the reader
      allocate more than the input and the limits allow; nesting and buffering are limited;
      the server's replies are bounded.
    - Programs: the server listens or says why not, each of its clients is served as if it
      were alone, and sockets are open exactly as long as something uses them; the console
      chat client ends with its socket closed and Winsock cleaned up once it is connected,
      and so does the test client whenever its [main] returns.
    - Refinement and equivalence: the expansion of [MEMORYPACK_DEFINE] is its member list;
      the generator's explicit and macro modes read and write alike; chunked feeding equals decoding the whole stream; bulk
      copies equal element-wise ones; big-endian and little-endian hosts write the same
      bytes; the server and the clients are what their specifications say; the protocols
      of the C++ and C# ends of a sample agree, and a changed character changes their hash.
    - Termination: growth of the buffer, the sending and receiving loops, every
      interleaving of the chat client's threads, and of the server's client threads while
      no further client is accepted. Liveness: the frame parser delivers every
      packet with its last byte, however the stream is cut.
    - The unit tests pass on every little-endian platform, for any order of hash tables and
      at any time that a [DateTime] can represent, on clocks commensurable with its tick.
    - Interoperability: the library decodes the 53 byte strings produced by C# to the values
      expected and encodes them again byte for byte, on every little-endian platform.
    - Examples and benchmarks: the ten examples end with exit code 0 on every platform (the
      fifth, which copies structs, on little-endian ones); each
      benchmark runs to its end for any number of iterations, every iteration yields the
      same correct result, and the sizes reported are those on the wire.

    ** Fuel

    [grow_loop] doubles a capacity and has a round for each of the 64 bits of [size_t];
    [send_loop] and [recv_loop] move at least one byte a round and have one round per byte;
    the receive loop of a session has one round per byte of the session plus one; the frame
    loop one per buffered byte; the loops of the examples one per byte they print or feed;
    the loops of the fuzz target one per byte of the input, and its recursive type has one
    level more than the nesting the reader allows.
    Each bound is proved to be enough: running out of fuel is
    [UB], which the theorems exclude.

    ** Not modelled

    - The operating system beyond [System] and [SocketSystem]: blocking (a [recv], [accept]
      or [getline] that never returns), preemption inside a step of [chat_step] or
      [server_step], what happens to the server's other threads when its [main] returns;
      the console formatting of numbers other than integers.
    - Failure of the allocator below [grow_limit] ([std::bad_alloc]).
    - A [std::variant] that is valueless by exception.
    - Of the Win32 client: fonts and the frame of its window, and a window that cannot be
      made; a message is never lost in posting, a round of the receive thread is one step,
      and closing the window does not wait for the thread.
    - The C# projects and, but for the schema hash, the source generator [tools/cs2cpp]
      (its expected outputs are); [static_assert]s, which the compiler checks; and of the
      benchmarks what Google Benchmark does itself (time, registration). *)
From stdpp Require Export prelude list.
From Stdlib Require Export ZArith Lia.

#[global] Open Scope Z_scope.
#[global] Set Default Goal Selector "!".

(** ** Build configuration

    The headers are compiled under three choices the code tests for:
    exceptions ([MEMORYPACK_HAS_EXCEPTIONS]), the width of [size_t], the byte order
    of the host ([std::endian::native]), and whether 8-byte arithmetic types are
    aligned to 4 bytes only (as on 32-bit System V x86), seen through [alignof]. *)
Class Platform := {
  has_exceptions : bool;
  size_t_is_32 : bool;
  native_little : bool;
  align8_is_4 : bool;
}.

(** Two configurations the examples are evaluated in: a 64-bit little-endian host with
    exceptions, and a 32-bit big-endian one without, which aligns 8-byte types to 4. *)
Definition host64 : Platform :=
  {| has_exceptions := true; size_t_is_32 := false; native_little := true; align8_is_4 := false |}.
Definition host32 : Platform :=
  {| has_exceptions := false; size_t_is_32 := true; native_little := false; align8_is_4 := true |}.

(** Number of values of [size_t]: its arithmetic is modulo [size_mod]. *)
Definition size_mod `{Platform} : Z := if size_t_is_32 then 2 ^ 32 else 2 ^ 64.

Definition size_add `{Platform} (a b : Z) : Z := (a + b) mod size_mod.
Definition size_sub `{Platform} (a b : Z) : Z := (a - b) mod size_mod.

(** Largest content a growable buffer is specified for (a quarter of the address
    space), so that doubling a [std::vector] never wraps. *)
Definition grow_limit `{Platform} : Z := if size_t_is_32 then 2 ^ 30 else 2 ^ 62.

(** ** Errors, outcomes and the state monad *)

(** [enum class MemoryPackError]. *)
Inductive MemoryPackError :=
  | NoError
  | BufferUnderflow
  | BufferOverflow
  | InvalidHeader
  | LengthLimit
  | InvalidString
  | TrailingBytes
  | NotSupported.

#[global] Instance MemoryPackError_eq_dec : EqDecision MemoryPackError.
Proof. solve_decision. Defined.

(** What a C++ call does: returns, throws [MemoryPackException(code, offset)],
    or has undefined behaviour (an access outside an object). *)
Inductive outcome (A : Type) :=
  | Ret (a : A)
  | Throw (code : MemoryPackError) (offset : Z)
  | UB.
Arguments Ret {A} a.
Arguments Throw {A} code offset.
Arguments UB {A}.

(** A method of an object whose members are [S]. *)
Definition M (S A : Type) : Type := S → outcome A * S.

#[global] Instance M_ret S : MRet (M S) := λ A a s, (Ret a, s).
#[global] Instance M_bind S : MBind (M S) := λ A B k m s,
  match m s with
  | (Ret a, s') => k a s'
  | (Throw e off, s') => (Throw e off, s')
  | (UB, s') => (UB, s')
  end.

Definition gets {S A} (f : S → A) : M S A := λ s, (Ret (f s), s).
Definition modify {S} (f : S → S) : M S unit := λ s, (Ret tt, f s).
Definition undefined {S A} : M S A := λ s, (UB, s).

(** An outcome as the rest of a computation sees it. *)
Definition lift_outcome {S A} (o : outcome A) : M S A := λ s, (o, s).

(** A method of a local object: its result and the object afterwards. *)
Definition on_local {P S A} (s : S) (m : M S A) : M P (A * S) := λ p,
  match m s with
  | (Ret a, s') => (Ret (a, s'), p)
  | (Throw e off, _) => (Throw e off, p)
  | (UB, _) => (UB, p)
  end.

(** A sequence only depends on what its parts do. *)
Lemma bind_pointwise {S A B} (m m' : M S A) (k k' : A → M S B) s :
  (∀ s, m s = m' s) → (∀ a s, k a s = k' a s) → (m ≫= k) s = (m' ≫= k') s.
Proof. intros Hm Hk. unfold mbind, M_bind. rewrite Hm. destruct (m' s) as [[a|e off|] s']; [apply Hk|done..]. Qed.

Definition outcome_map {A B} (f : A → B) (o : outcome A) : outcome B :=
  match o with Ret a => Ret (f a) | Throw e off => Throw e off | UB => UB end.

Lemma bind_ret {S A B} (m : M S A) (k : A → M S B) x a x' : m x = (Ret a, x') → (m ≫= k) x = k a x'.
Proof. unfold mbind, M_bind. by intros ->. Qed.

(** [for (auto& x : l) f(x);] *)
Fixpoint mapM_ {S A} (f : A → M S unit) (l : list A) : M S unit :=
  match l with
  | [] => mret tt
  | x :: l' => f x ;; mapM_ f l'
  end.

(** ** Lists addressed by integers *)

Definition zlen {A} (l : list A) : Z := Z.of_nat (length l).

(** [n] elements of [l] from index [off]. *)
Definition slice {A} (off n : Z) (l : list A) : list A :=
  take (Z.to_nat n) (drop (Z.to_nat off) l).

(** [memcpy] of [src] to offset [off] of [mem]. *)
Definition overwrite {A} (off : Z) (src mem : list A) : list A :=
  take (Z.to_nat off) mem ++ src ++ drop (Z.to_nat off + length src)%nat mem.

(** A value of [uint8_t]. *)
Definition byte_ok (b : Z) : Prop := 0 ≤ b < 256.
Definition bytes_ok (l : list Z) : Prop := Forall byte_ok l.

(** A literal list of bytes. *)
Ltac bytes_lit := unfold bytes_ok; repeat (apply Forall_cons; split; [unfold byte_ok; lia|]); apply Forall_nil; done.

Create HintDb mp.
Create Rewrite HintDb mp.
(** Lists that are bytes. *)
Create HintDb bytes.

(** ** Arithmetic lemmas *)

Section Arith.
Context `{Platform}.

Lemma size_mod_pos : 2 ^ 32 ≤ size_mod.
Proof. unfold size_mod. destruct size_t_is_32; lia. Qed.

Lemma grow_limit_bounds : 2 ^ 30 ≤ grow_limit ∧ 4 * grow_limit = size_mod.
Proof. unfold grow_limit, size_mod. destruct size_t_is_32; lia. Qed.

Lemma size_sub_small a b : 0 ≤ b ≤ a → a < size_mod → size_sub a b = a - b.
Proof. intros. unfold size_sub. apply Z.mod_small. lia. Qed.

Lemma size_add_small a b : 0 ≤ a → 0 ≤ b → a + b < size_mod → size_add a b = a + b.
Proof. intros. unfold size_add. apply Z.mod_small. lia. Qed.
End Arith.

Lemma lor_shiftl_add a b n : 0 ≤ n → 0 ≤ b < 2 ^ n → Z.lor (Z.shiftl a n) b = a * 2 ^ n + b.
Proof.
  intros Hn Hb. rewrite <-Z.shiftl_mul_pow2 by done.
  rewrite <-Z.lxor_lor; [symmetry; apply Z.add_nocarry_lxor|].
  all: apply Z.bits_inj'; intros i Hi; rewrite Z.land_spec, Z.bits_0.
  all: destruct (decide (i < n)).
  all: try (rewrite Z.shiftl_spec_low by lia; done).
  all: rewrite <-(Z.mod_small b (2 ^ n)) by done.
  all: rewrite Z.mod_pow2_bits_high by lia; apply andb_false_r.
Qed.

Lemma land_ones_mod a n : 0 ≤ n → Z.land a (2 ^ n - 1) = a mod 2 ^ n.
Proof. intros. rewrite <-Z.land_ones, Z.ones_equiv by done. f_equal. Qed.

Lemma land_255 a : Z.land a 255 = a mod 256.
Proof. apply (land_ones_mod a 8). lia. Qed.

Lemma shiftr_8 a : Z.shiftr a 8 = a / 256.
Proof. by rewrite Z.shiftr_div_pow2. Qed.

Lemma le_div_mul n m x : 0 < m → n ≤ x / m → n * m ≤ x.
Proof. intros Hm Hn. pose proof (Z.mul_div_le x m Hm). nia. Qed.

(** ** List lemmas *)

Section Lists.
Context {A : Type}.
Implicit Types l : list A.

Lemma zlen_nonneg l : 0 ≤ zlen l.
Proof. unfold zlen. lia. Qed.
Lemma zlen_nil : zlen (@nil A) = 0.
Proof. done. Qed.
Lemma zlen_cons x l : zlen (x :: l) = 1 + zlen l.
Proof. unfold zlen. simpl. lia. Qed.
Lemma zlen_app l1 l2 : zlen (l1 ++ l2) = zlen l1 + zlen l2.
Proof. unfold zlen. rewrite length_app. lia. Qed.
Lemma zlen_0_nil l : zlen l = 0 → l = [].
Proof. destruct l; [done|]. rewrite zlen_cons. pose proof (zlen_nonneg l). lia. Qed.
Lemma zlen_to_nat l : Z.to_nat (zlen l) = length l.
Proof. unfold zlen. lia. Qed.

Lemma zlen_slice off n l : 0 ≤ off → 0 ≤ n → off + n ≤ zlen l → zlen (slice off n l) = n.
Proof. unfold slice, zlen. intros. rewrite length_take, length_drop. lia. Qed.

Lemma slice_prefix off l l1 l2 :
  drop (Z.to_nat off) l = l1 ++ l2 → slice off (zlen l1) l = l1.
Proof. unfold slice. intros ->. by rewrite zlen_to_nat, take_app_length. Qed.

Lemma slice_split off n m l : 0 ≤ off → 0 ≤ n → 0 ≤ m →
  slice off (n + m) l = slice off n l ++ slice (off + n) m l.
Proof.
  intros. unfold slice. rewrite !Z2Nat.inj_add by lia.
  by rewrite <-drop_drop, take_take_drop.
Qed.

Lemma slice_all l : slice 0 (zlen l) l = l.
Proof. unfold slice. simpl. rewrite zlen_to_nat. by rewrite take_ge. Qed.

Lemma slice_suffix off n l1 l2 : off = zlen l1 → n = zlen l2 → slice off n (l1 ++ l2) = l2.
Proof.
  intros -> ->. unfold slice. rewrite !zlen_to_nat, drop_app_length. by apply take_ge.
Qed.

Lemma Forall_slice (P : A → Prop) off n l : Forall P l → Forall P (slice off n l).
Proof. intros. unfold slice. by apply Forall_take, Forall_drop. Qed.

Lemma zlen_overwrite off src l :
  0 ≤ off → off + zlen src ≤ zlen l → zlen (overwrite off src l) = zlen l.
Proof.
  unfold overwrite, zlen. intros. rewrite !length_app, length_take, length_drop. lia.
Qed.

Lemma take_overwrite off src l :
  0 ≤ off → off + zlen src ≤ zlen l →
  take (Z.to_nat (off + zlen src)) (overwrite off src l) = take (Z.to_nat off) l ++ src.
Proof.
  unfold overwrite, zlen. intros. rewrite app_assoc.
  rewrite take_app_length'; [done|]. rewrite length_app, length_take. lia.
Qed.
End Lists.

Lemma concat_fmap {A B} (f : A → list B) (l : list A) : concat (f <$> l) = l ≫= f.
Proof. induction l as [|x l IH]; [done|]. rewrite fmap_cons, bind_cons. cbn. by rewrite IH. Qed.

Lemma zlen_replicate_Z (n x : Z) : 0 ≤ n → zlen (replicate (Z.to_nat n) x) = n.
Proof. intros. unfold zlen. rewrite length_replicate. lia. Qed.

Lemma bytes_ok_app l1 l2 : bytes_ok l1 → bytes_ok l2 → bytes_ok (l1 ++ l2).
Proof. intros. by apply Forall_app. Qed.

Lemma bytes_ok_bind {A} (f : A → list Z) (l : list A) : (∀ x, x ∈ l → bytes_ok (f x)) → bytes_ok (l ≫= f).
Proof.
  induction l as [|x l IH]; intros Hf; [by apply Forall_nil_2|]. rewrite bind_cons.
  apply bytes_ok_app; [apply Hf; left|]. apply IH. intros y Hy. apply Hf. by right.
Qed.

Lemma bytes_ok_overwrite off src l : bytes_ok src → bytes_ok l → bytes_ok (overwrite off src l).
Proof. intros Hs Hl. repeat apply bytes_ok_app; [by apply Forall_take|done|by apply Forall_drop]. Qed.

Lemma bytes_ok_zeros n : bytes_ok (replicate n 0).
Proof. by apply Forall_replicate. Qed.

Lemma bytes_ok_singleton b : byte_ok b → bytes_ok [b].
Proof. intros. by apply Forall_singleton. Qed.

#[export] Hint Resolve bytes_ok_app bytes_ok_bind bytes_ok_overwrite bytes_ok_zeros
  bytes_ok_singleton : bytes.

#[export] Hint Rewrite @zlen_nil @zlen_cons @zlen_app @zlen_to_nat : mp.
#[export] Hint Resolve zlen_nonneg : mp.

(** Positivity of every [zlen] in sight, for [lia]. *)
Ltac zlen_pos :=
  repeat match goal with
  | |- context [zlen ?l] =>
      lazymatch goal with H : 0 ≤ zlen l |- _ => fail | _ => pose proof (zlen_nonneg l) end
  | H : context [zlen ?l] |- _ =>
      lazymatch goal with H' : 0 ≤ zlen l |- _ => fail | _ => pose proof (zlen_nonneg l) end
  end.

(** Lengths of concatenations as sums. *)
Ltac zlen_simpl :=
  repeat match goal with
  | |- context [zlen (_ ++ _)] => rewrite zlen_app
  | H : context [zlen (_ ++ _)] |- _ => rewrite zlen_app in H
  | |- context [zlen (_ :: _)] => rewrite zlen_cons
  | H : context [zlen (_ :: _)] |- _ => rewrite zlen_cons in H
  | |- context [zlen []] => rewrite zlen_nil
  | H : context [zlen []] |- _ => rewrite zlen_nil in H
  end.

(** Arithmetic on lengths. *)
Ltac zlia := zlen_simpl; zlen_pos; lia.
