(* ===== verification/Endian.v ===== *)
(** Arithmetic types, their object representation on the host, and the
    conversion to the little-endian wire order ([core.hpp], namespace [detail]).

    A value of an arithmetic C++ type is an integer: the value itself for [bool],
    integers and [char16_t], the IEEE bit pattern for [float] and [double], which
    the code only ever copies. *)
From S2P Require Import Prelude.

(** ** Arithmetic types *)

Inductive arith_ty :=
  | Bool_t | Int8 | UInt8 | Int16 | UInt16 | Int32 | UInt32 | Int64 | UInt64
  | Float32 | Float64 | Char16.

#[global] Instance arith_ty_eq_dec : EqDecision arith_ty.
Proof. solve_decision. Defined.

(** [sizeof(T)], as a [nat] for recursion over bytes. *)
Definition arith_size (t : arith_ty) : nat :=
  match t with
  | Bool_t | Int8 | UInt8 => 1
  | Int16 | UInt16 | Char16 => 2
  | Int32 | UInt32 | Float32 => 4
  | Int64 | UInt64 | Float64 => 8
  end.

Definition sizeof (t : arith_ty) : Z := Z.of_nat (arith_size t).

Definition is_signed (t : arith_ty) : bool :=
  match t with Int8 | Int16 | Int32 | Int64 => true | _ => false end.

Definition is_floating (t : arith_ty) : bool :=
  match t with Float32 | Float64 => true | _ => false end.

(** Number of values of an [n]-byte integer. *)
Definition pow256 (n : nat) : Z := 2 ^ (8 * Z.of_nat n).

(** The values of type [t]. *)
Definition arith_ok (t : arith_ty) (v : Z) : Prop :=
  match t with
  | Bool_t => 0 ≤ v ≤ 1
  | _ => if is_signed t
         then - (pow256 (arith_size t) / 2) ≤ v < pow256 (arith_size t) / 2
         else 0 ≤ v < pow256 (arith_size t)
  end.

(** [static_cast<U>(v)] to the unsigned [n]-byte type. *)
Definition to_unsigned (n : nat) (v : Z) : Z := v mod pow256 n.

(** [static_cast<T>(v)] from an unsigned value of the same size: two's complement. *)
Definition of_unsigned (t : arith_ty) (u : Z) : Z :=
  if is_signed t
  then if u <? pow256 (arith_size t) / 2 then u else u - pow256 (arith_size t)
  else u.

(** ** Bytes *)

(** The low [n] bytes of [v] (two's complement), least significant first. *)
Fixpoint le_bytes (n : nat) (v : Z) : list Z :=
  match n with
  | O => []
  | S n' => v mod 256 :: le_bytes n' (v / 256)
  end.

(** The unsigned value of bytes, least significant first. *)
Fixpoint le_value (bs : list Z) : Z :=
  match bs with
  | [] => 0
  | b :: bs' => b + 256 * le_value bs'
  end.

(** ** [detail::byteswap] and [detail::endian_convert] *)

(** The loop of [byteswap]: [out = (out << 8) | (raw & 0xFF); raw >>= 8], in the
    [n]-byte unsigned type, [i] more times. *)
Fixpoint byteswap_loop (n i : nat) (out raw : Z) : Z :=
  match i with
  | O => out
  | S i' =>
      byteswap_loop n i'
        (to_unsigned n (Z.lor (Z.shiftl out 8) (Z.land raw 0xFF)))
        (to_unsigned n (Z.shiftr raw 8))
  end.

Definition byteswap (n : nat) (value : Z) : Z :=
  byteswap_loop n n 0 (to_unsigned n value).

Section Endian.
Context `{Platform}.

(** Bytes of [v] as the host stores them, and back ([memcpy] through a [T]). *)
Definition object_bytes (t : arith_ty) (v : Z) : list Z :=
  let le := le_bytes (arith_size t) v in
  if native_little then le else reverse le.

Definition of_object_bytes (t : arith_ty) (bs : list Z) : Z :=
  of_unsigned t (le_value (if native_little then bs else reverse bs)).

(** [alignof(T)]. *)
Definition alignof (t : arith_ty) : Z :=
  if (arith_size t =? 8)%nat && align8_is_4 then 4 else sizeof t.

Definition endian_convert (t : arith_ty) (value : Z) : Z :=
  if native_little || (arith_size t =? 1)%nat then value
  else if negb (is_floating t)
       then of_unsigned t (byteswap (arith_size t) (to_unsigned (arith_size t) value))
       else byteswap (arith_size t) value.
End Endian.

(** ** Lemmas *)

Lemma pow256_S n : pow256 (S n) = 256 * pow256 n.
Proof.
  unfold pow256. replace (8 * Z.of_nat (S n)) with (8 + 8 * Z.of_nat n) by lia.
  rewrite Z.pow_add_r by lia. done.
Qed.

Lemma pow256_pos n : 0 < pow256 n.
Proof. unfold pow256. lia. Qed.

Lemma length_le_bytes n v : length (le_bytes n v) = n.
Proof. revert v. induction n as [|n IH]; intros v; simpl; [done|]. by rewrite IH. Qed.

Lemma zlen_le_bytes n v : zlen (le_bytes n v) = Z.of_nat n.
Proof. unfold zlen. by rewrite length_le_bytes. Qed.
#[export] Hint Rewrite zlen_le_bytes : mp.

Lemma le_bytes_ok n v : bytes_ok (le_bytes n v).
Proof.
  revert v. induction n as [|n IH]; intros v; simpl; constructor; [|apply IH].
  apply Z.mod_pos_bound. lia.
Qed.

Lemma le_value_bytes n v : le_value (le_bytes n v) = to_unsigned n v.
Proof.
  unfold to_unsigned. revert v. induction n as [|n IH]; intros v; simpl.
  - by rewrite Z.mod_1_r.
  - rewrite IH, pow256_S. rewrite Z.rem_mul_r; [done|lia|].
    pose proof (pow256_pos n). lia.
Qed.

Lemma le_value_bound bs : bytes_ok bs → 0 ≤ le_value bs < pow256 (length bs).
Proof.
  induction 1 as [|b bs Hb _ IH]; [done|].
  simpl length. rewrite pow256_S. unfold byte_ok in Hb. simpl. lia.
Qed.

Lemma le_bytes_value bs : bytes_ok bs → le_bytes (length bs) (le_value bs) = bs.
Proof.
  induction 1 as [|b bs Hb _ IH]; [done|]. unfold byte_ok in Hb. simpl.
  rewrite (Z.mul_comm 256), Z.mod_add, Z.div_add by lia.
  rewrite Z.mod_small, Z.div_small by lia. by rewrite Z.add_0_l, IH.
Qed.

Lemma le_bytes_mod n v : le_bytes n (v mod pow256 n) = le_bytes n v.
Proof.
  pose proof (le_bytes_value (le_bytes n v) (le_bytes_ok n v)) as E.
  by rewrite length_le_bytes, le_value_bytes in E.
Qed.

Lemma le_bytes_eq n u v : to_unsigned n u = to_unsigned n v → le_bytes n u = le_bytes n v.
Proof. unfold to_unsigned. intros E. by rewrite <-(le_bytes_mod n u), E, le_bytes_mod. Qed.

Lemma le_bytes_mod_le i n v : (i ≤ n)%nat → le_bytes i (v mod pow256 n) = le_bytes i v.
Proof.
  intros Hi. apply le_bytes_eq. unfold to_unsigned.
  apply Z.mod_mod_divide.
  exists (pow256 (n - i)). unfold pow256. rewrite <-Z.pow_add_r by lia. f_equal. lia.
Qed.

Lemma le_bytes_inj n u v : le_bytes n u = le_bytes n v → to_unsigned n u = to_unsigned n v.
Proof. intros E. by rewrite <-!le_value_bytes, E. Qed.

Lemma le_value_app bs1 bs2 :
  le_value (bs1 ++ bs2) = le_value bs1 + pow256 (length bs1) * le_value bs2.
Proof.
  induction bs1 as [|b bs1 IH]; simpl app; simpl le_value; [unfold pow256; simpl; lia|].
  rewrite IH. simpl length. rewrite pow256_S. lia.
Qed.

(** The loop accumulates the bytes of [raw] most significant first. *)
Lemma byteswap_loop_spec n i out raw :
  (i ≤ n)%nat → 0 ≤ raw → 0 ≤ out < pow256 (n - i) →
  byteswap_loop n i out raw = out * pow256 i + le_value (reverse (le_bytes i raw)).
Proof.
  revert out raw. induction i as [|i IH]; intros out raw Hi Hraw Hout.
  - simpl. unfold pow256. simpl. lia.
  - cbn [byteswap_loop le_bytes]. rewrite reverse_cons, le_value_app, length_reverse, length_le_bytes.
    rewrite (lor_shiftl_add _ _ 8) by (rewrite ?land_255; pose proof (Z.mod_pos_bound raw 256); lia).
    rewrite land_255, shiftr_8. change (2 ^ 8) with 256.
    pose proof (Z.mod_pos_bound raw 256 ltac:(lia)).
    replace (n - i)%nat with (S (n - S i)) in IH by lia. rewrite pow256_S in IH.
    assert (Hn : pow256 (n - S i) * 256 ≤ pow256 n).
    { unfold pow256. change 256 with (2 ^ 8). rewrite <-Z.pow_add_r by lia.
      apply Z.pow_le_mono_r; lia. }
    unfold to_unsigned. rewrite (Z.mod_small (out * 256 + _)) by lia.
    rewrite IH; [|lia|apply Z.mod_pos_bound, pow256_pos|lia].
    rewrite pow256_S. simpl (le_value [_]).
    rewrite le_bytes_mod_le by lia. lia.
Qed.

(** [byteswap] reverses the bytes of its argument. *)
Lemma byteswap_spec n v : byteswap n v = le_value (reverse (le_bytes n v)).
Proof.
  unfold byteswap. rewrite byteswap_loop_spec.
  - rewrite le_bytes_eq with (v := v); [simpl; lia|].
    unfold to_unsigned. apply Z.mod_mod. pose proof (pow256_pos n). lia.
  - lia.
  - apply Z.mod_pos_bound, pow256_pos.
  - rewrite Nat.sub_diag. unfold pow256. simpl. lia.
Qed.

Lemma le_bytes_byteswap n v : le_bytes n (byteswap n v) = reverse (le_bytes n v).
Proof.
  rewrite byteswap_spec.
  replace n with (length (reverse (le_bytes n v))) at 1
    by (by rewrite length_reverse, length_le_bytes).
  apply le_bytes_value. apply Forall_reverse, le_bytes_ok.
Qed.

(** Case analysis on an arithmetic type, with the powers of two computed. *)
Ltac arith_cases t :=
  destruct t; unfold arith_ok, of_unsigned, to_unsigned, pow256 in *;
  cbn [is_signed arith_size] in *;
  repeat (change (2 ^ (8 * Z.of_nat 1)) with 256 in * );
  repeat (change (2 ^ (8 * Z.of_nat 2)) with 65536 in * );
  repeat (change (2 ^ (8 * Z.of_nat 4)) with 4294967296 in * );
  repeat (change (2 ^ (8 * Z.of_nat 8)) with 18446744073709551616 in * );
  repeat (change (256 / 2) with 128 in * );
  repeat (change (65536 / 2) with 32768 in * );
  repeat (change (4294967296 / 2) with 2147483648 in * );
  repeat (change (18446744073709551616 / 2) with 9223372036854775808 in * ).

(** The ranges of the integer types the format uses for lengths and tags. *)
Ltac arith_ranges :=
  repeat match goal with
  | H : arith_ok Int32 ?v |- _ => change (-2147483648 ≤ v < 2147483648) in H
  | H : arith_ok UInt32 ?v |- _ => change (0 ≤ v < 4294967296) in H
  | H : arith_ok Int64 ?v |- _ => change (-9223372036854775808 ≤ v < 9223372036854775808) in H
  | H : arith_ok UInt16 ?v |- _ => change (0 ≤ v < 65536) in H
  | H : byte_ok ?v |- _ => change (0 ≤ v < 256) in H
  | |- arith_ok Int32 ?v => change (-2147483648 ≤ v < 2147483648)
  | |- arith_ok UInt32 ?v => change (0 ≤ v < 4294967296)
  | |- arith_ok Int64 ?v => change (-9223372036854775808 ≤ v < 9223372036854775808)
  | |- arith_ok UInt16 ?v => change (0 ≤ v < 65536)
  | |- byte_ok ?v => change (0 ≤ v < 256)
  end.

Lemma of_unsigned_mod t u : to_unsigned (arith_size t) (of_unsigned t u) = to_unsigned (arith_size t) u.
Proof.
  unfold to_unsigned, of_unsigned. destruct (is_signed t); [|done].
  destruct (u <? _); [done|]. pose proof (pow256_pos (arith_size t)).
  rewrite <-(Z.mod_add (u - _) 1) by lia. f_equal. lia.
Qed.

Lemma arith_ok_unsigned t v : arith_ok t v → of_unsigned t (to_unsigned (arith_size t) v) = v.
Proof.
  arith_cases t; intros; try (apply Z.mod_small; lia).
  all: case_match; Z.div_mod_to_equations; lia.
Qed.

Lemma of_unsigned_ok t u : t ≠ Bool_t → 0 ≤ u < pow256 (arith_size t) → arith_ok t (of_unsigned t u).
Proof. arith_cases t; intros; try done; case_match; Z.div_mod_to_equations; lia. Qed.

Section EndianFacts.
Context `{Platform}.

Lemma alignof_pos t : 1 ≤ alignof t ≤ 8.
Proof. unfold alignof, sizeof. destruct t, align8_is_4; cbn; lia. Qed.

Lemma length_object_bytes t v : length (object_bytes t v) = arith_size t.
Proof.
  unfold object_bytes. destruct native_little; [|rewrite length_reverse]; apply length_le_bytes.
Qed.

(** The bytes the writer copies out of [endian_convert v] are little-endian on
    every host. *)
Lemma object_bytes_endian_convert t v :
  arith_ok t v → object_bytes t (endian_convert t v) = le_bytes (arith_size t) v.
Proof.
  intros Hv. unfold object_bytes, endian_convert.
  destruct native_little; simpl; [done|].
  destruct (Nat.eqb_spec (arith_size t) 1) as [E|_].
  { rewrite E. done. }
  destruct (is_floating t) eqn:F; simpl.
  - by rewrite le_bytes_byteswap, reverse_involutive.
  - rewrite (le_bytes_eq _ (of_unsigned t _) _ (of_unsigned_mod t _)).
    rewrite le_bytes_byteswap, reverse_involutive. apply le_bytes_mod.
Qed.

(** What the reader makes of [sizeof(T)] wire bytes, on every host. *)
Definition wire_value (t : arith_ty) (bs : list Z) : Z := of_unsigned t (le_value bs).

Lemma endian_convert_of_object_bytes t bs :
  bytes_ok bs → length bs = arith_size t →
  endian_convert t (of_object_bytes t bs) = wire_value t bs.
Proof.
  intros Hbs Hlen. unfold of_object_bytes, endian_convert, wire_value.
  destruct native_little; simpl; [done|].
  destruct (Nat.eqb_spec (arith_size t) 1) as [E|_].
  { rewrite E in Hlen. destruct bs as [|b [|]]; done. }
  assert (Hr : bytes_ok (reverse bs)) by by apply Forall_reverse.
  assert (Hv : le_value (reverse bs) = to_unsigned (arith_size t) (le_value (reverse bs))).
  { symmetry. apply Z.mod_small. rewrite <-Hlen, <-length_reverse. by apply le_value_bound. }
  assert (Hs : ∀ u, to_unsigned (arith_size t) u = to_unsigned (arith_size t) (le_value (reverse bs)) →
                    byteswap (arith_size t) u = le_value bs).
  { intros u Hu. rewrite byteswap_spec. f_equal.
    rewrite (le_bytes_eq _ _ _ Hu).
    rewrite <-Hlen, <-length_reverse, le_bytes_value, reverse_involutive by done. done. }
  destruct (is_floating t) eqn:F; simpl.
  - assert (Hid : ∀ u, of_unsigned t u = u) by by destruct t.
    rewrite !Hid. by apply Hs.
  - f_equal. apply Hs. rewrite of_unsigned_mod. unfold to_unsigned. apply Z.mod_mod.
    pose proof (pow256_pos (arith_size t)). lia.
Qed.

Lemma wire_value_le_bytes t v : arith_ok t v → wire_value t (le_bytes (arith_size t) v) = v.
Proof. intros. unfold wire_value. rewrite le_value_bytes. by apply arith_ok_unsigned. Qed.

Lemma wire_value_ok t bs :
  t ≠ Bool_t → bytes_ok bs → length bs = arith_size t → arith_ok t (wire_value t bs).
Proof.
  intros. apply of_unsigned_ok; [done|]. replace (arith_size t) with (length bs) by done.
  by apply le_value_bound.
Qed.
(** An object representation is the value's, on every host. *)
Lemma of_object_bytes_repr t v : arith_ok t v → of_object_bytes t (object_bytes t v) = v.
Proof.
  intros Hv. unfold of_object_bytes, object_bytes. destruct native_little; rewrite ?reverse_involutive; by apply (wire_value_le_bytes t v).
Qed.

Lemma object_repr_ok t v : bytes_ok (object_bytes t v).
Proof. unfold object_bytes. destruct native_little; [|apply Forall_reverse]; apply le_bytes_ok. Qed.

Lemma of_object_bytes_ok t bs : t ≠ Bool_t → bytes_ok bs → length bs = arith_size t → arith_ok t (of_object_bytes t bs).
Proof.
  intros Ht Hb Hl. apply of_unsigned_ok; [done|]. rewrite <-Hl. destruct native_little; [by apply le_value_bound|].
  rewrite <-(length_reverse bs). apply le_value_bound. by apply Forall_reverse.
Qed.
End EndianFacts.
