(* ===== verification/Writer.v ===== *)
(** [MemoryPackWriter] ([core.hpp]): its three buffer modes, the low-level append
    operations, and the specification every higher-level write is proved against:
    [emits m bs], "[m] appends exactly [bs], or reports the overflow". *)
From S2P Require Import Prelude Endian.

(** ** State *)

(** The members of [MemoryPackWriter]. [vec_] holds the content of the caller's
    vector ([None]: null pointer) and [fixedBuf_] the memory behind the caller's
    buffer pointer ([None]: null pointer). *)
Record MemoryPackWriter := MkWriter {
  owned_ : list Z;
  ownedPos_ : Z;
  vec_ : option (list Z);
  fixedBuf_ : option (list Z);
  fixedCap_ : Z;
  fixedPos_ : Z;
  w_error_ : MemoryPackError;
}.

Abbreviation W := (M MemoryPackWriter).

Definition set_owned (o : list Z) (p : Z) (w : MemoryPackWriter) : MemoryPackWriter :=
  MkWriter o p (vec_ w) (fixedBuf_ w) (fixedCap_ w) (fixedPos_ w) (w_error_ w).
Definition set_vec (v : option (list Z)) (w : MemoryPackWriter) : MemoryPackWriter :=
  MkWriter (owned_ w) (ownedPos_ w) v (fixedBuf_ w) (fixedCap_ w) (fixedPos_ w) (w_error_ w).
Definition set_fixed (b : option (list Z)) (p : Z) (w : MemoryPackWriter) : MemoryPackWriter :=
  MkWriter (owned_ w) (ownedPos_ w) (vec_ w) b (fixedCap_ w) p (w_error_ w).
Definition set_w_error (e : MemoryPackError) (w : MemoryPackWriter) : MemoryPackWriter :=
  MkWriter (owned_ w) (ownedPos_ w) (vec_ w) (fixedBuf_ w) (fixedCap_ w) (fixedPos_ w) e.

(** Constructors. *)
Definition NewWriter : MemoryPackWriter := MkWriter [] 0 None None 0 0 NoError.
Definition WriterOfVector (externalBuffer : list Z) : MemoryPackWriter :=
  MkWriter [] 0 (Some externalBuffer) None 0 0 NoError.
Definition WriterOfBuffer (data : option (list Z)) (capacity : Z) : MemoryPackWriter :=
  MkWriter [] 0 None data capacity 0 NoError.

(** [Reset()]: the state a moved-from writer is left in. *)
Definition Reset (w : MemoryPackWriter) : MemoryPackWriter := MkWriter [] 0 None None 0 0 NoError.

(** Move construction: the new writer and the moved-from one. *)
Definition MoveWriter (other : MemoryPackWriter) : MemoryPackWriter * MemoryPackWriter :=
  (MkWriter (owned_ other) (ownedPos_ other) (vec_ other) (fixedBuf_ other)
            (fixedCap_ other) (fixedPos_ other) (w_error_ other), Reset other).

(** Move assignment, and what both objects are afterwards; [self] when they are one. *)
Definition MoveAssign (self : bool) (this other : MemoryPackWriter) : MemoryPackWriter * MemoryPackWriter :=
  if negb self then
    (MkWriter (owned_ other) (ownedPos_ other) (vec_ other) (fixedBuf_ other)
              (fixedCap_ other) (fixedPos_ other) (w_error_ other), Reset other)
  else (this, other).

(** The target goes on where the source stopped; the source writes like a new writer. *)
Lemma MoveWriter_eq other : MoveWriter other = (other, NewWriter).
Proof. by destruct other. Qed.

Lemma MoveAssign_eq this other : MoveAssign false this other = (other, NewWriter) ∧ MoveAssign true this this = (this, this).
Proof. by destruct other. Qed.

(** [std::vector::resize]: truncates, or appends value-initialized elements. *)
Definition vector_resize {A} (dflt : A) (n : Z) (v : list A) : list A :=
  take (Z.to_nat n) v ++ replicate (Z.to_nat n - length v) dflt.

(** [while (next < target) next *= 2;] in [size_t]; [None] when [fuel] rounds do
    not reach the target. *)
Fixpoint grow_loop `{Platform} (fuel : nat) (next target : Z) : option Z :=
  if next <? target then
    match fuel with
    | O => None
    | S fuel' => grow_loop fuel' ((next * 2) mod size_mod) target
    end
  else Some next.

(** One doubling per bit of [size_t] is enough. *)
Definition grow_fuel : nat := 64.

(** Stores [src] at [off] of an object of bytes; [None] outside the object. *)
Definition mem_store (off : Z) (src mem : list Z) : option (list Z) :=
  if (0 <=? off) && (off + zlen src <=? zlen mem) then Some (overwrite off src mem) else None.

Section Writer.
Context `{Platform}.

(** *** Accessors *)

Definition Data (w : MemoryPackWriter) : list Z :=
  match vec_ w with
  | Some v => v
  | None => match fixedBuf_ w with Some b => b | None => owned_ w end
  end.

Definition w_Size (w : MemoryPackWriter) : Z :=
  match vec_ w with
  | Some v => zlen v
  | None => match fixedBuf_ w with Some _ => fixedPos_ w | None => ownedPos_ w end
  end.

Definition GetSpan (w : MemoryPackWriter) : list Z := slice 0 (w_Size w) (Data w).

Definition RemainingCapacity (w : MemoryPackWriter) : Z :=
  match fixedBuf_ w with
  | Some _ => size_sub (fixedCap_ w) (fixedPos_ w)
  | None => size_mod - 1
  end.

Definition w_Failed (w : MemoryPackWriter) : bool := bool_decide (w_error_ w ≠ NoError).

(** [Fail(code, what)]: the first error sticks; with exceptions it throws. *)
Definition w_Fail (code : MemoryPackError) : W unit := λ w,
  let w' := if decide (w_error_ w = NoError) then set_w_error code w else w in
  if has_exceptions then (Throw code (w_Size w'), w') else (Ret tt, w').

Definition Reserve (capacity : Z) : W unit := modify (λ w,
  match vec_ w with
  | Some _ => w
  | None =>
      match fixedBuf_ w with
      | None => if capacity >? zlen (owned_ w)
                then set_owned (vector_resize 0 capacity (owned_ w)) (ownedPos_ w) w
                else w
      | Some _ => w
      end
  end).

Definition Clear : W unit := modify (λ w,
  set_w_error NoError
    match vec_ w with
    | Some _ => set_vec (Some []) w
    | None => match fixedBuf_ w with
              | Some b => set_fixed (Some b) 0 w
              | None => set_owned (owned_ w) 0 w
              end
    end).

(** The owned modes trim [owned_] to the write position first. *)
Definition EmptyBuffer : list Z := [].

Definition GetBuffer : W (list Z) := λ w,
  match vec_ w with
  | Some v => (Ret v, w)
  | None =>
      match fixedBuf_ w with
      | Some _ => (w_Fail NotSupported ;; mret EmptyBuffer) w
      | None => let o := vector_resize 0 (ownedPos_ w) (owned_ w) in
                (Ret o, set_owned o (ownedPos_ w) w)
      end
  end.

Definition TakeBuffer : W (list Z) := λ w,
  match vec_ w, fixedBuf_ w with
  | None, None =>
      (Ret (vector_resize 0 (ownedPos_ w) (owned_ w)), set_owned [] 0 w)
  | _, _ => (w_Fail NotSupported ;; mret []) w
  end.

(** *** Low-level append *)

Definition GrowOwned (needed : Z) : W unit := λ w,
  let target := size_add (ownedPos_ w) needed in
  let next := if zlen (owned_ w) =? 0 then 64 else (zlen (owned_ w) * 2) mod size_mod in
  match grow_loop grow_fuel next target with
  | Some n => (Ret tt, set_owned (vector_resize 0 n (owned_ w)) (ownedPos_ w) w)
  | None => (UB, w)
  end.

(** [memcpy(owned_.data() + ownedPos_, src, n); ownedPos_ += n;] *)
Definition store_owned (src : list Z) : W unit := λ w,
  match mem_store (ownedPos_ w) src (owned_ w) with
  | Some o => (Ret tt, set_owned o (size_add (ownedPos_ w) (zlen src)) w)
  | None => (UB, w)
  end.

Definition store_fixed (buf src : list Z) : W unit := λ w,
  match mem_store (fixedPos_ w) src buf with
  | Some b => (Ret tt, set_fixed (Some b) (size_add (fixedPos_ w) (zlen src)) w)
  | None => (UB, w)
  end.

Definition AppendByte (b : Z) : W unit := λ w,
  match vec_ w with
  | Some v => (Ret tt, set_vec (Some (v ++ [b])) w)
  | None =>
      match fixedBuf_ w with
      | Some buf =>
          if fixedPos_ w >=? fixedCap_ w then w_Fail BufferOverflow w
          else store_fixed buf [b] w
      | None =>
          ((if ownedPos_ w >=? zlen (owned_ w) then GrowOwned 1 else mret tt) ;;
           store_owned [b]) w
      end
  end.

Definition AppendBytes (src : list Z) : W unit := λ w,
  let n := zlen src in
  if n =? 0 then (Ret tt, w) else
  match vec_ w with
  | Some v => (Ret tt, set_vec (Some (v ++ src)) w)
  | None =>
      match fixedBuf_ w with
      | Some buf =>
          if n >? size_sub (fixedCap_ w) (fixedPos_ w) then w_Fail BufferOverflow w
          else store_fixed buf src w
      | None =>
          ((if n >? size_sub (zlen (owned_ w)) (ownedPos_ w) then GrowOwned n else mret tt) ;;
           store_owned src) w
      end
  end.

(** *** Lengths and raw values *)

Definition ToInt32Length (size : Z) : W Z :=
  if size >? 0x7FFFFFFF then w_Fail LengthLimit ;; mret (-1) else mret size.

Definition CheckedLength (size : Z) : W Z := ToInt32Length size.

Definition WriteRaw (t : arith_ty) (value : Z) : W unit :=
  AppendBytes (object_bytes t (endian_convert t value)).

(** Bulk copy on little-endian hosts, element by element elsewhere. *)
Definition WriteContiguous (t : arith_ty) (data : list Z) : W unit :=
  if zlen data =? 0 then mret tt
  else if native_little then AppendBytes (data ≫= object_bytes t)
  else mapM_ (WriteRaw t) data.
End Writer.

(** ** Invariant and specification *)

Section Spec.
Context `{Platform}.

(** The writer invariant: positions inside their buffers, sizes addressable. *)
Record w_ok (w : MemoryPackWriter) : Prop := {
  ok_owned : 0 ≤ ownedPos_ w ≤ zlen (owned_ w);
  ok_owned_size : zlen (owned_ w) ≤ 2 * grow_limit;
  ok_fixed : ∀ b, fixedBuf_ w = Some b →
    zlen b = fixedCap_ w ∧ 0 ≤ fixedPos_ w ≤ fixedCap_ w ∧ fixedCap_ w < size_mod;
}.

Definition is_fixed (w : MemoryPackWriter) : Prop :=
  vec_ w = None ∧ fixedBuf_ w ≠ None.

(** How much content the buffer mode has room for in total. *)
Definition w_limit (w : MemoryPackWriter) : Z :=
  match vec_ w, fixedBuf_ w with
  | None, Some _ => fixedCap_ w
  | _, _ => grow_limit
  end.

(** Same mode and capacity, and what was written is still there. *)
Record w_step (w w' : MemoryPackWriter) : Prop := {
  step_ok : w_ok w';
  step_limit : w_limit w' = w_limit w;
  step_fixed : is_fixed w' ↔ is_fixed w;
  step_vec : vec_ w' = None ↔ vec_ w = None;
  step_prefix : GetSpan w `prefix_of` GetSpan w';
  step_error : w_error_ w ≠ NoError → w_error_ w' = w_error_ w;
}.

(** [BufferOverflow] was reported the way the build reports errors. *)
Definition overflowed (w : MemoryPackWriter) (o : outcome unit) (w' : MemoryPackWriter) : Prop :=
  w_error_ w' = (if decide (w_error_ w = NoError) then BufferOverflow else w_error_ w) ∧
  (if has_exceptions then ∃ off, o = Throw BufferOverflow off else o = Ret tt).

(** [m] appends exactly [bs] when they fit; a fixed buffer they do not fit
    reports the overflow, and is never written past its capacity. *)
Definition emits (m : W unit) (bs : list Z) : Prop := ∀ w, w_ok w →
  (w_Size w + zlen bs ≤ w_limit w →
     ∃ w', m w = (Ret tt, w') ∧ w_step w w' ∧
           GetSpan w' = GetSpan w ++ bs ∧ w_error_ w' = w_error_ w) ∧
  (is_fixed w → w_limit w < w_Size w + zlen bs →
     ∃ o w', m w = (o, w') ∧ w_step w w' ∧ overflowed w o w').

(** *** Facts about states *)

Lemma Size_bounds w : w_ok w → 0 ≤ w_Size w ≤ zlen (Data w).
Proof.
  intros [Ho _ Hf]. unfold w_Size, Data. destruct (vec_ w) as [v|]; [zlia|].
  destruct (fixedBuf_ w) as [b|]; [|done]. destruct (Hf b eq_refl) as (? & ? & _). lia.
Qed.

Lemma zlen_GetSpan w : w_ok w → zlen (GetSpan w) = w_Size w.
Proof. intros Hw. apply Size_bounds in Hw. unfold GetSpan. apply zlen_slice; lia. Qed.

Lemma w_step_refl w : w_ok w → w_step w w.
Proof. by constructor. Qed.

#[global] Instance w_step_trans : Transitive w_step.
Proof.
  intros w1 w2 w3 [] []. constructor; [done|congruence|tauto|tauto|by etrans|].
  intros E. rewrite step_error1; [by apply step_error0|]. by rewrite step_error0.
Qed.

Lemma overflowed_sticky w o w' : overflowed w o w' → w_error_ w' ≠ NoError.
Proof. intros [-> _]. by destruct (decide _). Qed.

Lemma w_Fail_overflowed w : w_ok w →
  ∃ o w', w_Fail BufferOverflow w = (o, w') ∧ w_step w w' ∧ overflowed w o w'.
Proof.
  intros Hw. unfold w_Fail, overflowed.
  assert (Hs : w_step w (set_w_error BufferOverflow w) ∨ w_error_ w ≠ NoError).
  { destruct (decide (w_error_ w = NoError)); [left|by right].
    split; try done. destruct Hw; by split. }
  destruct (decide (w_error_ w = NoError)), has_exceptions; eexists _, _; split_and!; eauto.
  all: try (by destruct Hs); by apply w_step_refl.
Qed.

(** *** [emits] is compositional *)

Lemma fixed_room w : w_ok w → is_fixed w → w_Size w ≤ w_limit w.
Proof.
  intros [_ _ Hf] [Hv Hb]. unfold w_Size, w_limit. rewrite Hv.
  destruct (fixedBuf_ w) as [b|]; [|done]. destruct (Hf b eq_refl) as (? & ? & _). lia.
Qed.

Lemma emits_nil : emits (mret tt) [].
Proof.
  intros w Hw. split.
  - exists w. split_and!; [done|by apply w_step_refl|by rewrite app_nil_r|done].
  - intros Hf. pose proof (fixed_room w Hw Hf). zlia.
Qed.

Lemma step_size w w' bs : w_ok w → w_step w w' → GetSpan w' = GetSpan w ++ bs →
  w_Size w' = w_Size w + zlen bs.
Proof.
  intros Hw Hs E. rewrite <-!zlen_GetSpan by (done || apply Hs). by rewrite E, zlen_app.
Qed.

Lemma emits_bind m1 m2 bs1 bs2 :
  emits m1 bs1 → emits m2 bs2 → emits (m1 ;; m2) (bs1 ++ bs2).
Proof.
  intros H1 H2 w Hw. destruct (H1 w Hw) as [Hfit1 Hover1]. split.
  - intros Hroom. rewrite zlen_app in Hroom. destruct Hfit1 as (w1 & E1 & S1 & G1 & R1); [zlia|].
    pose proof (step_size _ _ _ Hw S1 G1). pose proof (step_limit _ _ S1).
    destruct (H2 w1 (step_ok _ _ S1)) as [Hfit2 _].
    destruct Hfit2 as (w2 & E2 & S2 & G2 & R2); [lia|].
    exists w2. unfold mbind, M_bind. rewrite E1. split_and!; [done|by etrans| |congruence].
    rewrite G2, G1. by rewrite app_assoc.
  - intros Hf Hover. rewrite zlen_app in Hover.
    destruct (decide (w_Size w + zlen bs1 ≤ w_limit w)) as [Hroom|Hno].
    + destruct (Hfit1 Hroom) as (w1 & E1 & S1 & G1 & R1).
      pose proof (step_size _ _ _ Hw S1 G1). pose proof (step_limit _ _ S1).
      destruct (H2 w1 (step_ok _ _ S1)) as [_ Hover2].
      destruct Hover2 as (o & w2 & E2 & S2 & O2 & O3); [by apply S1|lia|].
      exists o, w2. unfold mbind, M_bind. rewrite E1. split_and!; [done|by etrans|].
      split; [by rewrite <-R1|done].
    + destruct Hover1 as (o & w1 & E1 & S1 & O1); [done|lia|].
      unfold mbind, M_bind. rewrite E1. pose proof (overflowed_sticky _ _ _ O1) as Hst.
      destruct O1 as [O1 O1']. destruct has_exceptions eqn:Ex.
      { destruct O1' as [off ->]. exists (Throw BufferOverflow off), w1.
        split_and!; [done|done|]. split; [done|]. rewrite Ex. eauto. }
      subst o. destruct (H2 w1 (step_ok _ _ S1)) as [Hfit2 Hover2].
      destruct (decide (w_Size w1 + zlen bs2 ≤ w_limit w1)) as [Hr|Hr].
      * destruct (Hfit2 Hr) as (w2 & E2 & S2 & _ & R2). exists (Ret tt), w2.
        split_and!; [done|by etrans|]. unfold overflowed. rewrite Ex. by rewrite R2.
      * destruct Hover2 as (o & w2 & E2 & S2 & _ & O2); [by apply S1|lia|].
        exists o, w2. split_and!; [done|by etrans|]. unfold overflowed.
        by rewrite (step_error _ _ S2).
Qed.
End Spec.

(** ** The append operations meet the specification *)

Section Append.
Context `{Platform}.

(** The doubling loop reaches its target within [grow_fuel] rounds, without
    wrapping, and does not overshoot it by more than a factor of two. *)
Lemma grow_loop_spec fuel next target :
  0 < next → target ≤ next * 2 ^ Z.of_nat fuel → target ≤ grow_limit →
  ∃ n, grow_loop fuel next target = Some n ∧ target ≤ n ∧ next ≤ n ∧ (n = next ∨ n < 2 * target).
Proof.
  pose proof grow_limit_bounds. revert next.
  induction fuel as [|fuel IH]; intros next Hn Ht Hlim; simpl.
  all: destruct (Z.ltb_spec next target); [|exists next; split_and!; auto; lia].
  { lia. }
  rewrite Z.mod_small by lia.
  destruct (IH (next * 2)) as (n & E & Hn1 & Hn2 & Hn3); [lia| |lia|].
  { rewrite Nat2Z.inj_succ, Z.pow_succ_r in Ht by lia. lia. }
  exists n. split_and!; [done|lia|lia|]. right. lia.
Qed.

Lemma zlen_vector_resize (n : Z) (v : list Z) : 0 ≤ n → zlen (vector_resize 0 n v) = n.
Proof.
  intros. unfold vector_resize, zlen. rewrite length_app, length_take, length_replicate. lia.
Qed.

Lemma take_vector_resize (p n : Z) (v : list Z) :
  0 ≤ p ≤ zlen v → p ≤ n → take (Z.to_nat p) (vector_resize 0 n v) = take (Z.to_nat p) v.
Proof.
  unfold vector_resize, zlen. intros. rewrite take_app_le by (rewrite length_take; lia).
  rewrite take_take. f_equal. lia.
Qed.

Lemma mem_store_Some off src mem :
  0 ≤ off → off + zlen src ≤ zlen mem → mem_store off src mem = Some (overwrite off src mem).
Proof.
  intros. unfold mem_store.
  destruct (Z.leb_spec 0 off), (Z.leb_spec (off + zlen src) (zlen mem)); try done; lia.
Qed.

(** *** Owned mode *)

Definition owned_mode (w : MemoryPackWriter) : Prop := vec_ w = None ∧ fixedBuf_ w = None.

Lemma GetSpan_owned w : owned_mode w → GetSpan w = take (Z.to_nat (ownedPos_ w)) (owned_ w).
Proof. intros [Hv Hb]. unfold GetSpan, w_Size, Data. by rewrite Hv, Hb. Qed.

Lemma owned_step w o p :
  w_ok w → owned_mode w → ownedPos_ w ≤ p ≤ zlen o → zlen o ≤ 2 * grow_limit →
  take (Z.to_nat (ownedPos_ w)) o = take (Z.to_nat (ownedPos_ w)) (owned_ w) →
  w_step w (set_owned o p w).
Proof.
  intros Hw Hm Hp Hsz Ht. destruct (Hm) as [Hv Hb]. pose proof (ok_owned _ Hw).
  split; try done.
  - split; simpl; [lia|lia|]. intros b. rewrite Hb. done.
  - rewrite !GetSpan_owned by done. cbn [ownedPos_ owned_ set_owned].
    exists (take (Z.to_nat p - Z.to_nat (ownedPos_ w)) (drop (Z.to_nat (ownedPos_ w)) o)).
    rewrite <-Ht, take_take_drop. f_equal. lia.
Qed.

Lemma GrowOwned_spec w n :
  w_ok w → owned_mode w → 0 < n → ownedPos_ w + n ≤ grow_limit →
  zlen (owned_ w) < ownedPos_ w + n →
  ∃ o, GrowOwned n w = (Ret tt, set_owned o (ownedPos_ w) w) ∧
       ownedPos_ w + n ≤ zlen o ∧ zlen o ≤ 2 * grow_limit ∧
       take (Z.to_nat (ownedPos_ w)) o = take (Z.to_nat (ownedPos_ w)) (owned_ w).
Proof.
  intros Hw Hm Hn Hlim Hgrow. pose proof (ok_owned _ Hw). pose proof grow_limit_bounds.
  unfold GrowOwned. rewrite size_add_small by lia.
  set (next := if zlen (owned_ w) =? 0 then 64 else (zlen (owned_ w) * 2) mod size_mod).
  assert (Hnext : 1 ≤ next ≤ 64 ∨ next = 2 * zlen (owned_ w) ∧ 1 ≤ next).
  { unfold next. destruct (Z.eqb_spec (zlen (owned_ w)) 0); [lia|].
    rewrite Z.mod_small by lia. lia. }
  destruct (grow_loop_spec grow_fuel next (ownedPos_ w + n)) as (k & E & Hk1 & Hk2 & Hk3);
    [lia| |lia|].
  { change (2 ^ Z.of_nat grow_fuel) with (2 ^ 64).
    assert (grow_limit ≤ 2 ^ 62) by (unfold grow_limit; destruct size_t_is_32; lia). lia. }
  rewrite E. eexists. split; [done|]. rewrite zlen_vector_resize by lia.
  split_and!; [lia|lia|]. apply take_vector_resize; lia.
Qed.

Lemma store_owned_spec w src :
  w_ok w → owned_mode w → ownedPos_ w + zlen src ≤ zlen (owned_ w) →
  ∃ w', store_owned src w = (Ret tt, w') ∧ w_step w w' ∧
        GetSpan w' = GetSpan w ++ src ∧ w_error_ w' = w_error_ w.
Proof.
  intros Hw Hm Hroom. pose proof (ok_owned _ Hw). pose proof (ok_owned_size _ Hw).
  pose proof grow_limit_bounds. zlen_pos.
  unfold store_owned. rewrite mem_store_Some, size_add_small by lia.
  eexists. split; [done|].
  pose proof (take_overwrite (ownedPos_ w) src (owned_ w) ltac:(lia) ltac:(lia)) as Ht.
  split_and!; [|by rewrite !GetSpan_owned|done].
  apply owned_step; rewrite ?zlen_overwrite by lia; try done; [lia|].
  apply (f_equal (take (Z.to_nat (ownedPos_ w)))) in Ht.
  rewrite take_take, Nat.min_l in Ht by lia. rewrite Ht, take_app_le, take_take.
  - f_equal. lia.
  - unfold zlen in *. rewrite length_take. lia.
Qed.

(** Growing when needed, then storing. *)
Lemma append_owned_spec w src (grow : bool) :
  w_ok w → owned_mode w → 0 < zlen src → ownedPos_ w + zlen src ≤ grow_limit →
  (grow = true ↔ zlen (owned_ w) < ownedPos_ w + zlen src) →
  ∃ w', ((if grow then GrowOwned (zlen src) else mret tt) ;; store_owned src) w = (Ret tt, w') ∧
        w_step w w' ∧ GetSpan w' = GetSpan w ++ src ∧ w_error_ w' = w_error_ w.
Proof.
  intros Hw Hm Hn Hlim Hgrow. destruct grow.
  - destruct (GrowOwned_spec w (zlen src)) as (o & E & Ho1 & Ho2 & Ht); [done..|by apply Hgrow|].
    pose proof (ok_owned _ Hw).
    assert (S1 : w_step w (set_owned o (ownedPos_ w) w)) by (apply owned_step; auto; lia).
    destruct (store_owned_spec (set_owned o (ownedPos_ w) w) src) as (w' & E' & S2 & G & R);
      [apply S1|done|done|].
    exists w'. unfold mbind, M_bind. rewrite E. split_and!; [done|by etrans| |done].
    rewrite G. f_equal. rewrite !GetSpan_owned by done. done.
  - apply store_owned_spec; [done..|]. destruct (Z.le_gt_cases (ownedPos_ w + zlen src) (zlen (owned_ w)));
      [done|]. exfalso. assert (false = true) by (apply Hgrow; lia). done.
Qed.

(** *** Fixed mode *)

Lemma store_fixed_spec w b src :
  w_ok w → vec_ w = None → fixedBuf_ w = Some b → fixedPos_ w + zlen src ≤ fixedCap_ w →
  ∃ w', store_fixed b src w = (Ret tt, w') ∧ w_step w w' ∧
        GetSpan w' = GetSpan w ++ src ∧ w_error_ w' = w_error_ w.
Proof.
  intros Hw Hv Hb Hroom. destruct (ok_fixed _ Hw b Hb) as (Hlen & Hpos & Hcap). zlen_pos.
  unfold store_fixed. rewrite mem_store_Some, size_add_small by lia.
  eexists. split; [done|].
  pose proof (take_overwrite (fixedPos_ w) src b ltac:(lia) ltac:(lia)) as Ht.
  assert (G : GetSpan (set_fixed (Some (overwrite (fixedPos_ w) src b)) (fixedPos_ w + zlen src) w)
              = GetSpan w ++ src).
  { unfold GetSpan, w_Size, Data. cbn. rewrite Hv, Hb. apply Ht. }
  split_and!; [|done|done]. split; [|unfold w_limit; cbn; by rewrite Hv, Hb| |done| |done].
  - split; [apply Hw|apply Hw|]. cbn. intros ? [= <-]. rewrite zlen_overwrite by lia. lia.
  - unfold is_fixed. cbn. rewrite Hb. done.
  - rewrite G. by apply prefix_app_r.
Qed.

Lemma set_vec_step w v src : w_ok w → vec_ w = Some v →
  w_step w (set_vec (Some (v ++ src)) w) ∧
  GetSpan (set_vec (Some (v ++ src)) w) = GetSpan w ++ src.
Proof.
  intros Hw Hv.
  assert (G : GetSpan (set_vec (Some (v ++ src)) w) = GetSpan w ++ src).
  { unfold GetSpan, w_Size, Data. cbn. by rewrite Hv, !slice_all. }
  split; [|done]. split; [|unfold w_limit; cbn; by rewrite Hv| |cbn; by rewrite Hv| |done].
  - destruct Hw. by split.
  - unfold is_fixed. cbn. rewrite Hv. split; intros []; done.
  - rewrite G. by apply prefix_app_r.
Qed.

(** *** [AppendBytes] and [AppendByte] *)

Lemma AppendBytes_emits bs : emits (AppendBytes bs) bs.
Proof.
  intros w Hw. unfold AppendBytes.
  destruct (Z.eqb_spec (zlen bs) 0) as [E|E].
  { apply zlen_0_nil in E as ->. by apply emits_nil. }
  zlen_pos. unfold w_Size, w_limit.
  destruct (vec_ w) as [v|] eqn:Hv.
  { split; [|intros [? _]; congruence]. intros _. eexists. split; [done|].
    destruct (set_vec_step w v bs Hw Hv). by split_and!. }
  destruct (fixedBuf_ w) as [b|] eqn:Hb.
  - destruct (ok_fixed _ Hw b Hb) as (Hlen & Hpos & Hcap). rewrite size_sub_small by lia.
    destruct (Z.gtb_spec (zlen bs) (fixedCap_ w - fixedPos_ w)); split; try (intros; lia).
    + intros _ _. by apply w_Fail_overflowed.
    + intros _. apply store_fixed_spec; [done..|lia].
  - split; [|intros [_ []]; done]. intros Hroom. pose proof (ok_owned _ Hw).
    pose proof (ok_owned_size _ Hw). pose proof grow_limit_bounds.
    rewrite size_sub_small by lia. apply append_owned_spec; [done..|lia|lia|].
    destruct (Z.gtb_spec (zlen bs) (zlen (owned_ w) - ownedPos_ w)); split; try done; lia.
Qed.

Lemma AppendByte_emits b : emits (AppendByte b) [b].
Proof.
  intros w Hw. unfold AppendByte, w_Size, w_limit. change (zlen [b]) with 1.
  destruct (vec_ w) as [v|] eqn:Hv.
  { split; [|intros [? _]; congruence]. intros _. eexists. split; [done|].
    destruct (set_vec_step w v [b] Hw Hv). by split_and!. }
  destruct (fixedBuf_ w) as [buf|] eqn:Hb.
  - destruct (ok_fixed _ Hw buf Hb) as (Hlen & Hpos & Hcap).
    destruct (Z.geb_spec (fixedPos_ w) (fixedCap_ w)); split; try (intros; lia).
    + intros _ _. by apply w_Fail_overflowed.
    + intros _. apply store_fixed_spec; auto. change (zlen [b]) with 1. lia.
  - split; [|intros [_ []]; done]. intros Hroom. pose proof (ok_owned _ Hw).
    apply (append_owned_spec w [b]); [done..|]. change (zlen [b]) with 1.
    destruct (Z.geb_spec (ownedPos_ w) (zlen (owned_ w))); split; try done; lia.
Qed.

Lemma WriteRaw_emits t v : arith_ok t v → emits (WriteRaw t v) (le_bytes (arith_size t) v).
Proof.
  intros. unfold WriteRaw. rewrite object_bytes_endian_convert by done. apply AppendBytes_emits.
Qed.

Lemma mapM_emits {A} (f : A → W unit) (g : A → list Z) l :
  (∀ x, x ∈ l → emits (f x) (g x)) → emits (mapM_ f l) (l ≫= g).
Proof.
  induction l as [|x l IH]; intros Hf; simpl; [apply emits_nil|].
  apply emits_bind; [apply Hf; left|]. apply IH. intros y Hy. apply Hf. by right.
Qed.

Lemma WriteContiguous_emits t data :
  Forall (arith_ok t) data →
  emits (WriteContiguous t data) (data ≫= le_bytes (arith_size t)).
Proof.
  intros Hok. unfold WriteContiguous. destruct (Z.eqb_spec (zlen data) 0) as [E|_].
  { apply zlen_0_nil in E as ->. apply emits_nil. }
  destruct native_little eqn:En.
  - replace (data ≫= object_bytes t) with (data ≫= le_bytes (arith_size t));
      [apply AppendBytes_emits|].
    clear Hok. induction data as [|v data IH]; [done|]. rewrite !bind_cons, IH. f_equal.
    unfold object_bytes. by rewrite En.
  - apply mapM_emits. intros v Hv. apply WriteRaw_emits. by eapply Forall_forall in Hok.
Qed.

Lemma NewWriter_ok : w_ok NewWriter.
Proof. pose proof grow_limit_bounds. split; cbn; try done; zlia. Qed.

Lemma WriterOfVector_ok v : w_ok (WriterOfVector v).
Proof. pose proof grow_limit_bounds. split; cbn; try done; zlia. Qed.

Lemma WriterOfBuffer_ok b : zlen b < size_mod → w_ok (WriterOfBuffer (Some b) (zlen b)).
Proof.
  pose proof grow_limit_bounds. split; cbn; [zlia|zlia|]. intros ? [= <-]. zlia.
Qed.
End Append.

#[export] Hint Resolve emits_nil AppendBytes_emits AppendByte_emits WriteRaw_emits
  WriteContiguous_emits : mp.
