(* ===== verification/Reader.v ===== *)
(** [MemoryPackReader] ([core.hpp]): state, bounds checks, headers, primitives and
    depth tracking, with the two specifications every read is proved against:
    [safe_at] (any input: no out-of-bounds access, sticky errors) and [reads]
    (well-formed input decodes to the value, truncated input is rejected). *)
From S2P Require Import Prelude Endian.

(** ** Wire format constants *)

Definition NULL_OBJECT : Z := 255.
Definition WIDE_TAG : Z := 250.
Definition MAX_MEMBER_COUNT : Z := 249.
Definition NULL_COLLECTION : Z := -1.
Definition VARINT_MAX_SINGLE : Z := 127.
Definition VARINT_UINT16_TAG : Z := 0x84.
Definition VARINT_UINT32_TAG : Z := 0x82.

(** ** State *)

Record ReaderOptions := MkOptions {
  maxCollectionLength : Z;
  maxStringLength : Z;
  maxDepth : Z;
}.

Definition DefaultOptions : ReaderOptions := MkOptions 0xFFFFFFFF 0xFFFFFFFF 256.

(** [data_] is the memory the reader was given, so [size_] is its length. *)
Record MemoryPackReader := MkReader {
  data_ : list Z;
  pos_ : Z;
  depth_ : Z;
  options_ : ReaderOptions;
  error_ : MemoryPackError;
}.

Abbreviation R := (M MemoryPackReader).

Definition size_ (r : MemoryPackReader) : Z := zlen (data_ r).

Definition set_pos (p : Z) (r : MemoryPackReader) : MemoryPackReader :=
  MkReader (data_ r) p (depth_ r) (options_ r) (error_ r).
Definition set_depth (d : Z) (r : MemoryPackReader) : MemoryPackReader :=
  MkReader (data_ r) (pos_ r) d (options_ r) (error_ r).
Definition set_error (e : MemoryPackError) (r : MemoryPackReader) : MemoryPackReader :=
  MkReader (data_ r) (pos_ r) (depth_ r) (options_ r) e.

Definition NewReader (data : list Z) (options : ReaderOptions) : MemoryPackReader :=
  MkReader data 0 0 options NoError.

(** Result of [ReadObjectHeader]. *)
Record ObjectHeader := MkHeader { count : Z; isNull : bool }.

Section Reader.
Context `{Platform}.

Definition Failed (r : MemoryPackReader) : bool := bool_decide (error_ r ≠ NoError).

Definition Options (r : MemoryPackReader) : ReaderOptions := options_ r.
Definition SetOptions (options : ReaderOptions) (r : MemoryPackReader) : MemoryPackReader :=
  MkReader (data_ r) (pos_ r) (depth_ r) options (error_ r).
Definition Position (r : MemoryPackReader) : Z := pos_ r.
Definition Remaining (r : MemoryPackReader) : Z := size_sub (size_ r) (pos_ r).
Definition IsEnd (r : MemoryPackReader) : bool := pos_ r >=? size_ r.

Definition Fail (code : MemoryPackError) : R unit := λ r,
  let r' := if decide (error_ r = NoError) then set_error code r else r in
  if has_exceptions then (Throw code (pos_ r'), r') else (Ret tt, r').

Definition EnsureBytes (n : Z) : R bool := λ r,
  if decide (error_ r = NoError) then
    if n >? size_sub (size_ r) (pos_ r)
    then (Fail BufferUnderflow ;; mret false) r
    else (Ret true, r)
  else (Ret false, r).

(** Reads [n] bytes of memory at [data_ + off]; undefined outside the input. *)
Definition load (off n : Z) : R (list Z) := λ r,
  if (0 <=? off) && (off + n <=? size_ r) then (Ret (slice off n (data_ r)), r) else (UB, r).

Definition advance (n : Z) : R unit := modify (λ r, set_pos (size_add (pos_ r) n) r).

(** [if (!EnsureBytes(n)) return dflt; memcpy(.., data_ + pos_, n); pos_ += n;] *)
Definition take_bytes (n : Z) : R (option (list Z)) :=
  ok ← EnsureBytes n;
  if ok : bool then
    p ← gets pos_;
    bs ← load p n;
    advance n ;;
    mret (Some bs)
  else mret None.

Definition ReadByte : R Z :=
  bs ← take_bytes 1;
  mret match bs with Some (b :: _) => b | _ => 0 end.

Definition ReadRaw (t : arith_ty) : R Z :=
  bs ← take_bytes (sizeof t);
  mret match bs with
       | Some bs => endian_convert t (of_object_bytes t bs)
       | None => 0
       end.

(** *** Position *)

Definition Advance (n : Z) : R unit :=
  ok ← EnsureBytes n;
  if ok : bool then advance n else mret tt.

Definition Seek (position : Z) : R unit := λ r,
  if position >? size_ r then Fail BufferUnderflow r else (Ret tt, set_pos position r).

Definition ResetReader (r : MemoryPackReader) : MemoryPackReader :=
  MkReader (data_ r) 0 0 (options_ r) NoError.

(** A reader over the next [length] bytes; its depth starts at zero again. *)
Definition SubReader (length : Z) : R MemoryPackReader :=
  ok ← EnsureBytes length;
  opts ← gets options_;
  if ok : bool then
    p ← gets pos_;
    bs ← load p length;
    advance length ;;
    mret (NewReader bs opts)
  else mret (NewReader [] opts).

(** *** Headers *)

Definition ReadObjectHeader : R ObjectHeader :=
  b ← ReadByte;
  if b =? NULL_OBJECT then mret (MkHeader 0 true)
  else if b >? MAX_MEMBER_COUNT then Fail InvalidHeader ;; mret (MkHeader 0 true)
  else mret (MkHeader b false).

Definition PeekIsNull : R bool :=
  ended ← gets IsEnd;
  if ended : bool then mret false else
  p ← gets pos_;
  bs ← load p 1;
  mret (bool_decide (bs = [NULL_OBJECT])).

Definition ReadCollectionHeader : R Z := ReadRaw Int32.

Definition ReadCollectionLength (minElementSize : Z) : R Z :=
  len ← ReadRaw Int32;
  if len <? 0 then
    if negb (len =? NULL_COLLECTION) then Fail LengthLimit ;; mret (-1) else mret (-1)
  else
    opts ← gets options_;
    remaining ← gets Remaining;
    if len >? maxCollectionLength opts then Fail LengthLimit ;; mret (-1)
    else if (minElementSize >? 0) && (len >? remaining / minElementSize)
         then Fail LengthLimit ;; mret (-1)
    else mret len.

Definition ReadUnionHeader : R (option Z) :=
  b ← ReadByte;
  if b =? NULL_OBJECT then mret None
  else if b =? WIDE_TAG then tag ← ReadRaw UInt16; mret (Some tag)
  else if b >? WIDE_TAG then Fail InvalidHeader ;; mret None
  else mret (Some b).

(** *** VersionTolerant member lengths *)

Definition ReadVarIntLength : R Z :=
  b ← ReadByte;
  if b <=? VARINT_MAX_SINGLE then mret b
  else if b =? VARINT_UINT16_TAG then ReadRaw UInt16
  else if b =? VARINT_UINT32_TAG then ReadRaw UInt32
  else Fail InvalidHeader ;; mret 0.

(** *** Lengths of strings *)

Definition CheckStringLength (byteCount unitSize : Z) : R bool :=
  opts ← gets options_;
  remaining ← gets Remaining;
  if byteCount >? maxStringLength opts then Fail LengthLimit ;; mret false
  else if (unitSize >? 0) && (byteCount >? remaining / unitSize)
       then Fail LengthLimit ;; mret false
  else mret true.

(** *** Depth *)

Definition EnterObject : R bool :=
  modify (λ r, set_depth ((depth_ r + 1) mod 2 ^ 32) r) ;;
  d ← gets depth_;
  opts ← gets options_;
  if d >? maxDepth opts then Fail LengthLimit ;; mret false else mret true.

Definition LeaveObject : R unit :=
  modify (λ r, if depth_ r >? 0 then set_depth (depth_ r - 1) r else r).

Definition RequireEnd : R bool :=
  ended ← gets IsEnd;
  if ended : bool then mret true else Fail TrailingBytes ;; mret false.
End Reader.

(** ** Specifications *)

Section Spec.
Context `{Platform}.

Record r_ok (r : MemoryPackReader) : Prop := {
  ok_pos : 0 ≤ pos_ r ≤ size_ r;
  ok_size : size_ r < size_mod;
  ok_data : bytes_ok (data_ r);
  ok_depth : 0 ≤ depth_ r < 2 ^ 32;
  ok_options : maxDepth (options_ r) < 2 ^ 32;
}.

(** What any read does to the reader: the input and the limits are untouched,
    the first error is never overwritten, and a failed reader does not move. *)
Record r_step (r r' : MemoryPackReader) : Prop := {
  rstep_ok : r_ok r';
  rstep_data : data_ r' = data_ r;
  rstep_options : options_ r' = options_ r;
  rstep_error : error_ r ≠ NoError → error_ r' = error_ r;
  rstep_frozen : error_ r ≠ NoError → pos_ r' = pos_ r;
}.

#[global] Instance r_step_trans : Transitive r_step.
Proof.
  intros r1 r2 r3 [] []. split; [done|congruence|congruence| |].
  all: intros E; rewrite ?rstep_error1, ?rstep_frozen1 by (by rewrite rstep_error0); auto.
Qed.

(** [m] run on [r] has no undefined behaviour, throws only when exceptions are
    compiled in, records an error when it throws, returns normally with a clean
    reader otherwise (with exceptions), and its result satisfies [Q]. *)
Definition safe_at {A} (r : MemoryPackReader) (m : R A)
    (Q : A → MemoryPackReader → Prop) : Prop :=
  match m r with
  | (Ret a, r') =>
      r_step r r' ∧
      (has_exceptions = true → error_ r = NoError → error_ r' = NoError) ∧ Q a r'
  | (Throw _ _, r') => has_exceptions = true ∧ r_step r r' ∧ error_ r' ≠ NoError
  | (UB, _) => False
  end.

Definition safe {A} (m : R A) (Q : A → MemoryPackReader → Prop) : Prop :=
  ∀ r, r_ok r → safe_at r m Q.

Definition anything {A} (_ : A) (_ : MemoryPackReader) : Prop := True.

(** [m] did not decode a value: it threw, or the reader is in the error state. *)
Definition fails_at {A} (r : MemoryPackReader) (m : R A) : Prop :=
  match m r with
  | (Ret _, r') => error_ r' ≠ NoError
  | (Throw _ _, r') => error_ r' ≠ NoError
  | (UB, _) => False
  end.

(** The input not consumed yet. *)
Definition rest (r : MemoryPackReader) : list Z := drop (Z.to_nat (pos_ r)) (data_ r).

Definition skip (n : Z) (r : MemoryPackReader) : MemoryPackReader := set_pos (pos_ r + n) r.

(** A clean reader with limits [o] at depth [d]. *)
Record ready (o : ReaderOptions) (d : Z) (r : MemoryPackReader) : Prop := {
  ready_ok : r_ok r;
  ready_options : options_ r = o;
  ready_depth : depth_ r = d;
  ready_error : error_ r = NoError;
}.

(** [m] decodes exactly the bytes [bs] to [a], whatever follows them, and
    reports an error on every proper prefix of [bs]. *)
Definition reads {A} (o : ReaderOptions) (d : Z) (m : R A) (bs : list Z) (a : A) : Prop :=
  ∀ r, ready o d r →
    (bs `prefix_of` rest r → m r = (Ret a, skip (zlen bs) r)) ∧
    (rest r `prefix_of` bs → rest r ≠ bs → fails_at r m).
End Spec.

(** ** Rules of the safety specification *)

Create HintDb safe.

Section SafeRules.
Context `{Platform}.

Lemma r_step_refl r : r_ok r → r_step r r.
Proof. by split. Qed.

Lemma r_ok_set_pos r p : r_ok r → 0 ≤ p ≤ size_ r → r_ok (set_pos p r).
Proof. intros [] Hp. by split. Qed.

Lemma safe_at_mono {A} r (m : R A) (P Q : A → MemoryPackReader → Prop) :
  safe_at r m P → (∀ a r', r_step r r' → P a r' → Q a r') → safe_at r m Q.
Proof.
  unfold safe_at. destruct (m r) as [[a| |] r']; [|done..].
  intros (S & N & HP) HQ. split_and!; auto.
Qed.

Lemma safe_at_ret {A} r (a : A) Q : r_ok r → Q a r → safe_at r (mret a) Q.
Proof. intros. split_and!; [by apply r_step_refl|done|done]. Qed.

Lemma safe_at_gets {A} r (f : MemoryPackReader → A) Q : r_ok r → Q (f r) r → safe_at r (gets f) Q.
Proof. intros. split_and!; [by apply r_step_refl|done|done]. Qed.

Lemma safe_at_bind {A B} r (m : R A) (k : A → R B) P Q :
  safe_at r m P →
  (∀ a r', r_ok r' → r_step r r' → P a r' → safe_at r' (k a) Q) →
  safe_at r (m ≫= k) Q.
Proof.
  unfold safe_at, mbind, M_bind. destruct (m r) as [[a|e off|] r1]; [|done|done].
  intros (S1 & N1 & HP) Hk. specialize (Hk a r1 (rstep_ok _ _ S1) S1 HP).
  destruct (k a r1) as [[b|e off|] r2]; [| |done].
  - destruct Hk as (S2 & N2 & HQ). split_and!; [by etrans|auto|done].
  - destruct Hk as (Ex & S2 & E2). split_and!; [done|by etrans|done].
Qed.

Lemma safe_bind {A B} (m : R A) (k : A → R B) P Q :
  safe m P → (∀ a r, r_ok r → P a r → safe_at r (k a) Q) → safe (m ≫= k) Q.
Proof. intros Hm Hk r Hr. eapply safe_at_bind; [by apply Hm|]. auto. Qed.

(** [gets] followed by its continuation, on the same reader. *)
Lemma safe_at_gets_bind {A B} r (f : MemoryPackReader → A) (k : A → R B) Q :
  safe_at r (k (f r)) Q → safe_at r (gets f ≫= k) Q.
Proof. done. Qed.

(** A change of state that respects [r_step]. *)
Lemma safe_at_modify r (f : MemoryPackReader → MemoryPackReader) (Q : unit → MemoryPackReader → Prop) :
  r_step r (f r) → (error_ r = NoError → error_ (f r) = NoError) → Q tt (f r) →
  safe_at r (modify f) Q.
Proof. intros. by split_and!. Qed.

Lemma safe_Fail r e : r_ok r → e ≠ NoError → safe_at r (Fail e) (λ _ r', error_ r' ≠ NoError).
Proof.
  intros Hr He. unfold safe_at, Fail. destruct (decide (error_ r = NoError)) as [E|E].
  - assert (r_step r (set_error e r)) by (split; try done; destruct Hr; by split).
    destruct has_exceptions eqn:Ex; by split_and!.
  - pose proof (r_step_refl r Hr). destruct has_exceptions eqn:Ex; by split_and!.
Qed.

Lemma safe_Fail_bind {A} r e (a : A) (Q : A → MemoryPackReader → Prop) :
  r_ok r → e ≠ NoError → (∀ r', error_ r' ≠ NoError → Q a r') →
  safe_at r (Fail e ;; mret a) Q.
Proof.
  intros Hr He HQ. eapply safe_at_bind; [by apply safe_Fail|]. intros ? r' Hr' _ E.
  by apply safe_at_ret; auto.
Qed.

Lemma Remaining_spec r : r_ok r → Remaining r = size_ r - pos_ r.
Proof. intros []. unfold Remaining. by apply size_sub_small. Qed.

(** The bounds check is exact for every [size_t] argument: the subtraction form
    cannot wrap, whatever [n] is. *)
Lemma safe_EnsureBytes r n : r_ok r →
  safe_at r (EnsureBytes n) (λ ok r',
    if ok : bool then r' = r ∧ error_ r = NoError ∧ n ≤ size_ r - pos_ r
    else error_ r' ≠ NoError).
Proof.
  intros Hr. unfold EnsureBytes, safe_at. change (size_sub (size_ r) (pos_ r)) with (Remaining r).
  rewrite Remaining_spec by done.
  destruct (decide (error_ r = NoError)) as [E|E].
  - destruct (Z.gtb_spec n (size_ r - pos_ r)).
    + by apply (safe_Fail_bind r BufferUnderflow false
        (λ (ok : bool) r', if ok then _ else error_ r' ≠ NoError)).
    + split_and!; [by apply r_step_refl|done|done|done|lia].
  - split_and!; [by apply r_step_refl|done|done].
Qed.

Lemma safe_take_bytes r n : r_ok r → 0 ≤ n →
  safe_at r (take_bytes n) (λ o r',
    match o with
    | Some bs => zlen bs = n ∧ bytes_ok bs ∧ pos_ r' = pos_ r + n ∧ error_ r = NoError
    | None => error_ r' ≠ NoError
    end).
Proof.
  intros Hr Hn. unfold take_bytes. eapply safe_at_bind; [by apply safe_EnsureBytes|].
  intros [|] r' Hr' S.
  - intros (-> & E & Hroom). pose proof (ok_pos r Hr). pose proof (ok_size r Hr).
    unfold safe_at, mbind, M_bind, gets, load. cbn.
    destruct (Z.leb_spec 0 (pos_ r)), (Z.leb_spec (pos_ r + n) (size_ r)); [|lia..]; cbn.
    rewrite size_add_small by lia. split_and!; [|done| |by apply Forall_slice, Hr|done|done].
    + split; try done. by apply r_ok_set_pos; [|lia].
    + apply zlen_slice; unfold size_ in *; lia.
  - intros E. by apply safe_at_ret.
Qed.

Lemma safe_ReadByte r : r_ok r → safe_at r ReadByte (λ b _, byte_ok b).
Proof.
  intros Hr. eapply safe_at_bind; [by apply safe_take_bytes|].
  intros [bs|] r' Hr' _; intros Hbs; apply safe_at_ret; try done.
  destruct Hbs as (_ & Hbs & _). destruct bs; [done|]. by inversion Hbs.
Qed.

Lemma safe_ReadRaw r t : r_ok r → t ≠ Bool_t → safe_at r (ReadRaw t) (λ v _, arith_ok t v).
Proof.
  intros Hr Ht. eapply safe_at_bind; [apply safe_take_bytes; [done|unfold sizeof; lia]|].
  intros [bs|] r' Hr' _; intros Hbs; apply safe_at_ret; try done.
  - destruct Hbs as (Hlen & Hbs & _). unfold zlen, sizeof in Hlen.
    rewrite endian_convert_of_object_bytes by (done || lia). apply wire_value_ok; done || lia.
  - clear. arith_cases t; lia.
Qed.
End SafeRules.

#[export] Hint Resolve safe_ReadByte safe_ReadRaw safe_EnsureBytes safe_take_bytes
  safe_Fail : safe.
#[export] Hint Extern 1 (_ ≠ _) => discriminate : safe.
#[export] Hint Extern 1 (_ ≤ _) => lia : safe.

(** One step of a safety proof: a rule for the head construct of the goal. *)
Ltac safe_step :=
  lazymatch goal with
  | |- safe _ _ => intros ? ?
  | |- safe_at _ (gets _ ≫= _) _ => apply safe_at_gets_bind
  | |- safe_at _ (Fail _ ;; mret _) _ =>
      apply safe_Fail_bind; [assumption|discriminate|intros ? ?]
  | |- safe_at _ (mbind _ _) _ =>
      eapply safe_at_bind; [solve [eauto with safe]|cbv beta; intros ? ? ? ? ?]
  | |- safe_at _ (mret _) _ => apply safe_at_ret; [assumption|]
  | |- safe_at _ (if ?b then _ else _) _ => destruct b eqn:?
  | |- safe_at _ (match ?x with _ => _ end) _ => destruct x eqn:?
  | |- safe_at _ _ anything => eapply safe_at_mono; [solve [eauto with safe]|done]
  | |- anything _ _ => exact I
  end.
Ltac safe_go := repeat safe_step.

Section SafeOps.
Context `{Platform}.

Lemma safe_ReadObjectHeader r : r_ok r →
  safe_at r ReadObjectHeader (λ h r',
    if isNull h then count h = 0 else 0 ≤ count h ≤ MAX_MEMBER_COUNT).
Proof.
  intros Hr. unfold ReadObjectHeader, MAX_MEMBER_COUNT. safe_go; try done; cbn.
  all: arith_ranges; lia.
Qed.

Lemma safe_load_here r (Q : list Z → MemoryPackReader → Prop) :
  r_ok r → IsEnd r = false → (∀ b, byte_ok b → Q [b] r) → safe_at r (load (pos_ r) 1) Q.
Proof.
  intros Hr Hend HQ. unfold IsEnd in Hend. pose proof (ok_pos r Hr).
  unfold safe_at, load.
  destruct (Z.leb_spec 0 (pos_ r)), (Z.leb_spec (pos_ r + 1) (size_ r)); [|lia..]; cbn.
  split_and!; [by apply r_step_refl|done|].
  assert (Hl : zlen (slice (pos_ r) 1 (data_ r)) = 1) by (apply zlen_slice; unfold size_ in *; lia).
  assert (Hb : bytes_ok (slice (pos_ r) 1 (data_ r))) by (apply Forall_slice, Hr).
  destruct (slice _ _ _) as [|b [|]]; [done| |zlia].
  apply HQ. by inversion Hb.
Qed.

(** [PeekIsNull] never reads past the end and leaves the reader alone. *)
Lemma safe_PeekIsNull r : r_ok r → safe_at r PeekIsNull (λ _ r', r' = r).
Proof.
  intros Hr. unfold PeekIsNull. apply safe_at_gets_bind. destruct (IsEnd r) eqn:E.
  { by apply safe_at_ret. }
  apply safe_at_gets_bind. eapply safe_at_bind.
  - by apply (safe_load_here r (λ _ r', r' = r)).
  - intros bs r' Hr' _ ->. by apply safe_at_ret.
Qed.

(** A length that is accepted is bounded by the limit and by the bytes left:
    [len * minElementSize] bytes are really there. *)
Lemma safe_ReadCollectionLength r m : r_ok r → 0 < m →
  safe_at r (ReadCollectionLength m) (λ len r',
    len = -1 ∨ 0 ≤ len < 2 ^ 31 ∧ len ≤ maxCollectionLength (options_ r') ∧
               len * m ≤ Remaining r').
Proof.
  intros Hr Hm. unfold ReadCollectionLength. safe_step. repeat safe_step; try (by left).
  right. arith_ranges. repeat match goal with E : (_ && _) = false |- _ => apply andb_false_iff in E end.
  split_and!; [lia|lia|lia|]. apply le_div_mul; [done|]. lia.
Qed.

Lemma safe_ReadUnionHeader r : r_ok r →
  safe_at r ReadUnionHeader (λ t _, if t is Some tag then 0 ≤ tag < 65536 else True).
Proof.
  intros Hr. unfold ReadUnionHeader, WIDE_TAG in *. safe_go; try done; arith_ranges; lia || done.
Qed.

Lemma safe_ReadVarIntLength r : r_ok r → safe_at r ReadVarIntLength (λ n _, 0 ≤ n < 2 ^ 32).
Proof.
  intros Hr. unfold ReadVarIntLength. safe_go; try done; arith_ranges; try lia.
  all: eapply safe_at_mono; [by apply safe_ReadRaw|]; intros v ? _ Hv; cbv beta in Hv; arith_ranges; lia.
Qed.

Lemma safe_CheckStringLength r n u : r_ok r → 0 < u →
  safe_at r (CheckStringLength n u) (λ ok r',
    if ok : bool then r' = r ∧ n ≤ maxStringLength (options_ r) ∧ n * u ≤ Remaining r
    else error_ r' ≠ NoError).
Proof.
  intros Hr Hu. unfold CheckStringLength. repeat safe_step; try done.
  repeat match goal with E : (_ && _) = false |- _ => apply andb_false_iff in E end.
  split_and!; [done|lia|]. apply le_div_mul; [done|]. lia.
Qed.

Lemma r_step_set_depth r d : r_ok r → 0 ≤ d < 2 ^ 32 → r_step r (set_depth d r).
Proof. intros [] Hd. by split. Qed.

Lemma safe_EnterObject r : r_ok r →
  safe_at r EnterObject (λ ok r',
    if ok : bool then depth_ r' ≤ maxDepth (options_ r') else error_ r' ≠ NoError).
Proof.
  intros Hr. unfold EnterObject. eapply safe_at_bind.
  - apply (safe_at_modify r _ (λ _ _, True)); try done.
    apply r_step_set_depth; [done|]. by apply Z.mod_pos_bound.
  - intros _ r' Hr' _ _. safe_go; try done. lia.
Qed.

Lemma safe_LeaveObject r : r_ok r → safe_at r LeaveObject (λ _ _, True).
Proof.
  intros Hr. pose proof (ok_depth r Hr). apply safe_at_modify; [|by destruct (_ >? _)|done].
  destruct (Z.gtb_spec (depth_ r) 0); [|by apply r_step_refl].
  apply r_step_set_depth; [done|lia].
Qed.

Lemma safe_Advance r n : r_ok r → 0 ≤ n → safe_at r (Advance n) anything.
Proof.
  intros Hr Hn. pose proof (safe_take_bytes r n Hr Hn) as Ht. unfold Advance.
  eapply safe_at_bind; [by apply safe_EnsureBytes|]. intros [|] r' Hr' S.
  - intros (-> & E & Hroom). pose proof (ok_pos r Hr). pose proof (ok_size r Hr).
    apply safe_at_modify; try done. rewrite size_add_small by lia.
    split; try done. apply r_ok_set_pos; [done|lia].
  - intros E. by apply safe_at_ret.
Qed.

Lemma safe_RequireEnd r : r_ok r →
  safe_at r RequireEnd (λ ok r',
    if ok : bool then r' = r ∧ rest r = [] else error_ r' ≠ NoError).
Proof.
  intros Hr. unfold RequireEnd. safe_go; try done. split; [done|]. unfold IsEnd, rest, size_ in *.
  pose proof (ok_pos r Hr). apply drop_ge. unfold size_, zlen in *. lia.
Qed.
End SafeOps.

#[export] Hint Resolve safe_ReadObjectHeader safe_PeekIsNull safe_ReadCollectionLength
  safe_ReadUnionHeader safe_ReadVarIntLength safe_CheckStringLength safe_EnterObject
  safe_LeaveObject safe_Advance safe_RequireEnd : safe.
#[export] Hint Extern 1 (_ < _) => lia : safe.

(** ** Rules of the decoding specification *)

Section ReadsRules.
Context `{Platform}.

Lemma prefix_app_cases (p a b : list Z) :
  p `prefix_of` a ++ b →
  (p `prefix_of` a ∧ p ≠ a) ∨ ∃ x, p = a ++ x ∧ x `prefix_of` b.
Proof.
  revert p. induction a as [|y a IH]; intros p Hp; [right; by exists p|].
  destruct p as [|z p]; [left; split; [apply prefix_nil|done]|].
  apply prefix_cons_inv_1 in Hp as Ey. apply prefix_cons_inv_2 in Hp. subst z.
  destruct (IH p Hp) as [[Hpa Hne]|(x & -> & Hx)].
  - left. split; [by apply prefix_cons|congruence].
  - right. by exists x.
Qed.

Lemma rest_length r : r_ok r → zlen (rest r) = size_ r - pos_ r.
Proof. intros []. unfold rest, zlen, size_, zlen in *. rewrite length_drop. lia. Qed.

Lemma rest_skip r n : r_ok r → 0 ≤ n → rest (skip n r) = drop (Z.to_nat n) (rest r).
Proof. intros [] Hn. unfold rest, skip. cbn. rewrite drop_drop. f_equal. lia. Qed.

Lemma ready_skip o d r n : ready o d r → 0 ≤ n ≤ zlen (rest r) → ready o d (skip n r).
Proof.
  intros [Hr Ho Hd He] Hn. rewrite rest_length in Hn by done. pose proof (ok_pos r Hr).
  split; try done. apply r_ok_set_pos; [done|lia].
Qed.

Lemma ready_skip_prefix o d r bs x :
  ready o d r → rest r = bs ++ x → ready o d (skip (zlen bs) r) ∧ rest (skip (zlen bs) r) = x.
Proof.
  intros Hr E. split.
  - apply ready_skip; [done|]. rewrite E. zlia.
  - rewrite rest_skip by (apply Hr || apply zlen_nonneg). by rewrite E, zlen_to_nat, drop_app_length.
Qed.

Lemma skip_skip r n m : skip m (skip n r) = skip (n + m) r.
Proof. unfold skip, set_pos. cbn. f_equal. lia. Qed.

Lemma skip_0 r : skip 0 r = r.
Proof. unfold skip, set_pos. destruct r. cbn. f_equal. lia. Qed.

(** A failure is not undone by what follows, for every result [m] can have. *)
Lemma fails_at_bind_at {A B} (P : A → MemoryPackReader → Prop) r (m : R A) (k : A → R B) :
  safe_at r m P → fails_at r m →
  (∀ a r', r_ok r' → P a r' → safe_at r' (k a) anything) → fails_at r (m ≫= k).
Proof.
  unfold safe_at, fails_at, mbind, M_bind. intros Hs Hf Hk.
  destruct (m r) as [[a|e off|] r1]; [|done..].
  destruct Hs as (S1 & _ & HP). specialize (Hk a r1 (rstep_ok _ _ S1) HP). unfold safe_at in Hk.
  destruct (k a r1) as [[b|e off|] r2]; [| |done].
  - destruct Hk as (S2 & _ & _). by rewrite (rstep_error _ _ S2).
  - by destruct Hk as (_ & _ & ?).
Qed.

Lemma fails_at_bind_post {A B} (P : A → Prop) r (m : R A) (k : A → R B) :
  safe_at r m (λ a _, P a) → fails_at r m →
  (∀ a, P a → safe (k a) anything) → fails_at r (m ≫= k).
Proof.
  intros Hs Hf Hk. apply (fails_at_bind_at (λ a _, P a)); [done..|]. intros a r' Hr' Ha. by apply Hk.
Qed.

Lemma fails_at_bind {A B} r (m : R A) (k : A → R B) :
  safe_at r m anything → fails_at r m →
  (∀ a, safe (k a) anything) → fails_at r (m ≫= k).
Proof. intros Hs Hf Hk. by apply (fails_at_bind_post (λ _, True)); [|done|]. Qed.

Lemma reads_bind_at {A B} (P : A → MemoryPackReader → Prop) o d (m : R A) (k : A → R B) bs1 bs2 a b :
  reads o d m bs1 a → safe m P →
  reads o d (k a) bs2 b → (∀ a r, r_ok r → P a r → safe_at r (k a) anything) →
  reads o d (m ≫= k) (bs1 ++ bs2) b.
Proof.
  intros Hm Sm Hk Sk r Hr. destruct (Hm r Hr) as [Hm1 Hm2]. split.
  - intros [x Hx]. rewrite <-app_assoc in Hx.
    destruct (ready_skip_prefix o d r bs1 (bs2 ++ x) Hr Hx) as [Hr1 Hx1].
    destruct (Hk _ Hr1) as [Hk1 _]. unfold mbind, M_bind. rewrite Hm1 by (rewrite Hx; by eexists).
    rewrite Hk1 by (rewrite Hx1; by eexists). by rewrite skip_skip, zlen_app.
  - intros Hp Hne. destruct (prefix_app_cases _ _ _ Hp) as [[Hp1 Hne1]|(x & Hx & Hp2)].
    + apply (fails_at_bind_at P); [by apply Sm, Hr|by apply Hm2|done].
    + destruct (ready_skip_prefix o d r bs1 x Hr Hx) as [Hr1 Hx1].
      unfold fails_at, mbind, M_bind. rewrite Hm1 by (rewrite Hx; by eexists).
      apply (Hk _ Hr1); rewrite Hx1; [done|]. intros ->. by rewrite Hx in Hne.
Qed.

Lemma reads_bind_post {A B} (P : A → Prop) o d (m : R A) (k : A → R B) bs1 bs2 a b :
  reads o d m bs1 a → safe m (λ a _, P a) →
  reads o d (k a) bs2 b → (∀ a, P a → safe (k a) anything) →
  reads o d (m ≫= k) (bs1 ++ bs2) b.
Proof.
  intros Hm Sm Hk Sk. apply (reads_bind_at (λ a _, P a) _ _ _ _ _ _ a); [done..|].
  intros a' r Hr Ha. by apply Sk.
Qed.

Lemma reads_bind {A B} o d (m : R A) (k : A → R B) bs1 bs2 a b :
  reads o d m bs1 a → safe m anything →
  reads o d (k a) bs2 b → (∀ a, safe (k a) anything) →
  reads o d (m ≫= k) (bs1 ++ bs2) b.
Proof. intros Hm Sm Hk Sk. by apply (reads_bind_post (λ _, True) _ _ _ _ _ _ a). Qed.

Lemma reads_ret {A} o d (a : A) : reads o d (mret a) [] a.
Proof.
  intros r Hr. split; [by rewrite zlen_nil, skip_0|].
  intros Hp Hne. by apply prefix_nil_inv in Hp.
Qed.

Lemma reads_map {A B} o d (m : R A) (f : A → B) bs a :
  reads o d m bs a → safe m anything → reads o d (x ← m; mret (f x)) bs (f a).
Proof.
  intros Hm Sm. rewrite <-(app_nil_r bs). eapply reads_bind; [done|done|apply reads_ret|].
  intros x r Hr. by apply safe_at_ret.
Qed.

Lemma reads_map_eq {A B} o d (m : R A) (f : A → B) bs a b :
  reads o d m bs a → safe m anything → f a = b → reads o d (x ← m; mret (f x)) bs b.
Proof. intros ? ? <-. by apply reads_map. Qed.

(** A read that consumes nothing and does not touch the reader. *)
Lemma reads_pure_bind {A B} o d (m : R A) (k : A → R B) bs b :
  (∀ r, ready o d r → ∃ a, m r = (Ret a, r) ∧ reads o d (k a) bs b) →
  reads o d (m ≫= k) bs b.
Proof.
  intros Hm r Hr. destruct (Hm r Hr) as (a & E & Hk). unfold mbind, M_bind, fails_at. rewrite E.
  apply Hk, Hr.
Qed.

Lemma EnsureBytes_ok o d r n : ready o d r → n ≤ zlen (rest r) → EnsureBytes n r = (Ret true, r).
Proof.
  intros [Hr _ _ He] Hn. rewrite rest_length in Hn by done.
  unfold EnsureBytes. rewrite decide_True by done.
  change (size_sub (size_ r) (pos_ r)) with (Remaining r). rewrite Remaining_spec by done.
  destruct (Z.gtb_spec n (size_ r - pos_ r)); [lia|done].
Qed.

(** What a failed bounds check leaves behind: the error, or the exception. *)
Definition failed_with (e : MemoryPackError) (r : MemoryPackReader) : MemoryPackReader :=
  set_error e r.

Lemma Fail_ready o d r e {A} (a : A) :
  ready o d r →
  (Fail e ;; mret a) r =
    (if has_exceptions then (Throw e (pos_ r), failed_with e r) else (Ret a, failed_with e r)).
Proof.
  intros [_ _ _ He]. unfold Fail, mbind, M_bind. rewrite decide_True by done.
  by destruct has_exceptions.
Qed.

Lemma EnsureBytes_short o d r n : ready o d r → zlen (rest r) < n →
  EnsureBytes n r =
    (if has_exceptions then (Throw BufferUnderflow (pos_ r), failed_with BufferUnderflow r)
     else (Ret false, failed_with BufferUnderflow r)).
Proof.
  intros Hr Hn. rewrite <-(Fail_ready o d r BufferUnderflow false Hr).
  destruct Hr as [Hr _ _ He]. rewrite rest_length in Hn by done.
  unfold EnsureBytes. rewrite decide_True by done.
  change (size_sub (size_ r) (pos_ r)) with (Remaining r). rewrite Remaining_spec by done.
  destruct (Z.gtb_spec n (size_ r - pos_ r)); [done|lia].
Qed.

Lemma prefix_shorter (p q : list Z) : p `prefix_of` q → p ≠ q → zlen p < zlen q.
Proof.
  intros [x ->] Hne. destruct x; [by rewrite app_nil_r in Hne|]. zlia.
Qed.

Lemma reads_take_bytes o d n bs : zlen bs = n → reads o d (take_bytes n) bs (Some bs).
Proof.
  intros <- r Hr. pose proof (ok_pos r (ready_ok _ _ _ Hr)). pose proof (ok_size r (ready_ok _ _ _ Hr)).
  split.
  - intros [x Hx]. unfold take_bytes, mbind, M_bind.
    rewrite (EnsureBytes_ok o d) by (done || rewrite Hx; zlia).
    pose proof (rest_length r (ready_ok _ _ _ Hr)) as Hl. rewrite Hx in Hl. zlen_simpl.
    unfold gets, load. zlen_pos.
    destruct (Z.leb_spec 0 (pos_ r)), (Z.leb_spec (pos_ r + zlen bs) (size_ r)); [|lia..]. cbn.
    rewrite size_add_small by lia. unfold skip. rewrite (slice_prefix _ _ bs x Hx). done.
  - intros Hp Hne. unfold fails_at, take_bytes, mbind, M_bind.
    rewrite (EnsureBytes_short o d) by (done || by apply prefix_shorter).
    by destruct has_exceptions.
Qed.

(** A bounds check before reading a body of that size. *)
Lemma reads_ensured {B} o d n (kf k : R B) body b :
  n = zlen body → reads o d k body b → safe kf anything →
  reads o d (ok ← EnsureBytes n; if negb ok then kf else k) body b.
Proof.
  intros -> Hk Skf r Hr. destruct (decide (zlen body ≤ zlen (rest r))) as [Hroom|Hroom].
  - unfold fails_at, mbind, M_bind. rewrite (EnsureBytes_ok o d r _ Hr Hroom). apply Hk, Hr.
  - split; [intros [x Hx]; rewrite Hx in Hroom; zlia|]. intros _ _.
    unfold fails_at, mbind, M_bind. rewrite (EnsureBytes_short o d) by (done || lia).
    assert (Hr' : r_ok (failed_with BufferUnderflow r)) by (destruct Hr as [[] _ _ _]; by split).
    specialize (Skf _ Hr'). unfold safe_at in Skf. destruct has_exceptions; cbn; [done|].
    destruct (kf _) as [[b'|e off|] r'']; [|by destruct Skf as (_ & _ & ?)|done].
    destruct Skf as (Hs & _ & _). by rewrite (rstep_error _ _ Hs).
Qed.

Lemma reads_advance o d bs r x : ready o d r → rest r = bs ++ x →
  advance (zlen bs) r = (Ret tt, skip (zlen bs) r).
Proof.
  intros Hr Hx. pose proof (rest_length r (ready_ok _ _ _ Hr)) as Hl. rewrite Hx in Hl.
  pose proof (ok_pos r (ready_ok _ _ _ Hr)). pose proof (ok_size r (ready_ok _ _ _ Hr)). zlen_simpl. zlen_pos.
  unfold advance, modify, skip. by rewrite size_add_small by lia.
Qed.

(** Skipping a body that is there. *)
Lemma reads_Advance o d n bs : n = zlen bs → reads o d (Advance n) bs tt.
Proof.
  intros -> r Hr. unfold Advance. split.
  - intros [x Hx]. unfold mbind, M_bind. rewrite (EnsureBytes_ok o d) by (done || rewrite Hx; zlia).
    by apply (reads_advance o d bs r x).
  - intros Hp Hne. unfold fails_at, mbind, M_bind.
    rewrite (EnsureBytes_short o d) by (done || by apply prefix_shorter).
    by destruct has_exceptions.
Qed.

Lemma safe_at_anything {A} r (m : R A) Q : safe_at r m Q → safe_at r m anything.
Proof. intros. by eapply safe_at_mono. Qed.

Lemma reads_ReadByte o d b : reads o d ReadByte [b] b.
Proof.
  unfold ReadByte. apply (reads_map o d (take_bytes 1)
    (λ bs, match bs with Some (b :: _) => b | _ => 0 end) [b] (Some [b])).
  - by apply reads_take_bytes.
  - intros r Hr. eapply safe_at_anything. by apply safe_take_bytes.
Qed.

Lemma reads_ReadRaw o d t v : arith_ok t v → reads o d (ReadRaw t) (le_bytes (arith_size t) v) v.
Proof.
  intros Hv.
  replace v with (endian_convert t (of_object_bytes t (le_bytes (arith_size t) v))) at 2.
  - unfold ReadRaw. apply (reads_map o d (take_bytes (sizeof t))
      (λ bs, match bs with Some bs => endian_convert t (of_object_bytes t bs) | None => 0 end)
      _ (Some (le_bytes (arith_size t) v))).
    + apply reads_take_bytes. apply zlen_le_bytes.
    + intros r Hr. eapply safe_at_anything. apply safe_take_bytes; [done|unfold sizeof; lia].
  - rewrite endian_convert_of_object_bytes by (apply le_bytes_ok || apply length_le_bytes).
    by apply wire_value_le_bytes.
Qed.
End ReadsRules.

Section ReadsOps.
Context `{Platform}.

Lemma bind_assoc {A B C} (m : R A) (f : A → R B) (k : B → R C) r :
  ((m ≫= f) ≫= k) r = (m ≫= λ a, f a ≫= k) r.
Proof. unfold mbind, M_bind. by destruct (m r) as [[a|e off|] r1]. Qed.

Lemma bind_Ret {A B} (m : R A) (k : A → R B) r r' a :
  m r = (Ret a, r') → (m ≫= k) r = k a r'.
Proof. intros E. unfold mbind, M_bind. by rewrite E. Qed.

Lemma reads_ext {A} o d (m1 m2 : R A) bs a :
  (∀ r, m1 r = m2 r) → reads o d m1 bs a → reads o d m2 bs a.
Proof. intros E Hm r Hr. unfold fails_at. rewrite <-!E. apply Hm, Hr. Qed.

(** A continuation that consumes nothing. *)
Lemma reads_bind_nil {A B} o d (m : R A) (k : A → R B) bs a b :
  reads o d m bs a → safe m anything →
  reads o d (k a) [] b → (∀ a, safe (k a) anything) →
  reads o d (m ≫= k) bs b.
Proof. intros. rewrite <-(app_nil_r bs). by eapply reads_bind. Qed.

Lemma safe_anything {A} (m : R A) Q : (∀ r, r_ok r → safe_at r m Q) → safe m anything.
Proof. intros Hm r Hr. eapply safe_at_anything. by apply Hm. Qed.

Lemma reads_ReadObjectHeader o d n :
  0 ≤ n ≤ MAX_MEMBER_COUNT → reads o d ReadObjectHeader [n] (MkHeader n false).
Proof.
  intros Hn. eapply reads_bind_nil; [apply reads_ReadByte| | |].
  - eapply safe_anything, safe_ReadByte.
  - unfold NULL_OBJECT, MAX_MEMBER_COUNT in *.
    destruct (Z.eqb_spec n 255); [lia|]. destruct (Z.gtb_spec n 249); [lia|]. apply reads_ret.
  - intros b. safe_go.
Qed.

Lemma reads_null_header o d : reads o d ReadObjectHeader [NULL_OBJECT] (MkHeader 0 true).
Proof.
  eapply reads_bind_nil; [apply reads_ReadByte| |apply reads_ret|].
  - eapply safe_anything, safe_ReadByte.
  - intros b. safe_go.
Qed.

(** The checks of [ReadCollectionLength], after the length itself. *)
Definition collection_checks (minElementSize len : Z) : R Z :=
  if len <? 0 then
    if negb (len =? NULL_COLLECTION) then Fail LengthLimit ;; mret (-1) else mret (-1)
  else
    opts ← gets options_;
    remaining ← gets Remaining;
    if len >? maxCollectionLength opts then Fail LengthLimit ;; mret (-1)
    else if (minElementSize >? 0) && (len >? remaining / minElementSize)
         then Fail LengthLimit ;; mret (-1)
    else mret len.

Lemma safe_collection_checks m len : safe (collection_checks m len) anything.
Proof. unfold collection_checks. safe_go. Qed.

Lemma safe_bind_anything {A B} (m : R A) (k : A → R B) :
  safe m anything → (∀ a, safe (k a) anything) → safe (m ≫= k) anything.
Proof. intros Hm Hk. eapply safe_bind; [done|]. intros a r Hr _. by apply Hk. Qed.

Lemma collection_checks_ok o d r m n :
  ready o d r → 0 < m → 0 ≤ n → n ≤ maxCollectionLength o → n * m ≤ zlen (rest r) →
  collection_checks m n r = (Ret n, r).
Proof.
  intros Hr Hm Hn Hlim Hroom. rewrite rest_length in Hroom by apply Hr.
  unfold collection_checks, mbind, M_bind, gets. destruct (Z.ltb_spec n 0); [lia|].
  rewrite (ready_options o d r Hr), Remaining_spec by apply Hr.
  destruct (Z.gtb_spec n (maxCollectionLength o)); [lia|].
  destruct (Z.gtb_spec m 0); [|lia]. simpl.
  destruct (Z.gtb_spec n ((size_ r - pos_ r) / m)); [|done].
  assert (n ≤ (size_ r - pos_ r) / m) by (apply Z.div_le_lower_bound; lia). lia.
Qed.

Lemma collection_checks_short o d r m n :
  ready o d r → 0 < m → 0 ≤ n → zlen (rest r) < n * m → fails_at r (collection_checks m n).
Proof.
  intros Hr Hm Hn Hroom. rewrite rest_length in Hroom by apply Hr.
  assert (Hf : fails_at r (Fail LengthLimit ;; mret (-1))).
  { unfold fails_at. rewrite (Fail_ready o d) by done. by destruct has_exceptions. }
  unfold collection_checks, fails_at in *. unfold mbind, M_bind, gets in *.
  destruct (Z.ltb_spec n 0); [lia|].
  rewrite (ready_options o d r Hr), Remaining_spec by apply Hr.
  destruct (Z.gtb_spec n (maxCollectionLength o)); [done|].
  destruct (Z.gtb_spec m 0); [|lia]. simpl.
  destruct (Z.gtb_spec n ((size_ r - pos_ r) / m)) as [Hgt|Hle]; [done|].
  apply le_div_mul in Hle; [lia|done].
Qed.

(** What an accepted length guarantees to the code that uses it. *)
Definition length_accepted (m len : Z) (r : MemoryPackReader) : Prop :=
  len = -1 ∨ 0 ≤ len < 2 ^ 31 ∧ len ≤ maxCollectionLength (options_ r) ∧ len * m ≤ Remaining r.

(** Reading a length that is there leaves the checks to do. *)
Lemma ReadCollectionLength_head o d r m n x :
  ready o d r → 0 ≤ n < 2 ^ 31 → rest r = le_bytes 4 n ++ x →
  ready o d (skip 4 r) ∧ rest (skip 4 r) = x ∧ zlen x < size_mod ∧
  ReadCollectionLength m r = collection_checks m n (skip 4 r).
Proof.
  intros Hr Hn Hx. destruct (ready_skip_prefix o d r _ _ Hr Hx) as [Hr1 Hx1].
  change (zlen (le_bytes 4 n)) with 4 in *.
  assert (Hok : arith_ok Int32 n) by (arith_ranges; lia).
  split_and!; [done..| |].
  - pose proof (rest_length _ (ready_ok _ _ _ Hr1)) as Hl. rewrite Hx1 in Hl.
    pose proof (ok_pos _ (ready_ok _ _ _ Hr1)). pose proof (ok_size _ (ready_ok _ _ _ Hr1)). lia.
  - apply (bind_Ret (ReadRaw Int32)). apply (reads_ReadRaw o d Int32 n Hok r Hr).
    rewrite Hx. by eexists.
Qed.

(** A collection: the length, then the elements read by the continuation. *)
Lemma reads_collection {B} o d m (k : Z → R B) n body b :
  0 < m → 0 ≤ n < 2 ^ 31 → n ≤ maxCollectionLength o → n * m ≤ zlen body →
  (n * m < size_mod → reads o d (k n) body b) →
  (∀ len r, r_ok r → length_accepted m len r → safe_at r (k len) anything) →
  reads o d (ReadCollectionLength m ≫= k) (le_bytes 4 n ++ body) b.
Proof.
  intros Hm Hn Hlim Hbody Hk Sk r Hr.
  pose proof (safe_ReadCollectionLength r m (ready_ok _ _ _ Hr) Hm) as Ss.
  assert (Hok : arith_ok Int32 n) by (arith_ranges; lia).
  assert (Hgo : ∀ x, rest r = le_bytes 4 n ++ x → n * m ≤ zlen x →
    n * m < size_mod ∧ ready o d (skip 4 r) ∧ rest (skip 4 r) = x ∧
    (ReadCollectionLength m ≫= k) r = k n (skip 4 r)).
  { intros x Hx Hroom. destruct (ReadCollectionLength_head o d r m n x Hr Hn Hx) as (Hr1 & Hx1 & Hs & E).
    split_and!; [lia|done..|]. apply bind_Ret. rewrite E.
    apply (collection_checks_ok o d); [done..|lia|done|]. by rewrite Hx1. }
  split.
  - intros [x Hx]. rewrite <-app_assoc in Hx. zlen_pos.
    destruct (Hgo _ Hx) as (Hs & Hr1 & Hx1 & ->); [zlia|].
    destruct (Hk Hs _ Hr1) as [-> _]; [by rewrite skip_skip, zlen_app|].
    rewrite Hx1. by eexists.
  - intros Hp Hne. destruct (prefix_app_cases _ _ _ Hp) as [[Hp1 Hne1]|(x & Hx & Hp2)].
    { apply (fails_at_bind_at _ _ _ _ Ss); [|by intros; apply Sk].
      apply (fails_at_bind r (ReadRaw Int32)); [| |].
      - eapply safe_at_anything. by apply safe_ReadRaw; [apply Hr|].
      - by apply (reads_ReadRaw o d Int32 n Hok r Hr).
      - apply safe_collection_checks. }
    destruct (decide (n * m ≤ zlen x)) as [Hroom|Hroom].
    + destruct (Hgo _ Hx Hroom) as (Hs & Hr1 & Hx1 & E). unfold fails_at. rewrite E.
      apply (Hk Hs _ Hr1); rewrite Hx1; [done|]. intros ->. by rewrite Hx in Hne.
    + apply (fails_at_bind_at _ _ _ _ Ss); [|by intros; apply Sk].
      destruct (ReadCollectionLength_head o d r m n x Hr Hn Hx) as (Hr1 & Hx1 & _ & E).
      unfold fails_at. rewrite E. apply (collection_checks_short o d); [done..|lia|]. rewrite Hx1. lia.
Qed.

Lemma reads_null_collection {B} o d m (k : Z → R B) b : 0 < m →
  reads o d (k (-1)) [] b →
  (∀ len r, r_ok r → length_accepted m len r → safe_at r (k len) anything) →
  reads o d (ReadCollectionLength m ≫= k) (le_bytes 4 NULL_COLLECTION) b.
Proof.
  intros Hm Hk Sk. rewrite <-(app_nil_r (le_bytes 4 _)).
  eapply (reads_bind_at (length_accepted m)); [| |apply Hk|done].
  - change (ReadCollectionLength m) with (ReadRaw Int32 ≫= collection_checks m).
    eapply reads_bind_nil; [by apply (reads_ReadRaw o d Int32)| |by apply reads_ret|].
    + by eapply safe_anything; intros; apply safe_ReadRaw.
    + apply safe_collection_checks.
  - intros r Hr. by apply safe_ReadCollectionLength.
Qed.

(** *** Peeking at the null marker *)

Lemma PeekIsNull_ready o d r : ready o d r →
  PeekIsNull r = (Ret (bool_decide (head (rest r) = Some NULL_OBJECT)), r).
Proof.
  intros Hr. pose proof (rest_length r (ready_ok _ _ _ Hr)) as Hl.
  pose proof (ok_pos r (ready_ok _ _ _ Hr)).
  unfold PeekIsNull, mbind, M_bind, gets, IsEnd, load.
  destruct (Z.geb_spec (pos_ r) (size_ r)).
  { destruct (rest r); [done|zlia]. }
  destruct (Z.leb_spec 0 (pos_ r)), (Z.leb_spec (pos_ r + 1) (size_ r)); [|lia..]. simpl.
  destruct (rest r) as [|b x] eqn:E; [zlia|].
  change 1 with (zlen [b]). rewrite (slice_prefix (pos_ r) (data_ r) [b] x) by done.
  simpl. unfold mret, M_ret. do 2 f_equal. apply bool_decide_ext. split; congruence.
Qed.

(** [m] reports an error when fewer than [n] bytes are left. *)
Definition needs_bytes {A} (n : Z) (m : R A) : Prop :=
  ∀ o d r, ready o d r → zlen (rest r) < n → fails_at r m.

Lemma needs_bytes_bind {A B} n (m : R A) (k : A → R B) :
  needs_bytes n m → safe m anything → (∀ a, safe (k a) anything) → needs_bytes n (m ≫= k).
Proof. intros Hm Sm Hk o d r Hr E. apply fails_at_bind; [by apply Sm, Hr|by eapply Hm|done]. Qed.

Lemma needs_bytes_mono {A} n n' (m : R A) : n ≤ n' → needs_bytes n' m → needs_bytes n m.
Proof. intros Hn Hm o d r Hr E. eapply Hm; [done|lia]. Qed.

Lemma needs_bytes_take n : 0 ≤ n → needs_bytes n (take_bytes n).
Proof.
  intros Hn o d r Hr E. unfold take_bytes, fails_at, mbind, M_bind.
  rewrite (EnsureBytes_short o d) by done. by destruct has_exceptions.
Qed.

Lemma reads_peek_null {A} o d (kT kF : R A) a :
  reads o d kT [NULL_OBJECT] a → needs_bytes 1 kF →
  reads o d (b ← PeekIsNull; if b : bool then kT else kF) [NULL_OBJECT] a.
Proof.
  intros HT HF r Hr. unfold fails_at, mbind, M_bind. rewrite (PeekIsNull_ready o d) by done.
  destruct (HT r Hr) as [HT1 HT2]. split.
  - intros [x Hx]. rewrite bool_decide_true by by rewrite Hx. apply HT1. by exists x.
  - intros Hp Hne. destruct Hp as [[|y x] Hp]; [rewrite app_nil_r in Hp; congruence|].
    destruct (rest r) as [|z l] eqn:E; [|by destruct l]. eapply HF; [done|]. by rewrite E.
Qed.

Lemma reads_peek_value {A} o d (kT kF : R A) b bs a :
  b ≠ NULL_OBJECT → reads o d kF (b :: bs) a →
  reads o d (b ← PeekIsNull; if b : bool then kT else kF) (b :: bs) a.
Proof.
  intros Hb HF r Hr. unfold fails_at, mbind, M_bind. rewrite (PeekIsNull_ready o d) by done.
  destruct (HF r Hr) as [HF1 HF2]. split.
  - intros [x Hx]. rewrite bool_decide_false by (rewrite Hx; simpl; congruence).
    apply HF1. by exists x.
  - intros Hp Hne. rewrite bool_decide_false; [by apply HF2|].
    destruct (rest r) as [|z l]; [done|]. apply prefix_cons_inv_1 in Hp as ->. simpl. congruence.
Qed.

(** *** Objects: the body runs one level deeper *)

Lemma reads_object {A} o d (body : R A) (dflt : A) bs a :
  0 ≤ d → d + 1 ≤ maxDepth o → reads o (d + 1) body bs a → safe body anything →
  reads o d (ok ← EnterObject;
             if ok : bool then v ← body; LeaveObject ;; mret v else mret dflt) bs a.
Proof.
  intros Hd Hlim Hbody Sb r Hr. pose proof (ok_options r (ready_ok _ _ _ Hr)) as Hmax.
  rewrite (ready_options o d r Hr) in Hmax.
  set (r1 := set_depth (d + 1) r).
  assert (Hr1 : ready o (d + 1) r1).
  { destruct Hr as [Hr Ho Hdep He]. split; try done.
    by apply r_step_set_depth; [done|lia]. }
  assert (E : EnterObject r = (Ret true, r1)).
  { unfold EnterObject, mbind, M_bind, modify, gets. cbn.
    rewrite (ready_depth o d r Hr), (ready_options o d r Hr), Z.mod_small by lia.
    destruct (Z.gtb_spec (d + 1) (maxDepth o)); [lia|done]. }
  destruct (Hbody r1 Hr1) as [HB1 HB2]. unfold fails_at. rewrite (bind_Ret _ _ _ _ _ E). split.
  - intros Hp. rewrite (bind_Ret _ _ _ _ _ (HB1 Hp)). unfold mbind, M_bind, LeaveObject, modify. cbn.
    destruct (Z.gtb_spec (d + 1) 0); [|lia]. unfold r1, skip, set_depth, set_pos, mret, M_ret. cbn.
    rewrite <-(ready_depth o d r Hr). repeat f_equal. lia.
  - intros Hp Hne. apply (fails_at_bind r1 body); [by apply Sb, Hr1|by apply HB2|].
    intros v. safe_go.
Qed.
End ReadsOps.
