(* ===== verification/Headers.v ===== *)
(** Headers and primitives of the wire format ([core.hpp]): object, collection and
    union headers, VersionTolerant member lengths, and the typed Write/Read of the
    arithmetic types, written and read back. *)
From S2P Require Import Prelude Endian Writer Reader.

(** ** Encodings *)

(** [[1B tag]] below 250, [[1B 250][2B tag]] otherwise. *)
Definition enc_union_header (tag : Z) : list Z :=
  if tag <? WIDE_TAG then [tag] else WIDE_TAG :: le_bytes 2 tag.

(** One byte up to 127, [0x84]+uint16 up to 65535, [0x82]+uint32 otherwise. *)
Definition enc_varint (value : Z) : list Z :=
  if value <=? VARINT_MAX_SINGLE then [value]
  else if value <=? 0xFFFF then VARINT_UINT16_TAG :: le_bytes 2 value
  else VARINT_UINT32_TAG :: le_bytes 4 value.

(** ** Writer operations *)

Section WriteHeaders.
Context `{Platform}.

Definition WriteObjectHeader (memberCount : Z) : W unit :=
  if memberCount >? MAX_MEMBER_COUNT then w_Fail InvalidHeader else AppendByte memberCount.

Definition WriteNullObjectHeader : W unit := AppendByte NULL_OBJECT.

Definition WriteCollectionHeader (length : Z) : W unit := WriteRaw Int32 length.
Definition WriteNullCollectionHeader : W unit := WriteRaw Int32 NULL_COLLECTION.

Definition WriteUnionHeader (tag : Z) : W unit :=
  if tag <? WIDE_TAG then AppendByte (to_unsigned 1 tag)
  else AppendByte WIDE_TAG ;; WriteRaw UInt16 tag.

Definition WriteNullUnionHeader : W unit := AppendByte NULL_OBJECT.

(** [WriteBool], [WriteInt8], ..., [WriteDouble], [WriteChar16]. *)
Definition WriteBool (v : bool) : W unit := AppendByte (if v then 1 else 0).
Definition WriteInt8 (v : Z) : W unit := AppendByte (to_unsigned 1 v).
Definition WriteUInt8 (v : Z) : W unit := AppendByte v.
Definition WriteInt16 : Z → W unit := WriteRaw Int16.
Definition WriteUInt16 : Z → W unit := WriteRaw UInt16.
Definition WriteInt32 : Z → W unit := WriteRaw Int32.
Definition WriteUInt32 : Z → W unit := WriteRaw UInt32.
Definition WriteInt64 : Z → W unit := WriteRaw Int64.
Definition WriteUInt64 : Z → W unit := WriteRaw UInt64.
Definition WriteFloat : Z → W unit := WriteRaw Float32.
Definition WriteDouble : Z → W unit := WriteRaw Float64.
Definition WriteChar16 (v : Z) : W unit := WriteRaw UInt16 v.

(** Enums go through their underlying type. *)
Definition WriteEnum (underlying : arith_ty) (v : Z) : W unit := WriteRaw underlying v.

Definition WriteVarIntLength (value : Z) : W unit :=
  if value <=? VARINT_MAX_SINGLE then AppendByte (to_unsigned 1 value)
  else if value <=? 0xFFFF then AppendByte VARINT_UINT16_TAG ;; WriteRaw UInt16 (to_unsigned 2 value)
  else AppendByte VARINT_UINT32_TAG ;; WriteRaw UInt32 value.

Definition WriteBytes (data : list Z) : W unit := AppendBytes data.
End WriteHeaders.

(** ** Reader operations *)

Section ReadPrimitives.
Context `{Platform}.

Definition ReadBool : R bool := b ← ReadByte; mret (negb (b =? 0)).
Definition ReadInt8 : R Z := b ← ReadByte; mret (of_unsigned Int8 b).
Definition ReadUInt8 : R Z := ReadByte.
Definition ReadInt16 : R Z := ReadRaw Int16.
Definition ReadUInt16 : R Z := ReadRaw UInt16.
Definition ReadInt32 : R Z := ReadRaw Int32.
Definition ReadUInt32 : R Z := ReadRaw UInt32.
Definition ReadInt64 : R Z := ReadRaw Int64.
Definition ReadUInt64 : R Z := ReadRaw UInt64.
Definition ReadFloat : R Z := ReadRaw Float32.
Definition ReadDouble : R Z := ReadRaw Float64.
Definition ReadChar16 : R Z := ReadRaw UInt16.
Definition ReadEnum (underlying : arith_ty) : R Z := ReadRaw underlying.
End ReadPrimitives.

(** ** Lemmas *)

Lemma enc_union_header_ok tag : 0 ≤ tag < 65536 → bytes_ok (enc_union_header tag).
Proof.
  unfold enc_union_header, WIDE_TAG. intros. destruct (Z.ltb_spec tag 250).
  - repeat constructor; lia.
  - constructor; [arith_ranges; lia|apply le_bytes_ok].
Qed.

(** The header of a union is never the null marker. *)
Lemma enc_union_header_head tag : 0 ≤ tag →
  ∃ b bs, enc_union_header tag = b :: bs ∧ b ≠ NULL_OBJECT.
Proof.
  unfold enc_union_header, WIDE_TAG, NULL_OBJECT. intros.
  destruct (Z.ltb_spec tag 250); eexists _, _; (split; [done|lia]).
Qed.

Section HeaderFacts.
Context `{Platform}.

Lemma WriteObjectHeader_emits n :
  0 ≤ n ≤ MAX_MEMBER_COUNT → emits (WriteObjectHeader n) [n].
Proof.
  unfold WriteObjectHeader, MAX_MEMBER_COUNT. intros.
  destruct (Z.gtb_spec n 249); [lia|apply AppendByte_emits].
Qed.

Lemma WriteCollectionHeader_emits n :
  0 ≤ n < 2 ^ 31 → emits (WriteCollectionHeader n) (le_bytes 4 n).
Proof. intros. apply (WriteRaw_emits Int32). arith_ranges; lia. Qed.

Lemma WriteNullCollectionHeader_emits :
  emits WriteNullCollectionHeader (le_bytes 4 NULL_COLLECTION).
Proof. by apply (WriteRaw_emits Int32). Qed.

Lemma WriteUnionHeader_emits tag :
  0 ≤ tag < 65536 → emits (WriteUnionHeader tag) (enc_union_header tag).
Proof.
  intros. unfold WriteUnionHeader, enc_union_header, WIDE_TAG. destruct (Z.ltb_spec tag 250).
  - unfold to_unsigned. rewrite Z.mod_small by (unfold pow256; simpl; lia). apply AppendByte_emits.
  - apply (emits_bind _ _ [250]); [apply AppendByte_emits|]. by apply (WriteRaw_emits UInt16).
Qed.

Lemma WriteVarIntLength_emits v : 0 ≤ v < 2 ^ 32 → emits (WriteVarIntLength v) (enc_varint v).
Proof.
  intros. unfold WriteVarIntLength, enc_varint, VARINT_MAX_SINGLE.
  destruct (Z.leb_spec v 127); [|destruct (Z.leb_spec v 0xFFFF)].
  - unfold to_unsigned. rewrite Z.mod_small by (unfold pow256; simpl; lia). apply AppendByte_emits.
  - apply (emits_bind _ _ [_]); [apply AppendByte_emits|].
    unfold to_unsigned. rewrite Z.mod_small by (unfold pow256; simpl; lia).
    apply (WriteRaw_emits UInt16). arith_ranges; lia.
  - apply (emits_bind _ _ [_]); [apply AppendByte_emits|].
    apply (WriteRaw_emits UInt32). arith_ranges; lia.
Qed.

Lemma reads_ReadUnionHeader o d tag :
  0 ≤ tag < 65536 → reads o d ReadUnionHeader (enc_union_header tag) (Some tag).
Proof.
  intros Htag. unfold enc_union_header, WIDE_TAG.
  assert (Sk : ∀ b : Z, safe
    (if b =? NULL_OBJECT then mret None
     else if b =? 250 then tag ← ReadRaw UInt16; mret (Some tag)
     else if b >? 250 then Fail InvalidHeader ;; mret None
     else mret (Some b)) anything) by (intros b; safe_go).
  destruct (Z.ltb_spec tag 250).
  - eapply reads_bind_nil; [apply reads_ReadByte|eapply safe_anything, safe_ReadByte| |apply Sk].
    unfold NULL_OBJECT, WIDE_TAG. destruct (Z.eqb_spec tag 255); [lia|].
    destruct (Z.eqb_spec tag 250); [lia|]. destruct (Z.gtb_spec tag 250); [lia|]. apply reads_ret.
  - apply (reads_bind _ _ _ _ [250]
      _ 250); [apply reads_ReadByte|eapply safe_anything, safe_ReadByte| |apply Sk].
    simpl. apply (reads_map o d (ReadRaw UInt16) Some).
    + by apply (reads_ReadRaw o d UInt16).
    + eapply safe_anything. intros. by apply safe_ReadRaw.
Qed.

Lemma reads_null_union o d : reads o d ReadUnionHeader [NULL_OBJECT] None.
Proof.
  eapply reads_bind_nil; [apply reads_ReadByte|eapply safe_anything, safe_ReadByte|apply reads_ret|].
  intros b. safe_go.
Qed.

Lemma reads_ReadVarIntLength o d v :
  0 ≤ v < 2 ^ 32 → reads o d ReadVarIntLength (enc_varint v) v.
Proof.
  intros Hv. unfold enc_varint, VARINT_MAX_SINGLE.
  assert (Sk : ∀ b : Z, safe
    (if b <=? VARINT_MAX_SINGLE then mret b
     else if b =? VARINT_UINT16_TAG then ReadRaw UInt16
     else if b =? VARINT_UINT32_TAG then ReadRaw UInt32
     else Fail InvalidHeader ;; mret 0) anything).
  { intros b. safe_go. }
  destruct (Z.leb_spec v 127); [|destruct (Z.leb_spec v 0xFFFF)].
  - eapply reads_bind_nil; [apply reads_ReadByte|eapply safe_anything, safe_ReadByte| |apply Sk].
    unfold VARINT_MAX_SINGLE. destruct (Z.leb_spec v 127); [|lia]. apply reads_ret.
  - apply (reads_bind _ _ _ _ [VARINT_UINT16_TAG] _ VARINT_UINT16_TAG);
      [apply reads_ReadByte|eapply safe_anything, safe_ReadByte| |apply Sk].
    apply (reads_ReadRaw o d UInt16). arith_ranges; lia.
  - apply (reads_bind _ _ _ _ [VARINT_UINT32_TAG] _ VARINT_UINT32_TAG);
      [apply reads_ReadByte|eapply safe_anything, safe_ReadByte| |apply Sk].
    apply (reads_ReadRaw o d UInt32). arith_ranges; lia.
Qed.
End HeaderFacts.

#[export] Hint Resolve WriteObjectHeader_emits WriteCollectionHeader_emits
  WriteNullCollectionHeader_emits WriteUnionHeader_emits WriteVarIntLength_emits : mp.
