(* ===== verification/Utf.v ===== *)
(** UTF-8 and UTF-16 transcoding ([core.hpp]: [detail::utf16_length_from_utf8],
    [detail::append_utf8_codepoint], the decoding loop of [ReadUtf16String] as a
    function on code units, and the UTF-8 to UTF-16 loop of the [std::u16string]
    formatter), against the encodings of Unicode scalar values. *)
From S2P Require Import Prelude Endian.

(** ** Reference: scalar values and their encodings *)

Definition is_high_surrogate (u : Z) : bool := (0xD800 <=? u) && (u <=? 0xDBFF).
Definition is_low_surrogate (u : Z) : bool := (0xDC00 <=? u) && (u <=? 0xDFFF).

(** A Unicode scalar value. *)
Definition scalar (cp : Z) : Prop := 0 ≤ cp < 0xD800 ∨ 0xE000 ≤ cp ≤ 0x10FFFF.

(** A UTF-16 code unit. *)
Definition unit_ok (u : Z) : Prop := 0 ≤ u < 65536.

(** ** Transcoding code *)

(** [append_utf8_codepoint]: the bytes pushed to the string. *)
Definition append_utf8_codepoint (cp : Z) : list Z :=
  if cp <=? 0x7F then [to_unsigned 1 cp]
  else if cp <=? 0x7FF then
    [to_unsigned 1 (Z.lor 0xC0 (Z.shiftr cp 6));
     to_unsigned 1 (Z.lor 0x80 (Z.land cp 0x3F))]
  else if cp <=? 0xFFFF then
    [to_unsigned 1 (Z.lor 0xE0 (Z.shiftr cp 12));
     to_unsigned 1 (Z.lor 0x80 (Z.land (Z.shiftr cp 6) 0x3F));
     to_unsigned 1 (Z.lor 0x80 (Z.land cp 0x3F))]
  else
    [to_unsigned 1 (Z.lor 0xF0 (Z.shiftr cp 18));
     to_unsigned 1 (Z.lor 0x80 (Z.land (Z.shiftr cp 12) 0x3F));
     to_unsigned 1 (Z.lor 0x80 (Z.land (Z.shiftr cp 6) 0x3F));
     to_unsigned 1 (Z.lor 0x80 (Z.land cp 0x3F))].

Definition utf8_encode (cps : list Z) : list Z := cps ≫= append_utf8_codepoint.

(** The code units pushed for one code point by the [std::u16string] formatter. *)
Definition push_utf16 (cp : Z) : list Z :=
  if cp <=? 0xFFFF then [to_unsigned 2 cp]
  else let cp' := cp - 0x10000 in
       [to_unsigned 2 (0xD800 + Z.shiftr cp' 10); to_unsigned 2 (0xDC00 + Z.land cp' 0x3FF)].

Definition utf16_encode (cps : list Z) : list Z := cps ≫= push_utf16.

(** The supplementary code point of a surrogate pair. *)
Definition surrogate_pair (hi lo : Z) : Z :=
  0x10000 + Z.lor (Z.shiftl (hi - 0xD800) 10) (lo - 0xDC00).

(** The loop of [ReadUtf16String] on the units themselves: an unpaired surrogate
    becomes U+FFFD, and the unit after an unpaired high surrogate is looked at again. *)
Fixpoint decode_utf16 (units : list Z) : list Z :=
  match units with
  | [] => []
  | hi :: units' =>
      if is_high_surrogate hi then
        match units' with
        | [] => [0xFFFD]
        | lo :: units'' =>
            if is_low_surrogate lo then surrogate_pair hi lo :: decode_utf16 units''
            else 0xFFFD :: decode_utf16 units'
        end
      else if is_low_surrogate hi then 0xFFFD :: decode_utf16 units'
      else hi :: decode_utf16 units'
  end.

(** The UTF-8 to UTF-16 loop of the [std::u16string] formatter; it stops at a
    sequence that the string is too short for. *)
Definition utf8_tail (cp b : Z) : Z := Z.lor (Z.shiftl cp 6) (Z.land b 0x3F).

Fixpoint utf8_to_utf16 (u8 : list Z) : list Z :=
  match u8 with
  | [] => []
  | b0 :: l1 =>
      if b0 <? 0x80 then push_utf16 b0 ++ utf8_to_utf16 l1
      else if Z.land b0 0xE0 =? 0xC0 then
        match l1 with
        | b1 :: l2 => push_utf16 (utf8_tail (Z.land b0 0x1F) b1) ++ utf8_to_utf16 l2
        | _ => []
        end
      else if Z.land b0 0xF0 =? 0xE0 then
        match l1 with
        | b1 :: b2 :: l3 =>
            push_utf16 (utf8_tail (utf8_tail (Z.land b0 0x0F) b1) b2) ++ utf8_to_utf16 l3
        | _ => []
        end
      else
        match l1 with
        | b1 :: b2 :: b3 :: l4 =>
            push_utf16 (utf8_tail (utf8_tail (utf8_tail (Z.land b0 0x07) b1) b2) b3)
            ++ utf8_to_utf16 l4
        | _ => []
        end
  end.

(** ** [utf16_length_from_utf8] *)

(** The byte-at-a-time loop: continuation bytes count nothing, a four-byte lead
    counts a surrogate pair. *)
Fixpoint count_units (data : list Z) (units : Z) : Z :=
  match data with
  | [] => units
  | b :: data' =>
      if Z.land b 0xC0 =? 0x80 then count_units data' units
      else count_units data' (units + if b >=? 0xF0 then 2 else 1)
  end.

Section Utf16Length.
Context `{Platform}.

(** The fast path: blocks of eight bytes with no high bit, loaded as a [uint64_t]. *)
Fixpoint ascii_blocks (data : list Z) (units : Z) : Z * list Z :=
  match data with
  | b0 :: b1 :: b2 :: b3 :: b4 :: b5 :: b6 :: b7 :: data' =>
      let block := of_object_bytes UInt64 [b0; b1; b2; b3; b4; b5; b6; b7] in
      if negb (Z.land block 0x8080808080808080 =? 0) then (units, data)
      else ascii_blocks data' (units + 8)
  | _ => (units, data)
  end.

Definition utf16_length_from_utf8 (data : list Z) : Z :=
  let '(units, rest) := ascii_blocks data 0 in count_units rest units.
End Utf16Length.

(** ** Lemmas *)

Lemma byte_forall (P : Z → bool) :
  forallb P (seqZ 0 256) = true → ∀ b, byte_ok b → P b = true.
Proof.
  intros HP b Hb. rewrite forallb_forall in HP. apply HP. apply list_elem_of_In.
  apply elem_of_seqZ. unfold byte_ok in Hb. lia.
Qed.

Lemma ascii_bit b : byte_ok b → (Z.land b 0x80 =? 0) = (b <? 0x80).
Proof.
  intros Hb. apply eqb_prop.
  by apply (byte_forall (λ b, Bool.eqb (Z.land b 0x80 =? 0) (b <? 0x80))).
Qed.

Lemma continuation_byte b : byte_ok b → (Z.land b 0xC0 =? 0x80) = (0x80 <=? b) && (b <? 0xC0).
Proof.
  intros Hb. apply eqb_prop.
  by apply (byte_forall (λ b, Bool.eqb (Z.land b 0xC0 =? 0x80) ((0x80 <=? b) && (b <? 0xC0)))).
Qed.

Lemma lead2 b : byte_ok b → (Z.land b 0xE0 =? 0xC0) = (0xC0 <=? b) && (b <? 0xE0).
Proof.
  intros Hb. apply eqb_prop.
  by apply (byte_forall (λ b, Bool.eqb (Z.land b 0xE0 =? 0xC0) ((0xC0 <=? b) && (b <? 0xE0)))).
Qed.

Lemma lead3 b : byte_ok b → (Z.land b 0xF0 =? 0xE0) = (0xE0 <=? b) && (b <? 0xF0).
Proof.
  intros Hb. apply eqb_prop.
  by apply (byte_forall (λ b, Bool.eqb (Z.land b 0xF0 =? 0xE0) ((0xE0 <=? b) && (b <? 0xF0)))).
Qed.

Lemma count_units_acc data units : count_units data units = units + count_units data 0.
Proof.
  revert units. induction data as [|b data IH]; intros units; simpl; [lia|].
  destruct (_ =? _); [apply IH|]. rewrite IH, (IH (0 + _)). lia.
Qed.

Lemma count_units_app l1 l2 :
  count_units (l1 ++ l2) 0 = count_units l1 0 + count_units l2 0.
Proof.
  induction l1 as [|b l1 IH]; [done|]. simpl. destruct (_ =? _); [done|].
  rewrite count_units_acc, (count_units_acc l1). lia.
Qed.

(** The mask of high bits, one byte at a time. *)
Lemma land_cons b x m : byte_ok b → 0 ≤ x → 0 ≤ m →
  Z.land (b + 256 * x) (0x80 + 256 * m) = Z.land b 0x80 + 256 * Z.land x m.
Proof.
  intros Hb Hx Hm. unfold byte_ok in Hb.
  assert (E : ∀ a y, 0 ≤ a < 256 → a + 256 * y = Z.lor (Z.shiftl y 8) a).
  { intros a y Ha. rewrite lor_shiftl_add by lia. change (2 ^ 8) with 256. lia. }
  assert (Hl : 0 ≤ Z.land b 0x80 < 256).
  { split; [apply Z.land_nonneg; lia|].
    pose proof (byte_forall (λ b, Z.land b 0x80 <? 256) eq_refl b Hb) as Hlt.
    cbv beta in Hlt. lia. }
  rewrite (E b), (E 0x80), (E (Z.land b 0x80)) by lia.
  apply Z.bits_inj'. intros i Hi. rewrite ?Z.land_spec, ?Z.lor_spec.
  destruct (decide (i < 8)).
  - rewrite !Z.shiftl_spec_low by lia. by rewrite Z.land_spec.
  - rewrite !Z.shiftl_spec by lia. rewrite Z.land_spec.
    assert (Hhigh : ∀ a, 0 ≤ a < 2 ^ 8 → Z.testbit a i = false).
    { intros a Ha. rewrite <-(Z.mod_small a (2 ^ 8)) by done. apply Z.mod_pow2_bits_high. lia. }
    rewrite !Hhigh by lia. by rewrite !orb_false_r.
Qed.

Fixpoint high_bits (n : nat) : Z :=
  match n with O => 0 | S n' => 0x80 + 256 * high_bits n' end.

Lemma high_bits_nonneg n : 0 ≤ high_bits n.
Proof. induction n; simpl; lia. Qed.

Lemma land_high_bits bs : bytes_ok bs →
  Z.land (le_value bs) (high_bits (length bs)) = 0 ↔ Forall (λ b, b < 0x80) bs.
Proof.
  induction 1 as [|b bs Hb Hbs IH]; [done|]. cbn [le_value high_bits length].
  pose proof (le_value_bound bs Hbs). pose proof (high_bits_nonneg (length bs)).
  rewrite land_cons by (done || lia). pose proof (ascii_bit b Hb).
  assert (0 ≤ Z.land b 0x80) by (apply Z.land_nonneg; lia).
  assert (0 ≤ Z.land (le_value bs) (high_bits (length bs))) by (apply Z.land_nonneg; lia).
  rewrite Forall_cons, <-IH.
  destruct (Z.eqb_spec (Z.land b 0x80) 0), (Z.ltb_spec b 0x80); lia.
Qed.

Lemma count_ascii bs : bytes_ok bs → Forall (λ b, b < 0x80) bs → count_units bs 0 = zlen bs.
Proof.
  induction 1 as [|b bs Hb Hbs IH]; [done|]. rewrite Forall_cons. intros [Hlt Hall].
  cbn [count_units]. rewrite continuation_byte by done. rewrite zlen_cons.
  destruct (Z.leb_spec 0x80 b); [lia|]. destruct (Z.geb_spec b 0xF0); [lia|].
  cbn [andb]. rewrite count_units_acc, IH by done. lia.
Qed.

Section Utf16LengthFacts.
Context `{Platform}.

Lemma block_mask bs : bytes_ok bs → length bs = 8%nat →
  (Z.land (of_object_bytes UInt64 bs) 0x8080808080808080 =? 0) = true ↔ Forall (λ b, b < 0x80) bs.
Proof.
  intros Hbs Hlen. unfold of_object_bytes. cbn [of_unsigned is_signed].
  change 0x8080808080808080 with (high_bits 8). rewrite Z.eqb_eq.
  destruct native_little.
  - rewrite <-Hlen. by apply land_high_bits.
  - rewrite <-Hlen, <-length_reverse, land_high_bits by (by apply Forall_reverse).
    apply Forall_reverse.
Qed.

(** The fast path does not change the count. *)
Lemma ascii_blocks_spec n data units rest' units' :
  (length data ≤ n)%nat → bytes_ok data → ascii_blocks data units = (units', rest') →
  units' + count_units rest' 0 = units + count_units data 0.
Proof.
  revert data units. induction n as [|n IH]; intros data units Hn Hok E.
  { destruct data; [|simpl in Hn; lia]. by injection E as <- <-. }
  do 8 (destruct data as [|? data]; [by injection E as <- <-|]).
  cbn [ascii_blocks] in E.
  match type of E with context [of_object_bytes UInt64 ?l] => set (blk := l) in * end.
  destruct (Z.land _ _ =? 0) eqn:Eb; cbn [negb] in E; [|by injection E as <- <-].
  assert (Hblk : bytes_ok blk).
  { change (bytes_ok (blk ++ data)) in Hok. by apply Forall_app in Hok as [? _]. }
  assert (Hdata : bytes_ok data).
  { change (bytes_ok (blk ++ data)) in Hok. by apply Forall_app in Hok as [_ ?]. }
  apply IH in E; [|cbn [length] in Hn; lia|done].
  match goal with |- _ = _ + count_units ?l 0 => change l with (blk ++ data) end.
  apply block_mask in Eb; [|done|done].
  rewrite count_units_app, (count_ascii blk) by done.
  change (zlen blk) with 8. lia.
Qed.

(** The eight-byte fast path computes what the byte loop does. *)
Lemma utf16_length_count data : bytes_ok data → utf16_length_from_utf8 data = count_units data 0.
Proof.
  intros Hok. unfold utf16_length_from_utf8. destruct (ascii_blocks data 0) as [units rest'] eqn:E.
  apply (ascii_blocks_spec (length data)) in E; [|done..]. rewrite count_units_acc. lia.
Qed.
End Utf16LengthFacts.

(** Every byte counts for at most two units. *)
Lemma count_units_bound data : ∀ units, units ≤ count_units data units ≤ units + 2 * zlen data.
Proof.
  induction data as [|b data IH]; intros units; cbn [count_units]; [zlia|]. rewrite zlen_cons.
  destruct (_ =? _); [specialize (IH units); lia|]. destruct (_ >=? _); [specialize (IH (units + 2))|specialize (IH (units + 1))]; lia.
Qed.

(** ** Transcoding is exact on scalar values *)

Section Transcoding.
Lemma lor_base c n x : 0 ≤ n → 0 ≤ x < 2 ^ n → Z.lor (c * 2 ^ n) x = c * 2 ^ n + x.
Proof. intros. rewrite <-Z.shiftl_mul_pow2 by done. rewrite lor_shiftl_add by done.
  by rewrite Z.shiftl_mul_pow2. Qed.

Lemma land_low6 x : Z.land x 0x3F = x mod 64.
Proof. apply (land_ones_mod x 6). lia. Qed.

(** The bytes of a code point, arithmetically. *)
Lemma append_utf8_arith cp : 0 ≤ cp ≤ 0x10FFFF →
  append_utf8_codepoint cp =
    if cp <=? 0x7F then [cp]
    else if cp <=? 0x7FF then [192 + cp / 64; 128 + cp mod 64]
    else if cp <=? 0xFFFF then [224 + cp / 4096; 128 + (cp / 64) mod 64; 128 + cp mod 64]
    else [240 + cp / 262144; 128 + (cp / 4096) mod 64; 128 + (cp / 64) mod 64; 128 + cp mod 64].
Proof.
  intros Hcp. unfold append_utf8_codepoint, to_unsigned.
  change (pow256 1) with 256. rewrite !land_low6, !Z.shiftr_div_pow2 by lia.
  change (2 ^ 6) with 64. change (2 ^ 12) with 4096. change (2 ^ 18) with 262144.
  assert (Ht : ∀ x, Z.lor 0x80 (x mod 64) mod 256 = 128 + x mod 64).
  { intros x. pose proof (Z.mod_pos_bound x 64 ltac:(lia)).
    rewrite (lor_base 2 6) by lia. apply Z.mod_small. lia. }
  rewrite !Ht.
  destruct (Z.leb_spec cp 0x7F); [|destruct (Z.leb_spec cp 0x7FF); [|destruct (Z.leb_spec cp 0xFFFF)]].
  - rewrite Z.mod_small by lia. done.
  - assert (0 ≤ cp / 64 < 32) by (Z.div_mod_to_equations; lia).
    rewrite (lor_base 6 5) by lia. rewrite Z.mod_small by lia. done.
  - assert (0 ≤ cp / 4096 < 16) by (Z.div_mod_to_equations; lia).
    rewrite (lor_base 14 4) by lia. rewrite Z.mod_small by lia. done.
  - assert (0 ≤ cp / 262144 < 8) by (Z.div_mod_to_equations; lia).
    rewrite (lor_base 30 3) by lia. rewrite Z.mod_small by lia. done.
Qed.

Lemma push_utf16_arith cp : 0 ≤ cp ≤ 0x10FFFF →
  push_utf16 cp =
    if cp <=? 0xFFFF then [cp]
    else [0xD800 + (cp - 0x10000) / 1024; 0xDC00 + (cp - 0x10000) mod 1024].
Proof.
  intros Hcp. unfold push_utf16, to_unsigned. change (pow256 2) with 65536.
  rewrite (land_ones_mod _ 10), Z.shiftr_div_pow2 by lia. change (2 ^ 10) with 1024.
  destruct (Z.leb_spec cp 0xFFFF); [rewrite Z.mod_small by lia; done|].
  rewrite !(Z.mod_small _ 65536); [done|Z.div_mod_to_equations; lia..].
Qed.

Lemma scalar_range cp : scalar cp → 0 ≤ cp ≤ 0x10FFFF.
Proof. unfold scalar. lia. Qed.

Lemma append_utf8_ok cp : scalar cp → bytes_ok (append_utf8_codepoint cp).
Proof.
  intros Hcp%scalar_range. rewrite append_utf8_arith by done.
  repeat case_match; repeat constructor; Z.div_mod_to_equations; lia.
Qed.

Lemma utf8_encode_ok cps : Forall scalar cps → bytes_ok (utf8_encode cps).
Proof.
  induction 1 as [|cp cps Hcp _ IH]; [constructor|]. unfold utf8_encode. rewrite bind_cons.
  apply Forall_app. split; [by apply append_utf8_ok|done].
Qed.

Lemma push_utf16_ok cp : scalar cp → Forall unit_ok (push_utf16 cp).
Proof.
  intros Hcp%scalar_range. rewrite push_utf16_arith by done. unfold unit_ok.
  case_match; repeat constructor; Z.div_mod_to_equations; lia.
Qed.

Lemma count_units_tail b l : 128 ≤ b < 192 → count_units (b :: l) 0 = count_units l 0.
Proof.
  intros Hb. cbn [count_units]. rewrite continuation_byte by (unfold byte_ok; lia).
  destruct (Z.leb_spec 0x80 b), (Z.ltb_spec b 0xC0); done || lia.
Qed.

Lemma count_units_lead b l : 0 ≤ b < 128 ∨ 192 ≤ b < 256 →
  count_units (b :: l) 0 = (if b >=? 0xF0 then 2 else 1) + count_units l 0.
Proof.
  intros Hb. cbn [count_units]. rewrite continuation_byte by (unfold byte_ok; lia).
  destruct (Z.leb_spec 0x80 b), (Z.ltb_spec b 0xC0); try lia; cbn [andb].
  all: by rewrite count_units_acc.
Qed.

(** One code point through [utf16_length_from_utf8]. *)
Lemma count_units_codepoint cp : scalar cp →
  count_units (append_utf8_codepoint cp) 0 = zlen (push_utf16 cp).
Proof.
  intros Hs%scalar_range. rewrite append_utf8_arith, push_utf16_arith by done.
  assert (Hm : ∀ x, 128 ≤ 128 + x mod 64 < 192).
  { intros x. pose proof (Z.mod_pos_bound x 64). lia. }
  destruct (Z.leb_spec cp 0x7F); [|destruct (Z.leb_spec cp 0x7FF); [|destruct (Z.leb_spec cp 0xFFFF)]].
  all: rewrite count_units_lead by (Z.div_mod_to_equations; lia).
  all: rewrite ?count_units_tail by apply Hm.
  all: case_match; try (Z.div_mod_to_equations; lia).
  all: try case_match; done || lia.
Qed.

(** The UTF-16 length written in a string header is the number of code units the
    text occupies. *)
Lemma count_units_encode cps : Forall scalar cps →
  count_units (utf8_encode cps) 0 = zlen (utf16_encode cps).
Proof.
  induction 1 as [|cp cps Hcp _ IH]; [done|].
  unfold utf8_encode, utf16_encode in *. rewrite !bind_cons, count_units_app, zlen_app, IH.
  by rewrite count_units_codepoint.
Qed.

(** *** UTF-8 to UTF-16 *)

Lemma utf8_tail_spec cp x : 0 ≤ x → utf8_tail cp (128 + x mod 64) = cp * 64 + x mod 64.
Proof.
  intros Hx. unfold utf8_tail. rewrite land_low6. pose proof (Z.mod_pos_bound x 64 ltac:(lia)).
  replace ((128 + x mod 64) mod 64) with (x mod 64) by (Z.div_mod_to_equations; lia).
  by rewrite (lor_shiftl_add _ _ 6) by lia.
Qed.

Lemma utf8_step1 b0 l : 0 ≤ b0 < 128 →
  utf8_to_utf16 (b0 :: l) = push_utf16 b0 ++ utf8_to_utf16 l.
Proof. intros Hb. cbn [utf8_to_utf16]. destruct (Z.ltb_spec b0 0x80); [done|lia]. Qed.

Lemma utf8_step2 b0 b1 l : 192 ≤ b0 < 224 →
  utf8_to_utf16 (b0 :: b1 :: l) = push_utf16 (utf8_tail (b0 - 192) b1) ++ utf8_to_utf16 l.
Proof.
  intros Hb. cbn [utf8_to_utf16]. rewrite (lead2 b0) by (unfold byte_ok; lia).
  destruct (Z.ltb_spec b0 0x80); [lia|]. change (Z.land b0 0x1F) with (Z.land b0 (2 ^ 5 - 1)).
  rewrite (land_ones_mod b0 5) by lia. change (2 ^ 5) with 32.
  destruct (Z.leb_spec 0xC0 b0), (Z.ltb_spec b0 0xE0); try lia. cbn [andb].
  replace (b0 mod 32) with (b0 - 192) by (Z.div_mod_to_equations; lia). done.
Qed.

Lemma utf8_step3 b0 b1 b2 l : 224 ≤ b0 < 240 →
  utf8_to_utf16 (b0 :: b1 :: b2 :: l) =
    push_utf16 (utf8_tail (utf8_tail (b0 - 224) b1) b2) ++ utf8_to_utf16 l.
Proof.
  intros Hb. cbn [utf8_to_utf16]. rewrite (lead2 b0), (lead3 b0) by (unfold byte_ok; lia).
  destruct (Z.ltb_spec b0 0x80); [lia|]. change (Z.land b0 0x0F) with (Z.land b0 (2 ^ 4 - 1)).
  rewrite (land_ones_mod b0 4) by lia. change (2 ^ 4) with 16.
  destruct (Z.leb_spec 0xC0 b0), (Z.ltb_spec b0 0xE0); try lia. cbn [andb].
  destruct (Z.leb_spec 0xE0 b0), (Z.ltb_spec b0 0xF0); try lia. cbn [andb].
  replace (b0 mod 16) with (b0 - 224) by (Z.div_mod_to_equations; lia). done.
Qed.

Lemma utf8_step4 b0 b1 b2 b3 l : 240 ≤ b0 < 248 →
  utf8_to_utf16 (b0 :: b1 :: b2 :: b3 :: l) =
    push_utf16 (utf8_tail (utf8_tail (utf8_tail (b0 - 240) b1) b2) b3) ++ utf8_to_utf16 l.
Proof.
  intros Hb. cbn [utf8_to_utf16]. rewrite (lead2 b0), (lead3 b0) by (unfold byte_ok; lia).
  destruct (Z.ltb_spec b0 0x80); [lia|]. change (Z.land b0 0x07) with (Z.land b0 (2 ^ 3 - 1)).
  rewrite (land_ones_mod b0 3) by lia. change (2 ^ 3) with 8.
  destruct (Z.leb_spec 0xC0 b0), (Z.ltb_spec b0 0xE0); try lia. cbn [andb].
  destruct (Z.leb_spec 0xE0 b0), (Z.ltb_spec b0 0xF0); try lia. cbn [andb].
  replace (b0 mod 8) with (b0 - 240) by (Z.div_mod_to_equations; lia). done.
Qed.

Lemma utf8_to_utf16_step cp l : scalar cp →
  utf8_to_utf16 (append_utf8_codepoint cp ++ l) = push_utf16 cp ++ utf8_to_utf16 l.
Proof.
  intros Hs%scalar_range. rewrite append_utf8_arith by done.
  destruct (Z.leb_spec cp 0x7F); [|destruct (Z.leb_spec cp 0x7FF); [|destruct (Z.leb_spec cp 0xFFFF)]];
    cbn [app].
  - apply utf8_step1. lia.
  - rewrite utf8_step2, utf8_tail_spec by (Z.div_mod_to_equations; lia).
    do 2 f_equal. Z.div_mod_to_equations; lia.
  - rewrite utf8_step3, !utf8_tail_spec by (Z.div_mod_to_equations; lia).
    do 2 f_equal. Z.div_mod_to_equations; lia.
  - rewrite utf8_step4, !utf8_tail_spec by (Z.div_mod_to_equations; lia).
    do 2 f_equal. Z.div_mod_to_equations; lia.
Qed.

Lemma utf8_to_utf16_encode cps : Forall scalar cps →
  utf8_to_utf16 (utf8_encode cps) = utf16_encode cps.
Proof.
  induction 1 as [|cp cps Hcp _ IH]; [done|].
  unfold utf8_encode, utf16_encode in *. rewrite !bind_cons, utf8_to_utf16_step by done.
  by rewrite IH.
Qed.

(** *** UTF-16 decoding *)

Lemma is_high_spec u : is_high_surrogate u = true ↔ 0xD800 ≤ u ≤ 0xDBFF.
Proof. unfold is_high_surrogate. lia. Qed.
Lemma is_low_spec u : is_low_surrogate u = true ↔ 0xDC00 ≤ u ≤ 0xDFFF.
Proof. unfold is_low_surrogate. lia. Qed.

Lemma surrogate_pair_arith hi lo :
  0xDC00 ≤ lo ≤ 0xDFFF → surrogate_pair hi lo = 0x10000 + (hi - 0xD800) * 1024 + (lo - 0xDC00).
Proof. intros. unfold surrogate_pair. rewrite (lor_shiftl_add _ _ 10) by lia. lia. Qed.

(** Decoding the code units of a code point gives it back. *)
Lemma decode_push cp l : scalar cp → decode_utf16 (push_utf16 cp ++ l) = cp :: decode_utf16 l.
Proof.
  intros Hs. rewrite push_utf16_arith by by apply scalar_range.
  unfold scalar in Hs. destruct (Z.leb_spec cp 0xFFFF); cbn [app decode_utf16].
  - destruct (is_high_surrogate cp) eqn:E1; [apply is_high_spec in E1; lia|].
    destruct (is_low_surrogate cp) eqn:E2; [apply is_low_spec in E2; lia|done].
  - set (x := cp - 0x10000).
    assert (Hx : 0 ≤ x / 1024 < 1024 ∧ 0 ≤ x mod 1024 < 1024) by (Z.div_mod_to_equations; lia).
    rewrite (proj2 (is_high_spec (0xD800 + x / 1024))) by lia.
    rewrite (proj2 (is_low_spec (0xDC00 + x mod 1024))) by lia.
    rewrite surrogate_pair_arith by lia. f_equal. Z.div_mod_to_equations; lia.
Qed.

Lemma decode_utf16_encode cps : Forall scalar cps → decode_utf16 (utf16_encode cps) = cps.
Proof.
  induction 1 as [|cp cps Hcp _ IH]; [done|]. unfold utf16_encode in *.
  by rewrite bind_cons, decode_push, IH.
Qed.

(** Whatever the units, what is decoded is scalar values: an unpaired surrogate
    never reaches the UTF-8 output. *)
Lemma decode_utf16_scalar units : Forall unit_ok units → Forall scalar (decode_utf16 units).
Proof.
  remember (length units) as n eqn:En. assert (Hn : (length units ≤ n)%nat) by lia. clear En.
  revert units Hn. induction n as [|n IH]; intros [|hi units] Hn Hok; cbn [length] in Hn;
    [constructor|lia|constructor|].
  apply Forall_cons in Hok as [Hhi Hok]. unfold unit_ok in Hhi. cbn [decode_utf16].
  assert (Hfffd : scalar 0xFFFD) by (unfold scalar; lia).
  destruct (is_high_surrogate hi) eqn:E1; [apply is_high_spec in E1|].
  - destruct units as [|lo units]; [by repeat constructor|].
    cbn [length] in Hn. destruct (is_low_surrogate lo) eqn:E2.
    + apply is_low_spec in E2. apply Forall_cons in Hok as [Hlo Hok].
      constructor; [rewrite surrogate_pair_arith by lia; unfold scalar; lia|]. apply IH; [lia|done].
    + constructor; [done|]. apply IH; [cbn [length]; lia|done].
  - destruct (is_low_surrogate hi) eqn:E2; constructor; try (apply IH; [lia|done]); [done|].
    assert (¬ (0xD800 ≤ hi ≤ 0xDBFF)) by (rewrite <-is_high_spec; congruence).
    assert (¬ (0xDC00 ≤ hi ≤ 0xDFFF)) by (rewrite <-is_low_spec; congruence).
    unfold scalar. lia.
Qed.
End Transcoding.
