(* ===== verification/Strings.v ===== *)
(** Strings on the wire ([core.hpp]): [WriteString], [WriteStringUtf16],
    [ReadString] with its UTF-8 and UTF-16 forms, and [ReadStringView]. A
    [std::string] is its list of bytes, a [std::u16string] its list of code units. *)
From S2P Require Import Prelude Endian Writer Reader Headers Utf.

(** ** Writer *)

Section WriteStrings.
Context `{Platform}.

Definition WriteString (s : list Z) : W unit :=
  if zlen s =? 0 then WriteRaw Int32 0 else
  byteCount ← ToInt32Length (zlen s);
  if byteCount <? 0 then mret tt else
  WriteRaw Int32 (Z.lnot byteCount) ;;
  WriteRaw Int32 (utf16_length_from_utf8 s) ;;
  AppendBytes s.

Definition WriteNullString : W unit := WriteRaw Int32 (-1).

Definition WriteOptionalString (s : option (list Z)) : W unit :=
  match s with Some s => WriteString s | None => WriteNullString end.

Definition WriteStringUtf16 (s : list Z) : W unit :=
  if zlen s =? 0 then WriteRaw Int32 0 else
  units ← ToInt32Length (zlen s);
  if units <? 0 then mret tt else
  WriteRaw Int32 units ;;
  mapM_ (WriteRaw UInt16) s.
End WriteStrings.

(** ** Reader *)

Section ReadStrings.
Context `{Platform}.

(** The decoding loop of [ReadUtf16String], [n] units still to read. *)
Fixpoint read_utf16_loop (n : nat) (out : list Z) : R (list Z) :=
  match n with
  | O => mret out
  | S n' =>
      hi ← ReadRaw UInt16;
      if is_high_surrogate hi then
        match n' with
        | O => mret (out ++ append_utf8_codepoint 0xFFFD)
        | S n'' =>
            lo ← ReadRaw UInt16;
            if is_low_surrogate lo
            then read_utf16_loop n'' (out ++ append_utf8_codepoint (surrogate_pair hi lo))
            else
              modify (λ r, set_pos (size_sub (pos_ r) 2) r) ;;
              read_utf16_loop n' (out ++ append_utf8_codepoint 0xFFFD)
        end
      else if is_low_surrogate hi
      then read_utf16_loop n' (out ++ append_utf8_codepoint 0xFFFD)
      else read_utf16_loop n' (out ++ append_utf8_codepoint hi)
  end.

Definition ReadUtf16Payload (units : Z) : R (list Z) :=
  ok ← EnsureBytes ((units * 2) mod size_mod);
  if negb ok then mret [] else
  read_utf16_loop (Z.to_nat units) [].

Definition ReadUtf16String (units : Z) : R (list Z) :=
  ok ← CheckStringLength units 2;
  if negb ok then mret [] else ReadUtf16Payload units.

(** The branch of [ReadString] for a UTF-8 header. *)
Definition ReadUtf8Payload (byteCount : Z) : R (option (list Z)) :=
  ReadRaw Int32 ;;
  ok ← CheckStringLength byteCount 1;
  if negb ok then mret None else take_bytes byteCount.

Definition ReadString : R (option (list Z)) :=
  header ← ReadRaw Int32;
  failed ← gets Failed;
  if failed : bool then mret (Some []) else
  if header =? -1 then mret None else
  if header =? 0 then mret (Some []) else
  if header >? 0 then s ← ReadUtf16String header; mret (Some s) else
  s ← ReadUtf8Payload (Z.lnot header);
  mret (Some (default [] s)).

(** [bool ReadString(std::string& out)]: the flag and the new content. *)
Definition ReadStringInto : R (bool * list Z) :=
  s ← ReadString;
  mret match s with Some s => (true, s) | None => (false, []) end.

Definition ReadStringView : R (option (list Z)) :=
  start ← gets pos_;
  header ← ReadRaw Int32;
  failed ← gets Failed;
  if failed : bool then mret None else
  if header =? -1 then mret None else
  if header =? 0 then mret (Some []) else
  if header >? 0 then modify (set_pos start) ;; mret None else
  ReadUtf8Payload (Z.lnot header).
End ReadStrings.

(** ** Encodings *)

Section Encodings.
Context `{Platform}.

Definition enc_string (s : list Z) : list Z :=
  if zlen s =? 0 then le_bytes 4 0
  else le_bytes 4 (Z.lnot (zlen s)) ++ le_bytes 4 (utf16_length_from_utf8 s) ++ s.

Definition enc_string_utf16 (s : list Z) : list Z := le_bytes 4 (zlen s) ++ (s ≫= le_bytes 2).

(** A string whose header fields are representable. *)
Definition string_ok (s : list Z) : Prop :=
  bytes_ok s ∧ zlen s < 2 ^ 31 ∧ 0 ≤ utf16_length_from_utf8 s < 2 ^ 31.

Definition u16string_ok (s : list Z) : Prop := Forall unit_ok s ∧ zlen s < 2 ^ 31.
End Encodings.

(** ** Writing *)

Section WriteFacts.
Context `{Platform}.

Lemma ToInt32Length_bind n (k : Z → W unit) w :
  0 ≤ n < 2 ^ 31 → (ToInt32Length n ≫= k) w = k n w.
Proof. intros. unfold ToInt32Length. destruct (Z.gtb_spec n 0x7FFFFFFF); [lia|done]. Qed.

Lemma emits_ext m1 m2 bs : (∀ w, m1 w = m2 w) → emits m1 bs → emits m2 bs.
Proof. intros E Hm w Hw. rewrite <-E. by apply Hm. Qed.

(** A length that fits, followed by what depends on it. *)
Lemma emits_length n (k : Z → W unit) bs :
  0 ≤ n < 2 ^ 31 → emits (k n) bs →
  emits (len ← ToInt32Length n; if len <? 0 then mret tt else k len) bs.
Proof.
  intros Hn Hk. eapply emits_ext; [|exact Hk]. intros w.
  rewrite ToInt32Length_bind by done. destruct (Z.ltb_spec n 0); [lia|done].
Qed.

Lemma WriteString_emits s : string_ok s → emits (WriteString s) (enc_string s).
Proof.
  intros (Hs & Hlen & Hu). unfold WriteString, enc_string.
  destruct (zlen s =? 0); [by apply (WriteRaw_emits Int32)|].
  pose proof (zlen_nonneg s).
  apply (emits_length (zlen s) (λ n, WriteRaw Int32 (Z.lnot n) ;;
    WriteRaw Int32 (utf16_length_from_utf8 s) ;; AppendBytes s)); [lia|].
  apply emits_bind; [|apply emits_bind; [|apply AppendBytes_emits]].
  - apply (WriteRaw_emits Int32). arith_ranges. unfold Z.lnot. lia.
  - apply (WriteRaw_emits Int32). arith_ranges. lia.
Qed.

Lemma WriteStringUtf16_emits s :
  u16string_ok s → emits (WriteStringUtf16 s) (enc_string_utf16 s).
Proof.
  intros (Hs & Hlen). unfold WriteStringUtf16, enc_string_utf16.
  destruct (Z.eqb_spec (zlen s) 0) as [E|_].
  { apply zlen_0_nil in E as ->. by apply (WriteRaw_emits Int32). }
  pose proof (zlen_nonneg s).
  apply (emits_length (zlen s) (λ n, WriteRaw Int32 n ;; mapM_ (WriteRaw UInt16) s)); [lia|].
  apply emits_bind; [apply (WriteRaw_emits Int32); arith_ranges; lia|].
  apply mapM_emits. intros u Hu. apply (WriteRaw_emits UInt16).
  by eapply Forall_forall in Hs.
Qed.

Lemma enc_string_ok s : string_ok s → bytes_ok (enc_string s).
Proof.
  intros (Hs & _ & _). unfold enc_string. case_match; [apply le_bytes_ok|].
  repeat (apply Forall_app; split; [apply le_bytes_ok|]). done.
Qed.

Lemma enc_string_min s : 4 ≤ zlen (enc_string s).
Proof. unfold enc_string. case_match; rewrite ?zlen_app, !zlen_le_bytes; zlia. Qed.

(** The first field of a string is never the null length. *)
Lemma string_header_not_null (s : list Z) : 0 < zlen s < 2 ^ 31 → Z.lnot (zlen s) ≤ -2.
Proof. unfold Z.lnot. lia. Qed.
End WriteFacts.

#[export] Hint Resolve WriteString_emits WriteStringUtf16_emits : mp.

(** ** The UTF-16 loop *)

Section Utf16Loop.
Context `{Platform}.

(** Consuming one wire value on a clean reader. *)
Lemma ReadRaw_ready o d t v x r :
  arith_ok t v → ready o d r → rest r = le_bytes (arith_size t) v ++ x →
  ReadRaw t r = (Ret v, skip (sizeof t) r) ∧
  ready o d (skip (sizeof t) r) ∧ rest (skip (sizeof t) r) = x.
Proof.
  intros Hv Hr Hx. destruct (reads_ReadRaw o d t v Hv r Hr) as [Hread _].
  destruct (ready_skip_prefix o d r _ x Hr Hx) as [Hr1 Hx1].
  rewrite zlen_le_bytes in *. split_and!; [|done|done]. apply Hread. rewrite Hx. by eexists.
Qed.

(** On a reader that holds [units], the loop appends their decoding and ends
    right after them. *)
Lemma read_utf16_loop_spec o d n units out x r :
  (length units ≤ n)%nat → Forall unit_ok units → ready o d r →
  rest r = (units ≫= le_bytes 2) ++ x →
  read_utf16_loop (length units) out r =
    (Ret (out ++ utf8_encode (decode_utf16 units)), skip (2 * zlen units) r).
Proof.
  revert units out r. induction n as [|n IH]; intros [|hi units] out r Hn Hok Hr Hx;
    cbn [length] in Hn; [by rewrite skip_0, app_nil_r|lia|by rewrite skip_0, app_nil_r|].
  apply Forall_cons in Hok as [Hhi Hok]. rewrite bind_cons, <-app_assoc in Hx.
  destruct (ReadRaw_ready o d UInt16 hi _ r Hhi Hr Hx) as (E1 & Hr1 & Hx1).
  change (sizeof UInt16) with 2 in *.
  cbn [length read_utf16_loop]. rewrite (bind_Ret _ _ _ _ _ E1). cbn [decode_utf16].
  rewrite zlen_cons. replace (2 * (1 + zlen units)) with (2 + 2 * zlen units) by lia.
  rewrite <-skip_skip.
  destruct (is_high_surrogate hi) eqn:Ehi; [|destruct (is_low_surrogate hi) eqn:Elo].
  2-3: rewrite (IH units) by (done || lia); unfold utf8_encode; by rewrite bind_cons, app_assoc.
  destruct units as [|lo units].
  { change (2 * zlen []) with 0. by rewrite skip_0. }
  apply Forall_cons in Hok as [Hlo Hok]. pose proof Hx1 as Hx1'.
  rewrite bind_cons, <-app_assoc in Hx1.
  destruct (ReadRaw_ready o d UInt16 lo _ _ Hlo Hr1 Hx1) as (E2 & Hr2 & Hx2).
  change (sizeof UInt16) with 2 in *.
  cbn [length]. rewrite (bind_Ret _ _ _ _ _ E2).
  destruct (is_low_surrogate lo) eqn:Elo.
  - rewrite (IH units) by (done || cbn [length] in *; lia).
    unfold utf8_encode. rewrite bind_cons, app_assoc. f_equal. rewrite zlen_cons, !skip_skip.
    f_equal. lia.
  - unfold mbind at 1, M_bind at 1, modify.
    assert (Eback : set_pos (size_sub (pos_ (skip 2 (skip 2 r))) 2) (skip 2 (skip 2 r)) = skip 2 r).
    { unfold skip, set_pos. cbn. pose proof (ok_pos _ (ready_ok _ _ _ Hr2)) as Hp.
      pose proof (ok_size _ (ready_ok _ _ _ Hr2)). pose proof (ok_pos _ (ready_ok _ _ _ Hr)).
      unfold skip, set_pos, size_ in *. cbn in *. rewrite size_sub_small by lia. f_equal. lia. }
    rewrite Eback. rewrite (IH (lo :: units)) by first [done|by constructor|cbn [length] in *; lia].
    unfold utf8_encode. by rewrite bind_cons, app_assoc.
Qed.

Lemma zlen_units units : zlen (units ≫= le_bytes 2) = 2 * zlen units.
Proof.
  induction units as [|u units IH]; [done|]. rewrite bind_cons, zlen_app, IH, zlen_le_bytes, zlen_cons.
  lia.
Qed.

(** Any even number of bytes is a sequence of UTF-16 units. *)
Lemma bytes_units n bs : bytes_ok bs → length bs = (2 * n)%nat →
  ∃ units, length units = n ∧ bs = (units ≫= le_bytes 2) ∧ Forall unit_ok units.
Proof.
  revert bs. induction n as [|n IH]; intros bs Hok Hlen.
  { exists []. by destruct bs. }
  destruct bs as [|b0 [|b1 bs]]; cbn [length] in Hlen; [lia..|].
  apply Forall_cons in Hok as [H0 Hok]. apply Forall_cons in Hok as [H1 Hok].
  destruct (IH bs) as (units & Hl & -> & Hu); [done|lia|].
  assert (Hb : bytes_ok [b0; b1]) by (constructor; [done|constructor; [done|constructor]]).
  exists (le_value [b0; b1] :: units). split_and!; [cbn [length]; lia| |].
  - rewrite bind_cons. pose proof (le_bytes_value [b0; b1] Hb) as E. cbn [length] in E.
    by rewrite E.
  - constructor; [|done]. apply (le_value_bound _ Hb).
Qed.
End Utf16Loop.

(** ** Reading *)

Section ReadFacts.
Context `{Platform}.

Lemma CheckStringLength_ok o d r n u :
  ready o d r → 0 < u → n ≤ maxStringLength o → n * u ≤ zlen (rest r) →
  CheckStringLength n u r = (Ret true, r).
Proof.
  intros Hr Hu Hlim Hroom. unfold CheckStringLength, mbind, M_bind, gets.
  rewrite (ready_options o d r Hr), Remaining_spec by apply Hr.
  rewrite rest_length in Hroom by apply Hr.
  destruct (Z.gtb_spec n (maxStringLength o)); [lia|]. destruct (Z.gtb_spec u 0); [|lia]. simpl.
  destruct (Z.gtb_spec n ((size_ r - pos_ r) / u)); [|done].
  assert (n ≤ (size_ r - pos_ r) / u) by (apply Z.div_le_lower_bound; lia). lia.
Qed.

Lemma CheckStringLength_short o d r n u :
  ready o d r → 0 < u → zlen (rest r) < n * u → fails_at r (CheckStringLength n u).
Proof.
  intros Hr Hu Hroom. pose proof (safe_CheckStringLength r n u (ready_ok _ _ _ Hr) Hu) as Hs.
  unfold safe_at, fails_at in *. rewrite rest_length in Hroom by apply Hr.
  destruct (CheckStringLength n u r) as [[[]| |] r']; try (by destruct Hs as (_ & _ & ?)); [|done].
  destruct Hs as (_ & _ & -> & _ & Hn). rewrite Remaining_spec in Hn by apply Hr. lia.
Qed.

(** A checked length followed by the payload it announces. *)
Lemma reads_checked {B} o d n u (kf k : R B) body b :
  0 < u → n ≤ maxStringLength o → n * u ≤ zlen body →
  reads o d k body b → safe kf anything →
  reads o d (ok ← CheckStringLength n u; if negb ok then kf else k) body b.
Proof.
  intros Hu Hlim Hbody Hk Skf r Hr.
  destruct (decide (n * u ≤ zlen (rest r))) as [Hroom|Hroom].
  - unfold fails_at. rewrite (bind_Ret _ _ _ _ _ (CheckStringLength_ok o d r n u Hr Hu Hlim Hroom)).
    apply Hk, Hr.
  - split; [intros [x Hx]; rewrite Hx in Hroom; zlia|]. intros _ _.
    assert (Hf : fails_at r (CheckStringLength n u)) by (eapply CheckStringLength_short; [done..|lia]).
    pose proof (safe_CheckStringLength r n u (ready_ok _ _ _ Hr) Hu) as Hs.
    unfold safe_at, fails_at, mbind, M_bind in *.
    destruct (CheckStringLength n u r) as [[[]| |] r']; try done.
    { destruct Hs as (_ & _ & -> & _ & _). by destruct Hr. }
    destruct Hs as (Hs & _ & _). specialize (Skf r' (rstep_ok _ _ Hs)). unfold safe_at in Skf. cbn.
    destruct (kf r') as [[b'|e off|] r'']; [|by destruct Skf as (_ & _ & ?)|done].
    destruct Skf as (Hs2 & _ & _). by rewrite (rstep_error _ _ Hs2).
Qed.

Lemma safe_ReadUtf16Payload r n : r_ok r → 0 ≤ n < 2 ^ 31 →
  safe_at r (ReadUtf16Payload n) (λ s _, bytes_ok s).
Proof.
  intros Hr1 Hn. unfold ReadUtf16Payload. pose proof size_mod_pos. rewrite Z.mod_small by lia.
  eapply safe_at_bind; [by apply safe_EnsureBytes|]. intros [|] r1 Hr _ He; cbn [negb].
  2: { apply safe_at_ret; [done|constructor]. }
  destruct He as (-> & Herr & Hroom).
  assert (Hready : ready (options_ r) (depth_ r) r) by by split.
  destruct (bytes_units (Z.to_nat n) (take (Z.to_nat (n * 2)) (rest r))) as (units & Hl & Hu & Hok).
  { apply Forall_take, Forall_drop, Hr. }
  { pose proof (rest_length r Hr) as Hlr. unfold zlen in Hlr. rewrite length_take. lia. }
  assert (Hrest : rest r = (units ≫= le_bytes 2) ++ drop (Z.to_nat (n * 2)) (rest r)).
  { by rewrite <-Hu, take_drop. }
  unfold safe_at. rewrite <-Hl.
  rewrite (read_utf16_loop_spec _ _ (length units) units [] _ r) by done. cbn [app].
  destruct (ready_skip_prefix _ _ r _ _ Hready Hrest) as [[Hr3 Ho3 _ He3] _].
  rewrite zlen_units in *.
  split_and!; [by split|done|by apply utf8_encode_ok, decode_utf16_scalar].
Qed.

Lemma safe_ReadUtf16String r n : r_ok r → 0 ≤ n < 2 ^ 31 →
  safe_at r (ReadUtf16String n) (λ s _, bytes_ok s).
Proof.
  intros Hr Hn. unfold ReadUtf16String.
  eapply safe_at_bind; [by apply safe_CheckStringLength|]. intros [|] r1 Hr1 _ Hc; cbn [negb].
  - by apply safe_ReadUtf16Payload.
  - apply safe_at_ret; [done|constructor].
Qed.

Lemma safe_ReadUtf8Payload r n : r_ok r → 0 ≤ n →
  safe_at r (ReadUtf8Payload n) (λ o _, if o is Some s then bytes_ok s ∧ zlen s = n else True).
Proof.
  intros Hr Hn. unfold ReadUtf8Payload. repeat safe_step; try done.
  eapply safe_at_mono; [by apply safe_take_bytes|]. intros [s|] ? _ Hs; [|done].
  by destruct Hs as (? & ? & _).
Qed.

(** On arbitrary input [ReadString] stays in bounds and returns bytes. *)
Lemma safe_ReadString r : r_ok r →
  safe_at r ReadString (λ s _, if s is Some s then bytes_ok s else True).
Proof.
  intros Hr. unfold ReadString. safe_step. apply safe_at_gets_bind.
  repeat safe_step; try done; try solve [constructor]; arith_ranges.
  - eapply safe_at_bind; [apply safe_ReadUtf16String; [done|lia]|]. intros s r2 Hr2 _ Hs.
    by apply safe_at_ret.
  - eapply safe_at_bind; [apply safe_ReadUtf8Payload; [done|unfold Z.lnot; lia]|].
    intros o r2 Hr2 _ Hs. apply safe_at_ret; [done|]. destruct o; [by destruct Hs|constructor].
Qed.

Lemma safe_ReadRaw_Int32 : safe (ReadRaw Int32) anything.
Proof. eapply safe_anything. intros. by apply safe_ReadRaw. Qed.

(** The part of [ReadString] after its first field. *)
Definition read_string_body (header : Z) : R (option (list Z)) :=
  failed ← gets Failed;
  if failed : bool then mret (Some []) else
  if header =? -1 then mret None else
  if header =? 0 then mret (Some []) else
  if header >? 0 then s ← ReadUtf16String header; mret (Some s) else
  s ← ReadUtf8Payload (Z.lnot header);
  mret (Some (default [] s)).

Lemma safe_read_string_body header : - 2 ^ 31 ≤ header < 2 ^ 31 → safe (read_string_body header) anything.
Proof.
  intros Hh r Hr. unfold read_string_body. apply safe_at_gets_bind. repeat safe_step.
  - eapply safe_at_bind; [apply safe_ReadUtf16String; [done|lia]|]. intros. by apply safe_at_ret.
  - eapply safe_at_bind; [apply safe_ReadUtf8Payload; [done|unfold Z.lnot; lia]|].
    intros. by apply safe_at_ret.
Qed.

Lemma Failed_ready o d r : ready o d r → Failed r = false.
Proof. intros [_ _ _ He]. unfold Failed. by rewrite bool_decide_false by congruence. Qed.

Lemma reads_gets {A B} o d (f : MemoryPackReader → A) (k : A → R B) c bs b :
  (∀ r, ready o d r → f r = c) → reads o d (k c) bs b → reads o d (gets f ≫= k) bs b.
Proof. intros Hf Hk r Hr. specialize (Hk r Hr). by rewrite <-(Hf r Hr) in Hk. Qed.

Lemma reads_first_field {B} o d h bs (b : B) (k : Z → R B) :
  - 2 ^ 31 ≤ h < 2 ^ 31 → reads o d (k h) bs b →
  (∀ h, - 2 ^ 31 ≤ h < 2 ^ 31 → safe (k h) anything) →
  reads o d (ReadRaw Int32 ≫= k) (le_bytes 4 h ++ bs) b.
Proof.
  intros Hh Hk Sk. eapply (reads_bind_post (λ h, - 2 ^ 31 ≤ h < 2 ^ 31)); [|..].
  - apply (reads_ReadRaw o d Int32). arith_ranges. lia.
  - intros r Hr. eapply safe_at_mono; [by apply safe_ReadRaw|]. intros a ? _ Ha. cbv beta in Ha.
    arith_ranges. lia.
  - exact Hk.
  - exact Sk.
Qed.

Lemma reads_ReadUtf8Payload o d s u :
  - 2 ^ 31 ≤ u < 2 ^ 31 → zlen s ≤ maxStringLength o →
  reads o d (ReadUtf8Payload (zlen s)) (le_bytes 4 u ++ s) (Some s).
Proof.
  intros Hu Hlim. unfold ReadUtf8Payload. apply reads_first_field; [done|..].
  - apply reads_checked; [lia..| |].
    + by apply reads_take_bytes.
    + intros r Hr. by apply safe_at_ret.
  - pose proof (zlen_nonneg s). intros _ _. safe_go.
Qed.

(** What [WriteString] wrote, [ReadString] returns. *)
Lemma reads_ReadString o d s :
  string_ok s → zlen s ≤ maxStringLength o → reads o d ReadString (enc_string s) (Some s).
Proof.
  intros (Hs & Hlen & Hu) Hlim. change ReadString with (ReadRaw Int32 ≫= read_string_body).
  unfold enc_string. destruct (Z.eqb_spec (zlen s) 0) as [E|E].
  - apply zlen_0_nil in E as ->. rewrite <-(app_nil_r (le_bytes 4 0)).
    apply reads_first_field; [lia| |apply safe_read_string_body].
    eapply reads_gets; [apply Failed_ready|apply reads_ret].
  - apply reads_first_field; [ | |apply safe_read_string_body].
    { unfold Z.lnot. zlen_pos. lia. }
    eapply reads_gets; [apply Failed_ready|]. cbn [negb].
    pose proof (string_header_not_null s ltac:(zlen_pos; lia)).
    destruct (Z.eqb_spec (Z.lnot (zlen s)) (-1)); [lia|].
    destruct (Z.eqb_spec (Z.lnot (zlen s)) 0); [lia|].
    destruct (Z.gtb_spec (Z.lnot (zlen s)) 0); [lia|]. rewrite Z.lnot_involutive.
    apply (reads_map o d (ReadUtf8Payload (zlen s)) (λ s, Some (default [] s)) _ (Some s)).
    + apply reads_ReadUtf8Payload; lia.
    + eapply safe_anything. intros. apply safe_ReadUtf8Payload; [done|apply zlen_nonneg].
Qed.

Lemma reads_ReadString_null o d : reads o d ReadString (le_bytes 4 (-1)) None.
Proof.
  change ReadString with (ReadRaw Int32 ≫= read_string_body).
  rewrite <-(app_nil_r (le_bytes 4 (-1))).
  apply reads_first_field; [lia| |apply safe_read_string_body].
  eapply reads_gets; [apply Failed_ready|apply reads_ret].
Qed.

Lemma reads_ReadUtf16Payload o d s :
  u16string_ok s →
  reads o d (ReadUtf16Payload (zlen s)) (s ≫= le_bytes 2) (utf8_encode (decode_utf16 s)).
Proof.
  intros [Hs Hlen] r Hr. unfold ReadUtf16Payload. pose proof size_mod_pos. zlen_pos.
  rewrite Z.mod_small by lia. rewrite zlen_units. split.
  - intros [x Hx]. assert (Hroom : zlen s * 2 ≤ zlen (rest r)).
    { rewrite Hx, zlen_app, zlen_units. zlen_pos. lia. }
    rewrite (bind_Ret _ _ _ _ _ (EnsureBytes_ok o d r _ Hr Hroom)). cbn [negb].
    rewrite zlen_to_nat. by apply (read_utf16_loop_spec o d (length s) s [] x).
  - intros Hp Hne. pose proof (prefix_shorter _ _ Hp Hne) as Hlt. rewrite zlen_units in Hlt.
    unfold fails_at, mbind, M_bind. rewrite (EnsureBytes_short o d) by (done || lia).
    by destruct has_exceptions.
Qed.

(** A UTF-16 payload is read as the UTF-8 text it denotes. *)
Lemma reads_ReadString_utf16 o d s :
  u16string_ok s → zlen s ≤ maxStringLength o →
  reads o d ReadString (enc_string_utf16 s) (Some (utf8_encode (decode_utf16 s))).
Proof.
  intros Hs Hlim. change ReadString with (ReadRaw Int32 ≫= read_string_body).
  pose proof (proj2 Hs). unfold enc_string_utf16. zlen_pos.
  apply reads_first_field; [lia| |apply safe_read_string_body].
  eapply reads_gets; [apply Failed_ready|]. cbn [negb].
  destruct (Z.eqb_spec (zlen s) (-1)); [lia|].
  destruct (Z.eqb_spec (zlen s) 0) as [E|E]; [apply zlen_0_nil in E as ->; apply reads_ret|].
  destruct (Z.gtb_spec (zlen s) 0); [|lia].
  apply (reads_map o d (ReadUtf16String (zlen s)) Some).
  - apply reads_checked; [lia|done|rewrite zlen_units; lia|by apply reads_ReadUtf16Payload|].
    intros r Hr. by apply safe_at_ret.
  - eapply safe_anything. intros. by apply safe_ReadUtf16String.
Qed.
End ReadFacts.

#[export] Hint Resolve safe_ReadString safe_ReadUtf16String safe_ReadUtf8Payload : safe.
