(* ===== verification/Formatter.v ===== *)
(** The dispatch of [Write<T>] / [Read<T>] ([core.hpp]): [MemoryPackFormatter<T>] as
    a class of operations, its contract as a class of laws that every container is
    proved against, and the formatters of arithmetic types, enums and strings. *)
From S2P Require Import Prelude Endian Writer Reader Headers Utf Strings.

(** ** Type traits *)

(** [enum class NullEncoding]. *)
Inductive NullEncoding := NullObject | NullCollection | NullString | NullableValue.

(** The object representation of a trivially copyable type, what [memcpy] sees. *)
Record object_rep (T : Type) := MkRep {
  rep_size : Z;
  rep_align : Z;
  rep_bytes : T → list Z;
  rep_of : list Z → T;
}.
Arguments MkRep {T}.
Arguments rep_size {T}.
Arguments rep_align {T}.
Arguments rep_bytes {T}.
Arguments rep_of {T}.

(** What the templates test about [T] at compile time. *)
Inductive type_kind (T : Type) :=
  | Arithmetic (t : arith_ty) (to : T → Z) (un : Z → T)
  | Enumeration (t : arith_ty) (to : T → Z) (un : Z → T)
  | UnmanagedStruct (rep : object_rep T)
  | StdString (to : T → list Z) (un : list Z → T)
  | StdU16String
  | StdCollection
  | OtherType.
Arguments Arithmetic {T}.
Arguments Enumeration {T}.
Arguments UnmanagedStruct {T}.
Arguments StdString {T}.
Arguments StdU16String {T}.
Arguments StdCollection {T}.
Arguments OtherType {T}.

(** [WireNullEncoding<T>::value]. *)
Definition WireNullEncoding {T} (k : type_kind T) : NullEncoding :=
  match k with
  | Arithmetic _ _ _ | Enumeration _ _ _ | UnmanagedStruct _ => NullableValue
  | StdString _ _ | StdU16String => NullString
  | StdCollection => NullCollection
  | OtherType => NullObject
  end.

(** [MemoryPackReader::MinEncodedSize<T>()]. *)
Definition MinEncodedSize {T} (k : type_kind T) : Z :=
  match k with
  | Arithmetic t _ _ | Enumeration t _ _ => sizeof t
  | StdString _ _ => 4
  | _ => 1
  end.

(** The weaker minimum the formatters of [containers.hpp] use. *)
Definition ContainerMinSize {T} (k : type_kind T) : Z :=
  match k with
  | Arithmetic t _ _ | Enumeration t _ _ => sizeof t
  | _ => 1
  end.

(** What every reader of the kind starts with: an int32 header, or one byte. *)
Definition HeaderSize {T} (k : type_kind T) : Z :=
  match k with StdString _ _ | StdU16String | StdCollection => 4 | _ => 1 end.

(** ** The formatter class *)

(** [value_init] is [T{}]. [Deserialize r v] assigns to an existing [v]: it takes
    the old value and returns the new one. *)
Class MemoryPackFormatter (T : Type) := {
  value_init : T;
  kind : type_kind T;
  Serialize : T → W unit;
  Deserialize : T → R T;
}.

#[export] Hint Mode MemoryPackFormatter ! : typeclass_instances.

(** [MemoryPackWriter::Write<T>], [MemoryPackReader::Read<T>] (both forms). *)
Definition Write `{MemoryPackFormatter T} (value : T) : W unit := Serialize value.
Definition ReadInto `{MemoryPackFormatter T} (out : T) : R T := Deserialize out.
Definition Read `{MemoryPackFormatter T} : R T := ReadInto value_init.

(** ** Its contract *)

(** The wire encoding of a value, which values have one, and which limits and
    nesting depth a reader must grant for a value. *)
Class WireFormat (T : Type) := {
  enc : T → list Z;
  wf : T → Prop;
  within : ReaderOptions → Z → T → Prop;
}.

#[export] Hint Mode WireFormat ! : typeclass_instances.

(** The traits tell the truth about the encoding. *)
Definition kind_ok `{Platform} {T} `{WireFormat T} (k : type_kind T) : Prop :=
  match k with
  | Arithmetic t to un | Enumeration t to un =>
      (∀ v, un (to v) = v) ∧
      (∀ v, wf v → arith_ok t (to v) ∧ enc v = le_bytes (arith_size t) (to v))
  | UnmanagedStruct rep =>
      0 < rep_size rep ∧ 1 ≤ rep_align rep ∧
      (∀ v, wf v → rep_of rep (rep_bytes rep v) = v ∧ zlen (rep_bytes rep v) = rep_size rep ∧
         bytes_ok (rep_bytes rep v))
  | StdString to un =>
      (∀ v, un (to v) = v) ∧
      (∀ v, wf v → string_ok (to v) ∧ enc v = enc_string (to v)) ∧
      (∀ o d v, within o d v → zlen (to v) ≤ maxStringLength o)
  | StdCollection | StdU16String =>
      ∀ v : T, wf v → ∃ n body, 0 ≤ n < 2 ^ 31 ∧ enc v = le_bytes 4 n ++ body
  | OtherType => True
  end.

Class FormatterLaws `{Platform} (T : Type) `{MemoryPackFormatter T} `{WireFormat T} : Prop := {
  law_emits : ∀ v : T, wf v → emits (Serialize v) (enc v);
  law_reads : ∀ o d (v old : T), 0 ≤ d → wf v → within o d v →
    reads o d (Deserialize old) (enc v) v;
  law_safe : ∀ old : T, safe (Deserialize old) anything;
  law_needs : ∀ old : T, needs_bytes (HeaderSize (T := T) kind) (Deserialize old);
  law_min : ∀ v : T, wf v → MinEncodedSize (T := T) kind ≤ zlen (enc v);
  law_kind : kind_ok (T := T) kind;
  law_bytes : ∀ v : T, wf v → bytes_ok (enc v);
}.

(** A type whose encodings never start with the null marker 255. *)
Class NullSafe (T : Type) `{WireFormat T} : Prop :=
  null_safe : ∀ v : T, wf v → ∃ b bs, enc v = b :: bs ∧ b ≠ NULL_OBJECT.

#[export] Hint Resolve law_emits law_reads law_safe law_needs : mp.
#[export] Hint Resolve law_bytes le_bytes_ok : bytes.

(** ** Arithmetic types *)

(** A value of the C++ arithmetic type [t]. *)
Record prim (t : arith_ty) := Prim { pval : Z }.
Arguments Prim {t}.
Arguments pval {t}.

(** A value of an enum with underlying type [t]. *)
Record enum (t : arith_ty) := Enum { evalue : Z }.
Arguments Enum {t}.
Arguments evalue {t}.

(** [std::string] and [std::u16string]. *)
Record string := Str { bytes_of : list Z }.
Record u16string := Str16 { units_of : list Z }.

Section Primitives.
Context `{Platform}.

(** [MemoryPackFormatter<bool>] and the formatter of the other arithmetic types. *)
Definition prim_Serialize (t : arith_ty) (v : prim t) : W unit :=
  match t with
  | Bool_t => WriteBool (negb (pval v =? 0))
  | Float32 => WriteFloat (pval v)
  | Float64 => WriteDouble (pval v)
  | _ =>
      match arith_size t with
      | 1%nat => WriteUInt8 (to_unsigned 1 (pval v))
      | 2%nat => WriteUInt16 (to_unsigned 2 (pval v))
      | 4%nat => WriteUInt32 (to_unsigned 4 (pval v))
      | _ => WriteUInt64 (to_unsigned 8 (pval v))
      end
  end.

Definition prim_Deserialize (t : arith_ty) : R (prim t) :=
  match t with
  | Bool_t => b ← ReadBool; mret (Prim (if b : bool then 1 else 0))
  | Float32 => v ← ReadFloat; mret (Prim v)
  | Float64 => v ← ReadDouble; mret (Prim v)
  | _ =>
      match arith_size t with
      | 1%nat => v ← ReadUInt8; mret (Prim (of_unsigned t v))
      | 2%nat => v ← ReadUInt16; mret (Prim (of_unsigned t v))
      | 4%nat => v ← ReadUInt32; mret (Prim (of_unsigned t v))
      | _ => v ← ReadUInt64; mret (Prim (of_unsigned t v))
      end
  end.

#[global] Instance prim_formatter t : MemoryPackFormatter (prim t) := {
  value_init := Prim 0;
  kind := Arithmetic t pval Prim;
  Serialize := prim_Serialize t;
  Deserialize := λ _, prim_Deserialize t;
}.

#[global] Instance enum_formatter t : MemoryPackFormatter (enum t) := {
  value_init := Enum 0;
  kind := Enumeration t evalue Enum;
  Serialize := λ v, WriteEnum t (evalue v);
  Deserialize := λ _, v ← ReadEnum t; mret (Enum v);
}.

#[global] Instance string_formatter : MemoryPackFormatter string := {
  value_init := Str [];
  kind := StdString bytes_of Str;
  Serialize := λ v, WriteString (bytes_of v);
  Deserialize := λ _, r ← ReadStringInto; mret (Str (snd r));
}.

Definition u16_Deserialize : R u16string :=
  s ← ReadString;
  mret match s with Some u8 => Str16 (utf8_to_utf16 u8) | None => Str16 [] end.

#[global] Instance u16string_formatter : MemoryPackFormatter u16string := {
  value_init := Str16 [];
  kind := StdU16String;
  Serialize := λ v, WriteStringUtf16 (units_of v);
  Deserialize := λ _, u16_Deserialize;
}.

(** *** Encodings *)

#[global] Instance prim_wire t : WireFormat (prim t) := {
  enc := λ v, le_bytes (arith_size t) (pval v);
  wf := λ v, arith_ok t (pval v);
  within := λ _ _ _, True;
}.

#[global] Instance enum_wire t : WireFormat (enum t) := {
  enc := λ v, le_bytes (arith_size t) (evalue v);
  wf := λ v, arith_ok t (evalue v);
  within := λ _ _ _, True;
}.

#[global] Instance string_wire : WireFormat string := {
  enc := λ s, enc_string (bytes_of s);
  wf := λ s, string_ok (bytes_of s);
  within := λ o _ s, zlen (bytes_of s) ≤ maxStringLength o;
}.

(** UTF-16 without unpaired surrogates. *)
Definition utf16_well_formed (s : list Z) : Prop := utf16_encode (decode_utf16 s) = s.

#[global] Instance u16string_wire : WireFormat u16string := {
  enc := λ s, enc_string_utf16 (units_of s);
  wf := λ s, u16string_ok (units_of s) ∧ utf16_well_formed (units_of s);
  within := λ o _ s, zlen (units_of s) ≤ maxStringLength o;
}.
End Primitives.

Lemma HeaderSize_min {T} (k : type_kind T) : 1 ≤ HeaderSize k.
Proof. by destruct k. Qed.

Lemma law_needs_byte `{Platform} {T} `{!MemoryPackFormatter T, !WireFormat T, !FormatterLaws T} (old : T) :
  needs_bytes 1 (Deserialize old).
Proof. eapply needs_bytes_mono; [apply (HeaderSize_min (T := T) kind)|apply law_needs]. Qed.

(** ** The laws of the primitives *)

Section PrimitiveLaws.
Context `{Platform}.

Lemma safe_ReadRaw_any t : safe (ReadRaw t) anything.
Proof.
  eapply safe_anything. intros r Hr. unfold ReadRaw.
  eapply safe_at_bind; [apply safe_take_bytes; [done|unfold sizeof; lia]|].
  intros. by apply (safe_at_ret _ _ anything).
Qed.

Lemma safe_map {A B} (m : R A) (f : A → B) : safe m anything → safe (x ← m; mret (f x)) anything.
Proof. intros Hm. apply safe_bind_anything; [done|]. intros a r Hr. by apply safe_at_ret. Qed.

Lemma needs_bytes_map {A B} n (m : R A) (f : A → B) :
  safe m anything → needs_bytes n m → needs_bytes n (x ← m; mret (f x)).
Proof.
  intros Sm Hm. apply needs_bytes_bind; [done|done|]. intros a r Hr. by apply safe_at_ret.
Qed.

Lemma safe_take_bytes_any n : 0 ≤ n → safe (take_bytes n) anything.
Proof. intros Hn r Hr. eapply safe_at_anything. by apply safe_take_bytes. Qed.

Lemma needs_bytes_ReadRaw t : needs_bytes (sizeof t) (ReadRaw t).
Proof.
  apply needs_bytes_map; [apply safe_take_bytes_any|apply needs_bytes_take]; unfold sizeof; lia.
Qed.

Lemma needs_bytes_ReadByte : needs_bytes 1 ReadByte.
Proof. apply needs_bytes_map; [by apply safe_take_bytes_any|by apply needs_bytes_take]. Qed.

Lemma safe_ReadByte_any : safe ReadByte anything.
Proof. eapply safe_anything, safe_ReadByte. Qed.

(** The unsigned value a formatter writes for [v], and its bytes. *)
Lemma to_unsigned_ok n v : 0 ≤ to_unsigned n v < pow256 n.
Proof. apply Z.mod_pos_bound, pow256_pos. Qed.

Lemma le_bytes_to_unsigned n v : le_bytes n (to_unsigned n v) = le_bytes n v.
Proof. apply le_bytes_mod. Qed.

Lemma le_bytes_byte b : 0 ≤ b < 256 → le_bytes 1 b = [b].
Proof. intros. simpl. by rewrite Z.mod_small. Qed.
End PrimitiveLaws.

#[export] Hint Resolve safe_ReadRaw_any safe_ReadByte_any safe_map needs_bytes_map
  needs_bytes_ReadRaw needs_bytes_ReadByte : mp.

Section PrimLaws.
Context `{Platform} (t : arith_ty).

Lemma WriteRaw_unsigned u n v :
  arith_size u = n → (∀ w, arith_ok u w ↔ 0 ≤ w < pow256 n) →
  emits (WriteRaw u (to_unsigned n v)) (le_bytes n v).
Proof.
  intros <- Hu. rewrite <-le_bytes_to_unsigned. apply WriteRaw_emits, Hu, to_unsigned_ok.
Qed.

Lemma prim_emits v : arith_ok t (pval v) → emits (prim_Serialize t v) (le_bytes (arith_size t) (pval v)).
Proof.
  destruct v as [v]. cbn [pval]. intros Hv.
  assert (Hb : ∀ x, emits (AppendByte (to_unsigned 1 x)) (le_bytes 1 x)) by (intros; apply AppendByte_emits).
  unfold prim_Serialize. destruct t; cbn [arith_size pval]; try apply Hb;
    try (by apply WriteRaw_emits); try (by apply WriteRaw_unsigned).
  unfold WriteBool. change (0 ≤ v ≤ 1) in Hv. assert (v = 0 ∨ v = 1) as [-> | ->] by lia.
  - apply (AppendByte_emits 0).
  - apply (AppendByte_emits 1).
Qed.

Lemma reads_unsigned o d u n v :
  arith_size t = n → arith_size u = n → (∀ w, arith_ok u w ↔ 0 ≤ w < pow256 n) → arith_ok t v →
  reads o d (x ← ReadRaw u; mret (Prim (of_unsigned t x) : prim t)) (le_bytes n v) (Prim v).
Proof.
  intros <- Hn Hu Hv. rewrite <-(arith_ok_unsigned t v Hv) at 2.
  apply (reads_map o d (ReadRaw u) (λ x, Prim (of_unsigned t x))); [|apply safe_ReadRaw_any].
  rewrite <-le_bytes_to_unsigned, <-Hn. apply reads_ReadRaw, Hu. rewrite Hn. apply to_unsigned_ok.
Qed.

Lemma reads_byte {A} o d (f : Z → A) b : reads o d (x ← ReadByte; mret (f x)) [b] (f b).
Proof. apply (reads_map o d ReadByte f); [apply reads_ReadByte|apply safe_ReadByte_any]. Qed.

Lemma reads_prim o d v : arith_ok t v →
  reads o d (prim_Deserialize t) (le_bytes (arith_size t) v) (Prim v).
Proof.
  intros Hv. pose proof (arith_ok_unsigned t v Hv) as Hu. pose proof (reads_unsigned o d) as Hr.
  pose proof (λ f : Z → prim t, reads_byte o d f (to_unsigned 1 v)) as Hb.
  unfold prim_Deserialize. destruct t; cbn [arith_size] in *;
    try (by apply Hr); try (rewrite <-Hu at 2; by apply Hb);
    try (by apply (reads_map o d (ReadRaw _) Prim); [apply (reads_ReadRaw o d _ v)|apply safe_ReadRaw_any]).
  change (0 ≤ v ≤ 1) in Hv.
  eapply (reads_ext _ _ (b ← ReadByte; mret (Prim (if negb (b =? 0) then 1 else 0)))).
  { intros r. symmetry. apply bind_assoc. }
  assert (v = 0 ∨ v = 1) as [-> | ->] by lia;
    by apply (reads_byte o d (λ b, Prim (if negb (b =? 0) then 1 else 0))).
Qed.

Lemma prim_safe : safe (prim_Deserialize t) anything.
Proof.
  unfold prim_Deserialize, ReadBool. destruct t; cbn [arith_size]; apply safe_map;
    first [apply safe_ReadRaw_any | apply safe_ReadByte_any | apply safe_map, safe_ReadByte_any].
Qed.

Lemma sizeof_min : 1 ≤ sizeof t.
Proof. by destruct t. Qed.

Lemma needs_byte_ReadRaw u : needs_bytes 1 (ReadRaw u).
Proof. eapply needs_bytes_mono; [|apply needs_bytes_ReadRaw]. by destruct u. Qed.

Lemma prim_needs : needs_bytes 1 (prim_Deserialize t).
Proof.
  unfold prim_Deserialize, ReadBool. destruct t; cbn [arith_size]; apply needs_bytes_map;
    first [apply safe_ReadRaw_any | apply safe_ReadByte_any | apply needs_byte_ReadRaw
          |apply needs_bytes_ReadByte|apply safe_map, safe_ReadByte_any
          |apply needs_bytes_map; [apply safe_ReadByte_any|apply needs_bytes_ReadByte]].
Qed.

#[global] Instance prim_laws : FormatterLaws (prim t).
Proof.
  split; cbn; intros.
  - by apply prim_emits.
  - destruct v. by apply reads_prim.
  - apply prim_safe.
  - apply prim_needs.
  - by rewrite zlen_le_bytes.
  - by split; [intros []|].
  - apply le_bytes_ok.
Qed.

#[global] Instance enum_laws : FormatterLaws (enum t).
Proof.
  split; cbn; intros.
  - by apply WriteRaw_emits.
  - destruct v as [v]. apply (reads_map o d (ReadEnum t) Enum); [by apply reads_ReadRaw|].
    apply safe_ReadRaw_any.
  - apply safe_map, safe_ReadRaw_any.
  - apply needs_bytes_map; [apply safe_ReadRaw_any|apply needs_byte_ReadRaw].
  - by rewrite zlen_le_bytes.
  - by split; [intros []|].
  - apply le_bytes_ok.
Qed.
End PrimLaws.

Section StringLaws.
Context `{Platform}.

Lemma safe_ReadString_any : safe ReadString anything.
Proof. eapply safe_anything, safe_ReadString. Qed.

Lemma needs_bytes_ReadString : needs_bytes 4 ReadString.
Proof.
  intros o d r Hr E. change ReadString with (ReadRaw Int32 ≫= read_string_body).
  pose proof (needs_bytes_ReadRaw Int32 o d r Hr E) as Hf.
  pose proof (safe_ReadRaw r Int32 (ready_ok _ _ _ Hr)) as Hs.
  unfold fails_at, safe_at, mbind, M_bind in *.
  destruct (ReadRaw Int32 r) as [[h| |] r'] eqn:E'; try done.
  destruct Hs as (Hs & _ & _); [done|]. unfold read_string_body, mbind, M_bind, gets, Failed.
  by rewrite bool_decide_true.
Qed.

#[global] Instance string_laws : FormatterLaws string.
Proof.
  split; cbn; intros.
  - by apply WriteString_emits.
  - destruct v as [v]. cbn in *. unfold ReadStringInto.
    eapply (reads_ext _ _ (s ← ReadString; mret (Str (default [] s)))).
    { intros r. unfold mbind, M_bind. by destruct (ReadString r) as [[[]| |] ?]. }
    apply (reads_map o d ReadString (λ s, Str (default [] s)) _ (Some v)).
    + by apply reads_ReadString.
    + apply safe_ReadString_any.
  - apply safe_map, safe_map, safe_ReadString_any.
  - apply needs_bytes_map; [apply safe_map, safe_ReadString_any|].
    apply needs_bytes_map; [apply safe_ReadString_any|apply needs_bytes_ReadString].
  - apply enc_string_min.
  - by split_and!; [intros []| |].
  - by apply enc_string_ok.
Qed.

#[global] Instance u16string_laws : FormatterLaws u16string.
Proof.
  split; cbn [Serialize Deserialize kind u16string_formatter enc wf within u16string_wire].
  - intros v [Hv _]. by apply WriteStringUtf16_emits.
  - intros o d [v] old _ [Hv Hwf] Hlim. cbn [enc u16string_wire units_of] in *.
    change (Deserialize _) with u16_Deserialize.
    pose proof (utf8_to_utf16_encode _ (decode_utf16_scalar v (proj1 Hv))) as E.
    rewrite Hwf in E. replace (Str16 v) with (Str16 (utf8_to_utf16 (utf8_encode (decode_utf16 v)))) by (by rewrite E).
    apply (reads_map o d ReadString
      (λ s, match s with Some u8 => Str16 (utf8_to_utf16 u8) | None => Str16 [] end)
      _ (Some (utf8_encode (decode_utf16 v)))).
    + by apply reads_ReadString_utf16.
    + apply safe_ReadString_any.
  - intros _. apply safe_map, safe_ReadString_any.
  - intros _. apply needs_bytes_map; [apply safe_ReadString_any|apply needs_bytes_ReadString].
  - intros v _. unfold enc_string_utf16. rewrite zlen_app.
    rewrite (zlen_le_bytes 4). zlen_pos. cbn [MinEncodedSize]. lia.
  - intros v [[_ Hlen] _]. exists (zlen (units_of v)), (units_of v ≫= le_bytes 2). zlen_pos.
    split; [lia|done].
  - intros v _. apply bytes_ok_app; [apply le_bytes_ok|]. apply bytes_ok_bind. intros u _. apply le_bytes_ok.
Qed.
End StringLaws.
