(* ===== verification/Collections.v ===== *)
(** Sequences ([core.hpp] collections, [containers.hpp]): vectors of arithmetic
    types with their bulk copies, [std::vector], [std::deque], [std::list],
    [std::array] and collections of unmanaged structs. *)
From S2P Require Import Prelude Endian Writer Reader Headers Utf Strings Formatter.

(** ** Container types *)

Record vector (T : Type) := Vector { elements : list T }.
Arguments Vector {T}.
Arguments elements {T}.

(** [std::deque] and [std::list], both handled by [detail::SequenceFormatter]. *)
Record sequence (T : Type) := Sequence { items : list T }.
Arguments Sequence {T}.
Arguments items {T}.

(** [std::array<T, N>]. *)
Record array (T : Type) (N : nat) := Array { cells : list T }.
Arguments Array {T N}.
Arguments cells {T N}.

(** [k] blocks of [m] bytes. *)
Fixpoint chunks (k m : nat) (bs : list Z) : list (list Z) :=
  match k with
  | O => []
  | S k' => take m bs :: chunks k' m (drop m bs)
  end.

(** ** Writer *)

Section WriteCollections.
Context `{Platform}.

(** [WriteVector] of an arithmetic type, and the [std::vector<bool>] overload. *)
Definition WriteVector (t : arith_ty) (vec : list Z) : W unit :=
  n ← ToInt32Length (zlen vec);
  if n <? 0 then mret tt else
  WriteCollectionHeader n ;;
  WriteContiguous t vec.

Definition WriteVectorBool (vec : list bool) : W unit :=
  n ← ToInt32Length (zlen vec);
  if n <? 0 then mret tt else
  WriteCollectionHeader n ;;
  mapM_ (λ b : bool, AppendByte (if b then 1 else 0)) vec.

Definition WriteStringVector (vec : list (list Z)) : W unit :=
  n ← ToInt32Length (zlen vec);
  if n <? 0 then mret tt else
  WriteCollectionHeader n ;;
  mapM_ WriteString vec.

(** [WriteArray(const T* arr, int32_t count)]: reading past [arr] is undefined. *)
Definition WriteArray (t : arith_ty) (arr : list Z) (count : Z) : W unit :=
  WriteCollectionHeader count ;;
  if count <=? 0 then mret tt else
  if count >? zlen arr then undefined else
  WriteContiguous t (take (Z.to_nat count) arr).

(** [WriteArray(const std::array<T, N>&)]. *)
Definition WriteStdArray (t : arith_ty) (arr : list Z) : W unit :=
  n ← ToInt32Length (zlen arr);
  if n <? 0 then mret tt else
  WriteCollectionHeader n ;;
  WriteContiguous t arr.

Context `{MemoryPackFormatter T}.

(** [WriteCollection(const std::vector<T>&)]. *)
Definition WriteCollection (items : list T) : W unit :=
  n ← ToInt32Length (zlen items);
  if n <? 0 then mret tt else
  WriteCollectionHeader n ;;
  match kind with
  | Arithmetic Bool_t to _ => mapM_ (λ b, AppendByte (if negb (to b =? 0) then 1 else 0)) items
  | Arithmetic t to _ => WriteContiguous t (to <$> items)
  | _ => mapM_ Write items
  end.

(** [WriteCollection(std::span<const T>)]: no case for [bool]. *)
Definition WriteCollectionSpan (items : list T) : W unit :=
  n ← ToInt32Length (zlen items);
  if n <? 0 then mret tt else
  WriteCollectionHeader n ;;
  match kind with
  | Arithmetic t to _ => WriteContiguous t (to <$> items)
  | _ => mapM_ Write items
  end.

(** [detail::SequenceFormatter::Serialize], the same as [SetFormatter]'s. *)
Definition SequenceFormatter_Serialize (c : list T) : W unit :=
  n ← CheckedLength (zlen c);
  if n <? 0 then mret tt else
  WriteCollectionHeader n ;;
  mapM_ Write c.

Definition WriteUnmanagedCollection (rep : object_rep T) (items : list T) : W unit :=
  n ← ToInt32Length (zlen items);
  if n <? 0 then mret tt else
  WriteCollectionHeader n ;;
  if zlen items =? 0 then mret tt else AppendBytes (items ≫= rep_bytes rep).
End WriteCollections.

(** ** Reader *)

Section ReadCollections.
Context `{Platform}.

(** [for (i = 0; i < n && !Failed(); ++i) { x = m(); acc = ins(acc, x); }] *)
Fixpoint read_fold {A B} (n : nat) (m : R A) (ins : B → A → B) (acc : B) : R B :=
  match n with
  | O => mret acc
  | S n' =>
      failed ← gets Failed;
      if failed : bool then mret acc else
      x ← m;
      read_fold n' m ins (ins acc x)
  end.

(** The same loop without the test of [Failed()]. *)
Fixpoint read_all {A} (n : nat) (m : R A) (out : list A) : R (list A) :=
  match n with
  | O => mret out
  | S n' => x ← m; read_all n' m (out ++ [x])
  end.

Definition push_back {A} (out : list A) (x : A) : list A := out ++ [x].

(** [if (!EnsureBytes(n)) return; memcpy(.., data_ + pos_, n); pos_ += n;] where
    the size checked is computed in [size_t] and the copy is of whole elements. *)
Definition take_block (count elementSize : Z) : R (option (list Z)) :=
  ok ← EnsureBytes ((count * elementSize) mod size_mod);
  if negb ok then mret None else
  p ← gets pos_;
  bs ← load p (count * elementSize);
  advance ((count * elementSize) mod size_mod) ;;
  mret (Some bs).

Definition ReadVector (t : arith_ty) : R (list Z) :=
  len ← ReadCollectionLength (sizeof t);
  if len <=? 0 then mret [] else
  if native_little then
    bs ← take_block len (sizeof t);
    mret match bs with
         | Some bs => of_object_bytes t <$> chunks (Z.to_nat len) (arith_size t) bs
         | None => []
         end
  else
    ok ← EnsureBytes ((len * sizeof t) mod size_mod);
    if negb ok then mret [] else
    read_all (Z.to_nat len) (ReadRaw t) [].

Definition ReadVectorBool : R (list bool) :=
  len ← ReadCollectionLength 1;
  if len <=? 0 then mret [] else
  bs ← take_block len 1;
  mret match bs with Some bs => (λ b, negb (b =? 0)) <$> bs | None => [] end.

Definition ReadStringVector : R (list (list Z)) :=
  len ← ReadCollectionLength 4;
  if len <=? 0 then mret [] else
  read_fold (Z.to_nat len) (s ← ReadString; mret (default [] s)) push_back [].

(** The two halves of [ReadArray]: the elements kept, then those skipped. The
    result is the number of elements written and the array. *)
Definition ReadArrayKept (t : arith_ty) (arr : list Z) (readCount : Z) : R (option (list Z)) :=
  if readCount >? zlen arr then undefined else
  if native_little then
    bs ← take_block readCount (sizeof t);
    mret ((λ bs, overwrite 0 (of_object_bytes t <$> chunks (Z.to_nat readCount) (arith_size t) bs) arr) <$> bs)
  else
    ok ← EnsureBytes ((readCount * sizeof t) mod size_mod);
    if negb ok then mret None else
    vs ← read_all (Z.to_nat readCount) (ReadRaw t) [];
    mret (Some (overwrite 0 vs arr)).

Definition ReadArraySkip (t : arith_ty) (skipCount : Z) : R unit :=
  if skipCount >? 0 then
    ok ← EnsureBytes ((skipCount * sizeof t) mod size_mod);
    if negb ok then mret tt else advance ((skipCount * sizeof t) mod size_mod)
  else mret tt.

Definition ReadArray (t : arith_ty) (arr : list Z) (maxCount : Z) : R (Z * list Z) :=
  len ← ReadCollectionLength (sizeof t);
  if len <=? 0 then mret (0, arr) else
  let readCount := if len <=? maxCount then len else maxCount in
  kept ← (if readCount >? 0 then ReadArrayKept t arr readCount else mret (Some arr));
  match kept with
  | None => mret (0, arr)
  | Some arr' => ReadArraySkip t (len - readCount) ;; mret (readCount, arr')
  end.

(** [ReadArray<T, N>()], into a value-initialized [std::array]. *)
Definition ReadStdArray (t : arith_ty) (N : Z) : R (list Z) :=
  r ← ReadArray t (replicate (Z.to_nat N) 0) N;
  mret r.2.

Context `{MemoryPackFormatter T}.

Definition ReadCollection : R (list T) :=
  match kind with
  | Arithmetic Bool_t _ un => l ← ReadVectorBool; mret ((λ b : bool, un (if b then 1 else 0)) <$> l)
  | Arithmetic t _ un => l ← ReadVector t; mret (un <$> l)
  | k =>
      len ← ReadCollectionLength (MinEncodedSize k);
      if len <=? 0 then mret [] else
      read_fold (Z.to_nat len) Read push_back []
  end.

Definition SequenceFormatter_Deserialize : R (list T) :=
  len ← ReadCollectionLength (ContainerMinSize (T := T) kind);
  if len <=? 0 then mret [] else
  read_fold (Z.to_nat len) Read push_back [].

(** One round of the loop of [MemoryPackFormatter<std::array>]:
    [if (i < N) v[i] = tmp;], with the index. *)
Definition array_store (N : nat) (st : nat * list T) (tmp : T) : nat * list T :=
  (S st.1, if (st.1 <? N)%nat then <[st.1 := tmp]> st.2 else st.2).

Definition array_Deserialize (N : nat) : R (list T) :=
  let v := replicate N value_init in
  match kind with
  | Arithmetic t to un =>
      r ← ReadArray t (to <$> v) (Z.of_nat N);
      mret (un <$> r.2)
  | _ =>
      len ← ReadCollectionLength 1;
      if len <=? 0 then mret v else
      st ← read_fold (Z.to_nat len) Read (array_store N) (O, v);
      mret st.2
  end.

Definition ReadUnmanagedCollection (rep : object_rep T) : R (list T) :=
  len ← ReadCollectionLength (rep_size rep);
  if len <=? 0 then mret [] else
  bs ← take_block len (rep_size rep);
  mret match bs with
       | Some bs => rep_of rep <$> chunks (Z.to_nat len) (Z.to_nat (rep_size rep)) bs
       | None => []
       end.
End ReadCollections.

(** ** Loops and blocks *)

Section Loops.
Context `{Platform}.

Lemma zlen_bind_ge {A} (f : A → list Z) m (l : list A) :
  (∀ x, x ∈ l → m ≤ zlen (f x)) → zlen l * m ≤ zlen (l ≫= f).
Proof.
  induction l as [|x l IH]; intros Hf; [done|]. rewrite bind_cons, zlen_app, zlen_cons.
  pose proof (Hf x ltac:(left)). specialize (IH ltac:(intros; apply Hf; by right)). lia.
Qed.

Lemma zlen_bind_const {A} (f : A → list Z) m (l : list A) :
  (∀ x, x ∈ l → zlen (f x) = m) → zlen (l ≫= f) = zlen l * m.
Proof.
  induction l as [|x l IH]; intros Hf; [done|]. rewrite bind_cons, zlen_app, zlen_cons.
  rewrite (Hf x) by left. rewrite IH by (intros; apply Hf; by right). lia.
Qed.

Lemma zlen_bind_le_bytes t (l : list Z) : zlen (l ≫= le_bytes (arith_size t)) = zlen l * sizeof t.
Proof. apply zlen_bind_const. intros. apply zlen_le_bytes. Qed.

Lemma bind_ext_in {A} (f g : A → list Z) (l : list A) :
  (∀ x, x ∈ l → f x = g x) → l ≫= f = l ≫= g.
Proof.
  induction l as [|x l IH]; intros Hf; [done|]. rewrite !bind_cons, (Hf x) by left.
  by rewrite IH by (intros; apply Hf; by right).
Qed.

Lemma safe_read_fold {A B} n (m : R A) (ins : B → A → B) acc :
  safe m anything → safe (read_fold n m ins acc) anything.
Proof.
  intros Hm. revert acc. induction n as [|n IH]; intros acc r Hr; [by apply safe_at_ret|].
  cbn [read_fold]. apply safe_at_gets_bind. destruct (Failed r); [by apply safe_at_ret|].
  eapply safe_at_bind; [by apply Hm|]. intros x r' Hr' _ _. by apply IH.
Qed.

Lemma safe_read_all {A} n (m : R A) out : safe m anything → safe (read_all n m out) anything.
Proof.
  intros Hm. revert out. induction n as [|n IH]; intros out r Hr; [by apply safe_at_ret|].
  cbn [read_all]. eapply safe_at_bind; [by apply Hm|]. intros x r' Hr' _ _. by apply IH.
Qed.

(** The loop consumes the encodings of the elements, in order. *)
Lemma reads_read_fold {A B} o d (m : R A) (g : A → list Z) (ins : B → A → B) vs acc :
  safe m anything → (∀ v, v ∈ vs → reads o d m (g v) v) →
  reads o d (read_fold (length vs) m ins acc) (vs ≫= g) (foldl ins acc vs).
Proof.
  intros Sm. revert acc. induction vs as [|v vs IH]; intros acc Hm; [apply reads_ret|].
  rewrite bind_cons. cbn [read_fold length foldl].
  eapply reads_gets; [apply Failed_ready|]. cbn [negb].
  eapply reads_bind; [apply Hm; left|done| |].
  - apply IH. intros. apply Hm. by right.
  - intros x. by apply safe_read_fold.
Qed.

Lemma reads_read_all {A} o d (m : R A) (g : A → list Z) vs out :
  safe m anything → (∀ v, v ∈ vs → reads o d m (g v) v) →
  reads o d (read_all (length vs) m out) (vs ≫= g) (out ++ vs).
Proof.
  intros Sm. revert out. induction vs as [|v vs IH]; intros out Hm.
  { rewrite app_nil_r. apply reads_ret. }
  rewrite bind_cons. cbn [read_all length]. rewrite cons_middle, app_assoc.
  eapply reads_bind; [apply Hm; left|done| |].
  - apply IH. intros. apply Hm. by right.
  - intros x. by apply safe_read_all.
Qed.

Lemma foldl_push_back {A} (vs out : list A) : foldl push_back out vs = out ++ vs.
Proof.
  revert out. induction vs as [|v vs IH]; intros out; simpl; [by rewrite app_nil_r|].
  rewrite IH. unfold push_back. by rewrite <-app_assoc.
Qed.

Lemma chunks_bind {A} k (f : A → list Z) (vs : list A) :
  (∀ v, v ∈ vs → length (f v) = k) → chunks (length vs) k (vs ≫= f) = f <$> vs.
Proof.
  induction vs as [|v vs IH]; intros Hf; [done|]. rewrite bind_cons. cbn [length chunks fmap list_fmap].
  rewrite take_app_length', drop_app_length' by (rewrite (Hf v); [done|left]).
  f_equal. apply IH. intros. apply Hf. by right.
Qed.

(** Without wrap-around the block copy is [take_bytes]. *)
Lemma take_block_take_bytes count e r :
  0 ≤ count * e < size_mod → take_block count e r = take_bytes (count * e) r.
Proof.
  intros Hn. unfold take_block, take_bytes. rewrite Z.mod_small by done.
  unfold mbind, M_bind. by destruct (EnsureBytes (count * e) r) as [[[|]| |] r'].
Qed.

Lemma reads_take_block o d count e bs :
  zlen bs = count * e → count * e < size_mod → reads o d (take_block count e) bs (Some bs).
Proof.
  intros Hl Hs. zlen_pos. eapply reads_ext; [|by apply reads_take_bytes].
  intros r. symmetry. apply take_block_take_bytes. lia.
Qed.

Lemma safe_take_block r count e : r_ok r → 0 ≤ count * e < size_mod →
  safe_at r (take_block count e) (λ o r',
    match o with Some bs => zlen bs = count * e ∧ bytes_ok bs | None => error_ r' ≠ NoError end).
Proof.
  intros Hr Hn. unfold safe_at. rewrite take_block_take_bytes by done.
  eapply safe_at_mono; [apply safe_take_bytes; [done|lia]|]. intros [bs|] r' _; [tauto|done].
Qed.

(** Accepted lengths do not wrap when multiplied by the element size. *)
Lemma accepted_no_wrap m len r : r_ok r → 0 < m → length_accepted m len r → 0 < len →
  0 ≤ len * m < size_mod.
Proof.
  intros Hr Hm [->|(Hlen & _ & Hroom)] Hpos; [lia|]. rewrite Remaining_spec in Hroom by done.
  pose proof (ok_pos r Hr). pose proof (ok_size r Hr). lia.
Qed.

Lemma of_object_bytes_le t v : native_little = true → arith_ok t v →
  of_object_bytes t (le_bytes (arith_size t) v) = v.
Proof.
  intros En Hv. unfold of_object_bytes. rewrite En. by apply (wire_value_le_bytes t v).
Qed.
End Loops.

(** ** Vectors of arithmetic types *)

Section VectorFacts.
Context `{Platform}.

Lemma sizeof_pos t : 1 ≤ sizeof t ≤ 8.
Proof. by destruct t. Qed.

Lemma WriteVector_emits t vec : Forall (arith_ok t) vec → zlen vec < 2 ^ 31 →
  emits (WriteVector t vec) (le_bytes 4 (zlen vec) ++ (vec ≫= le_bytes (arith_size t))).
Proof.
  intros Hok Hn. zlen_pos. apply emits_length; [lia|].
  apply emits_bind; [by apply WriteCollectionHeader_emits|by apply WriteContiguous_emits].
Qed.

Lemma WriteStdArray_emits t arr : Forall (arith_ok t) arr → zlen arr < 2 ^ 31 →
  emits (WriteStdArray t arr) (le_bytes 4 (zlen arr) ++ (arr ≫= le_bytes (arith_size t))).
Proof. exact (WriteVector_emits t arr). Qed.

(** A C array sends its first [count] elements. *)
Lemma WriteArray_emits t arr n : (n ≤ length arr)%nat → Forall (arith_ok t) (take n arr) → Z.of_nat n < 2 ^ 31 →
  emits (WriteArray t arr (Z.of_nat n)) (le_bytes 4 (Z.of_nat n) ++ (take n arr ≫= le_bytes (arith_size t))).
Proof.
  intros Hn Hok Hl. unfold WriteArray. apply emits_bind; [apply WriteCollectionHeader_emits; lia|].
  destruct (Z.leb_spec (Z.of_nat n) 0).
  { replace n with 0%nat by lia. apply emits_nil. }
  destruct (Z.gtb_spec (Z.of_nat n) (zlen arr)); [unfold zlen in *; lia|]. rewrite Nat2Z.id. by apply WriteContiguous_emits.
Qed.

(** Skeleton shared by all collection readers: nothing happens for a null or
    empty collection, and [k] runs on an accepted positive length. *)
Lemma safe_after_length {B} m (dflt : B) (k : Z → R B) : 0 < m →
  (∀ len r, r_ok r → length_accepted m len r → 0 < len → safe_at r (k len) anything) →
  ∀ len r, r_ok r → length_accepted m len r →
  safe_at r (if len <=? 0 then mret dflt else k len) anything.
Proof.
  intros Hm Hk len r Hr Hlen. destruct (Z.leb_spec len 0); [by apply safe_at_ret|by apply Hk].
Qed.

Lemma safe_collection {B} m (dflt : B) (k : Z → R B) : 0 < m →
  (∀ len r, r_ok r → length_accepted m len r → 0 < len → safe_at r (k len) anything) →
  safe (len ← ReadCollectionLength m; if len <=? 0 then mret dflt else k len) anything.
Proof.
  intros Hm Hk r Hr. eapply safe_at_bind; [by apply safe_ReadCollectionLength|].
  intros len r' Hr' _ Hlen. by apply (safe_after_length m).
Qed.

Lemma reads_collection_of {A B} o d m (dflt : B) (k : Z → R B) (g : A → list Z) (vs : list A) b :
  0 < m → zlen vs < 2 ^ 31 → zlen vs ≤ maxCollectionLength o →
  (∀ v, v ∈ vs → m ≤ zlen (g v)) → (vs = [] → b = dflt) →
  (zlen vs * m < size_mod → reads o d (k (zlen vs)) (vs ≫= g) b) →
  (∀ len r, r_ok r → length_accepted m len r → 0 < len → safe_at r (k len) anything) →
  reads o d (len ← ReadCollectionLength m; if len <=? 0 then mret dflt else k len)
    (le_bytes 4 (zlen vs) ++ (vs ≫= g)) b.
Proof.
  intros Hm Hn Hlim Hg Hnil Hk Sk. zlen_pos.
  apply reads_collection; [done|lia|done|by apply zlen_bind_ge| |by apply safe_after_length].
  intros Hs. destruct (Z.leb_spec (zlen vs) 0).
  - assert (vs = []) as -> by (apply zlen_0_nil; lia). rewrite Hnil by done. apply reads_ret.
  - by apply Hk.
Qed.

(** The bulk read and the element-wise read of the vector body. *)
Definition read_vector_body (t : arith_ty) (len : Z) : R (list Z) :=
  if native_little then
    bs ← take_block len (sizeof t);
    mret match bs with
         | Some bs => of_object_bytes t <$> chunks (Z.to_nat len) (arith_size t) bs
         | None => []
         end
  else
    ok ← EnsureBytes ((len * sizeof t) mod size_mod);
    if negb ok then mret [] else
    read_all (Z.to_nat len) (ReadRaw t) [].

Lemma safe_block_map {B} m (f : list Z → B) (dflt : B) len r : r_ok r → 0 < m →
  length_accepted m len r → 0 < len →
  safe_at r (bs ← take_block len m; mret match bs with Some bs => f bs | None => dflt end) anything.
Proof.
  intros Hr Hm Hlen Hpos. eapply safe_at_bind; [by apply safe_take_block, accepted_no_wrap with r|].
  intros. by apply safe_at_ret.
Qed.

Lemma reads_block_map {B} o d (f : list Z → B) (dflt : B) len m body :
  zlen body = len * m → len * m < size_mod →
  reads o d (bs ← take_block len m; mret match bs with Some bs => f bs | None => dflt end) body (f body).
Proof.
  intros Hl Hs. zlen_pos.
  apply (reads_map o d (take_block len m)
    (λ bs, match bs with Some bs => f bs | None => dflt end) body (Some body)).
  - by apply reads_take_block.
  - eapply safe_anything. intros. apply safe_take_block; [done|lia].
Qed.

Lemma of_object_bytes_all t vs : native_little = true → (∀ v, v ∈ vs → arith_ok t v) →
  of_object_bytes t <$> chunks (length vs) (arith_size t) (vs ≫= le_bytes (arith_size t)) = vs.
Proof.
  intros En Hok. rewrite chunks_bind by (intros; apply length_le_bytes).
  rewrite <-list_fmap_compose. transitivity (id <$> vs); [|apply list_fmap_id]. apply list_fmap_ext. intros i v Hv.
  apply of_object_bytes_le; [done|]. by apply Hok, list_elem_of_lookup_2 with i.
Qed.

Lemma safe_vector_body t len r : r_ok r → length_accepted (sizeof t) len r → 0 < len →
  safe_at r (read_vector_body t len) anything.
Proof.
  intros Hr Hlen Hpos. pose proof (sizeof_pos t). unfold read_vector_body. destruct native_little.
  - apply safe_block_map; auto; lia.
  - eapply safe_at_bind; [by apply safe_EnsureBytes|]. intros [|] r' Hr' _ _; cbn [negb].
    + by apply safe_read_all; [apply safe_ReadRaw_any|].
    + by apply safe_at_ret.
Qed.

Lemma reads_vector_body o d t vs : Forall (arith_ok t) vs → zlen vs * sizeof t < size_mod →
  reads o d (read_vector_body t (zlen vs)) (vs ≫= le_bytes (arith_size t)) vs.
Proof.
  intros Hok Hs. unfold read_vector_body. rewrite zlen_to_nat. zlen_pos. pose proof (sizeof_pos t).
  rewrite Forall_forall in Hok. destruct native_little eqn:En.
  - rewrite <-(of_object_bytes_all t vs) at 3 by done.
    apply (reads_block_map o d (λ bs, of_object_bytes t <$> chunks (length vs) (arith_size t) bs) []); [|done].
    apply zlen_bind_le_bytes.
  - rewrite Z.mod_small by lia. apply reads_ensured; [by rewrite zlen_bind_le_bytes| |].
    + apply (reads_read_all o d (ReadRaw t) (le_bytes (arith_size t)) vs []); [apply safe_ReadRaw_any|].
      intros v Hv. by apply reads_ReadRaw, Hok.
    + intros r Hr. by apply safe_at_ret.
Qed.

Lemma reads_ReadVector o d t vs :
  Forall (arith_ok t) vs → zlen vs < 2 ^ 31 → zlen vs ≤ maxCollectionLength o →
  reads o d (ReadVector t) (le_bytes 4 (zlen vs) ++ (vs ≫= le_bytes (arith_size t))) vs.
Proof.
  intros Hok Hn Hlim. pose proof (sizeof_pos t).
  apply (reads_collection_of o d (sizeof t) [] (read_vector_body t)); try done; [lia|..].
  - intros v _. by rewrite zlen_le_bytes.
  - by apply reads_vector_body.
  - intros. by apply safe_vector_body.
Qed.

Lemma safe_ReadVector t : safe (ReadVector t) anything.
Proof.
  pose proof (sizeof_pos t). apply (safe_collection (sizeof t) [] (read_vector_body t)); [lia|].
  intros. by apply safe_vector_body.
Qed.
End VectorFacts.

(** ** [std::vector], [std::deque], [std::list] *)

Section SequenceLaws.
Context `{Platform} {T : Type} `{!MemoryPackFormatter T, !WireFormat T, !FormatterLaws T}.

Definition enc_elements (l : list T) : list Z := le_bytes 4 (zlen l) ++ (l ≫= enc).

Definition elements_ok (l : list T) : Prop := zlen l < 2 ^ 31 ∧ ∀ v, v ∈ l → wf v.

Definition elements_within (o : ReaderOptions) (d : Z) (l : list T) : Prop :=
  zlen l ≤ maxCollectionLength o ∧ ∀ v, v ∈ l → within o d v.

Lemma contiguous_emits t to un (l : list T) : kind = Arithmetic t to un → (∀ v, v ∈ l → wf v) →
  emits (WriteContiguous t (to <$> l)) (l ≫= enc).
Proof.
  intros Ek Hwf. pose proof law_kind as Hk. rewrite Ek in Hk. destruct Hk as [_ Hk].
  rewrite (bind_ext_in enc (λ v, le_bytes (arith_size t) (to v))) by (intros; by apply Hk, Hwf).
  replace (l ≫= λ v, le_bytes (arith_size t) (to v)) with ((to <$> l) ≫= le_bytes (arith_size t)).
  - apply WriteContiguous_emits. apply Forall_fmap, Forall_forall. intros v Hv. by apply Hk, Hwf.
  - clear. induction l as [|v l IH]; [done|]. by rewrite fmap_cons, !bind_cons, IH.
Qed.

Lemma bools_emits to un (l : list T) : kind = Arithmetic Bool_t to un → (∀ v, v ∈ l → wf v) →
  emits (mapM_ (λ b, AppendByte (if negb (to b =? 0) then 1 else 0)) l) (l ≫= enc).
Proof.
  intros Ek Hwf. pose proof law_kind as Hk. rewrite Ek in Hk. destruct Hk as [_ Hk].
  apply mapM_emits. intros v Hv. destruct (Hk v (Hwf v Hv)) as [Hb ->].
  change (0 ≤ to v ≤ 1) in Hb. assert (to v = 0 ∨ to v = 1) as [-> | ->] by lia.
  - apply (AppendByte_emits 0).
  - apply (AppendByte_emits 1).
Qed.

Lemma writes_emits (l : list T) : (∀ v, v ∈ l → wf v) → emits (mapM_ Write l) (l ≫= enc).
Proof. intros Hwf. apply mapM_emits. intros v Hv. by apply law_emits, Hwf. Qed.

Lemma WriteCollection_emits l : elements_ok l → emits (WriteCollection l) (enc_elements l).
Proof.
  intros [Hn Hwf]. zlen_pos. apply emits_length; [lia|].
  apply emits_bind; [by apply WriteCollectionHeader_emits|].
  destruct kind as [t to un| | | | | |] eqn:Ek; [|by apply writes_emits..].
  destruct t; first [by eapply bools_emits|by eapply contiguous_emits].
Qed.

Lemma WriteCollectionSpan_emits l : elements_ok l → emits (WriteCollectionSpan l) (enc_elements l).
Proof.
  intros [Hn Hwf]. zlen_pos. apply emits_length; [lia|].
  apply emits_bind; [by apply WriteCollectionHeader_emits|].
  destruct kind as [t to un| | | | | |] eqn:Ek; [by eapply contiguous_emits|by apply writes_emits..].
Qed.

Lemma SequenceFormatter_emits l : elements_ok l → emits (SequenceFormatter_Serialize l) (enc_elements l).
Proof.
  intros [Hn Hwf]. zlen_pos. apply emits_length; [lia|].
  apply emits_bind; [by apply WriteCollectionHeader_emits|by apply writes_emits].
Qed.

(** The minimum sizes the readers assume are really minimal. *)
Lemma MinEncodedSize_pos (k : type_kind T) : 1 ≤ MinEncodedSize k.
Proof. destruct k; simpl; try lia; apply sizeof_pos. Qed.

Lemma ContainerMinSize_bounds (k : type_kind T) : 1 ≤ ContainerMinSize k ≤ MinEncodedSize k.
Proof. destruct k as [t| t | | | | |]; simpl; try lia; pose proof (sizeof_pos t); lia. Qed.

Lemma elements_min m (l : list T) : m ≤ MinEncodedSize (T := T) kind → (∀ v, v ∈ l → wf v) →
  ∀ v, v ∈ l → m ≤ zlen (enc v).
Proof. intros Hm Hwf v Hv. etrans; [done|]. by apply law_min, Hwf. Qed.

Lemma safe_Read_fold {B} n (ins : B → T → B) acc : safe (read_fold n Read ins acc) anything.
Proof. apply safe_read_fold, law_safe. Qed.

(** The loop that fills a container, whatever the container does with an element. *)
Lemma reads_elements {B} o d m (ins : B → T → B) (acc : B) (l : list T) :
  0 ≤ d → 1 ≤ m ≤ MinEncodedSize (T := T) kind → elements_ok l → elements_within o d l →
  reads o d (len ← ReadCollectionLength m;
             if len <=? 0 then mret acc else read_fold (Z.to_nat len) Read ins acc)
    (enc_elements l) (foldl ins acc l).
Proof.
  intros Hd [Hm1 Hm2] [Hn Hwf] [Hlim Hwi].
  apply reads_collection_of; [lia|done|done|by apply elements_min|by intros ->| |].
  - intros _. rewrite zlen_to_nat. apply reads_read_fold; [apply law_safe|].
    intros v Hv. by apply law_reads; auto.
  - intros. by apply safe_Read_fold.
Qed.

Lemma safe_elements {B} m (ins : B → T → B) (acc : B) : 1 ≤ m →
  safe (len ← ReadCollectionLength m;
        if len <=? 0 then mret acc else read_fold (Z.to_nat len) Read ins acc) anything.
Proof. intros Hm. apply safe_collection; [lia|]. intros. by apply safe_Read_fold. Qed.

Lemma needs_bytes_collection {B} m (k : Z → R B) : 0 < m →
  (∀ len r, r_ok r → length_accepted m len r → safe_at r (k len) anything) →
  needs_bytes 4 (ReadCollectionLength m ≫= k).
Proof.
  intros Hm Sk o d r Hr E. eapply fails_at_bind_at; [apply safe_ReadCollectionLength; [apply Hr|done]| |by intros; apply Sk].
  apply (fails_at_bind r (ReadRaw Int32)); [by apply safe_ReadRaw_any, Hr| |apply safe_collection_checks].
  by eapply needs_bytes_ReadRaw.
Qed.

Lemma needs_bytes_elements {B} m (ins : B → T → B) (acc : B) : 1 ≤ m →
  needs_bytes 4 (len ← ReadCollectionLength m;
               if len <=? 0 then mret acc else read_fold (Z.to_nat len) Read ins acc).
Proof.
  intros Hm. apply needs_bytes_collection; [lia|]. apply safe_after_length; [lia|].
  intros. by apply safe_Read_fold.
Qed.

Lemma foldl_elements (l : list T) : foldl push_back [] l = l.
Proof. by rewrite foldl_push_back. Qed.
End SequenceLaws.

Section Instances.
Context `{Platform} {T : Type} `{!MemoryPackFormatter T, !WireFormat T}.

#[global] Instance vector_formatter : MemoryPackFormatter (vector T) := {
  value_init := Vector [];
  kind := StdCollection;
  Serialize := λ v, WriteCollection (elements v);
  Deserialize := λ _, l ← ReadCollection; mret (Vector l);
}.

#[global] Instance sequence_formatter : MemoryPackFormatter (sequence T) := {
  value_init := Sequence [];
  kind := StdCollection;
  Serialize := λ c, SequenceFormatter_Serialize (items c);
  Deserialize := λ _, l ← SequenceFormatter_Deserialize; mret (Sequence l);
}.

#[global] Instance array_formatter N : MemoryPackFormatter (array T N) := {
  value_init := Array (replicate N value_init);
  kind := OtherType;
  Serialize := λ v, WriteCollectionSpan (cells v);
  Deserialize := λ _, l ← array_Deserialize N; mret (Array l);
}.

#[global] Instance vector_wire : WireFormat (vector T) := {
  enc := λ v, enc_elements (elements v);
  wf := λ v, elements_ok (elements v);
  within := λ o d v, elements_within o d (elements v);
}.

#[global] Instance sequence_wire : WireFormat (sequence T) := {
  enc := λ v, enc_elements (items v);
  wf := λ v, elements_ok (items v);
  within := λ o d v, elements_within o d (items v);
}.

#[global] Instance array_wire N : WireFormat (array T N) := {
  enc := λ v, enc_elements (cells v);
  wf := λ v, length (cells v) = N ∧ elements_ok (cells v);
  within := λ o d v, elements_within o d (cells v);
}.
End Instances.

Section VectorBool.
Context `{Platform}.

Definition bool_byte (b : bool) : Z := if b then 1 else 0.

Lemma WriteVectorBool_emits vec : zlen vec < 2 ^ 31 →
  emits (WriteVectorBool vec) (le_bytes 4 (zlen vec) ++ (vec ≫= λ b, [bool_byte b])).
Proof.
  intros Hn. zlen_pos. apply emits_length; [lia|].
  apply emits_bind; [by apply WriteCollectionHeader_emits|].
  apply mapM_emits. intros b _. apply AppendByte_emits.
Qed.

Definition bools_of (bs : list Z) : list bool := (λ b, negb (b =? 0)) <$> bs.

Lemma bools_of_bytes (vec : list bool) : bools_of (vec ≫= λ b, [bool_byte b]) = vec.
Proof.
  unfold bools_of. induction vec as [|b vec IH]; [done|].
  rewrite bind_cons, fmap_app, IH. by destruct b.
Qed.

Lemma reads_ReadVectorBool o d vec : zlen vec < 2 ^ 31 → zlen vec ≤ maxCollectionLength o →
  reads o d ReadVectorBool (le_bytes 4 (zlen vec) ++ (vec ≫= λ b, [bool_byte b])) vec.
Proof.
  intros Hn Hlim. zlen_pos.
  apply (reads_collection_of o d 1 [] (λ len, bs ← take_block len 1;
    mret match bs with Some bs => bools_of bs | None => [] end)); try done.
  - intros Hs. rewrite <-(bools_of_bytes vec) at 3.
    apply (reads_block_map o d bools_of []); [|done].
    apply (zlen_bind_const (λ b, [bool_byte b]) 1). done.
  - intros. by apply (safe_block_map 1 bools_of).
Qed.

Lemma safe_ReadVectorBool : safe ReadVectorBool anything.
Proof. apply safe_collection; [lia|]. intros. by apply (safe_block_map 1 bools_of []). Qed.
End VectorBool.

Section VectorLaws.
Context `{Platform} {T : Type} `{!MemoryPackFormatter T, !WireFormat T, !FormatterLaws T}.

Lemma fmap_to_un t to un (l : list T) : kind = Arithmetic t to un → un <$> (to <$> l) = l.
Proof.
  intros Ek. pose proof law_kind as Hk. rewrite Ek in Hk. destruct Hk as [Hun _].
  rewrite <-list_fmap_compose. transitivity (id <$> l); [|apply list_fmap_id].
  apply list_fmap_ext. intros i v _. apply Hun.
Qed.

(** The encoding of elements of arithmetic kind is that of their values. *)
Lemma enc_elements_arith t to un (l : list T) : kind = Arithmetic t to un → elements_ok l →
  enc_elements l = le_bytes 4 (zlen (to <$> l)) ++ ((to <$> l) ≫= le_bytes (arith_size t)) ∧
  Forall (arith_ok t) (to <$> l) ∧ zlen (to <$> l) = zlen l.
Proof.
  intros Ek [Hn Hwf]. pose proof law_kind as Hk. rewrite Ek in Hk. destruct Hk as [Hun Hk].
  split_and!.
  - unfold enc_elements, zlen. rewrite length_fmap. f_equal.
    rewrite (bind_ext_in enc (λ v, le_bytes (arith_size t) (to v))) by (intros; by apply Hk, Hwf).
    clear. induction l as [|v l IH]; [done|]. by rewrite fmap_cons, !bind_cons, IH.
  - apply Forall_fmap, Forall_forall. intros v Hv. by apply Hk, Hwf.
  - unfold zlen. by rewrite length_fmap.
Qed.

(** The arithmetic cases of [ReadCollection], by [ReadVector]. *)
Lemma reads_arith_vector o d t to un (l : list T) : kind = Arithmetic t to un →
  elements_ok l → elements_within o d l →
  reads o d (vs ← ReadVector t; mret (un <$> vs)) (enc_elements l) l.
Proof.
  intros Ek Hok [Hlim _]. destruct (enc_elements_arith t to un l Ek Hok) as (-> & Hall & Hl).
  destruct Hok as [Hn _].
  apply (reads_map_eq o d (ReadVector t) (fmap un) _ (to <$> l)).
  - by apply reads_ReadVector; rewrite ?Hl.
  - apply safe_ReadVector.
  - by apply (fmap_to_un t).
Qed.

Lemma reads_bool_vector o d to un (l : list T) : kind = Arithmetic Bool_t to un →
  elements_ok l → elements_within o d l →
  reads o d (vs ← ReadVectorBool; mret ((λ b : bool, un (if b then 1 else 0)) <$> vs)) (enc_elements l) l.
Proof.
  intros Ek [Hn Hwf] [Hlim _]. pose proof law_kind as Hk. rewrite Ek in Hk. destruct Hk as [Hun Hk].
  set (f := λ v : T, negb (to v =? 0)).
  assert (Hf : ∀ v, v ∈ l → to v = bool_byte (f v)).
  { intros v Hv. destruct (Hk v (Hwf v Hv)) as [Hb _]. change (0 ≤ to v ≤ 1) in Hb. unfold f, bool_byte.
    assert (to v = 0 ∨ to v = 1) as [-> | ->] by lia; done. }
  assert (El : enc_elements l = le_bytes 4 (zlen (f <$> l)) ++ ((f <$> l) ≫= λ b, [bool_byte b])).
  { unfold enc_elements, zlen. rewrite length_fmap. f_equal.
    rewrite (bind_ext_in enc (λ v, [bool_byte (f v)])).
    - clear. induction l as [|v l IH]; [done|]. by rewrite fmap_cons, !bind_cons, IH.
    - intros v Hv. destruct (Hk v (Hwf v Hv)) as [Hb ->]. rewrite (Hf v Hv). by destruct (f v). }
  replace l with ((λ b : bool, un (if b then 1 else 0)) <$> (f <$> l)) at 2.
  - rewrite El. apply (reads_map o d ReadVectorBool (fmap (λ b : bool, un (if b then 1 else 0))));
      [|apply safe_ReadVectorBool].
    apply reads_ReadVectorBool; unfold zlen in *; by rewrite length_fmap.
  - rewrite <-list_fmap_compose. transitivity (id <$> l); [|apply list_fmap_id].
    apply list_fmap_ext. intros i v Hv. simpl. rewrite <-(Hun v) at 2. f_equal.
    symmetry. by apply Hf, list_elem_of_lookup_2 with i.
Qed.

Lemma reads_ReadCollection o d (l : list T) : 0 ≤ d → elements_ok l → elements_within o d l →
  reads o d ReadCollection (enc_elements l) l.
Proof.
  intros Hd Hok Hwi. pose proof (reads_elements o d (MinEncodedSize (T := T) kind) push_back [] l Hd) as He.
  rewrite foldl_elements in He. specialize (He (conj (MinEncodedSize_pos _) (Z.le_refl _)) Hok Hwi).
  unfold ReadCollection. destruct kind as [t to un| | | | | |] eqn:Ek; try exact He.
  destruct t; first [by eapply reads_bool_vector|by eapply reads_arith_vector].
Qed.

Lemma safe_ReadCollection : safe (ReadCollection (T := T)) anything.
Proof.
  pose proof (safe_elements (MinEncodedSize (T := T) kind) push_back [] (MinEncodedSize_pos _)) as He.
  unfold ReadCollection. destruct kind as [t to un| | | | | |] eqn:Ek; try exact He.
  destruct t; apply safe_map; first [apply safe_ReadVectorBool|apply safe_ReadVector].
Qed.

Lemma needs_bytes_ReadVector t : needs_bytes 4 (ReadVector t).
Proof.
  pose proof (sizeof_pos t). apply needs_bytes_collection; [lia|].
  apply (safe_after_length _ _ (read_vector_body t)); [lia|]. intros. by apply safe_vector_body.
Qed.

Lemma needs_bytes_ReadVectorBool : needs_bytes 4 ReadVectorBool.
Proof.
  apply needs_bytes_collection; [lia|]. apply safe_after_length; [lia|].
  intros. by apply (safe_block_map 1 bools_of []).
Qed.

Lemma needs_bytes_ReadCollection : needs_bytes 4 (ReadCollection (T := T)).
Proof.
  pose proof (needs_bytes_elements (MinEncodedSize (T := T) kind) push_back [] (MinEncodedSize_pos _)) as He.
  unfold ReadCollection. destruct kind as [t to un| | | | | |] eqn:Ek; try exact He.
  destruct t; apply needs_bytes_map; first
    [apply safe_ReadVectorBool|apply safe_ReadVector|apply needs_bytes_ReadVectorBool|apply needs_bytes_ReadVector].
Qed.

Lemma enc_elements_min (l : list T) : 4 ≤ zlen (enc_elements l).
Proof. unfold enc_elements. rewrite zlen_app, (zlen_le_bytes 4). zlen_pos. lia. Qed.

Lemma enc_elements_ok (l : list T) : elements_ok l → bytes_ok (enc_elements l).
Proof.
  intros [_ Hv]. apply bytes_ok_app; [apply le_bytes_ok|]. apply bytes_ok_bind. intros x Hx. by apply law_bytes, Hv.
Qed.

Lemma collection_kind_ok (l : list T) : elements_ok l →
  ∃ n body, 0 ≤ n < 2 ^ 31 ∧ enc_elements l = le_bytes 4 n ++ body.
Proof. intros [Hn _]. exists (zlen l), (l ≫= enc). zlen_pos. split; [lia|done]. Qed.

#[global] Instance vector_laws : FormatterLaws (vector T).
Proof.
  split; cbn [Serialize Deserialize kind vector_formatter enc wf within vector_wire].
  - intros v Hv. by apply WriteCollection_emits.
  - intros o d [l] _ Hd Hv Hwi. apply (reads_map o d ReadCollection Vector);
      [by apply reads_ReadCollection|apply safe_ReadCollection].
  - intros _. apply safe_map, safe_ReadCollection.
  - intros _. apply needs_bytes_map; [apply safe_ReadCollection|apply needs_bytes_ReadCollection].
  - intros v _. etrans; [|apply enc_elements_min]. done.
  - intros v. apply collection_kind_ok.
  - intros v. apply enc_elements_ok.
Qed.

Lemma ContainerMinSize_ok : 1 ≤ ContainerMinSize (T := T) kind ≤ MinEncodedSize (T := T) kind.
Proof. apply ContainerMinSize_bounds. Qed.

#[global] Instance sequence_laws : FormatterLaws (sequence T).
Proof.
  pose proof (safe_elements _ push_back ([] : list T) (proj1 ContainerMinSize_ok)) as Ss.
  pose proof (needs_bytes_elements _ push_back ([] : list T) (proj1 ContainerMinSize_ok)) as Ns.
  split; cbn [Serialize Deserialize kind sequence_formatter enc wf within sequence_wire].
  - intros v Hv. by apply SequenceFormatter_emits.
  - intros o d [l] _ Hd Hv Hwi. apply (reads_map o d SequenceFormatter_Deserialize Sequence); [|done].
    rewrite <-(foldl_elements l) at 2. by apply reads_elements; [|apply ContainerMinSize_ok|..].
  - intros _. by apply safe_map.
  - intros _. by apply needs_bytes_map.
  - intros v _. etrans; [|apply enc_elements_min]. done.
  - intros v. apply collection_kind_ok.
  - intros v. apply enc_elements_ok.
Qed.
End VectorLaws.

(** ** [std::array] and C arrays *)

Section ArrayFacts.
Context `{Platform}.

(** Writing [vs] over the front of [arr]. *)
Lemma overwrite_front {A} (vs arr : list A) : overwrite 0 vs arr = vs ++ drop (length vs) arr.
Proof. unfold overwrite. by rewrite Z2Nat.inj_0. Qed.

Lemma reads_ReadArrayKept o d t arr vs :
  Forall (arith_ok t) vs → zlen vs * sizeof t < size_mod → zlen vs ≤ zlen arr →
  reads o d (ReadArrayKept t arr (zlen vs)) (vs ≫= le_bytes (arith_size t)) (Some (overwrite 0 vs arr)).
Proof.
  intros Hok Hs Hfit. unfold ReadArrayKept. destruct (Z.gtb_spec (zlen vs) (zlen arr)); [lia|].
  rewrite zlen_to_nat. zlen_pos. pose proof (sizeof_pos t). rewrite Forall_forall in Hok.
  destruct native_little eqn:En.
  - rewrite <-(of_object_bytes_all t vs) at 3 by done.
    apply (reads_map_eq o d (take_block (zlen vs) (sizeof t))
      (fmap (λ bs, overwrite 0 (of_object_bytes t <$> chunks (length vs) (arith_size t) bs) arr))
      _ (Some (vs ≫= le_bytes (arith_size t)))); [| |done].
    + by apply reads_take_block; [apply zlen_bind_le_bytes|].
    + eapply safe_anything. intros. apply safe_take_block; [done|lia].
  - rewrite Z.mod_small by lia. apply reads_ensured; [by rewrite zlen_bind_le_bytes| |].
    + apply (reads_map o d (read_all (length vs) (ReadRaw t) []) (λ vs, Some (overwrite 0 vs arr))).
      * apply (reads_read_all o d (ReadRaw t) (le_bytes (arith_size t)) vs []); [apply safe_ReadRaw_any|].
        intros v Hv. by apply reads_ReadRaw, Hok.
      * apply safe_read_all, safe_ReadRaw_any.
    + intros r Hr. by apply safe_at_ret.
Qed.

Lemma safe_ReadArrayKept r t arr n : r_ok r → 0 ≤ n * sizeof t < size_mod → n ≤ zlen arr →
  safe_at r (ReadArrayKept t arr n) anything.
Proof.
  intros Hr Hn Hfit. unfold ReadArrayKept. destruct (Z.gtb_spec n (zlen arr)); [lia|].
  destruct native_little.
  - eapply safe_at_bind; [by apply safe_take_block|]. intros. by apply safe_at_ret.
  - eapply safe_at_bind; [by apply safe_EnsureBytes|]. intros [|] r' Hr' _ _; cbn [negb].
    + by apply safe_map; [apply safe_read_all, safe_ReadRaw_any|].
    + by apply safe_at_ret.
Qed.

Lemma ReadArraySkip_Advance t n r : ReadArraySkip t n r =
  (if n >? 0 then Advance ((n * sizeof t) mod size_mod) else mret tt) r.
Proof.
  unfold ReadArraySkip, Advance. destruct (n >? 0); [|done]. unfold mbind, M_bind.
  by destruct (EnsureBytes _ r) as [[[|]| |] r'].
Qed.

Lemma reads_ReadArraySkip o d t vs : zlen vs * sizeof t < size_mod →
  reads o d (ReadArraySkip t (zlen vs)) (vs ≫= le_bytes (arith_size t)) tt.
Proof.
  intros Hs. eapply reads_ext; [intros r; symmetry; apply ReadArraySkip_Advance|].
  zlen_pos. pose proof (sizeof_pos t). destruct (Z.gtb_spec (zlen vs) 0).
  - apply reads_Advance. by rewrite zlen_bind_le_bytes, Z.mod_small by lia.
  - assert (vs = []) as -> by (apply zlen_0_nil; lia). apply reads_ret.
Qed.

Lemma safe_ReadArraySkip t n : safe (ReadArraySkip t n) anything.
Proof.
  intros r Hr. unfold safe_at. rewrite ReadArraySkip_Advance. destruct (n >? 0).
  - pose proof size_mod_pos. apply safe_Advance; [done|]. apply Z.mod_pos_bound. lia.
  - by apply safe_at_ret.
Qed.

(** The part of [ReadArray] after the length. *)
Definition read_array_body (t : arith_ty) (arr : list Z) (maxCount len : Z) : R (Z * list Z) :=
  let readCount := if len <=? maxCount then len else maxCount in
  kept ← (if readCount >? 0 then ReadArrayKept t arr readCount else mret (Some arr));
  match kept with
  | None => mret (0, arr)
  | Some arr' => ReadArraySkip t (len - readCount) ;; mret (readCount, arr')
  end.

Lemma safe_array_rest arr n t k kept : safe
  (match kept with
   | None => mret (0, arr)
   | Some arr' => ReadArraySkip t k ;; mret (n, arr')
   end : R (Z * list Z)) anything.
Proof.
  destruct kept; [by apply safe_map, safe_ReadArraySkip|]. intros r Hr. by apply safe_at_ret.
Qed.

Lemma safe_array_body r t arr maxCount len : r_ok r → length_accepted (sizeof t) len r → 0 < len →
  maxCount ≤ zlen arr → safe_at r (read_array_body t arr maxCount len) anything.
Proof.
  intros Hr Hlen Hpos Hmax. pose proof (sizeof_pos t).
  pose proof (accepted_no_wrap (sizeof t) len r Hr ltac:(lia) Hlen Hpos).
  unfold read_array_body. set (n := if len <=? maxCount then len else maxCount).
  assert (Hn : n ≤ len ∧ n ≤ zlen arr) by (unfold n; destruct (Z.leb_spec len maxCount); lia).
  eapply safe_at_bind.
  - destruct (Z.gtb_spec n 0); [apply safe_ReadArrayKept; [done|nia|lia]|by apply safe_at_ret].
  - intros kept r' Hr' _ _. by apply safe_array_rest.
Qed.

Lemma reads_array_body o d t arr n vs :
  Forall (arith_ok t) vs → zlen vs * sizeof t < size_mod → n = length arr →
  reads o d (read_array_body t arr (Z.of_nat n) (zlen vs)) (vs ≫= le_bytes (arith_size t))
    (Z.min (zlen vs) (Z.of_nat n), take n vs ++ drop (length vs) arr).
Proof.
  intros Hok Hs Hn. pose proof (sizeof_pos t). unfold read_array_body.
  assert (Hk : zlen (take n vs) + zlen (drop n vs) = zlen vs) by (rewrite <-zlen_app; by rewrite take_drop).
  assert (Hfit : zlen (take n vs) = Z.min (zlen vs) (Z.of_nat n)) by (unfold zlen; rewrite length_take; lia).
  rewrite <-Hfit. replace (if zlen vs <=? Z.of_nat n then zlen vs else Z.of_nat n) with (zlen (take n vs))
    by (case_match; lia).
  replace (zlen vs - zlen (take n vs)) with (zlen (drop n vs)) by lia.
  assert (Hover : overwrite 0 (take n vs) arr = take n vs ++ drop (length vs) arr).
  { rewrite overwrite_front, length_take. f_equal.
    destruct (Nat.min_spec n (length vs)) as [[? ->]|[? ->]]; [|done]. rewrite !drop_ge by lia. done. }
  rewrite <-(take_drop n vs) at 3. rewrite bind_app. zlen_pos.
  apply (reads_bind_at anything _ _ _ _ _ _ (Some (take n vs ++ drop (length vs) arr))).
  - rewrite <-Hover. destruct (Z.gtb_spec (zlen (take n vs)) 0).
    + apply reads_ReadArrayKept; [by apply Forall_take|nia|unfold zlen at 2; lia].
    + assert (take n vs = []) as -> by (apply zlen_0_nil; lia). apply reads_ret.
  - intros r Hr. destruct (_ >? _); [|by apply safe_at_ret].
    apply safe_ReadArrayKept; [done|nia|unfold zlen at 2; lia].
  - apply (reads_map o d (ReadArraySkip t (zlen (drop n vs)))
      (λ _, (zlen (take n vs), take n vs ++ drop (length vs) arr)) _ tt).
    + apply reads_ReadArraySkip. nia.
    + apply safe_ReadArraySkip.
  - intros kept r Hr _. by apply safe_array_rest.
Qed.

(** [ReadArray] keeps the first [maxCount] elements and consumes them all. *)
Lemma reads_ReadArray o d t arr n vs :
  Forall (arith_ok t) vs → zlen vs < 2 ^ 31 → zlen vs ≤ maxCollectionLength o → n = length arr →
  reads o d (ReadArray t arr (Z.of_nat n)) (le_bytes 4 (zlen vs) ++ (vs ≫= le_bytes (arith_size t)))
    (Z.min (zlen vs) (Z.of_nat n), take n vs ++ drop (length vs) arr).
Proof.
  intros Hok Hn Hlim Ha. pose proof (sizeof_pos t).
  apply (reads_collection_of o d (sizeof t) (0, arr) (read_array_body t arr (Z.of_nat n)));
    [lia|done|done|intros v _; by rewrite zlen_le_bytes| | |].
  - intros ->. by rewrite take_nil, Z.min_l by (rewrite ?zlen_nil; lia).
  - intros Hs. by apply reads_array_body.
  - intros. apply safe_array_body; try done. unfold zlen. lia.
Qed.

Lemma safe_ReadArray t arr n : n ≤ zlen arr → safe (ReadArray t arr n) anything.
Proof.
  intros Hn. pose proof (sizeof_pos t). apply (safe_collection _ (0, arr) (read_array_body t arr n)); [lia|].
  intros. by apply safe_array_body.
Qed.

Lemma needs_bytes_ReadArray t arr n : n ≤ zlen arr → needs_bytes 4 (ReadArray t arr n).
Proof.
  intros Hn. pose proof (sizeof_pos t). apply needs_bytes_collection; [lia|].
  apply (safe_after_length _ (0, arr) (read_array_body t arr n)); [lia|]. intros. by apply safe_array_body.
Qed.

(** A [std::array] is read from any collection of its element type: filled up with zeros,
    or cut off. *)
Lemma reads_ReadStdArray o d t n vs :
  Forall (arith_ok t) vs → zlen vs < 2 ^ 31 → zlen vs ≤ maxCollectionLength o →
  reads o d (ReadStdArray t (Z.of_nat n)) (le_bytes 4 (zlen vs) ++ (vs ≫= le_bytes (arith_size t)))
    (take n vs ++ replicate (n - length vs) 0).
Proof.
  intros Hok Hn Hlim. unfold ReadStdArray. rewrite Nat2Z.id.
  eapply (reads_map_eq o d (ReadArray t (replicate n 0) (Z.of_nat n)) snd).
  - apply reads_ReadArray; rewrite ?length_replicate; done.
  - apply safe_ReadArray. unfold zlen. rewrite length_replicate. lia.
  - cbn. by rewrite drop_replicate.
Qed.

Lemma ReadStdArray_safe t n : safe (ReadStdArray t (Z.of_nat n)) anything.
Proof. unfold ReadStdArray. rewrite Nat2Z.id. apply safe_map, safe_ReadArray. unfold zlen. rewrite length_replicate. lia. Qed.
End ArrayFacts.

Section ArrayLaws.
Context `{Platform} {T : Type} `{!MemoryPackFormatter T, !WireFormat T, !FormatterLaws T}.

(** What a fixed array of [N] elements makes of a collection: excess elements are
    dropped, missing ones are [T{}]. *)
Definition array_of (N : nat) (l : list T) : list T := take N l ++ replicate (N - length l) value_init.

Lemma array_of_length N l : length (array_of N l) = N.
Proof. unfold array_of. rewrite length_app, length_take, length_replicate. lia. Qed.

Lemma array_of_exact l : array_of (length l) l = l.
Proof. unfold array_of. rewrite firstn_all, Nat.sub_diag. apply app_nil_r. Qed.

Lemma foldl_array_store_full N i v (l : list T) : (N ≤ i)%nat →
  (foldl (array_store N) (i, v) l).2 = v.
Proof.
  revert i. induction l as [|x l IH]; intros i Hi; [done|].
  cbn [foldl]. unfold array_store at 2. cbn [fst snd].
  destruct (Nat.ltb_spec i N); [lia|]. apply IH. lia.
Qed.

Lemma foldl_array_store N i v (l : list T) : length v = N → (i ≤ N)%nat →
  (foldl (array_store N) (i, v) l).2 = take i v ++ take (N - i) l ++ drop (i + length l) v.
Proof.
  revert i v. induction l as [|x l IH]; intros i v Hv Hi; cbn [foldl length].
  { rewrite take_nil, Nat.add_0_r. by rewrite app_nil_l, take_drop. }
  unfold array_store at 2. cbn [fst snd]. destruct (Nat.ltb_spec i N).
  - rewrite IH by (rewrite ?length_insert; lia).
    rewrite (take_S_r _ i x) by (apply list_lookup_insert_eq; lia).
    rewrite take_insert_ge, drop_insert_lt by lia.
    replace (N - i)%nat with (S (N - S i)) by lia. cbn [take].
    rewrite <-app_assoc. cbn [app]. do 3 f_equal. f_equal. lia.
  - rewrite foldl_array_store_full by lia. rewrite take_ge, drop_ge by lia.
    replace (N - i)%nat with 0%nat by lia. by rewrite app_nil_r.
Qed.

Lemma reads_arith_array o d N t to un (l : list T) : kind = Arithmetic t to un →
  elements_ok l → elements_within o d l →
  reads o d (r ← ReadArray t (to <$> replicate N value_init) (Z.of_nat N); mret (un <$> r.2))
    (enc_elements l) (array_of N l).
Proof.
  intros Ek Hok [Hlim _]. destruct (enc_elements_arith t to un l Ek Hok) as (-> & Hall & Hl).
  destruct Hok as [Hn _].
  eapply (reads_map_eq o d (ReadArray t (to <$> replicate N value_init) (Z.of_nat N)) (λ r, un <$> r.2)).
  - by apply reads_ReadArray; rewrite ?length_fmap, ?length_replicate, ?Hl.
  - apply safe_ReadArray. unfold zlen. rewrite length_fmap, length_replicate. lia.
  - cbn [snd]. rewrite <-fmap_take, length_fmap, <-fmap_drop, <-fmap_app, drop_replicate.
    by apply (fmap_to_un t).
Qed.

Lemma reads_array_Deserialize o d N (l : list T) : 0 ≤ d → elements_ok l → elements_within o d l →
  reads o d (array_Deserialize N) (enc_elements l) (array_of N l).
Proof.
  intros Hd Hok Hwi. unfold array_Deserialize.
  assert (Hgen : reads o d (len ← ReadCollectionLength 1;
      if len <=? 0 then mret (replicate N value_init) else
      st ← read_fold (Z.to_nat len) Read (array_store N) (O, replicate N value_init);
      mret st.2) (enc_elements l) (array_of N l)).
  { destruct Hok as [Hn Hwf]. destruct Hwi as [Hlim Hwi].
    apply (reads_collection_of o d 1 (replicate N value_init)); [lia|done|done| | | |].
    - apply elements_min; [apply MinEncodedSize_pos|done].
    - intros ->. unfold array_of. by rewrite take_nil, Nat.sub_0_r.
    - intros _. rewrite zlen_to_nat.
      replace (array_of N l) with (foldl (array_store N) (O, replicate N value_init) l).2.
      + apply (reads_map o d (read_fold (length l) Read (array_store N) (O, replicate N value_init)) snd);
          [|apply safe_Read_fold].
        apply reads_read_fold; [apply law_safe|]. intros v Hv. by apply law_reads; auto.
      + rewrite foldl_array_store by (rewrite ?length_replicate; lia).
        unfold array_of. by rewrite Nat.sub_0_r, drop_replicate.
    - intros len r Hr _ _. by apply safe_map; [apply safe_Read_fold|]. }
  destruct kind as [t to un| | | | | |] eqn:Ek; try exact Hgen. by eapply reads_arith_array.
Qed.

Lemma safe_array_Deserialize N : safe (array_Deserialize (T := T) N) anything.
Proof.
  unfold array_Deserialize.
  assert (Hgen : safe (len ← ReadCollectionLength 1;
      if len <=? 0 then mret (replicate N value_init) else
      st ← read_fold (Z.to_nat len) Read (array_store N) (O, replicate N (value_init (T := T)));
      mret st.2) anything).
  { apply safe_collection; [lia|]. intros len r Hr _ _. by apply safe_map; [apply safe_Read_fold|]. }
  destruct kind as [t to un| | | | | |] eqn:Ek; try exact Hgen.
  apply safe_map, safe_ReadArray. unfold zlen. rewrite length_fmap, length_replicate. lia.
Qed.

Lemma needs_bytes_array N : needs_bytes 4 (array_Deserialize (T := T) N).
Proof.
  unfold array_Deserialize.
  assert (Hgen : needs_bytes 4 (len ← ReadCollectionLength 1;
      if len <=? 0 then mret (replicate N value_init) else
      st ← read_fold (Z.to_nat len) Read (array_store N) (O, replicate N (value_init (T := T)));
      mret st.2)).
  { apply needs_bytes_collection; [lia|]. apply safe_after_length; [lia|].
    intros len r Hr _ _. by apply safe_map; [apply safe_Read_fold|]. }
  destruct kind as [t to un| | | | | |] eqn:Ek; try exact Hgen.
  assert (Hn : Z.of_nat N ≤ zlen (to <$> replicate N value_init))
    by (unfold zlen; rewrite length_fmap, length_replicate; lia).
  apply needs_bytes_map; [by apply safe_ReadArray|by apply needs_bytes_ReadArray].
Qed.

#[global] Instance array_laws N : FormatterLaws (array T N).
Proof.
  split; cbn [Serialize Deserialize kind array_formatter enc wf within array_wire].
  - intros v [_ Hv]. by apply WriteCollectionSpan_emits.
  - intros o d [l] _ Hd [Hl Hv] Hwi. cbn [cells] in *. subst N.
    apply (reads_map_eq o d (array_Deserialize (length l)) Array _ (array_of (length l) l)).
    + by apply reads_array_Deserialize.
    + apply safe_array_Deserialize.
    + by rewrite array_of_exact.
  - intros _. apply safe_map, safe_array_Deserialize.
  - intros _. apply (needs_bytes_mono _ 4); [done|].
    apply needs_bytes_map; [apply safe_array_Deserialize|apply needs_bytes_array].
  - intros v _. etrans; [|apply enc_elements_min]. done.
  - done.
  - intros v [_ Hv]. by apply enc_elements_ok.
Qed.
End ArrayLaws.

(** ** Vectors of strings and collections of unmanaged structs *)

Section OtherCollections.
Context `{Platform}.

(** [WriteStringVector] writes what [WriteCollection] writes for the same strings. *)
Lemma WriteStringVector_eq vec w : WriteStringVector vec w = WriteCollection (Str <$> vec) w.
Proof.
  unfold WriteStringVector, WriteCollection. unfold zlen at 2. rewrite length_fmap. fold (zlen vec).
  unfold mbind, M_bind. destruct (ToInt32Length (zlen vec) w) as [[n| |] w1]; [|done..].
  destruct (n <? 0); [done|]. destruct (WriteCollectionHeader n w1) as [[?| |] w2]; [|done..].
  cbn [kind string_formatter]. revert w2. induction vec as [|s vec IH]; intros w2; [done|].
  cbn [mapM_ fmap list_fmap]. unfold mbind, M_bind.
  change (Write (Str s) w2) with (WriteString s w2).
  destruct (WriteString s w2) as [[?| |] w3]; [|done..]. apply IH.
Qed.

Lemma reads_ReadStringVector o d vec : zlen vec < 2 ^ 31 → zlen vec ≤ maxCollectionLength o →
  (∀ s, s ∈ vec → string_ok s ∧ zlen s ≤ maxStringLength o) →
  reads o d ReadStringVector (le_bytes 4 (zlen vec) ++ (vec ≫= enc_string)) vec.
Proof.
  intros Hn Hlim Hs.
  assert (Sm : safe (s ← ReadString; mret (default [] s)) anything) by apply safe_map, safe_ReadString_any.
  apply reads_collection_of; [lia|done|done|intros; apply enc_string_min|by intros ->| |].
  - intros _. rewrite zlen_to_nat. rewrite <-(foldl_push_back vec []) at 3.
    apply reads_read_fold; [done|]. intros s Hin. destruct (Hs s Hin).
    apply (reads_map o d ReadString (default []) _ (Some s)); [by apply reads_ReadString|].
    apply safe_ReadString_any.
  - intros len r Hr _ _. by apply safe_read_fold.
Qed.

Lemma safe_ReadStringVector : safe ReadStringVector anything.
Proof.
  apply safe_collection; [lia|]. intros len r Hr _ _.
  by apply safe_read_fold; [apply safe_map, safe_ReadString_any|].
Qed.

Context {T : Type} (rep : object_rep T) (Hsize : 0 < rep_size rep).

(** Values the representation stores and returns faithfully. *)
Definition rep_ok (v : T) : Prop :=
  rep_of rep (rep_bytes rep v) = v ∧ zlen (rep_bytes rep v) = rep_size rep ∧ bytes_ok (rep_bytes rep v).

Lemma WriteUnmanagedCollection_emits l : zlen l < 2 ^ 31 →
  emits (WriteUnmanagedCollection rep l) (le_bytes 4 (zlen l) ++ (l ≫= rep_bytes rep)).
Proof.
  intros Hn. zlen_pos. apply emits_length; [lia|].
  apply emits_bind; [by apply WriteCollectionHeader_emits|].
  destruct (Z.eqb_spec (zlen l) 0) as [E|E]; [apply zlen_0_nil in E as ->; apply emits_nil|].
  apply AppendBytes_emits.
Qed.

Lemma reads_ReadUnmanagedCollection o d l : zlen l < 2 ^ 31 → zlen l ≤ maxCollectionLength o →
  (∀ v, v ∈ l → rep_ok v) →
  reads o d (ReadUnmanagedCollection rep) (le_bytes 4 (zlen l) ++ (l ≫= rep_bytes rep)) l.
Proof.
  intros Hn Hlim Hok. set (f := λ len bs, rep_of rep <$> chunks (Z.to_nat len) (Z.to_nat (rep_size rep)) bs).
  apply (reads_collection_of o d (rep_size rep) [] (λ len, bs ← take_block len (rep_size rep);
    mret match bs with Some bs => f len bs | None => [] end)); try done.
  - intros v Hv. by rewrite (proj1 (proj2 (Hok v Hv))).
  - intros Hs. assert (Hf : f (zlen l) (l ≫= rep_bytes rep) = l); [|rewrite <-Hf at 3].
    2: { apply (reads_block_map o d (f (zlen l)) []); [|done]. apply zlen_bind_const. intros v Hv. by apply Hok. }
    { unfold f. rewrite zlen_to_nat, chunks_bind.
      * rewrite <-list_fmap_compose. transitivity (id <$> l); [|apply list_fmap_id].
        apply list_fmap_ext. intros i v Hv. by apply Hok, list_elem_of_lookup_2 with i.
      * intros v Hv. destruct (Hok v Hv) as (_ & Hl & _). unfold zlen in Hl. lia. }
  - intros len r Hr Hlen Hpos. by apply (safe_block_map (rep_size rep) (f len) []).
Qed.

Lemma safe_ReadUnmanagedCollection : safe (ReadUnmanagedCollection rep) anything.
Proof.
  apply safe_collection; [done|]. intros len r Hr Hlen Hpos.
  by apply (safe_block_map (rep_size rep)
    (λ bs, rep_of rep <$> chunks (Z.to_nat len) (Z.to_nat (rep_size rep)) bs) []).
Qed.
End OtherCollections.
