(* ===== verification/Assoc.v ===== *)
(** Pairs, maps and sets ([containers.hpp], [core.hpp]): [std::pair],
    [detail::SetFormatter] and [detail::MapFormatter] over any container that can be
    iterated and inserted into, with [std::map], [std::set] (sorted nodes) and
    [std::unordered_map], [std::unordered_set] (finite maps with an unspecified
    iteration order) as instances. *)
From stdpp Require Import gmap sorting.
From S2P Require Import Prelude Endian Writer Reader Headers Utf Strings Formatter Collections.

#[global] Open Scope Z_scope.
#[global] Set Default Goal Selector "!".

(** ** The container interface *)

(** What [SetFormatter] and [MapFormatter] use of their container: [clear],
    [insert]/[emplace], and the range loop. *)
Class Container (C E : Type) := {
  c_clear : C;
  c_insert : C → E → C;
  c_iterate : C → list E;
}.

(** Inserting what the loop visits into an empty container rebuilds it. *)
Class ContainerLaws (C E : Type) `{Container C E} := {
  c_ok : C → Prop;
  c_clear_ok : c_ok c_clear;
  c_insert_ok : ∀ c x, c_ok c → c_ok (c_insert c x);
  c_refill : ∀ c, c_ok c → foldl c_insert c_clear (c_iterate c) = c;
}.

(** *** Ordered containers: the nodes in key order *)

(** [std::less<K>]. *)
Class KeyOrder (K : Type) := key_lt : K → K → bool.

Class KeyOrderLaws (K : Type) `{KeyOrder K} : Prop := {
  key_lt_irrefl : ∀ a, key_lt a a = false;
  key_lt_trans : ∀ a b c, key_lt a b = true → key_lt b c = true → key_lt a c = true;
  key_lt_total : ∀ a b, key_lt a b = false → key_lt b a = false → a = b;
}.

(** Insertion that keeps the existing element of an equivalent key. *)
Fixpoint tree_emplace `{KeyOrder K} {E} (key : E → K) (l : list E) (x : E) : list E :=
  match l with
  | [] => [x]
  | y :: l' =>
      if key_lt (key x) (key y) then x :: l
      else if key_lt (key y) (key x) then y :: tree_emplace key l' x
      else l
  end.

Record std_map (K V : Type) := StdMap { nodes : list (K * V) }.
Arguments StdMap {K V}.
Arguments nodes {K V}.

Record std_set (K : Type) := StdSet { keys : list K }.
Arguments StdSet {K}.
Arguments keys {K}.

#[export] Instance map_container `{KeyOrder K} {V} : Container (std_map K V) (K * V) := {
  c_clear := StdMap [];
  c_insert := λ m x, StdMap (tree_emplace fst (nodes m) x);
  c_iterate := nodes;
}.

#[export] Instance set_container `{KeyOrder K} : Container (std_set K) K := {
  c_clear := StdSet [];
  c_insert := λ s x, StdSet (tree_emplace id (keys s) x);
  c_iterate := keys;
}.

(** *** Hashed containers *)

(** The order in which a hash table is traversed, which the standard leaves open. *)
Class HashOrder (C E : Type) := hash_order : C → list E.

Record unordered_map (K V : Type) `{Countable K} := UnorderedMap { mapping : gmap K V }.
Arguments UnorderedMap {K V _ _}.
Arguments mapping {K V _ _}.

Record unordered_set (K : Type) `{Countable K} := UnorderedSet { members : gset K }.
Arguments UnorderedSet {K _ _}.
Arguments members {K _ _}.

#[export] Instance unordered_map_container `{Countable K} {V} `{HashOrder (gmap K V) (K * V)} :
    Container (unordered_map K V) (K * V) := {
  c_clear := UnorderedMap ∅;
  c_insert := λ m x, match mapping m !! x.1 with
                     | Some _ => m
                     | None => UnorderedMap (<[x.1 := x.2]> (mapping m))
                     end;
  c_iterate := λ m, hash_order (mapping m);
}.

#[export] Instance unordered_set_container `{Countable K} `{HashOrder (gset K) K} :
    Container (unordered_set K) K := {
  c_clear := UnorderedSet ∅;
  c_insert := λ s x, UnorderedSet ({[ x ]} ∪ members s);
  c_iterate := λ s, hash_order (members s);
}.

(** ** [std::pair] *)

Section Pair.
Context `{Platform} {A B : Type} `{!MemoryPackFormatter A, !MemoryPackFormatter B}.

Definition pair_Serialize (v : A * B) : W unit := Write v.1 ;; Write v.2.

Definition pair_Deserialize (v : A * B) : R (A * B) :=
  first ← ReadInto v.1;
  second ← ReadInto v.2;
  mret (first, second).

#[global] Instance pair_formatter : MemoryPackFormatter (A * B) := {
  value_init := (value_init, value_init);
  kind := OtherType;
  Serialize := pair_Serialize;
  Deserialize := pair_Deserialize;
}.

Context `{!WireFormat A, !WireFormat B}.

#[global] Instance pair_wire : WireFormat (A * B) := {
  enc := λ v, enc v.1 ++ enc v.2;
  wf := λ v, wf v.1 ∧ wf v.2;
  within := λ o d v, within o d v.1 ∧ within o d v.2;
}.

Context `{!FormatterLaws A, !FormatterLaws B}.

Lemma safe_pair_rest (a : A) (old : B) : safe (b ← ReadInto old; mret (a, b)) anything.
Proof. apply safe_map, law_safe. Qed.

#[global] Instance pair_laws : FormatterLaws (A * B).
Proof.
  split; cbn [Serialize Deserialize kind pair_formatter enc wf within pair_wire].
  - intros v [Ha Hb]. by apply emits_bind; apply law_emits.
  - intros o d [a b] old Hd [Ha Hb] [Wa Wb]. apply (reads_bind _ _ _ _ _ _ a).
    + by apply law_reads.
    + apply law_safe.
    + apply (reads_map o d (ReadInto old.2) (pair a)); [by apply law_reads|apply law_safe].
    + intros x. apply safe_pair_rest.
  - intros old. apply safe_bind_anything; [apply law_safe|]. intros a. apply safe_pair_rest.
  - intros old. apply needs_bytes_bind; [apply law_needs_byte|apply law_safe|].
    intros a. apply safe_pair_rest.
  - intros v [Ha _]. pose proof (law_min _ Ha). pose proof (MinEncodedSize_pos (kind : type_kind A)).
    rewrite zlen_app. zlen_pos. cbn [MinEncodedSize]. lia.
  - done.
  - intros v [Ha Hb]. by apply bytes_ok_app; apply law_bytes.
Qed.
End Pair.

(** ** The formatters *)

Section AssocFormatters.
Context `{Platform} {C E K V : Type}.

(** [detail::SetFormatter]. *)
Definition SetFormatter_Serialize `{!Container C E, !MemoryPackFormatter E} (c : C) : W unit :=
  n ← CheckedLength (zlen (c_iterate c));
  if n <? 0 then mret tt else
  WriteCollectionHeader n ;;
  mapM_ Write (c_iterate c).

Definition SetFormatter_Deserialize `{!Container C E, !MemoryPackFormatter E} : R C :=
  len ← ReadCollectionLength (ContainerMinSize (T := E) kind);
  if len <=? 0 then mret c_clear else
  read_fold (Z.to_nat len) Read c_insert c_clear.

Context `{!Container C (K * V), !MemoryPackFormatter K, !MemoryPackFormatter V}.

(** [K key{}; Read(key); V value{}; Read(value);] *)
Definition read_entry : R (K * V) :=
  key ← Read;
  value ← Read;
  mret (key, value).

(** [detail::MapFormatter], and [WriteMapImpl] with its public wrappers. *)
Definition MapFormatter_Serialize (m : C) : W unit :=
  n ← CheckedLength (zlen (c_iterate m));
  if n <? 0 then mret tt else
  WriteCollectionHeader n ;;
  mapM_ (λ kv, Write kv.1 ;; Write kv.2) (c_iterate m).

Definition WriteMap (m : C) : W unit :=
  n ← ToInt32Length (zlen (c_iterate m));
  if n <? 0 then mret tt else
  WriteCollectionHeader n ;;
  mapM_ (λ kv, Write kv.1 ;; Write kv.2) (c_iterate m).

Definition MapFormatter_Deserialize : R C :=
  len ← ReadCollectionLength (ContainerMinSize (T := K) kind + ContainerMinSize (T := V) kind);
  if len <=? 0 then mret c_clear else
  read_fold (Z.to_nat len) read_entry c_insert c_clear.

(** [ReadMap] and [ReadUnorderedMap]. *)
Definition ReadMap : R C :=
  len ← ReadCollectionLength (MinEncodedSize (T := K) kind + MinEncodedSize (T := V) kind);
  read_fold (Z.to_nat len) read_entry c_insert c_clear.

Definition ReadUnorderedMap : R C :=
  len ← ReadCollectionLength (MinEncodedSize (T := K) kind + MinEncodedSize (T := V) kind);
  if len <=? 0 then mret c_clear else
  read_fold (Z.to_nat len) read_entry c_insert c_clear.
End AssocFormatters.

Section AssocInstances.
Context `{Platform}.

#[global] Instance set_formatter `{KeyOrder K, !MemoryPackFormatter K} :
    MemoryPackFormatter (std_set K) := {
  value_init := c_clear;
  kind := StdCollection;
  Serialize := SetFormatter_Serialize (E := K);
  Deserialize := λ _, SetFormatter_Deserialize (E := K);
}.

#[global] Instance unordered_set_formatter `{Countable K, !HashOrder (gset K) K, !MemoryPackFormatter K} :
    MemoryPackFormatter (unordered_set K) := {
  value_init := c_clear;
  kind := StdCollection;
  Serialize := SetFormatter_Serialize (E := K);
  Deserialize := λ _, SetFormatter_Deserialize (E := K);
}.

#[global] Instance map_formatter `{KeyOrder K, !MemoryPackFormatter K, !MemoryPackFormatter V} :
    MemoryPackFormatter (std_map K V) := {
  value_init := c_clear;
  kind := StdCollection;
  Serialize := MapFormatter_Serialize (K := K) (V := V);
  Deserialize := λ _, MapFormatter_Deserialize (K := K) (V := V);
}.

#[global] Instance unordered_map_formatter `{Countable K, !HashOrder (gmap K V) (K * V),
    !MemoryPackFormatter K, !MemoryPackFormatter V} : MemoryPackFormatter (unordered_map K V) := {
  value_init := c_clear;
  kind := StdCollection;
  Serialize := MapFormatter_Serialize (K := K) (V := V);
  Deserialize := λ _, MapFormatter_Deserialize (K := K) (V := V);
}.
End AssocInstances.

(** ** Containers keep their invariant *)

Section OrderFacts.
Context {K E : Type} `{KeyOrderLaws K} (key : E → K).

Definition key_before (x y : E) : Prop := key_lt (key x) (key y) = true.

(** Nodes in strictly increasing key order: no duplicate keys. *)
Definition sorted_nodes (l : list E) : Prop := StronglySorted key_before l.

Lemma tree_emplace_elem l x y : y ∈ tree_emplace key l x → y = x ∨ y ∈ l.
Proof.
  induction l as [|z l IH]; cbn [tree_emplace].
  { intros Hy%list_elem_of_singleton. by left. }
  destruct (key_lt (key x) (key z)); [|destruct (key_lt (key z) (key x))]; rewrite ?elem_of_cons; tauto.
Qed.

Lemma tree_emplace_sorted l x : sorted_nodes l → sorted_nodes (tree_emplace key l x).
Proof.
  induction 1 as [|y l Hl IH Hy]; cbn [tree_emplace]; [by repeat constructor|].
  destruct (key_lt (key x) (key y)) eqn:Exy; [|destruct (key_lt (key y) (key x)) eqn:Eyx].
  - constructor; [by constructor|]. constructor; [done|].
    eapply Forall_impl; [exact Hy|]. intros z Hz. by eapply key_lt_trans.
  - constructor; [done|]. apply Forall_forall. intros z [->|Hz]%tree_emplace_elem; [done|].
    by eapply Forall_forall in Hy.
  - by constructor.
Qed.

(** Appending the next node in order. *)
Lemma tree_emplace_last l x : Forall (λ y, key_before y x) l → tree_emplace key l x = l ++ [x].
Proof.
  induction 1 as [|y l Hy _ IH]; [done|]. cbn [tree_emplace app]. unfold key_before in Hy.
  destruct (key_lt (key x) (key y)) eqn:Exy.
  - pose proof (key_lt_trans _ _ _ Exy Hy) as F. by rewrite key_lt_irrefl in F.
  - by rewrite Hy, IH.
Qed.

Lemma refill_sorted l : sorted_nodes l → foldl (tree_emplace key) [] l = l.
Proof.
  intros Hl. assert (Hgen : ∀ pre, (∀ x y, x ∈ pre → y ∈ l → key_before x y) →
    foldl (tree_emplace key) pre l = pre ++ l); [|apply (Hgen []); by intros ?? ?%not_elem_of_nil].
  induction Hl as [|y l Hl IH Hy]; intros pre Hpre; [by rewrite app_nil_r|]. cbn [foldl].
  rewrite tree_emplace_last.
  - rewrite IH, <-app_assoc; [done|]. intros a b Ha Hb. apply elem_of_app in Ha as [Ha|Ha].
    + apply Hpre; [done|by right].
    + apply list_elem_of_singleton in Ha as ->. by eapply Forall_forall in Hy.
  - apply Forall_forall. intros z Hz. apply Hpre; [done|left].
Qed.
End OrderFacts.

#[export] Program Instance map_container_laws `{KeyOrderLaws K} {V} :
    ContainerLaws (std_map K V) (K * V) := {
  c_ok m := sorted_nodes fst (nodes m);
}.
Next Obligation. intros. constructor. Qed.
Next Obligation. intros. by apply tree_emplace_sorted. Qed.
Next Obligation.
  intros K HK HL V [l] Hl. cbn in *. rewrite <-(refill_sorted fst l Hl) at 2.
  generalize (@nil (K * V)). clear Hl. induction l as [|x l IH]; intros pre; [done|]. apply IH.
Qed.

#[export] Program Instance set_container_laws `{KeyOrderLaws K} : ContainerLaws (std_set K) K := {
  c_ok s := sorted_nodes id (keys s);
}.
Next Obligation. intros. constructor. Qed.
Next Obligation. intros. by apply tree_emplace_sorted. Qed.
Next Obligation.
  intros K HK HL [l] Hl. cbn in *. rewrite <-(refill_sorted id l Hl) at 2.
  generalize (@nil K). clear Hl. induction l as [|x l IH]; intros pre; [done|]. apply IH.
Qed.

(** The traversal of a hash table visits every element once. *)
Class MapOrderLaws (K V : Type) `{Countable K, HashOrder (gmap K V) (K * V)} : Prop :=
  map_order_perm : ∀ m : gmap K V, hash_order m ≡ₚ map_to_list m.

Class SetOrderLaws (K : Type) `{Countable K, HashOrder (gset K) K} : Prop :=
  set_order_perm : ∀ s : gset K, hash_order s ≡ₚ base.elements s.

Section HashFacts.
Context `{Countable K}.

Lemma unordered_map_fill {V} `{HashOrder (gmap K V) (K * V)} (l : list (K * V)) (m : gmap K V) :
  NoDup l.*1 → (∀ k, k ∈ l.*1 → m !! k = None) →
  foldl c_insert (UnorderedMap m) l = UnorderedMap (list_to_map l ∪ m).
Proof.
  revert m. induction l as [|[k v] l IH]; intros m Hnd Hm.
  { by rewrite list_to_map_nil, (left_id_L ∅ (∪)). }
  cbn [foldl]. rewrite fmap_cons in Hnd, Hm. apply NoDup_cons in Hnd as [Hk Hnd].
  cbn [fst] in *. unfold c_insert at 2, unordered_map_container. cbn [mapping fst snd].
  rewrite (Hm k) by left. rewrite IH; [|done|].
  - f_equal. rewrite list_to_map_cons. rewrite <-insert_union_l.
    symmetry. apply insert_union_r. by apply not_elem_of_list_to_map_1.
  - intros k' Hk'. rewrite lookup_insert_ne by (intros <-; done). apply Hm. by right.
Qed.

Lemma unordered_set_fill `{HashOrder (gset K) K} (l : list K) (s : gset K) :
  foldl c_insert (UnorderedSet s) l = UnorderedSet (list_to_set l ∪ s).
Proof.
  revert s. induction l as [|x l IH]; intros s; cbn [foldl].
  { by rewrite list_to_set_nil, (left_id_L ∅ (∪)). }
  unfold c_insert at 2, unordered_set_container. cbn [members]. rewrite IH. f_equal.
  by rewrite list_to_set_cons, (assoc_L (∪)), (comm_L (∪) {[x]}).
Qed.
End HashFacts.

#[export] Program Instance unordered_map_laws `{MapOrderLaws K V} :
    ContainerLaws (unordered_map K V) (K * V) := {
  c_ok m := True;
}.
Next Obligation. done. Qed.
Next Obligation. done. Qed.
Next Obligation.
  intros K V EqK CntK Ho HL [m] _. cbn [c_iterate c_clear unordered_map_container mapping].
  pose proof (map_order_perm m) as Hp.
  rewrite unordered_map_fill; [|by rewrite Hp; apply NoDup_fst_map_to_list|intros; apply lookup_empty].
  f_equal. rewrite (right_id_L ∅ (∪)). rewrite <-(list_to_map_to_list m) at 2.
  apply list_to_map_proper; [by rewrite Hp; apply NoDup_fst_map_to_list|done].
Qed.

#[export] Program Instance unordered_set_laws `{SetOrderLaws K} :
    ContainerLaws (unordered_set K) K := {
  c_ok s := True;
}.
Next Obligation. done. Qed.
Next Obligation. done. Qed.
Next Obligation.
  intros K EqK CntK Ho HL [s] _. cbn [c_iterate c_clear unordered_set_container members].
  rewrite unordered_set_fill. f_equal. apply set_eq. intros x.
  rewrite (right_id_L ∅ (∪)), elem_of_list_to_set, (set_order_perm s). apply elem_of_elements.
Qed.

(** ** The laws of the formatters *)

Section AssocLaws.
Context `{Platform} {C E : Type} `{ContainerLaws C E}.

(** The loop keeps the container's invariant, whatever the input. *)
Lemma safe_read_fold_inv {A B} (P : B → Prop) n (m : R A) (ins : B → A → B) acc :
  safe m anything → (∀ b a, P b → P (ins b a)) → P acc →
  safe (read_fold n m ins acc) (λ b _, P b).
Proof.
  intros Hm Hins. revert acc. induction n as [|n IH]; intros acc Hacc r Hr; [by apply safe_at_ret|].
  cbn [read_fold]. apply safe_at_gets_bind. destruct (Failed r); [by apply safe_at_ret|].
  eapply safe_at_bind; [by apply Hm|]. intros x r' Hr' _ _. by apply IH; [apply Hins|].
Qed.

(** The reader of a container: a length, then entries inserted one by one. *)
Definition read_container (minEntry : Z) (entry : R E) : R C :=
  len ← ReadCollectionLength minEntry;
  if len <=? 0 then mret c_clear else
  read_fold (Z.to_nat len) entry c_insert c_clear.

Context (minEntry : Z) (Hmin : 0 < minEntry) (entry : R E) (Hsafe : safe entry anything).

Lemma safe_read_container : safe (read_container minEntry entry) (λ c _, c_ok c).
Proof.
  intros r Hr. eapply safe_at_bind; [by apply safe_ReadCollectionLength|].
  intros len r' Hr' _ _. destruct (len <=? 0).
  - apply safe_at_ret; [done|apply c_clear_ok].
  - apply safe_read_fold_inv; [done|apply c_insert_ok|apply c_clear_ok|done].
Qed.

Lemma needs_bytes_read_container : needs_bytes 4 (read_container minEntry entry).
Proof.
  apply needs_bytes_collection; [done|]. apply safe_after_length; [done|].
  intros len r Hr _ _. by apply safe_read_fold.
Qed.

Lemma reads_read_container o d (g : E → list Z) c :
  c_ok c → zlen (c_iterate c) < 2 ^ 31 → zlen (c_iterate c) ≤ maxCollectionLength o →
  (∀ x, x ∈ c_iterate c → minEntry ≤ zlen (g x) ∧ reads o d entry (g x) x) →
  reads o d (read_container minEntry entry) (le_bytes 4 (zlen (c_iterate c)) ++ (c_iterate c ≫= g)) c.
Proof.
  intros Hc Hn Hlim Hx.
  assert (Hr : foldl c_insert c_clear (c_iterate c) = c) by by apply c_refill.
  apply reads_collection_of; [done|done|done|by intros; apply Hx| | |].
  - intros E0. by rewrite E0 in Hr.
  - intros _. rewrite zlen_to_nat. rewrite <-Hr at 3. apply reads_read_fold; [done|]. by intros; apply Hx.
  - intros len r Hr' _ _. by apply safe_read_fold.
Qed.

Lemma write_container_emits (f : E → W unit) (g : E → list Z) c :
  zlen (c_iterate c) < 2 ^ 31 → (∀ x, x ∈ c_iterate c → emits (f x) (g x)) →
  emits (n ← CheckedLength (zlen (c_iterate c));
         if n <? 0 then mret tt else WriteCollectionHeader n ;; mapM_ f (c_iterate c))
    (le_bytes 4 (zlen (c_iterate c)) ++ (c_iterate c ≫= g)).
Proof.
  intros Hn Hf. zlen_pos. apply emits_length; [lia|].
  apply emits_bind; [by apply WriteCollectionHeader_emits|by apply mapM_emits].
Qed.
End AssocLaws.

Section ContainerFormatters.
Context `{Platform} {C E : Type} `{ContainerLaws C E}.
Context `{!MemoryPackFormatter E, !WireFormat E, !FormatterLaws E}.

#[local] Instance container_wire : WireFormat C := {
  enc := λ c, le_bytes 4 (zlen (c_iterate c)) ++ (c_iterate c ≫= enc);
  wf := λ c, c_ok c ∧ zlen (c_iterate c) < 2 ^ 31 ∧ ∀ x, x ∈ c_iterate c → wf x;
  within := λ o d c, zlen (c_iterate c) ≤ maxCollectionLength o ∧
                     ∀ x, x ∈ c_iterate c → within o d x;
}.

(** A formatter of the shape of [SetFormatter] or [MapFormatter] meets the contract
    of formatters. *)
Lemma container_formatter_laws (init : C) (ser : C → W unit) (minEntry : Z) (entry : R E) :
  (∀ c, wf c → emits (ser c) (enc c)) →
  0 < minEntry → safe entry anything →
  (∀ v : E, wf v → minEntry ≤ zlen (enc v)) →
  (∀ o d v, 0 ≤ d → wf v → within o d v → reads o d entry (enc v) v) →
  (∀ v : E, wf v → bytes_ok (enc v)) →
  @FormatterLaws _ C (Build_MemoryPackFormatter C init StdCollection ser
    (λ _, read_container minEntry entry)) container_wire.
Proof.
  intros Hser Hmin Ssafe Hm Hentry Hbytes.
  split; cbn [Serialize Deserialize kind enc wf within container_wire].
  - exact Hser.
  - intros o d c _ Hd (Hc & Hn & Hwf) (Hlim & Hwi). apply reads_read_container; try done.
    intros x Hx. split; [by apply Hm, Hwf|]. by apply Hentry; auto.
  - intros _. eapply safe_anything. by apply safe_read_container.
  - intros _. by apply needs_bytes_read_container.
  - intros c _. rewrite zlen_app, (zlen_le_bytes 4). zlen_pos. cbn [MinEncodedSize]. lia.
  - intros c (_ & Hn & _). eexists _, _. zlen_pos. split; [|done]. lia.
  - intros c (_ & _ & Hwf). apply bytes_ok_app; [apply le_bytes_ok|]. apply bytes_ok_bind. auto.
Qed.
End ContainerFormatters.

Section SetLaws.
Context `{Platform} {C E : Type} `{ContainerLaws C E}.
Context `{!MemoryPackFormatter E, !WireFormat E, !FormatterLaws E}.

Lemma SetFormatter_laws (init : C) :
  @FormatterLaws _ C (Build_MemoryPackFormatter C init StdCollection (SetFormatter_Serialize (E := E))
    (λ _, SetFormatter_Deserialize (E := E))) (container_wire (E := E)).
Proof.
  pose proof (ContainerMinSize_ok (T := E)).
  apply (container_formatter_laws init _ (ContainerMinSize (T := E) kind) Read).
  - intros c (Hc & Hn & Hwf). apply write_container_emits; [done|]. intros. by apply law_emits, Hwf.
  - lia.
  - apply law_safe.
  - intros v Hv. pose proof (law_min v Hv). lia.
  - intros. by apply law_reads.
  - apply law_bytes.
Qed.
End SetLaws.

Section MapLaws.
Context `{Platform} {C K V : Type} `{ContainerLaws C (K * V)}.
Context `{!MemoryPackFormatter K, !WireFormat K, !FormatterLaws K}.
Context `{!MemoryPackFormatter V, !WireFormat V, !FormatterLaws V}.

Lemma entry_min (v : K * V) : wf v →
  MinEncodedSize (T := K) kind + MinEncodedSize (T := V) kind ≤ zlen (enc v).
Proof.
  intros [Hk Hv]. pose proof (law_min _ Hk). pose proof (law_min _ Hv).
  cbn [enc pair_wire]. rewrite zlen_app. lia.
Qed.

Lemma entry_emits (v : K * V) : wf v → emits (Write v.1 ;; Write v.2) (enc v).
Proof. exact (law_emits (T := K * V) v). Qed.

Lemma reads_entry o d (v : K * V) : 0 ≤ d → wf v → within o d v → reads o d read_entry (enc v) v.
Proof. exact (law_reads (T := K * V) o d v value_init). Qed.

Lemma safe_entry : safe (read_entry (K := K) (V := V)) anything.
Proof. exact (law_safe (T := K * V) value_init). Qed.

Lemma MapFormatter_laws (init : C) :
  @FormatterLaws _ C (Build_MemoryPackFormatter C init StdCollection
    (MapFormatter_Serialize (K := K) (V := V))
    (λ _, MapFormatter_Deserialize (K := K) (V := V))) (container_wire (E := K * V)).
Proof.
  pose proof (ContainerMinSize_ok (T := K)). pose proof (ContainerMinSize_ok (T := V)).
  apply (container_formatter_laws init _
    (ContainerMinSize (T := K) kind + ContainerMinSize (T := V) kind) read_entry).
  - intros c (Hc & Hn & Hwf). apply write_container_emits; [done|]. intros x Hx. by apply entry_emits, Hwf.
  - lia.
  - apply safe_entry.
  - intros v Hv. pose proof (entry_min v Hv). lia.
  - apply reads_entry.
  - exact (law_bytes (T := K * V)).
Qed.

(** [ReadMap] and [ReadUnorderedMap] decode what [WriteMap] wrote. *)
Lemma WriteMap_emits (m : C) : wf (WireFormat := container_wire (E := K * V)) m →
  emits (WriteMap (K := K) (V := V) m) (enc (WireFormat := container_wire (E := K * V)) m).
Proof.
  intros (Hc & Hn & Hwf). apply (write_container_emits (λ kv, Write kv.1 ;; Write kv.2) enc); [done|].
  intros x Hx. by apply entry_emits, Hwf.
Qed.

Lemma entry_min_pos : 0 < MinEncodedSize (T := K) kind + MinEncodedSize (T := V) kind.
Proof.
  pose proof (MinEncodedSize_pos (kind : type_kind K)). pose proof (MinEncodedSize_pos (kind : type_kind V)).
  lia.
Qed.

Lemma ReadMap_eq r : ReadMap (C := C) (K := K) (V := V) r = ReadUnorderedMap r.
Proof.
  unfold ReadMap, ReadUnorderedMap, mbind, M_bind.
  destruct (ReadCollectionLength _ r) as [[len| |] r']; [|done..].
  destruct (Z.leb_spec len 0); [|done]. by replace (Z.to_nat len) with 0%nat by lia.
Qed.

Lemma reads_ReadUnorderedMap o d (m : C) :
  0 ≤ d → wf (WireFormat := container_wire (E := K * V)) m →
  within (WireFormat := container_wire (E := K * V)) o d m →
  reads o d (ReadUnorderedMap (K := K) (V := V)) (enc (WireFormat := container_wire (E := K * V)) m) m.
Proof.
  intros Hd (Hc & Hn & Hwf) (Hlim & Hwi).
  apply (reads_read_container _ entry_min_pos read_entry safe_entry); try done.
  intros x Hx. split; [by apply entry_min, Hwf|]. by apply reads_entry; auto.
Qed.
End MapLaws.

Section AssocInstanceLaws.
Context `{Platform}.

#[global] Instance std_set_wire `{KeyOrderLaws K, !WireFormat K} : WireFormat (std_set K) :=
  container_wire (E := K).
#[global] Instance std_set_laws `{KeyOrderLaws K, !MemoryPackFormatter K, !WireFormat K, !FormatterLaws K} :
  FormatterLaws (std_set K) := SetFormatter_laws c_clear.

#[global] Instance std_map_wire `{KeyOrderLaws K, !WireFormat K, !WireFormat V} : WireFormat (std_map K V) :=
  container_wire (E := K * V).
#[global] Instance std_map_laws `{KeyOrderLaws K, !MemoryPackFormatter K, !WireFormat K, !FormatterLaws K,
    !MemoryPackFormatter V, !WireFormat V, !FormatterLaws V} :
  FormatterLaws (std_map K V) := MapFormatter_laws c_clear.

#[global] Instance unordered_set_wire `{SetOrderLaws K, !WireFormat K} : WireFormat (unordered_set K) :=
  container_wire (E := K).
#[global] Instance unordered_set_formatter_laws `{SetOrderLaws K, !MemoryPackFormatter K, !WireFormat K,
    !FormatterLaws K} : FormatterLaws (unordered_set K) := SetFormatter_laws c_clear.

#[global] Instance unordered_map_wire `{MapOrderLaws K V, !WireFormat K, !WireFormat V} :
  WireFormat (unordered_map K V) := container_wire (E := K * V).
#[global] Instance unordered_map_formatter_laws `{MapOrderLaws K V, !MemoryPackFormatter K, !WireFormat K,
    !FormatterLaws K, !MemoryPackFormatter V, !WireFormat V, !FormatterLaws V} :
  FormatterLaws (unordered_map K V) := MapFormatter_laws c_clear.
End AssocInstanceLaws.

(** *** Keys: [std::less] on 32-bit integers and on strings *)

#[export] Instance int32_order : KeyOrder (prim Int32) := λ a b, pval a <? pval b.

#[export] Instance int32_order_laws : KeyOrderLaws (prim Int32).
Proof.
  split; unfold key_lt, int32_order.
  - intros a. lia.
  - intros a b c. lia.
  - intros [a] [b]. cbn. intros. f_equal. lia.
Qed.

(** [char_traits<char>::compare]: byte by byte, a proper prefix first. *)
Fixpoint bytes_lt (a b : list Z) : bool :=
  match a, b with
  | _, [] => false
  | [], _ :: _ => true
  | x :: a', y :: b' => if x <? y then true else if y <? x then false else bytes_lt a' b'
  end.

#[export] Instance string_order : KeyOrder string := λ a b, bytes_lt (bytes_of a) (bytes_of b).

Lemma bytes_lt_trans a b c : bytes_lt a b = true → bytes_lt b c = true → bytes_lt a c = true.
Proof.
  revert b c. induction a as [|x a IH]; intros [|y b] [|z c]; cbn; try done.
  destruct (Z.ltb_spec x y), (Z.ltb_spec y x), (Z.ltb_spec y z), (Z.ltb_spec z y); try done; try lia;
    destruct (Z.ltb_spec x z), (Z.ltb_spec z x); try done; try lia. apply IH.
Qed.

Lemma bytes_lt_total a b : bytes_lt a b = false → bytes_lt b a = false → a = b.
Proof.
  revert b. induction a as [|x a IH]; intros [|y b]; cbn; try done.
  destruct (Z.ltb_spec x y), (Z.ltb_spec y x); try done. intros.
  f_equal; [lia|by apply IH].
Qed.

#[export] Instance string_order_laws : KeyOrderLaws string.
Proof.
  split; unfold key_lt, string_order.
  - intros [a]. cbn. induction a as [|x a IH]; cbn; [done|]. by rewrite Z.ltb_irrefl.
  - intros [a] [b] [c]. apply bytes_lt_trans.
  - intros [a] [b]. cbn. intros. f_equal. by apply bytes_lt_total.
Qed.
