(* ===== verification/Nullable.v ===== *)
(** Nullable values ([containers.hpp], [core.hpp]): [std::optional] in the four null
    encodings of C#, smart pointers, and the explicit [WriteOptional],
    [WritePointer], [WriteNullableObject] and [WriteNullable] with their readers. *)
From S2P Require Import Prelude Endian Writer Reader Headers Utf Strings Formatter Collections.

(** ** [NullableLayout<T>] *)

(** What [WriteNullable] and [ReadNullable] use of a trivially copyable [T]: its
    size and alignment, and the bytes copied to and from the buffer. *)
Record value_layout (T : Type) := MkLayout {
  vl_size : Z;
  vl_align : Z;
  vl_store : T → list Z;
  vl_load : list Z → T;
}.
Arguments MkLayout {T}.
Arguments vl_size {T}.
Arguments vl_align {T}.
Arguments vl_store {T}.
Arguments vl_load {T}.

(** [std::unique_ptr] and [std::shared_ptr]. *)
Record pointer (T : Type) := Pointer { pointee : option T }.
Arguments Pointer {T}.
Arguments pointee {T}.

Section Layout.
Context {T : Type} (L : value_layout T).

Definition ValueOffset : Z := vl_align L.
Definition NullableSize : Z := ((ValueOffset + vl_size L + vl_align L - 1) / vl_align L) * vl_align L.
End Layout.

Section Operations.
Context `{Platform} {T : Type}.

(** The arithmetic and enum branch converts to little-endian; a struct is copied. *)
Definition layout_of (k : type_kind T) : option (value_layout T) :=
  match k with
  | Arithmetic t to un | Enumeration t to un =>
      Some (MkLayout (sizeof t) (alignof t)
        (λ v, object_bytes t (endian_convert t (to v)))
        (λ bs, un (endian_convert t (of_object_bytes t bs))))
  | UnmanagedStruct rep =>
      Some (MkLayout (rep_size rep) (rep_align rep) (rep_bytes rep) (rep_of rep))
  | _ => None
  end.

Definition WriteNullable (L : value_layout T) (v : option T) : W unit :=
  let buf := replicate (Z.to_nat (NullableSize L)) 0 in
  let buf := overwrite 0 [if v is Some _ then 1 else 0] buf in
  AppendBytes match v with
              | Some v => overwrite (ValueOffset L) (vl_store L v) buf
              | None => buf
              end.

Definition ReadNullable (L : value_layout T) : R (option T) :=
  src ← take_bytes (NullableSize L);
  mret match src with
       | Some src =>
           if bool_decide (head src = Some 0) then None
           else Some (vl_load L (slice (ValueOffset L) (vl_size L) src))
       | None => None
       end.

Context `{!MemoryPackFormatter T}.

(** [WriteOptional], [WritePointer] and the smart pointer formatters. *)
Definition WriteOptional (v : option T) : W unit :=
  match v with Some v => Write v | None => WriteNullObjectHeader end.

Definition ReadOptional : R (option T) :=
  null ← PeekIsNull;
  if null : bool then ReadByte ;; mret None else
  value ← Read;
  mret (Some value).

Definition WriteNullableObject (v : option T) : W unit :=
  match v with
  | None => WriteNullObjectHeader
  | Some v => AppendByte 1 ;; Write v
  end.

Definition ReadNullableObject : R (option T) :=
  b ← ReadByte;
  if b =? NULL_OBJECT then mret None else
  value ← Read;
  mret (Some value).

(** A read on a copy of the reader. *)
Definition peek {A} (m : R A) : R A := λ r, ((m r).1, r).

(** Null or a value that starts with its int32 length. *)
Definition read_null_or_length : R (option T) :=
  remaining ← gets Remaining;
  isnull ← (if remaining >=? 4 then h ← peek ReadCollectionHeader; mret (h =? NULL_COLLECTION)
            else mret false);
  if isnull : bool then Advance 4 ;; mret None else
  value ← Read;
  mret (Some value).

(** [MemoryPackFormatter<std::optional<T>>], with its specialization for
    [std::u16string]. *)
Definition optional_Serialize (v : option T) : W unit :=
  match layout_of kind, WireNullEncoding (T := T) kind with
  | Some L, _ => WriteNullable L v
  | None, NullString => match v with Some v => Write v | None => WriteNullString end
  | None, NullCollection => match v with Some v => Write v | None => WriteNullCollectionHeader end
  | None, _ => match v with Some v => Write v | None => WriteNullObjectHeader end
  end.

Definition optional_Deserialize : R (option T) :=
  match kind with
  | StdString _ un => s ← ReadString; mret (un <$> s)
  | StdU16String | StdCollection => read_null_or_length
  | OtherType => ReadOptional
  | k => match layout_of k with Some L => ReadNullable L | None => undefined end
  end.

#[global] Instance optional_formatter : MemoryPackFormatter (option T) := {
  value_init := None;
  kind := OtherType;
  Serialize := optional_Serialize;
  Deserialize := λ _, optional_Deserialize;
}.

#[global] Instance pointer_formatter : MemoryPackFormatter (pointer T) := {
  value_init := Pointer None;
  kind := OtherType;
  Serialize := λ v, WriteOptional (pointee v);
  Deserialize := λ _, v ← ReadOptional; mret (Pointer v);
}.
End Operations.

(** The specialization for [std::optional<std::u16string>]. The general formatter, whose
    [kind] tells UTF-16 strings apart, is the same. *)
Section U16Optional.
Context `{Platform}.

Definition u16_optional_Serialize (v : option u16string) : W unit :=
  match v with Some v => WriteStringUtf16 (units_of v) | None => WriteNullString end.

Definition u16_optional_Deserialize : R (option u16string) :=
  remaining ← gets Remaining;
  isnull ← (if remaining >=? 4 then h ← peek ReadCollectionHeader; mret (h =? NULL_COLLECTION)
            else mret false);
  if isnull : bool then Advance 4 ;; mret None else
  value ← u16_Deserialize;
  mret (Some value).

Lemma u16_optional_general : (∀ v, u16_optional_Serialize v = optional_Serialize v) ∧
  u16_optional_Deserialize = optional_Deserialize (T := u16string).
Proof. split; [by intros []|done]. Qed.
End U16Optional.

(** ** The layout of [Nullable<T>] *)

Section LayoutFacts.
Context {T : Type} (L : value_layout T).

(** The bytes [WriteNullable] hands to [AppendBytes]. *)
Definition nullable_bytes (v : option T) : list Z :=
  let buf := overwrite 0 [if v is Some _ then 1 else 0] (replicate (Z.to_nat (NullableSize L)) 0) in
  match v with Some v => overwrite (ValueOffset L) (vl_store L v) buf | None => buf end.

Record layout_ok (v : T) : Prop := {
  lo_align : 1 ≤ vl_align L;
  lo_size : 0 < vl_size L;
  lo_store : zlen (vl_store L v) = vl_size L;
  lo_load : vl_load L (vl_store L v) = v;
  lo_bytes : bytes_ok (vl_store L v);
}.

Lemma NullableSize_room : 1 ≤ vl_align L → 0 < vl_size L →
  vl_align L + vl_size L ≤ NullableSize L.
Proof.
  unfold NullableSize, ValueOffset. intros Ha Hs. set (a := vl_align L) in *.
  pose proof (Z.div_mod (a + vl_size L + a - 1) a ltac:(lia)).
  pose proof (Z.mod_pos_bound (a + vl_size L + a - 1) a ltac:(lia)). lia.
Qed.

Lemma slice_overwrite {A} off (src mem : list A) : 0 ≤ off → off ≤ zlen mem →
  slice off (zlen src) (overwrite off src mem) = src.
Proof.
  intros Ho Hl. unfold overwrite, zlen in *. apply (slice_prefix _ _ _ (drop (Z.to_nat off + length src) mem)).
  rewrite drop_app_length'; [done|]. rewrite length_take. lia.
Qed.

Lemma head_overwrite {A} off (src mem : list A) : 1 ≤ off → mem ≠ [] →
  head (overwrite off src mem) = head mem.
Proof.
  intros Ho Hm. unfold overwrite. destruct mem as [|x mem]; [done|].
  by replace (Z.to_nat off) with (S (Z.to_nat (off - 1))) by lia.
Qed.

Lemma flag_byte (b : Z) : 1 ≤ NullableSize L →
  overwrite 0 [b] (replicate (Z.to_nat (NullableSize L)) 0) =
    b :: replicate (Z.to_nat (NullableSize L - 1)) 0.
Proof.
  intros Hs. unfold overwrite. rewrite Z2Nat.inj_0. cbn [take app Nat.add length].
  replace (Z.to_nat (NullableSize L)) with (S (Z.to_nat (NullableSize L - 1))) by lia.
  cbn [replicate drop]. by rewrite drop_0.
Qed.

Lemma zlen_nullable v : 1 ≤ vl_align L → 0 < vl_size L →
  (∀ x, v = Some x → layout_ok x) → zlen (nullable_bytes v) = NullableSize L.
Proof.
  intros Ha Hs Hv. pose proof (NullableSize_room Ha Hs). unfold nullable_bytes, ValueOffset.
  rewrite flag_byte by lia.
  assert (Hz : ∀ b, zlen (b :: replicate (Z.to_nat (NullableSize L - 1)) 0) = NullableSize L).
  { intros b. rewrite zlen_cons, zlen_replicate_Z; lia. }
  destruct v as [x|]; [|apply Hz]. destruct (Hv x eq_refl).
  rewrite zlen_overwrite; rewrite ?Hz; lia.
Qed.

Lemma nullable_bytes_ok v : (∀ x, v = Some x → layout_ok x) → bytes_ok (nullable_bytes v).
Proof.
  intros Hv. unfold nullable_bytes. assert (Hb : ∀ b, byte_ok b → bytes_ok (overwrite 0 [b] (replicate (Z.to_nat (NullableSize L)) 0))).
  { intros b Hb. apply bytes_ok_overwrite; [by apply bytes_ok_singleton|apply bytes_ok_zeros]. }
  destruct v as [x|]; [|by apply Hb]. apply bytes_ok_overwrite; [by apply lo_bytes, Hv|by apply Hb].
Qed.

Lemma nullable_decode v : 1 ≤ vl_align L → 0 < vl_size L → (∀ x, v = Some x → layout_ok x) →
  (if bool_decide (head (nullable_bytes v) = Some 0) then None
   else Some (vl_load L (slice (ValueOffset L) (vl_size L) (nullable_bytes v)))) = v.
Proof.
  intros Ha Hs Hv. pose proof (NullableSize_room Ha Hs). unfold nullable_bytes, ValueOffset.
  rewrite flag_byte by lia. destruct v as [x|]; [|done]. destruct (Hv x eq_refl) as [_ _ Hst Hld _].
  rewrite head_overwrite by (lia || done). rewrite bool_decide_false by done.
  rewrite <-Hst, slice_overwrite by (rewrite ?zlen_cons, ?zlen_replicate_Z; lia). by rewrite Hld.
Qed.
End LayoutFacts.

(** ** The laws *)

(** The object null encoding needs values that do not start with the null marker. *)
Class OptionalSafe (T : Type) `{MemoryPackFormatter T, WireFormat T} : Prop :=
  optional_safe : match kind : type_kind T with OtherType => NullSafe T | _ => True end.

#[export] Instance null_safe_optional `{MemoryPackFormatter T, WireFormat T, !NullSafe T} : OptionalSafe T.
Proof. unfold OptionalSafe. by destruct kind. Qed.

#[export] Hint Extern 5 (OptionalSafe _) => exact I : typeclass_instances.

Section Wire.
Context `{Platform} {T : Type} `{!MemoryPackFormatter T, !WireFormat T}.

Definition null_encoding : list Z :=
  match WireNullEncoding (T := T) kind with
  | NullString | NullCollection => le_bytes 4 NULL_COLLECTION
  | _ => [NULL_OBJECT]
  end.

Definition optional_enc (v : option T) : list Z :=
  match layout_of kind with
  | Some L => nullable_bytes L v
  | None => match v with Some v => enc v | None => null_encoding end
  end.

Definition pointer_enc (v : option T) : list Z :=
  match v with Some v => enc v | None => [NULL_OBJECT] end.

#[global] Instance optional_wire : WireFormat (option T) := {
  enc := optional_enc;
  wf := λ v, ∀ x, v = Some x → wf x;
  within := λ o d v, ∀ x, v = Some x → within o d x;
}.

#[global] Instance pointer_wire : WireFormat (pointer T) := {
  enc := λ v, pointer_enc (pointee v);
  wf := λ v, ∀ x, pointee v = Some x → wf x;
  within := λ o d v, ∀ x, pointee v = Some x → within o d x;
}.
End Wire.

Section ReferenceLaws.
Context `{Platform} {T : Type} `{!MemoryPackFormatter T, !WireFormat T, !FormatterLaws T}.

Lemma safe_Some_Read : safe (value ← Read; mret (Some (value : T))) anything.
Proof. apply safe_map, law_safe. Qed.

Lemma needs_bytes_Some_Read : needs_bytes (HeaderSize (T := T) kind) (value ← Read; mret (Some (value : T))).
Proof. apply needs_bytes_map; [apply law_safe|apply law_needs]. Qed.

Lemma needs_byte_Some_Read : needs_bytes 1 (value ← Read; mret (Some (value : T))).
Proof. apply needs_bytes_map; [apply law_safe|apply law_needs_byte]. Qed.

Lemma reads_Some_Read o d (v : T) : 0 ≤ d → wf v → within o d v →
  reads o d (value ← Read; mret (Some value)) (enc v) (Some v).
Proof. intros. apply (reads_map o d Read Some); [by apply law_reads|apply law_safe]. Qed.

Lemma WriteOptional_emits (v : option T) : (∀ x, v = Some x → wf x) →
  emits (WriteOptional v) (pointer_enc v).
Proof. destruct v as [v|]; intros Hv; [by apply law_emits, Hv|apply AppendByte_emits]. Qed.

Lemma safe_ReadOptional : safe (ReadOptional (T := T)) anything.
Proof.
  intros r Hr. eapply safe_at_bind; [by apply safe_PeekIsNull|]. intros [|] r' Hr' _ _.
  - by apply safe_map; [apply safe_ReadByte_any|].
  - by apply safe_Some_Read.
Qed.

Lemma needs_bytes_ReadOptional : needs_bytes 1 (ReadOptional (T := T)).
Proof.
  intros o d r Hr E. unfold ReadOptional, fails_at, mbind, M_bind.
  rewrite (PeekIsNull_ready o d) by done.
  assert (rest r = []) as Hnil by (apply zlen_0_nil; zlen_pos; lia).
  rewrite bool_decide_false by by rewrite Hnil. by eapply needs_byte_Some_Read.
Qed.

(** Null-safe values survive the [255]-for-null encoding. *)
Lemma reads_ReadOptional `{!NullSafe T} o d (v : option T) : 0 ≤ d →
  (∀ x, v = Some x → wf x) → (∀ x, v = Some x → within o d x) →
  reads o d ReadOptional (pointer_enc v) v.
Proof.
  intros Hd Hwf Hwi. destruct v as [v|]; cbn [pointer_enc].
  - destruct (null_safe v (Hwf v eq_refl)) as (b & bs & E & Hb).
    pose proof (reads_Some_Read o d v Hd (Hwf v eq_refl) (Hwi v eq_refl)) as Hr.
    rewrite E in *. by apply reads_peek_value.
  - apply reads_peek_null; [|apply needs_byte_Some_Read].
    apply (reads_map o d ReadByte (λ _, None) _ NULL_OBJECT); [apply reads_ReadByte|apply safe_ReadByte_any].
Qed.

Lemma WriteNullableObject_emits (v : option T) : (∀ x, v = Some x → wf x) →
  emits (WriteNullableObject v) (match v with Some x => 1 :: enc x | None => [NULL_OBJECT] end).
Proof.
  destruct v as [v|]; intros Hv; [|apply AppendByte_emits].
  apply (emits_bind _ _ [1]); [apply AppendByte_emits|by apply law_emits, Hv].
Qed.

(** With the extra presence byte any value survives. *)
Lemma reads_ReadNullableObject o d (v : option T) : 0 ≤ d →
  (∀ x, v = Some x → wf x) → (∀ x, v = Some x → within o d x) →
  reads o d ReadNullableObject (match v with Some x => 1 :: enc x | None => [NULL_OBJECT] end) v.
Proof.
  intros Hd Hwf Hwi.
  assert (Sk : ∀ b, safe (if b =? NULL_OBJECT then mret None else
                          value ← Read; mret (Some (value : T))) anything).
  { intros b. destruct (b =? _); [intros r Hr; by apply safe_at_ret|apply safe_Some_Read]. }
  destruct v as [v|].
  - apply (reads_bind _ _ _ _ [1] _ 1); [apply reads_ReadByte|apply safe_ReadByte_any| |done].
    cbn. by apply reads_Some_Read; auto.
  - eapply reads_bind_nil; [apply reads_ReadByte|apply safe_ReadByte_any|apply reads_ret|done].
Qed.

#[global] Instance pointer_laws `{!NullSafe T} : FormatterLaws (pointer T).
Proof.
  split; cbn [Serialize Deserialize kind pointer_formatter enc wf within pointer_wire].
  - intros v. apply WriteOptional_emits.
  - intros o d [v] _ Hd Hwf Hwi. apply (reads_map o d ReadOptional Pointer);
      [by apply reads_ReadOptional|apply safe_ReadOptional].
  - intros _. apply safe_map, safe_ReadOptional.
  - intros _. apply needs_bytes_map; [apply safe_ReadOptional|apply needs_bytes_ReadOptional].
  - intros [[v|]] Hwf; [|done]. specialize (Hwf v eq_refl). cbn [pointee pointer_enc MinEncodedSize].
    pose proof (law_min v Hwf). pose proof (MinEncodedSize_pos (kind : type_kind T)). lia.
  - done.
  - intros [[v|]] Hwf; [by apply law_bytes, Hwf|by apply bytes_ok_singleton].
Qed.
End ReferenceLaws.

Section CollectionNull.
Context `{Platform} {T : Type} `{!MemoryPackFormatter T, !WireFormat T, !FormatterLaws T}.

Definition peek_null : R bool :=
  remaining ← gets Remaining;
  if remaining >=? 4 then h ← peek ReadCollectionHeader; mret (h =? NULL_COLLECTION)
  else mret false.

Lemma safe_peek_null r : r_ok r →
  safe_at r peek_null (λ b r', r' = r).
Proof.
  intros Hr. unfold peek_null. apply safe_at_gets_bind.
  destruct (Z.geb_spec (Remaining r) 4) as [Hrem|]; [|by apply safe_at_ret].
  rewrite Remaining_spec in Hrem by done. pose proof (ok_pos r Hr).
  assert (Hno : ∃ h, (ReadCollectionHeader r).1 = Ret h).
  { unfold ReadCollectionHeader, ReadRaw, take_bytes, EnsureBytes, mbind, M_bind.
    change (size_sub (size_ r) (pos_ r)) with (Remaining r). rewrite Remaining_spec by done.
    change (sizeof Int32) with 4. destruct (decide (error_ r = NoError)); [|by eexists].
    destruct (Z.gtb_spec 4 (size_ r - pos_ r)); [lia|].
    unfold gets, load, advance, modify.
    destruct (Z.leb_spec 0 (pos_ r)), (Z.leb_spec (pos_ r + 4) (size_ r)); [by eexists|lia..]. }
  destruct Hno as [h Hh]. unfold safe_at, mbind, M_bind, peek. rewrite Hh. cbn.
  split_and!; [by apply r_step_refl|done|done].
Qed.

Lemma peek_null_ready o d r n x : ready o d r → rest r = le_bytes 4 n ++ x →
  -1 ≤ n < 2 ^ 31 → peek_null r = (Ret (n =? -1), r).
Proof.
  intros Hr Hx Hn. unfold peek_null, mbind at 1, M_bind at 1, gets.
  rewrite Remaining_spec, <-rest_length, Hx by apply Hr. rewrite zlen_app, (zlen_le_bytes 4). zlen_pos.
  destruct (Z.geb_spec (Z.of_nat 4 + zlen x) 4); [|lia].
  destruct (reads_ReadRaw o d Int32 n ltac:(arith_ranges; lia) r Hr) as [Hread _].
  unfold mbind, M_bind, peek, ReadCollectionHeader. by rewrite Hread by (rewrite Hx; by eexists).
Qed.

Lemma peek_null_short o d r : ready o d r → zlen (rest r) < 4 → peek_null r = (Ret false, r).
Proof.
  intros Hr Hx. unfold peek_null, mbind, M_bind, gets.
  rewrite Remaining_spec, <-rest_length by apply Hr. by destruct (Z.geb_spec (zlen (rest r)) 4); [lia|].
Qed.

Lemma read_null_or_length_eq r : read_null_or_length (T := T) r =
  (isnull ← peek_null; if isnull : bool then Advance 4 ;; mret None else
   value ← Read; mret (Some value)) r.
Proof. done. Qed.

Lemma safe_read_null_or_length : safe (read_null_or_length (T := T)) anything.
Proof.
  intros r Hr. unfold safe_at. rewrite read_null_or_length_eq.
  eapply safe_at_bind; [by apply safe_peek_null|]. intros [|] r' Hr' _ _.
  - eapply safe_at_bind; [by apply safe_Advance|]. intros. by apply safe_at_ret.
  - by apply safe_Some_Read.
Qed.

(** The element type announces its length in four bytes. *)
Context (Hheader : HeaderSize (kind : type_kind T) = 4).

Lemma needs_four : needs_bytes 4 (value ← Read; mret (Some (value : T))).
Proof. rewrite <-Hheader. apply needs_bytes_Some_Read. Qed.

Lemma needs_bytes_read_null_or_length : needs_bytes 4 (read_null_or_length (T := T)).
Proof.
  intros o d r Hr E. unfold fails_at. rewrite read_null_or_length_eq. unfold mbind, M_bind.
  rewrite (peek_null_short o d) by done. by apply (needs_four o d).
Qed.

Lemma reads_collection_null o d :
  reads o d (read_null_or_length (T := T)) (le_bytes 4 NULL_COLLECTION) None.
Proof.
  intros r Hr. unfold fails_at. rewrite read_null_or_length_eq. split.
  - intros [x Hx]. rewrite (bind_Ret _ _ _ _ _ (peek_null_ready o d r (-1) x Hr Hx ltac:(lia))).
    cbn [Z.eqb]. assert (Ha : reads o d (Advance 4 ;; mret (None : option T)) (le_bytes 4 NULL_COLLECTION) None).
    { apply (reads_map o d (Advance 4) (λ _, None) _ tt); [by apply reads_Advance|].
      intros r' Hr'. by apply safe_Advance. }
    apply (Ha r Hr). by exists x.
  - intros Hp Hne. pose proof (prefix_shorter _ _ Hp Hne) as Hlt. rewrite (zlen_le_bytes 4) in Hlt.
    unfold mbind, M_bind. rewrite (peek_null_short o d) by done. by apply (needs_four o d).
Qed.

Lemma reads_collection_value o d (v : T) n body : 0 ≤ d → wf v → within o d v →
  0 ≤ n < 2 ^ 31 → enc v = le_bytes 4 n ++ body →
  reads o d read_null_or_length (enc v) (Some v).
Proof.
  intros Hd Hv Hwi Hn E r Hr. destruct (reads_Some_Read o d v Hd Hv Hwi r Hr) as [H1 H2].
  unfold fails_at in *. rewrite read_null_or_length_eq.
  destruct (decide (zlen (rest r) < 4)) as [Hshort|Hlong].
  - unfold mbind, M_bind in *. rewrite (peek_null_short o d) by done. done.
  - assert (Hpk : ∀ bs, rest r `prefix_of` enc v ∨ enc v `prefix_of` rest r → bs = rest r →
      ∃ x, rest r = le_bytes 4 n ++ x).
    { intros bs Hp _. rewrite E in Hp. destruct Hp as [Hp|[x Hx]].
      - destruct (prefix_app_cases _ _ _ Hp) as [[Hp1 Hp2]|(x & Hx & _)]; [|by exists x].
        pose proof (prefix_shorter _ _ Hp1 Hp2) as Hs. rewrite (zlen_le_bytes 4) in Hs. lia.
      - exists (body ++ x). by rewrite app_assoc. }
    split; [intros Hp|intros Hp Hne];
      (destruct (Hpk _ ltac:(tauto) eq_refl) as [x Hx];
       rewrite (bind_Ret _ _ _ _ _ (peek_null_ready o d r n x Hr Hx ltac:(lia)));
       destruct (Z.eqb_spec n (-1)); [lia|]); [by apply H1|by apply H2].
Qed.
End CollectionNull.

(** ** [std::optional] *)

Section OptionalLaws.
Context `{Platform} {T : Type} `{!MemoryPackFormatter T, !WireFormat T, !FormatterLaws T, !OptionalSafe T}.

Lemma layout_of_ok (L : value_layout T) : layout_of kind = Some L →
  1 ≤ vl_align L ∧ 0 < vl_size L ∧ ∀ v, wf v → layout_ok L v.
Proof.
  pose proof law_kind as Hk.
  destruct (kind : type_kind T) as [t to un|t to un|rep| | | |]; intros [= <-]; cbn [vl_align vl_size].
  3: { destruct Hk as (Hs & Ha & Hv). split_and!; [done..|]. intros v Hwf. by destruct (Hv v Hwf) as (? & ? & ?). }
  all: destruct Hk as [Hun Hv]; pose proof (alignof_pos t); pose proof (sizeof_pos t).
  all: split_and!; [lia..|]; intros v Hwf; destruct (Hv v Hwf) as [Hok _].
  all: split; cbn [vl_align vl_size vl_store vl_load]; [lia..| | |].
  all: rewrite object_bytes_endian_convert by done.
  all: first [by rewrite zlen_le_bytes|apply le_bytes_ok|
    rewrite endian_convert_of_object_bytes, wire_value_le_bytes
      by (done || apply le_bytes_ok || apply length_le_bytes); apply Hun].
Qed.

Lemma optional_emits (v : option T) : (∀ x, v = Some x → wf x) → emits (optional_Serialize v) (optional_enc v).
Proof.
  intros Hv. unfold optional_Serialize, optional_enc, null_encoding.
  destruct (layout_of kind) as [L|]; [apply AppendBytes_emits|].
  destruct v as [v|].
  - pose proof (law_emits v (Hv v eq_refl)). by destruct (WireNullEncoding _).
  - destruct (WireNullEncoding _); first [apply AppendByte_emits|by apply (WriteRaw_emits Int32)].
Qed.

Lemma reads_ReadNullable o d L (v : option T) : layout_of kind = Some L → (∀ x, v = Some x → wf x) →
  reads o d (ReadNullable L) (nullable_bytes L v) v.
Proof.
  intros EL Hv. destruct (layout_of_ok L EL) as (Ha & Hs & Hok).
  pose proof (NullableSize_room L Ha Hs).
  eapply (reads_map_eq o d (take_bytes (NullableSize L)) (λ src, match src with
    | Some src => if bool_decide (head src = Some 0) then None
                  else Some (vl_load L (slice (ValueOffset L) (vl_size L) src))
    | None => None end) _ (Some (nullable_bytes L v))).
  - apply reads_take_bytes. apply zlen_nullable; auto.
  - apply safe_take_bytes_any. lia.
  - apply nullable_decode; auto.
Qed.

Lemma safe_ReadNullable (L : value_layout T) : layout_of kind = Some L → safe (ReadNullable L) anything.
Proof.
  intros EL. destruct (layout_of_ok L EL) as (Ha & Hs & _). pose proof (NullableSize_room L Ha Hs).
  apply safe_map, safe_take_bytes_any. lia.
Qed.

Lemma needs_byte_ReadNullable (L : value_layout T) : layout_of kind = Some L → needs_bytes 1 (ReadNullable L).
Proof.
  intros EL. destruct (layout_of_ok L EL) as (Ha & Hs & _). pose proof (NullableSize_room L Ha Hs).
  apply needs_bytes_map; [apply safe_take_bytes_any; lia|].
  apply (needs_bytes_mono _ (NullableSize L)); [lia|]. apply needs_bytes_take. lia.
Qed.

Lemma safe_optional : safe (optional_Deserialize (T := T)) anything.
Proof.
  unfold optional_Deserialize. pose proof safe_ReadNullable as Sn.
  destruct (kind : type_kind T) as [t to un|t to un|rep| | | |]; try by apply Sn.
  - apply safe_map, safe_ReadString_any.
  - apply safe_read_null_or_length.
  - apply safe_read_null_or_length.
  - apply safe_ReadOptional.
Qed.

Lemma needs_optional : needs_bytes 1 (optional_Deserialize (T := T)).
Proof.
  unfold optional_Deserialize. pose proof needs_byte_ReadNullable as Nn.
  pose proof needs_bytes_read_null_or_length as Nc. pose proof needs_bytes_ReadOptional as No.
  destruct (kind : type_kind T) as [t to un|t to un|rep| | | |] eqn:Ek; try by apply Nn.
  - apply (needs_bytes_mono _ 4); [done|].
    apply needs_bytes_map; [apply safe_ReadString_any|apply needs_bytes_ReadString].
  - apply (needs_bytes_mono _ 4); [done|]. by apply Nc.
  - apply (needs_bytes_mono _ 4); [done|]. by apply Nc.
  - apply No.
Qed.

Lemma reads_optional_string o d to un (v : option T) : kind = StdString to un →
  (∀ x, v = Some x → wf x) → (∀ x, v = Some x → within o d x) →
  reads o d (s ← ReadString; mret (un <$> s)) (match v with Some v => enc v | None => le_bytes 4 (-1) end) v.
Proof.
  intros Ek Hv Hwi. pose proof law_kind as Hk. rewrite Ek in Hk. destruct Hk as (Hun & Henc & Hlim).
  destruct v as [v|].
  - destruct (Henc v (Hv v eq_refl)) as [Hok ->].
    apply (reads_map_eq o d ReadString (fmap un) _ (Some (to v))); [|apply safe_ReadString_any|].
    + apply reads_ReadString; [done|]. by eapply Hlim, Hwi.
    + cbn. by rewrite Hun.
  - apply (reads_map_eq o d ReadString (fmap un) _ None); [|apply safe_ReadString_any|done].
    apply reads_ReadString_null.
Qed.

Lemma reads_optional o d (v : option T) : 0 ≤ d →
  (∀ x, v = Some x → wf x) → (∀ x, v = Some x → within o d x) →
  reads o d optional_Deserialize (optional_enc v) v.
Proof.
  intros Hd Hv Hwi. unfold optional_Deserialize, optional_enc, null_encoding.
  pose proof law_kind as Hk. pose proof (reads_ReadNullable o d) as Hn.
  pose proof optional_safe as Ho. pose proof reads_optional_string as Hstr.
  pose proof reads_collection_null as Hnull. pose proof reads_collection_value as Hval.
  assert (Hlen : HeaderSize (kind : type_kind T) = 4 → (∀ v : T, wf v → ∃ n body, 0 ≤ n < 2 ^ 31 ∧ enc v = le_bytes 4 n ++ body) →
    reads o d read_null_or_length (match v with Some v => enc v | None => le_bytes 4 NULL_COLLECTION end) v).
  { intros H4 Hc. destruct v as [v|]; [|by apply Hnull].
    destruct (Hc v (Hv v eq_refl)) as (n & body & Hn' & E). eapply Hval; eauto. }
  destruct (kind : type_kind T) as [t to un|t to un|rep|to un| | |] eqn:Ek; cbn [layout_of WireNullEncoding];
    try (by apply Hn).
  - by apply (Hstr o d to un).
  - by apply Hlen.
  - by apply Hlen.
  - change (match v with Some v => enc v | None => [NULL_OBJECT] end) with (pointer_enc v).
    by apply reads_ReadOptional.
Qed.

#[global] Instance optional_laws : FormatterLaws (option T).
Proof.
  split; cbn [Serialize Deserialize kind optional_formatter enc wf within optional_wire].
  - apply optional_emits.
  - intros o d v _. apply reads_optional.
  - intros _. apply safe_optional.
  - intros _. apply needs_optional.
  - intros v Hv. unfold optional_enc, null_encoding. cbn [MinEncodedSize].
    destruct (layout_of kind) as [L|] eqn:EL.
    + destruct (layout_of_ok L EL) as (Ha & Hs & Hok). pose proof (NullableSize_room L Ha Hs).
      rewrite zlen_nullable by auto. lia.
    + destruct v as [v|]; [|by destruct (WireNullEncoding _)].
      pose proof (law_min v (Hv v eq_refl)). pose proof (MinEncodedSize_pos (kind : type_kind T)). lia.
  - done.
  - intros v Hv. unfold optional_enc, null_encoding. destruct (layout_of kind) as [L|] eqn:EL.
    + apply nullable_bytes_ok. intros x Hx. destruct (layout_of_ok L EL) as (_ & _ & Hok). by apply Hok, Hv.
    + destruct v as [v|]; [by apply law_bytes, Hv|].
      destruct (WireNullEncoding _); first [apply le_bytes_ok|by apply bytes_ok_singleton].
Qed.
End OptionalLaws.
