(* ===== verification/Objects.v ===== *)
(** Objects ([core.hpp]): the reader and writer [MEMORYPACK_DEFINE] generates from a
    member list, [MEMORYPACK_DEFINE_EMPTY], and [std::tuple]. *)
From S2P Require Import Prelude Endian Writer Reader Headers Utf Strings Formatter Collections.

(** ** Member lists *)

(** A data member [v.name] of a class [V]. *)
Record member (V : Type) := Member {
  m_type : Type;
  m_fmt : MemoryPackFormatter m_type;
  m_get : V → m_type;
  m_set : m_type → V → V;
}.
Arguments Member {V} m_type {m_fmt} m_get m_set.
Arguments m_type {V}.
Arguments m_fmt {V}.
Arguments m_get {V}.
Arguments m_set {V}.

#[export] Existing Instance m_fmt.

(** [MEMORYPACK_DEFINE(V, members...)]; [default_value] is [V{}]. *)
Class Members (V : Type) := {
  default_value : V;
  members : list (member V);
}.

(** [MEMORYPACK_DEFINE_EMPTY(V)]. *)
Class NoMembers (V : Type) := empty_value : V.

(** [std::tuple] over the components of [V]. *)
Record tuple (V : Type) := Tuple { components : V }.
Arguments Tuple {V}.
Arguments components {V}.

Section Operations.
Context `{Platform} {V : Type}.

(** [MEMORYPACK_DETAIL_WRITE_MEMBER] for each member. *)
Definition write_members (ms : list (member V)) (v : V) : W unit :=
  mapM_ (λ m, Write (m_get m v)) ms.

(** [if (header.count > index++) r.Read(v.name);] for each member. *)
Fixpoint read_members (count index : Z) (ms : list (member V)) (v : V) : R V :=
  match ms with
  | [] => mret v
  | m :: ms' =>
      v' ← (if count >? index then x ← ReadInto (m_get m v); mret (m_set m x v) else mret v);
      read_members count (index + 1) ms' v'
  end.

Section Define.
Context `{Members V}.

Definition MemberCount : Z := to_unsigned 1 (zlen members).

(** [IMemoryPackable<V>::Serialize], which accepts a null pointer. *)
Definition Define_Serialize (v : option V) : W unit :=
  match v with
  | None => WriteNullObjectHeader
  | Some v => WriteObjectHeader MemberCount ;; write_members members v
  end.

Definition Define_Deserialize (v : V) : R V :=
  header ← ReadObjectHeader;
  if isNull header then mret default_value else
  entered ← EnterObject;
  if entered : bool then
    v' ← read_members (count header) 0 members v;
    LeaveObject ;;
    mret v'
  else mret v.

Definition WriteTuple (t : V) : W unit :=
  WriteObjectHeader MemberCount ;; write_members members t.

Definition ReadTuple : R V :=
  header ← ReadObjectHeader;
  if isNull header then mret default_value else
  read_members (count header) 0 members default_value.
End Define.

Definition Empty_Serialize `{NoMembers V} (v : option V) : W unit :=
  match v with None => WriteNullObjectHeader | Some _ => WriteObjectHeader 0 end.

Definition Empty_Deserialize `{NoMembers V} (v : V) : R V :=
  header ← ReadObjectHeader;
  if isNull header then mret empty_value else mret v.
End Operations.

Section Instances.
Context `{Platform} {V : Type}.

#[global] Instance object_formatter `{Members V} : MemoryPackFormatter V := {
  value_init := default_value;
  kind := OtherType;
  Serialize := λ v, Define_Serialize (Some v);
  Deserialize := Define_Deserialize;
}.

#[global] Instance empty_formatter `{NoMembers V} : MemoryPackFormatter V := {
  value_init := empty_value;
  kind := OtherType;
  Serialize := λ v, Empty_Serialize (Some v);
  Deserialize := Empty_Deserialize;
}.

#[global] Instance tuple_formatter `{Members V} : MemoryPackFormatter (tuple V) := {
  value_init := Tuple default_value;
  kind := OtherType;
  Serialize := λ t, WriteTuple (components t);
  Deserialize := λ _, t ← ReadTuple; mret (Tuple t);
}.
End Instances.

(** ** Specifications of member lists *)

Record member_spec `{Platform} (V : Type) := MemberSpec {
  ms_member : member V;
  ms_wire : WireFormat (m_type ms_member);
  ms_laws : FormatterLaws (m_type ms_member);
}.
Arguments MemberSpec {_ V} ms_member {ms_wire ms_laws}.
Arguments ms_member {_ V}.
Arguments ms_wire {_ V}.
Arguments ms_laws {_ V}.

#[export] Existing Instances ms_wire ms_laws.

(** Every member has a lawful type, and together the members determine the value. *)
Class MembersLaws `{Platform} (V : Type) `{Members V} := {
  specs : list (member_spec V);
  specs_members : ms_member <$> specs = members;
  specs_count : zlen specs ≤ MAX_MEMBER_COUNT;
  specs_rebuild : ∀ v old, foldl (λ acc m, m_set m (m_get m v) acc) old members = v;
}.

Class EmptyLaws (V : Type) `{NoMembers V} : Prop := empty_unique : ∀ v : V, v = empty_value.

Section MemberFacts.
Context `{Platform} {V : Type}.

Definition enc_members (ss : list (member_spec V)) (v : V) : list Z :=
  ss ≫= λ s, enc (m_get (ms_member s) v).

Definition members_wf (ss : list (member_spec V)) (v : V) : Prop :=
  ∀ s, s ∈ ss → wf (m_get (ms_member s) v).

Definition members_within (o : ReaderOptions) (d : Z) (ss : list (member_spec V)) (v : V) : Prop :=
  ∀ s, s ∈ ss → within o d (m_get (ms_member s) v).

(** Assigning the members of [v] in [ss] to [old]. *)
Definition assign_members (ss : list (member_spec V)) (v old : V) : V :=
  foldl (λ acc s, m_set (ms_member s) (m_get (ms_member s) v) acc) old ss.

Lemma write_members_emits (ss : list (member_spec V)) v : members_wf ss v →
  emits (write_members (ms_member <$> ss) v) (enc_members ss v).
Proof.
  intros Hwf. unfold write_members, enc_members. induction ss as [|s ss IH]; [apply emits_nil|].
  rewrite fmap_cons, bind_cons. cbn [mapM_]. apply emits_bind.
  - apply law_emits, Hwf. left.
  - apply IH. intros s' Hs'. apply Hwf. by right.
Qed.

Lemma safe_read_members count index (ss : list (member_spec V)) v :
  safe (read_members count index (ms_member <$> ss) v) anything.
Proof.
  revert index v. induction ss as [|s ss IH]; intros index v.
  { intros r Hr. by apply safe_at_ret. }
  rewrite fmap_cons. cbn [read_members]. apply safe_bind_anything; [|intros; apply IH].
  destruct (count >? index); [apply safe_map, law_safe|intros r Hr; by apply safe_at_ret].
Qed.

(** Reading [count] members: those the writer sent are assigned in order, the
    others keep the value they had. *)
Lemma reads_members o d count index (ss : list (member_spec V)) v old :
  0 ≤ d → members_wf ss v → members_within o d ss v →
  let sent := take (Z.to_nat (count - index)) ss in
  reads o d (read_members count index (ms_member <$> ss) old) (enc_members sent v) (assign_members sent v old).
Proof.
  intros Hd. revert index old. induction ss as [|s ss IH]; intros index old Hwf Hwi sent; unfold sent.
  { rewrite take_nil. apply reads_ret. }
  rewrite fmap_cons. cbn [read_members].
  assert (Hwf' : members_wf ss v) by (intros s' Hs'; apply Hwf; by right).
  assert (Hwi' : members_within o d ss v) by (intros s' Hs'; apply Hwi; by right).
  destruct (Z.gtb_spec count index) as [Hlt|Hge].
  - replace (Z.to_nat (count - index)) with (S (Z.to_nat (count - (index + 1)))) by lia.
    cbn [take]. unfold enc_members, assign_members. rewrite bind_cons. cbn [foldl].
    eapply reads_bind; [| |by apply IH|intros; apply safe_read_members].
    + apply (reads_map o d (ReadInto (m_get (ms_member s) old))
        (λ x, m_set (ms_member s) x old)); [|apply law_safe].
      apply law_reads; [done|apply Hwf; left|apply Hwi; left].
    + apply safe_map, law_safe.
  - replace (Z.to_nat (count - index)) with 0%nat by lia. cbn [take].
    specialize (IH (index + 1) old Hwf' Hwi'). cbv zeta in IH.
    replace (Z.to_nat (count - (index + 1))) with 0%nat in IH by lia. rewrite take_0 in IH. exact IH.
Qed.
End MemberFacts.

(** ** The laws *)

Section ObjectWire.
Context `{Platform} {V : Type} `{MembersLaws V}.

#[global] Instance object_wire : WireFormat V := {
  enc := λ v, zlen specs :: enc_members specs v;
  wf := λ v, members_wf specs v;
  within := λ o d v, d + 1 ≤ maxDepth o ∧ members_within o (d + 1) specs v;
}.

#[global] Instance tuple_wire : WireFormat (tuple V) := {
  enc := λ t, zlen specs :: enc_members specs (components t);
  wf := λ t, members_wf specs (components t);
  within := λ o d t, members_within o d specs (components t);
}.
End ObjectWire.

Section ObjectLaws.
Context `{Platform} {V : Type} `{MembersLaws V}.

Lemma MemberCount_specs : MemberCount (V := V) = zlen specs.
Proof.
  unfold MemberCount. rewrite <-specs_members. unfold zlen at 1. rewrite length_fmap.
  change (Z.of_nat (length specs)) with (zlen specs). pose proof specs_count as Hc.
  unfold MAX_MEMBER_COUNT in Hc. zlen_pos. apply Z.mod_small. change (pow256 1) with 256. lia.
Qed.

Lemma assign_all v old : assign_members specs v old = v.
Proof.
  rewrite <-(specs_rebuild v old) at 2. rewrite <-specs_members. unfold assign_members.
  generalize old. induction specs as [|s ss IH]; intros acc; [done|]. apply IH.
Qed.

Lemma take_all_specs : take (Z.to_nat (zlen specs - 0)) specs = specs.
Proof. rewrite Z.sub_0_r, zlen_to_nat. apply firstn_all. Qed.

Lemma object_emits v : members_wf specs v →
  emits (WriteObjectHeader MemberCount ;; write_members members v) (zlen specs :: enc_members specs v).
Proof.
  intros Hwf. rewrite MemberCount_specs, <-specs_members. zlen_pos.
  apply (emits_bind _ _ [zlen specs]); [|by apply write_members_emits].
  apply WriteObjectHeader_emits. split; [done|apply specs_count].
Qed.

Lemma safe_header_then {B} (n : B) (k : Z → R B) : (∀ c, safe (k c) anything) →
  ∀ h : ObjectHeader, safe (if isNull h then mret n else k (count h)) anything.
Proof. intros Hk h. destruct (isNull h); [intros r Hr; by apply safe_at_ret|apply Hk]. Qed.

Lemma reads_header_then {B} o d (n b : B) (k : Z → R B) c bs : 0 ≤ c ≤ MAX_MEMBER_COUNT →
  reads o d (k c) bs b → (∀ c, safe (k c) anything) →
  reads o d (h ← ReadObjectHeader; if isNull h then mret n else k (count h)) (c :: bs) b.
Proof.
  intros Hc Hk Sk. apply (reads_bind _ _ _ _ [c] _ (MkHeader c false)).
  - by apply reads_ReadObjectHeader.
  - intros r Hr. eapply safe_at_anything. by apply safe_ReadObjectHeader.
  - exact Hk.
  - by apply safe_header_then.
Qed.

Lemma safe_ReadObjectHeader_any : safe ReadObjectHeader anything.
Proof. intros r Hr. eapply safe_at_anything. by apply safe_ReadObjectHeader. Qed.

Lemma needs_byte_ReadObjectHeader : needs_bytes 1 ReadObjectHeader.
Proof.
  apply needs_bytes_bind; [apply needs_bytes_ReadByte|apply safe_ReadByte_any|]. intros b. safe_go.
Qed.

(** The body of the generated reader, one nesting level deeper. *)
Definition object_body (old : V) (c : Z) : R V :=
  entered ← EnterObject;
  if entered : bool then
    v' ← read_members c 0 members old;
    LeaveObject ;;
    mret v'
  else mret old.

Lemma safe_members c (v : V) : safe (read_members c 0 members v) anything.
Proof. rewrite <-specs_members. apply safe_read_members. Qed.

Lemma safe_object_body old c : safe (object_body old c) anything.
Proof.
  intros r Hr. unfold object_body. eapply safe_at_bind; [by apply safe_EnterObject|].
  intros [|] r1 Hr1 _ _; [|by apply safe_at_ret].
  eapply safe_at_bind; [by apply safe_members|]. intros v r2 Hr2 _ _.
  eapply safe_at_bind; [by apply safe_LeaveObject|]. intros _ r3 Hr3 _ _. by apply safe_at_ret.
Qed.

(** An object whose writer knew the first [c] members. *)
Lemma reads_Define o d c (v old : V) : 0 ≤ d → 0 ≤ c ≤ MAX_MEMBER_COUNT →
  wf v → within o d v →
  let sent := take (Z.to_nat c) specs in
  reads o d (Define_Deserialize old) (c :: enc_members sent v) (assign_members sent v old).
Proof.
  intros Hd Hc Hwf [Hdep Hwi] sent.
  apply (reads_header_then o d default_value _ (object_body old)); [done| |apply safe_object_body].
  apply reads_object; [done|done| |apply safe_members].
  rewrite <-specs_members. unfold sent. rewrite <-(Z.sub_0_r c) at 2 3.
  by apply reads_members; [lia|..].
Qed.

Lemma reads_ReadTuple o d c (v : V) : 0 ≤ d → 0 ≤ c ≤ MAX_MEMBER_COUNT →
  members_wf specs v → members_within o d specs v →
  let sent := take (Z.to_nat c) specs in
  reads o d ReadTuple (c :: enc_members sent v) (assign_members sent v default_value).
Proof.
  intros Hd Hc Hwf Hwi sent.
  apply (reads_header_then o d default_value _ (λ c, read_members c 0 members default_value));
    [done| |intros; apply safe_members].
  rewrite <-specs_members. unfold sent. rewrite <-(Z.sub_0_r c) at 2 3. by apply reads_members.
Qed.

Lemma object_encoding_ok (v : V) : members_wf specs v → bytes_ok (zlen specs :: enc_members specs v).
Proof.
  intros Hv. pose proof specs_count as Hc. unfold MAX_MEMBER_COUNT in Hc. zlen_pos.
  apply Forall_cons. split; [unfold byte_ok; lia|]. apply bytes_ok_bind. intros m Hm.
  apply law_bytes. by apply Hv.
Qed.

#[global] Instance object_laws : FormatterLaws V.
Proof.
  pose proof specs_count. zlen_pos.
  split; cbn [Serialize Deserialize kind object_formatter].
  - intros v. apply object_emits.
  - intros o d v old Hd Hwf Hwi. pose proof (reads_Define o d (zlen specs) v old Hd) as Hr. cbv zeta in Hr.
    rewrite zlen_to_nat, firstn_all, assign_all in Hr. by apply Hr.
  - intros old. apply safe_bind_anything; [apply safe_ReadObjectHeader_any|].
    apply (safe_header_then default_value (object_body old)), safe_object_body.
  - intros old. apply needs_bytes_bind; [apply needs_byte_ReadObjectHeader|apply safe_ReadObjectHeader_any|].
    apply (safe_header_then default_value (object_body old)), safe_object_body.
  - intros v _. cbn [enc object_wire MinEncodedSize]. zlia.
  - done.
  - apply object_encoding_ok.
Qed.

#[global] Instance tuple_laws : FormatterLaws (tuple V).
Proof.
  pose proof specs_count. zlen_pos.
  assert (St : safe (ReadTuple (V := V)) anything).
  { apply safe_bind_anything; [apply safe_ReadObjectHeader_any|].
    apply (safe_header_then default_value (λ c, read_members c 0 members default_value)).
    intros; apply safe_members. }
  split; cbn [Serialize Deserialize kind tuple_formatter].
  - intros v. apply object_emits.
  - intros o d [v] _ Hd Hwf Hwi. pose proof (reads_ReadTuple o d (zlen specs) v Hd) as Hr. cbv zeta in Hr.
    rewrite zlen_to_nat, firstn_all, assign_all in Hr.
    apply (reads_map o d ReadTuple Tuple); [by apply Hr|done].
  - intros _. by apply safe_map.
  - intros _. apply needs_bytes_map; [done|].
    apply needs_bytes_bind; [apply needs_byte_ReadObjectHeader|apply safe_ReadObjectHeader_any|].
    apply (safe_header_then default_value (λ c, read_members c 0 members default_value)).
    intros; apply safe_members.
  - intros v _. cbn [enc tuple_wire MinEncodedSize]. zlia.
  - done.
  - intros v. apply object_encoding_ok.
Qed.

#[global] Instance object_null_safe : NullSafe V.
Proof.
  intros v _. eexists _, _. split; [done|]. pose proof specs_count. unfold MAX_MEMBER_COUNT, NULL_OBJECT in *. lia.
Qed.

#[global] Instance tuple_null_safe : NullSafe (tuple V).
Proof.
  intros v _. eexists _, _. split; [done|]. pose proof specs_count. unfold MAX_MEMBER_COUNT, NULL_OBJECT in *. lia.
Qed.
End ObjectLaws.

#[global] Instance empty_wire {V : Type} `{NoMembers V} : WireFormat V := {
  enc := λ _, [0];
  wf := λ _, True;
  within := λ _ _ _, True;
}.

Section EmptyObjects.
Context `{Platform} {V : Type} `{EmptyLaws V}.

#[global] Instance empty_laws : FormatterLaws V.
Proof.
  assert (Sk : ∀ (old : V) (h : ObjectHeader), safe (if isNull h then mret empty_value else mret old) anything).
  { intros old. apply (safe_header_then empty_value (λ _, mret old)). intros c r Hr. by apply safe_at_ret. }
  split; cbn [Serialize Deserialize kind empty_formatter].
  - intros v _. by apply WriteObjectHeader_emits.
  - intros o d v old _ _ _. rewrite (empty_unique v). rewrite <-(empty_unique old) at 2.
    apply (reads_header_then o d empty_value old (λ _, mret old)); [done|apply reads_ret|].
    intros c r Hr. by apply safe_at_ret.
  - intros old. apply safe_bind_anything; [apply safe_ReadObjectHeader_any|apply Sk].
  - intros old. by apply needs_bytes_bind; [apply needs_byte_ReadObjectHeader|apply safe_ReadObjectHeader_any|].
  - done.
  - done.
  - intros v _. by apply bytes_ok_singleton.
Qed.

#[global] Instance empty_null_safe : NullSafe V.
Proof. intros v _. by eexists _, _. Qed.
End EmptyObjects.

(** The laws of a [MEMORYPACK_DEFINE] struct, from those of its members' types. *)
Ltac member_specs V ms :=
  lazymatch ms with
  | [] => constr:(@nil (member_spec V))
  | ?m :: ?ms' => let ss := member_specs V ms' in constr:(@cons (member_spec V) (MemberSpec m) ss)
  end.

Ltac members_laws :=
  match goal with |- @MembersLaws _ ?V ?M =>
    let ms := eval hnf in (@members V M) in
    let ss := member_specs V ms in
    refine {| specs := ss; specs_members := eq_refl |}; [done|by intros [] []]
  end.
