(* ===== verification/Decoded.v ===== *)
(** What decoding arbitrary input gives: values that satisfy an invariant bounded by the
    limits of the reader, so that a server can re-encode what it was sent. *)
From S2P Require Import Prelude Endian Writer Reader Headers Utf Strings Formatter Collections Objects.

(** [decoded o v]: a value a reader with limits [o] may return. *)
Class Decoded (T : Type) := decoded : ReaderOptions → T → Prop.

#[export] Hint Mode Decoded ! : typeclass_instances.

(** What a copy of the bytes of a [t] may hold: a [bool] any byte. *)
Definition raw_ok (t : arith_ty) (v : Z) : Prop :=
  match t with Bool_t => byte_ok v | _ => arith_ok t v end.

Definition string_bound (o : ReaderOptions) (s : list Z) : Prop :=
  bytes_ok s ∧ zlen s ≤ 3 * Z.max 0 (maxStringLength o).

(** The values that a container reads in bulk, without the formatter of the type. *)
Definition bulk_decoded {T} `{!Decoded T} (k : type_kind T) : Prop :=
  match k with
  | Arithmetic t _ un => ∀ o z, arith_ok t z → decoded o (un z)
  | Enumeration t _ un => ∀ o z, raw_ok t z → decoded o (un z)
  | UnmanagedStruct rep => ∀ o bs, bytes_ok bs → zlen bs = rep_size rep → decoded o (rep_of rep bs)
  | StdString _ un => ∀ o s, string_bound o s → decoded o (un s)
  | _ => True
  end.

(** Whatever the input, and whatever decoded value is assigned over. *)
Class DecodedLaws `{Platform} (T : Type) `{MemoryPackFormatter T, !Decoded T} : Prop := {
  decoded_init o : decoded o (value_init (T := T));
  law_decoded (old : T) r : r_ok r → decoded (options_ r) old →
    safe_at r (Deserialize old) (λ (v : T) _, decoded (options_ r) v);
  law_bulk : bulk_decoded (T := T) kind;
}.

(** ** Primitives *)

Section Prim.
Context `{Platform} (t : arith_ty).

#[global] Instance prim_decoded : Decoded (prim t) := λ _ v, arith_ok t (pval v).

Lemma arith_ok_0 : arith_ok t 0.
Proof. destruct t; by split. Qed.

Lemma safe_prim_ok r : r_ok r → safe_at r (prim_Deserialize t) (λ v _, arith_ok t (pval v)).
Proof.
  intros Hr. assert (Hraw : ∀ u, u ≠ Bool_t → safe_at r (ReadRaw u) (λ v _, arith_ok u v)) by (intros; by apply safe_ReadRaw).
  assert (Hbyte : safe_at r ReadByte (λ b _, byte_ok b)) by by apply safe_ReadByte.
  unfold prim_Deserialize, ReadBool. destruct t; cbn [arith_size].
  1: { eapply safe_at_bind; [eapply safe_at_bind; [exact Hbyte|]; intros; by apply (safe_at_ret _ _ (λ _ _, True))|].
       intros b r' Hr' _ _. apply safe_at_ret; [done|]. by destruct b. }
  all: eapply safe_at_bind; [first [exact Hbyte|by apply Hraw]|]; intros v r' Hr' _ Hv; cbv beta in Hv;
       apply safe_at_ret; [done|]; first [exact Hv|apply of_unsigned_ok; [done|exact Hv]].
Qed.

#[global] Instance prim_decoded_laws : DecodedLaws (prim t).
Proof. split; [intros ?; apply arith_ok_0| |by intros o z Hz]. intros old r Hr _. by apply safe_prim_ok. Qed.

Lemma arith_raw_ok z : arith_ok t z → raw_ok t z.
Proof. destruct t; try done. unfold raw_ok, byte_ok, arith_ok. lia. Qed.

Lemma raw_ok_arith z : t ≠ Bool_t → raw_ok t z → arith_ok t z.
Proof. by destruct t. Qed.

Lemma wire_value_raw bs : bytes_ok bs → length bs = arith_size t → raw_ok t (wire_value t bs).
Proof.
  intros Hb Hl. destruct (decide (t = Bool_t)) as [->|Ht]; [|by apply arith_raw_ok, wire_value_ok].
  pose proof (le_value_bound bs Hb) as Hv. rewrite Hl in Hv. exact Hv.
Qed.

(** The value of the bytes a formatter copied, on every host. *)
Lemma copied_raw bs : bytes_ok bs → length bs = arith_size t → raw_ok t (endian_convert t (of_object_bytes t bs)).
Proof. intros Hb Hl. rewrite endian_convert_of_object_bytes by done. by apply wire_value_raw. Qed.

Lemma safe_ReadRaw_raw r : r_ok r → safe_at r (ReadRaw t) (λ v _, raw_ok t v).
Proof.
  intros Hr. unfold ReadRaw. eapply safe_at_bind; [apply safe_take_bytes; [done|unfold sizeof; lia]|].
  intros [bs|] r' Hr' _ Hbs; (apply safe_at_ret; [done|]); [|apply arith_raw_ok, arith_ok_0].
  destruct Hbs as (Hl & Hb & _). apply copied_raw; [done|]. unfold zlen, sizeof in Hl. lia.
Qed.

#[global] Instance enum_decoded : Decoded (enum t) := λ _ v, raw_ok t (evalue v).

#[global] Instance enum_decoded_laws : DecodedLaws (enum t).
Proof.
  split; [intros ?; apply arith_raw_ok, arith_ok_0| |by intros o z Hz]. intros old r Hr _.
  eapply safe_at_bind; [by apply safe_ReadRaw_raw|]. intros v r' Hr' _ Hv. by apply safe_at_ret.
Qed.
End Prim.

(** ** Strings *)

(** Three UTF-8 bytes per UTF-16 unit are enough. *)
Lemma zlen_utf8_utf16 units : Forall unit_ok units → zlen (utf8_encode (decode_utf16 units)) ≤ 3 * zlen units.
Proof.
  assert (Hone : ∀ cp, zlen (append_utf8_codepoint cp) ≤ 4 ∧ (cp ≤ 0xFFFF → zlen (append_utf8_codepoint cp) ≤ 3)).
  { intros cp. unfold append_utf8_codepoint. destruct (Z.leb_spec cp 0x7F), (Z.leb_spec cp 0x7FF), (Z.leb_spec cp 0xFFFF);
      unfold zlen; cbn [length]; lia. }
  remember (length units) as n eqn:En. assert (Hn : (length units ≤ n)%nat) by lia. clear En.
  revert units Hn. induction n as [|n IH]; intros [|hi units] Hn Hok; cbn [length] in Hn;
    [done|lia|done|].
  apply Forall_cons in Hok as [Hhi Hok]. unfold unit_ok in Hhi. cbn [decode_utf16].
  assert (Hcons : ∀ cp rest k, zlen (append_utf8_codepoint cp) ≤ 3 * k → zlen (utf8_encode (decode_utf16 rest)) ≤ 3 * zlen rest →
    zlen (utf8_encode (cp :: decode_utf16 rest)) ≤ 3 * (k + zlen rest)).
  { intros cp rest k H1 H2. unfold utf8_encode in *. rewrite bind_cons, zlen_app. lia. }
  assert (Hrest : zlen (utf8_encode (decode_utf16 units)) ≤ 3 * zlen units) by (apply IH; [lia|done]).
  assert (Hfffd : zlen (append_utf8_codepoint 0xFFFD) ≤ 3 * 1) by by apply Hone.
  rewrite zlen_cons. destruct (is_high_surrogate hi).
  - destruct units as [|lo units]; [by apply (Hcons 0xFFFD [] 1)|]. destruct (is_low_surrogate lo); [|by apply Hcons].
    cbn [length] in Hn. apply Forall_cons in Hok as [_ Hok]. rewrite zlen_cons, Z.add_assoc.
    apply (Hcons _ units 2); [pose proof (proj1 (Hone (surrogate_pair hi lo))); lia|]. apply IH; [lia|done].
  - destruct (is_low_surrogate hi); apply Hcons; try done. pose proof (proj2 (Hone hi)). lia.
Qed.

Section String.
Context `{Platform}.

Lemma safe_Utf16Payload_bound r n : r_ok r → 0 ≤ n < 2 ^ 31 → n ≤ maxStringLength (options_ r) →
  safe_at r (ReadUtf16Payload n) (λ s _, string_bound (options_ r) s).
Proof.
  intros Hr1 Hn Hl. unfold ReadUtf16Payload. pose proof size_mod_pos. rewrite Z.mod_small by lia.
  assert (Hnil : string_bound (options_ r) []) by (split; [constructor|zlia]).
  eapply safe_at_bind; [by apply safe_EnsureBytes|].
  intros [|] r1 Hr _ He; cbn [negb]; [|by apply safe_at_ret].
  destruct He as (-> & Herr & Hroom). assert (Hready : ready (options_ r) (depth_ r) r) by by split.
  destruct (bytes_units (Z.to_nat n) (take (Z.to_nat (n * 2)) (rest r))) as (units & Hlen & Hu & Hok).
  { apply Forall_take, Forall_drop, Hr. }
  { pose proof (rest_length r Hr) as Hlr. unfold zlen in Hlr. rewrite length_take. lia. }
  assert (Hrest : rest r = (units ≫= le_bytes 2) ++ drop (Z.to_nat (n * 2)) (rest r)) by by rewrite <-Hu, take_drop.
  unfold safe_at. rewrite <-Hlen. rewrite (read_utf16_loop_spec _ _ (length units) units [] _ r) by done. cbn [app].
  destruct (ready_skip_prefix _ _ r _ _ Hready Hrest) as [[Hr3 Ho3 _ He3] _]. rewrite zlen_units in *.
  split; [by split|]. split; [done|]. split; [by apply utf8_encode_ok, decode_utf16_scalar|].
  pose proof (zlen_utf8_utf16 units Hok). unfold zlen in *. lia.
Qed.

(** [ReadString] on any input: bytes, at most three per unit the limits allow. *)
Lemma safe_ReadString_bound r : r_ok r →
  safe_at r ReadString (λ s _, if s is Some s then string_bound (options_ r) s else True).
Proof.
  intros Hr. assert (Hnil : string_bound (options_ r) []) by (split; [constructor|zlia]).
  unfold ReadString. eapply safe_at_bind; [by apply safe_ReadRaw|]. intros h r1 Hr1 S1 Hh. cbv beta in Hh. arith_ranges.
  apply safe_at_gets_bind. destruct (Failed r1); [by apply safe_at_ret|].
  destruct (h =? -1); [by apply safe_at_ret|].
  destruct (Z.eqb_spec h 0); [by apply safe_at_ret|]. rewrite <-(rstep_options _ _ S1).
  destruct (Z.gtb_spec h 0); eapply safe_at_bind.
  - apply (safe_at_bind _ _ _ _ (λ s _, string_bound (options_ r1) s) (safe_CheckStringLength r1 h 2 Hr1 ltac:(done))).
    intros [|] r2 Hr2 _ Hc; cbn [negb]; [|apply safe_at_ret; [done|by rewrite (rstep_options _ _ S1)]].
    destruct Hc as (-> & Hc & _). apply safe_Utf16Payload_bound; [done|lia|done].
  - intros s r2 Hr2 _ Hs. by apply safe_at_ret.
  - unfold ReadUtf8Payload. eapply safe_at_bind; [by apply safe_ReadRaw|]. intros ? r2 Hr2 S2 _.
    eapply (safe_at_bind _ _ _ _ (λ o _, if o is Some s then string_bound (options_ r1) s else True));
      [by apply safe_CheckStringLength|].
    intros [|] r3 Hr3 _ Hc; cbn [negb]; [|by apply safe_at_ret]. destruct Hc as (-> & Hc & _).
    eapply safe_at_mono; [apply safe_take_bytes; [done|unfold Z.lnot; lia]|].
    intros [s|] ? _ Hs; [|done]. destruct Hs as (Hz & Hs & _). split; [done|]. rewrite (rstep_options _ _ S2) in Hc. lia.
  - intros o r2 Hr2 _ Ho. apply safe_at_ret; [done|]. destruct o; [done|]. by rewrite (rstep_options _ _ S1).
Qed.

#[global] Instance string_decoded : Decoded string := λ o s, string_bound o (bytes_of s).

#[global] Instance string_decoded_laws : DecodedLaws string.
Proof.
  assert (Hnil : ∀ o, string_bound o []) by (intros o; split; [constructor|zlia]). split; [done| |by intros o s Hs].
  intros old r Hr _. cbn [Deserialize string_formatter]. unfold ReadStringInto.
  eapply safe_at_bind; [eapply safe_at_bind; [by apply safe_ReadString_bound|]|].
  - intros s r1 Hr1 _ Hs. apply (safe_at_ret _ _ (λ p _, string_bound (options_ r) p.2)); [done|]. by destruct s.
  - intros p r1 Hr1 _ Hp. by apply safe_at_ret.
Qed.

(** The UTF-16 form of a string has no more units than the string has bytes. *)
Lemma push_utf16_units cp : Forall unit_ok (push_utf16 cp) ∧ zlen (push_utf16 cp) ≤ 2 ∧ (cp ≤ 0xFFFF → zlen (push_utf16 cp) = 1).
Proof.
  assert (Hu : ∀ v, unit_ok (to_unsigned 2 v)) by (intros v; apply (to_unsigned_ok 2)).
  unfold push_utf16. destruct (Z.leb_spec cp 0xFFFF); (split; [repeat constructor; apply Hu|]); unfold zlen; cbn; lia.
Qed.

Lemma utf8_to_utf16_units s : bytes_ok s → Forall unit_ok (utf8_to_utf16 s) ∧ zlen (utf8_to_utf16 s) ≤ zlen s.
Proof.
  remember (length s) as n eqn:En. assert (Hn : (length s ≤ n)%nat) by lia. clear En.
  revert s Hn. induction n as [|n IH]; intros [|b0 s] Hn Hb; cbn [length] in Hn; try (by split; [constructor|]); [lia|].
  apply Forall_cons in Hb as [Hb0 Hb].
  assert (Hcons : ∀ cp k s', (length s' ≤ n)%nat → bytes_ok s' → zlen (push_utf16 cp) ≤ k →
    Forall unit_ok (push_utf16 cp ++ utf8_to_utf16 s') ∧ zlen (push_utf16 cp ++ utf8_to_utf16 s') ≤ k + zlen s').
  { intros cp k s' Hs' Hb' Hk. destruct (IH s' Hs' Hb') as [IH1 IH2]. rewrite zlen_app.
    split; [apply Forall_app; split; [apply push_utf16_units|done]|lia]. }
  assert (H2 : ∀ cp, zlen (push_utf16 cp) ≤ 2) by (intros cp; apply push_utf16_units).
  cbn [utf8_to_utf16]. rewrite zlen_cons. destruct (Z.ltb_spec b0 0x80).
  { apply (Hcons b0 1 s); [lia|done|]. pose proof (proj2 (proj2 (push_utf16_units b0))). lia. }
  repeat match goal with |- context [if ?c then _ else _] => destruct c end;
    repeat match goal with |- context [match ?l with [] => _ | _ :: _ => _ end] => destruct l as [|? ?]; cbn [length] in * end;
    rewrite ?zlen_cons; try (split; [constructor|zlia]);
    repeat (apply Forall_cons in Hb as [? Hb]);
    match goal with |- context [push_utf16 ?cp ++ utf8_to_utf16 ?s'] =>
      destruct (Hcons cp 2 s' ltac:(lia) Hb (H2 _)) as [? ?]; split; [done|lia] end.
Qed.

#[global] Instance u16string_decoded : Decoded u16string :=
  λ o s, Forall unit_ok (units_of s) ∧ zlen (units_of s) ≤ 3 * Z.max 0 (maxStringLength o).

#[global] Instance u16string_decoded_laws : DecodedLaws u16string.
Proof.
  assert (Hnil : ∀ o, decoded o (Str16 [])) by (intros o; split; cbn; [constructor|zlia]). split; [done| |done].
  intros old r Hr _. cbn [Deserialize u16string_formatter]. unfold u16_Deserialize.
  eapply safe_at_bind; [by apply safe_ReadString_bound|]. intros [s|] r1 Hr1 _ Hs; (apply safe_at_ret; [done|]); [|apply Hnil].
  destruct Hs as [Hb Hl]. destruct (utf8_to_utf16_units s Hb). by split; [|cbn; lia].
Qed.

(** A bounded string can be written back. *)
Lemma string_bound_ok o s : string_bound o s → maxStringLength o < 2 ^ 28 → string_ok s.
Proof.
  intros [Hb Hz] Ho. zlen_pos. split; [done|]. split; [lia|].
  rewrite utf16_length_count by done. pose proof (count_units_bound s 0). lia.
Qed.
End String.

(** ** Sequences *)

Section Vector.
Context `{Platform}.

Lemma chunks_lengths n m (bs : list Z) : bytes_ok bs → length bs = (n * m)%nat →
  length (chunks n m bs) = n ∧ Forall (λ c, bytes_ok c ∧ length c = m) (chunks n m bs).
Proof.
  revert bs. induction n as [|n IH]; intros bs Hb Hl; [by split; [|constructor]|]. cbn [chunks length].
  destruct (IH (drop m bs)) as [IH1 IH2]; [by apply Forall_drop|rewrite length_drop; lia|].
  split; [by rewrite IH1|]. constructor; [|done]. split; [by apply Forall_take|]. rewrite length_take. lia.
Qed.

Lemma safe_read_all_inv {A} (P : A → Prop) n (m : R A) out :
  (∀ r, r_ok r → safe_at r m (λ x _, P x)) → Forall P out →
  ∀ r, r_ok r → safe_at r (read_all n m out) (λ l _, Forall P l ∧ length l = (length out + n)%nat).
Proof.
  intros Hm. revert out. induction n as [|n IH]; intros out Ho r Hr; cbn [read_all].
  - apply safe_at_ret; [done|]. split; [done|lia].
  - eapply safe_at_bind; [by apply Hm|]. intros x r1 Hr1 _ Hx. eapply safe_at_mono.
    + apply IH; [|done]. apply Forall_app. by split; [|constructor].
    + intros l ? _ [Hl1 Hl2]. split; [done|]. rewrite length_app in Hl2. cbn in Hl2. lia.
Qed.

Definition vector_bound (t : arith_ty) (o : ReaderOptions) (l : list Z) : Prop :=
  Forall (arith_ok t) l ∧ zlen l ≤ Z.max 0 (maxCollectionLength o) ∧ zlen l < 2 ^ 31.

(** [ReadVector] on any input: elements of the type, no more than the limit. *)
Lemma safe_ReadVector_bound t r : t ≠ Bool_t → r_ok r →
  safe_at r (ReadVector t) (λ l _, vector_bound t (options_ r) l).
Proof.
  intros Ht Hr. assert (Hnil : vector_bound t (options_ r) []) by (split; [constructor|split; [zlia|done]]).
  pose proof (sizeof_pos t). unfold ReadVector. eapply safe_at_bind; [apply safe_ReadCollectionLength; [done|lia]|].
  intros len r1 Hr1 S1 Hlen. destruct (Z.leb_spec len 0); [by apply safe_at_ret|].
  pose proof (accepted_no_wrap (sizeof t) len r1 Hr1 ltac:(lia) Hlen ltac:(lia)) as Hnw.
  destruct Hlen as [?|(Hlen & Hmax & Hroom)]; [lia|]. rewrite (rstep_options _ _ S1) in Hmax.
  destruct native_little eqn:En.
  - eapply safe_at_bind; [by apply safe_take_block|]. intros [bs|] r2 Hr2 _ Hbs; apply safe_at_ret; try done.
    destruct Hbs as [Hz Hb]. unfold zlen, sizeof in Hz.
    destruct (chunks_lengths (Z.to_nat len) (arith_size t) bs Hb) as [Hc1 Hc2]; [lia|].
    split; [|unfold zlen; rewrite length_fmap, Hc1; lia]. apply Forall_fmap. eapply Forall_impl; [exact Hc2|].
    intros c [Hc Hcl]. pose proof (endian_convert_of_object_bytes t c Hc Hcl) as E. unfold endian_convert in E.
    rewrite En in E. cbn [orb] in E. unfold compose. rewrite E. by apply wire_value_ok.
  - rewrite Z.mod_small by lia. eapply safe_at_bind; [by apply safe_EnsureBytes|].
    intros [|] r2 Hr2 _ _; cbn [negb]; [|by apply safe_at_ret].
    eapply safe_at_mono; [apply (safe_read_all_inv (arith_ok t)); [intros; by apply safe_ReadRaw|constructor|done]|].
    intros l ? _ [Hl1 Hl2]. split; [done|]. unfold zlen. cbn in Hl2. rewrite Hl2. lia.
Qed.

(** Elements copied from the input, without conversion. *)
Lemma block_values_raw t n (bs : list Z) : native_little = true → bytes_ok bs → length bs = (n * arith_size t)%nat →
  length (of_object_bytes t <$> chunks n (arith_size t) bs) = n ∧
  Forall (raw_ok t) (of_object_bytes t <$> chunks n (arith_size t) bs).
Proof.
  intros En Hb Hl. destruct (chunks_lengths n (arith_size t) bs Hb Hl) as [H1 H2]. rewrite length_fmap. split; [done|].
  apply Forall_fmap. eapply Forall_impl; [exact H2|]. intros c [Hc Hcl]. pose proof (copied_raw t c Hc Hcl) as E.
  unfold endian_convert in E. by rewrite En in E.
Qed.

(** An array that was partly written: its size is kept, and an element is either one of
    the type or was there before. *)
Definition array_written (t : arith_ty) (arr arr' : list Z) : Prop :=
  length arr' = length arr ∧ ∀ z, z ∈ arr' → raw_ok t z ∨ z ∈ arr.

Lemma array_written_refl t arr : array_written t arr arr.
Proof. split; [done|]. by right. Qed.

Lemma array_written_front t arr vs n : length vs = Z.to_nat n → n ≤ zlen arr → Forall (raw_ok t) vs →
  array_written t arr (overwrite 0 vs arr).
Proof.
  intros Hl Hn Hv. rewrite overwrite_front. split; [rewrite length_app, length_drop; unfold zlen in *; lia|].
  intros z [Hz|Hz]%elem_of_app; [left; by eapply Forall_forall in Hv|right; rewrite <-(take_drop (length vs) arr); apply elem_of_app; by right].
Qed.

(** [ReadArray] on any input: it stays inside the array and reports no more than fits. *)
Lemma safe_ReadArrayKept_written t arr n r : r_ok r → 0 ≤ n * sizeof t < size_mod → n ≤ zlen arr →
  safe_at r (ReadArrayKept t arr n) (λ kept _, ∀ arr', kept = Some arr' → array_written t arr arr').
Proof.
  intros Hr Hn Hfit. pose proof (sizeof_pos t). unfold ReadArrayKept. destruct (Z.gtb_spec n (zlen arr)); [lia|].
  destruct native_little eqn:En.
  - eapply safe_at_bind; [by apply safe_take_block|]. intros [bs|] r1 Hr1 _ Hb; (apply safe_at_ret; [done|]); [|done].
    destruct Hb as [Hz Hb]. intros arr' [= <-]. unfold zlen, sizeof in Hz.
    destruct (block_values_raw t (Z.to_nat n) bs En Hb) as [Hl Hv]; [lia|]. by apply (array_written_front t arr _ n).
  - eapply safe_at_bind; [by apply safe_EnsureBytes|]. intros [|] r1 Hr1 _ _; cbn [negb]; [|by apply safe_at_ret].
    eapply safe_at_bind; [apply (safe_read_all_inv (raw_ok t)); [intros; by apply safe_ReadRaw_raw|constructor|done]|].
    intros vs r2 Hr2 _ [Hv Hl]. apply safe_at_ret; [done|]. intros arr' [= <-]. by apply (array_written_front t arr vs n).
Qed.

Lemma safe_ReadArray_bound t arr n : 0 ≤ n ≤ zlen arr →
  safe (ReadArray t arr n) (λ x _, 0 ≤ x.1 ≤ n ∧ array_written t arr x.2).
Proof.
  intros Hn r Hr. pose proof (sizeof_pos t). pose proof (array_written_refl t arr) as Hsame. unfold ReadArray.
  eapply safe_at_bind; [apply safe_ReadCollectionLength; [done|lia]|]. intros len r1 Hr1 S1 Hlen.
  destruct (Z.leb_spec len 0); [apply safe_at_ret; [done|]; cbn; split; [lia|done]|].
  pose proof (accepted_no_wrap (sizeof t) len r1 Hr1 ltac:(lia) Hlen ltac:(lia)). set (k := if len <=? n then len else n).
  assert (Hk : 0 ≤ k ≤ len ∧ k ≤ n) by (unfold k; destruct (Z.leb_spec len n); lia).
  eapply (safe_at_bind _ _ _ (λ kept _, ∀ arr', kept = Some arr' → array_written t arr arr')).
  - destruct (Z.gtb_spec k 0); [apply safe_ReadArrayKept_written; [done|nia|lia]|].
    apply safe_at_ret; [done|]. by intros arr' [= <-].
  - intros [arr'|] r2 Hr2 _ Ha; [|apply safe_at_ret; [done|]; cbn; split; [lia|done]].
    eapply safe_at_bind; [by apply safe_ReadArraySkip|]. intros _ r3 Hr3 _ _. apply safe_at_ret; [done|].
    split; [cbn; lia|by apply Ha].
Qed.

End Vector.

(** *** Containers filled by a loop *)

Section Fill.
Context `{Platform}.

(** Whatever was read, the loop ends with an invariant [I k] of the [k] elements it
    inserted. *)
Lemma safe_read_fold_count {A B} o (P : A → Prop) (I : nat → B → Prop) n (m : R A) (ins : B → A → B) k acc :
  (∀ r, r_ok r → options_ r = o → safe_at r m (λ x _, P x)) →
  (∀ k b x, I k b → P x → I (S k) (ins b x)) → I k acc →
  ∀ r, r_ok r → options_ r = o → safe_at r (read_fold n m ins acc) (λ b _, ∃ j, (j ≤ n)%nat ∧ I (k + j)%nat b).
Proof.
  intros Hm Hins. revert k acc. induction n as [|n IH]; intros k acc Hacc r Hr Ho; cbn [read_fold].
  { apply safe_at_ret; [done|]. exists 0%nat. by rewrite Nat.add_0_r. }
  apply safe_at_gets_bind. destruct (Failed r).
  { apply safe_at_ret; [done|]. exists 0%nat. rewrite Nat.add_0_r. split; [lia|done]. }
  eapply safe_at_bind; [by apply Hm|]. intros x r1 Hr1 S1 Hx. eapply safe_at_mono.
  - apply (IH (S k)); [by apply Hins|done|by rewrite (rstep_options _ _ S1)].
  - intros b ? _ (j & Hj & HI). exists (S j). rewrite Nat.add_succ_r. split; [lia|done].
Qed.

(** At most as many elements as the limit allows. *)
Definition size_bound (o : ReaderOptions) (n : Z) : Prop := n ≤ Z.max 0 (maxCollectionLength o) ∧ n < 2 ^ 31.

Lemma size_bound_0 o : size_bound o 0.
Proof. split; [lia|done]. Qed.

Lemma safe_filled {A B} (P : A → Prop) (I : nat → B → Prop) minEntry (m : R A) (ins : B → A → B) acc r :
  0 < minEntry → r_ok r →
  (∀ r', r_ok r' → options_ r' = options_ r → safe_at r' m (λ x _, P x)) →
  (∀ k b x, I k b → P x → I (S k) (ins b x)) → I 0%nat acc →
  safe_at r (len ← ReadCollectionLength minEntry;
             if len <=? 0 then mret acc else read_fold (Z.to_nat len) m ins acc)
    (λ b _, ∃ k, size_bound (options_ r) (Z.of_nat k) ∧ I k b).
Proof.
  intros Hmin Hr Hm Hins Hacc. eapply safe_at_bind; [by apply safe_ReadCollectionLength|].
  intros len r1 Hr1 S1 Hlen. destruct (Z.leb_spec len 0).
  { apply safe_at_ret; [done|]. exists 0%nat. split; [apply size_bound_0|done]. }
  destruct Hlen as [?|(Hlen & Hmax & _)]; [lia|]. rewrite (rstep_options _ _ S1) in Hmax.
  eapply safe_at_mono; [by apply (safe_read_fold_count (options_ r) P I), (rstep_options _ _ S1)|].
  intros b ? _ (j & Hj & HI). exists j. split; [|done]. unfold size_bound. lia.
Qed.
End Fill.

Section Sequences.
Context `{Platform} {T : Type} `{!MemoryPackFormatter T, !Decoded T, !DecodedLaws T}.

Lemma safe_Read_decoded r : r_ok r → safe_at r (Read (T := T)) (λ x _, decoded (options_ r) x).
Proof. intros Hr. apply law_decoded; [done|apply decoded_init]. Qed.

(** Elements of their type, no more than the limit. *)
Definition decoded_list (o : ReaderOptions) (l : list T) : Prop :=
  Forall (decoded o) l ∧ size_bound o (zlen l).

Lemma decoded_list_nil o : decoded_list o [].
Proof. split; [constructor|apply size_bound_0]. Qed.

Lemma safe_elements_decoded minEntry r : 0 < minEntry → r_ok r →
  safe_at r (len ← ReadCollectionLength minEntry;
             if len <=? 0 then mret [] else read_fold (Z.to_nat len) Read push_back [])
    (λ l _, decoded_list (options_ r) l).
Proof.
  intros Hmin Hr. eapply safe_at_mono.
  - apply (safe_filled (decoded (options_ r)) (λ k l, Forall (decoded (options_ r)) l ∧ zlen l = Z.of_nat k)); [done|done| | |done].
    + intros r1 Hr1 <-. by apply safe_Read_decoded.
    + intros k l x [Hl Hk] Hx. unfold push_back. rewrite zlen_app, zlen_cons, zlen_nil, Forall_app.
      split; [by split; [|constructor]|lia].
  - intros l ? _ (k & Hk & Hl & E). split; [done|]. by rewrite E.
Qed.

Lemma safe_ReadVectorBool_bound r : r_ok r → safe_at r ReadVectorBool (λ l _, size_bound (options_ r) (zlen l)).
Proof.
  intros Hr. unfold ReadVectorBool. eapply safe_at_bind; [by apply safe_ReadCollectionLength|].
  intros len r1 Hr1 S1 Hlen. destruct (Z.leb_spec len 0); [apply safe_at_ret; [done|apply size_bound_0]|].
  pose proof (accepted_no_wrap 1 len r1 Hr1 ltac:(lia) Hlen ltac:(lia)).
  destruct Hlen as [?|(Hlen & Hmax & _)]; [lia|]. rewrite (rstep_options _ _ S1) in Hmax.
  eapply safe_at_bind; [by apply safe_take_block|]. intros [bs|] r2 Hr2 _ Hbs; (apply safe_at_ret; [done|]); [|apply size_bound_0].
  destruct Hbs as [Hz _]. unfold size_bound, zlen in *. rewrite length_fmap. lia.
Qed.

Lemma safe_ReadCollection_decoded r : r_ok r →
  safe_at r (ReadCollection (T := T)) (λ l _, decoded_list (options_ r) l).
Proof.
  intros Hr. pose proof (MinEncodedSize_pos (kind : type_kind T)) as Hm.
  assert (Hm' : 0 < MinEncodedSize (kind : type_kind T)) by lia.
  pose proof (safe_elements_decoded _ r Hm' Hr) as He. pose proof law_bulk as Hb.
  unfold ReadCollection. destruct (kind : type_kind T) as [t to un|t to un| | | | |];
    try exact He.
  destruct (decide (t = Bool_t)) as [->|Ht].
  - eapply safe_at_bind; [by apply safe_ReadVectorBool_bound|]. intros l r1 Hr1 _ Hl. apply safe_at_ret; [done|].
    split; [|unfold zlen in *; by rewrite length_fmap]. apply Forall_fmap, Forall_forall. intros b _. by apply Hb; destruct b.
  - enough (safe_at r (l ← ReadVector t; mret (un <$> l)) (λ l _, decoded_list (options_ r) l)) by by destruct t.
    eapply safe_at_bind; [by apply safe_ReadVector_bound|]. intros l r1 Hr1 _ (Hl & Hs). apply safe_at_ret; [done|].
    split; [|unfold zlen in *; by rewrite length_fmap]. apply Forall_fmap. eapply Forall_impl; [exact Hl|]. intros z. apply Hb.
Qed.

#[global] Instance vector_decoded : Decoded (vector T) := λ o v, decoded_list o (elements v).

#[global] Instance vector_decoded_laws `{!WireFormat T} : DecodedLaws (vector T).
Proof.
  split; [apply decoded_list_nil| |done]. intros old r Hr _.
  eapply safe_at_bind; [by apply safe_ReadCollection_decoded|]. intros l r1 Hr1 _ Hl. by apply safe_at_ret.
Qed.

#[global] Instance sequence_decoded : Decoded (sequence T) := λ o v, decoded_list o (items v).

#[global] Instance sequence_decoded_laws `{!WireFormat T} : DecodedLaws (sequence T).
Proof.
  split; [apply decoded_list_nil| |done]. intros old r Hr _.
  eapply safe_at_bind; [apply (safe_elements_decoded (ContainerMinSize (T := T) kind)); [|done]|].
  - pose proof (ContainerMinSize_bounds (kind : type_kind T)). lia.
  - intros l r1 Hr1 _ Hl. by apply safe_at_ret.
Qed.

(** An element of an array or of an optional, which copy a [bool] as it is. *)
Definition copied_decoded (o : ReaderOptions) (v : T) : Prop :=
  decoded o v ∨ match kind with Arithmetic Bool_t _ un => ∃ z, byte_ok z ∧ v = un z | _ => False end.

Lemma copied_arith t to un o z : kind = Arithmetic t to un → raw_ok t z → copied_decoded o (un z).
Proof.
  intros Ek Hz. unfold copied_decoded. rewrite Ek. destruct (decide (t = Bool_t)) as [->|Ht]; [right; by exists z|].
  left. pose proof law_bulk as Hb. rewrite Ek in Hb. by apply Hb, raw_ok_arith.
Qed.

Lemma copied_init o : copied_decoded o value_init.
Proof. left. apply decoded_init. Qed.

#[global] Instance array_decoded N : Decoded (array T N) :=
  λ o v, length (cells v) = N ∧ Forall (copied_decoded o) (cells v).

Lemma array_decoded_init N o :
  length (replicate N (value_init (T := T))) = N ∧ Forall (copied_decoded o) (replicate N (value_init (T := T))).
Proof. split; [apply length_replicate|]. apply Forall_replicate, copied_init. Qed.

(** [if (i < N) v[i] = tmp;] *)
Lemma array_store_decoded N o (st : nat * list T) x : length st.2 = N ∧ Forall (copied_decoded o) st.2 → decoded o x →
  length (array_store N st x).2 = N ∧ Forall (copied_decoded o) (array_store N st x).2.
Proof.
  intros [Hl Hv] Hx. unfold array_store. cbn [snd]. destruct (st.1 <? N)%nat; [|done].
  split; [by rewrite length_insert|]. apply Forall_insert; [done|by left].
Qed.

Lemma safe_array_decoded `{!WireFormat T, !FormatterLaws T} N r : r_ok r →
  safe_at r (array_Deserialize (T := T) N) (λ l _, length l = N ∧ Forall (copied_decoded (options_ r)) l).
Proof.
  intros Hr. pose proof (array_decoded_init N (options_ r)) as Hi. unfold array_Deserialize.
  assert (Hgen : safe_at r (len ← ReadCollectionLength 1;
      if len <=? 0 then mret (replicate N value_init) else
      st ← read_fold (Z.to_nat len) Read (array_store N) (O, replicate N (value_init (T := T))); mret st.2)
    (λ l _, length l = N ∧ Forall (copied_decoded (options_ r)) l)).
  { eapply safe_at_bind; [by apply safe_ReadCollectionLength|]. intros len r1 Hr1 S1 _.
    destruct (len <=? 0); [by apply safe_at_ret|]. eapply safe_at_bind.
    - apply (safe_read_fold_count (options_ r) (decoded (options_ r))
        (λ _ st, length st.2 = N ∧ Forall (copied_decoded (options_ r)) st.2) _ _ _ 0).
      + intros r2 Hr2 <-. by apply safe_Read_decoded.
      + intros _ st x. apply array_store_decoded.
      + done.
      + done.
      + apply (rstep_options _ _ S1).
    - intros st r2 Hr2 _ (_ & _ & Hst). by apply safe_at_ret. }
  pose proof law_kind as Hk. pose proof copied_arith as Hc.
  destruct (kind : type_kind T) as [t to un| | | | | |] eqn:Ek; try exact Hgen. destruct Hk as [Hun _].
  eapply safe_at_bind; [apply safe_ReadArray_bound; [|done]|].
  { unfold zlen. rewrite length_fmap, length_replicate. lia. }
  intros [n arr] r1 Hr1 _ (_ & Hl & Hz). rewrite length_fmap, length_replicate in Hl. apply safe_at_ret; [done|].
  cbn [snd] in *. split; [by rewrite length_fmap|]. apply Forall_fmap, Forall_forall. intros z Hin. unfold compose.
  destruct (Hz z Hin) as [Hraw|Hold]; [by apply (Hc t to)|].
  apply list_elem_of_fmap in Hold as (v & -> & [-> _]%elem_of_replicate). rewrite Hun. apply copied_init.
Qed.

#[global] Instance array_decoded_laws `{!WireFormat T, !FormatterLaws T} N : DecodedLaws (array T N).
Proof.
  split; [apply array_decoded_init| |done]. intros old r Hr _.
  eapply safe_at_bind; [by apply safe_array_decoded|]. intros l r1 Hr1 _ Hl. by apply safe_at_ret.
Qed.
End Sequences.

(** ** Objects *)

Section Object.
Context `{Platform} {V : Type} `{Members V} (P : ReaderOptions → V → Prop).

(** Reading member [m] keeps the invariant of the object. *)
Definition member_keeps (m : member V) : Prop := ∀ v r, r_ok r → P (options_ r) v →
  safe_at r (ReadInto (m_get m v)) (λ x _, P (options_ r) (m_set m x v)).

Lemma safe_read_members_inv count (ms : list (member V)) : Forall member_keeps ms → ∀ index v r,
  r_ok r → P (options_ r) v → safe_at r (read_members count index ms v) (λ v' _, P (options_ r) v').
Proof.
  induction 1 as [|m ms Hm _ IH]; intros index v r Hr Hv; [by apply safe_at_ret|]. cbn [read_members].
  eapply (safe_at_bind _ _ _ (λ v' _, P (options_ r) v')).
  - destruct (count >? index); [|by apply safe_at_ret]. eapply safe_at_bind; [by apply Hm|].
    intros x r1 Hr1 _ Hx. by apply safe_at_ret.
  - intros v' r1 Hr1 S1 Hv'. rewrite <-(rstep_options _ _ S1) in *. by apply IH.
Qed.

(** An invariant of the default value and of every member assignment holds of every
    object read, whatever the input. *)
Lemma safe_Define_inv old r : r_ok r → P (options_ r) default_value → Forall member_keeps members →
  P (options_ r) old → safe_at r (Define_Deserialize old) (λ v _, P (options_ r) v).
Proof.
  intros Hr Hd Hm Hold. unfold Define_Deserialize. eapply safe_at_bind; [by apply safe_ReadObjectHeader|].
  intros h r1 Hr1 S1 _. destruct (isNull h); [by apply safe_at_ret|].
  eapply safe_at_bind; [by apply safe_EnterObject|]. intros [|] r2 Hr2 S2 _; [|by apply safe_at_ret].
  assert (E : options_ r2 = options_ r) by by rewrite (rstep_options _ _ S2), (rstep_options _ _ S1).
  rewrite <-E in *. eapply safe_at_bind; [by apply safe_read_members_inv|]. intros v r3 Hr3 _ Hv.
  eapply safe_at_bind; [by apply safe_LeaveObject|]. intros _ r4 Hr4 _ _. by apply safe_at_ret.
Qed.
End Object.

(** The usual way to show [member_keeps]: a property of the member alone. *)
Lemma member_keeps_decoded `{Platform} {V} `{Members V} (P : ReaderOptions → V → Prop) (m : member V)
    `{!Decoded (m_type m), !DecodedLaws (m_type m)} :
  (∀ o v, P o v → decoded o (m_get m v)) → (∀ o v x, P o v → decoded o x → P o (m_set m x v)) →
  member_keeps P m.
Proof.
  intros Hget Hset v r Hr Hv. eapply safe_at_mono; [apply law_decoded; [done|by apply Hget]|].
  intros x r' _ Hx. by apply Hset.
Qed.
