(* ===== verification/Union.v ===== *)
(** [std::variant] as a MemoryPack union ([containers.hpp]): a tag, then the
    alternative's own encoding. *)
From S2P Require Import Prelude Endian Writer Reader Headers Utf Strings Formatter Collections Objects.

(** ** Alternatives *)

(** One alternative of a variant [V] with its [MemoryPackUnionTag]: [a_proj] is
    [std::get_if], [a_inj] the converting constructor. *)
Record alternative (V : Type) := Alternative {
  a_type : Type;
  a_fmt : MemoryPackFormatter a_type;
  a_tag : Z;
  a_inj : a_type → V;
  a_proj : V → option a_type;
}.
Arguments Alternative {V} a_type {a_fmt} a_tag a_inj a_proj.
Arguments a_type {V}.
Arguments a_fmt {V}.
Arguments a_tag {V}.
Arguments a_inj {V}.
Arguments a_proj {V}.

#[export] Existing Instance a_fmt.

(** [std::variant<Ts...>]; [first_alternative] is [V{}]. *)
Class Variant (V : Type) := {
  first_alternative : V;
  alternatives : list (alternative V);
}.

Section Operations.
Context `{Platform} {V : Type}.

(** [std::visit] with the writing lambda. A variant left valueless by an exception has no
    value here: [std::visit] would throw [std::bad_variant_access], which is not one of
    the outcomes modelled. *)
Fixpoint visit_alternatives (alts : list (alternative V)) (v : V) : W unit :=
  match alts with
  | [] => undefined
  | a :: alts' =>
      match a_proj a v with
      | Some x => WriteUnionHeader (a_tag a) ;; Write x
      | None => visit_alternatives alts' v
      end
  end.

(** [detail::ReadUnionAlternative]: the first alternative with the tag is emplaced
    and read. [None] is [handled == false]. *)
Fixpoint ReadUnionAlternative (alts : list (alternative V)) (tag : Z) : R (option V) :=
  match alts with
  | [] => mret None
  | a :: alts' =>
      if a_tag a =? tag then x ← Read; mret (Some (a_inj a x))
      else ReadUnionAlternative alts' tag
  end.

Context `{Variant V}.

Definition variant_Serialize (v : V) : W unit := visit_alternatives alternatives v.

Definition variant_Deserialize (v : V) : R V :=
  tag ← ReadUnionHeader;
  match tag with
  | None => mret first_alternative
  | Some tag =>
      handled ← ReadUnionAlternative alternatives tag;
      match handled with
      | Some v' => mret v'
      | None => remaining ← gets Remaining; Advance remaining ;; mret v
      end
  end.

#[global] Instance variant_formatter : MemoryPackFormatter V := {
  value_init := first_alternative;
  kind := OtherType;
  Serialize := variant_Serialize;
  Deserialize := variant_Deserialize;
}.
End Operations.

(** ** Specification *)

Record alternative_spec `{Platform} (V : Type) := AlternativeSpec {
  as_alt : alternative V;
  as_wire : WireFormat (a_type as_alt);
  as_laws : FormatterLaws (a_type as_alt);
}.
Arguments AlternativeSpec {_ V} as_alt {as_wire as_laws}.
Arguments as_alt {_ V}.
Arguments as_wire {_ V}.
Arguments as_laws {_ V}.

#[export] Existing Instances as_wire as_laws.

(** Tags fit [uint16_t] and are distinct; injections and projections agree. *)
Class VariantLaws `{Platform} (V : Type) `{Variant V} := {
  alt_specs : list (alternative_spec V);
  alt_specs_alternatives : as_alt <$> alt_specs = alternatives;
  alt_tags : Forall (λ a, 0 ≤ a_tag (as_alt a) < 65536) alt_specs;
  alt_distinct : NoDup ((λ a, a_tag (as_alt a)) <$> alt_specs);
  alt_inj_proj : ∀ a v x, a ∈ alt_specs → a_proj (as_alt a) v = Some x → a_inj (as_alt a) x = v;
  alt_covered : ∀ v, Exists (λ a, is_Some (a_proj (as_alt a) v)) alt_specs;
}.

Section VariantFacts.
Context `{Platform} {V : Type}.

(** Encoding of the alternative a value holds. *)
Fixpoint enc_alternatives (alts : list (alternative_spec V)) (v : V) : list Z :=
  match alts with
  | [] => []
  | a :: alts' =>
      match a_proj (as_alt a) v with
      | Some x => enc_union_header (a_tag (as_alt a)) ++ enc x
      | None => enc_alternatives alts' v
      end
  end.

(** [a] is the alternative [std::visit] selects, holding [x]. *)
Inductive holds (v : V) : list (alternative_spec V) → ∀ a : alternative_spec V, a_type (as_alt a) → Prop :=
  | holds_here a alts x : a_proj (as_alt a) v = Some x → holds v (a :: alts) a x
  | holds_later b alts a x : a_proj (as_alt b) v = None → holds v alts a x → holds v (b :: alts) a x.

Lemma holds_exists alts v : Exists (λ a, is_Some (a_proj (as_alt a) v)) alts → ∃ a x, holds v alts a x.
Proof.
  induction alts as [|b alts IH]; intros Hex; [by apply Exists_nil in Hex|].
  destruct (a_proj (as_alt b) v) as [y|] eqn:Ep; [exists b, y; by constructor|].
  apply Exists_cons in Hex as [Hb|Hex]; [by rewrite Ep in Hb; destruct Hb|].
  destruct (IH Hex) as (a & x & Ha). exists a, x. by constructor.
Qed.

Lemma holds_elem v alts a x : holds v alts a x → a ∈ alts ∧ a_proj (as_alt a) v = Some x.
Proof. induction 1 as [|b alts a x Hb Ha [IH1 IH2]]; split; [left|done|by right|done]. Qed.

Lemma holds_enc v alts a x : holds v alts a x →
  enc_alternatives alts v = enc_union_header (a_tag (as_alt a)) ++ enc x.
Proof. induction 1 as [a alts x Hx|b alts a x Hb Ha IH]; cbn; [by rewrite Hx|by rewrite Hb]. Qed.

Lemma holds_visit v alts a x : holds v alts a x →
  visit_alternatives (as_alt <$> alts) v = (WriteUnionHeader (a_tag (as_alt a)) ;; Write x).
Proof. induction 1 as [a alts x Hx|b alts a x Hb Ha IH]; cbn; [by rewrite Hx|by rewrite Hb]. Qed.

Lemma safe_ReadUnionAlternative (alts : list (alternative_spec V)) tag :
  safe (ReadUnionAlternative (as_alt <$> alts) tag) anything.
Proof.
  induction alts as [|a alts IH]; [intros r Hr; by apply safe_at_ret|].
  rewrite fmap_cons. cbn [ReadUnionAlternative]. destruct (_ =? _); [apply safe_map, law_safe|apply IH].
Qed.

(** The tag selects the alternative that was written. *)
Lemma reads_alternative o d v alts a x :
  NoDup ((λ a : alternative_spec V, a_tag (as_alt a)) <$> alts) → holds v alts a x → 0 ≤ d → wf x → within o d x →
  reads o d (ReadUnionAlternative (as_alt <$> alts) (a_tag (as_alt a))) (enc x) (Some (a_inj (as_alt a) x)).
Proof.
  intros Hnd Ha Hd Hwf Hwi. induction Ha as [a alts x Hx|b alts a x Hb Ha IH];
    rewrite fmap_cons in *; cbn [ReadUnionAlternative].
  - rewrite Z.eqb_refl. apply (reads_map o d Read (λ x, Some (a_inj (as_alt a) x))); [|apply law_safe].
    by apply law_reads.
  - apply NoDup_cons in Hnd as [Hni Hnd]. destruct (Z.eqb_spec (a_tag (as_alt b)) (a_tag (as_alt a))) as [E|_].
    + destruct Hni. apply holds_elem in Ha as [Ha _]. rewrite E.
      by apply (list_elem_of_fmap_2 (λ a : alternative_spec V, a_tag (as_alt a))).
    + by apply IH.
Qed.

Lemma ReadUnionAlternative_unknown (alts : list (alternative_spec V)) tag : (∀ a : alternative_spec V, a ∈ alts → a_tag (as_alt a) ≠ tag) →
  ReadUnionAlternative (as_alt <$> alts) tag = mret None.
Proof.
  induction alts as [|a alts IH]; intros Ht; [done|]. rewrite fmap_cons. cbn [ReadUnionAlternative].
  destruct (Z.eqb_spec (a_tag (as_alt a)) tag) as [E|_]; [by destruct (Ht a ltac:(left))|].
  apply IH. intros b Hb. apply Ht. by right.
Qed.
End VariantFacts.

Section VariantLawsFacts.
Context `{Platform} {V : Type} `{VariantLaws V}.

#[global] Instance variant_wire : WireFormat V := {
  enc := enc_alternatives alt_specs;
  wf := λ v, ∀ a x, holds v alt_specs a x → wf x;
  within := λ o d v, ∀ a x, holds v alt_specs a x → within o d x;
}.

Definition variant_rest (old : V) (tag : option Z) : R V :=
  match tag with
  | None => mret first_alternative
  | Some tag =>
      handled ← ReadUnionAlternative alternatives tag;
      match handled with
      | Some v' => mret v'
      | None => remaining ← gets Remaining; Advance remaining ;; mret old
      end
  end.

Lemma safe_handled (old : V) handled :
  safe (match handled with
        | Some v' => mret v'
        | None => remaining ← gets Remaining; Advance remaining ;; mret old
        end) anything.
Proof.
  intros r Hr. destruct handled; [by apply safe_at_ret|]. apply safe_at_gets_bind.
  eapply safe_at_bind; [apply safe_Advance; [done|]|intros; by apply safe_at_ret].
  rewrite Remaining_spec by done. pose proof (ok_pos r Hr). lia.
Qed.

Lemma safe_variant_rest old tag : safe (variant_rest old tag) anything.
Proof.
  destruct tag as [tag|]; [|intros r Hr; by apply safe_at_ret]. cbn [variant_rest].
  apply safe_bind_anything; [rewrite <-alt_specs_alternatives; apply safe_ReadUnionAlternative|].
  intros handled. apply safe_handled.
Qed.

Lemma safe_ReadUnionHeader_any : safe ReadUnionHeader anything.
Proof. intros r Hr. eapply safe_at_anything. by apply safe_ReadUnionHeader. Qed.

Lemma holds_tag (v : V) a x : holds v alt_specs a x → 0 ≤ a_tag (as_alt a) < 65536.
Proof.
  intros Ha. apply holds_elem in Ha as [Ha _]. pose proof alt_tags as Ht. rewrite Forall_forall in Ht. by apply Ht.
Qed.

#[global] Instance variant_laws : FormatterLaws V.
Proof.
  split; cbn [Serialize Deserialize kind variant_formatter enc wf within variant_wire].
  - intros v Hwf. destruct (holds_exists alt_specs v (alt_covered v)) as (a & x & Ha).
    unfold variant_Serialize. rewrite <-alt_specs_alternatives, (holds_visit v _ _ _ Ha), (holds_enc v _ _ _ Ha).
    apply emits_bind; [by apply WriteUnionHeader_emits; eapply holds_tag|by eapply law_emits, Hwf].
  - intros o d v old Hd Hwf Hwi. destruct (holds_exists alt_specs v (alt_covered v)) as (a & x & Ha).
    rewrite (holds_enc v _ _ _ Ha). apply (reads_bind _ _ _ (variant_rest old) _ _ (Some (a_tag (as_alt a)))).
    + apply reads_ReadUnionHeader. by eapply holds_tag.
    + apply safe_ReadUnionHeader_any.
    + cbn [variant_rest]. rewrite <-alt_specs_alternatives.
      eapply (reads_bind_nil _ _ _ _ _ (Some v)); [|apply safe_ReadUnionAlternative|apply reads_ret|apply safe_handled].
      destruct (holds_elem v _ _ _ Ha) as [Hin Hp]. rewrite <-(alt_inj_proj a v x Hin Hp).
      apply (reads_alternative o d v); [apply alt_distinct|done|done|by eapply Hwf|by eapply Hwi].
    + apply safe_variant_rest.
  - intros old. apply safe_bind_anything; [apply safe_ReadUnionHeader_any|]. apply (safe_variant_rest old).
  - intros old. apply needs_bytes_bind; [|apply safe_ReadUnionHeader_any|apply (safe_variant_rest old)].
    apply needs_bytes_bind; [apply needs_bytes_ReadByte|apply safe_ReadByte_any|]. intros b. safe_go.
  - intros v Hwf. destruct (holds_exists alt_specs v (alt_covered v)) as (a & x & Ha).
    rewrite (holds_enc v _ _ _ Ha). cbn [MinEncodedSize].
    destruct (enc_union_header_head (a_tag (as_alt a))) as (b & bs & -> & _); [by apply (holds_tag v a x Ha)|]. zlia.
  - done.
  - intros v Hwf. destruct (holds_exists alt_specs v (alt_covered v)) as (a & x & Ha).
    rewrite (holds_enc v _ _ _ Ha). apply bytes_ok_app; [|by eapply law_bytes, Hwf].
    apply enc_union_header_ok. by apply (holds_tag v a x Ha).
Qed.

#[global] Instance variant_null_safe : NullSafe V.
Proof.
  intros v Hwf. destruct (holds_exists alt_specs v (alt_covered v)) as (a & x & Ha).
  cbn [enc variant_wire]. rewrite (holds_enc v _ _ _ Ha).
  destruct (enc_union_header_head (a_tag (as_alt a))) as (b & bs & -> & Hb); [by apply (holds_tag v a x Ha)|].
  by eexists _, _.
Qed.

(** A tag no alternative has: the value is left alone and all the input is skipped. *)
Lemma variant_unknown_tag o d r old tag x :
  ready o d r → 0 ≤ tag < 65536 → (∀ a : alternative_spec V, a ∈ alt_specs → a_tag (as_alt a) ≠ tag) →
  rest r = enc_union_header tag ++ x →
  variant_Deserialize old r = (Ret old, skip (zlen (rest r)) r).
Proof.
  intros Hr Htag Hno Hx.
  destruct (reads_ReadUnionHeader o d tag Htag r Hr) as [Hh _].
  change (variant_Deserialize old r) with ((ReadUnionHeader ≫= variant_rest old) r).
  rewrite (bind_Ret _ _ _ _ _ (Hh ltac:(rewrite Hx; by eexists))). cbn [variant_rest].
  rewrite <-alt_specs_alternatives, ReadUnionAlternative_unknown by done.
  destruct (ready_skip_prefix o d r _ _ Hr Hx) as [Hr1 Hx1].
  unfold mbind, M_bind, gets. cbn. rewrite Remaining_spec, <-rest_length, Hx1 by apply Hr1.
  destruct (reads_Advance o d (zlen x) x eq_refl _ Hr1) as [Ha _].
  rewrite Ha by (rewrite Hx1; by exists []; rewrite app_nil_r). cbn.
  by rewrite skip_skip, Hx, zlen_app.
Qed.
End VariantLawsFacts.
