(* ===== verification/VersionTolerant.v ===== *)
(** The VersionTolerant layout ([core.hpp]): [VersionTolerantWriter], which buffers
    members to write their lengths first, and [VersionTolerantReader], which
    positions every member at its recorded length. *)
From S2P Require Import Prelude Endian Writer Reader Headers Utf Strings Formatter Collections Objects.

(** ** [VersionTolerantWriter] *)

(** [vt_out] is the writer [out_] points to. *)
Record VersionTolerantWriter := MkVTWriter {
  vt_out : MemoryPackWriter;
  vt_body : MemoryPackWriter;
  vt_lengths : list Z;
  vt_finished : bool;
}.

Abbreviation VW := (M VersionTolerantWriter).

Definition NewVTWriter (out : MemoryPackWriter) : VersionTolerantWriter :=
  MkVTWriter out NewWriter [] false.

Section VTWriter.
Context `{Platform}.

(** A call on [body_], and one on [out_]. *)
Definition in_body {A} (m : W A) : VW A := λ s,
  match m (vt_body s) with
  | (o, b) => (o, MkVTWriter (vt_out s) b (vt_lengths s) (vt_finished s))
  end.

Definition in_out {A} (m : W A) : VW A := λ s,
  match m (vt_out s) with
  | (o, w) => (o, MkVTWriter w (vt_body s) (vt_lengths s) (vt_finished s))
  end.

Definition push_length (n : Z) : VW unit :=
  modify (λ s, MkVTWriter (vt_out s) (vt_body s) (vt_lengths s ++ [n]) (vt_finished s)).

Definition set_finished : VW unit :=
  modify (λ s, MkVTWriter (vt_out s) (vt_body s) (vt_lengths s) true).

Definition WriteMember `{MemoryPackFormatter T} (value : T) : VW unit :=
  start ← gets (λ s, w_Size (vt_body s));
  in_body (Write value) ;;
  size ← gets (λ s, w_Size (vt_body s));
  push_length (size_sub size start mod 2 ^ 32).

Definition vt_Finish : VW unit :=
  finished ← gets vt_finished;
  if finished : bool then mret tt else
  set_finished ;;
  lengths ← gets vt_lengths;
  if zlen lengths >? MAX_MEMBER_COUNT then in_out (WriteObjectHeader NULL_OBJECT) else
  in_out (WriteObjectHeader (to_unsigned 1 (zlen lengths))) ;;
  in_out (mapM_ WriteVarIntLength lengths) ;;
  body ← gets (λ s, GetSpan (vt_body s));
  in_out (WriteBytes body).

(** The destructor: [Finish()] with every exception swallowed. *)
Definition vt_Destroy : VW unit := λ s,
  match vt_Finish s with
  | (Throw _ _, s') => (Ret tt, s')
  | r => r
  end.

(** The documented use: [VersionTolerantWriter vt(w); vt.WriteMember(v->m); ...],
    flushed when [vt] goes out of scope. *)
Definition WriteVersionTolerant {V} (ms : list (member V)) (v : V) : W unit := λ w,
  match (mapM_ (λ m, WriteMember (m_get m v)) ms) (NewVTWriter w) with
  | (Ret _, s) => match vt_Destroy s with (o, s') => (o, vt_out s') end
  | (o, s) => match vt_Destroy s with (_, s') => (o, vt_out s') end
  end.
End VTWriter.

(** ** [VersionTolerantReader] *)

(** [vr_in] is the reader [in_] points to. *)
Record VersionTolerantReader := MkVTReader {
  vr_in : MemoryPackReader;
  vr_lengths : list Z;
  vr_count : Z;
  vr_index : Z;
  vr_next : Z;
  vr_isNull : bool;
}.

Abbreviation VR := (M VersionTolerantReader).

Definition vr_IsNull (r : VersionTolerantReader) : bool := vr_isNull r.
Definition vr_Count (r : VersionTolerantReader) : Z := vr_count r.

Section VTReader.
Context `{Platform}.

(** A call on [in_]. *)
Definition in_in {A} (m : R A) : VR A := λ s,
  match m (vr_in s) with
  | (o, r) => (o, MkVTReader r (vr_lengths s) (vr_count s) (vr_index s) (vr_next s) (vr_isNull s))
  end.

Definition set_vr_next (n : Z) : VR unit :=
  modify (λ s, MkVTReader (vr_in s) (vr_lengths s) (vr_count s) (vr_index s) n (vr_isNull s)).
Definition incr_index : VR unit :=
  modify (λ s, MkVTReader (vr_in s) (vr_lengths s) (vr_count s)
                 ((vr_index s + 1) mod 256) (vr_next s) (vr_isNull s)).

(** The constructor; the other fields keep their initializers when the object is null. *)
Definition NewVTReader : R (list Z * Z * Z * bool) :=
  header ← ReadObjectHeader;
  if isNull header then mret ([], 0, 0, true) else
  lengths ← read_fold (Z.to_nat (count header)) ReadVarIntLength push_back [];
  next ← gets pos_;
  mret (lengths, count header, next, false).

(** [lengths_[index_]]: out of range is undefined. *)
Definition length_at : VR Z := λ s,
  match vr_lengths s !! Z.to_nat (vr_index s) with
  | Some n => (Ret n, s)
  | None => (UB, s)
  end.

Definition vr_done (s : VersionTolerantReader) : bool := vr_isNull s || (vr_index s >=? vr_count s).

(** [bool ReadMember(T& out)]: the flag and the new value of [out]. *)
Definition ReadMember `{MemoryPackFormatter T} (out : T) : VR (bool * T) :=
  over ← gets vr_done;
  if over : bool then mret (false, out) else
  start ← gets vr_next;
  len ← length_at;
  let stop := size_add start len in
  incr_index ;;
  in_in (Seek start) ;;
  failed ← gets (λ s, Failed (vr_in s));
  if failed : bool then mret (false, out) else
  v ← in_in (ReadInto out);
  set_vr_next stop ;;
  in_in (Seek stop) ;;
  mret (true, v).

Definition SkipMember : VR bool :=
  over ← gets vr_done;
  if over : bool then mret false else
  next ← gets vr_next;
  len ← length_at;
  set_vr_next (size_add next len) ;;
  incr_index ;;
  next ← gets vr_next;
  in_in (Seek next) ;;
  mret true.

(** [while (index_ < count_) SkipMember();], at most 255 rounds of which advance. *)
Fixpoint skip_members (fuel : nat) : VR unit :=
  index ← gets vr_index;
  count ← gets vr_count;
  if index <? count then
    match fuel with
    | O => undefined
    | S fuel' => SkipMember ;; skip_members fuel'
    end
  else mret tt.

Definition vr_Finish : VR unit :=
  skip_members 256 ;;
  null ← gets vr_isNull;
  if null : bool then mret tt else
  next ← gets vr_next;
  in_in (Seek next).

(** The documented use: [if (vt.IsNull()) return; vt.ReadMember(v.m); ...; vt.Finish();]. *)
Fixpoint read_vt_members {V} (ms : list (member V)) (v : V) : VR V :=
  match ms with
  | [] => mret v
  | m :: ms' =>
      r ← ReadMember (m_get m v);
      read_vt_members ms' (if r.1 : bool then m_set m r.2 v else v)
  end.

Definition ReadVersionTolerant {V} (ms : list (member V)) (v : V) : R V :=
  vt ← NewVTReader;
  match vt with
  | (lengths, count, next, null) =>
      if null : bool then mret v else λ r,
      match (v' ← read_vt_members ms v; vr_Finish ;; mret v')
              (MkVTReader r lengths count 0 next null) with
      | (o, s) => (o, vr_in s)
      end
  end.
End VTReader.

(** ** The layout *)

(** [[count][len0]...[lenN-1][member0]...[memberN-1]]. *)
Definition vt_lengths_bytes (parts : list (list Z)) : list Z := parts ≫= λ p, enc_varint (zlen p).

Definition vt_bytes (parts : list (list Z)) : list Z :=
  zlen parts :: vt_lengths_bytes parts ++ concat parts.

Section WriterFacts.
Context `{Platform} {V : Type}.

(** Encodings of the members of [v]. *)
Definition member_parts (ss : list (member_spec V)) (v : V) : list (list Z) :=
  (λ s, enc (m_get (ms_member s) v)) <$> ss.

Lemma concat_member_parts ss v : concat (member_parts ss v) = enc_members ss v.
Proof. unfold enc_members, member_parts. induction ss as [|s ss IH]; [done|]. cbn. by rewrite IH. Qed.

(** The state after [bs] was buffered, in parts of lengths [ls]. *)
Record buffered (out : MemoryPackWriter) (bs : list Z) (ls : list Z) (s : VersionTolerantWriter) : Prop := {
  bf_out : vt_out s = out;
  bf_body : w_ok (vt_body s);
  bf_limit : w_limit (vt_body s) = grow_limit;
  bf_span : GetSpan (vt_body s) = bs;
  bf_lengths : vt_lengths s = ls;
  bf_open : vt_finished s = false;
}.

Lemma NewVTWriter_buffered out : buffered out [] [] (NewVTWriter out).
Proof. split; try done. apply NewWriter_ok. Qed.

Lemma WriteMember_buffered `{!MemoryPackFormatter T, !WireFormat T, !FormatterLaws T} out bs ls s (x : T) :
  buffered out bs ls s → wf x → zlen bs + zlen (enc x) ≤ grow_limit → zlen (enc x) < 2 ^ 32 →
  ∃ s', WriteMember x s = (Ret tt, s') ∧ buffered out (bs ++ enc x) (ls ++ [zlen (enc x)]) s'.
Proof.
  intros [Ho Hb Hlim Hspan Hls Hop] Hwf Hroom Hlen. pose proof grow_limit_bounds. zlen_pos.
  pose proof (zlen_GetSpan _ Hb) as Hsz. rewrite Hspan in Hsz.
  destruct (law_emits x Hwf _ Hb) as [Hfit _]. destruct Hfit as (b & E & Hstep & Hg & He); [lia|].
  pose proof (step_ok _ _ Hstep) as Hb'. pose proof (zlen_GetSpan _ Hb') as Hsz'.
  rewrite Hg, Hspan, zlen_app in Hsz'.
  unfold WriteMember, mbind, M_bind, gets, in_body, push_length, modify, Write. rewrite E. cbn.
  eexists. split; [done|]. split; cbn; try done.
  - by rewrite (step_limit _ _ Hstep).
  - by rewrite Hg, Hspan.
  - rewrite Hls, size_sub_small by lia. do 2 f_equal. rewrite Z.mod_small by lia. lia.
Qed.

Lemma WriteMembers_buffered (ss : list (member_spec V)) v out bs ls s :
  buffered out bs ls s → members_wf ss v → zlen bs + zlen (enc_members ss v) ≤ grow_limit →
  zlen (enc_members ss v) < 2 ^ 32 →
  ∃ s', mapM_ (λ m, WriteMember (m_get m v)) (ms_member <$> ss) s = (Ret tt, s') ∧
    buffered out (bs ++ enc_members ss v) (ls ++ (zlen <$> member_parts ss v)) s'.
Proof.
  revert bs ls s. induction ss as [|m ss IH]; intros bs ls s Hs Hwf Hroom Hlen.
  { exists s. cbn. by rewrite !app_nil_r. }
  unfold enc_members in *. rewrite bind_cons in *. rewrite zlen_app in *. zlen_pos.
  destruct (WriteMember_buffered out bs ls s (m_get (ms_member m) v) Hs) as (s1 & E1 & B1); [apply Hwf; left|lia|lia|].
  destruct (IH _ _ _ B1) as (s2 & E2 & B2); [intros s' Hs'; apply Hwf; by right|rewrite zlen_app; lia|lia|].
  exists s2. rewrite fmap_cons. cbn [mapM_]. unfold mbind, M_bind. rewrite E1. split; [done|].
  by rewrite <-!app_assoc in B2.
Qed.

(** [Finish] is one sequence of writes to the target. *)
Definition flush (bs ls : list Z) : W unit :=
  WriteObjectHeader (zlen ls) ;; mapM_ WriteVarIntLength ls ;; WriteBytes bs.

Lemma vt_Finish_flush out bs ls s : buffered out bs ls s → zlen ls ≤ MAX_MEMBER_COUNT →
  (vt_Finish s).1 = (flush bs ls out).1 ∧ vt_out (vt_Finish s).2 = (flush bs ls out).2.
Proof.
  intros [Ho Hb Hlim Hspan Hls Hop] Hn. unfold MAX_MEMBER_COUNT in *. zlen_pos.
  destruct s as [out' body ls' fin]. cbn [vt_out vt_body vt_lengths vt_finished] in *. subst.
  unfold vt_Finish, flush, mbind, M_bind, gets, set_finished, modify, in_out.
  cbn [vt_out vt_body vt_lengths vt_finished]. unfold MAX_MEMBER_COUNT. destruct (Z.gtb_spec (zlen ls) 249); [lia|].
  unfold to_unsigned. change (pow256 1) with 256. rewrite Z.mod_small by lia.
  cbn [vt_out vt_body vt_lengths vt_finished]. destruct (WriteObjectHeader _ out) as [[[]|e off|] w1]; [|split; reflexivity..].
  cbn [vt_out vt_body vt_lengths vt_finished].
  destruct (mapM_ WriteVarIntLength _ w1) as [[[]|e off|] w2]; [|split; reflexivity..].
  cbn [vt_out vt_body vt_lengths vt_finished]. destruct (WriteBytes _ w2) as [[[]|e off|] w3]; split; reflexivity.
Qed.

Lemma flush_emits (parts : list (list Z)) : zlen parts ≤ MAX_MEMBER_COUNT →
  (∀ p, p ∈ parts → zlen p < 2 ^ 32) →
  emits (flush (concat parts) (zlen <$> parts)) (vt_bytes parts).
Proof.
  intros Hn Hp. unfold flush. assert (El : zlen (zlen <$> parts) = zlen parts) by (unfold zlen; by rewrite length_fmap).
  rewrite El. zlen_pos. apply (emits_bind _ _ [zlen parts]); [by apply WriteObjectHeader_emits|].
  apply emits_bind; [|apply AppendBytes_emits].
  replace (vt_lengths_bytes parts) with ((zlen <$> parts) ≫= enc_varint).
  - apply mapM_emits. intros n Hin. apply list_elem_of_fmap_1 in Hin as (p & -> & Hin).
    apply WriteVarIntLength_emits. zlen_pos. split; [lia|by apply Hp].
  - clear. unfold vt_lengths_bytes. induction parts as [|p parts IH]; [done|]. by rewrite fmap_cons, !bind_cons, IH.
Qed.

(** A scope that writes the members of [v] through a [VersionTolerantWriter] is
    [flush], with exceptions swallowed by the destructor. *)
Lemma WriteVersionTolerant_flush (ss : list (member_spec V)) v w : members_wf ss v →
  zlen ss ≤ MAX_MEMBER_COUNT → zlen (enc_members ss v) ≤ grow_limit → zlen (enc_members ss v) < 2 ^ 32 →
  let parts := member_parts ss v in
  WriteVersionTolerant (ms_member <$> ss) v w =
    match flush (concat parts) (zlen <$> parts) w with
    | (Throw _ _, w') => (Ret tt, w')
    | r => r
    end.
Proof.
  intros Hwf Hn Hl1 Hl2 parts.
  destruct (WriteMembers_buffered ss v w [] [] _ (NewVTWriter_buffered w) Hwf) as (s & E & Hs); [done|done|].
  unfold WriteVersionTolerant. rewrite E. cbn [app] in Hs. rewrite <-concat_member_parts in Hs. fold parts in Hs.
  assert (Hln : zlen (zlen <$> parts) = zlen ss).
  { unfold parts, member_parts, zlen. by rewrite !length_fmap. }
  destruct (vt_Finish_flush _ _ _ _ Hs) as [E1 E2]; [by rewrite Hln|]. unfold vt_Destroy.
  destruct (vt_Finish s) as [o s']. destruct (flush (concat parts) (zlen <$> parts) w) as [o' w'].
  cbn in *. subst. by destruct o'.
Qed.

Lemma zlen_member_parts (ss : list (member_spec V)) v : zlen (member_parts ss v) = zlen ss.
Proof. unfold member_parts, zlen. by rewrite length_fmap. Qed.

Lemma member_parts_small (ss : list (member_spec V)) v p : zlen (enc_members ss v) < 2 ^ 32 →
  p ∈ member_parts ss v → zlen p < 2 ^ 32.
Proof.
  intros Hl Hp. assert (zlen p ≤ zlen (enc_members ss v)); [|lia]. rewrite <-concat_member_parts. clear Hl.
  induction (member_parts ss v) as [|q parts IH]; [by apply not_elem_of_nil in Hp|]. cbn. rewrite zlen_app. zlen_pos.
  apply elem_of_cons in Hp as [->|Hp]; [lia|]. specialize (IH Hp). lia.
Qed.

Lemma WriteVersionTolerant_fits (ss : list (member_spec V)) v w :
  w_ok w → members_wf ss v → zlen ss ≤ MAX_MEMBER_COUNT →
  zlen (enc_members ss v) ≤ grow_limit → zlen (enc_members ss v) < 2 ^ 32 →
  w_Size w + zlen (vt_bytes (member_parts ss v)) ≤ w_limit w →
  ∃ w', WriteVersionTolerant (ms_member <$> ss) v w = (Ret tt, w') ∧ w_step w w' ∧
        GetSpan w' = GetSpan w ++ vt_bytes (member_parts ss v) ∧ w_error_ w' = w_error_ w.
Proof.
  intros Hw Hwf Hn Hl1 Hl2 Hfit. rewrite WriteVersionTolerant_flush by done. cbv zeta.
  assert (Hf := flush_emits (member_parts ss v)). rewrite zlen_member_parts in Hf.
  destruct (Hf Hn (λ p, member_parts_small ss v p Hl2) w Hw) as [Hw1 _].
  destruct (Hw1 Hfit) as (w' & -> & Hs & Hg & He). by exists w'.
Qed.

(** In a fixed buffer that is too small the target records the overflow and
    nothing is thrown. *)
Lemma WriteVersionTolerant_overflow (ss : list (member_spec V)) v w :
  w_ok w → members_wf ss v → zlen ss ≤ MAX_MEMBER_COUNT →
  zlen (enc_members ss v) ≤ grow_limit → zlen (enc_members ss v) < 2 ^ 32 →
  is_fixed w → w_limit w < w_Size w + zlen (vt_bytes (member_parts ss v)) →
  ∃ w', WriteVersionTolerant (ms_member <$> ss) v w = (Ret tt, w') ∧ w_step w w' ∧ w_error_ w' ≠ NoError.
Proof.
  intros Hw Hwf Hn Hl1 Hl2 Hfix Hover. rewrite WriteVersionTolerant_flush by done. cbv zeta.
  assert (Hf := flush_emits (member_parts ss v)). rewrite zlen_member_parts in Hf.
  destruct (Hf Hn (λ p, member_parts_small ss v p Hl2) w Hw) as [_ Hw2].
  destruct (Hw2 Hfix Hover) as (o & w' & -> & Hs & Ho). pose proof (overflowed_sticky _ _ _ Ho) as Hst.
  destruct Ho as [_ Ho]. exists w'. destruct has_exceptions; [destruct Ho as [off ->]|subst o]; done.
Qed.
End WriterFacts.

(** ** Reading *)

Section ReaderFacts.
Context `{Platform} {V : Type} (o : ReaderOptions) (d : Z) (base : MemoryPackReader).
Context (parts : list (list Z)) (x : list Z).
Context (Hbase : ready o d base) (Hrest : rest base = concat parts ++ x).
Context (Hcount : zlen parts ≤ MAX_MEMBER_COUNT).

(** Where member [i] starts. *)
Definition member_offset (i : nat) : Z := zlen (concat (take i parts)).

(** The reader positioned at member [i]. *)
Definition at_member (i : nat) : VersionTolerantReader :=
  MkVTReader (skip (member_offset i) base) (zlen <$> parts) (zlen parts) (Z.of_nat i)
    (pos_ base + member_offset i) false.

Lemma member_offset_S i p : parts !! i = Some p → member_offset (S i) = member_offset i + zlen p.
Proof.
  intros Hi. unfold member_offset. rewrite (take_S_r _ _ _ Hi), concat_app, zlen_app. cbn. by rewrite app_nil_r.
Qed.

Lemma concat_split i : concat parts = concat (take i parts) ++ concat (drop i parts).
Proof. by rewrite <-concat_app, take_drop. Qed.

Lemma member_ready i : ready o d (skip (member_offset i) base) ∧
  rest (skip (member_offset i) base) = concat (drop i parts) ++ x.
Proof.
  rewrite (concat_split i), <-app_assoc in Hrest. unfold member_offset. by apply ready_skip_prefix.
Qed.

Lemma member_bound i : 0 ≤ member_offset i ∧ pos_ base + member_offset i ≤ size_ base.
Proof.
  destruct (member_ready i) as [Hr _]. pose proof (ok_pos _ (ready_ok _ _ _ Hr)) as Hp.
  unfold skip, size_ in Hp. cbn [pos_ data_ set_pos] in Hp. unfold size_, member_offset in *. zlen_pos. lia.
Qed.

(** Seeking to a member from anywhere in the input. *)
Lemma Seek_member q i : Seek (pos_ base + member_offset i) (set_pos q base) = (Ret tt, skip (member_offset i) base).
Proof.
  pose proof (member_bound i). unfold Seek, size_. cbn. fold (size_ base).
  destruct (Z.gtb_spec (pos_ base + member_offset i) (size_ base)); [lia|]. done.
Qed.

Lemma at_member_open i : (i < length parts)%nat → vr_done (at_member i) = false.
Proof. intros Hi. unfold vr_done, at_member, zlen. cbn. destruct (Z.geb_spec (Z.of_nat i) (Z.of_nat (length parts))); [lia|done]. Qed.

Lemma at_member_over i : (length parts ≤ i)%nat → vr_done (at_member i) = true.
Proof. intros Hi. unfold vr_done, at_member, zlen. cbn. by destruct (Z.geb_spec (Z.of_nat i) (Z.of_nat (length parts))); [|lia]. Qed.

Lemma at_member_length i p : parts !! i = Some p → length_at (at_member i) = (Ret (zlen p), at_member i).
Proof. intros Hi. unfold length_at. cbn. by rewrite Nat2Z.id, list_lookup_fmap, Hi. Qed.

Lemma next_member i p : parts !! i = Some p →
  size_add (pos_ base + member_offset i) (zlen p) = pos_ base + member_offset (S i) ∧
  (Z.of_nat i + 1) mod 256 = Z.of_nat (S i).
Proof.
  intros Hi. pose proof (member_bound i). pose proof (member_bound (S i)). pose proof (member_offset_S i p Hi) as Ho.
  pose proof (ok_pos _ (ready_ok _ _ _ Hbase)). pose proof (ok_size _ (ready_ok _ _ _ Hbase)). zlen_pos.
  apply lookup_lt_Some in Hi. unfold MAX_MEMBER_COUNT, zlen in Hcount. split.
  - rewrite size_add_small; lia.
  - rewrite Z.mod_small; lia.
Qed.

Lemma skip_set_pos q n : skip n (set_pos q base) = set_pos (q + n) base.
Proof. done. Qed.

(** A member the sender wrote is read, and the reader moves past all of it, even
    when the sender's encoding is longer than what this type reads. *)
Lemma ReadMember_present `{!MemoryPackFormatter T, !WireFormat T, !FormatterLaws T} i p (v old : T) :
  parts !! i = Some p → 0 ≤ d → wf v → within o d v → enc v `prefix_of` p →
  ReadMember old (at_member i) = (Ret (true, v), at_member (S i)).
Proof.
  intros Hi Hd Hwf Hwi [y ->]. pose proof (lookup_lt_Some _ _ _ Hi) as Hlt.
  destruct (next_member i _ Hi) as [Hnext Hidx]. destruct (member_ready i) as [Hr Hx].
  destruct (law_reads o d v old Hd Hwf Hwi _ Hr) as [Hread _].
  unfold ReadMember, mbind, M_bind, gets. rewrite (at_member_open i Hlt).
  change (vr_next (at_member i)) with (pos_ base + member_offset i).
  rewrite (at_member_length i _ Hi). rewrite Hnext.
  unfold in_in, incr_index, modify, set_vr_next, at_member. cbn [vr_in vr_lengths vr_count vr_index vr_next vr_isNull]. rewrite Hidx.
  pose proof (Seek_member (pos_ base + member_offset i) i) as Es. change (set_pos (pos_ base + member_offset i) base)
    with (skip (member_offset i) base) in Es. rewrite Es. cbn [vr_in vr_lengths vr_count vr_index vr_next vr_isNull].
  change (Failed (skip (member_offset i) base)) with (Failed base). rewrite (Failed_ready o d) by done.
  cbn [vr_in vr_lengths vr_count vr_index vr_next vr_isNull]. unfold ReadInto. rewrite Hread.
  2: { rewrite Hx, (drop_S _ _ _ Hi). cbn. rewrite <-!app_assoc. by eexists. }
  cbn [vr_in vr_lengths vr_count vr_index vr_next vr_isNull]. rewrite skip_skip.
  pose proof (Seek_member (pos_ base + (member_offset i + zlen (enc v))) (S i)) as Es2.
  change (set_pos (pos_ base + (member_offset i + zlen (enc v))) base)
    with (skip (member_offset i + zlen (enc v)) base) in Es2.
  cbn [vr_in vr_lengths vr_count vr_index vr_next vr_isNull]. unfold modify.
  cbn [vr_in vr_lengths vr_count vr_index vr_next vr_isNull]. by rewrite Es2.
Qed.

(** A member the sender did not write leaves the variable untouched. *)
Lemma ReadMember_absent `{!MemoryPackFormatter T} i (old : T) : (length parts ≤ i)%nat →
  ReadMember old (at_member i) = (Ret (false, old), at_member i).
Proof. intros Hi. unfold ReadMember, mbind, M_bind, gets. by rewrite at_member_over. Qed.

Lemma SkipMember_at i p : parts !! i = Some p → SkipMember (at_member i) = (Ret true, at_member (S i)).
Proof.
  intros Hi. pose proof (lookup_lt_Some _ _ _ Hi) as Hlt. destruct (next_member i _ Hi) as [Hnext Hidx].
  unfold SkipMember, mbind, M_bind, gets. rewrite (at_member_open i Hlt).
  change (vr_next (at_member i)) with (pos_ base + member_offset i).
  rewrite (at_member_length i _ Hi), Hnext.
  unfold in_in, incr_index, modify, set_vr_next, at_member.
  do 3 (cbn [vr_in vr_lengths vr_count vr_index vr_next vr_isNull]; unfold modify). rewrite Hidx.
  change (skip (member_offset i) base) with (set_pos (pos_ base + member_offset i) base).
  by rewrite (Seek_member _ (S i)).
Qed.

Lemma skip_members_at fuel i : (i ≤ length parts)%nat → (length parts - i ≤ fuel)%nat →
  skip_members fuel (at_member i) = (Ret tt, at_member (length parts)).
Proof.
  revert i. induction fuel as [|fuel IH]; intros i Hi Hf; cbn [skip_members];
    unfold mbind at 1, M_bind at 1, gets at 1; unfold mbind at 1, M_bind at 1, gets at 1;
    unfold at_member at 1 2; cbn [vr_index vr_count]; fold (at_member i);
    unfold zlen; destruct (Z.ltb_spec (Z.of_nat i) (Z.of_nat (length parts))).
  - lia.
  - by replace i with (length parts) by lia.
  - destruct (lookup_lt_is_Some_2 parts i ltac:(lia)) as [p Hp].
    unfold mbind, M_bind. rewrite (SkipMember_at i p Hp). apply IH; lia.
  - by replace i with (length parts) by lia.
Qed.

(** [Finish] moves past the members this type does not know. *)
Lemma vr_Finish_at i : (i ≤ length parts)%nat →
  vr_Finish (at_member i) = (Ret tt, at_member (length parts)).
Proof.
  intros Hi. unfold vr_Finish, mbind at 1, M_bind at 1.
  rewrite skip_members_at by (done || unfold MAX_MEMBER_COUNT, zlen in Hcount; lia).
  unfold mbind, M_bind, gets, in_in, at_member. cbn [vr_in vr_lengths vr_count vr_index vr_next vr_isNull].
  change (skip (member_offset (length parts)) base) with (set_pos (pos_ base + member_offset (length parts)) base).
  by rewrite Seek_member.
Qed.

(** [p] starts with the encoding of member [s] of [v]. *)
Definition part_of (v : V) (s : member_spec V) (p : list Z) : Prop :=
  wf (m_get (ms_member s) v) ∧ within o d (m_get (ms_member s) v) ∧
  enc (m_get (ms_member s) v) `prefix_of` p.

Lemma read_vt_members_at (ss : list (member_spec V)) v i old : 0 ≤ d → (i ≤ length parts)%nat →
  (∀ j s p, ss !! j = Some s → parts !! (i + j)%nat = Some p → part_of v s p) →
  read_vt_members (ms_member <$> ss) old (at_member i) =
    (Ret (assign_members (take (length parts - i) ss) v old),
     at_member (Nat.min (length parts) (i + length ss))).
Proof.
  intros Hd. revert i old. induction ss as [|s ss IH]; intros i old Hi Hparts.
  { rewrite take_nil. by replace (Nat.min (length parts) (i + length [])) with i by (cbn; lia). }
  rewrite fmap_cons. cbn [read_vt_members length].
  destruct (decide (i < length parts)%nat) as [Hlt|Hge].
  - destruct (lookup_lt_is_Some_2 parts i Hlt) as [p Hp].
    destruct (Hparts 0%nat s p eq_refl ltac:(by rewrite Nat.add_0_r)) as (Hwf & Hwi & Hpre).
    unfold mbind, M_bind. rewrite (ReadMember_present i p _ _ Hp Hd Hwf Hwi Hpre). cbn [fst snd].
    rewrite IH; [|lia|].
    + replace (length parts - i)%nat with (S (length parts - S i)) by lia. cbn [take].
      by replace (S i + length ss)%nat with (i + S (length ss))%nat by lia.
    + intros j s' p' Hs' Hp'. apply (Hparts (S j) s' p' Hs'). by rewrite Nat.add_succ_r.
  - unfold mbind, M_bind. rewrite ReadMember_absent by lia. cbn [fst snd].
    rewrite IH by (try lia; intros j s' p' _ Hp'; apply lookup_lt_Some in Hp'; lia).
    replace (length parts - i)%nat with 0%nat by lia. rewrite !take_0.
    by replace (Nat.min (length parts) (i + length ss)) with (Nat.min (length parts) (i + S (length ss))) by lia.
Qed.
End ReaderFacts.

Section ReaderSpec.
Context `{Platform} {V : Type}.

Lemma safe_ReadVarIntLength_any : safe ReadVarIntLength anything.
Proof. intros r Hr. eapply safe_at_anything. by apply safe_ReadVarIntLength. Qed.

(** The constructor reads the header and the lengths. *)
Lemma NewVTReader_ready o d r parts x : ready o d r → zlen parts ≤ MAX_MEMBER_COUNT →
  (∀ p, p ∈ parts → zlen p < 2 ^ 32) → rest r = vt_bytes parts ++ x →
  let base := skip (1 + zlen (vt_lengths_bytes parts)) r in
  NewVTReader r = (Ret (zlen <$> parts, zlen parts, pos_ base, false), base) ∧
  ready o d base ∧ rest base = concat parts ++ x.
Proof.
  intros Hr Hn Hp Hx base. zlen_pos.
  change (rest r = [zlen parts] ++ ((vt_lengths_bytes parts ++ concat parts) ++ x)) in Hx.
  destruct (ready_skip_prefix o d r _ _ Hr Hx) as [Hr1 Hx1]. change (zlen [zlen parts]) with 1 in *.
  rewrite <-app_assoc in Hx1. destruct (ready_skip_prefix o d _ _ _ Hr1 Hx1) as [Hr2 Hx2].
  rewrite skip_skip in Hr2, Hx2. fold base in Hr2, Hx2. split_and!; [|done..].
  destruct (reads_ReadObjectHeader o d (zlen parts) ltac:(lia) r Hr) as [Hh _].
  assert (Hl : reads o d (read_fold (length parts) ReadVarIntLength push_back [])
    ((zlen <$> parts) ≫= enc_varint) (zlen <$> parts)).
  { pose proof (reads_read_fold o d ReadVarIntLength enc_varint push_back (zlen <$> parts) []
      safe_ReadVarIntLength_any) as Hf. rewrite foldl_push_back, length_fmap in Hf. apply Hf. intros n Hin.
    apply list_elem_of_fmap_1 in Hin as (p & -> & Hin). apply reads_ReadVarIntLength.
    zlen_pos. split; [lia|by apply Hp]. }
  assert (El : (zlen <$> parts) ≫= enc_varint = vt_lengths_bytes parts).
  { clear. unfold vt_lengths_bytes. induction parts as [|p parts IH]; [done|]. by rewrite fmap_cons, !bind_cons, IH. }
  rewrite El in Hl. destruct (Hl _ Hr1) as [Hl1 _].
  unfold NewVTReader. rewrite (bind_Ret _ _ _ _ _ (Hh ltac:(rewrite Hx; by eexists))).
  cbn [isNull count]. rewrite zlen_to_nat.
  rewrite (bind_Ret _ _ _ _ _ (Hl1 ltac:(rewrite Hx1; by eexists))). by rewrite skip_skip.
Qed.

(** Whatever members sender and reader know: common ones are assigned, missing
    ones untouched, unknown ones and unknown tails of known ones skipped. *)
Lemma ReadVersionTolerant_ready o d r (ss : list (member_spec V)) parts x v old :
  ready o d r → 0 ≤ d → zlen parts ≤ MAX_MEMBER_COUNT → (∀ p, p ∈ parts → zlen p < 2 ^ 32) →
  rest r = vt_bytes parts ++ x →
  (∀ j s p, ss !! j = Some s → parts !! j = Some p → part_of o d v s p) →
  ReadVersionTolerant (ms_member <$> ss) old r =
    (Ret (assign_members (take (length parts) ss) v old), skip (zlen (vt_bytes parts)) r).
Proof.
  intros Hr Hd Hn Hp Hx Hparts.
  destruct (NewVTReader_ready o d r parts x Hr Hn Hp Hx) as (E & Hr1 & Hx1).
  set (base := skip (1 + zlen (vt_lengths_bytes parts)) r) in *.
  unfold ReadVersionTolerant. rewrite (bind_Ret _ _ _ _ _ E).
  assert (E0 : MkVTReader base (zlen <$> parts) (zlen parts) 0 (pos_ base) false = at_member base parts 0).
  { unfold at_member, member_offset. cbn [take concat]. change (zlen []) with 0. by rewrite skip_0, Z.add_0_r. }
  rewrite E0. unfold mbind, M_bind.
  rewrite (read_vt_members_at o d base parts x Hr1 Hx1 Hn ss v 0 old Hd ltac:(lia) Hparts).
  rewrite (vr_Finish_at o d base parts x Hr1 Hx1 Hn) by lia. cbn [vr_in at_member].
  unfold at_member. cbn [vr_in]. rewrite Nat.sub_0_r. unfold member_offset. rewrite firstn_all.
  unfold base. rewrite skip_skip. unfold vt_bytes. by rewrite zlen_cons, zlen_app, Z.add_assoc.
Qed.
End ReaderSpec.
