(* ===== verification/Unmanaged.v ===== *)
(** Unmanaged structs ([core.hpp]): [WriteUnmanaged]/[ReadUnmanaged] and the three
    macros [MEMORYPACK_UNMANAGED], [MEMORYPACK_UNMANAGED_EXACT] and
    [MEMORYPACK_UNMANAGED_SCRUBBED], with the padding bytes of a struct explicit in
    its object representation. *)
From S2P Require Import Prelude Endian Writer Reader Headers Utf Strings Formatter Collections Nullable.

(** ** Operations *)

Section Operations.
Context `{Platform} {T : Type} (rep : object_rep T).

Definition WriteUnmanaged (value : T) : W unit := AppendBytes (rep_bytes rep value).

(** [init] is [T{}]. *)
Definition ReadUnmanaged (init : T) : R T :=
  bs ← take_bytes (rep_size rep);
  mret match bs with Some bs => rep_of rep bs | None => init end.

(** A member: its offset and size. *)
Definition field : Type := Z * Z.

(** [memcpy(buf + offsetof(m), &v.m, sizeof(v.m))] for each listed member, into a
    zero-filled buffer. *)
Definition scrub_member (v : list Z) (buf : list Z) (m : field) : list Z :=
  overwrite m.1 (slice m.1 m.2 v) buf.

Definition scrub (fields : list field) (v : list Z) : list Z :=
  foldl (scrub_member v) (replicate (Z.to_nat (rep_size rep)) 0) fields.

(** The serializer [MEMORYPACK_UNMANAGED_SCRUBBED] generates. *)
Definition Scrubbed_Serialize (fields : list field) (v : T) : W unit :=
  WriteBytes (scrub fields (rep_bytes rep v)).

(** The compile-time test of [MEMORYPACK_UNMANAGED_EXACT]:
    [UnmanagedProbe<T>::MemberBytes == sizeof(T)]. *)
Definition MemberBytes (fields : list field) : Z := foldr (λ m n, m.2 + n) 0 fields.
Definition exact_assert (fields : list field) : bool := MemberBytes fields =? rep_size rep.
End Operations.

(** [MEMORYPACK_UNMANAGED(T, size)] (and [_EXACT], which only adds an assertion). *)
Class Unmanaged (T : Type) := {
  um_rep : object_rep T;
  um_init : T;
}.

(** [MEMORYPACK_UNMANAGED_SCRUBBED(T, size, members...)]. *)
Class Scrubbed (T : Type) := {
  sc_rep : object_rep T;
  sc_init : T;
  sc_fields : list field;
}.

Section Instances.
Context `{Platform} {T : Type}.

#[global] Instance unmanaged_formatter `{Unmanaged T} : MemoryPackFormatter T := {
  value_init := um_init;
  kind := UnmanagedStruct um_rep;
  Serialize := WriteUnmanaged um_rep;
  Deserialize := λ _, ReadUnmanaged um_rep um_init;
}.

#[global] Instance scrubbed_formatter `{Scrubbed T} : MemoryPackFormatter T := {
  value_init := sc_init;
  kind := UnmanagedStruct sc_rep;
  Serialize := Scrubbed_Serialize sc_rep sc_fields;
  Deserialize := λ _, ReadUnmanaged sc_rep sc_init;
}.
End Instances.

(** ** Padding *)

Section Padding.
Context {T : Type} (rep : object_rep T).

(** Members inside the struct. *)
Definition fields_ok (fields : list field) : Prop :=
  Forall (λ m : field, 0 ≤ m.1 ∧ 0 ≤ m.2 ∧ m.1 + m.2 ≤ rep_size rep) fields.

(** Byte [i] belongs to a member; the others are padding. *)
Definition covered (fields : list field) (i : Z) : bool :=
  existsb (λ m : field, (m.1 <=? i) && (i <? m.1 + m.2)) fields.

(** In declaration order and without overlap. *)
Fixpoint fields_ordered (from : Z) (fields : list field) : Prop :=
  match fields with
  | [] => from ≤ rep_size rep
  | m :: fields' => from ≤ m.1 ∧ 0 ≤ m.2 ∧ fields_ordered (m.1 + m.2) fields'
  end.

Lemma lookup_overwrite {A} off (src mem : list A) i : 0 ≤ off → off + zlen src ≤ zlen mem →
  overwrite off src mem !! i =
    if (off <=? Z.of_nat i) && (Z.of_nat i <? off + zlen src)
    then src !! (i - Z.to_nat off)%nat else mem !! i.
Proof.
  intros Ho Hl. unfold overwrite, zlen in *.
  destruct (Z.leb_spec off (Z.of_nat i)); cbn [andb].
  - rewrite lookup_app_r by (rewrite length_take; lia). rewrite length_take, Nat.min_l by lia.
    destruct (Z.ltb_spec (Z.of_nat i) (off + Z.of_nat (length src))).
    + by rewrite lookup_app_l by lia.
    + rewrite lookup_app_r by lia. rewrite lookup_drop. f_equal. lia.
  - rewrite lookup_app_l by (rewrite length_take; lia). apply lookup_take_lt. lia.
Qed.

Lemma lookup_slice {A} off n (l : list A) i : 0 ≤ off → (Z.of_nat i < n) →
  slice off n l !! i = l !! (Z.to_nat off + i)%nat.
Proof. intros Ho Hi. unfold slice. rewrite lookup_take_lt by lia. apply lookup_drop. Qed.

Lemma scrub_member_length v buf m : zlen v = rep_size rep → zlen buf = rep_size rep →
  0 ≤ m.1 ∧ 0 ≤ m.2 ∧ m.1 + m.2 ≤ rep_size rep → zlen (scrub_member v buf m) = rep_size rep.
Proof. intros Hv Hb Hm. unfold scrub_member. rewrite zlen_overwrite; rewrite ?zlen_slice; lia. Qed.

Lemma scrub_member_lookup v buf (m : field) i : zlen v = rep_size rep → zlen buf = rep_size rep →
  0 ≤ m.1 ∧ 0 ≤ m.2 ∧ m.1 + m.2 ≤ rep_size rep →
  scrub_member v buf m !! i =
    if (m.1 <=? Z.of_nat i) && (Z.of_nat i <? m.1 + m.2) then v !! i else buf !! i.
Proof.
  intros Hv Hb Hm. unfold scrub_member. rewrite lookup_overwrite by (rewrite ?zlen_slice; lia).
  rewrite zlen_slice by lia.
  destruct (Z.leb_spec m.1 (Z.of_nat i)), (Z.ltb_spec (Z.of_nat i) (m.1 + m.2)); cbn [andb]; try done.
  rewrite lookup_slice by lia. f_equal. lia.
Qed.

Lemma scrub_fold_lookup v buf (fields : list field) i : zlen v = rep_size rep → zlen buf = rep_size rep →
  fields_ok fields →
  foldl (scrub_member v) buf fields !! i = if covered fields (Z.of_nat i) then v !! i else buf !! i.
Proof.
  intros Hv. revert buf. induction fields as [|m fields IH]; intros buf Hb Hf; [done|].
  apply Forall_cons in Hf as [Hm Hf]. cbn [foldl]. rewrite IH by (try apply scrub_member_length; done).
  rewrite scrub_member_lookup by done. unfold covered. cbn [existsb].
  destruct (existsb _ fields); [by rewrite orb_true_r|]. by rewrite orb_false_r.
Qed.

(** The bytes on the wire: members as they are, padding zero. *)
Lemma scrub_lookup v fields i : zlen v = rep_size rep → fields_ok fields → (i < length v)%nat →
  scrub rep fields v !! i = if covered fields (Z.of_nat i) then v !! i else Some 0.
Proof.
  intros Hv Hf Hi. unfold scrub.
  rewrite scrub_fold_lookup; [|done|apply zlen_replicate_Z; zlen_pos; lia|done].
  destruct (covered _ _); [done|]. apply lookup_replicate_2. unfold zlen in Hv. lia.
Qed.

Lemma zlen_scrub v fields : zlen v = rep_size rep → fields_ok fields → zlen (scrub rep fields v) = rep_size rep.
Proof.
  intros Hv Hf. unfold scrub.
  assert (Hb : zlen (replicate (Z.to_nat (rep_size rep)) 0) = rep_size rep) by (apply zlen_replicate_Z; zlen_pos; lia).
  revert Hb. generalize (replicate (Z.to_nat (rep_size rep)) 0). induction Hf as [|m fields Hm Hf IH]; intros buf Hb; [done|].
  cbn [foldl]. apply IH. by apply scrub_member_length.
Qed.

(** Two objects that agree on their members. *)
Definition same_members (fields : list field) (v v' : list Z) : Prop :=
  ∀ i : nat, covered fields (Z.of_nat i) = true → v !! i = v' !! i.

Lemma scrub_members v v' fields : zlen v = rep_size rep → zlen v' = rep_size rep → fields_ok fields →
  same_members fields v v' → scrub rep fields v = scrub rep fields v'.
Proof.
  intros Hv Hv' Hf Hs. apply list_eq. intros i. unfold zlen in *.
  destruct (decide (i < length v)%nat) as [Hi|Hi].
  - rewrite !scrub_lookup by (done || lia). destruct (covered _ _) eqn:Ec; [by apply Hs|done].
  - pose proof (zlen_scrub v fields Hv Hf). pose proof (zlen_scrub v' fields Hv' Hf). unfold zlen in *.
    rewrite !lookup_ge_None_2 by lia. done.
Qed.

Lemma scrub_same_members v fields : zlen v = rep_size rep → fields_ok fields →
  same_members fields (scrub rep fields v) v.
Proof.
  intros Hv Hf i Hc. destruct (decide (i < length v)%nat) as [Hi|Hi].
  - by rewrite scrub_lookup, Hc.
  - pose proof (zlen_scrub v fields Hv Hf). unfold zlen in *. rewrite !lookup_ge_None_2 by lia. done.
Qed.

(** Sizes that add up leave no room for padding. *)
Lemma ordered_bytes from fields : fields_ordered from fields → from + MemberBytes fields ≤ rep_size rep.
Proof.
  revert from. induction fields as [|m fields IH]; intros from; cbn [fields_ordered]; unfold MemberBytes in *; cbn [foldr]; [lia|].
  intros (Hf & Hm & Ho). specialize (IH _ Ho). lia.
Qed.

Lemma exact_covered from fields i : fields_ordered from fields → from + MemberBytes fields = rep_size rep →
  from ≤ i < rep_size rep → covered fields i = true.
Proof.
  revert from. induction fields as [|m fields IH]; intros from; cbn [fields_ordered].
  { unfold MemberBytes. cbn. lia. }
  intros (Hf & Hm & Ho) Hsum Hi. pose proof (ordered_bytes _ _ Ho).
  change (MemberBytes (m :: fields)) with (m.2 + MemberBytes fields) in Hsum.
  assert (m.1 = from) by lia. unfold covered. cbn [existsb].
  destruct (Z.leb_spec m.1 i); [|lia]. destruct (Z.ltb_spec i (m.1 + m.2)); [done|]. cbn.
  apply (IH (m.1 + m.2)); [done|lia|lia].
Qed.
End Padding.

(** ** Laws *)

Section UnmanagedReads.
Context `{Platform} {T : Type} (rep : object_rep T) (init : T) (Hsize : 0 < rep_size rep).

Lemma reads_ReadUnmanaged o d bs : zlen bs = rep_size rep →
  reads o d (ReadUnmanaged rep init) bs (rep_of rep bs).
Proof.
  intros Hl. apply (reads_map o d (take_bytes (rep_size rep))
    (λ bs, match bs with Some bs => rep_of rep bs | None => init end) bs (Some bs)).
  - by apply reads_take_bytes.
  - apply safe_take_bytes_any. lia.
Qed.

Lemma safe_ReadUnmanaged : safe (ReadUnmanaged rep init) anything.
Proof. apply safe_map, safe_take_bytes_any. lia. Qed.

Lemma needs_byte_ReadUnmanaged : needs_bytes 1 (ReadUnmanaged rep init).
Proof.
  apply needs_bytes_map; [apply safe_take_bytes_any; lia|].
  apply (needs_bytes_mono _ (rep_size rep)); [lia|]. apply needs_bytes_take. lia.
Qed.
End UnmanagedReads.

Class UnmanagedLaws (T : Type) `{Unmanaged T} : Prop := {
  um_size : 0 < rep_size (um_rep (T := T));
  um_align : 1 ≤ rep_align (um_rep (T := T));
}.

Class ScrubbedLaws (T : Type) `{Scrubbed T} : Prop := {
  sc_size : 0 < rep_size (sc_rep (T := T));
  sc_align : 1 ≤ rep_align (sc_rep (T := T));
  sc_fields_ok : fields_ok (sc_rep (T := T)) sc_fields;
}.

Section UnmanagedLawsFacts.
Context `{Platform} {T : Type} `{UnmanagedLaws T}.

#[global] Instance unmanaged_wire : WireFormat T := {
  enc := rep_bytes um_rep;
  wf := rep_ok um_rep;
  within := λ _ _ _, True;
}.

#[global] Instance unmanaged_laws : FormatterLaws T.
Proof.
  pose proof um_size. pose proof um_align.
  split; cbn [Serialize Deserialize kind unmanaged_formatter enc wf within unmanaged_wire].
  - intros v _. apply AppendBytes_emits.
  - intros o d v old _ (Hv & Hl & _) _. rewrite <-Hv at 2. by apply reads_ReadUnmanaged.
  - intros _. by apply safe_ReadUnmanaged.
  - intros _. by apply needs_byte_ReadUnmanaged.
  - intros v (_ & Hl & _). cbn. lia.
  - cbn. split_and!; [done|done|]. by intros v (? & ? & ?).
  - by intros v (_ & _ & Hb).
Qed.
End UnmanagedLawsFacts.

Section ScrubbedLawsFacts.
Context `{Platform} {T : Type} `{ScrubbedLaws T}.

(** Exact round trips are for values whose padding is already zero; what happens to
    the others is [scrub_same_members]. *)
#[global] Instance scrubbed_wire : WireFormat T := {
  enc := λ v, scrub sc_rep sc_fields (rep_bytes sc_rep v);
  wf := λ v, rep_ok sc_rep v ∧ scrub sc_rep sc_fields (rep_bytes sc_rep v) = rep_bytes sc_rep v;
  within := λ _ _ _, True;
}.

#[global] Instance scrubbed_laws : FormatterLaws T.
Proof.
  pose proof sc_size. pose proof sc_align.
  split; cbn [Serialize Deserialize kind scrubbed_formatter enc wf within scrubbed_wire].
  - intros v _. apply AppendBytes_emits.
  - intros o d v old _ [(Hv & Hl & _) Hs] _. rewrite Hs. rewrite <-Hv at 2. by apply reads_ReadUnmanaged.
  - intros _. by apply safe_ReadUnmanaged.
  - intros _. by apply needs_byte_ReadUnmanaged.
  - intros v [(_ & Hl & _) Hs]. rewrite Hs. cbn. lia.
  - cbn. split_and!; [done|done|]. by intros v [(? & ? & ?) _].
  - intros v [(_ & _ & Hb) Hs]. by rewrite Hs.
Qed.
End ScrubbedLawsFacts.
