(* ===== verification/Macros.v ===== *)
(** The preprocessor macros behind [MEMORYPACK_DEFINE] ([core.hpp], [MEMORYPACK_PP_*]): they
    count the members and apply a macro to each. [Objects] and [Unmanaged] take the member
    list as it is written; here it is shown that the macros arrive at that list, for 1 to 32
    members, and that they refuse any other. *)
From stdpp Require Import strings.
From S2P Require Import Prelude Endian Writer Reader Headers Utf Strings Formatter Collections Objects Unmanaged.

(** ** The macros *)

(** An argument of a macro: a member's name, a number of [MEMORYPACK_PP_RSEQ], or nothing
    at all. *)
Inductive pp_arg := Name (s : String.string) | Number (n : nat) | Nothing.

(** An empty [__VA_ARGS__] is one empty argument. *)
Definition va_args (args : list pp_arg) : list pp_arg :=
  match args with [] => [Nothing] | _ => args end.

Definition PP_RSEQ : list pp_arg := Number <$> reverse (seq 0 33).

(** The argument after the first 32. *)
Definition PP_ARG_N (args : list pp_arg) : option pp_arg := args !! 32%nat.

Definition PP_NARG (args : list pp_arg) : option pp_arg := PP_ARG_N (va_args args ++ PP_RSEQ).

(** [MEMORYPACK_PP_FE_1], ..., [MEMORYPACK_PP_FE_32]: each takes one argument off the front. *)
Fixpoint PP_FE {X} (n : nat) (m : pp_arg → X) (args : list pp_arg) : option (list X) :=
  match n, args with
  | 1%nat, [x] => Some [m x]
  | S n', x :: args' => if (n' =? 0)%nat then None else (m x ::.) <$> PP_FE n' m (va_args args')
  | _, _ => None
  end.

(** [MEMORYPACK_PP_CAT(MEMORYPACK_PP_FE_, n)]: which of the 32 macros that names. *)
Definition PP_CAT_FE (n : pp_arg) : option nat :=
  match n with
  | Number n => if (1 <=? n)%nat && (n <=? 32)%nat then Some n else None
  | _ => None
  end.

(** The expansion; none when it names no macro or calls one with the wrong arguments, and
    the compiler stops. *)
Definition PP_FOREACH {X} (m : pp_arg → X) (args : list pp_arg) : option (list X) :=
  n ← PP_NARG args;
  n ← PP_CAT_FE n;
  PP_FE n m (va_args args).

(** ** What they expand to *)

Section Foreach.
Context {X : Type} (m : pp_arg → X).

Lemma va_args_cons x args : va_args (x :: args) = x :: args.
Proof. done. Qed.

Lemma PP_FE_length n args : length args = S n → PP_FE (S n) m args = Some (m <$> args).
Proof.
  revert args. induction n as [|n IH]; intros [|x args] Hl; try done; injection Hl as Hl.
  - by destruct args.
  - destruct args as [|y args]; [done|]. cbn [PP_FE Nat.eqb]. rewrite va_args_cons.
    change (((m x ::.) <$> PP_FE (S n) m (y :: args)) = Some (m <$> x :: y :: args)). by rewrite IH.
Qed.

Lemma PP_NARG_count args : (1 ≤ length args ≤ 32)%nat → PP_NARG args = Some (Number (length args)).
Proof.
  intros Hl. unfold PP_NARG, PP_ARG_N. destruct args as [|x args]; [cbn in Hl; lia|]. rewrite va_args_cons.
  set (l := x :: args) in *. rewrite lookup_app_r by lia. unfold PP_RSEQ. rewrite list_lookup_fmap, reverse_lookup by (rewrite length_seq; lia).
  rewrite length_seq, lookup_seq_lt by lia. cbn [fmap option_fmap option_map]. do 2 f_equal. lia.
Qed.

Lemma PP_NARG_many args x : args !! 32%nat = Some x → PP_NARG args = Some x.
Proof.
  intros Hx. unfold PP_NARG, PP_ARG_N. destruct args as [|y args]; [done|]. rewrite va_args_cons. by apply lookup_app_l_Some.
Qed.

Lemma PP_CAT_FE_number n : (1 ≤ n ≤ 32)%nat → PP_CAT_FE (Number n) = Some n.
Proof. intros [H1 H2]. unfold PP_CAT_FE. apply Nat.leb_le in H1, H2. by rewrite H1, H2. Qed.

(** 1 to 32 arguments: the macro is applied to each, in order. *)
Lemma PP_FOREACH_each args : (1 ≤ length args ≤ 32)%nat → PP_FOREACH m args = Some (m <$> args).
Proof.
  intros Hl. unfold PP_FOREACH. rewrite PP_NARG_count by done. cbn [mbind option_bind]. rewrite PP_CAT_FE_number by done. cbn [mbind option_bind].
  destruct args as [|x args]; [cbn in Hl; lia|]. by apply PP_FE_length.
Qed.

(** More arguments, of which the 33rd is a name: there is no macro of that name. *)
Lemma PP_FOREACH_many args s : args !! 32%nat = Some (Name s) → PP_FOREACH m args = None.
Proof. intros Hs. unfold PP_FOREACH. by rewrite (PP_NARG_many args _ Hs). Qed.

(** No arguments: one empty argument. *)
Lemma PP_FOREACH_none : PP_FOREACH m [] = Some [m Nothing].
Proof. done. Qed.
End Foreach.

(** ** [MEMORYPACK_DEFINE]

    A member's name stands for the member; a name that is none, and an empty argument, do
    not compile. *)
Section Define.
Context `{Platform} {V : Type} (lookup_member : String.string → option (member V)).

Definition member_of (a : pp_arg) : option (member V) :=
  match a with Name s => lookup_member s | _ => None end.

(** [MEMORYPACK_DETAIL_WRITE_MEMBER(name)] as a statement. *)
Definition DETAIL_WRITE_MEMBER (v : V) (a : pp_arg) : option (W unit) :=
  m ← member_of a; Some (Write (m_get m v)).

(** [MEMORYPACK_DETAIL_READ_MEMBER(name)] as a statement on [memorypackIndex] and [v]. *)
Definition DETAIL_READ_MEMBER (count : Z) (a : pp_arg) : option (Z * V → R (Z * V)) :=
  m ← member_of a;
  Some (λ '(index, v),
    if count >? index then x ← ReadInto (m_get m v); mret (index + 1, m_set m x v)
    else mret (index + 1, v)).

(** The statements of [Serialize] and [Deserialize], run in order. *)
Definition write_statements (names : list pp_arg) (v : V) : option (W unit) :=
  stmts ← PP_FOREACH (DETAIL_WRITE_MEMBER v) names;
  stmts ← mapM id stmts;
  Some (mapM_ id stmts).

Definition read_statements (names : list pp_arg) (count : Z) : option (Z * V → R (Z * V)) :=
  stmts ← PP_FOREACH (DETAIL_READ_MEMBER count) names;
  stmts ← mapM id stmts;
  Some (λ s, foldl (λ m stmt, m ≫= stmt) (mret s) stmts).

(** [static_cast<uint8_t>(MEMORYPACK_PP_NARG(...))]. *)
Definition DEFINE_MemberCount (names : list pp_arg) : option Z :=
  n ← PP_NARG names;
  match n with Number n => Some (to_unsigned 1 (Z.of_nat n)) | _ => None end.

Lemma mapM_id_fmap {A B} (f : A → option B) (l : list A) : mapM id (f <$> l) = mapM f l.
Proof. induction l as [|x l IH]; [done|]. rewrite fmap_cons. cbn [mapM]. by rewrite IH. Qed.

Lemma write_stmts names ms v : mapM member_of names = Some ms →
  ∃ stmts, mapM (DETAIL_WRITE_MEMBER v) names = Some stmts ∧ ∀ w, mapM_ id stmts w = write_members ms v w.
Proof.
  revert ms. induction names as [|a names IH]; intros ms Hm; [injection Hm as <-; by exists []|].
  apply bind_Some in Hm as (m & Em & Hm). apply bind_Some in Hm as (ms' & Ems & [= <-]).
  destruct (IH ms' Ems) as (stmts & Es & Hw). exists (Write (m_get m v) :: stmts).
  assert (DETAIL_WRITE_MEMBER v a = Some (Write (m_get m v))) as E by (unfold DETAIL_WRITE_MEMBER; by rewrite Em).
  split; [cbn [mapM]; by rewrite E, Es|]. intros w.
  unfold write_members. cbn [mapM_]. unfold mbind, M_bind, id at 1. by destruct (Write (m_get m v) w) as [[]].
Qed.

Lemma foldl_bind {S A} (stmts : list (A → M S A)) (m : M S A) x : foldl (λ m stmt, m ≫= stmt) m stmts x =
  (m ≫= λ a, foldl (λ m stmt, m ≫= stmt) (mret a) stmts) x.
Proof.
  revert m x. induction stmts as [|f stmts IH]; intros m x; cbn [foldl].
  - unfold mbind, M_bind, mret, M_ret. by destruct (m x) as [[]].
  - rewrite IH. unfold mbind, M_bind in *. destruct (m x) as [[a| |] x']; [|done..]. by rewrite IH.
Qed.

(** One member, as a statement on the index and the object. *)
Definition read_one (count : Z) (m : member V) (s : Z * V) : R (Z * V) :=
  if count >? s.1 then x ← ReadInto (m_get m s.2); mret (s.1 + 1, m_set m x s.2) else mret (s.1 + 1, s.2).

Lemma read_members_cons count index m ms v r :
  read_members count index (m :: ms) v r = (read_one count m (index, v) ≫= λ s, read_members count s.1 ms s.2) r.
Proof.
  unfold read_one. cbn [read_members fst snd]. unfold mbind, M_bind. destruct (count >? index); [|done].
  by destruct (ReadInto (m_get m v) r) as [[x| |] r'].
Qed.

Lemma DETAIL_READ_MEMBER_one count a m : member_of a = Some m → ∃ f, DETAIL_READ_MEMBER count a = Some f ∧ ∀ s, f s = read_one count m s.
Proof. intros Em. unfold DETAIL_READ_MEMBER. rewrite Em. eexists. split; [reflexivity|]. by intros [index v]. Qed.

Lemma read_stmts names ms count : mapM member_of names = Some ms →
  ∃ stmts, mapM (DETAIL_READ_MEMBER count) names = Some stmts ∧
  ∀ s r, (foldl (λ m stmt, m ≫= stmt) (mret s) stmts ≫= λ s, mret s.2) r = read_members count s.1 ms s.2 r.
Proof.
  revert ms. induction names as [|a names IH]; intros ms Hm; [injection Hm as <-; by exists []|].
  apply bind_Some in Hm as (m & Em & Hm). apply bind_Some in Hm as (ms' & Ems & [= <-]).
  destruct (IH ms' Ems) as (stmts & Es & Hr), (DETAIL_READ_MEMBER_one count a m Em) as (f & Ef & Hf).
  exists (f :: stmts). split; [cbn [mapM]; by rewrite Ef, Es|]. intros s r. rewrite read_members_cons.
  cbn [foldl]. unfold mbind at 1, M_bind at 1. rewrite foldl_bind. unfold mbind, M_bind in Hr |- *. cbn [mret M_ret].
  destruct s as [index v]. rewrite Hf. cbn [fst snd]. destruct (read_one count m (index, v) r) as [[s'| |] r']; [|done..]. apply Hr.
Qed.

(** C12: [MEMORYPACK_DEFINE] generates what its member list says. For 1 to 32 member names,
    the macros count them, [Serialize] writes the members and [Deserialize] reads them, each
    once and in the order of the list; for more than 32 names, or none, nothing compiles. *)
Theorem DEFINE_expands names : Forall (λ a, ∃ s, a = Name s) names →
  (∀ ms, (1 ≤ length names ≤ 32)%nat → mapM member_of names = Some ms →
    DEFINE_MemberCount names = Some (zlen ms) ∧
    (∀ v, ∃ body, write_statements names v = Some body ∧ ∀ w, body w = write_members ms v w) ∧
    (∀ count, ∃ body, read_statements names count = Some body ∧
      ∀ v r, (body (0, v) ≫= λ s, mret s.2) r = read_members count 0 ms v r)) ∧
  ((length names = 0 ∨ 32 < length names)%nat →
    (∀ v, write_statements names v = None) ∧ (∀ count, read_statements names count = None)).
Proof.
  intros Hn. split.
  - intros ms Hl Hm. pose proof (length_mapM _ _ _ Hm) as Hlen. split; [|split].
    + unfold DEFINE_MemberCount. rewrite PP_NARG_count by done. cbn. f_equal. rewrite Hlen in *. apply Z.mod_small. change (pow256 1) with 256. unfold zlen. lia.
    + intros v. destruct (write_stmts names ms v Hm) as (stmts & Es & Hw). unfold write_statements.
      rewrite PP_FOREACH_each by done. cbn. rewrite mapM_id_fmap, Es. by eexists.
    + intros count. destruct (read_stmts names ms count Hm) as (stmts & Es & Hr). unfold read_statements.
      rewrite PP_FOREACH_each by done. cbn. rewrite mapM_id_fmap, Es. eexists. split; [done|]. intros v r. apply (Hr (0, v)).
  - intros [Hl|Hl].
    + apply nil_length_inv in Hl as ->. done.
    + destruct (lookup_lt_is_Some_2 names 32 Hl) as [a Ha]. pose proof (Forall_lookup_1 _ _ _ _ Hn Ha) as [s ->].
      unfold write_statements, read_statements. split; intros; by rewrite (PP_FOREACH_many _ _ _ Ha).
Qed.
End Define.

(** [struct Point { int32_t x, y; }; MEMORYPACK_DEFINE(Point, x, y)]. *)
Section Witness.
#[local] Existing Instance host64.

Definition point : Type := prim Int32 * prim Int32.
Definition point_x : member point := Member (prim Int32) fst (λ x v, (x, v.2)).
Definition point_y : member point := Member (prim Int32) snd (λ y v, (v.1, y)).

Definition point_member (s : String.string) : option (member point) :=
  if bool_decide (s = "x"%string) then Some point_x else if bool_decide (s = "y"%string) then Some point_y else None.

Lemma DEFINE_expands_witness :
  (∃ body, write_statements point_member [Name "x"; Name "y"] (Prim 1, Prim 2) = Some body ∧
    ∀ w, body w = write_members [point_x; point_y] (Prim 1, Prim 2) w) ∧
  write_statements point_member (replicate 33 (Name "x")) (Prim 1, Prim 2) = None.
Proof.
  split.
  - destruct (DEFINE_expands point_member [Name "x"; Name "y"]) as [Hd _]; [repeat constructor; by eexists|].
    destruct (Hd [point_x; point_y]) as (_ & Hw & _); [by split; cbn; lia|reflexivity|]. apply Hw.
  - destruct (DEFINE_expands point_member (replicate 33 (Name "x"))) as [_ Hd]; [|].
    + apply Forall_forall. intros a [-> _]%elem_of_replicate. by eexists.
    + destruct Hd as [Hw _]; [right; rewrite length_replicate; lia|]. apply Hw.
Defined.
End Witness.
