(* ===== verification/DotNet.v ===== *)
(** The .NET value types of [dotnet.hpp]: [Guid], [DateTime], [TimeSpan],
    [DateTimeOffset], [Decimal], [Half], [Int128]/[UInt128] and the
    [System.Numerics] vectors: operations, wire formats and conversions. *)
From S2P Require Import Prelude Endian Writer Reader Headers Utf Strings Formatter Collections Nullable Unmanaged.

(** ** Guid *)

Record Guid := MkGuid { data1 : Z; data2 : Z; data3 : Z; data4 : list Z }.

(** Values of the C++ struct: the widths of its members. *)
Definition Guid_ok (g : Guid) : Prop :=
  0 ≤ data1 g < 2 ^ 32 ∧ 0 ≤ data2 g < 2 ^ 16 ∧ 0 ≤ data3 g < 2 ^ 16 ∧
  zlen (data4 g) = 8 ∧ bytes_ok (data4 g).

(** [Guid::FromBytes]; the argument is a span of exactly 16 bytes. *)
Definition Guid_FromBytes `{Platform} (bytes : list Z) : Guid :=
  MkGuid (endian_convert UInt32 (of_object_bytes UInt32 (slice 0 4 bytes)))
         (endian_convert UInt16 (of_object_bytes UInt16 (slice 4 2 bytes)))
         (endian_convert UInt16 (of_object_bytes UInt16 (slice 6 2 bytes)))
         (slice 8 8 bytes).

(** [text[i]]: every index used below is smaller than the size. *)
Definition char_at (text : list Z) (i : nat) : Z := nth i text 0.

(** The lambda [hex]: value of a hexadecimal digit, or -1. *)
Definition hex (c : Z) : Z :=
  if (48 <=? c) && (c <=? 57) then c - 48
  else if (97 <=? c) && (c <=? 102) then c - 97 + 10
  else if (65 <=? c) && (c <=? 70) then c - 65 + 10
  else -1.

(** The lambda [readHex], in [uint64_t]; the last argument is [v]. *)
Fixpoint readHex (text : list Z) (at_ digits : nat) (v : Z) : option Z :=
  match digits with
  | O => Some v
  | S digits' =>
      let d := hex (char_at text at_) in
      if d <? 0 then None
      else readHex text (S at_) digits' (Z.lor (Z.shiftl v 4 mod 2 ^ 64) d)
  end.

Definition DASH : Z := 45.

Definition Guid_Parse (text : list Z) : option Guid :=
  if negb (zlen text =? 36) then None
  else if negb (char_at text 8 =? DASH) || negb (char_at text 13 =? DASH)
          || negb (char_at text 18 =? DASH) || negb (char_at text 23 =? DASH) then None
  else
    v1 ← readHex text 0 8 0;
    v2 ← readHex text 9 4 0;
    v3 ← readHex text 14 4 0;
    b0 ← readHex text 19 2 0;
    b1 ← readHex text 21 2 0;
    bs ← mapM (λ i : nat, v ← readHex text (24 + i * 2) 2 0; mret (to_unsigned 1 v)) (seq 0 6);
    mret (MkGuid (to_unsigned 4 v1) (to_unsigned 2 v2) (to_unsigned 2 v3)
                 (to_unsigned 1 b0 :: to_unsigned 1 b1 :: bs)).

(** A lower-case hexadecimal digit. *)
Definition hex_digit (d : Z) : Z := if d <? 10 then 48 + d else 97 + d - 10.

(** [printf] of a value under [%0<width>x]: all its digits, at least [width]. The
    fuel is the number of digits of a 64-bit value. *)
Fixpoint print_hex (fuel width : nat) (v : Z) : list Z :=
  match fuel with
  | O => []
  | S fuel' =>
      if (v =? 0) && (width =? 0)%nat then []
      else print_hex fuel' (pred width) (v / 16) ++ [hex_digit (v mod 16)]
  end.

Definition print_x (width : nat) (v : Z) : list Z := print_hex 16 width v.

Definition Guid_ToString (g : Guid) : list Z :=
  take 36
    (print_x 8 (data1 g) ++ [DASH] ++ print_x 4 (data2 g) ++ [DASH] ++ print_x 4 (data3 g) ++ [DASH] ++
     (take 2 (data4 g) ≫= print_x 2) ++ [DASH] ++ (drop 2 (data4 g) ≫= print_x 2)).

(** ** DateTime and TimeSpan *)

Definition TICKS_AT_UNIX_EPOCH : Z := 621355968000000000.
Definition TICKS_PER_SECOND : Z := 10000000.

Inductive DateTimeKind := Unspecified | Utc | Local.

Definition kind_value (k : DateTimeKind) : Z :=
  match k with Unspecified => 0 | Utc => 1 | Local => 2 end.

Record DateTime := MkDateTime { dateData : Z }.

Definition GetTicks (dt : DateTime) : Z := Z.land (dateData dt) 0x3FFFFFFFFFFFFFFF.

(** [static_cast<DateTimeKind>]: the value of the enum, 3 included. *)
Definition GetKind (dt : DateTime) : Z := Z.land (Z.shiftr (dateData dt) 62) 3.

Definition FromTicks (ticks kind : Z) : DateTime :=
  MkDateTime (Z.lor (Z.land (to_unsigned 8 ticks) 0x3FFFFFFFFFFFFFFF) (Z.shiftl kind 62 mod 2 ^ 64)).

(** A signed 64-bit result; [None] is the undefined behaviour of overflow. *)
Definition int64 (v : Z) : option Z :=
  if (- 2 ^ 63 <=? v) && (v <? 2 ^ 63) then Some v else None.

(** [std::chrono::duration_cast] between [int64_t] durations whose periods are the
    fractions [from] and [to] of a second: multiply, then divide towards zero. *)
Definition duration_cast (from to : Z * Z) (n : Z) : option Z :=
  let num := from.1 * to.2 in
  let den := from.2 * to.1 in
  let g := Z.gcd num den in
  p ← int64 (n * (num / g));
  mret (Z.quot p (den / g)).

Definition tick_period : Z * Z := (1, TICKS_PER_SECOND).
Definition nano_period : Z * Z := (1, 1000000000).

(** [system_clock::duration] has an implementation-defined period, [clock]. *)
Definition FromTimePoint (clock : Z * Z) (since : Z) : option DateTime :=
  hundredNs ← duration_cast clock tick_period since;
  ticks ← int64 (hundredNs + TICKS_AT_UNIX_EPOCH);
  mret (FromTicks ticks (kind_value Utc)).

Definition ToTimePoint (clock : Z * Z) (dt : DateTime) : option Z :=
  duration_cast tick_period clock (GetTicks dt - TICKS_AT_UNIX_EPOCH).

Record TimeSpan := MkTimeSpan { ticks : Z }.

Definition FromDuration (period : Z * Z) (d : Z) : option TimeSpan :=
  hundredNs ← duration_cast period tick_period d;
  mret (MkTimeSpan hundredNs).

Definition ToDuration (t : TimeSpan) : option Z := int64 (ticks t * 100).

(** ** The other value types *)

Record DateTimeOffset := MkDateTimeOffset { offsetMinutes : Z; dateTime : DateTime }.
Record Decimal := MkDecimal { decimal_bits : list Z }.
Record Int128 := MkInt128 { low : Z; high : Z }.
Record UInt128 := MkUInt128 { ulow : Z; uhigh : Z }.
Record Vector2 := MkVector2 { v2_x : Z; v2_y : Z }.
Record Vector3 := MkVector3 { v3_x : Z; v3_y : Z; v3_z : Z }.
Record Vector4 := MkVector4 { v4_x : Z; v4_y : Z; v4_z : Z; v4_w : Z }.
Record Quaternion := MkQuaternion { q_x : Z; q_y : Z; q_z : Z; q_w : Z }.

(** *** Half *)

Record Half := MkHalf { bits : Z }.

(** [value] is the bit pattern of the [float]; [exp] is an [int32_t]. *)
Definition FromFloat (x : Z) : Half :=
  let sign := Z.land (Z.shiftr x 16) 0x8000 in
  let exp := Z.land (Z.shiftr x 23) 0xFF - 127 + 15 in
  let mant := Z.land x 0x7FFFFF in
  if Z.land (Z.shiftr x 23) 0xFF =? 0xFF then
    MkHalf (to_unsigned 2 (Z.lor (Z.lor sign 0x7C00) (if mant =? 0 then 0 else 0x0200)))
  else if exp >=? 0x1F then MkHalf (to_unsigned 2 (Z.lor sign 0x7C00))
  else if exp <=? 0 then
    if exp <? -10 then MkHalf (to_unsigned 2 sign)
    else
      let mant := Z.lor mant 0x800000 in
      let shift := 14 - exp in
      let sub := Z.shiftr mant shift in
      let sub := if Z.land (Z.shiftr mant (shift - 1)) 1 =? 0 then sub else sub + 1 in
      MkHalf (to_unsigned 2 (Z.lor sign sub))
  else
    let half := Z.lor (Z.shiftl exp 10) (Z.shiftr mant 13) in
    let half := if Z.land (Z.shiftr mant 12) 1 =? 0 then half else half + 1 in
    MkHalf (to_unsigned 2 (Z.lor sign half)).

(** [while ((m & 0x0400u) == 0) { m <<= 1; --e; }]; ten rounds reach bit 10 from
    any non-zero 10-bit [m]. [None]: out of fuel. *)
Fixpoint normalise (fuel : nat) (m e : Z) : option (Z * Z) :=
  if Z.land m 0x400 =? 0 then
    match fuel with
    | O => None
    | S fuel' => normalise fuel' (Z.shiftl m 1 mod 2 ^ 32) (e - 1)
    end
  else Some (m, e).

Definition ToFloat (h : Half) : option Z :=
  let sign := Z.shiftl (Z.land (bits h) 0x8000) 16 in
  let exp := Z.land (Z.shiftr (bits h) 10) 0x1F in
  let mant := Z.land (bits h) 0x3FF in
  if exp =? 0 then
    if mant =? 0 then Some sign
    else
      '(m, e) ← normalise 10 mant (127 - 15 + 1);
      let m := Z.land m 0x3FF in
      mret (Z.lor (Z.lor sign (Z.shiftl e 23)) (Z.shiftl m 13))
  else if exp =? 0x1F then Some (Z.lor (Z.lor sign 0x7F800000) (Z.shiftl mant 13))
  else Some (Z.lor (Z.lor sign (Z.shiftl (exp - 15 + 127) 23)) (Z.shiftl mant 13)).

(** [operator==] of [Guid] and [DateTime]. *)
Definition Guid_eq (a b : Guid) : bool :=
  (data1 a =? data1 b) && (data2 a =? data2 b) && (data3 a =? data3 b) && bool_decide (data4 a = data4 b).
Definition DateTime_eq (a b : DateTime) : bool := dateData a =? dateData b.

(** ** Formatters *)

Section Formatters.
Context `{Platform}.

Definition Guid_Serialize (v : Guid) : W unit :=
  WriteUInt32 (data1 v) ;;
  WriteUInt16 (data2 v) ;;
  WriteUInt16 (data3 v) ;;
  WriteBytes (data4 v).

Definition Guid_Deserialize : R Guid :=
  d1 ← ReadUInt32;
  d2 ← ReadUInt16;
  d3 ← ReadUInt16;
  d4 ← read_all 8 ReadUInt8 [];
  mret (MkGuid d1 d2 d3 d4).

#[global] Instance Guid_formatter : MemoryPackFormatter Guid := {
  value_init := MkGuid 0 0 0 (replicate 8 0);
  kind := OtherType;
  Serialize := Guid_Serialize;
  Deserialize := λ _, Guid_Deserialize;
}.

#[global] Instance DateTime_formatter : MemoryPackFormatter DateTime := {
  value_init := MkDateTime 0;
  kind := OtherType;
  Serialize := λ v, WriteUInt64 (dateData v);
  Deserialize := λ _, d ← ReadUInt64; mret (MkDateTime d);
}.

#[global] Instance TimeSpan_formatter : MemoryPackFormatter TimeSpan := {
  value_init := MkTimeSpan 0;
  kind := OtherType;
  Serialize := λ v, WriteInt64 (ticks v);
  Deserialize := λ _, t ← ReadInt64; mret (MkTimeSpan t);
}.

Definition DateTimeOffset_Serialize (v : DateTimeOffset) : W unit :=
  WriteInt16 (offsetMinutes v) ;;
  mapM_ WriteUInt8 (replicate 6 0) ;;
  WriteUInt64 (dateData (dateTime v)).

Definition DateTimeOffset_Deserialize : R DateTimeOffset :=
  m ← ReadInt16;
  Advance 6 ;;
  d ← ReadUInt64;
  mret (MkDateTimeOffset m (MkDateTime d)).

#[global] Instance DateTimeOffset_formatter : MemoryPackFormatter DateTimeOffset := {
  value_init := MkDateTimeOffset 0 (MkDateTime 0);
  kind := OtherType;
  Serialize := DateTimeOffset_Serialize;
  Deserialize := λ _, DateTimeOffset_Deserialize;
}.

#[global] Instance Decimal_formatter : MemoryPackFormatter Decimal := {
  value_init := MkDecimal (replicate 16 0);
  kind := OtherType;
  Serialize := λ v, WriteBytes (decimal_bits v);
  Deserialize := λ _, bs ← read_all 16 ReadUInt8 []; mret (MkDecimal bs);
}.

#[global] Instance Half_formatter : MemoryPackFormatter Half := {
  value_init := MkHalf 0;
  kind := OtherType;
  Serialize := λ v, WriteUInt16 (bits v);
  Deserialize := λ _, b ← ReadUInt16; mret (MkHalf b);
}.

#[global] Instance Int128_formatter : MemoryPackFormatter Int128 := {
  value_init := MkInt128 0 0;
  kind := OtherType;
  Serialize := λ v, WriteUInt64 (low v) ;; WriteInt64 (high v);
  Deserialize := λ _, l ← ReadUInt64; h ← ReadInt64; mret (MkInt128 l h);
}.

#[global] Instance UInt128_formatter : MemoryPackFormatter UInt128 := {
  value_init := MkUInt128 0 0;
  kind := OtherType;
  Serialize := λ v, WriteUInt64 (ulow v) ;; WriteUInt64 (uhigh v);
  Deserialize := λ _, l ← ReadUInt64; h ← ReadUInt64; mret (MkUInt128 l h);
}.

(** The vectors are plain structs of [float]s: [MEMORYPACK_UNMANAGED_EXACT]. *)
Definition float_struct {T} (n : nat) (get : T → list Z) (make : list Z → T) : object_rep T :=
  MkRep (4 * Z.of_nat n) 4
    (λ v, get v ≫= object_bytes Float32)
    (λ bs, make (of_object_bytes Float32 <$> chunks n 4 bs)).

Definition float_fields (n : nat) : list field := (λ i : nat, (4 * Z.of_nat i, 4)) <$> seq 0 n.

#[global] Instance Vector2_unmanaged : Unmanaged Vector2 := {
  um_rep := float_struct 2 (λ v, [v2_x v; v2_y v])
    (λ l, MkVector2 (nth 0 l 0) (nth 1 l 0));
  um_init := MkVector2 0 0;
}.

#[global] Instance Vector3_unmanaged : Unmanaged Vector3 := {
  um_rep := float_struct 3 (λ v, [v3_x v; v3_y v; v3_z v])
    (λ l, MkVector3 (nth 0 l 0) (nth 1 l 0) (nth 2 l 0));
  um_init := MkVector3 0 0 0;
}.

#[global] Instance Vector4_unmanaged : Unmanaged Vector4 := {
  um_rep := float_struct 4 (λ v, [v4_x v; v4_y v; v4_z v; v4_w v])
    (λ l, MkVector4 (nth 0 l 0) (nth 1 l 0) (nth 2 l 0) (nth 3 l 0));
  um_init := MkVector4 0 0 0 0;
}.

#[global] Instance Quaternion_unmanaged : Unmanaged Quaternion := {
  um_rep := float_struct 4 (λ v, [q_x v; q_y v; q_z v; q_w v])
    (λ l, MkQuaternion (nth 0 l 0) (nth 1 l 0) (nth 2 l 0) (nth 3 l 0));
  um_init := MkQuaternion 0 0 0 0;
}.
End Formatters.

(** ** Wire formats and laws *)

Section Wire.
Context `{Platform}.

#[global] Instance Guid_wire : WireFormat Guid := {
  enc := λ g, le_bytes 4 (data1 g) ++ le_bytes 2 (data2 g) ++ le_bytes 2 (data3 g) ++ data4 g;
  wf := Guid_ok;
  within := λ _ _ _, True;
}.

#[global] Instance DateTime_wire : WireFormat DateTime := {
  enc := λ v, le_bytes 8 (dateData v);
  wf := λ v, arith_ok UInt64 (dateData v);
  within := λ _ _ _, True;
}.

#[global] Instance TimeSpan_wire : WireFormat TimeSpan := {
  enc := λ v, le_bytes 8 (ticks v);
  wf := λ v, arith_ok Int64 (ticks v);
  within := λ _ _ _, True;
}.

#[global] Instance DateTimeOffset_wire : WireFormat DateTimeOffset := {
  enc := λ v, le_bytes 2 (offsetMinutes v) ++ replicate 6 0 ++ le_bytes 8 (dateData (dateTime v));
  wf := λ v, arith_ok Int16 (offsetMinutes v) ∧ arith_ok UInt64 (dateData (dateTime v));
  within := λ _ _ _, True;
}.

#[global] Instance Decimal_wire : WireFormat Decimal := {
  enc := decimal_bits;
  wf := λ v, zlen (decimal_bits v) = 16 ∧ bytes_ok (decimal_bits v);
  within := λ _ _ _, True;
}.

#[global] Instance Half_wire : WireFormat Half := {
  enc := λ v, le_bytes 2 (bits v);
  wf := λ v, arith_ok UInt16 (bits v);
  within := λ _ _ _, True;
}.

#[global] Instance Int128_wire : WireFormat Int128 := {
  enc := λ v, le_bytes 8 (low v) ++ le_bytes 8 (high v);
  wf := λ v, arith_ok UInt64 (low v) ∧ arith_ok Int64 (high v);
  within := λ _ _ _, True;
}.

#[global] Instance UInt128_wire : WireFormat UInt128 := {
  enc := λ v, le_bytes 8 (ulow v) ++ le_bytes 8 (uhigh v);
  wf := λ v, arith_ok UInt64 (ulow v) ∧ arith_ok UInt64 (uhigh v);
  within := λ _ _ _, True;
}.
End Wire.

(** A fixed-size formatter: what is left to prove of its laws. *)
Lemma fixed_laws `{Platform} {T} `{!MemoryPackFormatter T, !WireFormat T} (m : R T) :
  kind (T := T) = OtherType → (∀ old : T, Deserialize old = m) →
  (∀ v : T, wf v → emits (Serialize v) (enc v)) →
  (∀ o d (v : T), wf v → reads o d m (enc v) v) →
  safe m anything → needs_bytes 1 m → (∀ v : T, wf v → 1 ≤ zlen (enc v)) →
  (∀ v : T, wf v → bytes_ok (enc v)) → FormatterLaws T.
Proof.
  intros Hk Hm He Hr Hs Hn Hl Hb. split; rewrite ?Hk; try done; intros; rewrite ?Hm; auto.
Qed.

Section FixedReads.
Context `{Platform}.

Lemma reads_bytes o d n bs : length bs = n → reads o d (read_all n ReadUInt8 []) bs bs.
Proof.
  intros <-. replace bs with (bs ≫= λ b, [b]) at 2 by (clear; induction bs; [done|by rewrite bind_cons, IHbs]).
  apply (reads_read_all o d ReadUInt8 (λ b, [b]) bs []); [apply safe_ReadByte_any|].
  intros b _. apply reads_ReadByte.
Qed.

Lemma safe_bytes n : safe (read_all n ReadUInt8 []) anything.
Proof. apply safe_read_all, safe_ReadByte_any. Qed.

Lemma needs_bytes_bytes n : needs_bytes 1 (read_all (S n) ReadUInt8 []).
Proof.
  cbn [read_all]. apply needs_bytes_bind; [apply needs_bytes_ReadByte|apply safe_ReadByte_any|].
  intros b. apply safe_read_all, safe_ReadByte_any.
Qed.

Lemma safe_Advance_any n : 0 ≤ n → safe (Advance n) anything.
Proof. intros Hn r Hr. by apply safe_Advance. Qed.
End FixedReads.

#[export] Hint Resolve safe_bytes needs_bytes_bytes reads_bytes needs_byte_ReadRaw : mp.

(** Proofs that a sequence of fixed-size reads is safe, needs input, or decodes. *)
Ltac fixed_safe :=
  repeat first
    [ progress intros
    | apply safe_ReadRaw_any | apply safe_bytes | apply safe_Advance_any; lia
    | apply safe_map | apply safe_bind_anything ].
Ltac fixed_needs :=
  first [apply needs_bytes_map | apply needs_bytes_bind];
  first [apply needs_byte_ReadRaw | apply needs_bytes_bytes | fixed_safe].
Ltac fixed_reads :=
  repeat first
    [ by apply reads_ReadRaw | by apply reads_Advance | by apply reads_bytes
    | eapply reads_map_eq; [ | solve [fixed_safe] | done]
    | eapply reads_bind; [ | solve [fixed_safe] | | solve [fixed_safe]] ].
Ltac fixed_emits :=
  repeat first
    [ by apply WriteRaw_emits | by apply AppendBytes_emits | apply emits_bind ].

(** The operations and encodings of the instances, without their bytes. *)
Ltac fixed_cbn :=
  cbn [Serialize enc wf Guid_formatter DateTime_formatter TimeSpan_formatter DateTimeOffset_formatter
       Decimal_formatter Half_formatter Int128_formatter UInt128_formatter Guid_wire DateTime_wire
       TimeSpan_wire DateTimeOffset_wire Decimal_wire Half_wire Int128_wire UInt128_wire
       data1 data2 data3 data4 dateData ticks offsetMinutes dateTime decimal_bits bits low high
       ulow uhigh] in *.

Section Laws.
Context `{Platform}.

#[global] Instance Guid_laws : FormatterLaws Guid.
Proof.
  apply (fixed_laws Guid_Deserialize); [done|done| | | | | |].
  - intros v (? & ? & ? & _). fixed_cbn. unfold Guid_Serialize. fixed_emits.
  - intros o d [d1 d2 d3 d4] (H1 & H2 & H3 & Hl & Hb). unfold zlen in Hl. fixed_cbn. unfold Guid_Deserialize.
    assert (length d4 = 8%nat) by lia. fixed_reads.
  - unfold Guid_Deserialize. fixed_safe.
  - unfold Guid_Deserialize. fixed_needs.
  - intros v _. fixed_cbn. zlen_simpl. rewrite zlen_le_bytes. zlen_pos. lia.
  - intros v (_ & _ & _ & _ & Hb). fixed_cbn. by repeat apply bytes_ok_app; try apply le_bytes_ok.
Qed.

#[global] Instance DateTime_laws : FormatterLaws DateTime.
Proof.
  apply (fixed_laws (d ← ReadUInt64; mret (MkDateTime d))); [done|done| | | | | |].
  - intros v Hv. fixed_cbn. fixed_emits.
  - intros o d [v] Hv. fixed_cbn. fixed_reads.
  - fixed_safe.
  - fixed_needs.
  - intros v _. fixed_cbn. by rewrite zlen_le_bytes.
  - intros v _. apply le_bytes_ok.
Qed.

#[global] Instance TimeSpan_laws : FormatterLaws TimeSpan.
Proof.
  apply (fixed_laws (t ← ReadInt64; mret (MkTimeSpan t))); [done|done| | | | | |].
  - intros v Hv. fixed_cbn. fixed_emits.
  - intros o d [v] Hv. fixed_cbn. fixed_reads.
  - fixed_safe.
  - fixed_needs.
  - intros v _. fixed_cbn. by rewrite zlen_le_bytes.
  - intros v _. apply le_bytes_ok.
Qed.

#[global] Instance DateTimeOffset_laws : FormatterLaws DateTimeOffset.
Proof.
  apply (fixed_laws DateTimeOffset_Deserialize); [done|done| | | | | |].
  - intros v [? ?]. fixed_cbn. unfold DateTimeOffset_Serialize. apply emits_bind; [fixed_emits|].
    apply emits_bind; [|fixed_emits]. apply (mapM_emits WriteUInt8 (λ b, [b]) (replicate 6 0)).
    intros x _. apply AppendByte_emits.
  - intros o d [m [t]] [? ?]. fixed_cbn. unfold DateTimeOffset_Deserialize.
    fixed_reads.
  - unfold DateTimeOffset_Deserialize. fixed_safe.
  - unfold DateTimeOffset_Deserialize. fixed_needs.
  - intros v _. fixed_cbn. zlen_simpl. rewrite !zlen_le_bytes. zlen_pos. lia.
  - intros v _. fixed_cbn. repeat apply bytes_ok_app; [apply le_bytes_ok|apply (bytes_ok_zeros 6)|apply le_bytes_ok].
Qed.

#[global] Instance Decimal_laws : FormatterLaws Decimal.
Proof.
  apply (fixed_laws (bs ← read_all 16 ReadUInt8 []; mret (MkDecimal bs))); [done|done| | | | | |].
  - intros v Hv. fixed_cbn. fixed_emits.
  - intros o d [v] [Hl Hv]. unfold zlen in Hl. fixed_cbn. assert (length v = 16%nat) by lia. fixed_reads.
  - fixed_safe.
  - fixed_needs.
  - intros v [Hl _]. fixed_cbn. lia.
  - by intros v [_ Hb].
Qed.

#[global] Instance Half_laws : FormatterLaws Half.
Proof.
  apply (fixed_laws (b ← ReadUInt16; mret (MkHalf b))); [done|done| | | | | |].
  - intros v Hv. fixed_cbn. fixed_emits.
  - intros o d [v] Hv. fixed_cbn. fixed_reads.
  - fixed_safe.
  - fixed_needs.
  - intros v _. fixed_cbn. by rewrite zlen_le_bytes.
  - intros v _. apply le_bytes_ok.
Qed.

#[global] Instance Int128_laws : FormatterLaws Int128.
Proof.
  apply (fixed_laws (l ← ReadUInt64; h ← ReadInt64; mret (MkInt128 l h))); [done|done| | | | | |].
  - intros v [? ?]. fixed_cbn. fixed_emits.
  - intros o d [l h] [? ?]. fixed_cbn. fixed_reads.
  - fixed_safe.
  - fixed_needs.
  - intros v _. fixed_cbn. zlen_simpl. rewrite !zlen_le_bytes. lia.
  - intros v _. apply bytes_ok_app; apply le_bytes_ok.
Qed.

#[global] Instance UInt128_laws : FormatterLaws UInt128.
Proof.
  apply (fixed_laws (l ← ReadUInt64; h ← ReadUInt64; mret (MkUInt128 l h))); [done|done| | | | | |].
  - intros v [? ?]. fixed_cbn. fixed_emits.
  - intros o d [l h] [? ?]. fixed_cbn. fixed_reads.
  - fixed_safe.
  - fixed_needs.
  - intros v _. fixed_cbn. zlen_simpl. rewrite !zlen_le_bytes. lia.
  - intros v _. apply bytes_ok_app; apply le_bytes_ok.
Qed.
End Laws.

(** *** The vectors *)

Section Vectors.
Context `{Platform}.

#[global] Instance Vector2_laws : UnmanagedLaws Vector2.
Proof. by split. Qed.
#[global] Instance Vector3_laws : UnmanagedLaws Vector3.
Proof. by split. Qed.
#[global] Instance Vector4_laws : UnmanagedLaws Vector4.
Proof. by split. Qed.
#[global] Instance Quaternion_laws : UnmanagedLaws Quaternion.
Proof. by split. Qed.

(** An object representation read back, on a host of either byte order. *)

Lemma float_struct_ok {T} n (get : T → list Z) (make : list Z → T) v :
  length (get v) = n → Forall (arith_ok Float32) (get v) → make (get v) = v →
  rep_ok (float_struct n get make) v.
Proof.
  intros Hn Hv Hm. unfold rep_ok, float_struct. cbn [rep_of rep_bytes rep_size]. split; [|split].
  - rewrite <-Hn, (chunks_bind 4); [|intros x _; apply (length_object_bytes Float32)].
    rewrite <-list_fmap_compose. rewrite (list_fmap_ext _ id); [by rewrite list_fmap_id|].
    intros i x Hx. apply of_object_bytes_repr. by eapply Forall_lookup_1; [apply Hv|].
  - clear Hm Hv. subst n. induction (get v) as [|x l IH]; [done|].
    rewrite bind_cons, zlen_app, IH. unfold zlen. rewrite length_object_bytes. cbn [length arith_size]. lia.
  - apply bytes_ok_bind. intros x _. unfold object_bytes. destruct native_little; [|apply Forall_reverse]; apply le_bytes_ok.
Qed.
End Vectors.

(** ** The text form of a Guid *)

Section GuidText.

(** ASCII lower case. *)
Definition to_lower (c : Z) : Z := if (65 <=? c) && (c <=? 90) then c + 32 else c.

(** The [n] hexadecimal digits of [v], most significant first. *)
Fixpoint hex_digits (n : nat) (v : Z) : list Z :=
  match n with
  | O => []
  | S n' => hex_digit (v / 16 ^ Z.of_nat n' mod 16) :: hex_digits n' v
  end.

Lemma hex_hex_digit d : 0 ≤ d < 16 → hex (hex_digit d) = d.
Proof. intros Hd. unfold hex, hex_digit. repeat case_match; lia. Qed.

Lemma hex_digit_hex c : 0 ≤ hex c → hex c < 16 ∧ hex_digit (hex c) = to_lower c.
Proof.
  unfold hex, hex_digit, to_lower. intros Hc.
  destruct (Z.leb_spec 48 c), (Z.leb_spec c 57), (Z.leb_spec 97 c), (Z.leb_spec c 102),
    (Z.leb_spec 65 c), (Z.leb_spec c 70); cbn [andb] in *; try lia; repeat case_match; lia.
Qed.

Lemma length_hex_digits n v : length (hex_digits n v) = n.
Proof. induction n; simpl; congruence. Qed.

Lemma pow16_S n : 16 ^ Z.of_nat (S n) = 16 * 16 ^ Z.of_nat n.
Proof. rewrite Nat2Z.inj_succ, Z.pow_succ_r; lia. Qed.

Lemma pow16_pos n : 0 < 16 ^ Z.of_nat n.
Proof. apply Z.pow_pos_nonneg; lia. Qed.

Lemma hex_digits_snoc n v : hex_digits (S n) v = hex_digits n (v / 16) ++ [hex_digit (v mod 16)].
Proof.
  induction n as [|n IH].
  - cbn. by rewrite Z.div_1_r.
  - change (hex_digits (S (S n)) v) with (hex_digit (v / 16 ^ Z.of_nat (S n) mod 16) :: hex_digits (S n) v).
    rewrite IH. cbn [hex_digits app]. do 2 f_equal. pose proof (pow16_pos n).
    rewrite pow16_S, Zdiv.Zdiv_Zdiv by lia. done.
Qed.

Lemma print_hex_digits fuel n v : (n ≤ fuel)%nat → 0 ≤ v < 16 ^ Z.of_nat n →
  print_hex fuel n v = hex_digits n v.
Proof.
  revert n v. induction fuel as [|fuel IH]; intros n v Hn Hv.
  { by replace n with O by lia. }
  destruct n as [|n]; cbn [print_hex].
  - cbn in Hv. by replace v with 0 by lia.
  - rewrite andb_false_r. cbn [pred]. rewrite pow16_S in Hv. rewrite IH; [by rewrite hex_digits_snoc|lia|].
    split; [apply Z.div_pos; lia|]. apply Z.div_lt_upper_bound; lia.
Qed.

Lemma print_x_digits n v : (n ≤ 16)%nat → 0 ≤ v < 16 ^ Z.of_nat n → print_x n v = hex_digits n v.
Proof. apply print_hex_digits. Qed.

(** One digit: no carry out of 64 bits, and no overlap. *)
Lemma readHex_step acc d : 0 ≤ acc → 16 * acc + 16 ≤ 2 ^ 64 → 0 ≤ d < 16 →
  Z.lor (Z.shiftl acc 4 mod 2 ^ 64) d = 16 * acc + d.
Proof.
  intros Ha Hs Hd. rewrite Z.shiftl_mul_pow2 by lia. rewrite Z.mod_small by lia.
  rewrite <-Z.shiftl_mul_pow2, lor_shiftl_add by lia. lia.
Qed.

Lemma char_at_app pre c post : char_at (pre ++ c :: post) (length pre) = c.
Proof. unfold char_at. rewrite app_nth2 by lia. by rewrite Nat.sub_diag. Qed.

Lemma readHex_digits pre n v post acc : 0 ≤ acc → (acc + 1) * 16 ^ Z.of_nat n ≤ 2 ^ 64 →
  readHex (pre ++ hex_digits n v ++ post) (length pre) n acc =
    Some (acc * 16 ^ Z.of_nat n + v mod 16 ^ Z.of_nat n).
Proof.
  revert pre acc. induction n as [|n IH]; intros pre acc Ha Hacc.
  { cbn [readHex]. f_equal. rewrite Z.mod_1_r. lia. }
  cbn [readHex hex_digits]. pose proof (pow16_pos n). rewrite pow16_S in *.
  change ((?a :: ?l) ++ post) with (a :: l ++ post). rewrite char_at_app.
  pose proof (Z.mod_pos_bound (v / 16 ^ Z.of_nat n) 16 ltac:(lia)) as Hd. rewrite hex_hex_digit by done.
  destruct (Z.ltb_spec ((v / 16 ^ Z.of_nat n) mod 16) 0); [lia|]. rewrite readHex_step by (done || nia).
  rewrite cons_middle, app_assoc. replace (S (length pre)) with (length (pre ++ [hex_digit (v / 16 ^ Z.of_nat n mod 16)]))
    by (rewrite length_app; cbn; lia).
  rewrite IH by nia. f_equal. rewrite (Z.mul_comm 16 (16 ^ _)), (Z.rem_mul_r v) by lia. lia.
Qed.

(** A field that parses is the digits of its value, up to case. *)
Lemma readHex_Some text i n acc v : (i + n ≤ length text)%nat → 0 ≤ acc →
  (acc + 1) * 16 ^ Z.of_nat n ≤ 2 ^ 64 → readHex text i n acc = Some v →
  ∃ u, 0 ≤ u < 16 ^ Z.of_nat n ∧ v = acc * 16 ^ Z.of_nat n + u ∧
       hex_digits n u = to_lower <$> take n (drop i text).
Proof.
  revert i acc. induction n as [|n IH]; intros i acc Hi Ha Hacc.
  { cbn [readHex]. intros [= <-]. exists 0. split_and!; cbn; lia || done. }
  cbn [readHex]. destruct (Z.ltb_spec (hex (char_at text i)) 0) as [|Hh]; [done|].
  destruct (hex_digit_hex _ Hh) as [Hlt Hlow]. pose proof (pow16_pos n) as Hp. rewrite pow16_S in *.
  rewrite readHex_step by (done || nia). intros E.
  destruct (IH (S i) (16 * acc + hex (char_at text i))) as (u & Hu & Hv & Hdig); [lia|nia|nia|done|].
  exists (hex (char_at text i) * 16 ^ Z.of_nat n + u). split_and!; [nia|nia|lia|].
  destruct (lookup_lt_is_Some_2 text i) as [c Hc]; [lia|]. rewrite (drop_S text c i Hc).
  assert (Hci : char_at text i = c) by (by apply nth_lookup_Some). rewrite Hci in *.
  cbn [take fmap list_fmap hex_digits]. f_equal.
  - rewrite <-Hlow. f_equal. rewrite Z.div_add_l by lia. rewrite (Z.div_small u) by done.
    rewrite Z.add_0_r. apply Z.mod_small. lia.
  - etrans; [|exact Hdig]. clear -Hu Hp.
    assert (Hgen : ∀ k w x, (k ≤ n)%nat → hex_digits k (w * 16 ^ Z.of_nat n + x) = hex_digits k x).
    { induction k as [|k IHk]; intros w x Hk; [done|]. cbn [hex_digits]. rewrite IHk by lia. do 2 f_equal.
      replace (Z.of_nat n) with (Z.of_nat (n - S k) + 1 + Z.of_nat k) by lia.
      rewrite !Z.pow_add_r, !Z.mul_assoc by lia. pose proof (pow16_pos k).
      rewrite Z.div_add_l by lia. rewrite Z.pow_1_r, Z.add_comm. by rewrite Z.mod_add. }
    by apply Hgen.
Qed.
End GuidText.

Section GuidParse.

Lemma readHex_field text i n v : (i + n ≤ length text)%nat → (n ≤ 8)%nat → 0 ≤ v < 16 ^ Z.of_nat n →
  take n (drop i text) = hex_digits n v → readHex text i n 0 = Some v.
Proof.
  intros Hi Hn Hv Ht.
  assert (E : text = take i text ++ hex_digits n v ++ drop n (drop i text))
    by (by rewrite <-Ht, take_drop, take_drop).
  assert (Hp : (0 + 1) * 16 ^ Z.of_nat n ≤ 2 ^ 64).
  { assert (16 ^ Z.of_nat n ≤ 16 ^ 8) by (apply Z.pow_le_mono_r; lia). lia. }
  pose proof (readHex_digits (take i text) n v (drop n (drop i text)) 0 ltac:(lia) Hp) as Hr.
  rewrite <-E, length_take, Nat.min_l in Hr by lia. rewrite Hr. f_equal. rewrite Z.mod_small; lia.
Qed.

(** A field of at most eight digits that parses. *)
Lemma readHex_field_inv text i n v : (i + n ≤ length text)%nat → (n ≤ 8)%nat →
  readHex text i n 0 = Some v →
  0 ≤ v < 16 ^ Z.of_nat n ∧ hex_digits n v = to_lower <$> take n (drop i text).
Proof.
  intros Hi Hn E. assert (16 ^ Z.of_nat n ≤ 16 ^ 8) by (apply Z.pow_le_mono_r; lia).
  destruct (readHex_Some text i n 0 v) as (u & Hu & -> & Hd); [done..|lia|done|].
  by rewrite Z.add_0_l.
Qed.

Lemma to_unsigned_hex n v : 0 ≤ v < 16 ^ Z.of_nat (2 * n) → to_unsigned n v = v.
Proof.
  intros Hv. unfold to_unsigned, pow256. apply Z.mod_small. change 16 with (2 ^ 4) in Hv.
  rewrite <-Z.pow_mul_r in Hv by lia. by replace (8 * Z.of_nat n) with (4 * Z.of_nat (2 * n)) by lia.
Qed.

Lemma list_length_8 {A} (l : list A) : zlen l = 8 →
  ∃ a0 a1 a2 a3 a4 a5 a6 a7, l = [a0; a1; a2; a3; a4; a5; a6; a7].
Proof.
  unfold zlen. intros Hl. do 8 (destruct l as [|? l]; [cbn in Hl; lia|]).
  destruct l; [by repeat eexists|cbn in Hl; lia].
Qed.

(** The text of a Guid, digit by digit. *)
Definition Guid_text (g : Guid) : list Z :=
  hex_digits 8 (data1 g) ++ [DASH] ++ hex_digits 4 (data2 g) ++ [DASH] ++ hex_digits 4 (data3 g) ++ [DASH] ++
  (take 2 (data4 g) ≫= hex_digits 2) ++ [DASH] ++ (drop 2 (data4 g) ≫= hex_digits 2).

Lemma Guid_ToString_text g : Guid_ok g → Guid_ToString g = Guid_text g.
Proof.
  destruct g as [d1 d2 d3 d4]. intros (H1 & H2 & H3 & Hl & Hb). cbn [data1 data2 data3 data4] in *.
  destruct (list_length_8 d4 Hl) as (a0 & a1 & a2 & a3 & a4 & a5 & a6 & a7 & ->).
  unfold Guid_ToString, Guid_text. cbn [data1 data2 data3 data4].
  rewrite !print_x_digits by (done || cbn; lia).
  assert (Hx : ∀ l, bytes_ok l → l ≫= print_x 2 = l ≫= hex_digits 2).
  { induction 1 as [|b l Hb' Hl' IH]; [done|]. rewrite !bind_cons, IH.
    rewrite print_x_digits by (unfold byte_ok in *; cbn; lia). done. }
  rewrite !Hx by (by apply Forall_take || by apply Forall_drop). done.
Qed.

(** C40: [Guid::Parse] inverts [ToString]: the text [ToString] formats (without the
    truncation of its 37-byte buffer ever taking effect) parses to the same Guid. *)
Theorem Guid_Parse_ToString g : Guid_ok g → Guid_Parse (Guid_ToString g) = Some g.
Proof.
  intros Hg. rewrite Guid_ToString_text by done. destruct g as [d1 d2 d3 d4].
  destruct Hg as (H1 & H2 & H3 & Hl & Hb). cbn [data1 data2 data3 data4] in *.
  destruct (list_length_8 d4 Hl) as (a0 & a1 & a2 & a3 & a4 & a5 & a6 & a7 & ->).
  unfold bytes_ok in Hb. repeat (apply Forall_cons in Hb as [? Hb]). unfold byte_ok in *. set (text := Guid_text _).
  assert (Hf : ∀ i n v, (i + n ≤ 36)%nat → (n ≤ 8)%nat → 0 ≤ v < 16 ^ Z.of_nat n →
    take n (drop i text) = hex_digits n v → readHex text i n 0 = Some v).
  { intros. by apply readHex_field. }
  unfold Guid_Parse. change (zlen text) with 36. cbn [negb Z.eqb Pos.eqb].
  change (char_at text 8) with DASH. change (char_at text 13) with DASH.
  change (char_at text 18) with DASH. change (char_at text 23) with DASH. cbn [negb orb Z.eqb Pos.eqb DASH].
  rewrite (Hf 0%nat 8%nat d1), (Hf 9%nat 4%nat d2), (Hf 14%nat 4%nat d3), (Hf 19%nat 2%nat a0),
    (Hf 21%nat 2%nat a1) by (lia || done). cbn [mbind option_bind].
  cbn [seq mapM]. rewrite (Hf (24 + 0 * 2)%nat 2%nat a2), (Hf (24 + 1 * 2)%nat 2%nat a3),
    (Hf (24 + 2 * 2)%nat 2%nat a4), (Hf (24 + 3 * 2)%nat 2%nat a5), (Hf (24 + 4 * 2)%nat 2%nat a6),
    (Hf (24 + 5 * 2)%nat 2%nat a7) by (lia || done).
  cbn [mbind option_bind mret option_ret]. by rewrite !to_unsigned_hex.
Qed.

(** The checks before the fields: 36 characters with dashes at 8, 13, 18 and 23. *)
Lemma Guid_Parse_shape text g : Guid_Parse text = Some g → length text = 36%nat ∧
  char_at text 8 = DASH ∧ char_at text 13 = DASH ∧ char_at text 18 = DASH ∧ char_at text 23 = DASH.
Proof.
  unfold Guid_Parse. destruct (Z.eqb_spec (zlen text) 36) as [Hl|]; [|done]. cbn [negb].
  destruct (Z.eqb_spec (char_at text 8) DASH); [|done]. destruct (Z.eqb_spec (char_at text 13) DASH); [|done].
  destruct (Z.eqb_spec (char_at text 18) DASH); [|done]. destruct (Z.eqb_spec (char_at text 23) DASH); [|done].
  intros _. unfold zlen in Hl. split_and!; [lia|done..].
Qed.

(** The fields, read one after the other. *)
Lemma Guid_Parse_fields text g : Guid_Parse text = Some g →
  ∃ v1 v2 v3 b0 b1 b2 b3 b4 b5 b6 b7,
    readHex text 0 8 0 = Some v1 ∧ readHex text 9 4 0 = Some v2 ∧ readHex text 14 4 0 = Some v3 ∧
    readHex text 19 2 0 = Some b0 ∧ readHex text 21 2 0 = Some b1 ∧ readHex text 24 2 0 = Some b2 ∧
    readHex text 26 2 0 = Some b3 ∧ readHex text 28 2 0 = Some b4 ∧ readHex text 30 2 0 = Some b5 ∧
    readHex text 32 2 0 = Some b6 ∧ readHex text 34 2 0 = Some b7 ∧
    g = MkGuid (to_unsigned 4 v1) (to_unsigned 2 v2) (to_unsigned 2 v3)
          (to_unsigned 1 <$> [b0; b1; b2; b3; b4; b5; b6; b7]).
Proof.
  unfold Guid_Parse. destruct (negb _); [done|]. destruct (_ || _); [done|].
  intros E. cbn [seq mapM] in E.
  repeat match type of E with
  | context [readHex text ?i ?n 0] =>
      let i' := eval cbv in i in change (readHex text i n 0) with (readHex text i' n 0) in E;
      destruct (readHex text i' n 0) eqn:?; cbn [mbind option_bind mret option_ret] in E; [|done]
  end.
  injection E as <-. repeat eexists.
Qed.

(** [Guid::Parse] accepts only canonical text: whatever it accepts is, up to
    letter case, what [ToString] prints for the result, and every member is in the
    range of its type. *)
Theorem Guid_ToString_Parse text g :
  Guid_Parse text = Some g → Guid_ok g ∧ Guid_ToString g = to_lower <$> text.
Proof.
  intros E. destruct (Guid_Parse_shape _ _ E) as (Hl & D1 & D2 & D3 & D4).
  destruct (Guid_Parse_fields _ _ E) as (v1 & v2 & v3 & b0 & b1 & b2 & b3 & b4 & b5 & b6 & b7 & Hf).
  destruct_and! Hf. subst g.
  repeat match goal with H : readHex _ _ _ 0 = Some _ |- _ =>
    apply readHex_field_inv in H as [? ?]; [|lia..] end.
  cbn [fmap list_fmap]. rewrite !to_unsigned_hex by done.
  assert (Hok : Guid_ok (MkGuid v1 v2 v3 [b0; b1; b2; b3; b4; b5; b6; b7])).
  { do 4 (split; [done|]). cbn [data4]. unfold bytes_ok. by rewrite !Forall_cons. }
  split; [done|]. rewrite Guid_ToString_text by done. unfold Guid_text. cbn [data1 data2 data3 data4 take drop].
  cbn [mbind list_bind]. repeat match goal with H : hex_digits _ _ = _ |- _ => rewrite H; clear H end.
  clear -Hl D1 D2 D3 D4. do 36 (destruct text as [|? text]; [done|]). destruct text; [|done].
  cbn in D1, D2, D3, D4. by subst.
Qed.
End GuidParse.

(** ** Ticks *)

Section Ticks.

Lemma int64_ok v : - 2 ^ 63 ≤ v < 2 ^ 63 → int64 v = Some v.
Proof.
  intros Hv. unfold int64. destruct (Z.leb_spec (- 2 ^ 63) v), (Z.ltb_spec v (2 ^ 63)); done || lia.
Qed.

(** To a coarser period that is [k] times as long, and back. *)
Lemma duration_cast_coarser T k n : 0 < T → 0 < k → - 2 ^ 63 ≤ n < 2 ^ 63 →
  duration_cast (1, T * k) (1, T) n = Some (Z.quot n k).
Proof.
  intros HT Hk Hn. unfold duration_cast. cbn [fst snd]. rewrite Z.mul_1_l, Z.mul_1_r.
  rewrite Z.gcd_mul_diag_l by lia. rewrite Z.div_same, Z.mul_1_r by lia. rewrite int64_ok by done.
  cbn. do 2 f_equal. rewrite Z.mul_comm, Z.div_mul; lia.
Qed.

Lemma duration_cast_finer T k n : 0 < T → 0 < k → - 2 ^ 63 ≤ n * k < 2 ^ 63 →
  duration_cast (1, T) (1, T * k) n = Some (n * k).
Proof.
  intros HT Hk Hn. unfold duration_cast. cbn [fst snd]. rewrite Z.mul_1_l, Z.mul_1_r.
  rewrite Z.gcd_comm, Z.gcd_mul_diag_l by lia. rewrite (Z.mul_comm T k), Z.div_mul, Z.div_same by lia.
  rewrite int64_ok by done. cbn. by rewrite Z.quot_1_r.
Qed.

Lemma FromTicks_fields t k : 0 ≤ t < 2 ^ 62 → 0 ≤ k < 4 →
  dateData (FromTicks t k) = k * 2 ^ 62 + t.
Proof.
  intros Ht Hk. unfold FromTicks. cbn [dateData].
  change 0x3FFFFFFFFFFFFFFF with (2 ^ 62 - 1). rewrite land_ones_mod by lia.
  unfold to_unsigned. change (pow256 8) with (2 ^ 64). rewrite !(Z.mod_small t) by lia.
  rewrite Z.lor_comm. rewrite Z.mod_small by (rewrite Z.shiftl_mul_pow2; lia).
  by apply lor_shiftl_add.
Qed.

Lemma FromTicks_GetTicks t k : 0 ≤ t < 2 ^ 62 → 0 ≤ k < 4 → GetTicks (FromTicks t k) = t.
Proof.
  intros Ht Hk. unfold GetTicks. rewrite FromTicks_fields by done.
  change 0x3FFFFFFFFFFFFFFF with (2 ^ 62 - 1). rewrite land_ones_mod by lia.
  rewrite Z.add_comm, Z.mod_add by lia. by apply Z.mod_small.
Qed.

Lemma FromTicks_GetKind t k : 0 ≤ t < 2 ^ 62 → 0 ≤ k < 4 → GetKind (FromTicks t k) = k.
Proof.
  intros Ht Hk. unfold GetKind. rewrite FromTicks_fields by done. change 3 with (2 ^ 2 - 1).
  rewrite land_ones_mod, Z.shiftr_div_pow2 by lia.
  rewrite Z.div_add_l, (Z.div_small t) by lia. rewrite Z.mod_small; lia.
Qed.

(** A [DateTime] packs its tick count and kind without loss: for ticks below
    2^62 (all of .NET's) and any of the four two-bit kinds, [GetTicks] and [GetKind]
    recover what [FromTicks] was given, and [dateData] is a 64-bit value. *)
Theorem DateTime_pack_unpack t k : 0 ≤ t < 2 ^ 62 → 0 ≤ k < 4 →
  GetTicks (FromTicks t k) = t ∧ GetKind (FromTicks t k) = k ∧ arith_ok UInt64 (dateData (FromTicks t k)).
Proof.
  intros Ht Hk. rewrite FromTicks_GetTicks, FromTicks_GetKind, FromTicks_fields by done.
  split; [done|]. split; [done|]. change (0 ≤ k * 2 ^ 62 + t < 2 ^ 64). lia.
Qed.

Lemma DateTime_pack_unpack_witness : GetTicks (FromTicks 638000000000000000 1) = 638000000000000000.
Proof. apply (DateTime_pack_unpack 638000000000000000 1); lia. Defined.

(** Conversion from a [system_clock] time point and back, on a clock [k] times
    finer than a tick (100 for nanoseconds, 1 for MSVC): no intermediate result
    overflows while the tick count stays below 2^62, the kind is [Utc], and the round
    trip only drops the part below one tick, rounding towards the epoch. *)
Theorem DateTime_time_point k since : 0 < k → - 2 ^ 63 ≤ since < 2 ^ 63 →
  0 ≤ Z.quot since k + TICKS_AT_UNIX_EPOCH < 2 ^ 62 →
  ∃ dt, FromTimePoint (1, TICKS_PER_SECOND * k) since = Some dt ∧
    GetTicks dt = Z.quot since k + TICKS_AT_UNIX_EPOCH ∧ GetKind dt = kind_value Utc ∧
    ToTimePoint (1, TICKS_PER_SECOND * k) dt = Some (since - Z.rem since k).
Proof.
  intros Hk Hs Ht. unfold FromTimePoint, ToTimePoint, tick_period.
  rewrite duration_cast_coarser by (done || unfold TICKS_PER_SECOND; lia). cbn [mbind option_bind].
  rewrite int64_ok by lia. eexists. split; [done|].
  change (kind_value Utc) with 1. rewrite FromTicks_GetTicks, FromTicks_GetKind, Z.add_simpl_r by lia.
  split; [done|]. split; [done|]. pose proof (Z.quot_rem since k ltac:(lia)).
  rewrite duration_cast_finer; [f_equal; lia|unfold TICKS_PER_SECOND; lia|done|].
  destruct (Z.le_ge_cases 0 since).
  - pose proof (Z.mul_quot_le since k). lia.
  - pose proof (Z.mul_quot_ge since k). lia.
Qed.

Lemma DateTime_time_point_witness : ∃ dt, FromTimePoint nano_period (-150) = Some dt ∧
  GetTicks dt = TICKS_AT_UNIX_EPOCH - 1.
Proof.
  destruct (DateTime_time_point 100 (-150)) as (dt & E & Et & _); [done|done|done|].
  exists dt. split; [exact E|rewrite Et; reflexivity].
Defined.
End Ticks.

(** A clock of [k] units to a tick, at a time [DateTime] can represent. *)
Definition clock_ok (k now : Z) : Prop :=
  0 < k < 2 ^ 40 ∧ - 2 ^ 62 ≤ now < 2 ^ 62 ∧ 0 ≤ Z.quot now k + TICKS_AT_UNIX_EPOCH < 2 ^ 62.

(** To [DateTime] and back loses less than a tick, so no whole second. *)
Lemma clock_drift k now : clock_ok k now → ∃ dt back d,
  FromTimePoint (1, TICKS_PER_SECOND * k) now = Some dt ∧ GetKind dt = kind_value Utc ∧
  ToTimePoint (1, TICKS_PER_SECOND * k) dt = Some back ∧
  int64 (if back >? now then back - now else now - back) = Some d ∧
  duration_cast (1, TICKS_PER_SECOND * k) (1, 1) d = Some 0.
Proof.
  intros (Hk & Hn & Ht). destruct (DateTime_time_point k now) as (dt & E1 & _ & Hkind & E2); [lia..|].
  pose proof (Z.rem_bound_abs now k ltac:(lia)) as Hr.
  set (d := if now - Z.rem now k >? now then now - Z.rem now k - now else now - (now - Z.rem now k)).
  assert (Hd : 0 ≤ d < k) by (subst d; destruct (Z.gtb_spec (now - Z.rem now k) now); lia).
  exists dt, (now - Z.rem now k), d. split_and!; [done..|by rewrite int64_ok by lia|].
  pose proof (duration_cast_coarser 1 (TICKS_PER_SECOND * k) d) as E. rewrite Z.mul_1_l in E.
  rewrite E by (unfold TICKS_PER_SECOND; lia). f_equal. apply Z.quot_small. unfold TICKS_PER_SECOND. lia.
Qed.

(** A clock whose unit is [u] ticks: nothing is lost. *)
Definition coarse_clock_ok (n u now : Z) : Prop :=
  0 < n ∧ 0 < u ∧ TICKS_PER_SECOND = n * u ∧ 0 ≤ now * u + TICKS_AT_UNIX_EPOCH < 2 ^ 62.

Lemma coarse_clock_drift n u now : coarse_clock_ok n u now → ∃ dt,
  FromTimePoint (1, n) now = Some dt ∧ GetKind dt = kind_value Utc ∧ ToTimePoint (1, n) dt = Some now.
Proof.
  intros (Hn & Hu & Hnu & Ht). unfold FromTimePoint, ToTimePoint, tick_period. rewrite Hnu.
  assert (Hr : - 2 ^ 63 ≤ now * u < 2 ^ 63) by (unfold TICKS_AT_UNIX_EPOCH in Ht; lia).
  rewrite duration_cast_finer by done. cbn [mbind option_bind]. rewrite int64_ok by lia. eexists. split; [done|].
  change (kind_value Utc) with 1. rewrite FromTicks_GetTicks, FromTicks_GetKind, Z.add_simpl_r by lia. split; [done|].
  rewrite duration_cast_coarser by done. by rewrite Z.quot_mul by lia.
Qed.

(** A system clock whose period is a second over a multiple or a divisor of 10^7 (a tick
    is 100 ns), at a time that a [DateTime] can represent. *)
Definition clock_at (clock : Z * Z) (now : Z) : Prop :=
  ∃ u, (clock = (1, TICKS_PER_SECOND * u) ∧ clock_ok u now) ∨ (∃ n, clock = (1, n) ∧ coarse_clock_ok n u now).

Lemma clock_at_drift clock now : clock_at clock now → ∃ dt back d,
  FromTimePoint clock now = Some dt ∧ GetKind dt = kind_value Utc ∧ ToTimePoint clock dt = Some back ∧
  int64 (if back >? now then back - now else now - back) = Some d ∧ duration_cast clock (1, 1) d = Some 0.
Proof.
  intros (u & [[-> Hc]|(n & -> & Hc)]); [by apply clock_drift|].
  destruct (coarse_clock_drift n u now Hc) as (dt & E1 & Hk & E2). exists dt, now, 0. split_and!; [done..| |done].
  by rewrite Z.gtb_ltb, Z.ltb_irrefl, Z.sub_diag.
Qed.

(** The clocks of the three standard libraries: nanoseconds (libstdc++), ticks (MSVC) and
    microseconds (libc++), from 1970 to 2100. *)
Lemma standard_clock_at n now : n = 1000000000 ∨ n = TICKS_PER_SECOND ∨ n = 1000000 →
  0 ≤ now < 4102444800 * n → clock_at (1, n) now.
Proof.
  unfold clock_at, clock_ok, coarse_clock_ok, TICKS_AT_UNIX_EPOCH, TICKS_PER_SECOND. intros [-> |[-> | ->]] Hn.
  - exists 100. left. split; [done|]. pose proof (Z.quot_pos now 100). pose proof (Z.mul_quot_le now 100). lia.
  - exists 1. left. split; [done|]. rewrite Z.quot_1_r. lia.
  - exists 10. right. exists 1000000. split; [done|]. lia.
Qed.

(** Every [std::chrono::nanoseconds] has a [TimeSpan], and converting back only drops
    the part below one tick. *)
Lemma TimeSpan_duration d : - 2 ^ 63 ≤ d < 2 ^ 63 →
  ∃ t, FromDuration nano_period d = Some t ∧ ToDuration t = Some (d - Z.rem d 100).
Proof.
  intros Hd. exists (MkTimeSpan (Z.quot d 100)). unfold FromDuration, ToDuration. cbn [ticks].
  change nano_period with (1, TICKS_PER_SECOND * 100). unfold tick_period.
  rewrite duration_cast_coarser by done. split; [done|].
  pose proof (Z.quot_rem d 100 ltac:(lia)). rewrite int64_ok; [f_equal; lia|].
  destruct (Z.le_ge_cases 0 d).
  - pose proof (Z.mul_quot_le d 100). lia.
  - pose proof (Z.mul_quot_ge d 100). lia.
Qed.

(** The other direction is not total: a [TimeSpan] of 30 years. *)
Example TimeSpan_ToDuration_overflow :
  ToDuration (MkTimeSpan (300 * 366 * 86400 * TICKS_PER_SECOND)) = None.
Proof. reflexivity. Qed.

(** ** Half *)

Section HalfFacts.

(** Bit patterns by fields: sign, exponent, mantissa. *)
Definition float_bits (s e m : Z) : Z := s * 2 ^ 31 + e * 2 ^ 23 + m.
Definition half_bits (s e m : Z) : Z := s * 2 ^ 15 + e * 2 ^ 10 + m.

(** What [FromFloat] computes on the magnitude: the bits of the nearest [Half], exact
    halves going up; values from 2^16 on (and those rounding up to it) are infinite,
    those below 2^-25 zero, and every NaN becomes the quiet one. *)
Definition round_half_up (a n : Z) : Z := (a + 2 ^ (n - 1)) / 2 ^ n.

Definition half_magnitude (e m : Z) : Z :=
  if e =? 255 then 0x7C00 + (if m =? 0 then 0 else 0x200)
  else if 143 <=? e then 0x7C00
  else if 113 <=? e then round_half_up ((e - 112) * 2 ^ 23 + m) 13
  else if 102 <=? e then round_half_up (2 ^ 23 + m) (126 - e)
  else 0.

Lemma bit_test a n : 0 ≤ n → Z.land (Z.shiftr a n) 1 = a / 2 ^ n mod 2.
Proof. intros Hn. change 1 with (2 ^ 1 - 1) at 1. by rewrite land_ones_mod, Z.shiftr_div_pow2 by lia. Qed.

(** [a >> n], plus one when the bit below is set. *)
Lemma round_up_bit a n : 0 < n →
  (if Z.land (Z.shiftr a (n - 1)) 1 =? 0 then Z.shiftr a n else Z.shiftr a n + 1) = round_half_up a n.
Proof.
  intros Hn. rewrite bit_test, Z.shiftr_div_pow2 by lia. unfold round_half_up.
  set (p := 2 ^ (n - 1)). assert (Hp : 0 < p) by (apply Z.pow_pos_nonneg; lia).
  assert (E2 : 2 ^ n = p * 2) by (unfold p; rewrite Z.mul_comm, <-Z.pow_succ_r by lia; f_equal; lia).
  rewrite E2. clear E2.
  rewrite <-!Z.div_div by lia. replace (a + p) with (a + 1 * p) by lia. rewrite Z.div_add by lia.
  pose proof (Z.div_mod (a / p) 2 ltac:(lia)). pose proof (Z.mod_pos_bound (a / p) 2 ltac:(lia)).
  destruct (Z.eqb_spec (a / p mod 2) 0) as [E|E].
  - apply (Z.div_unique _ _ _ 1); lia.
  - apply (Z.div_unique _ _ _ 0); lia.
Qed.

Lemma land_pow2 x k : 0 ≤ k → Z.land x (2 ^ k) = x / 2 ^ k mod 2 * 2 ^ k.
Proof.
  intros Hk. rewrite <-Z.testbit_spec' by done. apply Z.bits_inj'. intros i Hi.
  rewrite Z.land_spec, Z.pow2_bits_eqb by done. destruct (Z.testbit x k) eqn:E; cbn [Z.b2z].
  - rewrite Z.mul_1_l, Z.pow2_bits_eqb by done. destruct (Z.eqb_spec k i) as [<-|]; [by rewrite E|apply andb_false_r].
  - rewrite Z.mul_0_l, Z.bits_0. destruct (Z.eqb_spec k i) as [<-|]; [by rewrite E|apply andb_false_r].
Qed.

Lemma float_bits_fields s e m : 0 ≤ s ≤ 1 → 0 ≤ e < 256 → 0 ≤ m < 2 ^ 23 →
  Z.land (Z.shiftr (float_bits s e m) 16) 0x8000 = s * 2 ^ 15 ∧
  Z.land (Z.shiftr (float_bits s e m) 23) 0xFF = e ∧ Z.land (float_bits s e m) 0x7FFFFF = m.
Proof.
  intros Hs He Hm. unfold float_bits. change 0x8000 with (2 ^ 15). change 0xFF with (2 ^ 8 - 1).
  change 0x7FFFFF with (2 ^ 23 - 1). rewrite land_pow2, !land_ones_mod, !Z.shiftr_div_pow2 by lia.
  split_and!; try (symmetry; apply (Z.mod_unique _ _ (s * 2 ^ 8 + e)); lia).
  - rewrite Z.div_div by lia. f_equal. symmetry. apply (Z.mod_unique _ _ 0); [lia|].
    symmetry. apply (Z.div_unique _ _ _ (e * 2 ^ 23 + m)); lia.
  - symmetry. apply (Z.mod_unique _ _ s); [lia|]. symmetry. apply (Z.div_unique _ _ _ m); lia.
Qed.

Lemma round_half_up_bound a n b : 0 < n → 0 ≤ a < b * 2 ^ n → 0 ≤ round_half_up a n ≤ b.
Proof.
  intros Hn Ha. unfold round_half_up. assert (E : 2 ^ n = 2 * 2 ^ (n - 1)) by (rewrite <-Z.pow_succ_r by lia; f_equal; lia).
  assert (0 < 2 ^ (n - 1)) by (apply Z.pow_pos_nonneg; lia). split.
  - apply Z.div_pos; lia.
  - apply Z.lt_succ_r, Z.div_lt_upper_bound; nia.
Qed.

Lemma half_magnitude_bound e m : 0 ≤ m < 2 ^ 23 → 0 ≤ half_magnitude e m < 2 ^ 15.
Proof.
  intros Hm. unfold half_magnitude. destruct (Z.eqb_spec e 255); [destruct (m =? 0); lia|].
  destruct (Z.leb_spec 143 e); [lia|]. destruct (Z.leb_spec 113 e).
  { pose proof (round_half_up_bound ((e - 112) * 2 ^ 23 + m) 13 (31 * 2 ^ 10)). lia. }
  destruct (Z.leb_spec 102 e); [|lia].
  pose proof (round_half_up_bound (2 ^ 23 + m) (126 - e) (2 ^ 10) ltac:(lia)) as Hr.
  assert (2 ^ 14 ≤ 2 ^ (126 - e)) by (apply Z.pow_le_mono_r; lia).
  change (2 ^ 10) with 1024 in Hr. change (2 ^ 23) with 8388608 in *. change (2 ^ 14) with 16384 in *. lia.
Qed.

Lemma MkHalf_sign s x : 0 ≤ s ≤ 1 → 0 ≤ x < 2 ^ 15 →
  MkHalf (to_unsigned 2 (Z.lor (s * 2 ^ 15) x)) = MkHalf (s * 2 ^ 15 + x).
Proof. intros Hs Hx. rewrite lor_base by lia. unfold to_unsigned. rewrite Z.mod_small; [done|]. change (pow256 2) with (2 ^ 16). lia. Qed.

(** The normal case: the exponent and the kept mantissa bits are adjacent. *)
Lemma half_normal e m : 0 ≤ m < 2 ^ 23 →
  (if Z.land (Z.shiftr m 12) 1 =? 0 then Z.lor (Z.shiftl e 10) (Z.shiftr m 13)
   else Z.lor (Z.shiftl e 10) (Z.shiftr m 13) + 1) = round_half_up (e * 2 ^ 23 + m) 13.
Proof.
  intros Hm. rewrite <-(round_up_bit (e * 2 ^ 23 + m)) by lia. change (13 - 1) with 12.
  rewrite !bit_test by lia. rewrite lor_shiftl_add; [|lia|].
  2: { rewrite Z.shiftr_div_pow2 by lia. split; [apply Z.div_pos; lia|apply Z.div_lt_upper_bound; lia]. }
  rewrite !Z.shiftr_div_pow2 by lia.
  replace ((e * 2 ^ 23 + m) / 2 ^ 13) with (e * 2 ^ 10 + m / 2 ^ 13) by (rewrite <-Z.div_add_l by lia; f_equal; lia).
  replace ((e * 2 ^ 23 + m) / 2 ^ 12) with (m / 2 ^ 12 + e * 2 ^ 10 * 2) by (rewrite Z.add_comm, <-Z.div_add_l by lia; f_equal; lia).
  by rewrite Z.mod_add by lia.
Qed.

(** [FromFloat], field by field. *)
Lemma FromFloat_magnitude s e m : 0 ≤ s ≤ 1 → 0 ≤ e < 256 → 0 ≤ m < 2 ^ 23 →
  FromFloat (float_bits s e m) = MkHalf (s * 2 ^ 15 + half_magnitude e m).
Proof.
  intros Hs He Hm. pose proof (half_magnitude_bound e m Hm) as Hb.
  destruct (float_bits_fields s e m Hs He Hm) as (Es & Ee & Em).
  unfold FromFloat. rewrite Es, Ee, Em. unfold half_magnitude in *. destruct (Z.eqb_spec e 255) as [->|].
  { change 0xFF with 255. cbn [Z.eqb Pos.eqb]. rewrite <-Z.lor_assoc.
    replace (Z.lor 0x7C00 (if m =? 0 then 0 else 0x200)) with (0x7C00 + (if m =? 0 then 0 else 0x200))
      by (by destruct (m =? 0)). by apply MkHalf_sign. }
  destruct (Z.eqb_spec e 0xFF); [lia|].
  destruct (Z.leb_spec 143 e), (Z.geb_spec (e - 127 + 15) 0x1F); try lia; [by apply MkHalf_sign|].
  destruct (Z.leb_spec 113 e), (Z.leb_spec (e - 127 + 15) 0); try lia.
  - replace (e - 127 + 15) with (e - 112) by lia. rewrite half_normal by lia. by apply MkHalf_sign.
  - replace (e - 127 + 15) with (e - 112) by lia.
    destruct (Z.leb_spec 102 e), (Z.ltb_spec (e - 112) (-10)); try lia.
    + replace (14 - (e - 112)) with (126 - e) by lia. rewrite (Z.lor_comm m).
      change 0x800000 with (1 * 2 ^ 23). rewrite (lor_base 1), round_up_bit by lia. rewrite Z.mul_1_l.
      by apply MkHalf_sign.
    + rewrite <-(MkHalf_sign s 0) by lia. by rewrite Z.lor_0_r.
Qed.

Lemma half_bits_fields s e m : 0 ≤ s ≤ 1 → 0 ≤ e < 32 → 0 ≤ m < 2 ^ 10 →
  Z.land (half_bits s e m) 0x8000 = s * 2 ^ 15 ∧
  Z.land (Z.shiftr (half_bits s e m) 10) 0x1F = e ∧ Z.land (half_bits s e m) 0x3FF = m.
Proof.
  intros Hs He Hm. unfold half_bits. change 0x8000 with (2 ^ 15). change 0x1F with (2 ^ 5 - 1).
  change 0x3FF with (2 ^ 10 - 1). rewrite land_pow2, !land_ones_mod, !Z.shiftr_div_pow2 by lia.
  split_and!; try (symmetry; apply (Z.mod_unique _ _ (s * 2 ^ 5 + e)); lia).
  - f_equal. symmetry. apply (Z.mod_unique _ _ 0); [lia|].
    symmetry. apply (Z.div_unique _ _ _ (e * 2 ^ 10 + m)); lia.
  - symmetry. apply (Z.mod_unique _ _ s); [lia|]. symmetry. apply (Z.div_unique _ _ _ m); lia.
Qed.

(** Every 16-bit pattern is such a combination. *)
Lemma half_bits_split b : 0 ≤ b < 2 ^ 16 →
  ∃ s e m, b = half_bits s e m ∧ 0 ≤ s ≤ 1 ∧ 0 ≤ e < 32 ∧ 0 ≤ m < 2 ^ 10.
Proof.
  intros Hb. exists (b / 2 ^ 15), (b / 2 ^ 10 mod 32), (b mod 2 ^ 10). unfold half_bits.
  pose proof (Z.div_mod b (2 ^ 10) ltac:(lia)). pose proof (Z.mod_pos_bound b (2 ^ 10) ltac:(lia)).
  pose proof (Z.div_mod (b / 2 ^ 10) 32 ltac:(lia)). pose proof (Z.mod_pos_bound (b / 2 ^ 10) 32 ltac:(lia)).
  replace (b / 2 ^ 15) with (b / 2 ^ 10 / 32) by (rewrite Z.div_div by lia; done). lia.
Qed.

(** The loop ends: it shifts the leading one of a subnormal up to bit 10. *)
Lemma normalise_spec fuel m e : 1 ≤ m < 2 ^ 11 → 2 ^ 10 ≤ m * 2 ^ Z.of_nat fuel →
  ∃ k, 0 ≤ k ≤ Z.of_nat fuel ∧ normalise fuel m e = Some (m * 2 ^ k, e - k) ∧ 2 ^ 10 ≤ m * 2 ^ k < 2 ^ 11.
Proof.
  revert m e. induction fuel as [|fuel IH]; intros m e Hm Hf; cbn [normalise];
    change 0x400 with (2 ^ 10); rewrite land_pow2 by lia; destruct (Z.lt_ge_cases m (2 ^ 10)) as [Hs|Hs].
  - change (2 ^ Z.of_nat 0) with 1 in Hf. lia.
  - replace (m / 2 ^ 10) with 1 by (apply (Z.div_unique _ _ _ (m - 2 ^ 10)); lia).
    exists 0. change (2 ^ 0) with 1. rewrite Z.sub_0_r, Z.mul_1_r. split; [lia|]. split; [reflexivity|lia].
  - rewrite Z.div_small by lia. change (0 mod 2 * 2 ^ 10 =? 0) with true. cbv iota.
    rewrite Z.shiftl_mul_pow2, Z.mod_small by lia.
    rewrite Nat2Z.inj_succ, Z.pow_succ_r in Hf by lia.
    destruct (IH (m * 2 ^ 1) (e - 1)) as (k & Hk & E & Hb); [lia|lia|].
    exists (k + 1). rewrite E. rewrite Z.pow_add_r by lia. replace (m * (2 ^ k * 2 ^ 1)) with (m * 2 ^ 1 * 2 ^ k) by lia.
    split; [lia|]. split; [|done]. do 2 f_equal. lia.
  - replace (m / 2 ^ 10) with 1 by (apply (Z.div_unique _ _ _ (m - 2 ^ 10)); lia).
    exists 0. change (2 ^ 0) with 1. rewrite Z.sub_0_r, Z.mul_1_r. split; [lia|]. split; [reflexivity|lia].
Qed.

Lemma lor_float_bits s e m : 0 ≤ s ≤ 1 → 0 ≤ e < 256 → 0 ≤ m < 2 ^ 10 →
  Z.lor (Z.lor (Z.shiftl (s * 2 ^ 15) 16) (Z.shiftl e 23)) (Z.shiftl m 13) = float_bits s e (m * 2 ^ 13).
Proof.
  intros Hs He Hm. rewrite !Z.shiftl_mul_pow2 by lia.
  replace (s * 2 ^ 15 * 2 ^ 16) with (s * 2 ^ 31) by lia. rewrite (lor_base s) by lia.
  replace (s * 2 ^ 31 + e * 2 ^ 23) with ((s * 2 ^ 8 + e) * 2 ^ 23) by lia. rewrite lor_base by lia.
  unfold float_bits. lia.
Qed.

(** The float a finite or infinite pattern stands for; subnormals are normalised. *)
Lemma ToFloat_fields s e m : 0 ≤ s ≤ 1 → 0 ≤ e < 32 → 0 ≤ m < 2 ^ 10 →
  ∃ e' m', ToFloat (MkHalf (half_bits s e m)) = Some (float_bits s e' m') ∧
    0 ≤ e' < 256 ∧ 0 ≤ m' < 2 ^ 23 ∧
    half_magnitude e' m' = e * 2 ^ 10 + (if (e =? 31) && negb (m =? 0) then 0x200 else m).
Proof.
  intros Hs He Hm. destruct (half_bits_fields s e m Hs He Hm) as (Es & Ee & Em).
  unfold ToFloat. cbn [bits]. rewrite Es, Ee, Em. destruct (Z.eqb_spec e 0) as [->|He0].
  { destruct (Z.eqb_spec m 0) as [->|Hm0].
    - exists 0, 0. split; [|by split_and!]. unfold float_bits. f_equal. rewrite Z.shiftl_mul_pow2 by lia. lia.
    - destruct (normalise_spec 10 m (127 - 15 + 1)) as (k & Hk & -> & Hb); [lia..|]. cbn [mbind option_bind mret option_ret].
      assert (Hk1 : 1 ≤ k) by (destruct (decide (k = 0)) as [->|]; lia). change 0x3FF with (2 ^ 10 - 1).
      rewrite land_ones_mod by lia. replace (m * 2 ^ k mod 2 ^ 10) with (m * 2 ^ k - 2 ^ 10) by (apply (Z.mod_unique _ _ 1); lia).
      rewrite lor_float_bits by lia. eexists _, _. split; [done|]. split; [lia|]. split; [lia|].
      change (127 - 15 + 1) with 113. unfold half_magnitude. destruct (Z.eqb_spec (113 - k) 255); [lia|].
      destruct (Z.leb_spec 143 (113 - k)), (Z.leb_spec 113 (113 - k)), (Z.leb_spec 102 (113 - k)); try lia.
      replace (2 ^ 23 + (m * 2 ^ k - 2 ^ 10) * 2 ^ 13) with (m * 2 ^ (126 - (113 - k))).
      2: { replace (126 - (113 - k)) with (k + 13) by lia. rewrite Z.pow_add_r by lia. lia. }
      unfold round_half_up. rewrite Z.div_add_l, Z.div_small; cbn [Z.eqb andb]; [lia| |].
      + split; [apply Z.pow_nonneg; lia|apply Z.pow_lt_mono_r; lia].
      + apply Z.pow_nonzero; lia. }
  destruct (Z.eqb_spec e 0x1F) as [->|He1].
  { change 0x7F800000 with (Z.shiftl 255 23). rewrite lor_float_bits by lia. eexists _, _. split; [done|].
    split; [lia|]. split; [lia|]. unfold half_magnitude. cbn [Z.eqb Pos.eqb andb].
    destruct (Z.eqb_spec m 0) as [->|]; [done|]. destruct (Z.eqb_spec (m * 2 ^ 13) 0); [lia|done]. }
  rewrite lor_float_bits by lia. eexists _, _. split; [done|]. split; [lia|]. split; [lia|].
  unfold half_magnitude. destruct (Z.eqb_spec (e - 15 + 127) 255); [lia|].
  destruct (Z.leb_spec 143 (e - 15 + 127)), (Z.leb_spec 113 (e - 15 + 127)); try lia.
  destruct (Z.eqb_spec e 31); [lia|]. cbn [andb]. unfold round_half_up.
  symmetry. apply (Z.div_unique _ _ _ (2 ^ 12)); lia.
Qed.

(** [Half] survives the way through [float]: [ToFloat] is defined on every bit
    pattern (its normalisation loop ends), yields a 32-bit pattern, and [FromFloat]
    takes it back to the same bits, except that a NaN comes back as the quiet NaN of
    its sign. *)
Theorem Half_ToFloat_FromFloat b : arith_ok UInt16 b →
  ∃ f, ToFloat (MkHalf b) = Some f ∧ arith_ok Float32 f ∧
    FromFloat f = MkHalf (if (b / 2 ^ 10 mod 32 =? 31) && negb (b mod 2 ^ 10 =? 0)
                          then b / 2 ^ 15 * 2 ^ 15 + 0x7E00 else b).
Proof.
  intros Hb. change (0 ≤ b < 2 ^ 16) in Hb. destruct (half_bits_split b Hb) as (s & e & m & -> & Hs & He & Hm).
  destruct (ToFloat_fields s e m Hs He Hm) as (e' & m' & E & He' & Hm' & Hmag).
  exists (float_bits s e' m'). split; [done|]. split.
  { change (0 ≤ float_bits s e' m' < 2 ^ 32). unfold float_bits. lia. }
  rewrite FromFloat_magnitude, Hmag by done. unfold half_bits.
  replace ((s * 2 ^ 15 + e * 2 ^ 10 + m) / 2 ^ 10) with (s * 2 ^ 5 + e) by (apply (Z.div_unique _ _ _ m); lia).
  replace ((s * 2 ^ 5 + e) mod 32) with e by (apply (Z.mod_unique _ _ s); lia).
  replace ((s * 2 ^ 15 + e * 2 ^ 10 + m) mod 2 ^ 10) with m by (apply (Z.mod_unique _ _ (s * 2 ^ 5 + e)); lia).
  replace ((s * 2 ^ 15 + e * 2 ^ 10 + m) / 2 ^ 15) with s by (apply (Z.div_unique _ _ _ (e * 2 ^ 10 + m)); lia).
  destruct (Z.eqb_spec e 31) as [->|]; cbn [andb]; [destruct (negb _)|]; f_equal; lia.
Qed.

Lemma Half_ToFloat_FromFloat_witness : ∃ f, ToFloat (MkHalf 0x3C00) = Some f ∧ FromFloat f = MkHalf 0x3C00.
Proof.
  destruct (Half_ToFloat_FromFloat 0x3C00) as (f & E & _ & Ef); [by vm_compute|].
  exists f. split; [exact E|exact Ef].
Defined.

(** The comment says "round-to-nearest-even"; a tie goes up instead: 1 + 2^-11 lies
    half way between 0x3C00 (even) and 0x3C01. *)
Example FromFloat_tie_rounds_up : FromFloat 0x3F801000 = MkHalf 0x3C01.
Proof. reflexivity. Qed.
End HalfFacts.

Section GuidBytes.
Context `{Platform}.

(** A field of a byte span, in wire order. *)
Lemma slice_field t off v pre post : arith_ok t v → off = zlen pre →
  endian_convert t (of_object_bytes t (slice off (sizeof t) (pre ++ le_bytes (arith_size t) v ++ post))) = v.
Proof.
  intros Hv ->. replace (sizeof t) with (zlen (le_bytes (arith_size t) v)) by apply zlen_le_bytes.
  rewrite (slice_prefix _ _ (le_bytes (arith_size t) v) post).
  - rewrite endian_convert_of_object_bytes by (apply le_bytes_ok || apply length_le_bytes).
    by apply wire_value_le_bytes.
  - rewrite zlen_to_nat. by rewrite drop_app_length.
Qed.

(** [Guid::FromBytes] agrees with the wire: applied to the 16 bytes [Write] puts
    on the wire for a Guid, on either byte order, it gives that Guid back. *)
Theorem Guid_FromBytes_wire g : Guid_ok g → zlen (enc g) = 16 ∧ Guid_FromBytes (enc g) = g.
Proof.
  destruct g as [d1 d2 d3 d4]. intros (H1 & H2 & H3 & Hl & Hb). fixed_cbn. split.
  { rewrite !zlen_app, !zlen_le_bytes, Hl. done. }
  unfold Guid_FromBytes. f_equal.
  - apply (slice_field UInt32 0 d1 []); done.
  - apply (slice_field UInt16 4 d2 (le_bytes 4 d1)); [done|by rewrite zlen_le_bytes].
  - rewrite (app_assoc (le_bytes 4 d1)). apply (slice_field UInt16 6 d3 (le_bytes 4 d1 ++ le_bytes 2 d2)); [done|].
    by rewrite zlen_app, !zlen_le_bytes.
  - rewrite !app_assoc. apply slice_suffix; [by rewrite !zlen_app, !zlen_le_bytes|done].
Qed.

End GuidBytes.

Section Witness.
#[local] Existing Instance host64.

Lemma Guid_FromBytes_wire_witness :
  Guid_FromBytes (enc (MkGuid 0x01020304 5 6 [7; 8; 9; 10; 11; 12; 13; 14])) =
  MkGuid 0x01020304 5 6 [7; 8; 9; 10; 11; 12; 13; 14].
Proof.
  apply Guid_FromBytes_wire. do 4 (split; [done|]).
  unfold bytes_ok. cbn [data4]. by rewrite !Forall_cons.
Defined.

(** "01020304-0005-0006-0708-090A0B0C0D0E", which [ToString] gives back in lower case. *)
Definition upper_text : list Z :=
  [48; 49; 48; 50; 48; 51; 48; 52; 45; 48; 48; 48; 53; 45; 48; 48; 48; 54; 45; 48; 55; 48; 56; 45;
   48; 57; 48; 65; 48; 66; 48; 67; 48; 68; 48; 69].
Definition sample_guid : Guid := MkGuid 0x01020304 5 6 [7; 8; 9; 10; 11; 12; 13; 14].

Lemma Guid_Parse_ToString_witness : Guid_Parse (Guid_ToString sample_guid) = Some sample_guid.
Proof. apply Guid_Parse_ToString. do 4 (split; [done|]). cbn [data4 sample_guid]. bytes_lit. Defined.

Lemma Guid_ToString_Parse_witness : Guid_ToString sample_guid = to_lower <$> upper_text.
Proof. apply (Guid_ToString_Parse upper_text sample_guid). reflexivity. Defined.
End Witness.
