(* ===== verification/Typing.v ===== *)
(** What decoding gives for every kind of type the library reads: pairs, sets and maps,
    nullable values, objects, unions, unmanaged structs and the .NET value types. *)
From stdpp Require Import gmap sorting.
From S2P Require Import Prelude Endian Writer Reader Headers Utf Strings Formatter Collections Assoc Nullable Objects Decoded Union Unmanaged DotNet.

#[global] Open Scope Z_scope.
#[global] Set Default Goal Selector "!".

(** ** Pairs, sets and maps *)

Section Pairs.
Context `{Platform} {A B : Type} `{!MemoryPackFormatter A, !Decoded A, !DecodedLaws A}.
Context `{!MemoryPackFormatter B, !Decoded B, !DecodedLaws B}.

#[global] Instance pair_decoded : Decoded (A * B) := λ o v, decoded o v.1 ∧ decoded o v.2.

#[global] Instance pair_decoded_laws : DecodedLaws (A * B).
Proof.
  split; [by split; apply decoded_init| |done]. intros [a b] r Hr [Ha Hb]. cbn [fst snd] in *.
  eapply safe_at_bind; [by apply law_decoded|]. intros a' r1 Hr1 S1 Ha'. rewrite <-(rstep_options _ _ S1) in *.
  eapply safe_at_bind; [by apply law_decoded|]. intros b' r2 Hr2 S2 Hb'. by apply safe_at_ret.
Qed.
End Pairs.

(** Insertion adds at most the element inserted. *)
Class ContainerGrowth (C E : Type) `{Container C E} : Prop := {
  c_clear_iterate : c_iterate c_clear = [];
  c_insert_elem : ∀ c x y, y ∈ c_iterate (c_insert c x) → y = x ∨ y ∈ c_iterate c;
  c_insert_size : ∀ c x, zlen (c_iterate (c_insert c x)) ≤ zlen (c_iterate c) + 1;
}.

Lemma tree_emplace_length {K E} `{KeyOrder K} (key : E → K) l x : zlen (tree_emplace key l x) ≤ zlen l + 1.
Proof.
  induction l as [|y l IH]; cbn [tree_emplace]; [done|]. destruct (key_lt _ _); [rewrite !zlen_cons; lia|].
  destruct (key_lt _ _); rewrite !zlen_cons; lia.
Qed.

#[export] Instance map_growth `{KeyOrder K} {V} : ContainerGrowth (std_map K V) (K * V).
Proof. split; [done|intros c x y; apply tree_emplace_elem|intros c x; apply tree_emplace_length]. Qed.

#[export] Instance set_growth `{KeyOrder K} : ContainerGrowth (std_set K) K.
Proof. split; [done|intros c x y; apply tree_emplace_elem|intros c x; apply tree_emplace_length]. Qed.

#[export] Instance unordered_map_growth `{MapOrderLaws K V} : ContainerGrowth (unordered_map K V) (K * V).
Proof.
  split; cbn [c_clear c_insert c_iterate unordered_map_container mapping].
  - apply Permutation_nil_r. by rewrite (map_order_perm ∅), map_to_list_empty.
  - intros [m] [k v] y. cbn [mapping fst snd]. destruct (m !! k) eqn:E; [by right|]. cbn [mapping].
    rewrite (map_order_perm (<[k:=v]> m)), map_to_list_insert by done. rewrite (map_order_perm m). by apply elem_of_cons.
  - intros [m] [k v]. cbn [mapping fst snd]. destruct (m !! k) eqn:E; [cbn [mapping]; lia|]. cbn [mapping]. unfold zlen.
    rewrite (Permutation_length (map_order_perm (<[k:=v]> m))), (Permutation_length (map_order_perm m)).
    rewrite (Permutation_length (map_to_list_insert m k v E)). cbn [length]. lia.
Qed.

#[export] Instance unordered_set_growth `{SetOrderLaws K} : ContainerGrowth (unordered_set K) K.
Proof.
  split; cbn [c_clear c_insert c_iterate unordered_set_container Assoc.members].
  - apply Permutation_nil_r. by rewrite (set_order_perm ∅), elements_empty.
  - intros [s] x y. cbn [Assoc.members]. rewrite !(set_order_perm _), !elem_of_elements. set_solver.
  - intros [s] x. cbn [Assoc.members]. unfold zlen. rewrite !(Permutation_length (set_order_perm _)).
    destruct (decide (x ∈ s)).
    + rewrite (subseteq_union_1_L {[x]} s) by set_solver. lia.
    + rewrite elements_union_singleton by done. cbn [length]. lia.
Qed.

Section Containers.
Context `{Platform} {C E : Type} `{ContainerLaws C E, !ContainerGrowth C E} `{!MemoryPackFormatter E, !Decoded E}.

(** A well-formed container of decoded elements, within the limit. *)
Definition container_decoded : Decoded C := λ o c,
  c_ok c ∧ Forall (decoded o) (c_iterate c) ∧ size_bound o (zlen (c_iterate c)).

Lemma container_clear_decoded o : container_decoded o c_clear.
Proof. split; [apply c_clear_ok|]. rewrite c_clear_iterate. split; [constructor|apply size_bound_0]. Qed.

Lemma safe_container_decoded minEntry (entry : R E) r : 0 < minEntry → r_ok r →
  (∀ r, r_ok r → safe_at r entry (λ x _, decoded (options_ r) x)) →
  safe_at r (read_container (C := C) minEntry entry) (λ c _, container_decoded (options_ r) c).
Proof.
  intros Hmin Hr He. eapply safe_at_mono.
  - apply (safe_filled (decoded (options_ r))
      (λ k c, c_ok c ∧ Forall (decoded (options_ r)) (c_iterate c) ∧ zlen (c_iterate c) ≤ Z.of_nat k)); [done|done| | |].
    + intros r1 Hr1 <-. by apply He.
    + intros k c x (Hc & Hv & Hk) Hx. split; [by apply c_insert_ok|]. pose proof (c_insert_size c x). split; [|lia].
      apply Forall_forall. intros y [->|Hy]%c_insert_elem; [done|]. by eapply Forall_forall in Hv.
    + split; [apply c_clear_ok|]. rewrite c_clear_iterate. by split; [constructor|].
  - intros c ? _ (k & Hk & Hc & Hv & Hl). split; [done|]. split; [done|]. unfold size_bound in *. lia.
Qed.
End Containers.

Section AssocDecoded.
Context `{Platform}.

#[global] Instance std_set_decoded `{KeyOrderLaws K, !Decoded K} : Decoded (std_set K) :=
  container_decoded (E := K).
#[global] Instance std_map_decoded `{KeyOrderLaws K, !Decoded K} `{!Decoded V} : Decoded (std_map K V) :=
  container_decoded (E := K * V).
#[global] Instance unordered_set_decoded `{SetOrderLaws K, !Decoded K} : Decoded (unordered_set K) :=
  container_decoded (E := K).
#[global] Instance unordered_map_decoded `{MapOrderLaws K V, !Decoded K, !Decoded V} : Decoded (unordered_map K V) :=
  container_decoded (E := K * V).

Section Sets.
Context {C E : Type} `{ContainerLaws C E, !ContainerGrowth C E}.
Context `{!MemoryPackFormatter E, !WireFormat E, !FormatterLaws E, !Decoded E, !DecodedLaws E}.

Lemma safe_SetFormatter_decoded r : r_ok r →
  safe_at r (SetFormatter_Deserialize (C := C) (E := E)) (λ c _, container_decoded (E := E) (options_ r) c).
Proof.
  intros Hr. apply safe_container_decoded; [|done|intros; by apply safe_Read_decoded].
  pose proof (ContainerMinSize_ok (T := E)). lia.
Qed.
End Sets.

Section Maps.
Context {C K V : Type} `{ContainerLaws C (K * V), !ContainerGrowth C (K * V)}.
Context `{!MemoryPackFormatter K, !WireFormat K, !FormatterLaws K, !Decoded K, !DecodedLaws K}.
Context `{!MemoryPackFormatter V, !WireFormat V, !FormatterLaws V, !Decoded V, !DecodedLaws V}.

Lemma safe_MapFormatter_decoded r : r_ok r →
  safe_at r (MapFormatter_Deserialize (C := C) (K := K) (V := V)) (λ c _, container_decoded (E := K * V) (options_ r) c).
Proof.
  intros Hr. apply safe_container_decoded; [|done|].
  - pose proof (ContainerMinSize_ok (T := K)). pose proof (ContainerMinSize_ok (T := V)). lia.
  - intros r1 Hr1. exact (law_decoded (T := K * V) value_init r1 Hr1 (decoded_init _)).
Qed.
End Maps.

#[global] Instance std_set_decoded_laws `{KeyOrderLaws K, !MemoryPackFormatter K, !WireFormat K, !FormatterLaws K,
    !Decoded K, !DecodedLaws K} : DecodedLaws (std_set K).
Proof. split; [apply container_clear_decoded| |done]. intros old r Hr _. by apply safe_SetFormatter_decoded. Qed.

#[global] Instance unordered_set_decoded_laws `{SetOrderLaws K, !MemoryPackFormatter K, !WireFormat K, !FormatterLaws K,
    !Decoded K, !DecodedLaws K} : DecodedLaws (unordered_set K).
Proof. split; [apply container_clear_decoded| |done]. intros old r Hr _. by apply safe_SetFormatter_decoded. Qed.

#[global] Instance std_map_decoded_laws `{KeyOrderLaws K, !MemoryPackFormatter K, !WireFormat K, !FormatterLaws K,
    !Decoded K, !DecodedLaws K, !MemoryPackFormatter V, !WireFormat V, !FormatterLaws V, !Decoded V, !DecodedLaws V} :
  DecodedLaws (std_map K V).
Proof. split; [apply container_clear_decoded| |done]. intros old r Hr _. by apply safe_MapFormatter_decoded. Qed.

#[global] Instance unordered_map_decoded_laws `{MapOrderLaws K V, !MemoryPackFormatter K, !WireFormat K, !FormatterLaws K,
    !Decoded K, !DecodedLaws K, !MemoryPackFormatter V, !WireFormat V, !FormatterLaws V, !Decoded V, !DecodedLaws V} :
  DecodedLaws (unordered_map K V).
Proof. split; [apply container_clear_decoded| |done]. intros old r Hr _. by apply safe_MapFormatter_decoded. Qed.
End AssocDecoded.

(** ** Nullable values *)

Section Nullables.
Context `{Platform} {T : Type} `{!MemoryPackFormatter T, !WireFormat T, !FormatterLaws T, !Decoded T, !DecodedLaws T}.

#[global] Instance optional_decoded : Decoded (option T) := λ o v, ∀ x, v = Some x → copied_decoded o x.
#[global] Instance pointer_decoded : Decoded (pointer T) := λ o v, ∀ x, pointee v = Some x → decoded o x.

Lemma safe_Some_decoded r : r_ok r →
  safe_at r (value ← Read; mret (Some (value : T))) (λ v _, ∀ x, v = Some x → decoded (options_ r) x).
Proof.
  intros Hr. eapply safe_at_bind; [by apply safe_Read_decoded|]. intros v r1 Hr1 _ Hv. apply safe_at_ret; [done|].
  by intros x [= <-].
Qed.

Lemma safe_ReadOptional_decoded r : r_ok r →
  safe_at r (ReadOptional (T := T)) (λ v _, ∀ x, v = Some x → decoded (options_ r) x).
Proof.
  intros Hr. eapply safe_at_bind; [by apply safe_PeekIsNull|]. intros [|] r1 Hr1 _ ->.
  - eapply safe_at_bind; [by apply safe_ReadByte|]. intros b r2 Hr2 _ _. by apply safe_at_ret.
  - by apply safe_Some_decoded.
Qed.

Lemma safe_read_null_or_length_decoded r : r_ok r →
  safe_at r (read_null_or_length (T := T)) (λ v _, ∀ x, v = Some x → decoded (options_ r) x).
Proof.
  intros Hr. unfold safe_at. rewrite read_null_or_length_eq. eapply safe_at_bind; [by apply safe_peek_null|].
  intros [|] r1 Hr1 _ ->; [|by apply safe_Some_decoded].
  eapply safe_at_bind; [by apply safe_Advance|]. intros ? r2 Hr2 _ _. by apply safe_at_ret.
Qed.

(** The value bytes of a [Nullable<T>], once copied. *)
Lemma layout_decoded (L : value_layout T) o bs : layout_of kind = Some L → bytes_ok bs → zlen bs = vl_size L →
  copied_decoded o (vl_load L bs).
Proof.
  pose proof law_bulk as Hb. pose proof copied_arith as Hc. intros EL Hbs Hl.
  destruct (kind : type_kind T) as [t to un|t to un|rep| | | |] eqn:Ek; cbn [layout_of] in EL; try done;
    injection EL as <-; cbn [vl_load vl_size] in *.
  - apply (Hc t to); [done|]. apply copied_raw; [done|]. unfold zlen, sizeof in Hl. lia.
  - left. apply Hb, copied_raw; [done|]. unfold zlen, sizeof in Hl. lia.
  - left. by apply Hb.
Qed.

Lemma safe_ReadNullable_decoded (L : value_layout T) r : layout_of kind = Some L → r_ok r →
  safe_at r (ReadNullable L) (λ v _, ∀ x, v = Some x → copied_decoded (options_ r) x).
Proof.
  intros EL Hr. destruct (layout_of_ok L EL) as (Ha & Hs & _). pose proof (NullableSize_room L Ha Hs).
  eapply safe_at_bind; [apply safe_take_bytes; [done|lia]|]. intros [src|] r1 Hr1 _ Hsrc; (apply safe_at_ret; [done|]); [|done].
  destruct Hsrc as (Hz & Hb & _). destruct (bool_decide _); [done|]. intros x [= <-].
  apply layout_decoded; [done|by apply Forall_slice|]. unfold ValueOffset. apply zlen_slice; lia.
Qed.

#[global] Instance optional_decoded_laws : DecodedLaws (option T).
Proof.
  split; [done| |done]. intros old r Hr _.
  assert (Hweak : ∀ m : R (option T), safe_at r m (λ v _, ∀ x, v = Some x → decoded (options_ r) x) →
    safe_at r m (λ v _, decoded (options_ r) v)).
  { intros m Hm. eapply safe_at_mono; [exact Hm|]. intros v ? _ Hv x Hx. left. by apply Hv. }
  change (Deserialize old) with (optional_Deserialize (T := T)). unfold optional_Deserialize.
  pose proof safe_ReadNullable_decoded as Hn. pose proof law_bulk as Hb.
  destruct (kind : type_kind T) as [t to un|t to un|rep|to un| | |] eqn:Ek; cbn [layout_of] in *; try by apply Hn.
  - apply Hweak. eapply safe_at_bind; [by apply safe_ReadString_bound|]. intros [s|] r1 Hr1 _ Hs; (apply safe_at_ret; [done|]); [|done].
    intros x [= <-]. by apply Hb.
  - by apply Hweak, safe_read_null_or_length_decoded.
  - by apply Hweak, safe_read_null_or_length_decoded.
  - by apply Hweak, safe_ReadOptional_decoded.
Qed.

#[global] Instance pointer_decoded_laws : DecodedLaws (pointer T).
Proof.
  split; [done| |done]. intros old r Hr _. eapply safe_at_bind; [by apply safe_ReadOptional_decoded|].
  intros v r1 Hr1 _ Hv. by apply safe_at_ret.
Qed.
End Nullables.

(** ** Unmanaged structs *)

Section Structs.
Context `{Platform} {T : Type}.

(** The default value, or what [sizeof(T)] bytes are as a [T]. *)
Definition rep_decoded (rep : object_rep T) (init v : T) : Prop :=
  v = init ∨ ∃ bs, bytes_ok bs ∧ zlen bs = rep_size rep ∧ v = rep_of rep bs.

Lemma rep_decoded_bytes rep init bs : bytes_ok bs → zlen bs = rep_size rep → rep_decoded rep init (rep_of rep bs).
Proof. intros Hb Hl. right. by exists bs. Qed.

Lemma safe_ReadUnmanaged_decoded (rep : object_rep T) init r : 0 < rep_size rep → r_ok r →
  safe_at r (ReadUnmanaged rep init) (λ v _, rep_decoded rep init v).
Proof.
  intros Hs Hr. eapply safe_at_bind; [apply safe_take_bytes; [done|lia]|].
  intros [bs|] r1 Hr1 _ Hbs; (apply safe_at_ret; [done|]); [|by left]. destruct Hbs as (Hz & Hb & _). by apply rep_decoded_bytes.
Qed.

#[global] Instance unmanaged_decoded `{Unmanaged T} : Decoded T := λ _ v, rep_decoded um_rep um_init v.

#[global] Instance unmanaged_decoded_laws `{UnmanagedLaws T} : DecodedLaws T.
Proof.
  split; [by left| |by intros o bs; apply rep_decoded_bytes].
  intros old r Hr _. apply safe_ReadUnmanaged_decoded; [apply um_size|done].
Qed.

#[global] Instance scrubbed_decoded `{Scrubbed T} : Decoded T := λ _ v, rep_decoded sc_rep sc_init v.

#[global] Instance scrubbed_decoded_laws `{ScrubbedLaws T} : DecodedLaws T.
Proof.
  split; [by left| |by intros o bs; apply rep_decoded_bytes].
  intros old r Hr _. apply safe_ReadUnmanaged_decoded; [apply sc_size|done].
Qed.
End Structs.

(** ** The .NET value types *)

Section DotNet.
Context `{Platform}.

(** Types of kind [OtherType] that are read whole. *)
Lemma plain_decoded_laws {T} `{!MemoryPackFormatter T, !Decoded T} : kind (T := T) = OtherType →
  (∀ o, decoded o (value_init (T := T))) →
  (∀ (old : T) r, r_ok r → safe_at r (Deserialize old) (λ (v : T) _, decoded (options_ r) v)) → DecodedLaws T.
Proof. intros Hk Hi Hd. split; [done|auto|by rewrite Hk]. Qed.

Lemma safe_bytes_decoded n r : r_ok r →
  safe_at r (read_all n ReadUInt8 []) (λ l _, bytes_ok l ∧ length l = n).
Proof. intros Hr. by apply (safe_read_all_inv byte_ok n ReadUInt8 []); [apply safe_ReadByte|constructor|]. Qed.

(** Reads of fixed size, one after the other. *)
Ltac fixed_decoded :=
  repeat (eapply safe_at_bind;
    [first [by apply safe_ReadRaw|by apply safe_bytes_decoded|by apply safe_Advance]|intros ? ? ? _ ?]);
  (apply safe_at_ret; [assumption|]); cbv beta in *.

#[global] Instance Guid_decoded : Decoded Guid := λ _ v, Guid_ok v.
#[global] Instance DateTime_decoded : Decoded DateTime := λ _ v, arith_ok UInt64 (dateData v).
#[global] Instance TimeSpan_decoded : Decoded TimeSpan := λ _ v, arith_ok Int64 (ticks v).
#[global] Instance DateTimeOffset_decoded : Decoded DateTimeOffset := λ _ v,
  arith_ok Int16 (offsetMinutes v) ∧ arith_ok UInt64 (dateData (dateTime v)).
#[global] Instance Decimal_decoded : Decoded Decimal := λ _ v, zlen (decimal_bits v) = 16 ∧ bytes_ok (decimal_bits v).
#[global] Instance Half_decoded : Decoded Half := λ _ v, arith_ok UInt16 (bits v).
#[global] Instance Int128_decoded : Decoded Int128 := λ _ v, arith_ok UInt64 (low v) ∧ arith_ok Int64 (high v).
#[global] Instance UInt128_decoded : Decoded UInt128 := λ _ v, arith_ok UInt64 (ulow v) ∧ arith_ok UInt64 (uhigh v).

#[global] Instance Guid_decoded_laws : DecodedLaws Guid.
Proof.
  apply plain_decoded_laws; [done|intros o; split_and!; try done; apply (bytes_ok_zeros 8)|].
  intros old r Hr. change (Deserialize old) with Guid_Deserialize. unfold Guid_Deserialize. fixed_decoded.
  match goal with Hb : bytes_ok _ ∧ _ |- _ => destruct Hb as [Hb Hl] end. do 3 (split; [done|]).
  split; [|done]. unfold zlen. cbn. by rewrite Hl.
Qed.

#[global] Instance DateTime_decoded_laws : DecodedLaws DateTime.
Proof. apply plain_decoded_laws; [done|done|]. intros old r Hr. by cbn [Deserialize DateTime_formatter]; fixed_decoded. Qed.

#[global] Instance TimeSpan_decoded_laws : DecodedLaws TimeSpan.
Proof. apply plain_decoded_laws; [done|done|]. intros old r Hr. by cbn [Deserialize TimeSpan_formatter]; fixed_decoded. Qed.

#[global] Instance DateTimeOffset_decoded_laws : DecodedLaws DateTimeOffset.
Proof.
  apply plain_decoded_laws; [done|by intros o; split|]. intros old r Hr. cbn [Deserialize DateTimeOffset_formatter].
  unfold DateTimeOffset_Deserialize. fixed_decoded. by split.
Qed.

#[global] Instance Decimal_decoded_laws : DecodedLaws Decimal.
Proof.
  apply plain_decoded_laws; [done|intros o; split; [done|apply (bytes_ok_zeros 16)]|].
  intros old r Hr. cbn [Deserialize Decimal_formatter]. fixed_decoded.
  match goal with Hb : bytes_ok _ ∧ _ |- _ => destruct Hb as [Hb Hl] end. split; [|done]. unfold zlen. cbn. by rewrite Hl.
Qed.

#[global] Instance Half_decoded_laws : DecodedLaws Half.
Proof. apply plain_decoded_laws; [done|done|]. intros old r Hr. by cbn [Deserialize Half_formatter]; fixed_decoded. Qed.

#[global] Instance Int128_decoded_laws : DecodedLaws Int128.
Proof.
  apply plain_decoded_laws; [done|by intros o; split|]. intros old r Hr. cbn [Deserialize Int128_formatter]. fixed_decoded. by split.
Qed.

#[global] Instance UInt128_decoded_laws : DecodedLaws UInt128.
Proof.
  apply plain_decoded_laws; [done|by intros o; split|]. intros old r Hr. cbn [Deserialize UInt128_formatter]. fixed_decoded. by split.
Qed.
End DotNet.
