(* ===== verification/Api.v ===== *)
(** The top-level API ([core.hpp], "Top-level API"): one-shot serialization into a new,
    a caller-owned or a fixed-size buffer and deserialization with and without
    exceptions, with its end-to-end contract. *)
From S2P Require Import Prelude Endian Writer Reader Headers Utf Strings Formatter Collections Objects Decoded.

(** ** Operations *)

Section Operations.
Context `{Platform} {T : Type} `{!MemoryPackFormatter T}.

(** [Serialize(value)]: the result, or how it fails. *)
Definition SerializeNew (value : T) : outcome (list Z) :=
  fst ((Write value ;; TakeBuffer) NewWriter).

(** [Serialize(value, out)]; the second component is [out] afterwards. *)
Definition SerializeInto (value : T) (out : list Z) : outcome unit * list Z :=
  let '(o, w) := Write value (WriterOfVector out) in (o, default [] (vec_ w)).

(** The writer over a span: its pointer ([None] for a null one) and its size. *)
Definition span_writer (buffer : option (list Z)) : MemoryPackWriter :=
  WriterOfBuffer buffer (zlen (default [] buffer)).

(** [SerializeTo(buffer, value)] with the content of [buffer] afterwards. *)
Definition SerializeTo (buffer : option (list Z)) (value : T) : outcome Z * option (list Z) :=
  let '(o, w) := (Write value ;; gets (λ w, if w_Failed w then 0 else w_Size w)) (span_writer buffer) in
  (o, fixedBuf_ w).

Definition TrySerializeTo (buffer : option (list Z)) (value : T) :
    outcome (MemoryPackError + Z) * option (list Z) :=
  match Write value (span_writer buffer) with
  | (Throw _ _, w) =>
      (Ret (inl (if decide (w_error_ w = NoError) then BufferOverflow else w_error_ w)), fixedBuf_ w)
  | (Ret _, w) => (Ret (if w_Failed w then inl (w_error_ w) else inr (w_Size w)), fixedBuf_ w)
  | (UB, w) => (UB, fixedBuf_ w)
  end.

(** [Deserialize<T>(data)], [Deserialize(data, size, out)] and [DeserializeExact]. *)
Definition DeserializeNew (data : list Z) : outcome T :=
  fst (ReadInto value_init (NewReader data DefaultOptions)).

Definition DeserializeInto (data : list Z) (out : T) : outcome T :=
  fst (ReadInto out (NewReader data DefaultOptions)).

Definition DeserializeExact (data : list Z) : outcome T :=
  fst ((v ← ReadInto value_init; _ ← RequireEnd; mret v) (NewReader data DefaultOptions)).

Definition TryDeserialize (data : list Z) : outcome (MemoryPackError + T) :=
  match ReadInto value_init (NewReader data DefaultOptions) with
  | (Throw _ _, r) => Ret (inl (if decide (error_ r = NoError) then BufferUnderflow else error_ r))
  | (Ret v, r) => Ret (if Failed r then inl (error_ r) else inr v)
  | (UB, _) => UB
  end.
End Operations.

(** ** The contract *)

(** What the entry points do with any operations of known effect. *)
Section Entry.
Context `{Platform} {T : Type} `{!MemoryPackFormatter T}.

Lemma owned_GetSpan w : w_step NewWriter w → GetSpan w = take (Z.to_nat (ownedPos_ w)) (owned_ w) ∧
  vec_ w = None ∧ fixedBuf_ w = None.
Proof.
  intros Hs. assert (Hv : vec_ w = None) by by apply (step_vec _ _ Hs).
  assert (Hb : fixedBuf_ w = None).
  { destruct (fixedBuf_ w) eqn:E; [|done]. exfalso.
    assert (Hf : is_fixed w) by by split; [|rewrite E]. apply (step_fixed _ _ Hs) in Hf as [_ Hf]. by apply Hf. }
  split; [|done]. by apply GetSpan_owned.
Qed.

Lemma vector_resize_take {A} (d : A) n l : 0 ≤ n ≤ zlen l → vector_resize d n l = take (Z.to_nat n) l.
Proof.
  unfold vector_resize, zlen. intros Hn. replace (Z.to_nat n - length l)%nat with 0%nat by lia.
  by rewrite app_nil_r.
Qed.

Lemma SerializeNew_writes (v : T) w bs : Serialize v NewWriter = (Ret tt, w) → w_step NewWriter w → GetSpan w = bs →
  SerializeNew v = Ret bs.
Proof.
  intros E Hs G. destruct (owned_GetSpan w Hs) as (Gs & Hvec & Hb). rewrite Gs in G.
  unfold SerializeNew, Write, mbind, M_bind. rewrite E. unfold TakeBuffer. rewrite Hvec, Hb. cbn [fst].
  rewrite vector_resize_take by apply Hs. by rewrite G.
Qed.

Lemma SerializeNew_emits (v : T) bs : emits (Serialize v) bs → zlen bs ≤ grow_limit → SerializeNew v = Ret bs.
Proof.
  intros Hv Hsz. destruct (Hv NewWriter NewWriter_ok) as [Hfit _].
  destruct Hfit as (w & E & Hs & G & _); [exact Hsz|]. by eapply SerializeNew_writes.
Qed.

(** A new reader, with any limits. *)
Lemma new_reader_ready limits data : maxDepth limits < 2 ^ 32 → bytes_ok data → zlen data < size_mod →
  ready limits 0 (NewReader data limits).
Proof. intros Hd Hb Hs. zlen_pos. by split. Qed.

Lemma NewReader_ready data : bytes_ok data → zlen data < size_mod →
  ready DefaultOptions 0 (NewReader data DefaultOptions).
Proof. by apply new_reader_ready. Qed.

Lemma DeserializeInto_reads (v old : T) bs : reads DefaultOptions 0 (Deserialize old) bs v → bytes_ok bs → zlen bs < size_mod →
  DeserializeInto bs old = Ret v.
Proof.
  intros Hv Hb Hs. unfold DeserializeInto, ReadInto.
  destruct (Hv _ (NewReader_ready bs Hb Hs)) as [-> _]; [|done]. done.
Qed.

Lemma DeserializeInto_safe (old : T) (Q : T → Prop) data : safe (Deserialize old) (λ v _, Q v) → bytes_ok data → zlen data < size_mod →
  (∃ v, DeserializeInto data old = Ret v ∧ Q v) ∨ has_exceptions = true ∧ ∃ e off, DeserializeInto data old = Throw e off.
Proof.
  intros Hv Hb Hs. specialize (Hv _ (ready_ok _ _ _ (NewReader_ready data Hb Hs))). unfold safe_at, DeserializeInto, ReadInto in *.
  destruct (Deserialize old _) as [[v|e off|] r]; [|by destruct Hv; eauto|done]. left. exists v. by split; [|apply Hv].
Qed.
End Entry.

Section Contract.
Context `{Platform} {T : Type} `{!MemoryPackFormatter T, !WireFormat T, !FormatterLaws T}.

(** Values every default-configured reader accepts. *)
Definition portable (v : T) : Prop := wf v ∧ within DefaultOptions 0 v.

(** What [Deserialize] makes of an encoding, and of any bytes. *)
Lemma DeserializeNew_enc (v : T) :
  portable v → zlen (enc v) < size_mod → DeserializeNew (enc v) = Ret v.
Proof. intros [Hv Hw] Hl. apply DeserializeInto_reads; [by apply law_reads|by apply law_bytes|done]. Qed.

Lemma DeserializeNew_any body :
  bytes_ok body → zlen body < size_mod →
  (∃ v : T, DeserializeNew body = Ret v) ∨ has_exceptions = true ∧ ∃ e off, DeserializeNew (T := T) body = Throw e off.
Proof.
  intros Hb Hl. destruct (DeserializeInto_safe (value_init (T := T)) (λ _, True) body) as [(v & E & _)|Ht]; [|done..|left; by exists v|by right].
  intros r Hr. by eapply safe_at_mono; [apply law_safe|].
Qed.

Lemma NewReader_rest data : rest (NewReader data DefaultOptions) = data.
Proof. done. Qed.

(** Reading a buffer that starts with an encoding. *)
Lemma ReadInto_enc (v old : T) x : portable v → bytes_ok (enc v ++ x) → zlen (enc v ++ x) < size_mod →
  ReadInto old (NewReader (enc v ++ x) DefaultOptions) =
    (Ret v, skip (zlen (enc v)) (NewReader (enc v ++ x) DefaultOptions)).
Proof.
  intros [Hv Hwi] Hb Hs. apply (law_reads DefaultOptions 0 v old); [done..|by apply NewReader_ready|].
  by exists x.
Qed.

(** Any input at all: a value, or an error reported the way the build reports it. *)
Lemma ReadInto_any data (old : T) : bytes_ok data → zlen data < size_mod →
  safe_at (NewReader data DefaultOptions) (ReadInto old) anything.
Proof. intros Hb Hs. apply (law_safe old), (ready_ok DefaultOptions 0). by apply NewReader_ready. Qed.

(** Writing into an empty writer of either growable mode, or a buffer with room. *)
Lemma Write_fits w (v : T) : wf v → w_ok w → w_Size w + zlen (enc v) ≤ w_limit w →
  ∃ w', Write v w = (Ret tt, w') ∧ w_step w w' ∧ GetSpan w' = GetSpan w ++ enc v ∧
        w_error_ w' = w_error_ w.
Proof. intros Hv Hw Hroom. by apply (law_emits v Hv w Hw). Qed.

Lemma NewWriter_Size : w_Size NewWriter = 0 ∧ w_limit NewWriter = grow_limit.
Proof. done. Qed.

(** C17: Serialization end to end: for every type whose formatter meets the contract,
    [Serialize(value)] returns exactly the wire encoding of the value, and
    [Serialize(value, out)] appends exactly that encoding to [out]. *)
Theorem Serialize_encodes (v : T) out : wf v → zlen out + zlen (enc v) ≤ grow_limit →
  SerializeNew v = Ret (enc v) ∧ SerializeInto v out = (Ret tt, out ++ enc v).
Proof.
  intros Hv Hsz. zlen_pos. split.
  - apply SerializeNew_emits; [by apply law_emits|lia].
  - destruct (Write_fits (WriterOfVector out) v Hv (WriterOfVector_ok out)) as (w & E & Hs & G & _); [done|].
    unfold SerializeInto. rewrite E. destruct (vec_ w) as [l|] eqn:El.
    + unfold GetSpan, w_Size, Data in G. rewrite El in G. cbn in G. rewrite !slice_all in G. by rewrite G.
    + by apply (step_vec _ _ Hs) in El.
Qed.

(** C1: Every portable value survives serialization: deserializing what [Serialize]
    produced gives it back through each of the entry points, into any existing object,
    and the exact and the non-throwing variants agree. *)
Theorem Serialize_Deserialize (v old : T) data : portable v → zlen (enc v) ≤ grow_limit →
  SerializeNew v = Ret data →
  DeserializeNew data = Ret v ∧ DeserializeInto data old = Ret v ∧
  DeserializeExact (T := T) data = Ret v ∧ TryDeserialize data = Ret (inr v).
Proof.
  intros Hp Hsz Hser. pose proof grow_limit_bounds.
  assert (data = enc v) as ->.
  { rewrite (SerializeNew_emits v (enc v)) in Hser by (done || apply law_emits, Hp). by injection Hser. }
  pose proof (law_bytes v (proj1 Hp)) as Hb.
  assert (Hr : ∀ old, ReadInto old (NewReader (enc v) DefaultOptions) =
    (Ret v, skip (zlen (enc v)) (NewReader (enc v) DefaultOptions))).
  { intros o. pose proof (ReadInto_enc v o [] Hp) as Hr. rewrite app_nil_r in Hr. apply Hr; [done|lia]. }
  unfold DeserializeNew, DeserializeInto, DeserializeExact, TryDeserialize, mbind, M_bind. rewrite !Hr.
  split_and!; [done|done| |done]. unfold RequireEnd, mbind, M_bind, gets, IsEnd, skip, size_. cbn.
  by destruct (Z.geb_spec (0 + zlen (enc v)) (zlen (enc v))); [|lia].
Qed.

(** On every proper prefix of an encoding [TryDeserialize] returns an error, and
    [Deserialize] throws in builds with exceptions. *)
Lemma truncated_of_laws (v : T) data : portable v → zlen (enc v) < size_mod →
  data `prefix_of` enc v → data ≠ enc v →
  (∃ e, e ≠ NoError ∧ TryDeserialize (T := T) data = Ret (inl e)) ∧
  (has_exceptions = true → ∃ e off, DeserializeNew (T := T) data = Throw e off).
Proof.
  intros [Hv Hwi] Hsz Hp Hne. assert (Hb : bytes_ok data).
  { destruct Hp as [x Hx]. pose proof (law_bytes v Hv) as Hb. rewrite Hx in Hb. by apply Forall_app in Hb as [? _]. }
  pose proof (prefix_shorter _ _ Hp Hne) as Hlt.
  assert (Hr : ready DefaultOptions 0 (NewReader data DefaultOptions)) by (apply NewReader_ready; [done|lia]).
  destruct (law_reads DefaultOptions 0 v value_init ltac:(done) Hv Hwi _ Hr) as [_ Hf].
  specialize (Hf Hp Hne). pose proof (ReadInto_any data value_init Hb ltac:(lia)) as Hs.
  unfold fails_at, safe_at, TryDeserialize, DeserializeNew, ReadInto, Failed in *.
  destruct (Deserialize value_init _) as [[a|e off|] r]; [| |done].
  - destruct Hs as (_ & Hx & _). split.
    + exists (error_ r). split; [done|]. by rewrite bool_decide_true.
    + intros Hex. by destruct Hf; apply Hx.
  - split; [|by eexists _, _]. exists (error_ r). split; [done|]. by rewrite decide_False.
Qed.

(** A call that returns, or throws in a build with exceptions. *)
Definition ends_well {A} (o : outcome A) : Prop :=
  (∃ v, o = Ret v) ∨ has_exceptions = true ∧ ∃ e off, o = Throw e off.

Lemma safe_ends_well {A} r (m : R A) Q : safe_at r m Q → ends_well (fst (m r)).
Proof. unfold safe_at. destruct (m r) as [[v|e off|] r']; [by left; eexists|by intros [? _]; right; eauto|done]. Qed.

(** All the entry points on arbitrary bytes. *)
Lemma any_input_of_laws data : bytes_ok data → zlen data < size_mod →
  (∃ r, TryDeserialize (T := T) data = Ret r) ∧
  ends_well (DeserializeNew (T := T) data) ∧ (∀ old : T, ends_well (DeserializeInto data old)) ∧
  ends_well (DeserializeExact (T := T) data).
Proof.
  intros Hb Hs. pose proof (λ old, ReadInto_any data old Hb Hs) as Hsafe. split_and!.
  - specialize (Hsafe value_init). unfold safe_at, TryDeserialize in *. by destruct (ReadInto value_init _) as [[a|e off|] r]; eauto.
  - by eapply safe_ends_well.
  - intros old. by eapply safe_ends_well.
  - eapply safe_ends_well. eapply safe_at_bind; [apply Hsafe|]. intros v r Hr _ _.
    eapply safe_at_bind; [by apply safe_RequireEnd|]. intros ok r' Hr' _ _. by apply (safe_at_ret _ _ anything).
Qed.

(** [Deserialize] ignores bytes after the value; [DeserializeExact] throws
    [TrailingBytes] at the first of them, but only in builds with exceptions: without
    them the error stays in the discarded reader and the value is returned. *)
Theorem DeserializeExact_trailing (v : T) x : portable v → x ≠ [] → bytes_ok x →
  zlen (enc v ++ x) < size_mod →
  DeserializeNew (enc v ++ x) = Ret v ∧
  DeserializeExact (T := T) (enc v ++ x) =
    (if has_exceptions then Throw TrailingBytes (zlen (enc v)) else Ret v).
Proof.
  intros Hp Hx Hbx Hsz. assert (Hb : bytes_ok (enc v ++ x)) by (apply bytes_ok_app; [apply law_bytes, Hp|done]).
  pose proof (ReadInto_enc v value_init x Hp Hb Hsz) as E. split; [unfold DeserializeNew; by rewrite E|].
  unfold DeserializeExact, mbind, M_bind. rewrite E.
  unfold RequireEnd, mbind, M_bind, gets, IsEnd, skip, size_, Fail. cbn. rewrite zlen_app.
  assert (0 < zlen x) by (destruct x; [done|zlia]).
  destruct (Z.geb_spec (0 + zlen (enc v)) (zlen (enc v) + zlen x)); [lia|]. by destruct has_exceptions.
Qed.

(** A writer over a caller's buffer, after any number of writes. *)
Lemma fixed_writer_state b w : zlen b < size_mod → w_step (span_writer (Some b)) w →
  ∃ b', fixedBuf_ w = Some b' ∧ vec_ w = None ∧ zlen b' = zlen b ∧ GetSpan w = take (Z.to_nat (w_Size w)) b'.
Proof.
  intros Hb Hs. assert (Hv : vec_ w = None) by by apply (step_vec _ _ Hs).
  assert (Hf : is_fixed w) by by apply (step_fixed _ _ Hs).
  destruct (fixedBuf_ w) as [b'|] eqn:E; [|by destruct Hf]. exists b'. split_and!; [done|done| |].
  - destruct (ok_fixed _ (step_ok _ _ Hs) b' E) as (Hl & _). pose proof (step_limit _ _ Hs) as Hlim.
    unfold w_limit in Hlim. rewrite Hv, E in Hlim. cbn in Hlim. by rewrite Hl.
  - unfold GetSpan, Data, slice. by rewrite Hv, E.
Qed.

(** C26: Serialization into a fixed buffer never leaves it: when the encoding fits it
    is stored at the front and its size returned; otherwise the overflow is reported
    ([TrySerializeTo] returns [BufferOverflow]; [SerializeTo] throws it, or returns 0
    without exceptions), and in both cases the buffer keeps its size. *)
Theorem SerializeTo_bounded (v : T) b : wf v → zlen b < size_mod →
  ∃ b', zlen b' = zlen b ∧
    if decide (zlen (enc v) ≤ zlen b) then
      take (length (enc v)) b' = enc v ∧
      SerializeTo (Some b) v = (Ret (zlen (enc v)), Some b') ∧
      TrySerializeTo (Some b) v = (Ret (inr (zlen (enc v))), Some b')
    else
      TrySerializeTo (Some b) v = (Ret (inl BufferOverflow), Some b') ∧
      if has_exceptions then ∃ off, SerializeTo (Some b) v = (Throw BufferOverflow off, Some b')
      else SerializeTo (Some b) v = (Ret 0, Some b').
Proof.
  intros Hv Hb. destruct (law_emits v Hv (span_writer (Some b)) (WriterOfBuffer_ok b Hb)) as [Hfit Hover].
  zlen_pos. destruct (decide _) as [Hd|Hd].
  - destruct Hfit as (w & E & Hs & G & Herr); [cbn; lia|].
    destruct (fixed_writer_state b w Hb Hs) as (b' & E' & Ev & Hl & Gs). exists b'. split; [done|].
    assert (Hz : w_Size w = zlen (enc v)) by (rewrite <-zlen_GetSpan by apply Hs; by rewrite G).
    rewrite G, Hz, zlen_to_nat in Gs. split; [by rewrite <-Gs|].
    unfold SerializeTo, TrySerializeTo, Write, mbind, M_bind, gets, w_Failed. rewrite E, E', Hz, Herr.
    by rewrite bool_decide_false by (intros Hne; by apply Hne).
  - destruct Hover as (o & w & E & Hs & Herr & Ho); [by split|cbn; lia|].
    destruct (fixed_writer_state b w Hb Hs) as (b' & E' & Ev & Hl & Gs). exists b'. split; [done|].
    cbn in Herr. unfold SerializeTo, TrySerializeTo, Write, mbind, M_bind, gets, w_Failed. rewrite E.
    destruct has_exceptions; [destruct Ho as [off ->]|subst o]; rewrite E', Herr; cbn; eauto.
Qed.
End Contract.

(** ** Typing *)

(** A value that comes out of any of the entry points is [decoded]. *)
Lemma decoded_of_laws `{DecodedLaws T} data (v old : T) : bytes_ok data → zlen data < size_mod →
  decoded DefaultOptions old →
  DeserializeNew data = Ret v ∨ DeserializeInto data old = Ret v ∨ DeserializeExact data = Ret v ∨ TryDeserialize data = Ret (inr v) →
  decoded DefaultOptions v.
Proof.
  intros Hb Hs Hold Hv. pose proof (ready_ok _ _ _ (NewReader_ready data Hb Hs)) as Hr.
  pose proof (law_decoded value_init _ Hr (decoded_init _)) as Hnew. pose proof (law_decoded old _ Hr Hold) as Hinto.
  unfold safe_at in Hnew, Hinto. unfold DeserializeNew, DeserializeInto, DeserializeExact, TryDeserialize, ReadInto, mbind, M_bind in Hv.
  destruct (Deserialize old _) as [[b|? ?|] rb]; [| |done];
    (destruct (Deserialize value_init _) as [[a|? ?|] ra]; [| |done]);
    repeat match goal with
    | H : _ ∨ _ |- _ => destruct H
    | H : _ ∧ _ |- _ => destruct H
    | H : context [if ?c then _ else _] |- _ => destruct c
    | H : context [match RequireEnd ?r with _ => _ end] |- _ => destruct (RequireEnd r) as [[?|? ?|] ?]
    end; cbn [fst mret M_ret] in *; simplify_eq; done.
Qed.

(** ** Concrete runs *)

(** ** Values within the default limits *)

Section Portable.
Context `{Platform}.

(** An object all of whose members are within the default limits. *)
Lemma portable_object {V} `{MembersLaws V} (v : V) :
  Forall (λ s, wf (m_get (ms_member s) v) ∧ within DefaultOptions 1 (m_get (ms_member s) v)) specs → portable v.
Proof. rewrite Forall_forall. intros Hv. split; [|split; [done|]]; intros s Hs; by apply Hv. Qed.

Lemma portable_prim t x : arith_ok t x → wf (Prim (t := t) x) ∧ within DefaultOptions 1 (Prim (t := t) x).
Proof. done. Qed.

Lemma portable_string s : bytes_ok s → zlen s < 2 ^ 16 → wf (Str s) ∧ within DefaultOptions 1 (Str s).
Proof.
  intros Hb Hl. zlen_pos. split; [|cbn; lia]. split; [done|]. split; [cbn; lia|].
  rewrite utf16_length_count by done. pose proof (count_units_bound s 0). cbn. lia.
Qed.

Lemma portable_vector `{FormatterLaws T} (l : list T) : zlen l < 2 ^ 16 →
  Forall (λ v, wf v ∧ within DefaultOptions 1 v) l → wf (Vector l) ∧ within DefaultOptions 1 (Vector l).
Proof.
  rewrite Forall_forall. intros Hn Hl. split; (split; [cbn; lia|]); intros v Hv; by apply Hl.
Qed.
End Portable.

Section Witness.
#[local] Existing Instance host64.

Definition sample : vector (prim Int32) := Vector [Prim 1; Prim (-2)].
Definition sample_bytes : list Z := [2; 0; 0; 0; 1; 0; 0; 0; 254; 255; 255; 255].

Lemma sample_portable : portable sample.
Proof.
  assert (Hin : ∀ v : prim Int32, v ∈ elements sample → v = Prim 1 ∨ v = Prim (-2)).
  { intros v Hv. apply list_elem_of_In in Hv. cbn in Hv. intuition. }
  split; (split; [done|]); intros v Hv; destruct (Hin v Hv) as [-> | ->]; done.
Qed.

Lemma Serialize_encodes_witness : SerializeNew sample = Ret sample_bytes ∧
  SerializeInto sample [7] = (Ret tt, 7 :: sample_bytes).
Proof.
  assert (E : enc sample = sample_bytes) by reflexivity. rewrite <-E. change (7 :: ?l) with ([7] ++ l).
  apply (Serialize_encodes sample [7]); [apply sample_portable|vm_compute; discriminate].
Defined.

Lemma Serialize_Deserialize_witness : TryDeserialize sample_bytes = Ret (inr sample).
Proof.
  apply (Serialize_Deserialize sample (Vector []) sample_bytes sample_portable); [vm_compute; discriminate|reflexivity].
Defined.

Lemma DeserializeExact_trailing_witness :
  DeserializeExact (T := vector (prim Int32)) (sample_bytes ++ [0]) = Throw TrailingBytes 12.
Proof.
  destruct (DeserializeExact_trailing sample [0] sample_portable) as [_ E]; [done| |done|exact E].
  unfold bytes_ok. by rewrite !Forall_cons.
Defined.

Lemma SerializeTo_bounded_witness :
  ∃ b', zlen b' = 3 ∧ TrySerializeTo (Some [9; 9; 9]) sample = (Ret (inl BufferOverflow), Some b').
Proof.
  destruct (SerializeTo_bounded sample [9; 9; 9] (proj1 sample_portable) ltac:(done)) as (b' & Hl & Hb).
  exists b'. split; [exact Hl|]. rewrite decide_False in Hb by (intros Hle; vm_compute in Hle; by apply Hle). apply Hb.
Defined.

(** A null span is not a full buffer: the writer falls into its owned mode, and a
    positive size comes back although nothing was stored. *)
Example SerializeTo_null_span : SerializeTo None sample = (Ret 12, None).
Proof. reflexivity. Qed.
End Witness.
