(* ===== verification/Catalogue.v ===== *)
(** Every type the library can serialize: the types its formatters and macros close under,
    with the laws of each derived once and for all, and what the one-shot API does with
    any input for all of them. *)
From stdpp Require Import gmap.
From S2P Require Import Prelude Endian Writer Reader Headers Utf Strings Formatter Collections Assoc Nullable Objects Decoded Union Unmanaged DotNet Typing Api.

#[global] Open Scope Z_scope.
#[global] Set Default Goal Selector "!".

(** ** The members of a struct *)

(** A member with the wire format of its type and what a reader may give of it. Nothing is
    said of its formatter. *)
Record typed_member (V : Type) := TypedMember {
  tm_member : member V;
  tm_wire : WireFormat (m_type tm_member);
  tm_decoded : Decoded (m_type tm_member);
}.
Arguments TypedMember {V} tm_member {tm_wire tm_decoded}.
Arguments tm_member {V}.
Arguments tm_wire {V}.
Arguments tm_decoded {V}.

#[export] Existing Instances tm_wire tm_decoded.

(** Assigning a member changes that member only. *)
Fixpoint separate {V} (ms : list (member V)) : Prop :=
  match ms with
  | [] => True
  | m :: ms' =>
      (∀ x v, m_get m (m_set m x v) = x) ∧
      Forall (λ m', (∀ x v, m_get m' (m_set m x v) = m_get m' v) ∧ (∀ x v, m_get m (m_set m' x v) = m_get m v)) ms' ∧
      separate ms'
  end.

(** A struct the macro accepts: its members are its own, they determine its value, and
    [V{}] is a value a reader may give. *)
Class Struct (V : Type) `{Members V} := {
  struct_members : list (typed_member V);
  struct_members_eq : tm_member <$> struct_members = members;
  struct_count : zlen struct_members ≤ MAX_MEMBER_COUNT;
  struct_rebuild : ∀ v old : V, foldl (λ acc m, m_set m (m_get m v) acc) old members = v;
  struct_separate : separate members;
  struct_default : ∀ o m, m ∈ struct_members → decoded o (m_get (tm_member m) default_value);
}.

Section StructTypes.
Context `{Platform} {V : Type} `{Struct V}.

Definition struct_enc (v : V) : list Z :=
  zlen struct_members :: (struct_members ≫= λ m, enc (m_get (tm_member m) v)).
Definition struct_wf (v : V) : Prop := ∀ m, m ∈ struct_members → wf (m_get (tm_member m) v).
Definition struct_within (o : ReaderOptions) (d : Z) (v : V) : Prop :=
  ∀ m, m ∈ struct_members → within o d (m_get (tm_member m) v).

Definition struct_wire : WireFormat V := {|
  enc := struct_enc;
  wf := struct_wf;
  within := λ o d v, d + 1 ≤ maxDepth o ∧ struct_within o (d + 1) v;
|}.

Definition struct_tuple_wire : WireFormat (tuple V) := {|
  enc := λ t, struct_enc (components t);
  wf := λ t, struct_wf (components t);
  within := λ o d t, struct_within o d (components t);
|}.

Definition struct_decoded : Decoded V := λ o v,
  ∀ m, m ∈ struct_members → decoded o (m_get (tm_member m) v).
Definition struct_tuple_decoded : Decoded (tuple V) := λ o t, struct_decoded o (components t).
End StructTypes.

Definition empty_decoded {V} `{NoMembers V} : Decoded V := λ _ _, True.

(** ** The alternatives of a variant *)

Record typed_alternative (V : Type) := TypedAlternative {
  ta_alt : alternative V;
  ta_wire : WireFormat (a_type ta_alt);
  ta_decoded : Decoded (a_type ta_alt);
}.
Arguments TypedAlternative {V} ta_alt {ta_wire ta_decoded}.
Arguments ta_alt {V}.
Arguments ta_wire {V}.
Arguments ta_decoded {V}.

#[export] Existing Instances ta_wire ta_decoded.

Class Alternatives (V : Type) `{Variant V} := {
  union_alternatives : list (typed_alternative V);
  union_alternatives_eq : ta_alt <$> union_alternatives = alternatives;
  union_tags : Forall (λ a, 0 ≤ a_tag (ta_alt a) < 65536) union_alternatives;
  union_distinct : NoDup ((λ a, a_tag (ta_alt a)) <$> union_alternatives);
  union_inj_proj : ∀ a v x, a ∈ union_alternatives → a_proj (ta_alt a) v = Some x → a_inj (ta_alt a) x = v;
  union_covered : ∀ v, Exists (λ a, is_Some (a_proj (ta_alt a) v)) union_alternatives;
  union_first : ∃ a, a ∈ union_alternatives ∧ first_alternative = a_inj (ta_alt a) value_init;
}.

Section UnionTypes.
Context {V : Type}.

(** [f] of the alternative that [v] holds. *)
Fixpoint of_alternative {B} (d : B) (f : ∀ a : typed_alternative V, a_type (ta_alt a) → B)
    (alts : list (typed_alternative V)) (v : V) : B :=
  match alts with
  | [] => d
  | a :: alts' => match a_proj (ta_alt a) v with Some x => f a x | None => of_alternative d f alts' v end
  end.

Context `{Alternatives V}.

Definition union_wire : WireFormat V := {|
  enc := of_alternative [] (λ a x, enc_union_header (a_tag (ta_alt a)) ++ enc x) union_alternatives;
  wf := of_alternative True (λ _ x, wf x) union_alternatives;
  within := λ o d, of_alternative True (λ _ x, within o d x) union_alternatives;
|}.

Definition union_decoded : Decoded V := λ o v,
  ∃ a x, a ∈ union_alternatives ∧ v = a_inj (ta_alt a) x ∧ decoded o x.
End UnionTypes.

(** ** Serializable types *)

(** The types that have a formatter, with that formatter, their wire format and what a
    reader may give of them. Users add structs ([MEMORYPACK_DEFINE], [_EMPTY],
    [_UNMANAGED], [_UNMANAGED_SCRUBBED]), tuples and variants; the only thing asked of a
    nullable type is that the null marker is not the start of a value. *)
Inductive serializable `{Platform} : ∀ T : Type, MemoryPackFormatter T → WireFormat T → Decoded T → Prop :=
  | ser_prim t : serializable (prim t) _ _ _
  | ser_enum t : serializable (enum t) _ _ _
  | ser_string : serializable string _ _ _
  | ser_u16string : serializable u16string _ _ _
  | ser_vector T F W D : serializable T F W D → serializable (vector T) _ _ _
  | ser_sequence T F W D : serializable T F W D → serializable (sequence T) _ _ _
  | ser_array T F W D N : serializable T F W D → serializable (array T N) _ _ _
  | ser_pair A FA WA DA B FB WB DB : serializable A FA WA DA → serializable B FB WB DB → serializable (A * B) _ _ _
  | ser_set K F W D `{KeyOrderLaws K} : serializable K F W D → serializable (std_set K) _ _ _
  | ser_map K FK WK DK V FV WV DV `{KeyOrderLaws K} :
      serializable K FK WK DK → serializable V FV WV DV → serializable (std_map K V) _ _ _
  | ser_unordered_set K F W D `{SetOrderLaws K} : serializable K F W D → serializable (unordered_set K) _ _ _
  | ser_unordered_map K FK WK DK V FV WV DV `{MapOrderLaws K V} :
      serializable K FK WK DK → serializable V FV WV DV → serializable (unordered_map K V) _ _ _
  | ser_option T F W D : serializable T F W D → OptionalSafe T → serializable (option T) _ _ _
  | ser_pointer T F W D : serializable T F W D → NullSafe T → serializable (pointer T) _ _ _
  | ser_object V `{Struct V} :
      (∀ m, m ∈ struct_members (V := V) → serializable (m_type (tm_member m)) _ _ _) →
      serializable V object_formatter struct_wire struct_decoded
  | ser_tuple V `{Struct V} :
      (∀ m, m ∈ struct_members (V := V) → serializable (m_type (tm_member m)) _ _ _) →
      serializable (tuple V) tuple_formatter struct_tuple_wire struct_tuple_decoded
  | ser_empty V `{EmptyLaws V} : serializable V empty_formatter empty_wire empty_decoded
  | ser_variant V `{Alternatives V} :
      (∀ a, a ∈ union_alternatives (V := V) → serializable (a_type (ta_alt a)) _ _ _) →
      serializable V variant_formatter union_wire union_decoded
  | ser_unmanaged T `{UnmanagedLaws T} : serializable T unmanaged_formatter unmanaged_wire unmanaged_decoded
  | ser_scrubbed T `{ScrubbedLaws T} : serializable T scrubbed_formatter scrubbed_wire scrubbed_decoded
  | ser_Guid : serializable Guid _ _ _
  | ser_DateTime : serializable DateTime _ _ _
  | ser_TimeSpan : serializable TimeSpan _ _ _
  | ser_DateTimeOffset : serializable DateTimeOffset _ _ _
  | ser_Decimal : serializable Decimal _ _ _
  | ser_Half : serializable Half _ _ _
  | ser_Int128 : serializable Int128 _ _ _
  | ser_UInt128 : serializable UInt128 _ _ _.

Existing Class serializable.
#[export] Hint Mode serializable - ! - - - : typeclass_instances.
#[export] Existing Instances ser_prim ser_enum ser_string ser_u16string ser_vector ser_sequence ser_array ser_pair
  ser_set ser_map ser_unordered_set ser_unordered_map ser_option ser_pointer ser_empty ser_unmanaged ser_scrubbed
  ser_Guid ser_DateTime ser_TimeSpan ser_DateTimeOffset ser_Decimal ser_Half ser_Int128 ser_UInt128.

(** ** The laws of all of them *)

(** The contract only depends on what the wire format says of each value. *)
Lemma laws_of_wire `{Platform} {T} (F : MemoryPackFormatter T) (W W' : WireFormat T) :
  kind (T := T) = OtherType →
  (∀ v, enc (WireFormat := W') v = enc (WireFormat := W) v) →
  (∀ v, wf (WireFormat := W') v ↔ wf (WireFormat := W) v) →
  (∀ o d v, within (WireFormat := W') o d v ↔ within (WireFormat := W) o d v) →
  @FormatterLaws _ T F W → @FormatterLaws _ T F W'.
Proof.
  intros Hk He Hw Hi [Le Lr Ls Ln Lm Lk Lb]. split; intros; rewrite ?Hk, ?He in *; try done.
  - by apply Le, Hw.
  - apply Lr; [done|by apply Hw|by apply Hi].
  - by apply Lm, Hw.
  - by apply Lb, Hw.
Qed.

Section StructLaws.
Context `{Platform} {V : Type} `{Struct V}.

(** A member list with the laws of its types. *)
Fixpoint lawful_specs (ms : list (typed_member V)) :
    (∀ m, m ∈ ms → FormatterLaws (m_type (tm_member m))) → list (member_spec V) :=
  match ms with
  | [] => λ _, []
  | m :: ms' => λ L,
      MemberSpec (tm_member m) (ms_laws := L m (list_elem_of_here m ms')) ::
      lawful_specs ms' (λ m' Hm', L m' (list_elem_of_further m' m ms' Hm'))
  end.

Lemma lawful_specs_members ms L : ms_member <$> lawful_specs ms L = tm_member <$> ms.
Proof. induction ms as [|m ms IH]; [done|]. cbn [lawful_specs]. by rewrite !fmap_cons, IH. Qed.

Lemma lawful_specs_enc ms L v : enc_members (lawful_specs ms L) v = ms ≫= λ m, enc (m_get (tm_member m) v).
Proof.
  unfold enc_members. induction ms as [|m ms IH]; [done|]. cbn [lawful_specs]. by rewrite !bind_cons, IH.
Qed.

Lemma lawful_specs_forall ms L (P : ∀ m : member V, WireFormat (m_type m) → Prop) :
  (∀ s, s ∈ lawful_specs ms L → P (ms_member s) (ms_wire s)) ↔ (∀ m, m ∈ ms → P (tm_member m) (tm_wire m)).
Proof.
  induction ms as [|m ms IH]; cbn [lawful_specs]; [split; intros ? ? []%not_elem_of_nil|].
  specialize (IH (λ m' Hm', L m' (list_elem_of_further m' m ms Hm'))). split; intros Hall x [->|Hx]%elem_of_cons.
  - apply (Hall (MemberSpec (tm_member m) (ms_laws := L m (list_elem_of_here m ms)))). left.
  - apply IH; [|done]. intros s Hs. apply Hall. by right.
  - apply (Hall m). left.
  - revert x Hx. apply IH. intros m' Hm'. apply Hall. by right.
Qed.

Context (L : ∀ m, m ∈ struct_members (V := V) → FormatterLaws (m_type (tm_member m))).

Lemma lawful_specs_length : zlen (lawful_specs struct_members L) = zlen struct_members.
Proof. unfold zlen. by rewrite <-(length_fmap ms_member), lawful_specs_members, length_fmap. Qed.

Program Definition struct_members_laws : MembersLaws V := {| specs := lawful_specs struct_members L |}.
Next Obligation. by rewrite lawful_specs_members, struct_members_eq. Qed.
Next Obligation. rewrite lawful_specs_length. apply struct_count. Qed.
Next Obligation. apply struct_rebuild. Qed.

#[local] Instance struct_laws_instance : MembersLaws V := struct_members_laws.

Lemma struct_enc_eq v : struct_enc v = zlen specs :: enc_members specs v.
Proof. cbn [specs struct_laws_instance struct_members_laws]. by rewrite lawful_specs_length, lawful_specs_enc. Qed.

Lemma struct_wf_iff v : struct_wf v ↔ members_wf specs v.
Proof. symmetry. apply (lawful_specs_forall _ L (λ m W, @wf _ W (m_get m v))). Qed.

Lemma struct_within_iff o d v : struct_within o d v ↔ members_within o d specs v.
Proof. symmetry. apply (lawful_specs_forall _ L (λ m W, @within _ W o d (m_get m v))). Qed.

Lemma struct_formatter_laws : @FormatterLaws _ V object_formatter struct_wire.
Proof.
  apply (laws_of_wire _ object_wire); [done|exact struct_enc_eq|exact struct_wf_iff| |exact object_laws].
  intros o d v. cbn [within struct_wire object_wire]. by rewrite struct_within_iff.
Qed.

Lemma struct_tuple_laws : @FormatterLaws _ (tuple V) tuple_formatter struct_tuple_wire.
Proof.
  apply (laws_of_wire _ tuple_wire); [done|by intros t; apply struct_enc_eq|by intros t; apply struct_wf_iff| |exact tuple_laws].
  intros o d t. apply struct_within_iff.
Qed.
End StructLaws.

(** Neither a struct nor a variant starts with the null marker. *)
Section NullMarkers.
Context {V : Type}.

#[global] Instance struct_null_safe `{Struct V} : @NullSafe V struct_wire.
Proof.
  intros v _. eexists _, _. split; [done|]. pose proof struct_count. unfold MAX_MEMBER_COUNT, NULL_OBJECT in *. lia.
Qed.

#[global] Instance struct_tuple_null_safe `{Struct V} : @NullSafe (tuple V) struct_tuple_wire.
Proof.
  intros v _. eexists _, _. split; [done|]. pose proof struct_count. unfold MAX_MEMBER_COUNT, NULL_OBJECT in *. lia.
Qed.
End NullMarkers.

Section UnionLaws.
Context `{Platform} {V : Type} `{Alternatives V}.

Fixpoint lawful_alternatives (alts : list (typed_alternative V)) :
    (∀ a, a ∈ alts → FormatterLaws (a_type (ta_alt a))) → list (alternative_spec V) :=
  match alts with
  | [] => λ _, []
  | a :: alts' => λ L,
      AlternativeSpec (ta_alt a) (as_laws := L a (list_elem_of_here a alts')) ::
      lawful_alternatives alts' (λ a' Ha', L a' (list_elem_of_further a' a alts' Ha'))
  end.

Lemma lawful_alternatives_eq alts L : as_alt <$> lawful_alternatives alts L = ta_alt <$> alts.
Proof. induction alts as [|a alts IH]; [done|]. cbn [lawful_alternatives]. by rewrite !fmap_cons, IH. Qed.

(** A property of the alternatives themselves. *)
Lemma lawful_alternatives_Forall alts L (P : alternative V → Prop) :
  Forall (λ a, P (ta_alt a)) alts → Forall (λ a, P (as_alt a)) (lawful_alternatives alts L).
Proof. intros Ha. apply (Forall_fmap as_alt). rewrite (lawful_alternatives_eq alts L). by apply Forall_fmap. Qed.

Lemma enc_lawful alts L v : of_alternative [] (λ a x, enc_union_header (a_tag (ta_alt a)) ++ enc x) alts v =
  enc_alternatives (lawful_alternatives alts L) v.
Proof.
  induction alts as [|a alts IH]; [done|]. cbn [of_alternative lawful_alternatives enc_alternatives as_alt].
  destruct (a_proj (ta_alt a) v); [done|apply IH].
Qed.

Lemma holds_inv v alts a x (P : ∀ a : alternative_spec V, a_type (as_alt a) → Prop) : holds v alts a x →
  match alts with
  | [] => False
  | b :: alts' => match a_proj (as_alt b) v with Some y => P b y → P a x | None => holds v alts' a x end
  end.
Proof. by intros [b alts' y ->|b alts' c y -> Hy]. Qed.

Lemma holds_lawful alts L v (P : ∀ T, WireFormat T → T → Prop) :
  of_alternative True (λ a x, P _ (ta_wire a) x) alts v ↔
  ∀ a x, holds v (lawful_alternatives alts L) a x → P _ (as_wire a) x.
Proof.
  induction alts as [|b alts IH]; cbn [of_alternative lawful_alternatives].
  { split; [|done]. intros _ a x Ha. by apply (holds_inv _ _ _ _ (λ _ _, True)) in Ha. }
  specialize (IH (λ a' Ha', L a' (list_elem_of_further a' b alts Ha'))).
  set (s := AlternativeSpec (ta_alt b) (as_laws := L b (list_elem_of_here b alts))). split.
  - intros Hp a x Ha. apply (holds_inv _ _ _ _ (λ a x, P _ (as_wire a) x)) in Ha.
    unfold s in Ha. cbn [as_alt as_wire] in Ha.
    destruct (a_proj (ta_alt b) v) as [y|]; [exact (Ha Hp)|]. by apply IH.
  - intros Hall. destruct (a_proj (ta_alt b) v) as [y|] eqn:Ep.
    + apply (Hall s y). by apply holds_here.
    + apply IH. intros a x Ha. apply Hall. by apply (holds_later v s).
Qed.

Context (L : ∀ a, a ∈ union_alternatives (V := V) → FormatterLaws (a_type (ta_alt a))).

#[local] Program Instance union_variant_laws : VariantLaws V := {| alt_specs := lawful_alternatives union_alternatives L |}.
Next Obligation. by rewrite lawful_alternatives_eq, union_alternatives_eq. Qed.
Next Obligation. apply (lawful_alternatives_Forall _ _ (λ a, 0 ≤ a_tag a < 65536)), union_tags. Qed.
Next Obligation.
  pose proof union_distinct as Hd. pose proof (list_fmap_compose ta_alt a_tag union_alternatives) as E1.
  pose proof (list_fmap_compose as_alt a_tag (lawful_alternatives union_alternatives L)) as E2.
  unfold compose in E1, E2. rewrite E1 in Hd. by rewrite E2, lawful_alternatives_eq.
Qed.
Next Obligation.
  intros a v x Ha. apply (list_elem_of_fmap_2 as_alt) in Ha. rewrite lawful_alternatives_eq in Ha.
  apply list_elem_of_fmap in Ha as (b & E & Hb). revert x. rewrite E. intros x. by apply union_inj_proj.
Qed.
Next Obligation.
  intros v. pose proof (union_covered v) as Hc. rewrite list.Exists_exists in Hc; rewrite list.Exists_exists. destruct Hc as (a & Ha & Hs).
  apply (list_elem_of_fmap_2 ta_alt) in Ha. rewrite <-(lawful_alternatives_eq _ L) in Ha.
  apply list_elem_of_fmap in Ha as (b & E & Hb). exists b. split; [done|]. by rewrite <-E.
Qed.

Lemma union_formatter_laws : @FormatterLaws _ V variant_formatter union_wire.
Proof.
  apply (laws_of_wire _ variant_wire); [done|by intros v; apply enc_lawful| | |exact variant_laws].
  - intros v. apply (holds_lawful _ L v (λ T W, @wf T W)).
  - intros o d v. apply (holds_lawful _ L v (λ T W, @within T W o d)).
Qed.
End UnionLaws.

Section StructDecoded.
Context `{Platform} {V : Type} `{Struct V}.
Context (L : ∀ m, m ∈ struct_members (V := V) → DecodedLaws (m_type (tm_member m))).

(** Assigning a decoded value to a member keeps every member decoded. *)
Lemma separate_decoded o (l : list (typed_member V)) m x v : separate (tm_member <$> l) → m ∈ l → decoded o x →
  (∀ m', m' ∈ l → decoded o (m_get (tm_member m') v)) →
  ∀ m', m' ∈ l → decoded o (m_get (tm_member m') (m_set (tm_member m) x v)).
Proof.
  intros Hsep Hm Hx Hv. induction l as [|m0 l IH]; [by apply not_elem_of_nil in Hm|].
  rewrite fmap_cons in Hsep. destruct Hsep as (Hself & Hothers & Hsep). rewrite Forall_fmap, Forall_forall in Hothers.
  assert (Hv' : ∀ m', m' ∈ l → decoded o (m_get (tm_member m') v)) by (intros m' Hm'; apply Hv; by right).
  intros m' Hm'. apply elem_of_cons in Hm' as [->|Hm']; apply elem_of_cons in Hm as [->|Hm].
  - by rewrite Hself.
  - rewrite (proj2 (Hothers m Hm)). apply Hv. left.
  - rewrite (proj1 (Hothers m' Hm')). by apply Hv'.
  - by apply IH.
Qed.

Lemma struct_member_keeps : Forall (member_keeps struct_decoded) (members (V := V)).
Proof.
  rewrite <-struct_members_eq, Forall_fmap, Forall_forall. intros m Hm v r Hr Hv. pose proof (L m Hm).
  eapply safe_at_mono; [apply law_decoded; [done|by apply Hv]|]. intros x r' _ Hx m' Hm'.
  apply (separate_decoded _ struct_members); [rewrite struct_members_eq; apply struct_separate|done..].
Qed.

Lemma struct_decoded_laws : @DecodedLaws _ V object_formatter struct_decoded.
Proof.
  split; [intros o m; apply struct_default| |done]. intros old r Hr Hold.
  apply (safe_Define_inv struct_decoded); [done|intros m; apply struct_default|apply struct_member_keeps|done].
Qed.

Lemma struct_tuple_decoded_laws : @DecodedLaws _ (tuple V) tuple_formatter struct_tuple_decoded.
Proof.
  assert (Hd : ∀ o, struct_decoded o (default_value : V)) by (intros o m; apply struct_default).
  split; [apply Hd| |done]. intros old r Hr _.
  eapply (safe_at_bind _ _ _ (λ v _, struct_decoded (options_ r) v)).
  - eapply safe_at_bind; [by apply safe_ReadObjectHeader|]. intros h r1 Hr1 S1 _.
    rewrite <-(rstep_options _ _ S1). destruct (isNull h); [by apply safe_at_ret|].
    by apply safe_read_members_inv; [apply struct_member_keeps|..].
  - intros v r1 Hr1 _ Hv. by apply safe_at_ret.
Qed.
End StructDecoded.

Section UnionDecoded.
Context `{Platform} {V : Type} `{Alternatives V}.
Context (L : ∀ a, a ∈ union_alternatives (V := V) → DecodedLaws (a_type (ta_alt a))).

Lemma safe_alternative_decoded alts tag r : r_ok r → (∀ a, a ∈ alts → a ∈ union_alternatives (V := V)) →
  safe_at r (ReadUnionAlternative (ta_alt <$> alts) tag)
    (λ v _, ∀ x, v = Some x → union_decoded (options_ r) x).
Proof.
  intros Hr. induction alts as [|a alts IH]; intros Ha; [by apply safe_at_ret|].
  rewrite fmap_cons. cbn [ReadUnionAlternative]. destruct (_ =? tag).
  - pose proof (L a (Ha a ltac:(left))). eapply safe_at_bind; [by apply safe_Read_decoded|].
    intros x r1 Hr1 _ Hx. apply safe_at_ret; [done|]. intros v [= <-]. exists a, x. split; [|done]. apply Ha. left.
  - apply IH. intros b Hb. apply Ha. by right.
Qed.

Lemma union_decoded_laws : @DecodedLaws _ V variant_formatter union_decoded.
Proof.
  assert (Hfirst : ∀ o, union_decoded o (first_alternative : V)).
  { intros o. destruct union_first as (a & Ha & E). pose proof (L a Ha). exists a, value_init. split_and!; [done|done|apply decoded_init]. }
  split; [exact Hfirst| |done]. intros old r Hr Hold.
  eapply safe_at_bind; [by apply safe_ReadUnionHeader|]. intros [tag|] r1 Hr1 S1 _; [|by apply safe_at_ret; [|apply Hfirst]].
  rewrite <-(rstep_options _ _ S1) in *. eapply safe_at_bind.
  - rewrite <-union_alternatives_eq. by apply safe_alternative_decoded.
  - intros [v|] r2 Hr2 S2 Hv; [apply safe_at_ret; [done|by apply Hv]|]. apply safe_at_gets_bind.
    eapply safe_at_bind; [apply safe_Advance; [done|]|intros ? r3 Hr3 _ _; by apply safe_at_ret].
    rewrite Remaining_spec by done. pose proof (ok_pos r2 Hr2). lia.
Qed.
End UnionDecoded.

Ltac members_have_laws := match goal with IH : ∀ m, m ∈ _ → _ ∧ _ |- _ => intros m Hm; apply (IH m Hm) end.

(** Every serializable type keeps the contract of formatters, and whatever a reader gives
    of it is a value of the type. *)
Lemma serializable_laws `{Platform} T F W D : serializable T F W D →
  @FormatterLaws _ T F W ∧ @DecodedLaws _ T F D.
Proof.
  induction 1; repeat match goal with Hl : FormatterLaws _ ∧ DecodedLaws _ |- _ => destruct Hl end;
    try (split; exact _).
  - split; [apply struct_formatter_laws|apply struct_decoded_laws]; members_have_laws.
  - split; [apply struct_tuple_laws|apply struct_tuple_decoded_laws]; members_have_laws.
  - split; [exact _|]. split; [done| |done]. intros old r Hr _. eapply safe_at_anything. by apply law_safe.
  - split; [apply union_formatter_laws|apply union_decoded_laws]; members_have_laws.
Qed.

(** ** The one-shot API on any input *)

Section AnyInput.
Context `{Platform} {T : Type} {F : MemoryPackFormatter T} {W : WireFormat T} {D : Decoded T}.



(** C25: Truncated input never passes for a value: for every type built from the library's
    formatters and macros ([serializable]; no property of its reader is assumed), on every
    proper prefix of the encoding of a value within the default limits [TryDeserialize]
    returns an error, and [Deserialize] throws in builds with exceptions. *)
Theorem Deserialize_truncated (HT : serializable T F W D) (v : T) data : portable v → zlen (enc v) < size_mod →
  data `prefix_of` enc v → data ≠ enc v →
  (∃ e, e ≠ NoError ∧ TryDeserialize (T := T) data = Ret (inl e)) ∧
  (has_exceptions = true → ∃ e off, DeserializeNew (T := T) data = Throw e off).
Proof. destruct (serializable_laws _ _ _ _ HT). apply truncated_of_laws. Qed.
End AnyInput.

(** ** Deriving the structure of a type *)

#[export] Existing Instances struct_wire struct_tuple_wire struct_decoded struct_tuple_decoded empty_decoded
  union_wire union_decoded.

(** The value a type starts with is one that a reader may give. *)
Lemma serializable_init `{Platform} {T F W D} {HT : serializable T F W D} o : decoded o (value_init (T := T)).
Proof. destruct (serializable_laws _ _ _ _ HT). apply decoded_init. Qed.

(** The members of a concrete struct, one by one. *)
Ltac each_member :=
  repeat match goal with
  | Hm : ?m ∈ [] |- _ => by apply not_elem_of_nil in Hm
  | Hm : ?m ∈ _ :: _ |- _ => apply elem_of_cons in Hm as [->|Hm]
  end.

Ltac typed_members V ms :=
  lazymatch ms with
  | [] => constr:(@nil (typed_member V))
  | ?m :: ?ms' => let ts := typed_members V ms' in constr:(@cons (typed_member V) (TypedMember m) ts)
  end.

(** A member that starts as [T{}], or as a constant of its type. *)
Ltac initial_member :=
  lazymatch goal with |- @decoded ?T ?D ?o _ =>
    let T' := eval cbn [tm_member m_type] in T in
    let D' := eval cbn [tm_member tm_decoded] in D in
    first [exact (serializable_init (T := T') (D := D') o)|by split]
  end.

(** [Struct V] for a struct whose members start as the values of their types. *)
Ltac struct_members_of :=
  match goal with |- @Struct ?V ?M =>
    let ms := eval hnf in (@members V M) in
    let ts := typed_members V ms in
    refine {| struct_members := ts; struct_members_eq := eq_refl |};
    [done|by intros [] []|change (separate ms); once (solve [repeat constructor])|intros o m Hm; each_member; initial_member]
  end.

Ltac typed_alternatives V alts :=
  lazymatch alts with
  | [] => constr:(@nil (typed_alternative V))
  | ?a :: ?alts' => let ts := typed_alternatives V alts' in constr:(@cons (typed_alternative V) (TypedAlternative a) ts)
  end.

(** [Alternatives V] for a variant whose alternatives are the constructors of [V]. *)
Ltac alternatives_of :=
  match goal with |- @Alternatives ?V ?M =>
    let alts := eval hnf in (@alternatives V M) in
    let ts := typed_alternatives V alts in
    refine {| union_alternatives := ts; union_alternatives_eq := eq_refl |};
    [repeat (apply Forall_cons; split); try done; cbn; lia
    |by apply (bool_decide_unpack _)
    |intros a v x Ha; each_member; destruct v; by intros [= <-]
    |intros []; cbn; repeat (first [by apply Exists_cons_hd; eexists|apply Exists_cons_tl])
    |eexists; split; [left|done]]
  end.

(** The types of the members of a struct, or of the alternatives of a variant. *)
Ltac serializable_members :=
  intros m Hm;
  match type of Hm with _ ∈ ?l => let l' := eval hnf in l in change (m ∈ l') in Hm end;
  each_member; cbn [tm_member tm_wire tm_decoded m_type m_fmt ta_alt ta_wire ta_decoded a_type a_fmt]; exact _.

(** ** A concrete type *)

Section Witness.
#[local] Existing Instance host64.

(** [std::map<std::string, std::vector<std::optional<int32_t>>>]. *)
Definition scores : Type := std_map string (vector (option (prim Int32))).
#[local] Instance scores_formatter : MemoryPackFormatter scores := map_formatter.
#[local] Instance scores_wire : WireFormat scores := std_map_wire.
#[local] Instance scores_decoded : Decoded scores := std_map_decoded.

(** {"a": [5, null]} *)
Definition some_scores : scores := StdMap [(Str [97], Vector [Some (Prim 5); None])].
Definition scores_bytes : list Z :=
  [1; 0; 0; 0; 254; 255; 255; 255; 1; 0; 0; 0; 97; 2; 0; 0; 0; 1; 0; 0; 0; 5; 0; 0; 0; 0; 0; 0; 0; 0; 0; 0; 0].

Lemma scores_serializable : serializable scores _ _ _.
Proof. unfold scores. exact _. Qed.

Example scores_encoded : SerializeNew some_scores = Ret scores_bytes.
Proof. vm_compute. reflexivity. Qed.
Example scores_enc : enc some_scores = scores_bytes.
Proof. vm_compute. reflexivity. Qed.

Lemma some_scores_portable : portable some_scores.
Proof.
  assert (Hk : ∀ x, x ∈ c_iterate (Container := map_container) some_scores → x = (Str [97], Vector [Some (Prim 5); None])).
  { by intros x Hx%list_elem_of_singleton. }
  assert (Hv : ∀ x, x ∈ [Some (Prim 5 : prim Int32); None] → ∀ y, x = Some y → y = Prim 5).
  { intros x [->|Hx]%elem_of_cons y; [by intros [= <-]|]. by apply list_elem_of_singleton in Hx as ->. }
  split.
  - split_and!; [repeat constructor|done|]. intros x ->%Hk. split; [by split_and!; [repeat constructor; done|..]|].
    split; [done|]. intros z Hz y Hy. by rewrite (Hv z Hz y Hy).
  - split; [done|]. intros x ->%Hk. split; [done|]. split; [done|]. intros z Hz y Hy. by rewrite (Hv z Hz y Hy).
Qed.




Lemma Deserialize_truncated_witness :
  ∃ e, e ≠ NoError ∧ TryDeserialize (T := scores) (take 20 scores_bytes) = Ret (inl e).
Proof.
  apply (Deserialize_truncated scores_serializable some_scores (take 20 scores_bytes) some_scores_portable); rewrite scores_enc.
  - done.
  - apply prefix_take.
  - done.
Defined.
End Witness.
