(* ===== verification/Packet.v ===== *)
(** Packet framing ([packet.hpp]): the header policy as an interface, [WritePacket],
    [MakePacket], [PeekPacketHeader] and the reassembly parser
    [BasicPacketFrameParser], which refines a decoder of the whole byte stream. *)
From S2P Require Import Prelude Endian Writer Reader Headers Utf Strings Formatter Collections Api.

(** ** The header policy *)

(** A policy: the bytes [Write] stores at [dst], and what [Read] finds in the
    [HeaderSize] bytes at [src]. *)
Class HeaderPolicy := {
  HeaderSize_ : Z;
  Policy_Write : Z → Z → list Z;
  Policy_Read : list Z → Z * Z;
}.

(** What the framing code relies on. *)
Class HeaderPolicyLaws `{Platform, HeaderPolicy} : Prop := {
  policy_size : 0 < HeaderSize_ ≤ 4096;
  policy_write_size : ∀ id len, zlen (Policy_Write id len) = HeaderSize_;
  policy_write_bytes : ∀ id len, bytes_ok (Policy_Write id len);
  policy_read_write : ∀ id len, arith_ok UInt16 id → arith_ok Int32 len →
    Policy_Read (Policy_Write id len) = (id, len);
  policy_read_range : ∀ bs, bytes_ok bs → zlen bs = HeaderSize_ → arith_ok Int32 (Policy_Read bs).2;
}.

(** [DefaultPacketHeaderPolicy]: [[2B id][4B bodyLength]], little-endian. *)
#[export] Instance DefaultPacketHeaderPolicy `{Platform} : HeaderPolicy := {
  HeaderSize_ := 6;
  Policy_Write := λ id bodyLength,
    object_bytes UInt16 (endian_convert UInt16 id) ++ object_bytes Int32 (endian_convert Int32 bodyLength);
  Policy_Read := λ src,
    (endian_convert UInt16 (of_object_bytes UInt16 (slice 0 2 src)),
     endian_convert Int32 (of_object_bytes Int32 (slice 2 4 src)));
}.

(** ** Writing packets *)

Record PacketHeader := MkPacketHeader { ph_id : Z; ph_bodyLength : Z }.

Section Writing.
Context `{Platform, HeaderPolicy} {T : Type} `{!MemoryPackFormatter T}.

(** [out] afterwards is the second component. *)
Definition WritePacket (out : list Z) (id : Z) (body : T) : outcome unit * list Z :=
  let headerAt := zlen out in
  let out := vector_resize 0 (size_add headerAt HeaderSize_) out in
  let '(o, w) := Write body (WriterOfVector out) in
  let out := default [] (vec_ w) in
  match o with
  | Ret _ =>
      let bodyLength := size_sub (size_sub (zlen out) headerAt) HeaderSize_ in
      (Ret tt, overwrite headerAt (Policy_Write id (of_unsigned Int32 (to_unsigned 4 bodyLength))) out)
  | Throw e off => (Throw e off, out)
  | UB => (UB, out)
  end.

Definition MakePacket (id : Z) (body : T) : outcome (list Z) :=
  match WritePacket [] id body with
  | (Ret _, out) => Ret out
  | (Throw e off, _) => Throw e off
  | (UB, _) => UB
  end.

Definition PeekPacketHeader (data : list Z) : option PacketHeader :=
  if zlen data <? HeaderSize_ then None
  else let '(i, len) := Policy_Read (slice 0 HeaderSize_ data) in Some (MkPacketHeader i len).
End Writing.

(** ** The parser *)

Record PacketFrameParser := MkParser {
  buffer_ : list Z;
  consumed_ : Z;
  maxBodyLength_ : Z;
}.

Section Parser.
Context `{Platform, HeaderPolicy}.

Definition NewParser (maxBodyLength : Z) : PacketFrameParser := MkParser [] 0 maxBodyLength.

Definition SetMaxBodyLength (value : Z) (p : PacketFrameParser) : PacketFrameParser :=
  MkParser (buffer_ p) (consumed_ p) value.

Definition MaxBodyLength (p : PacketFrameParser) : Z := maxBodyLength_ p.

Definition Buffered (p : PacketFrameParser) : Z := size_sub (zlen (buffer_ p)) (consumed_ p).

Definition ResetParser (p : PacketFrameParser) : PacketFrameParser := MkParser [] 0 (maxBodyLength_ p).

Definition Compact (p : PacketFrameParser) : PacketFrameParser :=
  if consumed_ p =? 0 then p
  else if consumed_ p =? zlen (buffer_ p) then MkParser [] 0 (maxBodyLength_ p)
  else if (consumed_ p >? 4096) || ((consumed_ p * 2) mod size_mod >=? zlen (buffer_ p))
  then MkParser (drop (Z.to_nat (consumed_ p)) (buffer_ p)) 0 (maxBodyLength_ p)
  else p.

(** Memory of the buffer: undefined outside it. *)
Definition parser_load {St} (off n : Z) : M (PacketFrameParser * St) (list Z) := λ s,
  if (0 <=? off) && (off + n <=? zlen (buffer_ s.1))
  then (Ret (slice off n (buffer_ s.1)), s) else (UB, s).

(** The callback: it has its own state and may throw. *)
Definition call {St} (m : M St unit) : M (PacketFrameParser * St) unit := λ s,
  let '(o, st) := m s.2 in (o, (s.1, st)).

(** The [for (;;)] of [Feed]: true when it breaks, false when it returns false. *)
Fixpoint feed_loop {St} (fuel : nat) (onPacket : Z → list Z → M St unit) :
    M (PacketFrameParser * St) bool :=
  match fuel with
  | O => undefined
  | S fuel' =>
      available ← gets (λ s, size_sub (zlen (buffer_ s.1)) (consumed_ s.1));
      if available <? HeaderSize_ then mret true else
      consumed ← gets (λ s, consumed_ s.1);
      header ← parser_load consumed HeaderSize_;
      let '(i, len) := Policy_Read header in
      max ← gets (λ s, maxBodyLength_ s.1);
      if (len <? 0) || (len >? max) then
        modify (λ s, (ResetParser s.1, s.2)) ;; mret false
      else
        let frameSize := size_add HeaderSize_ len in
        if available <? frameSize then mret true else
        body ← parser_load (size_add consumed HeaderSize_) len;
        call (onPacket i body) ;;
        modify (λ s, (MkParser (buffer_ s.1) (size_add (consumed_ s.1) frameSize) (maxBodyLength_ s.1), s.2)) ;;
        feed_loop fuel' onPacket
  end.

(** Every frame takes at least one byte of the buffer, so its length bounds the
    number of rounds. *)
Definition Feed {St} (bytes : list Z) (onPacket : Z → list Z → M St unit) :
    M (PacketFrameParser * St) bool :=
  modify (λ s, (MkParser (buffer_ s.1 ++ bytes) (consumed_ s.1) (maxBodyLength_ s.1), s.2)) ;;
  n ← gets (λ s, length (buffer_ s.1));
  go_on ← feed_loop (S n) onPacket;
  if go_on : bool then modify (λ s, (Compact s.1, s.2)) ;; mret true else mret false.

(** A receive loop: one [Feed] per chunk until one returns false. *)
Fixpoint feed_chunks {St} (chunks : list (list Z)) (onPacket : Z → list Z → M St unit) :
    M (PacketFrameParser * St) bool :=
  match chunks with
  | [] => mret true
  | c :: chunks' =>
      ok ← Feed c onPacket;
      if ok : bool then feed_chunks chunks' onPacket else mret false
  end.
End Parser.

(** ** Abstract specification: decoding a byte stream *)

(** A packet: its id and body. *)
Abbreviation packet := (Z * list Z)%type.

Inductive front := Wait | Bad | Frame (p : packet) (rest : list Z).

Section Stream.
Context `{HeaderPolicy}.

(** The front of a stream: not a whole frame yet, a frame over the limit, or a frame
    and what follows it. *)
Definition next_frame (max : Z) (bs : list Z) : front :=
  if zlen bs <? HeaderSize_ then Wait else
  let '(i, len) := Policy_Read (slice 0 HeaderSize_ bs) in
  if (len <? 0) || (len >? max) then Bad
  else if zlen bs <? HeaderSize_ + len then Wait
  else Frame (i, slice HeaderSize_ len bs) (drop (Z.to_nat (HeaderSize_ + len)) bs).

(** [decodes max bs ps r ok]: the stream [bs] starts with the packets [ps]; then
    comes an incomplete frame [r] ([ok]) or a violation ([ok = false]). *)
Inductive decodes (max : Z) : list Z → list packet → list Z → bool → Prop :=
  | decodes_wait bs : next_frame max bs = Wait → decodes max bs [] bs true
  | decodes_bad bs : next_frame max bs = Bad → decodes max bs [] [] false
  | decodes_frame bs p rest ps r ok : next_frame max bs = Frame p rest →
      decodes max rest ps r ok → decodes max bs (p :: ps) r ok.
End Stream.

Section StreamFacts.
Context `{Platform, HeaderPolicy, !HeaderPolicyLaws}.

Lemma next_frame_app max bs x : next_frame max bs ≠ Wait →
  next_frame max (bs ++ x) =
    match next_frame max bs with Frame p rest => Frame p (rest ++ x) | f => f end.
Proof.
  pose proof policy_size. unfold next_frame. rewrite zlen_app. zlen_pos.
  destruct (Z.ltb_spec (zlen bs) HeaderSize_); [done|]. destruct (Z.ltb_spec (zlen bs + zlen x) HeaderSize_); [lia|].
  assert (Hsl : ∀ off n, 0 ≤ off → 0 ≤ n → off + n ≤ zlen bs → slice off n (bs ++ x) = slice off n bs).
  { intros off n Ho Hn Hl. unfold slice, zlen in *. rewrite drop_app_le, take_app_le by (rewrite ?length_drop; lia). done. }
  rewrite Hsl by lia. destruct (Policy_Read _) as [i len]. destruct ((len <? 0) || (len >? max)) eqn:E; [done|].
  apply orb_false_iff in E as [E _]. apply Z.ltb_ge in E.
  destruct (Z.ltb_spec (zlen bs) (HeaderSize_ + len)); [done|].
  destruct (Z.ltb_spec (zlen bs + zlen x) (HeaderSize_ + len)); [lia|]. intros _.
  rewrite Hsl by lia. by rewrite drop_app_le by (unfold zlen in *; lia).
Qed.

Lemma next_frame_Frame max bs p rest : next_frame max bs = Frame p rest →
  zlen rest < zlen bs ∧ rest = drop (length bs - length rest) bs ∧ zlen p.2 ≤ max.
Proof.
  pose proof policy_size. unfold next_frame. destruct (Z.ltb_spec (zlen bs) HeaderSize_); [done|].
  destruct (Policy_Read _) as [i len]. destruct ((len <? 0) || (len >? max)) eqn:E; [done|].
  apply orb_false_iff in E as [E E']. apply Z.ltb_ge in E.
  destruct (Z.gtb_spec len max); [done|]. destruct (Z.ltb_spec (zlen bs) (HeaderSize_ + len)); [done|].
  intros [= <- <-]. unfold zlen in *. rewrite length_drop. split; [lia|]. split; [f_equal; lia|].
  cbn. pose proof (zlen_slice HeaderSize_ len bs) as Hs. unfold zlen in Hs. lia.
Qed.

Lemma next_frame_Wait max bs : next_frame max bs = Wait → zlen bs < HeaderSize_ + Z.max 0 max.
Proof.
  unfold next_frame. destruct (Z.ltb_spec (zlen bs) HeaderSize_); [lia|].
  destruct (Policy_Read _) as [i len]. destruct ((len <? 0) || (len >? max)) eqn:E; [done|].
  apply orb_false_iff in E as [E E']. destruct (Z.gtb_spec len max); [done|].
  destruct (Z.ltb_spec (zlen bs) (HeaderSize_ + len)); [lia|done].
Qed.

(** Decoding is a total function... *)
Lemma decodes_total max bs : ∃ ps r ok, decodes max bs ps r ok.
Proof.
  remember (length bs) as n eqn:En. revert bs En. induction (lt_wf n) as [n _ IH]. intros bs ->.
  destruct (next_frame max bs) as [| |p rest] eqn:E.
  - eexists _, _, _. by apply decodes_wait.
  - eexists _, _, _. by apply decodes_bad.
  - destruct (next_frame_Frame _ _ _ _ E) as (Hl & _). unfold zlen in Hl.
    destruct (IH (length rest) ltac:(lia) rest eq_refl) as (ps & r & ok & Hd).
    eexists _, _, _. by eapply decodes_frame.
Qed.

Lemma decodes_det max bs ps r ok ps' r' ok' :
  decodes max bs ps r ok → decodes max bs ps' r' ok' → ps = ps' ∧ r = r' ∧ ok = ok'.
Proof.
  intros Hd. revert ps' r' ok'. induction Hd as [bs E|bs E|bs p rest ps r ok E Hd IH];
    intros ps' r' ok'; inversion 1 as [? E'|? E'|? ? ? ? ? ? E']; subst; rewrite E in E'; simplify_eq; try done.
  match goal with Hd' : decodes _ _ ?a r' ok' |- _ => by destruct (IH a r' ok' Hd') as (-> & -> & ->) end.
Qed.

(** ... and does not depend on where the stream is cut. *)
Lemma decodes_app max bs ps r ok x ps' r' ok' :
  decodes max bs ps r ok →
  (if ok then decodes max (r ++ x) ps' r' ok' else ps' = [] ∧ r' = [] ∧ ok' = false) →
  decodes max (bs ++ x) (ps ++ ps') r' ok'.
Proof.
  intros Hd. induction Hd as [bs E|bs E|bs p rest ps r ok E Hd IH]; intros Hk.
  - done.
  - destruct Hk as (-> & -> & ->). apply decodes_bad. by rewrite next_frame_app, E by by rewrite E.
  - apply (decodes_frame _ _ p (rest ++ x)); [|by apply IH]. by rewrite next_frame_app, E by by rewrite E.
Qed.

(** Every packet of a stream of bytes is made of bytes and within the limit. *)
Lemma decodes_packets max bs ps r ok : decodes max bs ps r ok → bytes_ok bs →
  Forall (λ q : packet, bytes_ok q.2 ∧ zlen q.2 ≤ max) ps ∧ bytes_ok r.
Proof.
  induction 1 as [bs E|bs E|bs q rest ps r ok E Hd IH]; intros Hb;
    [by split; [apply Forall_nil_2|]|by split; apply Forall_nil_2|].
  destruct (next_frame_Frame _ _ _ _ E) as (_ & Hrest & Hq).
  assert (Hbr : bytes_ok rest) by (rewrite Hrest; by apply Forall_drop). destruct (IH Hbr) as [IH1 IH2].
  split; [|done]. constructor; [|done]. split; [|done]. clear -E Hb. unfold next_frame in E.
  destruct (_ <? _); [done|]. destruct (Policy_Read _) as [i len]. destruct (_ || _); [done|].
  destruct (_ <? _); [done|]. injection E as <- _. cbn. by apply Forall_slice.
Qed.

Lemma decodes_rest max bs ps r ok : decodes max bs ps r ok → zlen r < HeaderSize_ + Z.max 0 max.
Proof.
  pose proof policy_size. induction 1 as [bs E|bs E|]; [by apply next_frame_Wait|zlia|done].
Qed.
End StreamFacts.

(** ** The parser refines the specification *)

Section ParserFacts.
Context `{Platform, HeaderPolicy, !HeaderPolicyLaws} {St : Type} (onPacket : Z → list Z → M St unit).
Implicit Types p : PacketFrameParser.

(** The invariant: the position lies in the buffer, sizes are addressable. *)
Record parser_ok p : Prop := {
  pok_consumed : 0 ≤ consumed_ p ≤ zlen (buffer_ p);
  pok_size : zlen (buffer_ p) < size_mod;
  pok_bytes : bytes_ok (buffer_ p);
}.

(** The abstract state: the bytes not yet delivered. *)
Definition pending p : list Z := drop (Z.to_nat (consumed_ p)) (buffer_ p).

Lemma zlen_pending p : parser_ok p → zlen (pending p) = zlen (buffer_ p) - consumed_ p.
Proof. intros [Hc _ _]. unfold pending, zlen in *. rewrite length_drop. lia. Qed.

Lemma Buffered_pending p : parser_ok p → Buffered p = zlen (pending p).
Proof.
  intros Hp. rewrite zlen_pending by done. destruct Hp. apply size_sub_small; lia.
Qed.

(** Advancing over delivered bytes. *)
Definition advance_parser (n : Z) p : PacketFrameParser :=
  MkParser (buffer_ p) (consumed_ p + n) (maxBodyLength_ p).

Lemma advance_parser_ok n p : parser_ok p → 0 ≤ n ≤ zlen (pending p) →
  parser_ok (advance_parser n p) ∧ pending (advance_parser n p) = drop (Z.to_nat n) (pending p).
Proof.
  intros Hp Hn. rewrite zlen_pending in Hn by done. destruct Hp. split; [split; cbn; try done; lia|].
  unfold pending. cbn. rewrite drop_drop. f_equal. lia.
Qed.

Lemma slice_pending p off n : parser_ok p → 0 ≤ off →
  slice off n (pending p) = slice (consumed_ p + off) n (buffer_ p).
Proof. intros [] Ho. unfold slice, pending. rewrite drop_drop. do 2 f_equal. lia. Qed.

(** The callback run over a list of packets. *)
Definition deliver (ps : list packet) : M St unit := mapM_ (λ q : packet, onPacket q.1 q.2) ps.

(** What the loop does on a parser whose pending bytes decode to [ps], [r], [ok]. It
    stops where the callback throws, with that packet still pending. *)
Definition loop_result max p (st : St) ps r (ok : bool) (res : outcome bool * (PacketFrameParser * St)) : Prop :=
  (∃ st' p', deliver ps st = (Ret tt, st') ∧ res = (Ret ok, (p', st')) ∧ parser_ok p' ∧
     maxBodyLength_ p' = max ∧ zlen (buffer_ p') ≤ zlen (buffer_ p) ∧ pending p' = r) ∨
  (∃ done q todo st1 st2 o o' p', ps = done ++ q :: todo ∧ deliver done st = (Ret tt, st1) ∧
     onPacket q.1 q.2 st1 = (o, st2) ∧ (o = UB ∧ o' = UB ∨ ∃ e off, o = Throw e off ∧ o' = Throw e off) ∧
     res = (o', (p', st2)) ∧ parser_ok p' ∧ maxBodyLength_ p' = max ∧
     zlen (buffer_ p') ≤ zlen (buffer_ p) ∧ decodes max (pending p') (q :: todo) r ok).

(** One round of the loop, by what is at the front. *)
Lemma feed_loop_round fuel p st : parser_ok p →
  feed_loop (S fuel) onPacket (p, st) =
    match next_frame (maxBodyLength_ p) (pending p) with
    | Wait => (Ret true, (p, st))
    | Bad => (Ret false, (ResetParser p, st))
    | Frame q rest =>
        (call (onPacket q.1 q.2) ;;
         modify (λ s, (advance_parser (zlen (pending p) - zlen rest) s.1, s.2)) ;;
         feed_loop fuel onPacket) (p, st)
    end.
Proof.
  intros Hp. pose proof policy_size. pose proof size_mod_pos. pose proof (zlen_pending p Hp) as Hz.
  destruct (Hp) as [Hc Hs Hb].
  cbn [feed_loop]. unfold mbind at 1, M_bind at 1, gets at 1. cbn [fst].
  rewrite size_sub_small, <-Hz by lia. unfold next_frame.
  destruct (Z.ltb_spec (zlen (pending p)) HeaderSize_) as [|Hroom]; [done|].
  unfold mbind at 1 2, M_bind at 1 2, gets at 1, parser_load at 1. cbn [fst].
  destruct (Z.leb_spec 0 (consumed_ p)), (Z.leb_spec (consumed_ p + HeaderSize_) (zlen (buffer_ p))); try lia.
  cbn [andb]. rewrite slice_pending, Z.add_0_r by (done || lia).
  assert (Hr : arith_ok Int32 (Policy_Read (slice (consumed_ p) HeaderSize_ (buffer_ p))).2).
  { apply policy_read_range; [by apply Forall_slice|]. apply zlen_slice; lia. }
  destruct (Policy_Read _) as [i len]. cbn [snd] in Hr. arith_ranges.
  unfold mbind at 1, M_bind at 1, gets at 1. cbn [fst].
  destruct ((len <? 0) || (len >? maxBodyLength_ p)) eqn:E; [done|].
  apply orb_false_iff in E as [E _]. apply Z.ltb_ge in E. rewrite !size_add_small by lia.
  destruct (Z.ltb_spec (zlen (pending p)) (HeaderSize_ + len)) as [|Hfull]; [done|].
  unfold mbind at 1, M_bind at 1, parser_load at 1. cbn [fst].
  destruct (Z.leb_spec 0 (consumed_ p + HeaderSize_)), (Z.leb_spec (consumed_ p + HeaderSize_ + len) (zlen (buffer_ p))); try lia.
  cbn [andb]. rewrite slice_pending by (done || lia). cbn [fst snd].
  replace (zlen (pending p) - zlen (drop (Z.to_nat (HeaderSize_ + len)) (pending p))) with (HeaderSize_ + len)
    by (unfold zlen in *; rewrite length_drop; lia).
  unfold mbind, M_bind, call, modify. cbn [fst snd]. destruct (onPacket _ _ _) as [[[]| |] st1]; [|done..].
  cbn [fst snd]. unfold advance_parser. rewrite !size_add_small by lia. done.
Qed.

Lemma ResetParser_ok p : parser_ok (ResetParser p) ∧ pending (ResetParser p) = [].
Proof. pose proof size_mod_pos. split; [|done]. split; cbn; [zlia|zlia|by apply Forall_nil_2]. Qed.

(** The loop, by induction on what the pending bytes decode to; the fuel is enough. *)
Lemma feed_loop_spec max bs ps r ok : decodes max bs ps r ok → ∀ fuel p st,
  parser_ok p → pending p = bs → maxBodyLength_ p = max → (length bs < fuel)%nat →
  loop_result max p st ps r ok (feed_loop fuel onPacket (p, st)).
Proof.
  induction 1 as [bs E|bs E|bs q rest ps r ok E Hd IH]; intros [|fuel] p st Hp Hpend Hmax Hfuel; try lia;
    rewrite feed_loop_round, Hpend, Hmax, E by done.
  - left. by exists st, p.
  - left. exists st, (ResetParser p). destruct (ResetParser_ok p). split_and!; try done. cbn. zlia.
  - destruct (next_frame_Frame _ _ _ _ E) as (Hlt & Hrest & _). unfold mbind, M_bind, call, modify. cbn [fst snd].
    destruct (onPacket q.1 q.2 st) as [[[]|e off|] st1] eqn:Ecb; cbn [fst snd].
    + destruct (advance_parser_ok (zlen bs - zlen rest) p Hp) as [Hp' Hpend']; [rewrite Hpend; zlia|].
      rewrite Hpend in Hpend'. replace (Z.to_nat (zlen bs - zlen rest)) with (length bs - length rest)%nat in Hpend'
        by (unfold zlen; lia). rewrite <-Hrest in Hpend'.
      destruct (IH fuel (advance_parser (zlen bs - zlen rest) p) st1 Hp' Hpend' Hmax) as [Hl|Hr]; [unfold zlen in Hlt; lia| |].
      * left. destruct Hl as (st' & p' & Hdel & Hl). exists st', p'. split; [|exact Hl].
        unfold deliver, mbind, M_bind in *. cbn [mapM_]. unfold mbind, M_bind. by rewrite Ecb.
      * right. destruct Hr as (dn & q' & todo & st2 & st3 & o & o' & p' & -> & Hdel & Hr).
        exists (q :: dn), q', todo, st2, st3, o, o', p'. split; [done|]. split; [|exact Hr].
        unfold deliver in *. cbn [mapM_]. unfold mbind, M_bind. by rewrite Ecb.
    + right. exists [], q, ps, st, st1, (Throw e off), (Throw e off), p. rewrite Hpend.
      do 3 (split; [done|]). split; [right; by eexists _, _|]. do 4 (split; [done|]). by eapply decodes_frame.
    + right. exists [], q, ps, st, st1, UB, UB, p. rewrite Hpend.
      do 3 (split; [done|]). split; [by left|]. do 4 (split; [done|]). by eapply decodes_frame.
Qed.

(** *** Compaction *)

Lemma Compact_spec p : parser_ok p →
  parser_ok (Compact p) ∧ pending (Compact p) = pending p ∧ maxBodyLength_ (Compact p) = maxBodyLength_ p ∧
  zlen (buffer_ (Compact p)) ≤ zlen (buffer_ p) ∧
  (zlen (buffer_ p) < size_mod / 2 → zlen (buffer_ (Compact p)) ≤ zlen (pending p) + 4096).
Proof.
  intros Hp. pose proof (zlen_pending p Hp) as Hz. pose proof size_mod_pos. destruct (Hp) as [Hc Hs Hb]. unfold Compact.
  destruct (Z.eqb_spec (consumed_ p) 0); [split_and!; try done; lia|].
  destruct (Z.eqb_spec (consumed_ p) (zlen (buffer_ p))) as [E|_].
  { split_and!; [apply ResetParser_ok|by rewrite (zlen_0_nil (pending p)) by lia|done|cbn; zlia|intros; cbn; zlia]. }
  destruct (_ || _) eqn:Eb.
  - change (drop (Z.to_nat (consumed_ p)) (buffer_ p)) with (pending p). zlen_pos.
    split_and!; [split; cbn; [lia|lia|by apply Forall_drop]|done|done|cbn; lia|cbn; lia].
  - apply orb_false_iff in Eb as [Eb _]. destruct (Z.gtb_spec (consumed_ p) 4096); [done|].
    split_and!; try done. lia.
Qed.

(** *** [Feed] *)

Definition append_bytes (bytes : list Z) p : PacketFrameParser :=
  MkParser (buffer_ p ++ bytes) (consumed_ p) (maxBodyLength_ p).

Lemma append_bytes_ok bytes p : parser_ok p → bytes_ok bytes → zlen (buffer_ p) + zlen bytes < size_mod →
  parser_ok (append_bytes bytes p) ∧ pending (append_bytes bytes p) = pending p ++ bytes.
Proof.
  intros [Hc Hs Hb] Hbytes Hsz. split.
  - split; cbn; [zlia|zlia|by apply bytes_ok_app].
  - unfold pending. cbn. apply drop_app_le. unfold zlen in Hc. lia.
Qed.

Lemma length_pending p : (length (pending p) ≤ length (buffer_ p))%nat.
Proof. unfold pending. rewrite length_drop. lia. Qed.

(** [Feed] is the loop on the extended buffer, then the compaction. *)
Lemma Feed_eq bytes p st : Feed bytes onPacket (p, st) =
  match feed_loop (S (length (buffer_ (append_bytes bytes p)))) onPacket (append_bytes bytes p, st) with
  | (Ret true, (p', st')) => (Ret true, (Compact p', st'))
  | res => res
  end.
Proof.
  unfold Feed, mbind, M_bind, modify, gets. cbn [fst snd].
  change (MkParser (buffer_ p ++ bytes) (consumed_ p) (maxBodyLength_ p)) with (append_bytes bytes p).
  by destruct (feed_loop _ _ _) as [[[]| |] []].
Qed.

Lemma Feed_spec bytes p st ps r ok : parser_ok p → bytes_ok bytes → zlen (buffer_ p) + zlen bytes < size_mod →
  decodes (maxBodyLength_ p) (pending p ++ bytes) ps r ok →
  loop_result (maxBodyLength_ p) (append_bytes bytes p) st ps r ok (Feed bytes onPacket (p, st)).
Proof.
  intros Hp Hb Hsz Hd. destruct (append_bytes_ok bytes p Hp Hb Hsz) as [Hp' Hpend].
  pose proof (length_pending (append_bytes bytes p)) as Hfuel. rewrite Hpend in Hfuel. rewrite Feed_eq.
  destruct (feed_loop_spec _ _ _ _ _ Hd (S (length (buffer_ (append_bytes bytes p)))) (append_bytes bytes p) st
    Hp' Hpend eq_refl ltac:(lia)) as [Hl|Hr].
  - left. destruct Hl as (st' & p' & Hdel & -> & Hok & Hmax & Hle & Hr).
    destruct (Compact_spec p' Hok) as (Hc1 & Hc2 & Hc3 & Hc4 & _).
    destruct ok; [exists st', (Compact p')|exists st', p']; split_and!; try done; [congruence|lia|congruence].
  - right. destruct Hr as (dn & q & todo & st1 & st2 & o & o' & p' & Hps & Hdn & Hq & Ho & -> & Hr).
    exists dn, q, todo, st1, st2, o, o', p'. do 4 (split; [done|]). split; [|done].
    by destruct Ho as [[_ ->]|(e & off & _ & ->)].
Qed.
End ParserFacts.

(** ** The contract *)

Section StreamContract.
Context `{Platform, HeaderPolicy, !HeaderPolicyLaws} {St : Type} (onPacket : Z → list Z → M St unit).
Implicit Types p : PacketFrameParser.

(** C6: One [Feed] refines the stream decoder, for any bytes and any callback: the
    bytes held and the new ones decode to some packets, a rest and a verdict; the
    callback sees exactly those packets in order, [Feed] returns the verdict (false
    after a frame over the limit or with a negative length) and keeps exactly the rest;
    or a packet's callback throws, and then that packet and all that follows are still
    pending. No access leaves the buffer and the loop ends. *)
Theorem Feed_refines_stream bytes p st : parser_ok p → bytes_ok bytes →
  zlen (buffer_ p) + zlen bytes < size_mod →
  ∃ ps r ok, decodes (maxBodyLength_ p) (pending p ++ bytes) ps r ok ∧
    loop_result onPacket (maxBodyLength_ p) (append_bytes bytes p) st ps r ok (Feed bytes onPacket (p, st)).
Proof.
  intros Hp Hb Hsz. destruct (decodes_total (maxBodyLength_ p) (pending p ++ bytes)) as (ps & r & ok & Hd).
  exists ps, r, ok. split; [done|]. by apply Feed_spec.
Qed.

(** C37: The parser's memory is bounded by its limit: once [Feed] has returned, less
    than one maximal frame is pending, and the buffer (delivered bytes it has not yet
    reclaimed included) is at most 4096 bytes larger. *)
Theorem Feed_memory_bound bytes p st ok p' st' : parser_ok p → bytes_ok bytes →
  zlen (buffer_ p) + zlen bytes < size_mod / 2 →
  Feed bytes onPacket (p, st) = (Ret ok, (p', st')) →
  Buffered p' < HeaderSize_ + Z.max 0 (maxBodyLength_ p) ∧
  (ok = true → zlen (buffer_ p') ≤ HeaderSize_ + Z.max 0 (maxBodyLength_ p) + 4096).
Proof.
  intros Hp Hb Hsz E. pose proof size_mod_pos. pose proof policy_size.
  assert (Hsz' : zlen (buffer_ p) + zlen bytes < size_mod) by (zlen_pos; pose proof (Z.div_le_upper_bound size_mod 2 size_mod); lia).
  destruct (append_bytes_ok bytes p Hp Hb Hsz') as [Hp1 Hpend].
  destruct (decodes_total (maxBodyLength_ p) (pending p ++ bytes)) as (ps & r & ok' & Hd).
  pose proof (length_pending (append_bytes bytes p)) as Hfuel. rewrite Hpend in Hfuel.
  pose proof (decodes_rest _ _ _ _ _ Hd) as Hr. rewrite Feed_eq in E.
  destruct (feed_loop_spec onPacket _ _ _ _ _ Hd (S (length (buffer_ (append_bytes bytes p)))) (append_bytes bytes p) st
    Hp1 Hpend eq_refl ltac:(lia)) as [Hl|Hx].
  - destruct Hl as (st1 & p1 & _ & El & Hok & Hmax & Hle & Hr1). rewrite El in E.
    destruct (Compact_spec p1 Hok) as (Hc1 & Hc2 & _ & _ & Hc5). cbn in Hle. rewrite zlen_app in Hle.
    destruct ok'; injection E as <- <- <-; rewrite Buffered_pending by done; [|split; [by rewrite Hr1|done]].
    rewrite Hc2, Hr1. split; [done|]. intros _. rewrite Hr1 in Hc5. specialize (Hc5 ltac:(lia)). lia.
  - destruct Hx as (dn & q & todo & st1 & st2 & o & o' & p1 & _ & _ & _ & Ho & El & _). rewrite El in E.
    by destruct Ho as [[_ ->]|(e & off & _ & ->)].
Qed.

(** A callback that throws loses nothing but its own call: the exception leaves
    [Feed], the parser stays well-formed, and whatever is fed next, the packet whose
    callback threw is the first one delivered again. *)
Theorem Feed_throw_redelivers bytes bytes2 p st e off p' st' : parser_ok p → bytes_ok bytes →
  zlen (buffer_ p) + zlen bytes < size_mod →
  Feed bytes onPacket (p, st) = (Throw e off, (p', st')) →
  parser_ok p' ∧ ∃ q st1, onPacket q.1 q.2 st1 = (Throw e off, st') ∧
    (∀ ps r ok, decodes (maxBodyLength_ p') (pending p' ++ bytes2) ps r ok → ∃ ps', ps = q :: ps').
Proof.
  intros Hp Hb Hsz E. destruct (decodes_total (maxBodyLength_ p) (pending p ++ bytes)) as (ps & r & ok & Hd).
  destruct (Feed_spec onPacket bytes p st ps r ok Hp Hb Hsz Hd) as [Hl|Hx]; rewrite E in *.
  { by destruct Hl as (? & ? & _ & ? & _). }
  destruct Hx as (dn & q & todo & st1 & st2 & o & o' & p1 & _ & _ & Hq & Ho & El & Hok & Hmax & _ & Hd').
  injection El as <- <- <-. destruct Ho as [[_ ?]|(e' & off' & -> & [= <- <-])]; [done|].
  split; [done|]. exists q, st1. split; [done|]. intros ps2 r2 ok2 Hd2. rewrite <-Hmax in Hd'.
  inversion Hd' as [| |? ? rest ? ? ? Ef Ht]; subst.
  assert (Ef' : next_frame (maxBodyLength_ p') (pending p' ++ bytes2) = Frame q (rest ++ bytes2))
    by (by rewrite next_frame_app, Ef by by rewrite Ef).
  inversion Hd2 as [? E2|? E2|? ? ? ? ? ? E2]; subst; rewrite Ef' in E2; simplify_eq. by eexists.
Qed.

(** *** Callbacks that return *)

Lemma deliver_returns ps st : (∀ i b st, ∃ st', onPacket i b st = (Ret tt, st')) →
  ∃ st', deliver onPacket ps st = (Ret tt, st').
Proof.
  intros Hcb. revert st. induction ps as [|q ps IH]; intros st; [by eexists|].
  destruct (Hcb q.1 q.2 st) as [st1 E1]. destruct (IH st1) as [st2 E2]. exists st2.
  unfold deliver in *. cbn [mapM_]. unfold mbind, M_bind. by rewrite E1.
Qed.

Lemma deliver_app ps ps' st st1 : deliver onPacket ps st = (Ret tt, st1) →
  deliver onPacket (ps ++ ps') st = deliver onPacket ps' st1.
Proof.
  revert st. induction ps as [|q ps IH]; intros st; [by intros [= <-]|].
  unfold deliver in *. cbn [mapM_ app]. unfold mbind, M_bind.
  destruct (onPacket q.1 q.2 st) as [[[]| |] st2]; [|done..]. apply IH.
Qed.

Lemma deliver_app_inv ps ps' st st' : deliver onPacket (ps ++ ps') st = (Ret tt, st') →
  ∃ st1, deliver onPacket ps st = (Ret tt, st1) ∧ deliver onPacket ps' st1 = (Ret tt, st').
Proof.
  revert st. induction ps as [|q ps IH]; intros st E; [by exists st|].
  unfold deliver in *. cbn [mapM_ app] in *. unfold mbind, M_bind in *.
  destruct (onPacket q.1 q.2 st) as [[[]| |] st2]; [|done..]. by apply IH.
Qed.

Lemma Feed_returns bytes p st ps r ok st' : parser_ok p → bytes_ok bytes →
  zlen (buffer_ p) + zlen bytes < size_mod → decodes (maxBodyLength_ p) (pending p ++ bytes) ps r ok →
  deliver onPacket ps st = (Ret tt, st') →
  ∃ p', Feed bytes onPacket (p, st) = (Ret ok, (p', st')) ∧ parser_ok p' ∧
    maxBodyLength_ p' = maxBodyLength_ p ∧ zlen (buffer_ p') ≤ zlen (buffer_ p) + zlen bytes ∧ pending p' = r.
Proof.
  intros Hp Hb Hsz Hd Hdel. destruct (Feed_spec onPacket bytes p st ps r ok Hp Hb Hsz Hd) as [Hl|Hx].
  - destruct Hl as (st1 & p' & Hdel' & E & Hok & Hmax & Hle & Hr). rewrite Hdel in Hdel'. injection Hdel' as <-.
    exists p'. split_and!; try done. cbn in Hle. by rewrite zlen_app in Hle.
  - destruct Hx as (dn & q & todo & st1 & st2 & o & o' & p' & -> & Hdn & Hq & Ho & _).
    rewrite (deliver_app _ _ _ _ Hdn) in Hdel. unfold deliver in Hdel. cbn [mapM_] in Hdel.
    unfold mbind, M_bind in Hdel. rewrite Hq in Hdel. by destruct Ho as [[-> _]|(e & off & -> & _)].
Qed.

Lemma decodes_settled max bs ps r : decodes max bs ps r true → next_frame max r = Wait.
Proof. intros Hd. remember true as ok eqn:E. by induction Hd; auto. Qed.

Lemma decodes_violation max bs ps r : decodes max bs ps r false → r = [].
Proof. intros Hd. remember false as ok eqn:E. by induction Hd; auto. Qed.

Lemma feed_chunks_returns (chunks : list (list Z)) : ∀ p st ps r ok st', parser_ok p → Forall bytes_ok chunks →
  zlen (buffer_ p) + zlen (concat chunks) < size_mod → next_frame (maxBodyLength_ p) (pending p) = Wait →
  decodes (maxBodyLength_ p) (pending p ++ concat chunks) ps r ok → deliver onPacket ps st = (Ret tt, st') →
  ∃ p', feed_chunks chunks onPacket (p, st) = (Ret ok, (p', st')) ∧ parser_ok p' ∧ pending p' = r.
Proof.
  induction chunks as [|c chunks IH]; intros p st ps r ok st' Hp Hb Hsz Hw Hd Hdel; cbn [concat] in *.
  - rewrite app_nil_r in Hd. destruct (decodes_det _ _ _ _ _ _ _ _ Hd (decodes_wait _ _ Hw)) as (-> & -> & ->).
    injection Hdel as <-. by exists p.
  - apply Forall_cons in Hb as [Hc Hb]. rewrite zlen_app in Hsz. zlen_pos. rewrite app_assoc in Hd.
    destruct (decodes_total (maxBodyLength_ p) (pending p ++ c)) as (ps1 & r1 & ok1 & Hd1).
    cbn [feed_chunks]. unfold mbind, M_bind. destruct ok1.
    + destruct (decodes_total (maxBodyLength_ p) (r1 ++ concat chunks)) as (ps2 & r2 & ok2 & Hd2).
      pose proof (decodes_app _ _ _ _ _ (concat chunks) _ _ _ Hd1 Hd2) as Hd12.
      destruct (decodes_det _ _ _ _ _ _ _ _ Hd Hd12) as (-> & -> & ->).
      destruct (deliver_app_inv _ _ _ _ Hdel) as (st1 & Hdel1 & Hdel2).
      destruct (Feed_returns c p st ps1 r1 true st1 Hp Hc ltac:(lia) Hd1 Hdel1) as (p1 & E1 & Hp1 & Hmax & Hle & Hr1).
      rewrite E1. rewrite <-Hmax, <-Hr1 in Hd2. apply (IH p1 st1 ps2 r2 ok2 st'); try done; [lia|].
      rewrite Hmax, Hr1. by eapply decodes_settled.
    + pose proof (decodes_app _ _ _ _ _ (concat chunks) [] [] false Hd1 ltac:(done)) as Hd12.
      destruct (decodes_det _ _ _ _ _ _ _ _ Hd Hd12) as (-> & -> & ->). rewrite app_nil_r in Hdel.
      destruct (Feed_returns c p st ps1 r1 false st' Hp Hc ltac:(lia) Hd1 Hdel) as (p1 & E1 & Hp1 & _ & _ & Hr1).
      rewrite E1. exists p1. split_and!; try done. rewrite Hr1. by eapply decodes_violation.
Qed.
End StreamContract.

(** ** Frames written and read back *)

(** The callback that records every packet. *)
Definition record_packet (i : Z) (body : list Z) : M (list packet) unit := modify (λ ps, ps ++ [(i, body)]).

Section RoundTrip.
Context `{Platform, HeaderPolicy, !HeaderPolicyLaws}.

(** A frame on the wire. *)
Definition frame_bytes (q : packet) : list Z := Policy_Write q.1 (zlen q.2) ++ q.2.

Definition frame_ok (max : Z) (q : packet) : Prop :=
  arith_ok UInt16 q.1 ∧ bytes_ok q.2 ∧ zlen q.2 ≤ max ∧ zlen q.2 < 2 ^ 31.

Lemma deliver_record ps l : deliver record_packet ps l = (Ret tt, l ++ ps).
Proof.
  revert l. induction ps as [|q ps IH]; intros l; [by rewrite app_nil_r|].
  unfold deliver in *. cbn [mapM_]. unfold mbind at 1, M_bind at 1, record_packet at 1, modify at 1.
  rewrite IH, <-app_assoc. by destruct q.
Qed.

Lemma record_returns i b l : ∃ l', record_packet i b l = (Ret tt, l').
Proof. by eexists. Qed.

(** The decoder takes a frame off the front. *)
Lemma next_frame_bytes max q x : frame_ok max q → next_frame max (frame_bytes q ++ x) = Frame q x.
Proof.
  intros (Hi & Hb & Hm & Hl). pose proof policy_size. pose proof (policy_write_size q.1 (zlen q.2)) as Hz. zlen_pos.
  unfold next_frame, frame_bytes. rewrite !zlen_app, Hz, <-app_assoc.
  destruct (Z.ltb_spec (HeaderSize_ + zlen q.2 + zlen x) HeaderSize_); [zlia|].
  rewrite <-Hz at 1. rewrite (slice_prefix 0 _ _ (q.2 ++ x)) by done.
  rewrite policy_read_write by (done || arith_ranges; lia).
  destruct (Z.ltb_spec (zlen q.2) 0); [lia|]. destruct (Z.gtb_spec (zlen q.2) max); [lia|]. cbn [orb].
  destruct (Z.ltb_spec (HeaderSize_ + zlen q.2 + zlen x) (HeaderSize_ + zlen q.2)); [zlia|].
  rewrite (slice_prefix HeaderSize_ _ q.2 x) by (rewrite <-Hz, zlen_to_nat; apply drop_app_length).
  rewrite app_assoc, drop_app_length' by (rewrite length_app; unfold zlen in *; lia). by destruct q.
Qed.

Lemma decodes_frames max qs : Forall (frame_ok max) qs → decodes max (qs ≫= frame_bytes) qs [] true.
Proof.
  induction 1 as [|q qs Hq Hqs IH].
  - apply decodes_wait. unfold next_frame. pose proof policy_size.
    destruct (Z.ltb_spec (zlen (@nil Z)) HeaderSize_); [done|]. zlia.
  - rewrite bind_cons. by eapply decodes_frame; [apply next_frame_bytes|].
Qed.

Lemma NewParser_ok max : parser_ok (NewParser max).
Proof. pose proof size_mod_pos. split; cbn; [zlia|zlia|by apply Forall_nil_2]. Qed.

(** Packet boundaries do not depend on how TCP cuts the stream: feeding a stream
    in any chunks (empty ones included) makes the same calls in the same order, leaves
    the callback in the same state, gives the same verdict and keeps the same pending
    bytes as feeding it in one piece. *)
Theorem Feed_chunk_independent {St} (onPacket : Z → list Z → M St unit) max chunks st :
  (∀ i b st, ∃ st', onPacket i b st = (Ret tt, st')) →
  Forall bytes_ok chunks → zlen (concat chunks) < size_mod →
  ∃ ok st' p1 p2,
    feed_chunks chunks onPacket (NewParser max, st) = (Ret ok, (p1, st')) ∧
    Feed (concat chunks) onPacket (NewParser max, st) = (Ret ok, (p2, st')) ∧ pending p1 = pending p2.
Proof.
  intros Hcb Hb Hsz. destruct (decodes_total max (concat chunks)) as (ps & r & ok & Hd).
  destruct (deliver_returns onPacket ps st Hcb) as [st' Hdel]. pose proof (NewParser_ok max) as Hp.
  assert (Hw : next_frame max [] = Wait).
  { unfold next_frame. pose proof policy_size. destruct (Z.ltb_spec (zlen (@nil Z)) HeaderSize_); [done|zlia]. }
  destruct (feed_chunks_returns onPacket chunks (NewParser max) st ps r ok st') as (p1 & E1 & _ & R1); try done.
  destruct (Feed_returns onPacket (concat chunks) (NewParser max) st ps r ok st') as (p2 & E2 & _ & _ & _ & R2);
    try done; [by apply Forall_concat|].
  exists ok, st', p1, p2. split_and!; [done|done|congruence].
Qed.

(** A frame that is not complete is waited for. *)
Lemma next_frame_incomplete max q part x : frame_ok max q → frame_bytes q = part ++ x → x ≠ [] → next_frame max part = Wait.
Proof.
  intros Hq E Hx. pose proof (next_frame_bytes max q [] Hq) as Hf. rewrite app_nil_r, E in Hf.
  destruct (next_frame max part) as [| |p rest] eqn:En; [done| |]; rewrite next_frame_app in Hf by by rewrite En.
  - by rewrite En in Hf.
  - rewrite En in Hf. injection Hf as _ Hr. by apply app_eq_nil in Hr as [_ ?].
Qed.

(** A stream of frames cut anywhere: the complete ones, and a piece of the next one. *)
Definition cut_at (qs : list packet) (k : nat) (part s : list Z) : Prop :=
  s = (take k qs ≫= frame_bytes) ++ part ∧
  match qs !! k with Some q => part `prefix_of` frame_bytes q ∧ part ≠ frame_bytes q | None => part = [] end.

Lemma decodes_prefix max qs s : Forall (frame_ok max) qs → s `prefix_of` (qs ≫= frame_bytes) →
  ∃ k part, decodes max s (take k qs) part true ∧ cut_at qs k part s.
Proof.
  intros Hqs. revert s. induction Hqs as [|q qs Hq Hqs IH]; intros s Hs.
  - apply prefix_nil_inv in Hs as ->. exists 0%nat, []. split; [apply (decodes_frames max [])|by split]. by apply Forall_nil_2.
  - rewrite bind_cons in Hs. destruct (decide (frame_bytes q `prefix_of` s)) as [[s' ->]|Hno].
    + apply prefix_app_inv in Hs. destruct (IH s' Hs) as (k & part & Hd & E & Hk). exists (S k), part. split; [|split; [|done]].
      * cbn [take]. by eapply decodes_frame; [apply next_frame_bytes|].
      * cbn [take]. by rewrite bind_cons, <-app_assoc, <-E.
    + destruct (prefix_weak_total s (frame_bytes q) _ Hs (prefix_app_r _ _ _ (reflexivity _))) as [[x E]|?]; [|done].
      exists 0%nat, s. split; [|split; [done|split; [by exists x|by intros ->; apply Hno]]].
      apply decodes_wait. apply (next_frame_incomplete max q s x Hq E). intros ->. apply Hno. by rewrite E, app_nil_r.
Qed.

(** C15: No packet waits for more than its own bytes: whatever part of a stream of packets has
    arrived, in whatever chunks, the callback has been given exactly the packets whose
    frames are complete, and what stays buffered is a proper part of the next frame (or
    nothing after the last one). So every packet is delivered by the [Feed] that brings
    its last byte. *)
Theorem Feed_prompt max (qs : list packet) chunks :
  Forall (frame_ok max) qs → Forall bytes_ok chunks → zlen (concat chunks) < size_mod →
  concat chunks `prefix_of` (qs ≫= frame_bytes) →
  ∃ p k part, feed_chunks chunks record_packet (NewParser max, []) = (Ret true, (p, take k qs)) ∧
    pending p = part ∧ cut_at qs k part (concat chunks).
Proof.
  intros Hqs Hb Hsz Hpre. destruct (decodes_prefix max qs _ Hqs Hpre) as (k & part & Hd & Hcut).
  destruct (feed_chunks_returns record_packet chunks (NewParser max) [] (take k qs) part true (take k qs)) as (p & E & _ & Hr);
    [apply NewParser_ok|done|done| |done|by rewrite deliver_record|by exists p, k, part].
  apply (decodes_settled max [] [] []), (decodes_frames max []). by apply Forall_nil_2.
Qed.

Section Bodies.
Context {T : Type} `{!MemoryPackFormatter T, !WireFormat T, !FormatterLaws T}.

(** [WritePacket] appends a frame: the patched header and the body behind it. *)
Lemma WritePacket_spec out i (v : T) : wf v → arith_ok UInt16 i → zlen (enc v) < 2 ^ 31 →
  zlen out + HeaderSize_ + zlen (enc v) ≤ grow_limit →
  WritePacket out i v = (Ret tt, out ++ frame_bytes (i, enc v)).
Proof.
  intros Hv Hi Hl Hsz. pose proof policy_size. pose proof grow_limit_bounds. zlen_pos.
  unfold WritePacket. rewrite size_add_small by lia.
  assert (Hres : vector_resize 0 (zlen out + HeaderSize_) out = out ++ replicate (Z.to_nat HeaderSize_) 0).
  { unfold vector_resize, zlen in *. rewrite take_ge by lia. do 2 f_equal. lia. }
  rewrite Hres. set (out' := out ++ _).
  assert (Hz : zlen out' = zlen out + HeaderSize_) by (unfold out'; rewrite zlen_app, zlen_replicate_Z; lia).
  destruct (Write_fits (WriterOfVector out') v Hv (WriterOfVector_ok out')) as (w & E & Hs & G & _); [cbn; lia|].
  rewrite E. destruct (vec_ w) as [l|] eqn:El; [|by apply (step_vec _ _ Hs) in El].
  unfold GetSpan, w_Size, Data in G. rewrite El in G. cbn in G. rewrite !slice_all in G. subst l. change (default [] (Some (out' ++ enc v))) with (out' ++ enc v).
  rewrite zlen_app, Hz. rewrite !size_sub_small by (rewrite ?size_sub_small; lia).
  replace (zlen out + HeaderSize_ + zlen (enc v) - zlen out - HeaderSize_) with (zlen (enc v)) by lia.
  assert (Hle : of_unsigned Int32 (to_unsigned 4 (zlen (enc v))) = zlen (enc v))
    by (apply (arith_ok_unsigned Int32); arith_ranges; lia).
  rewrite Hle. f_equal. unfold overwrite, out', frame_bytes, snd, fst.
  pose proof (policy_write_size i (zlen (enc v))) as Hpw. set (header := Policy_Write _ _) in *.
  unfold zlen in Hpw.
  rewrite <-app_assoc, zlen_to_nat, take_app_length. f_equal. f_equal.
  rewrite app_assoc. apply drop_app_length'. rewrite length_app, length_replicate. lia.
Qed.

End Bodies.
End RoundTrip.

(** ** The default policy *)

Section DefaultPolicy.
Context `{Platform}.

#[export] Instance DefaultPacketHeaderPolicy_laws : HeaderPolicyLaws.
Proof.
  split; cbn [HeaderSize_ Policy_Write Policy_Read DefaultPacketHeaderPolicy]; intros.
  - done.
  - rewrite zlen_app. unfold zlen. by rewrite !length_object_bytes.
  - apply bytes_ok_app; apply object_repr_ok.
  - rewrite !object_bytes_endian_convert by done. change (arith_size UInt16) with 2%nat.
    change (arith_size Int32) with 4%nat. f_equal.
    + rewrite (slice_prefix 0 _ (le_bytes 2 id) (le_bytes 4 len)) by done.
      rewrite (endian_convert_of_object_bytes UInt16) by (apply le_bytes_ok || apply length_le_bytes).
      by apply (wire_value_le_bytes UInt16).
    + rewrite (slice_suffix 2 4 (le_bytes 2 id) (le_bytes 4 len)) by done.
      rewrite (endian_convert_of_object_bytes Int32) by (apply le_bytes_ok || apply length_le_bytes).
      by apply (wire_value_le_bytes Int32).
  - cbn [snd]. pose proof (zlen_slice 2 4 bs ltac:(lia) ltac:(lia) ltac:(lia)) as Hl. unfold zlen in Hl.
    rewrite (endian_convert_of_object_bytes Int32) by (by apply Forall_slice || (cbn; lia)).
    apply wire_value_ok; [done|by apply Forall_slice|cbn; lia].
Qed.

(** [PeekPacketHeader] reads the header of a packet [MakePacket] made, whatever
    follows it, and is undecided exactly on fewer bytes than a header. *)
Theorem PeekPacketHeader_MakePacket {T} `{!MemoryPackFormatter T, !WireFormat T, !FormatterLaws T}
    i (v : T) bs x : arith_ok UInt16 i → wf v → zlen (enc v) < 2 ^ 31 → 6 + zlen (enc v) ≤ grow_limit →
  MakePacket i v = Ret bs →
  PeekPacketHeader (bs ++ x) = Some (MkPacketHeader i (zlen (enc v))) ∧
  ∀ data, PeekPacketHeader data = None ↔ zlen data < 6.
Proof.
  intros Hi Hv Hl Hg E. unfold MakePacket in E. rewrite WritePacket_spec in E by (done || cbn [HeaderSize_ DefaultPacketHeaderPolicy]; rewrite ?zlen_nil; lia).
  injection E as <-. unfold PeekPacketHeader. split.
  - unfold frame_bytes. cbn [fst snd app]. pose proof (policy_write_size i (zlen (enc v))) as Hz. rewrite <-app_assoc.
    rewrite zlen_app, Hz. zlen_pos. destruct (Z.ltb_spec (HeaderSize_ + zlen (enc v ++ x)) HeaderSize_); [zlia|].
    rewrite <-Hz at 1. rewrite (slice_prefix 0 _ _ (enc v ++ x)) by done.
    by rewrite policy_read_write by (done || arith_ranges; lia).
  - intros data. change HeaderSize_ with 6. destruct (Z.ltb_spec (zlen data) 6); [done|].
    destruct (Policy_Read _). split; [done|lia].
Qed.
End DefaultPolicy.

(** ** Concrete runs *)

Section Witness.
#[local] Existing Instance host64.

Definition packet1 : list Z := [1; 0; 4; 0; 0; 0; 7; 0; 0; 0].


Lemma Feed_prompt_witness : ∃ p k part,
  feed_chunks [[1; 0; 4]; [0; 0; 0; 7; 0; 0; 0; 2; 1; 4]] record_packet (NewParser 100, []) =
    (Ret true, (p, take k [(1, [7; 0; 0; 0]); (258, [255; 255; 255; 255])])) ∧ pending p = part ∧
  cut_at [(1, [7; 0; 0; 0]); (258, [255; 255; 255; 255])] k part [1; 0; 4; 0; 0; 0; 7; 0; 0; 0; 2; 1; 4].
Proof.
  apply (Feed_prompt 100 [(1, [7; 0; 0; 0]); (258, [255; 255; 255; 255])] [[1; 0; 4]; [0; 0; 0; 7; 0; 0; 0; 2; 1; 4]]).
  - repeat (apply Forall_cons; split; [split_and!; [by vm_compute|bytes_lit|by vm_compute..]|]). by apply Forall_nil.
  - repeat (apply Forall_cons; split; [bytes_lit|]). by apply Forall_nil.
  - by vm_compute.
  - by exists [0; 0; 0; 255; 255; 255; 255].
Defined.

Lemma Feed_chunk_independent_witness : ∃ ok (l : list packet) p1 p2,
  feed_chunks [[1; 0; 0; 0]; [0; 0; 9]] record_packet (NewParser 100, []) = (Ret ok, (p1, l)) ∧
  Feed [1; 0; 0; 0; 0; 0; 9] record_packet (NewParser 100, []) = (Ret ok, (p2, l)) ∧ pending p1 = pending p2.
Proof.
  apply (Feed_chunk_independent record_packet 100 [[1; 0; 0; 0]; [0; 0; 9]] []).
  - apply record_returns.
  - unfold bytes_ok. by rewrite !Forall_cons.
  - by vm_compute.
Defined.

Lemma Feed_refines_stream_witness : ∃ ps r ok, decodes 100 [1; 0; 0; 0; 0; 0] ps r ok.
Proof.
  destruct (Feed_refines_stream record_packet [1; 0; 0; 0; 0; 0] (NewParser 100) []) as (ps & r & ok & Hd & _).
  - apply NewParser_ok.
  - unfold bytes_ok. by rewrite !Forall_cons.
  - by vm_compute.
  - exists ps, r, ok. exact Hd.
Defined.

Lemma Feed_memory_bound_witness : Buffered (MkParser [1; 0; 9] 0 100) < 106.
Proof.
  destruct (Feed_memory_bound record_packet [1; 0; 9] (NewParser 100) [] true (MkParser [1; 0; 9] 0 100) [])
    as [Hb _]; [| | | |exact Hb].
  - apply NewParser_ok.
  - unfold bytes_ok. by rewrite !Forall_cons.
  - by vm_compute.
  - reflexivity.
Defined.

(** A callback that rejects every packet. *)
Definition reject (i : Z) (body : list Z) : M unit unit := λ s, (Throw NotSupported 0, s).

Lemma Feed_throw_redelivers_witness : ∃ p', Feed packet1 reject (NewParser 100, tt) = (Throw NotSupported 0, (p', tt)) ∧
  parser_ok p'.
Proof.
  eexists. split; [reflexivity|].
  eapply (Feed_throw_redelivers reject packet1 [] (NewParser 100) tt NotSupported 0 _ tt).
  - apply NewParser_ok.
  - unfold bytes_ok, packet1. by rewrite !Forall_cons.
  - by vm_compute.
  - reflexivity.
Defined.

Lemma PeekPacketHeader_MakePacket_witness : PeekPacketHeader (packet1 ++ [9]) = Some (MkPacketHeader 1 4).
Proof.
  destruct (PeekPacketHeader_MakePacket 1 (Prim 7 : prim Int32) packet1 [9]) as [E _]; [by vm_compute..| |exact E].
  reflexivity.
Defined.
End Witness.
