(* ===== verification/CoreTheorems.v ===== *)
(** Theorems about the low level of the library ([core.hpp]): byte order, the growth and
    the bounds of the writer's buffers, the bounds checks of the reader, headers, and
    the transcoding of strings. *)
From S2P Require Import Prelude Endian Writer Reader Headers Utf Strings Formatter Api.

(** ** Byte order *)

(** The wire format does not depend on the host. Whatever its byte order, a host
    writes an arithmetic value as its little-endian bytes, and any other host reads
    the same value back and moves past exactly those bytes. *)
Theorem WriteRaw_host_independent (writer_host reader_host : Platform) (t : arith_ty) (v : Z) out :
  arith_ok t v →
  WriteRaw (H := writer_host) t v (WriterOfVector out) =
    (Ret tt, WriterOfVector (out ++ le_bytes (arith_size t) v)) ∧
  ∀ o d r x, ready (H := reader_host) o d r → rest r = le_bytes (arith_size t) v ++ x →
    ReadRaw (H := reader_host) t r = (Ret v, skip (sizeof t) r).
Proof.
  intros Hv. split.
  - unfold WriteRaw. rewrite object_bytes_endian_convert by done. unfold AppendBytes. rewrite zlen_le_bytes.
    destruct (Z.eqb_spec (Z.of_nat (arith_size t)) 0); [by destruct t|done].
  - intros o d r x Hr Hx. destruct (reads_ReadRaw (H := reader_host) o d t v Hv r Hr) as [Hread _].
    rewrite zlen_le_bytes in Hread. apply Hread. rewrite Hx. by eexists.
Qed.

Lemma WriteRaw_host_independent_witness :
  (WriteRaw (H := host32) Int32 (-2) (WriterOfVector []) = (Ret tt, WriterOfVector [254; 255; 255; 255])) ∧
  (ReadRaw (H := host64) Int32 (NewReader [254; 255; 255; 255; 7] DefaultOptions)).1 = Ret (-2).
Proof.
  destruct (WriteRaw_host_independent host32 host64 Int32 (-2) []) as [E Hr]; [done|]. split; [exact E|].
  rewrite (Hr DefaultOptions 0 _ [7]); [done| |done].
  apply NewReader_ready; [bytes_lit|done].
Defined.

(** ** Buffers of the writer *)

(** A fixed buffer is never written outside its capacity. An append that fits is
    stored at the write position and leaves every other byte of the buffer alone; one
    that does not fit changes nothing but the error. *)
Theorem AppendBytes_fixed_bounded `{Platform} (w : MemoryPackWriter) buf bs :
  w_ok w → vec_ w = None → fixedBuf_ w = Some buf →
  if decide (fixedPos_ w + zlen bs ≤ fixedCap_ w) then
    ∃ buf', AppendBytes bs w = (Ret tt, set_fixed (Some buf') (fixedPos_ w + zlen bs) w) ∧
      zlen buf' = zlen buf ∧ slice (fixedPos_ w) (zlen bs) buf' = bs ∧
      ∀ i : nat, (Z.of_nat i < fixedPos_ w ∨ fixedPos_ w + zlen bs ≤ Z.of_nat i) → buf' !! i = buf !! i
  else
    ∃ e, e ≠ NoError ∧
      AppendBytes bs w =
        (if has_exceptions then Throw BufferOverflow (fixedPos_ w) else Ret tt, set_w_error e w).
Proof.
  intros Hw Hv Hb. destruct (ok_fixed _ Hw buf Hb) as (Hl & Hp & Hc). zlen_pos.
  unfold AppendBytes. rewrite Hv, Hb. rewrite size_sub_small by lia. destruct (decide _) as [Hd|Hd].
  - destruct (Z.eqb_spec (zlen bs) 0) as [E|E].
    { exists buf. apply zlen_0_nil in E as ->. split_and!; [|done|done|done].
      rewrite zlen_nil, Z.add_0_r. destruct w; cbn in *; by subst. }
    destruct (Z.gtb_spec (zlen bs) (fixedCap_ w - fixedPos_ w)); [lia|].
    unfold store_fixed. rewrite mem_store_Some by lia. rewrite size_add_small by lia.
    assert (Hz : zlen (overwrite (fixedPos_ w) bs buf) = zlen buf) by (apply zlen_overwrite; lia).
    exists (overwrite (fixedPos_ w) bs buf). split_and!; [done|done| |].
    + unfold slice, overwrite, zlen in *. rewrite drop_app_ge, length_take_le, Nat.sub_diag by (rewrite ?length_take_le; lia).
      rewrite drop_0, Nat2Z.id. apply take_app_length.
    + intros i Hi. unfold overwrite, zlen in *. destruct Hi as [Hi|Hi].
      * rewrite lookup_app_l by (rewrite length_take_le; lia). apply lookup_take_lt. lia.
      * rewrite lookup_app_r, length_take_le by (rewrite ?length_take_le; lia).
        rewrite lookup_app_r by lia. rewrite lookup_drop. f_equal. lia.
  - destruct (Z.eqb_spec (zlen bs) 0); [lia|]. destruct (Z.gtb_spec (zlen bs) (fixedCap_ w - fixedPos_ w)); [|lia].
    assert (Hz : ∀ e, w_Size (set_w_error e w) = fixedPos_ w) by (intros e; unfold w_Size; cbn; by rewrite Hv, Hb).
    unfold w_Fail. destruct (decide (w_error_ w = NoError)) as [E|E].
    + exists BufferOverflow. split; [done|]. rewrite Hz. by destruct has_exceptions.
    + exists (w_error_ w). split; [done|].
      assert (Hw' : set_w_error (w_error_ w) w = w) by by destruct w.
      specialize (Hz (w_error_ w)). rewrite Hw' in Hz |- *. rewrite Hz. by destruct has_exceptions.
Qed.

Lemma AppendBytes_fixed_bounded_witness :
  ∃ buf, AppendBytes (H := host64) [1; 2] (WriterOfBuffer (Some [9; 9; 9]) 3) =
         (Ret tt, set_fixed (Some buf) 2 (WriterOfBuffer (Some [9; 9; 9]) 3)) ∧ buf !! 2%nat = Some 9.
Proof.
  destruct (AppendBytes_fixed_bounded (H := host64) (WriterOfBuffer (Some [9; 9; 9]) 3) [9; 9; 9] [1; 2])
    as (buf & E & _ & _ & Hk); [by apply WriterOfBuffer_ok|done|done|].
  exists buf. split; [exact E|]. apply (Hk 2%nat). right. vm_compute. discriminate.
Defined.

(** Growing terminates: for any content up to a quarter of the address space,
    [GrowOwned] finds a size after at most 64 doublings, without wrapping [size_t];
    the buffer then has the room asked for, keeps what was written, and is at most
    twice as large as needed. *)
Theorem GrowOwned_terminates `{Platform} (w : MemoryPackWriter) needed :
  w_ok w → vec_ w = None → fixedBuf_ w = None → 0 < needed →
  zlen (owned_ w) < ownedPos_ w + needed ≤ grow_limit →
  ∃ o, GrowOwned needed w = (Ret tt, set_owned o (ownedPos_ w) w) ∧
    ownedPos_ w + needed ≤ zlen o ∧ zlen o ≤ Z.max 64 (2 * (ownedPos_ w + needed)) ∧
    GetSpan (set_owned o (ownedPos_ w) w) = GetSpan w.
Proof.
  intros Hw Hv Hb Hn Hg. pose proof (ok_owned _ Hw). pose proof grow_limit_bounds.
  destruct (GrowOwned_spec w needed Hw (conj Hv Hb) Hn) as (o & E & Ho1 & Ho2 & Ho3); [lia|lia|].
  exists o. split; [done|]. split; [done|]. split.
  - revert E. unfold GrowOwned. rewrite size_add_small by lia.
    set (next := if zlen (owned_ w) =? 0 then 64 else (zlen (owned_ w) * 2) mod size_mod).
    assert (Hnext : next = 64 ∨ 1 ≤ next ≤ 2 * (ownedPos_ w + needed)).
    { unfold next. destruct (Z.eqb_spec (zlen (owned_ w)) 0); [by left|]. right.
      rewrite Z.mod_small by lia. lia. }
    destruct (grow_loop_spec grow_fuel next (ownedPos_ w + needed)) as (k & -> & Hk1 & Hk2 & Hk3); [lia| |lia|].
    { unfold grow_limit in *. change (2 ^ Z.of_nat grow_fuel) with (2 ^ 64). destruct size_t_is_32; lia. }
    intros E. apply (f_equal (zlen ∘ owned_ ∘ snd)) in E. cbn in E. rewrite <-E, zlen_vector_resize by lia. lia.
  - rewrite !GetSpan_owned by done. done.
Qed.

Lemma GrowOwned_terminates_witness :
  ∃ o, GrowOwned (H := host64) 100 NewWriter = (Ret tt, set_owned o 0 NewWriter) ∧ 100 ≤ zlen o.
Proof.
  destruct (GrowOwned_terminates (H := host64) NewWriter 100) as (o & E & Ho & _);
    [apply NewWriter_ok|done|done|done|vm_compute; by split|]. exists o. by split.
Defined.

(** ** Bounds checks of the reader *)

(** [EnsureBytes] is exact for every [size_t] argument, however large: on a reader
    without error it accepts exactly the requests the remaining input can serve, and
    leaves the reader alone; otherwise it records [BufferUnderflow] (and throws it in
    builds with exceptions), moving nothing. No sum can wrap past the check. *)
Theorem EnsureBytes_exact `{Platform} (r : MemoryPackReader) n :
  r_ok r → error_ r = NoError → 0 ≤ n < size_mod →
  EnsureBytes n r =
    if decide (n ≤ zlen (rest r)) then (Ret true, r)
    else (if has_exceptions then Throw BufferUnderflow (pos_ r) else Ret false,
          set_error BufferUnderflow r).
Proof.
  intros Hr He Hn. rewrite rest_length by done. unfold EnsureBytes. rewrite decide_True by done.
  change (size_sub (size_ r) (pos_ r)) with (Remaining r). rewrite Remaining_spec by done.
  destruct (Z.gtb_spec n (size_ r - pos_ r)).
  - rewrite decide_False by lia. unfold mbind, M_bind, Fail. rewrite decide_True by done. by destruct has_exceptions.
  - by rewrite decide_True by lia.
Qed.

Lemma EnsureBytes_exact_witness :
  EnsureBytes (H := host64) (2 ^ 64 - 1) (NewReader [1; 2] DefaultOptions) =
    (Throw BufferUnderflow 0, set_error BufferUnderflow (NewReader [1; 2] DefaultOptions)).
Proof.
  rewrite (EnsureBytes_exact (H := host64)); [done| |done|by split].
  apply NewReader_ready; [bytes_lit|done].
Defined.

(** C18: No length read from the input is trusted before it is bounded. Whatever the four
    bytes say, [ReadCollectionLength] returns [-1] (with an error, unless they are the
    null marker) or a count within [maxCollectionLength] whose elements, at their
    minimum size, are all there in the remaining input: allocation is linear in the
    bytes received. *)
Theorem ReadCollectionLength_bounded `{Platform} (r : MemoryPackReader) minElementSize n x :
  r_ok r → error_ r = NoError → 0 < minElementSize → - 2 ^ 31 ≤ n < 2 ^ 31 →
  rest r = le_bytes 4 n ++ x →
  match ReadCollectionLength minElementSize r with
  | (Ret len, r') =>
      len = n ∧ n = -1 ∧ error_ r' = NoError ∨
      len = n ∧ 0 ≤ n ≤ maxCollectionLength (options_ r) ∧ n * minElementSize ≤ zlen x ∧ r' = skip 4 r ∨
      len = -1 ∧ has_exceptions = false ∧ error_ r' = LengthLimit
  | (Throw e off, r') => has_exceptions = true ∧ e = LengthLimit ∧ off = pos_ r + 4 ∧ error_ r' = LengthLimit
  | (UB, _) => False
  end.
Proof.
  intros Hr He Hm Hn Hx. assert (Hready : ready (options_ r) (depth_ r) r) by done.
  assert (Hok : arith_ok Int32 n) by (arith_ranges; lia).
  destruct (reads_ReadRaw _ _ Int32 n Hok r Hready) as [Hread _].
  unfold ReadCollectionLength. rewrite (bind_Ret _ _ _ _ _ (Hread ltac:(rewrite Hx; by eexists))).
  destruct (ready_skip_prefix _ _ r _ x Hready Hx) as [Hr1 Hx1]. change (zlen (le_bytes (arith_size Int32) n)) with 4 in *.
  rewrite zlen_le_bytes in Hr1, Hx1. change (Z.of_nat 4) with 4 in *.
  assert (Hfail : ∀ a : Z, match (Fail LengthLimit ;; mret a) (skip 4 r) with
    | (Ret len, r') => len = a ∧ has_exceptions = false ∧ error_ r' = LengthLimit
    | (Throw e off, r') => has_exceptions = true ∧ e = LengthLimit ∧ off = pos_ r + 4 ∧ error_ r' = LengthLimit
    | (UB, _) => False end).
  { intros a. unfold mbind, M_bind, Fail. rewrite decide_True by done. by destruct has_exceptions. }
  specialize (Hfail (-1)). destruct (Z.ltb_spec n 0).
  - destruct (Z.eqb_spec n NULL_COLLECTION) as [->|E]; [by left|]. cbn [negb].
    destruct ((Fail LengthLimit ;; mret (-1)) (skip 4 r)) as [[len|e off|] r']; [|done..]. by right; right.
  - unfold mbind at 1 2, M_bind at 1 2, gets. rewrite Remaining_spec, <-rest_length, Hx1 by apply Hr1.
    change (options_ (skip 4 r)) with (options_ r).
    destruct (Z.gtb_spec n (maxCollectionLength (options_ r))); cbn [orb].
    { destruct ((Fail LengthLimit ;; mret (-1)) (skip 4 r)) as [[len|e off|] r']; [|done..]. by right; right. }
    destruct (Z.gtb_spec minElementSize 0); [|lia]. cbn [andb].
    destruct (Z.gtb_spec n (zlen x / minElementSize)).
    { destruct ((Fail LengthLimit ;; mret (-1)) (skip 4 r)) as [[len|e off|] r']; [|done..]. by right; right. }
    right. left. split_and!; [done|done|done| |done]. by apply le_div_mul.
Qed.

Lemma ReadCollectionLength_bounded_witness :
  (ReadCollectionLength (H := host64) 4 (NewReader [2; 0; 0; 0; 1; 0; 0; 0] DefaultOptions)).1 ≠ Ret 2.
Proof.
  intros E.
  pose proof (ReadCollectionLength_bounded (H := host64) (NewReader [2; 0; 0; 0; 1; 0; 0; 0] DefaultOptions)
    4 2 [1; 0; 0; 0]) as B.
  destruct (ReadCollectionLength (H := host64) 4 _) as [o r']. cbn in E. subst o.
  destruct B as [(_ & B & _)|[(_ & _ & B & _)|(B & _)]]; try done.
  apply NewReader_ready; [bytes_lit|done].
Defined.

(** ** Headers *)

(** Union tags round trip in the two encodings C# uses: one byte below 250, three
    bytes from 250 to 65535; and the bytes 251 to 254, which C# never writes, are
    rejected as [InvalidHeader] rather than taken for a tag. *)
Theorem union_header_round_trip `{Platform} tag : 0 ≤ tag < 65536 →
  emits (WriteUnionHeader tag) (enc_union_header tag) ∧
  zlen (enc_union_header tag) = (if tag <? 250 then 1 else 3) ∧
  (∀ o d, reads o d ReadUnionHeader (enc_union_header tag) (Some tag)) ∧
  ∀ o d r b x, ready o d r → 250 < b < 255 → rest r = b :: x →
    ReadUnionHeader r =
      (if has_exceptions then Throw InvalidHeader (pos_ r + 1) else Ret None, set_error InvalidHeader (skip 1 r)).
Proof.
  intros Htag. split_and!; [by apply WriteUnionHeader_emits| |by intros; apply reads_ReadUnionHeader|].
  - unfold enc_union_header, WIDE_TAG. by destruct (tag <? 250).
  - intros o d r b x Hr Hb Hx. destruct (reads_ReadByte o d b r Hr) as [Hbyte _].
    unfold ReadUnionHeader. rewrite (bind_Ret _ _ _ _ _ (Hbyte ltac:(rewrite Hx; by exists x))).
    unfold NULL_OBJECT, WIDE_TAG. destruct (Z.eqb_spec b 255), (Z.eqb_spec b 250), (Z.gtb_spec b 250); try lia.
    change (zlen [b]) with 1. unfold mbind, M_bind, Fail. rewrite decide_True by apply Hr. by destruct has_exceptions.
Qed.

Lemma union_header_round_trip_witness : enc_union_header 300 = [250; 44; 1] ∧
  emits (H := host64) (WriteUnionHeader (H := host64) 300) [250; 44; 1].
Proof.
  destruct (union_header_round_trip (H := host64) 300) as (E & _); [by split|]. split; [reflexivity|exact E].
Defined.

(** The member lengths of the VersionTolerant layout round trip over all of
    [uint32_t] in one, three or five bytes, and any other leading byte is rejected. *)
Theorem varint_round_trip `{Platform} v : 0 ≤ v < 2 ^ 32 →
  emits (WriteVarIntLength v) (enc_varint v) ∧
  zlen (enc_varint v) = (if v <=? 127 then 1 else if v <=? 65535 then 3 else 5) ∧
  (∀ o d, reads o d ReadVarIntLength (enc_varint v) v) ∧
  ∀ o d r b x, ready o d r → 127 < b < 256 → b ≠ 0x84 → b ≠ 0x82 → rest r = b :: x →
    ReadVarIntLength r =
      (if has_exceptions then Throw InvalidHeader (pos_ r + 1) else Ret 0, set_error InvalidHeader (skip 1 r)).
Proof.
  intros Hv. split_and!; [by apply WriteVarIntLength_emits| |by intros; apply reads_ReadVarIntLength|].
  - unfold enc_varint, VARINT_MAX_SINGLE. destruct (v <=? 127); [done|]. by destruct (v <=? 65535).
  - intros o d r b x Hr Hb H1 H2 Hx. destruct (reads_ReadByte o d b r Hr) as [Hbyte _].
    unfold ReadVarIntLength. rewrite (bind_Ret _ _ _ _ _ (Hbyte ltac:(rewrite Hx; by exists x))).
    unfold VARINT_MAX_SINGLE, VARINT_UINT16_TAG, VARINT_UINT32_TAG.
    destruct (Z.leb_spec b 127), (Z.eqb_spec b 0x84), (Z.eqb_spec b 0x82); try lia.
    change (zlen [b]) with 1. unfold mbind, M_bind, Fail. rewrite decide_True by apply Hr. by destruct has_exceptions.
Qed.

Lemma varint_round_trip_witness : enc_varint 70000 = [0x82; 112; 17; 1; 0] ∧
  emits (H := host64) (WriteVarIntLength (H := host64) 70000) (enc_varint 70000).
Proof.
  destruct (varint_round_trip (H := host64) 70000) as (E & _); [by split|]. split; [reflexivity|exact E].
Defined.

(** ** Strings *)

(** C38: The number of UTF-16 units [WriteString] announces is the one C# will need: the
    eight-bytes-at-a-time ASCII scan counts what the byte-by-byte count does on any
    bytes, and on the UTF-8 encoding of a text it is the length of its UTF-16 encoding
    (two units for a code point outside the BMP). *)
Theorem utf16_length_correct `{Platform} data cps :
  (bytes_ok data → utf16_length_from_utf8 data = count_units data 0) ∧
  (Forall scalar cps → utf16_length_from_utf8 (utf8_encode cps) = zlen (utf16_encode cps)).
Proof.
  split; [apply utf16_length_count|]. intros Hc.
  rewrite utf16_length_count by by apply utf8_encode_ok. by apply count_units_encode.
Qed.

Lemma utf16_length_correct_witness :
  utf16_length_from_utf8 (H := host64) (utf8_encode [0x41; 0x1F600; 0xE9]) = 4.
Proof.
  destruct (utf16_length_correct (H := host64) [] [0x41; 0x1F600; 0xE9]) as [_ E]. rewrite E; [reflexivity|].
  repeat (apply Forall_cons; split; [unfold scalar; lia|]). by apply Forall_nil.
Defined.

(** C33: Strings C# wrote in UTF-16 arrive as UTF-8 text: a payload of any units is
    decoded to the UTF-8 encoding of scalar values (an unpaired surrogate becomes
    U+FFFD and never reaches the output), well-formed text keeps its code points, and
    transcoding the result back to UTF-16 gives the original units. *)
Theorem utf16_strings_transcode `{Platform} o d (s : list Z) :
  u16string_ok s → zlen s ≤ maxStringLength o →
  reads o d ReadString (enc_string_utf16 s) (Some (utf8_encode (decode_utf16 s))) ∧
  Forall scalar (decode_utf16 s) ∧
  (∀ cps, Forall scalar cps → s = utf16_encode cps →
     decode_utf16 s = cps ∧ utf8_to_utf16 (utf8_encode (decode_utf16 s)) = s).
Proof.
  intros Hs Hl. split_and!; [by apply reads_ReadString_utf16|by apply decode_utf16_scalar, Hs|].
  intros cps Hc ->. rewrite decode_utf16_encode by done. split; [done|]. by apply utf8_to_utf16_encode.
Qed.

Lemma utf16_strings_transcode_witness :
  reads (H := host64) DefaultOptions 0 (ReadString (H := host64)) (enc_string_utf16 [0xD83D; 0xDE00; 0xD83D; 0x41])
    (Some [0xF0; 0x9F; 0x98; 0x80; 0xEF; 0xBF; 0xBD; 0x41]).
Proof.
  apply (utf16_strings_transcode (H := host64) DefaultOptions 0 [0xD83D; 0xDE00; 0xD83D; 0x41]);
    [|vm_compute; discriminate].
  split; [|done]. repeat (apply Forall_cons; split; [by split|]). by apply Forall_nil.
Defined.
