(* ===== verification/ContainerTheorems.v ===== *)
(** Theorems about the typed layer ([core.hpp], [containers.hpp]): bulk copies,
    fixed-size arrays, ordered maps, nullable values, version tolerance of objects,
    nesting limits, unions, the VersionTolerant layout and padding. *)
From S2P Require Import Prelude Endian Writer Reader Headers Utf Strings Formatter Collections Assoc Nullable Objects Union VersionTolerant Unmanaged Api.

(** ** Sequences *)

(** C35: The bulk copy of [WriteVector] and [ReadVector] is an optimisation only: on every
    host the vector is encoded as a count followed by its elements one by one, which
    is also what writing the elements separately produces, and reading that encoding
    in bulk gives the elements back. *)
Theorem vector_bulk_elementwise `{Platform} t vec : Forall (arith_ok t) vec → zlen vec < 2 ^ 31 →
  let bs := le_bytes 4 (zlen vec) ++ (vec ≫= le_bytes (arith_size t)) in
  emits (WriteVector t vec) bs ∧
  emits (WriteCollectionHeader (zlen vec) ;; mapM_ (WriteRaw t) vec) bs ∧
  ∀ o d, zlen vec ≤ maxCollectionLength o → zlen vec * sizeof t < size_mod → reads o d (ReadVector t) bs vec.
Proof.
  intros Hok Hn bs. zlen_pos. split_and!; [by apply WriteVector_emits| |].
  - apply emits_bind; [by apply WriteCollectionHeader_emits|]. apply mapM_emits. intros v Hv.
    apply WriteRaw_emits. by eapply Forall_forall in Hok.
  - intros o d Hl Hs. by apply reads_ReadVector.
Qed.

Lemma vector_bulk_elementwise_witness :
  emits (H := host32) (WriteVector (H := host32) Int16 [258; -1]) [2; 0; 0; 0; 2; 1; 255; 255].
Proof.
  apply (vector_bulk_elementwise (H := host32) Int16 [258; -1]); [|done].
  repeat (apply Forall_cons; split; [by split|]). by apply Forall_nil.
Defined.

(** Reading into a C array never writes past it and never loses its place: of the
    elements sent, the first [N] are stored from the start, the rest of the array keeps
    its contents, the surplus elements are skipped, and the count stored is returned. *)
Theorem ReadArray_truncates `{Platform} o d t (arr vs : list Z) :
  Forall (arith_ok t) vs → zlen vs < 2 ^ 31 → zlen vs ≤ maxCollectionLength o →
  emits (WriteArray t vs (zlen vs)) (le_bytes 4 (zlen vs) ++ (vs ≫= le_bytes (arith_size t))) ∧
  reads o d (ReadArray t arr (zlen arr)) (le_bytes 4 (zlen vs) ++ (vs ≫= le_bytes (arith_size t)))
    (Z.min (zlen vs) (zlen arr), take (length arr) vs ++ drop (length vs) arr) ∧
  length (take (length arr) vs ++ drop (length vs) arr) = length arr.
Proof.
  intros Hok Hn Hl. zlen_pos. split_and!; [|by apply reads_ReadArray|rewrite length_app, length_take, length_drop; lia].
  pose proof (WriteArray_emits t vs (length vs)) as He. rewrite firstn_all in He. by apply He.
Qed.

Lemma ReadArray_truncates_witness :
  reads (H := host64) DefaultOptions 0 (ReadArray (H := host64) UInt8 [9; 9] 2) [3; 0; 0; 0; 5; 6; 7] (2, [5; 6]).
Proof.
  apply (ReadArray_truncates (H := host64) DefaultOptions 0 UInt8 [9; 9] [5; 6; 7]);
    [|done|vm_compute; discriminate].
  repeat (apply Forall_cons; split; [by split|]). by apply Forall_nil.
Defined.

(** ** Maps *)

(** C36: An ordered map read from any bytes is a map: its keys are strictly increasing,
    so no input can plant a duplicate key, and reading never touches memory outside the
    input. A map within the limits comes back unchanged. *)
Theorem std_map_well_formed `{Platform, KeyOrderLaws K, !MemoryPackFormatter K, !WireFormat K, !FormatterLaws K,
    !MemoryPackFormatter V, !WireFormat V, !FormatterLaws V} :
  safe (MapFormatter_Deserialize (C := std_map K V)) (λ m _, sorted_nodes fst (nodes m)) ∧
  ∀ o d (m : std_map K V), 0 ≤ d → wf m → within o d m →
    emits (MapFormatter_Serialize m) (enc m) ∧ reads o d (MapFormatter_Deserialize (C := std_map K V)) (enc m) m.
Proof.
  pose proof (ContainerMinSize_bounds (T := K) kind). pose proof (ContainerMinSize_bounds (T := V) kind). split.
  - assert (Hmin : 0 < ContainerMinSize (T := K) kind + ContainerMinSize (T := V) kind) by lia.
    exact (safe_read_container (C := std_map K V) _ Hmin read_entry safe_entry).
  - intros o d m Hd Hm Hw. split.
    + by apply (law_emits (FormatterLaws := std_map_laws) m).
    + by apply (law_reads (FormatterLaws := std_map_laws) o d m m).
Qed.

Section MapWitness.
#[local] Existing Instance host64.

Lemma std_map_well_formed_witness :
  safe (MapFormatter_Deserialize (C := std_map (prim Int32) string)) (λ m _, sorted_nodes fst (nodes m)) ∧
  reads DefaultOptions 0 (MapFormatter_Deserialize (C := std_map (prim Int32) (prim Int8)))
    [1; 0; 0; 0; 7; 0; 0; 0; 9] (StdMap [(Prim 7, Prim 9)]).
Proof.
  split; [apply (std_map_well_formed (K := prim Int32) (V := string))|].
  destruct (std_map_well_formed (K := prim Int32) (V := prim Int8)) as [_ Hr].
  apply (Hr DefaultOptions 0 (StdMap [(Prim 7, Prim 9)])); [done| |].
  - split; [repeat constructor|]. split; [done|]. intros kv Hkv.
    apply list_elem_of_singleton in Hkv as ->. by split.
  - split; [vm_compute; discriminate|]. intros kv Hkv. by apply list_elem_of_singleton in Hkv as ->.
Defined.
End MapWitness.

(** ** Nullable values *)

(** [std::optional] of a value type has the layout of C#'s [Nullable<T>]: the size is
    a multiple of the alignment and leaves room for the value behind the flag, the flag
    is byte 0, the value sits at the offset of its alignment, every other byte is zero
    (nothing of the stack leaks), and decoding gives the optional back. *)
Theorem nullable_layout `{Platform} {T} (L : value_layout T) (v : option T) :
  1 ≤ vl_align L → 0 < vl_size L → (∀ x, v = Some x → layout_ok L x) →
  ∃ bs, emits (WriteNullable L v) bs ∧ zlen bs = NullableSize L ∧
    NullableSize L mod vl_align L = 0 ∧ vl_align L + vl_size L ≤ NullableSize L < 2 * vl_align L + vl_size L ∧
    head bs = Some (if v is Some _ then 1 else 0) ∧
    (∀ x, v = Some x → slice (vl_align L) (vl_size L) bs = vl_store L x) ∧
    (∀ i : nat, 1 ≤ Z.of_nat i < NullableSize L →
       (∀ x, v = Some x → Z.of_nat i < vl_align L ∨ vl_align L + vl_size L ≤ Z.of_nat i) → bs !! i = Some 0) ∧
    ∀ o d, reads o d (ReadNullable L) bs v.
Proof.
  intros Ha Hs Hv. pose proof (NullableSize_room L Ha Hs) as Hroom. exists (nullable_bytes L v).
  assert (Hlen := zlen_nullable L v Ha Hs Hv).
  split_and!; [apply AppendBytes_emits|done|by apply Z.mod_mul; lia|done| | | | |].
  - unfold NullableSize, ValueOffset.
    pose proof (Z.div_mod (vl_align L + vl_size L + vl_align L - 1) (vl_align L) ltac:(lia)).
    pose proof (Z.mod_pos_bound (vl_align L + vl_size L + vl_align L - 1) (vl_align L) ltac:(lia)). lia.
  - unfold nullable_bytes. rewrite flag_byte by lia. destruct v as [x|]; [|done]. by rewrite head_overwrite by (unfold ValueOffset; done || lia).
  - intros x ->. unfold nullable_bytes. rewrite flag_byte by lia. destruct (Hv x eq_refl) as [_ _ Hst _ _].
    rewrite <-Hst. unfold ValueOffset. apply slice_overwrite; rewrite ?zlen_cons, ?zlen_replicate_Z; lia.
  - intros i Hi Hpad. unfold nullable_bytes. rewrite flag_byte by lia.
    assert (H0 : ∀ b : Z, (b :: replicate (Z.to_nat (NullableSize L - 1)) 0) !! i = Some 0).
    { intros b. destruct i as [|i]; [lia|]. cbn. apply lookup_replicate_2. lia. }
    destruct v as [x|]; [|apply H0]. destruct (Hv x eq_refl) as [_ _ Hst _ _]. unfold ValueOffset.
    rewrite lookup_overwrite; rewrite ?zlen_cons, ?zlen_replicate_Z by lia; [|lia..].
    specialize (Hpad x eq_refl). destruct (Z.leb_spec (vl_align L) (Z.of_nat i)); [|apply H0].
    destruct (Z.ltb_spec (Z.of_nat i) (vl_align L + zlen (vl_store L x))); [lia|apply H0].
  - intros o d. apply (reads_map_eq o d (take_bytes (NullableSize L)) (λ src, match src with
       | Some src => if bool_decide (head src = Some 0) then None else Some (vl_load L (slice (ValueOffset L) (vl_size L) src))
       | None => None end) _ (Some (nullable_bytes L v))); [by apply reads_take_bytes|apply safe_take_bytes_any; lia|].
    by apply nullable_decode.
Qed.

Section NullableWitness.
#[local] Existing Instance host64.

Definition int32_layout : value_layout (prim Int32) :=
  MkLayout 4 4 (λ v, object_bytes Int32 (endian_convert Int32 (pval v)))
    (λ bs, Prim (endian_convert Int32 (of_object_bytes Int32 bs))).

Lemma nullable_layout_witness :
  ∃ bs, emits (WriteNullable int32_layout (Some (Prim 258))) bs ∧ zlen bs = 8 ∧ head bs = Some 1.
Proof.
  destruct (nullable_layout int32_layout (Some (Prim 258))) as (bs & He & Hl & _ & _ & Hh & _); [done|done| |].
  { intros x [= <-]. split; try done. apply le_bytes_ok. }
  exists bs. split; [exact He|]. split; [exact Hl|exact Hh].
Defined.
End NullableWitness.

(** ** Objects *)

(** C11: Members may be appended between versions. An object whose sender knew only the
    first [c] members of a class is read by a receiver that knows them all: exactly the
    members sent are assigned, in order, and the others keep the value they had. A
    receiver that knows fewer members than the header announces reads its own and stops
    there: the bytes of the others stay in the input. *)
Theorem object_version_tolerance {V} `{MembersLaws V} o d c (v old : V) :
  0 ≤ d → 0 ≤ c ≤ MAX_MEMBER_COUNT → wf v → within o d v →
  (let sent := take (Z.to_nat c) specs in
   reads o d (Define_Deserialize old) (c :: enc_members sent v) (assign_members sent v old)) ∧
  (∀ (known : list (member_spec V)) w, known `prefix_of` specs → zlen known ≤ c →
   reads o (d + 1) (read_members c 0 (ms_member <$> known) w) (enc_members known v) (assign_members known v w)).
Proof.
  intros Hd Hc Hwf Hwi. split; [by apply reads_Define|]. intros known w [more Hk] Hn.
  destruct Hwi as [_ Hwi].
  assert (Hin : ∀ s, s ∈ known → s ∈ specs) by (intros s Hs; rewrite Hk; apply elem_of_app; by left).
  pose proof (reads_members o (d + 1) c 0 known v w) as Hr. cbv zeta in Hr.
  rewrite take_ge in Hr by (unfold zlen in Hn; lia).
  apply Hr; [lia|intros s Hs; by apply Hwf, Hin|intros s Hs; by apply Hwi, Hin].
Qed.

(** Nesting is limited before the stack is: an object at the deepest level allowed
    is refused with [LengthLimit] before any of its members is read, whatever follows
    its header, and a null object is still accepted there. (A limit of [2^32 - 1] is no
    limit: the depth counter wraps first.) *)
Theorem depth_limited {V} `{MembersLaws V} o d r c x (old : V) :
  ready o d r → d = maxDepth o → maxDepth o < 2 ^ 32 - 1 → rest r = c :: x → 0 ≤ c →
  match Define_Deserialize old r with
  | (Ret v, r') =>
      if c =? NULL_OBJECT then v = default_value ∧ r' = skip 1 r
      else has_exceptions = false ∧ (v = old ∨ v = default_value) ∧ error_ r' ≠ NoError ∧ pos_ r' = pos_ r + 1
  | (Throw e _, r') => c ≠ NULL_OBJECT ∧ e = (if c <=? MAX_MEMBER_COUNT then LengthLimit else InvalidHeader) ∧ error_ r' = e
  | (UB, _) => False
  end.
Proof.
  intros Hr -> Hmax Hx Hc. destruct (reads_ReadByte o (maxDepth o) c r Hr) as [Hbyte _].
  assert (E : ReadByte r = (Ret c, skip 1 r)) by (apply Hbyte; rewrite Hx; by exists x). clear Hbyte.
  pose proof (ready_error _ _ _ Hr) as He. pose proof (ready_options _ _ _ Hr) as Ho. pose proof (ready_depth _ _ _ Hr) as Hd.
  pose proof (ok_depth r (ready_ok _ _ _ Hr)). pose proof (ok_options r (ready_ok _ _ _ Hr)). rewrite Ho in *.
  set (full := set_error LengthLimit (set_depth (maxDepth o + 1) (skip 1 r))).
  assert (EE : EnterObject (skip 1 r) = (if has_exceptions then Throw LengthLimit (pos_ r + 1) else Ret false, full)).
  { unfold EnterObject, mbind, M_bind, modify, gets, Fail. cbn. rewrite Hd, Ho, Z.mod_small by lia.
    destruct (Z.gtb_spec (maxDepth o + 1) (maxDepth o)); [|lia]. cbn. rewrite He. by destruct has_exceptions. }
  unfold Define_Deserialize, ReadObjectHeader, mbind, M_bind. rewrite E. unfold NULL_OBJECT, MAX_MEMBER_COUNT.
  destruct (Z.eqb_spec c 255) as [->|Hn]; [done|].
  destruct (Z.gtb_spec c 249), (Z.leb_spec c 249); try lia.
  - unfold mbind, M_bind, Fail. rewrite decide_True by done. destruct has_exceptions; cbn; [done|]. split_and!; auto.
  - unfold mret, M_ret. cbn [isNull count]. rewrite EE. destruct has_exceptions; cbn; [done|]. split_and!; auto.
Qed.

(** ** Unions *)

(** C34: A union written by this library is read back as the same alternative with the
    same contents; a tag the receiver does not know (a newer sender's alternative) is no
    error: the variant keeps its value and everything that follows is skipped; and a null
    union resets the variant to its first alternative. *)
Theorem union_dispatch {V} `{VariantLaws V} o d (v old : V) :
  0 ≤ d →
  (wf v → within o d v → emits (variant_Serialize v) (enc v) ∧ reads o d (variant_Deserialize old) (enc v) v) ∧
  (∀ r tag x, ready o d r → 0 ≤ tag < 65536 → rest r = enc_union_header tag ++ x →
     (∀ a : alternative_spec V, a ∈ alt_specs → a_tag (as_alt a) ≠ tag) →
     variant_Deserialize old r = (Ret old, skip (zlen (rest r)) r)) ∧
  reads o d (variant_Deserialize old) [NULL_OBJECT] first_alternative.
Proof.
  intros Hd. split_and!.
  - intros Hwf Hwi. split.
    + by apply (law_emits (FormatterLaws := variant_laws) v).
    + by apply (law_reads (FormatterLaws := variant_laws) o d v old).
  - intros r tag x Hr Htag Hx Hno. by apply (variant_unknown_tag o d r old tag x).
  - eapply reads_bind_nil; [apply reads_null_union|apply safe_ReadUnionHeader_any|apply reads_ret|].
    apply safe_variant_rest.
Qed.

(** ** The VersionTolerant layout *)

(** C14: The VersionTolerant layout survives changes in both directions and at any nesting
    level. A writer that knows the members [sent] and a reader that knows the members
    [known] of the same class, one list extending the other, agree on the common ones:
    the reader assigns them, leaves those the writer lacked alone, skips those it does
    not know, and stops exactly behind the object. *)
Theorem version_tolerant_round_trip `{Platform} {V} o d (sent known : list (member_spec V)) (v old : V) w r x :
  (sent `prefix_of` known ∨ known `prefix_of` sent) → zlen sent ≤ MAX_MEMBER_COUNT →
  members_wf sent v → members_within o d sent v → 0 ≤ d →
  zlen (enc_members sent v) < 2 ^ 32 → zlen (enc_members sent v) ≤ grow_limit →
  w_ok w → w_Size w + zlen (vt_bytes (member_parts sent v)) ≤ w_limit w →
  ∃ w' bs, WriteVersionTolerant (ms_member <$> sent) v w = (Ret tt, w') ∧ GetSpan w' = GetSpan w ++ bs ∧
    (ready o d r → rest r = bs ++ x →
     ReadVersionTolerant (ms_member <$> known) old r =
       (Ret (assign_members (take (length sent) known) v old), skip (zlen bs) r)).
Proof.
  intros Hpre Hn Hwf Hwi Hd H32 Hlim Hw Hroom. zlen_pos.
  destruct (WriteVersionTolerant_fits sent v w) as (w' & E & _ & G & _); try done.
  exists w', (vt_bytes (member_parts sent v)). split_and!; [done|done|]. intros Hr Hx.
  assert (Hcommon : ∀ j s s', known !! j = Some s → sent !! j = Some s' → s = s').
  { intros j s s' Hs Hs'. destruct Hpre as [Hpre|Hpre].
    - by rewrite (prefix_lookup_Some _ _ _ _ Hs' Hpre) in Hs; simplify_eq.
    - by rewrite (prefix_lookup_Some _ _ _ _ Hs Hpre) in Hs'; simplify_eq. }
  rewrite (ReadVersionTolerant_ready o d r known (member_parts sent v) x v old); try done.
  - unfold member_parts. by rewrite length_fmap.
  - by rewrite zlen_member_parts.
  - intros p Hp. by apply (member_parts_small sent v).
  - intros j s p Hs Hp. unfold member_parts in Hp. apply list_lookup_fmap_Some_1 in Hp as (s' & -> & Hs').
    rewrite (Hcommon j s s' Hs Hs') in *. apply list_elem_of_lookup_2 in Hs'.
    split_and!; [by apply Hwf|by apply Hwi|done].
Qed.

(** ** Padding *)

(** C39: [MEMORYPACK_UNMANAGED_SCRUBBED] leaks no padding: two structs whose members agree
    are written as the same bytes, whatever their padding holds; every padding byte is
    written as zero; and reading the bytes back gives a struct with the same members. *)
Theorem scrubbed_hides_padding `{Platform} {T} `{ScrubbedLaws T} (v v' : T) o d :
  zlen (rep_bytes sc_rep v) = rep_size (sc_rep (T := T)) → zlen (rep_bytes sc_rep v') = rep_size (sc_rep (T := T)) →
  same_members sc_fields (rep_bytes sc_rep v) (rep_bytes sc_rep v') →
  ∃ bs, emits (Scrubbed_Serialize sc_rep sc_fields v) bs ∧ emits (Scrubbed_Serialize sc_rep sc_fields v') bs ∧
    (∀ i : nat, covered sc_fields (Z.of_nat i) = false → Z.of_nat i < zlen bs → bs !! i = Some 0) ∧
    same_members sc_fields bs (rep_bytes sc_rep v) ∧
    reads o d (ReadUnmanaged sc_rep sc_init) bs (rep_of sc_rep bs).
Proof.
  intros Hv Hv' Hs. pose proof sc_fields_ok as Hf. pose proof sc_size as Hsz.
  exists (scrub sc_rep sc_fields (rep_bytes sc_rep v)).
  pose proof (zlen_scrub sc_rep _ _ Hv Hf) as Hz. split_and!.
  - apply AppendBytes_emits.
  - rewrite (scrub_members sc_rep _ _ _ Hv Hv' Hf Hs). apply AppendBytes_emits.
  - intros i Hc Hi. rewrite Hz in Hi. rewrite scrub_lookup by (done || unfold zlen in *; lia). by rewrite Hc.
  - by apply scrub_same_members.
  - by apply reads_ReadUnmanaged.
Qed.

(** ** Concrete runs *)

Section Witnesses.
#[local] Existing Instance host64.

(** [struct Point { int32_t x; int16_t y; }; MEMORYPACK_DEFINE(Point, x, y)]. *)
Record Point := MkPoint { px : prim Int32; py : prim Int16 }.

#[local] Instance Point_members : Members Point := {
  default_value := MkPoint (Prim 0) (Prim 0);
  members := [Member (V := Point) (prim Int32) px (λ x p, MkPoint x (py p));
              Member (V := Point) (prim Int16) py (λ y p, MkPoint (px p) y)];
}.

#[local] Instance Point_laws : MembersLaws Point := {
  specs := [MemberSpec (Member (V := Point) (prim Int32) px (λ x p, MkPoint x (py p)));
            MemberSpec (Member (V := Point) (prim Int16) py (λ y p, MkPoint (px p) y))];
  specs_members := eq_refl;
  specs_count := ltac:(done);
  specs_rebuild := ltac:(by intros [] []);
}.

Definition origin : Point := MkPoint (Prim 3) (Prim (-1)).

Lemma origin_ok : wf origin ∧ within DefaultOptions 0 origin.
Proof.
  split; [|split; [vm_compute; discriminate|]].
  all: intros s Hs; apply list_elem_of_In in Hs; destruct Hs as [<-|[<-|[]]]; by split.
Qed.

Lemma object_version_tolerance_witness :
  reads DefaultOptions 0 (Define_Deserialize (MkPoint (Prim 7) (Prim 8))) [1; 3; 0; 0; 0] (MkPoint (Prim 3) (Prim 8)).
Proof.
  destruct (object_version_tolerance DefaultOptions 0 1 origin (MkPoint (Prim 7) (Prim 8))) as [Hr _];
    [done|done|apply origin_ok|apply origin_ok|exact Hr].
Defined.

Lemma depth_limited_witness :
  ∃ off r', Define_Deserialize origin (NewReader [2; 3; 0; 0; 0] (MkOptions 100 100 0)) = (Throw LengthLimit off, r').
Proof.
  pose proof (depth_limited (MkOptions 100 100 0) 0 (NewReader [2; 3; 0; 0; 0] (MkOptions 100 100 0)) 2 [3; 0; 0; 0] origin) as D.
  destruct (Define_Deserialize origin _) as [[v|e off|] r'].
  - destruct D as (Hx & _); try done. split; try done. split; try done. bytes_lit.
  - destruct D as (_ & -> & _); try done; [|by eexists _, _]. split; try done. split; try done. bytes_lit.
  - destruct D; try done. split; try done. split; try done. bytes_lit.
Defined.

Lemma version_tolerant_round_trip_witness :
  ∃ w' bs, WriteVersionTolerant (ms_member <$> (specs (V := Point))) origin NewWriter = (Ret tt, w') ∧
    GetSpan w' = GetSpan NewWriter ++ bs.
Proof.
  destruct (version_tolerant_round_trip DefaultOptions 0 specs (take 1 specs) origin origin NewWriter
    (NewReader [] DefaultOptions) []) as (w' & bs & E & G & _).
  - right. by eexists _.
  - vm_compute. discriminate.
  - apply origin_ok.
  - intros s Hs. apply list_elem_of_In in Hs. destruct Hs as [<-|[<-|[]]]; done.
  - done.
  - done.
  - vm_compute. discriminate.
  - apply NewWriter_ok.
  - vm_compute. discriminate.
  - by exists w', bs.
Defined.

(** [struct Hit { uint8_t kind; int32_t damage; };] with three padding bytes, as the
    eight bytes of its object representation. *)
Record Hit := MkHit { raw : list Z }.

#[local] Instance Hit_scrubbed : Scrubbed Hit := {
  sc_rep := {| rep_size := 8; rep_align := 4; rep_bytes := raw; rep_of := MkHit |};
  sc_init := MkHit [0; 0; 0; 0; 0; 0; 0; 0];
  sc_fields := [(0, 1); (4, 4)];
}.

#[local] Instance Hit_laws : ScrubbedLaws Hit.
Proof. split; [done|done|]. by repeat (apply Forall_cons; split; [cbn; lia|]). Qed.

Lemma scrubbed_hides_padding_witness :
  ∃ bs, emits (Scrubbed_Serialize sc_rep sc_fields (MkHit [1; 7; 7; 7; 2; 3; 4; 5])) bs ∧
        emits (Scrubbed_Serialize sc_rep sc_fields (MkHit [1; 8; 9; 0; 2; 3; 4; 5])) bs.
Proof.
  destruct (scrubbed_hides_padding (MkHit [1; 7; 7; 7; 2; 3; 4; 5]) (MkHit [1; 8; 9; 0; 2; 3; 4; 5]) DefaultOptions 0)
    as (bs & H1 & H2 & _); [done|done| |by exists bs].
  intros i Hi. do 8 (destruct i as [|i]; [done|]). done.
Defined.

(** [std::variant<Circle, Label>] with tags 0 and 300. *)
Inductive Shape := Circle (radius : prim Float32) | Label (text : string).

Definition circle_alt : alternative Shape :=
  Alternative (V := Shape) (prim Float32) 0 Circle (λ v, match v with Circle r => Some r | _ => None end).
Definition label_alt : alternative Shape :=
  Alternative (V := Shape) string 300 Label (λ v, match v with Label t => Some t | _ => None end).

#[local] Instance Shape_variant : Variant Shape := {
  first_alternative := Circle (Prim 0);
  alternatives := [circle_alt; label_alt];
}.

#[local] Instance Shape_laws : VariantLaws Shape := {
  alt_specs := [AlternativeSpec circle_alt; AlternativeSpec label_alt];
  alt_specs_alternatives := eq_refl;
  alt_tags := ltac:(by repeat (apply Forall_cons; split; [cbn; lia|]));
  alt_distinct := ltac:(apply (bool_decide_unpack (NoDup [0; 300])); vm_compute; exact I);
  alt_inj_proj := ltac:(intros a v x Ha; apply list_elem_of_In in Ha; destruct Ha as [<-|[<-|[]]]; destruct v; cbn; congruence);
  alt_covered := ltac:(intros [r|t]; [by left|right; by left]);
}.

Lemma union_dispatch_witness :
  variant_Deserialize (Circle (Prim 0)) (NewReader [7; 1; 2] DefaultOptions) =
    (Ret (Circle (Prim 0)), skip 3 (NewReader [7; 1; 2] DefaultOptions)).
Proof.
  destruct (union_dispatch DefaultOptions 0 (Circle (Prim 0)) (Circle (Prim 0))) as (_ & Hno & _); [done|].
  rewrite (Hno _ 7 [1; 2]); [reflexivity|apply NewReader_ready; [bytes_lit|done]|done|done|].
  intros a Ha. apply list_elem_of_In in Ha. by destruct Ha as [<-|[<-|[]]].
Defined.
End Witnesses.
