(* ===== verification/Text.v ===== *)
(** Text the programs print: string literals, [std::to_string] and the error messages of
    the library ([core.hpp]), as the bytes of the narrow execution character set. *)
From stdpp Require Import pretty.
From S2P Require Import Prelude.

Definition literal (s : String.string) : list Z := (λ a, Z.of_N (Ascii.N_of_ascii a)) <$> String.list_ascii_of_string s.

(** [std::to_string] of an integer. *)
Definition to_string (n : Z) : list Z := literal (pretty n).

Definition ToString (e : MemoryPackError) : list Z :=
  literal match e with
  | NoError => "none"
  | BufferUnderflow => "buffer underflow"
  | BufferOverflow => "buffer overflow"
  | InvalidHeader => "invalid header"
  | LengthLimit => "length limit exceeded"
  | InvalidString => "invalid string payload"
  | TrailingBytes => "trailing bytes"
  | NotSupported => "not supported"
  end.

(** The text of a [MemoryPackException]; [what] is [None] for a null pointer. *)
Definition BuildMessage (code : MemoryPackError) (offset : Z) (what : option (list Z)) : list Z :=
  literal "memorypack: " ++ ToString code ++
  match what with
  | Some (c :: text) => literal " (" ++ (c :: text) ++ literal ")"
  | _ => []
  end ++ literal " at offset " ++ to_string offset.

(** [MemoryPackException]. A thrown one is [Throw code offset] in an [outcome]; the text is
    built from the message of the failed operation. *)
Record MemoryPackException := Exception {
  code_ : MemoryPackError;
  offset_ : Z;
  what_text : list Z;
}.

Definition NewException (code : MemoryPackError) (offset : Z) (what : option (list Z)) : MemoryPackException :=
  Exception code offset (BuildMessage code offset what).

Lemma literal_ok s : bytes_ok (literal s).
Proof.
  apply Forall_fmap, Forall_forall. intros a _. unfold compose, byte_ok.
  pose proof (Ascii.N_ascii_bounded a). lia.
Qed.

#[export] Hint Resolve literal_ok : bytes.
