(* ===== verification/Net.v ===== *)
(** What the sample programs use of the operating system: a connected stream socket, the
    system clock and the console; and the loops around [send] and [recv] the samples share.

    The system decides how much of a [send] or [recv] is done and what the clock says:
    those are the parameters of [System], and [SystemLaws] is what POSIX and Winsock
    document. What the peer sends in the whole session is the finite list [incoming]. *)
From S2P Require Import Prelude Endian Writer.

Class System := {
  (** What the [k]-th call of [send] on [n] bytes returns. *)
  send_result : nat → Z → Z;
  (** What the [k]-th call of [recv] into [n] bytes returns while data is left. *)
  recv_result : nat → Z → Z;
  (** Microseconds since the Unix epoch at the [k]-th reading of [system_clock]. *)
  system_clock : nat → Z;
}.

Class SystemLaws `{System} : Prop := {
  send_at_most : ∀ k n, 0 ≤ n → send_result k n ≤ n;
  recv_at_most : ∀ k n, 0 ≤ n → recv_result k n ≤ n;
  clock_range : ∀ k, 0 ≤ system_clock k < 2 ^ 58;
}.

(** A connection that never fails. *)
Definition sends_always `{System} : Prop := ∀ k n, 0 < n → 0 < send_result k n.
Definition receives_always `{System} : Prop := ∀ k n, 0 < n → 0 < recv_result k n.

(** A system for examples: every other [send] takes one byte, [recv] gives seven at a
    time, and the clock advances by a microsecond at each reading. *)
Definition slow_system : System := {|
  send_result := λ k n, if Nat.even k then Z.min 1 n else n;
  recv_result := λ k n, Z.min 7 n;
  system_clock := λ k, Z.of_nat k mod 2 ^ 58;
|}.

Lemma slow_system_laws : SystemLaws (H := slow_system).
Proof.
  split; cbn; intros k; [intros n Hn; destruct (Nat.even k); lia|intros n _; lia|].
  apply Z.mod_pos_bound. lia.
Qed.

(** The system seen from one connection; [L] is the type of the lines the program prints. *)
Record world (L : Type) := World {
  incoming : list Z;
  outgoing : list Z;
  sends : nat;
  recvs : nat;
  clock_reads : nat;
  console : list L;
}.
Arguments World {L}.
Arguments incoming {L}.
Arguments outgoing {L}.
Arguments sends {L}.
Arguments recvs {L}.
Arguments clock_reads {L}.
Arguments console {L}.

(** A connection on which nothing happened yet. *)
Definition connected {L} (bytes : list Z) : world L := World bytes [] 0 0 0 [].

(** Runs an operation on the first or second half of a pair of states. *)
Definition on_fst {S1 S2 A} (m : M S1 A) : M (S1 * S2) A := λ s, let '(o, x) := m s.1 in (o, (x, s.2)).
Definition on_snd {S1 S2 A} (m : M S2 A) : M (S1 * S2) A := λ s, let '(o, x) := m s.2 in (o, (s.1, x)).

Lemma on_fst_ret {S1 S2 A} (m : M S1 A) (x : S1) (y : S2) a x' : m x = (Ret a, x') → on_fst m (x, y) = (Ret a, (x', y)).
Proof. intros E. unfold on_fst. cbn [fst snd]. by rewrite E. Qed.

Section Calls.
Context `{Platform, System} {L : Type}.

Definition Log (line : L) : M (world L) unit := modify (λ w,
  World (incoming w) (outgoing w) (sends w) (recvs w) (clock_reads w) (console w ++ [line])).

(** [send(sock, data + off, n, 0)]; a length the memory behind the pointer does not
    have (a negative [int] is a huge [size_t]) is undefined. *)
Definition send (data : list Z) (off n : Z) : M (world L) Z := λ w,
  if (0 <=? off) && (0 <=? n) && (off + n <=? zlen data) then
    let k := send_result (sends w) n in
    (Ret k, World (incoming w) (outgoing w ++ slice off k data) (S (sends w)) (recvs w) (clock_reads w) (console w))
  else (UB, w).

(** [recv(sock, buf, n, 0)]: the result and the bytes stored; 0 when the peer closed. *)
Definition recv (n : Z) : M (world L) (Z * list Z) := λ w,
  if 0 <=? n then
    let k := if zlen (incoming w) =? 0 then 0 else Z.min (recv_result (recvs w) n) (zlen (incoming w)) in
    (Ret (k, slice 0 k (incoming w)),
     World (drop (Z.to_nat k) (incoming w)) (outgoing w) (sends w) (S (recvs w)) (clock_reads w) (console w))
  else (UB, w).

Definition now : M (world L) Z := λ w,
  (Ret (system_clock (clock_reads w)),
   World (incoming w) (outgoing w) (sends w) (recvs w) (S (clock_reads w)) (console w)).

(** [static_cast<int>(n)] of a [size_t]. *)
Definition to_int (n : Z) : Z := of_unsigned Int32 (to_unsigned 4 n).

(** [while (sent < length) { n = send(...); if (n <= 0) return false; sent += n; }].
    Every round sends at least one byte, so [length] rounds are enough. *)
Fixpoint send_loop (fuel : nat) (data : list Z) (length sent : Z) : M (world L) bool :=
  if sent <? length then
    match fuel with
    | O => undefined
    | S fuel' =>
        n ← send data sent (to_int (size_sub length sent));
        if n <=? 0 then mret false else send_loop fuel' data length (size_add sent n)
    end
  else mret true.

(** The same for [recv]; [buf] holds the [received] bytes stored so far. *)
Fixpoint recv_loop (fuel : nat) (buf : list Z) (len received : Z) : M (world L) (bool * list Z) :=
  if received <? len then
    match fuel with
    | O => undefined
    | S fuel' =>
        r ← recv (to_int (size_sub len received));
        if r.1 <=? 0 then mret (false, buf) else recv_loop fuel' (buf ++ r.2) len (size_add received r.1)
    end
  else mret (true, buf).
End Calls.

(** ** What the loops do *)

Section Facts.
Context `{Platform, System, !SystemLaws} {L : Type}.
Implicit Types w : world L.

(** What sending changes. *)
Definition after_send (part : list Z) (k : nat) w : world L :=
  World (incoming w) (outgoing w ++ part) k (recvs w) (clock_reads w) (console w).

Lemma to_int_small n : 0 ≤ n < 2 ^ 31 → to_int n = n.
Proof.
  intros Hn. apply (arith_ok_unsigned Int32). arith_ranges. lia.
Qed.

(** The loop ends; what went out is a prefix of what was asked for, all of it exactly
    when it returns true, and always all of it on a connection that never fails. *)
Lemma send_loop_spec data fuel : ∀ sent w, 0 ≤ sent ≤ zlen data → zlen data < 2 ^ 31 → (length data - Z.to_nat sent ≤ fuel)%nat →
  ∃ ok part k, send_loop fuel data (zlen data) sent w = (Ret ok, after_send part k w) ∧
    part `prefix_of` drop (Z.to_nat sent) data ∧ (ok = true ↔ part = drop (Z.to_nat sent) data) ∧
    ((∀ k n, 0 < n → 0 < send_result k n) → ok = true).
Proof.
  pose proof size_mod_pos. induction fuel as [|fuel IH]; intros sent w Hs Hl Hf.
  - assert (sent = zlen data) as -> by (unfold zlen in *; lia). cbn [send_loop]. rewrite Z.ltb_irrefl.
    exists true, [], (sends w). rewrite zlen_to_nat, drop_all. split_and!; [|done|done|done].
    unfold after_send. rewrite app_nil_r. by destruct w.
  - cbn [send_loop]. destruct (Z.ltb_spec sent (zlen data)) as [Hlt|Hge].
    2: { exists true, [], (sends w). rewrite drop_ge by (unfold zlen in *; lia). split_and!; [|done|done|done].
         unfold after_send. rewrite app_nil_r. by destruct w. }
    rewrite size_sub_small, to_int_small by lia. set (n := zlen data - sent).
    unfold mbind, M_bind, send. destruct (Z.leb_spec 0 sent), (Z.leb_spec 0 n), (Z.leb_spec (sent + n) (zlen data)); try lia.
    cbn [andb]. pose proof (send_at_most (sends w) n ltac:(lia)) as Hm. destruct (Z.leb_spec (send_result (sends w) n) 0) as [Hz|Hp].
    + exists false, [], (S (sends w)). unfold slice at 1. replace (Z.to_nat (send_result (sends w) n)) with 0%nat by lia.
      split_and!; [done|apply prefix_nil| |intros Hall; specialize (Hall (sends w) n ltac:(lia)); lia].
      split; [done|]. intros E. apply (f_equal length) in E. rewrite length_drop in E. unfold zlen in *. cbn in E. lia.
    + set (k := send_result (sends w) n) in *. rewrite size_add_small by lia.
      set (w1 := World _ _ _ _ _ _). destruct (IH (sent + k) w1) as (ok & part & k' & E & Hpre & Hiff & Hall);
        [lia|lia|unfold zlen in *; lia|].
      assert (Hsp : drop (Z.to_nat sent) data = slice sent k data ++ drop (Z.to_nat (sent + k)) data).
      { unfold slice. rewrite Z2Nat.inj_add, <-drop_drop by lia. by rewrite take_drop. }
      exists ok, (slice sent k data ++ part), k'. rewrite E, Hsp. split_and!; [|by apply prefix_app| |done].
      * unfold after_send, w1. cbn. by rewrite app_assoc.
      * rewrite Hiff. split; [by intros ->|apply app_inv_head].
Qed.

(** What receiving [n] bytes leaves. *)
Definition after_recv (n : nat) (k : nat) w : world L :=
  World (drop n (incoming w)) (outgoing w) (sends w) k (clock_reads w) (console w).

(** [recv] takes a part of what is there. *)
Lemma recv_spec n w : 0 ≤ n → ∃ k, recv n w = (Ret (k, take (Z.to_nat k) (incoming w)), after_recv (Z.to_nat k) (S (recvs w)) w) ∧
  k ≤ n ∧ k ≤ zlen (incoming w) ∧ ((∀ i m, 0 < m → 0 < recv_result i m) → 0 < n → incoming w ≠ [] → 0 < k).
Proof.
  intros Hn. unfold recv. destruct (Z.leb_spec 0 n); [|lia]. pose proof (recv_at_most (recvs w) n Hn). zlen_pos.
  eexists. split; [reflexivity|]. destruct (Z.eqb_spec (zlen (incoming w)) 0) as [E|E].
  - split; [done|]. split; [lia|]. intros _ _ Hne. by apply zlen_0_nil in E.
  - split; [lia|]. split; [lia|]. intros Hall Hpos _. specialize (Hall (recvs w) n Hpos). lia.
Qed.

(** The loop ends: true with exactly the bytes asked for, taken off the front of the
    stream, or false; always true on a connection that never fails and has the bytes. *)
Lemma recv_loop_spec len fuel : ∀ buf w, zlen buf ≤ len → len < 2 ^ 31 → (Z.to_nat len - length buf ≤ fuel)%nat →
  ∃ ok buf' n k, recv_loop fuel buf len (zlen buf) w = (Ret (ok, buf'), after_recv n k w) ∧
    buf' = buf ++ take n (incoming w) ∧ (n ≤ length (incoming w))%nat ∧ (ok = true → zlen buf' = len) ∧ zlen buf' ≤ len ∧
    ((∀ i m, 0 < m → 0 < recv_result i m) → len ≤ zlen buf + zlen (incoming w) → ok = true).
Proof.
  pose proof size_mod_pos. assert (Hdone : ∀ buf w ok, zlen buf ≤ len → (ok = true → zlen buf = len) →
    ∃ buf' n k, (Ret (ok, buf), w) = (Ret (ok, buf'), after_recv n k w) ∧
      buf' = buf ++ take n (incoming w) ∧ (n ≤ length (incoming w))%nat ∧ (ok = true → zlen buf' = len) ∧ zlen buf' ≤ len).
  { intros buf w ok Hle Hok. exists buf, 0%nat, (recvs w). rewrite take_0, app_nil_r. split_and!; [by destruct w|done|lia|done|done]. }
  induction fuel as [|fuel IH]; intros buf w Hb Hl Hf.
  - cbn [recv_loop]. destruct (Z.ltb_spec (zlen buf) len) as [?|?]; [unfold zlen in *; lia|].
    destruct (Hdone buf w true ltac:(lia) ltac:(lia)) as (buf' & n & k & E & Hr). exists true, buf', n, k. tauto.
  - cbn [recv_loop]. destruct (Z.ltb_spec (zlen buf) len) as [Hlt|Hge].
    2: { destruct (Hdone buf w true ltac:(lia) ltac:(lia)) as (buf' & n & k & E & Hr). exists true, buf', n, k. tauto. }
    zlen_pos. rewrite size_sub_small, to_int_small by lia. unfold mbind, M_bind.
    destruct (recv_spec (len - zlen buf) w ltac:(lia)) as (k & -> & Hk1 & Hk2 & Hk3). cbn [fst snd].
    destruct (Z.leb_spec k 0) as [Hz|Hp].
    + exists false, buf, (Z.to_nat k), (S (recvs w)). replace (Z.to_nat k) with 0%nat by lia. rewrite take_0, app_nil_r.
      split_and!; [done|done|lia|done|lia|]. intros Hall Hroom. specialize (Hk3 Hall ltac:(lia)).
      assert (incoming w ≠ []) by (intros E; rewrite E, zlen_nil in Hroom; lia). specialize (Hk3 ltac:(done)). lia.
    + assert (Hzt : zlen (take (Z.to_nat k) (incoming w)) = k) by (unfold zlen in *; rewrite length_take; lia).
      rewrite size_add_small by lia. set (buf1 := buf ++ _). replace (zlen buf + k) with (zlen buf1) by (unfold buf1; zlia).
      destruct (IH buf1 (after_recv (Z.to_nat k) (S (recvs w)) w)) as (ok & buf' & n & k' & -> & Hbuf & Hn & Hok & Hle & Hall);
        [unfold buf1; zlia|lia|unfold zlen, buf1 in *; rewrite length_app, length_take; lia|].
      cbn [incoming after_recv] in *. rewrite length_drop in Hn. unfold zlen in Hk2.
      exists ok, buf', (Z.to_nat k + n)%nat, k'. split_and!; [|unfold buf1 in Hbuf|lia|done|done|].
      * unfold after_recv. cbn. by rewrite drop_drop.
      * by rewrite Hbuf, <-app_assoc, take_take_drop.
      * intros Hr Hroom. apply Hall; [done|]. unfold buf1, zlen in *. rewrite length_app, length_take, length_drop. lia.
Qed.
End Facts.
