(* ===== verification/Sockets.v ===== *)
(** How the sample programs open and close their sockets: the calls a program makes to the
    operating system, in order, and the C library's [strtol].

    The state of a program is the trace of its calls with what the system answered; each
    answer is a parameter that may depend on the whole trace. Which sockets are open is a
    function of the trace. A call on a handle that is not open reaches whatever the system
    gave that number to in the meantime, so it counts as undefined behaviour. *)
From stdpp Require Import strings.
From S2P Require Import Prelude Endian Text.

(** What [accept] tells of the peer: its address and its port. *)
Record peer := Peer { peer_ip : Z; peer_port : Z }.

Inductive call :=
  | CStartup (result : Z)
  | CCleanup
  | CSocket (result : option Z)
  | CReuseAddress (s : Z)
  | CBind (s port result : Z)
  | CListen (s result : Z)
  | CConnect (s : Z) (host : list Z) (port result : Z)
  | CAccept (s : Z) (result : option (Z * peer))
  | CShutdown (s : Z)
  | CClose (s : Z)
  | COut (text : list Z)
  | CErr (text : list Z).

Abbreviation trace := (list call).

(** The open sockets, the newest first. *)
Definition open_step (opened : list Z) (c : call) : list Z :=
  match c with
  | CSocket (Some s) => s :: opened
  | CAccept _ (Some (s, _)) => s :: opened
  | CClose s => filter (.≠ s) opened
  | _ => opened
  end.

Definition open_sockets (t : trace) : list Z := foldl open_step [] t.

(** How often Winsock was started and not cleaned up. *)
Definition winsock_step (n : Z) (c : call) : Z :=
  match c with
  | CStartup r => if r =? 0 then n + 1 else n
  | CCleanup => n - 1
  | _ => n
  end.

Definition winsock_uses (t : trace) : Z := foldl winsock_step 0 t.

(** What a program wrote to [std::cout] and to [std::cerr]. *)
Definition printed (t : trace) : list Z := t ≫= λ c, if c is COut text then text else [].
Definition errors (t : trace) : list Z := t ≫= λ c, if c is CErr text then text else [].

(** The system's answers. [socket] and [accept] answer no handle for [INVALID_SOCKET];
    [inet_pton] is whether it returns 1. *)
Class SocketSystem := {
  on_windows : bool;
  startup_result : trace → Z;
  socket_result : trace → option Z;
  bind_result : trace → Z → Z → Z;
  listen_result : trace → Z → Z;
  connect_result : trace → Z → list Z → Z → Z;
  accept_result : trace → Z → option (Z * peer);
  inet_pton : list Z → bool;
  inet_ntop : Z → list Z;
}.

(** A new socket is not one that is open. *)
Class SocketLaws `{SocketSystem} : Prop := {
  socket_fresh : ∀ t s, socket_result t = Some s → s ∉ open_sockets t;
  accept_fresh : ∀ t l s p, accept_result t l = Some (s, p) → s ∉ open_sockets t;
}.

(** ** The calls *)

Section Calls.
Context `{SocketSystem}.

Abbreviation T := (M trace).

Definition record_call (c : call) : T unit := modify (λ t, t ++ [c]).

(** A call with an open socket. *)
Definition with_socket {A} (s : Z) (m : T A) : T A := λ t,
  if bool_decide (s ∈ open_sockets t) then m t else (UB, t).

(** A call and its answer. *)
Definition answered {A} (answer : trace → A) (c : A → call) : T A :=
  r ← gets answer; record_call (c r) ;; mret r.

Definition WSAStartup : T Z := answered startup_result CStartup.
Definition WSACleanup : T unit := record_call CCleanup.
Definition socket : T (option Z) := answered socket_result CSocket.
Definition setsockopt (s : Z) : T unit := with_socket s (record_call (CReuseAddress s)).
Definition bind (s port : Z) : T Z := with_socket s (answered (λ t, bind_result t s port) (CBind s port)).
Definition listen (s : Z) : T Z := with_socket s (answered (λ t, listen_result t s) (CListen s)).
Definition connect (s : Z) (host : list Z) (port : Z) : T Z :=
  with_socket s (answered (λ t, connect_result t s host port) (CConnect s host port)).
Definition accept (s : Z) : T (option (Z * peer)) := with_socket s (answered (λ t, accept_result t s) (CAccept s)).
Definition shutdown (s : Z) : T unit := with_socket s (record_call (CShutdown s)).
Definition CLOSE_SOCKET (s : Z) : T unit := with_socket s (record_call (CClose s)).

(** [std::cout << text] and [std::cerr << text]. *)
Definition cout (text : list Z) : T unit := record_call (COut text).
Definition cerr (text : list Z) : T unit := record_call (CErr text).

(** [std::cout << line << '\n'], under the console's mutex. *)
Definition print_line (line : list Z) : T unit := cout (line ++ [10]).

(** [#ifdef _WIN32]: start Winsock, [false] after an error message when that fails. *)
Definition start_winsock : T bool :=
  if on_windows then
    r ← WSAStartup;
    if negb (r =? 0) then cerr (literal "WSAStartup failed" ++ [10]) ;; mret false else mret true
  else mret true.

Definition clean_winsock : T unit := if on_windows then WSACleanup else mret tt.
End Calls.

(** ** [strtol] *)

Definition is_space (c : Z) : bool := (c =? 32) || ((9 <=? c) && (c <=? 13)).

Fixpoint skip_space (s : list Z) : list Z :=
  match s with
  | c :: s' => if is_space c then skip_space s' else s
  | [] => []
  end.

Definition is_digit (c : Z) : bool := (48 <=? c) && (c <=? 57).

Fixpoint read_digits (n : Z) (s : list Z) : Z :=
  match s with
  | c :: s' => if is_digit c then read_digits (10 * n + (c - 48)) s' else n
  | [] => n
  end.

(** [long] has 32 bits on Windows and where [size_t] has. *)
Definition long_max `{Platform, SocketSystem} : Z := if on_windows || size_t_is_32 then 2 ^ 31 - 1 else 2 ^ 63 - 1.

(** [std::strtol(s, nullptr, 10)]: 0 without digits, the nearest [long] out of range. *)
Definition strtol `{Platform, SocketSystem} (s : list Z) : Z :=
  let value :=
    match skip_space s with
    | 45 :: s' => - read_digits 0 s'
    | 43 :: s' => read_digits 0 s'
    | s' => read_digits 0 s'
    end in
  Z.max (- long_max - 1) (Z.min long_max value).

(** ** Facts *)

Section Facts.
Context `{SocketSystem, !SocketLaws}.

Lemma open_sockets_app t t' : open_sockets (t ++ t') = foldl open_step (open_sockets t) t'.
Proof. apply foldl_app. Qed.

Lemma winsock_uses_app t t' : winsock_uses (t ++ t') = foldl winsock_step (winsock_uses t) t'.
Proof. apply foldl_app. Qed.

Lemma filter_absent (s : Z) (l : list Z) : s ∉ l → filter (.≠ s) l = l.
Proof.
  induction l as [|x l IH]; intros Hs; [done|]. apply not_elem_of_cons in Hs as [Hx Hl].
  rewrite filter_cons_True by congruence. by rewrite IH.
Qed.

Lemma open_close (s : Z) (l : list Z) : s ∉ l → filter (.≠ s) (s :: l) = l.
Proof. intros Hs. rewrite filter_cons_False by tauto. by apply filter_absent. Qed.

Lemma printed_app t t' : printed (t ++ t') = printed t ++ printed t'.
Proof. apply bind_app. Qed.

Lemma errors_app t t' : errors (t ++ t') = errors t ++ errors t'.
Proof. apply bind_app. Qed.

Lemma close_perm (s : Z) (l l' : list Z) : NoDup l → l ≡ₚ s :: l' → filter (.≠ s) l ≡ₚ l'.
Proof.
  intros Hn Hp. rewrite Hp in Hn |- *. apply NoDup_cons in Hn as [Hs _]. by rewrite open_close.
Qed.

Lemma with_socket_open {A} s (m : M trace A) t : s ∈ open_sockets t → with_socket s m t = m t.
Proof. intros Hs. unfold with_socket. by rewrite bool_decide_eq_true_2. Qed.

(** Winsock is started when [start_winsock] says so. *)
Lemma start_winsock_spec : ∃ b t, start_winsock [] = (Ret b, t) ∧ open_sockets t = [] ∧ printed t = [] ∧
  if b : bool then errors t = [] ∧ winsock_uses t = (if on_windows then 1 else 0) else errors t ≠ [] ∧ winsock_uses t = 0.
Proof.
  unfold start_winsock. destruct on_windows; [|by eexists _, _]. erewrite bind_ret by reflexivity.
  destruct (startup_result [] =? 0) eqn:E; cbn [negb]; eexists _, _; (split; [reflexivity|]); cbn; by rewrite E.
Qed.
End Facts.

(** ** A system for examples *)

(** A system that gives the smallest number above every open socket, whose calls succeed
    but perhaps [bind], and on which one client comes. *)
Definition new_handle (t : trace) : Z := 1 + foldr Z.max 2 (open_sockets t).

Lemma new_handle_fresh t : new_handle t ∉ open_sockets t.
Proof.
  unfold new_handle. assert (∀ x (l : list Z), x ∈ l → x ≤ foldr Z.max 2 l) as Hm.
  { intros x l Hx. induction Hx as [x l|x y l _ IH]; cbn; lia. }
  intros Hin. specialize (Hm _ _ Hin). lia.
Qed.

Definition local_peer : peer := Peer 0x7F000001 50000.

Definition quiet_system (windows : bool) (bind_answer : Z) : SocketSystem := {|
  on_windows := windows;
  startup_result _ := 0;
  socket_result t := Some (new_handle t);
  bind_result _ _ _ := bind_answer;
  listen_result _ _ := 0;
  connect_result _ _ _ _ := 0;
  accept_result t _ := if existsb (λ c, if c is CAccept _ _ then true else false) t then None else Some (new_handle t, local_peer);
  inet_pton _ := true;
  inet_ntop _ := literal "127.0.0.1" |}.

Lemma quiet_laws windows b : SocketLaws (H := quiet_system windows b).
Proof.
  split; intros t; [intros s [= <-]; apply new_handle_fresh|]. cbn. intros l s p. destruct (existsb _ t); [done|].
  intros [= <- <-]. apply new_handle_fresh.
Qed.

(** Makes the next call of a program, which is with an open socket if with any. *)
Ltac socket_open := rewrite ?open_sockets_app; cbn [foldl open_step]; match goal with Ho : open_sockets _ = _ |- _ => rewrite Ho end; left.
Ltac next_call := erewrite bind_ret; [|first [reflexivity|by (etrans; [apply with_socket_open; socket_open|reflexivity])]].
Ltac calls_made := eexists; split; [by rewrite <-!app_assoc|]; rewrite ?open_sockets_app; cbn [foldl open_step].
