(* ===== verification/CppServer.v ===== *)
(** The sample server ([samples/CppServer]): its protocol ([packets.hpp]) and, from
    [main.cpp], the class [Connection] that serves one client: receive loop, decoding,
    the three request handlers, and the send path.

    The state of a connection is the parser (which [Feed] passes beside the rest), the
    other members of [Connection], and the system as the connection sees it. *)

From stdpp Require Import strings.
From Stdlib Require Import Floats.SpecFloat.
From S2P Require Import Prelude Endian Writer Reader Headers Utf Strings Formatter Collections Objects Unmanaged Decoded DotNet Api Packet Text Net.

(** ** The protocol ([packets.hpp]) *)

Inductive PacketId := EchoRequestId | EchoResponseId | SumRequestId | SumResponseId | SpawnRequestId | SpawnResponseId.

(** [static_cast<uint16_t>(id)]. *)
Definition packet_id (p : PacketId) : Z :=
  match p with
  | EchoRequestId => 201
  | EchoResponseId => 202
  | SumRequestId => 203
  | SumResponseId => 204
  | SpawnRequestId => 205
  | SpawnResponseId => 206
  end.

Record EchoRequest := MkEchoRequest { erq_seq : prim Int32; erq_text : string }.
Record EchoResponse := MkEchoResponse { ers_seq : prim Int32; ers_text : string; ers_serverTimeTicks : prim Int64 }.
Record SumRequest := MkSumRequest { sum_values : vector (prim Int32) }.
Record SumResponse := MkSumResponse { sum_total : prim Int64 }.
Record Entity := MkEntity { ent_id : prim Int32; ent_position : Vector3; ent_name : string }.
Record SpawnRequest := MkSpawnRequest { spawn_count : prim Int32 }.
Record SpawnResponse := MkSpawnResponse { spawn_entities : vector Entity }.

Section Protocol.
Context `{Platform}.

Definition erq_seq_m : member EchoRequest := Member (prim Int32) erq_seq (λ x v, MkEchoRequest x (erq_text v)).
Definition erq_text_m : member EchoRequest := Member string erq_text (λ x v, MkEchoRequest (erq_seq v) x).

#[global] Instance EchoRequest_members : Members EchoRequest := {
  default_value := MkEchoRequest (Prim 0) (Str []);
  members := [erq_seq_m; erq_text_m];
}.

Definition ers_seq_m : member EchoResponse :=
  Member (prim Int32) ers_seq (λ x v, MkEchoResponse x (ers_text v) (ers_serverTimeTicks v)).
Definition ers_text_m : member EchoResponse :=
  Member string ers_text (λ x v, MkEchoResponse (ers_seq v) x (ers_serverTimeTicks v)).
Definition ers_ticks_m : member EchoResponse :=
  Member (prim Int64) ers_serverTimeTicks (λ x v, MkEchoResponse (ers_seq v) (ers_text v) x).

#[global] Instance EchoResponse_members : Members EchoResponse := {
  default_value := MkEchoResponse (Prim 0) (Str []) (Prim 0);
  members := [ers_seq_m; ers_text_m; ers_ticks_m];
}.

Definition sum_values_m : member SumRequest := Member (vector (prim Int32)) sum_values (λ x _, MkSumRequest x).

#[global] Instance SumRequest_members : Members SumRequest := {
  default_value := MkSumRequest (Vector []);
  members := [sum_values_m];
}.

Definition sum_total_m : member SumResponse := Member (prim Int64) sum_total (λ x _, MkSumResponse x).

#[global] Instance SumResponse_members : Members SumResponse := {
  default_value := MkSumResponse (Prim 0);
  members := [sum_total_m];
}.

Definition ent_id_m : member Entity := Member (prim Int32) ent_id (λ x v, MkEntity x (ent_position v) (ent_name v)).
Definition ent_position_m : member Entity := Member Vector3 ent_position (λ x v, MkEntity (ent_id v) x (ent_name v)).
Definition ent_name_m : member Entity := Member string ent_name (λ x v, MkEntity (ent_id v) (ent_position v) x).

#[global] Instance Entity_members : Members Entity := {
  default_value := MkEntity (Prim 0) (MkVector3 0 0 0) (Str []);
  members := [ent_id_m; ent_position_m; ent_name_m];
}.

Definition spawn_count_m : member SpawnRequest := Member (prim Int32) spawn_count (λ x _, MkSpawnRequest x).

#[global] Instance SpawnRequest_members : Members SpawnRequest := {
  default_value := MkSpawnRequest (Prim 0);
  members := [spawn_count_m];
}.

Definition spawn_entities_m : member SpawnResponse := Member (vector Entity) spawn_entities (λ x _, MkSpawnResponse x).

#[global] Instance SpawnResponse_members : Members SpawnResponse := {
  default_value := MkSpawnResponse (Vector []);
  members := [spawn_entities_m];
}.
End Protocol.

Section ProtocolLaws.
Context `{Platform}.

#[global] Instance EchoRequest_laws : MembersLaws EchoRequest := {
  specs := [MemberSpec erq_seq_m; MemberSpec erq_text_m];
  specs_members := eq_refl; specs_count := ltac:(done); specs_rebuild := ltac:(by intros [] []);
}.
#[global] Instance EchoResponse_laws : MembersLaws EchoResponse := {
  specs := [MemberSpec ers_seq_m; MemberSpec ers_text_m; MemberSpec ers_ticks_m];
  specs_members := eq_refl; specs_count := ltac:(done); specs_rebuild := ltac:(by intros [] []);
}.
#[global] Instance SumRequest_laws : MembersLaws SumRequest := {
  specs := [MemberSpec sum_values_m];
  specs_members := eq_refl; specs_count := ltac:(done); specs_rebuild := ltac:(by intros [] []);
}.
#[global] Instance SumResponse_laws : MembersLaws SumResponse := {
  specs := [MemberSpec sum_total_m];
  specs_members := eq_refl; specs_count := ltac:(done); specs_rebuild := ltac:(by intros [] []);
}.
#[global] Instance Entity_laws : MembersLaws Entity := {
  specs := [MemberSpec ent_id_m; MemberSpec ent_position_m; MemberSpec ent_name_m];
  specs_members := eq_refl; specs_count := ltac:(done); specs_rebuild := ltac:(by intros [] []);
}.
#[global] Instance SpawnRequest_laws : MembersLaws SpawnRequest := {
  specs := [MemberSpec spawn_count_m];
  specs_members := eq_refl; specs_count := ltac:(done); specs_rebuild := ltac:(by intros [] []);
}.
#[global] Instance SpawnResponse_laws : MembersLaws SpawnResponse := {
  specs := [MemberSpec spawn_entities_m];
  specs_members := eq_refl; specs_count := ltac:(done); specs_rebuild := ltac:(by intros [] []);
}.
End ProtocolLaws.

(** ** Constants and small helpers ([main.cpp]) *)

Definition DEFAULT_PORT : Z := 25003.
Definition MAX_BODY_LENGTH : Z := 64 * 1024.
Definition MAX_SUM_VALUES : Z := 4096.
Definition MAX_SPAWN_COUNT : Z := 64.

Definition MakeReaderLimits : ReaderOptions :=
  {| maxCollectionLength := 4096; maxStringLength := 4096; maxDepth := 8 |}.

(** The character class is ASCII only: [char]s from 0x80 on are negative. *)
Definition to_upper (c : Z) : Z := if (97 <=? c) && (c <=? 122) then c - 97 + 65 else c.
Definition ToUpperAscii (text : list Z) : list Z := to_upper <$> text.

(** [float] arithmetic, rounding to nearest even, and the bit pattern of a [float]. *)
Definition float_of_int (i : Z) : spec_float := binary_normalize 24 128 i 0 false.
Definition float_mul : spec_float → spec_float → spec_float := SFmul 24 128.
Definition float_bits (f : spec_float) : Z :=
  let sign (s : bool) := if s then 2 ^ 31 else 0 in
  match f with
  | S754_zero s => sign s
  | S754_infinity s => sign s + 0x7F800000
  | S754_nan => 0x7FC00000
  | S754_finite s m e =>
      if Z.pos m <? 2 ^ 23 then sign s + Z.pos m else sign s + (e + 150) * 2 ^ 23 + (Z.pos m - 2 ^ 23)
  end.

(** The literals [1.5f], [2.5f] and [-0.5f]. *)
Definition float_1_5 : spec_float := S754_finite false 12582912 (-23).
Definition float_2_5 : spec_float := S754_finite false 10485760 (-22).
Definition float_m0_5 : spec_float := S754_finite true 8388608 (-24).

(** The body of the loop in [HandleSpawn]. *)
Definition spawn_entity (i : Z) : Entity :=
  let f := float_of_int i in
  MkEntity (Prim (1000 + i))
    (MkVector3 (float_bits (float_mul f float_1_5)) (float_bits (float_mul f float_2_5)) (float_bits (float_mul f float_m0_5)))
    (Str (literal "Entity_" ++ to_string i)).

(** The lines a connection prints, with their arguments. *)
Inductive log_line :=
  | LogConnected
  | LogDisconnected
  | LogFrameLimit
  | LogMalformedBody
  | LogDecodeFailed (e : MemoryPackError)
  | LogUnexpectedId (id : Z)
  | LogRecvEcho (seq : Z) (text : list Z)
  | LogSendEcho (seq : Z) (text : list Z) (ticks : Z)
  | LogTooManyValues (n : Z)
  | LogRecvSum (n : Z)
  | LogSendSum (total : Z)
  | LogRecvSpawn (requested count : Z)
  | LogEntity (e : Entity)
  | LogSendSpawn (n : Z)
  | LogSerializationFailed (e : MemoryPackError).

(** ** [Connection] *)

(** The members apart from the socket and [parser_]. [writer_] appends to
    [sendBuffer_], which is the content of its [vec_]. *)
Record Connection := MkConnection {
  id_ : Z;
  limits_ : ReaderOptions;
  writer_ : MemoryPackWriter;
  alive_ : bool;
}.

Definition set_writer (w : MemoryPackWriter) (c : Connection) : Connection := MkConnection (id_ c) (limits_ c) w (alive_ c).
Definition set_alive (b : bool) (c : Connection) : Connection := MkConnection (id_ c) (limits_ c) (writer_ c) b.

(** A line is printed with the id of its connection. *)
Abbreviation system := (world (Z * log_line)).
Abbreviation C := (M (Connection * system)).

Section Operations.
Context `{Platform, System}.

(** The constructor; [Reserve] only sets the capacity of [sendBuffer_]. *)
Definition NewConnection (id : Z) : Connection :=
  MkConnection id MakeReaderLimits (Reserve 4096 (WriterOfVector [])).2 true.

Definition LogC (line : log_line) : C unit := i ← gets (λ s, id_ s.1); on_snd (Log (i, line)).

(** *** Send side *)

Definition SendAll (data : list Z) (length : Z) : C bool := on_snd (send_loop (Z.to_nat length) data length 0).

(** Runs an operation of [writer_]. *)
Definition on_writer {A} (m : W A) : C A := λ s,
  let '(o, w) := m (writer_ s.1) in (o, (set_writer w s.1, s.2)).

(** [sendBuffer_]. *)
Definition sendBuffer_ (c : Connection) : list Z := default [] (vec_ (writer_ c)).

Definition SendPacket {T} `{MemoryPackFormatter T} (id : PacketId) (body : T) : C bool :=
  on_writer Clear ;;
  on_writer (modify (λ w, set_vec (vector_resize 0 HeaderSize_ <$> vec_ w) w)) ;;
  on_writer (Write body) ;;
  failed ← gets (λ s, w_Failed (writer_ s.1));
  if failed : bool then
    e ← gets (λ s, w_error_ (writer_ s.1));
    LogC (LogSerializationFailed e) ;;
    mret false
  else
    buffer ← gets (λ s, sendBuffer_ s.1);
    let bodyLength := to_int (size_sub (zlen buffer) HeaderSize_) in
    on_writer (modify (set_vec (Some (overwrite 0 (Policy_Write (packet_id id) bodyLength) buffer)))) ;;
    buffer ← gets (λ s, sendBuffer_ s.1);
    SendAll buffer (zlen buffer).

(** *** Receive side *)

(** [DecodeBody(body, out)] on a default-constructed [out]. *)
Definition DecodeBody (T : Type) `{MemoryPackFormatter T} (body : list Z) : C (option T) :=
  limits ← gets (λ s, limits_ s.1);
  match ReadInto value_init (NewReader body limits) with
  | (UB, _) => undefined
  | (Throw _ _, _) => LogC LogMalformedBody ;; mret None
  | (Ret out, reader) =>
      if Failed reader then LogC (LogDecodeFailed (error_ reader)) ;; mret None
      else mret (Some out)
  end.

(** [TICKS_AT_UNIX_EPOCH + micros * 10] in [int64_t]. *)
Definition UtcNowTicks : C Z :=
  micros ← on_snd now;
  match (p ← int64 (micros * 10); int64 (TICKS_AT_UNIX_EPOCH + p)) with
  | Some t => mret t
  | None => undefined
  end.

Definition HandleEcho (body : list Z) : C bool :=
  request ← DecodeBody EchoRequest body;
  match request with
  | None => mret false
  | Some request =>
      LogC (LogRecvEcho (pval (erq_seq request)) (bytes_of (erq_text request))) ;;
      let text := ToUpperAscii (bytes_of (erq_text request)) in
      ticks ← UtcNowTicks;
      LogC (LogSendEcho (pval (erq_seq request)) text ticks) ;;
      SendPacket EchoResponseId (MkEchoResponse (erq_seq request) (Str text) (Prim ticks))
  end.

(** [for (int32_t value : request.values) total += value;] in [int64_t]. *)
Fixpoint sum_loop (values : list (prim Int32)) (total : Z) : C Z :=
  match values with
  | [] => mret total
  | value :: values' =>
      match int64 (total + pval value) with
      | Some total' => sum_loop values' total'
      | None => undefined
      end
  end.

Definition HandleSum (body : list Z) : C bool :=
  request ← DecodeBody SumRequest body;
  match request with
  | None => mret false
  | Some request =>
      let values := elements (sum_values request) in
      if zlen values >? MAX_SUM_VALUES then LogC (LogTooManyValues (zlen values)) ;; mret false
      else
        total ← sum_loop values 0;
        LogC (LogRecvSum (zlen values)) ;;
        LogC (LogSendSum total) ;;
        SendPacket SumResponseId (MkSumResponse (Prim total))
  end.

Definition clamp_count (count : Z) : Z :=
  let count := if count <? 0 then 0 else count in
  if count >? MAX_SPAWN_COUNT then MAX_SPAWN_COUNT else count.

Definition HandleSpawn (body : list Z) : C bool :=
  request ← DecodeBody SpawnRequest body;
  match request with
  | None => mret false
  | Some request =>
      let count := clamp_count (pval (spawn_count request)) in
      let entities := (λ i : nat, spawn_entity (Z.of_nat i)) <$> seq 0 (Z.to_nat count) in
      LogC (LogRecvSpawn (pval (spawn_count request)) count) ;;
      mapM_ (λ entity, LogC (LogEntity entity)) entities ;;
      LogC (LogSendSpawn (zlen entities)) ;;
      SendPacket SpawnResponseId (MkSpawnResponse (Vector entities))
  end.

(** The [switch]; the response ids share the default case. *)
Definition HandlePacket (rawId : Z) (body : list Z) : C bool :=
  if rawId =? packet_id EchoRequestId then HandleEcho body
  else if rawId =? packet_id SumRequestId then HandleSum body
  else if rawId =? packet_id SpawnRequestId then HandleSpawn body
  else LogC (LogUnexpectedId rawId) ;; mret false.

(** The callback: [if (alive_ && !HandlePacket(id, body)) alive_ = false;]. *)
Definition on_packet (id : Z) (body : list Z) : C unit :=
  alive ← gets (λ s, alive_ s.1);
  if alive : bool then
    handled ← HandlePacket id body;
    if handled : bool then mret tt else modify (λ s, (set_alive false s.1, s.2))
  else mret tt.

(** The loop of [Run]. Every round takes at least one byte off what the peer sends. *)
Fixpoint run_loop (fuel : nat) : M (PacketFrameParser * (Connection * system)) unit :=
  alive ← gets (λ s, alive_ s.2.1);
  if alive : bool then
    match fuel with
    | O => undefined
    | S fuel' =>
        r ← on_snd (on_snd (recv 4096));
        if r.1 <=? 0 then mret tt else
        ok ← Feed r.2 on_packet;
        if ok : bool then run_loop fuel' else on_snd (LogC LogFrameLimit)
    end
  else mret tt.

Definition Run : M (PacketFrameParser * (Connection * system)) unit :=
  on_snd (LogC LogConnected) ;;
  n ← gets (λ s, length (incoming s.2.2));
  run_loop (S n) ;;
  on_snd (LogC LogDisconnected).

(** The body of a client's thread. *)
Definition serve_client (id : Z) (s : system) : outcome unit * (PacketFrameParser * (Connection * system)) :=
  Run (NewParser MAX_BODY_LENGTH, (NewConnection id, s)).
End Operations.

(** [main]: the port named on the command line, as [strtol] read it. *)
Definition chosen_port (parsed : option Z) : option Z :=
  match parsed with
  | None => Some DEFAULT_PORT
  | Some parsed => if (parsed <=? 0) || (parsed >? 65535) then None else Some (to_unsigned 2 parsed)
  end.

(** A session in which the peer sends "ab" with number 7 in two pieces, then asks for
    the sum of 2^31-1 and 1, then uses an id it must not use. *)
Section Example.
#[local] Existing Instance host64.
#[local] Existing Instance slow_system.

Definition sample_session : list Z :=
  [201; 0; 15; 0; 0; 0; 2; 7; 0; 0; 0; 253; 255; 255; 255; 2; 0; 0; 0; 97; 98] ++
  [203; 0; 13; 0; 0; 0; 1; 2; 0; 0; 0; 255; 255; 255; 127; 1; 0; 0; 0] ++
  [202; 0; 0; 0; 0; 0].

Example session_output : outgoing (serve_client 1 (connected sample_session)).2.2.2 =
  [202; 0; 23; 0; 0; 0; 3; 7; 0; 0; 0; 253; 255; 255; 255; 2; 0; 0; 0; 65; 66; 0; 128; 181; 247; 245; 127; 159; 8] ++
  [204; 0; 9; 0; 0; 0; 1; 0; 0; 0; 128; 0; 0; 0; 0].
Proof. vm_compute. reflexivity. Qed.
End Example.
