(* ===== verification/ServerTheorems.v ===== *)
(** What the sample server does with whatever a client sends: a specification of its
    replies to the packets of a byte stream, and the proof that [Connection] meets it. *)
From S2P Require Import Prelude Endian Writer Reader Headers Utf Strings Formatter Collections Objects Unmanaged Decoded DotNet Api Packet Net CppServer.

(** ** Specification *)

(** The value a body decodes to under [limits], if it decodes. *)
Definition decode_body `{Platform} (T : Type) `{MemoryPackFormatter T} (limits : ReaderOptions) (body : list Z) : option T :=
  match ReadInto value_init (NewReader body limits) with
  | (Ret v, r) => if Failed r then None else Some v
  | _ => None
  end.

Definition sum_values_of (l : list (prim Int32)) : Z := foldr (λ v s, pval v + s) 0 l.

(** The entities a [SpawnRequest] is answered with. *)
Definition spawned (count : Z) : vector Entity :=
  Vector ((λ i : nat, spawn_entity (Z.of_nat i)) <$> seq 0 (Z.to_nat (clamp_count count))).

Section Spec.
Context `{Platform, System}.

Definition ticks_at (k : nat) : Z := TICKS_AT_UNIX_EPOCH + system_clock k * 10.

(** The reply to one packet when the clock has been read [k] times, and how often it
    has been read then; [None] closes the connection. *)
Definition answer (k : nat) (p : packet) : option (packet * nat) :=
  if p.1 =? 201 then
    r ← decode_body EchoRequest MakeReaderLimits p.2;
    Some ((202, enc (MkEchoResponse (erq_seq r) (Str (ToUpperAscii (bytes_of (erq_text r)))) (Prim (ticks_at k)))), S k)
  else if p.1 =? 203 then
    r ← decode_body SumRequest MakeReaderLimits p.2;
    Some ((204, enc (MkSumResponse (Prim (sum_values_of (elements (sum_values r)))))), k)
  else if p.1 =? 205 then
    r ← decode_body SpawnRequest MakeReaderLimits p.2;
    Some ((206, enc (MkSpawnResponse (spawned (pval (spawn_count r))))), k)
  else None.

(** The replies to the packets of a session, up to the one that closes it. *)
Fixpoint replies (k : nat) (ps : list packet) : list packet :=
  match ps with
  | [] => []
  | p :: ps' => match answer k p with Some (q, k') => q :: replies k' ps' | None => [] end
  end.
End Spec.

(** ** What decodes *)

Section Decoding.
Context `{Platform}.

#[global] Instance EchoRequest_decoded : Decoded EchoRequest :=
  λ o v, decoded o (erq_seq v) ∧ decoded o (erq_text v).
#[global] Instance SumRequest_decoded : Decoded SumRequest := λ o v, decoded o (sum_values v).
#[global] Instance SpawnRequest_decoded : Decoded SpawnRequest := λ o v, decoded o (spawn_count v).

#[global] Instance EchoRequest_decoded_laws : DecodedLaws EchoRequest.
Proof.
  assert (Hi : ∀ o, decoded o (default_value : EchoRequest)).
  { intros o. split; [exact (decoded_init (T := prim Int32) o)|exact (decoded_init (T := string) o)]. }
  split; [exact Hi| |done]. intros old r Hr Hold. apply (safe_Define_inv decoded); [done|apply Hi| |done].
  apply Forall_cons. split; [apply (member_keeps_decoded _ erq_seq_m)|apply Forall_singleton, (member_keeps_decoded _ erq_text_m)].
  all: first [by intros o v [? ?]|intros o v x [? ?] ?; by split].
Qed.

#[global] Instance SumRequest_decoded_laws : DecodedLaws SumRequest.
Proof.
  assert (Hi : ∀ o, decoded o (default_value : SumRequest)) by (intros o; exact (decoded_init (T := vector (prim Int32)) o)).
  split; [exact Hi| |done]. intros old r Hr Hold. apply (safe_Define_inv decoded); [done|apply Hi| |done].
  by apply Forall_singleton, (member_keeps_decoded _ sum_values_m).
Qed.

#[global] Instance SpawnRequest_decoded_laws : DecodedLaws SpawnRequest.
Proof.
  assert (Hi : ∀ o, decoded o (default_value : SpawnRequest)) by (intros o; exact (decoded_init (T := prim Int32) o)).
  split; [exact Hi| |done]. intros old r Hr Hold. apply (safe_Define_inv decoded); [done|apply Hi| |done].
  by apply Forall_singleton, (member_keeps_decoded _ spawn_count_m).
Qed.

End Decoding.

(** Whatever decodes is within the limits. *)
Lemma decode_body_decoded {T} `{DecodedLaws T} body v : bytes_ok body → zlen body < size_mod →
  decode_body T MakeReaderLimits body = Some v → decoded MakeReaderLimits v.
Proof.
  intros Hb Hs. unfold decode_body. pose proof (new_reader_ready MakeReaderLimits body eq_refl Hb Hs) as Hr.
  pose proof (law_decoded value_init _ (ready_ok _ _ _ Hr) (decoded_init _)) as Hd.
  unfold safe_at, ReadInto in *. destruct (Deserialize value_init _) as [[a| |] r]; [|done..].
  destruct (Failed r); [done|]. intros [= <-]. apply Hd.
Qed.

(** ** The replies are well formed *)

Section Replies.
Context `{Platform}.

(** Enumerates the members of a class. *)
Ltac members_cases :=
  let s := fresh "s" in let Hin := fresh "Hin" in
  intros s Hin; apply list_elem_of_In in Hin; cbn in Hin;
  repeat match type of Hin with _ ∨ _ => destruct Hin as [<-|Hin] end; [..|done].

Lemma zlen_enc_string s : zlen (enc_string s) ≤ 8 + zlen s.
Proof. unfold enc_string. destruct (zlen s =? 0); rewrite ?zlen_app, !zlen_le_bytes; zlia. Qed.

(** The server's own strings are short. *)
Lemma short_string_ok s : bytes_ok s → zlen s ≤ 12288 → string_ok s.
Proof. intros Hb Hl. by apply (string_bound_ok MakeReaderLimits). Qed.

Lemma to_upper_ok text : bytes_ok text → bytes_ok (ToUpperAscii text).
Proof.
  intros Hb. apply Forall_fmap. eapply Forall_impl; [exact Hb|]. unfold byte_ok, to_upper, compose. intros c Hc.
  destruct (Z.leb_spec 97 c), (Z.leb_spec c 122); cbn [andb]; lia.
Qed.

Lemma zlen_to_upper text : zlen (ToUpperAscii text) = zlen text.
Proof. unfold zlen, ToUpperAscii. by rewrite length_fmap. Qed.

Lemma echo_reply_ok r ticks : decoded MakeReaderLimits r → arith_ok Int64 ticks →
  let reply := MkEchoResponse (erq_seq r) (Str (ToUpperAscii (bytes_of (erq_text r)))) (Prim ticks) in
  wf reply ∧ zlen (enc reply) ≤ 2 ^ 16.
Proof.
  intros [Hs [Hb Hl]] Ht reply. change (3 * Z.max 0 (maxStringLength MakeReaderLimits)) with 12288 in Hl. split.
  - members_cases; [exact Hs| |exact Ht]. change (string_ok (ToUpperAscii (bytes_of (erq_text r)))).
    apply short_string_ok; [by apply to_upper_ok|by rewrite zlen_to_upper].
  - change (enc reply) with (3 :: (le_bytes 4 (pval (erq_seq r)) ++ enc_string (ToUpperAscii (bytes_of (erq_text r))) ++ le_bytes 8 ticks ++ [])).
    rewrite app_nil_r, zlen_cons, !zlen_app.
    pose proof (zlen_enc_string (ToUpperAscii (bytes_of (erq_text r)))) as He. rewrite zlen_to_upper in He.
    rewrite !zlen_le_bytes. lia.
Qed.

Lemma sum_reply_ok total : arith_ok Int64 total →
  wf (MkSumResponse (Prim total)) ∧ zlen (enc (MkSumResponse (Prim total))) ≤ 2 ^ 16.
Proof. intros Ht. split; [members_cases; exact Ht|by vm_compute]. Qed.

(** The 64 entities, checked one by one. *)
Definition entity_checks (i : nat) : bool :=
  let e := spawn_entity (Z.of_nat i) in
  forallb (λ b, (0 <=? b) && (b <? 256)) (bytes_of (ent_name e)) && (zlen (bytes_of (ent_name e)) <=? 20) &&
  forallb (λ b, (0 <=? b) && (b <? 2 ^ 32)) [v3_x (ent_position e); v3_y (ent_position e); v3_z (ent_position e)].

Lemma entity_checks_all : forallb entity_checks (seq 0 64) = true.
Proof. vm_compute. reflexivity. Qed.

Lemma forallb_range (hi : Z) l : forallb (λ b, (0 <=? b) && (b <? hi)) l = true → Forall (λ b, 0 ≤ b < hi) l.
Proof. rewrite forallb_forall, Forall_forall. intros Hl x Hx. apply list_elem_of_In in Hx. specialize (Hl x Hx). cbv beta in Hl. lia. Qed.

Lemma entity_ok (i : nat) : (i < 64)%nat → wf (spawn_entity (Z.of_nat i)) ∧ zlen (enc (spawn_entity (Z.of_nat i))) ≤ 64.
Proof.
  intros Hi. pose proof entity_checks_all as Hall. rewrite forallb_forall in Hall.
  specialize (Hall i ltac:(apply in_seq; lia)). unfold entity_checks in Hall. set (e := spawn_entity (Z.of_nat i)) in *.
  apply andb_true_iff in Hall as [Hall Hpos]. apply andb_true_iff in Hall as [Hname Hlen]. apply Z.leb_le in Hlen.
  apply forallb_range in Hname. apply forallb_range in Hpos.
  assert (Hv : rep_ok (um_rep (T := Vector3)) (ent_position e)) by (apply float_struct_ok; [done|exact Hpos|by destruct (ent_position e)]).
  assert (Hid : pval (ent_id e) = 1000 + Z.of_nat i) by done. split.
  - members_cases; [|exact Hv|exact (short_string_ok _ Hname ltac:(lia))].
    change (arith_ok Int32 (pval (ent_id e))). rewrite Hid. arith_ranges. lia.
  - change (enc e) with (3 :: (le_bytes 4 (pval (ent_id e)) ++ rep_bytes um_rep (ent_position e) ++ enc_string (bytes_of (ent_name e)) ++ [])).
    rewrite app_nil_r, zlen_cons, !zlen_app, zlen_le_bytes. destruct Hv as (_ & -> & _).
    pose proof (zlen_enc_string (bytes_of (ent_name e))). cbn [um_rep Vector3_unmanaged float_struct rep_size]. lia.
Qed.

Lemma clamp_range count : 0 ≤ clamp_count count ≤ 64.
Proof.
  unfold clamp_count, MAX_SPAWN_COUNT. destruct (Z.ltb_spec count 0); [done|].
  destruct (Z.gtb_spec count 64); lia.
Qed.

Lemma spawn_reply_ok count : wf (MkSpawnResponse (spawned count)) ∧ zlen (enc (MkSpawnResponse (spawned count))) ≤ 2 ^ 16.
Proof.
  pose proof (clamp_range count) as Hc.
  assert (Hin : ∀ e, e ∈ elements (spawned count) → ∃ i : nat, e = spawn_entity (Z.of_nat i) ∧ (i < 64)%nat).
  { intros e He. apply list_elem_of_fmap in He as (i & -> & Hi). apply elem_of_seq in Hi. exists i. split; [done|lia]. }
  assert (Hl : zlen (elements (spawned count)) = clamp_count count) by (unfold zlen; cbn; rewrite length_fmap, length_seq; lia).
  split.
  - members_cases. split; [change (zlen (elements (spawned count)) < 2 ^ 31); lia|]. intros e He. destruct (Hin e He) as (i & -> & Hi). by apply entity_ok.
  - change (enc (MkSpawnResponse (spawned count))) with (1 :: (enc_elements (elements (spawned count)) ++ [])).
    unfold enc_elements. rewrite app_nil_r, zlen_cons, zlen_app, zlen_le_bytes.
    assert (Hb : zlen (elements (spawned count) ≫= enc) ≤ 64 * zlen (elements (spawned count))); [|lia].
    clear Hl. induction (elements (spawned count)) as [|e l IH]; [done|]. rewrite bind_cons, zlen_app, zlen_cons.
    destruct (Hin e ltac:(left)) as (i & -> & Hi). destruct (entity_ok i Hi) as [_ He].
    assert (IH' := IH ltac:(intros e' He'; apply Hin; by right)). lia.
Qed.
End Replies.

(** ** What one packet does *)

Section Packets.
Context `{Platform, System, !SystemLaws}.
Implicit Types s : Connection * system.

(** The invariant of a connection. *)
Definition conn_ok (c : Connection) : Prop :=
  limits_ c = MakeReaderLimits ∧ w_ok (writer_ c) ∧ vec_ (writer_ c) ≠ None.

(** What an operation may change: it sends [part], reads the clock [n] times and prints. *)
Record effect (part : list Z) (n : nat) s s' : Prop := {
  eff_conn : conn_ok s'.1;
  eff_alive : alive_ s'.1 = alive_ s.1;
  eff_in : incoming s'.2 = incoming s.2;
  eff_out : outgoing s'.2 = outgoing s.2 ++ part;
  eff_clock : clock_reads s'.2 = (clock_reads s.2 + n)%nat;
}.

Lemma effect_refl s : conn_ok s.1 → effect [] 0 s s.
Proof. split; rewrite ?app_nil_r, ?Nat.add_0_r; done. Qed.

Lemma effect_trans p1 n1 p2 n2 s1 s2 s3 :
  effect p1 n1 s1 s2 → effect p2 n2 s2 s3 → effect (p1 ++ p2) (n1 + n2) s1 s3.
Proof. intros [] []. split; [done|congruence|congruence|by rewrite app_assoc; congruence|lia]. Qed.

Definition quiet (m : C unit) : Prop := ∀ s, conn_ok s.1 → ∃ s', m s = (Ret tt, s') ∧ effect [] 0 s s'.

Lemma quiet_LogC line : quiet (LogC line).
Proof. intros [c w] Hc. eexists. split; [reflexivity|]. split; cbn; rewrite ?app_nil_r, ?Nat.add_0_r; done. Qed.

Lemma quiet_mapM {A} (f : A → C unit) l : (∀ x, quiet (f x)) → quiet (mapM_ f l).
Proof.
  intros Hf. induction l as [|x l IH]; intros s Hs; [exists s; split; [done|by apply effect_refl]|].
  destruct (Hf x s Hs) as (s1 & E1 & F1). destruct (IH s1 (eff_conn _ _ _ _ F1)) as (s2 & E2 & F2).
  exists s2. cbn [mapM_]. unfold mbind, M_bind. rewrite E1, E2. split; [done|]. apply (effect_trans [] 0 [] 0 _ _ _ F1 F2).
Qed.

(** [m] ends by sending the frame of [q] after [n] clock readings, or what of it the
    system takes; it returns true when all of it went out. *)
Definition sends_frame (m : C bool) (q : packet) (n : nat) s : Prop := ∃ ok part s',
  m s = (Ret ok, s') ∧ effect part n s s' ∧ part `prefix_of` frame_bytes q ∧ (ok = true ↔ part = frame_bytes q) ∧
  ((∀ k n, 0 < n → 0 < send_result k n) → ok = true).

Lemma sends_quiet (m : C unit) (m' : C bool) q n s : quiet m → conn_ok s.1 →
  (∀ s', effect [] 0 s s' → sends_frame m' q n s') → sends_frame (m ;; m') q n s.
Proof.
  intros Hm Hs Hm'. destruct (Hm s Hs) as (s1 & E1 & F1). destruct (Hm' s1 F1) as (ok & part & s2 & E2 & F2 & Hr).
  exists ok, part, s2. unfold mbind, M_bind. rewrite E1, E2. split; [done|]. split; [|done]. exact (effect_trans [] 0 _ _ _ _ _ F1 F2).
Qed.

(** The header placeholder, patched. *)
Lemma patched_frame id body : zlen body < 2 ^ 31 →
  overwrite 0 (Policy_Write id (to_int (size_sub (zlen (replicate 6 0 ++ body)) HeaderSize_))) (replicate 6 0 ++ body) =
  frame_bytes (id, body).
Proof.
  intros Hl. pose proof size_mod_pos. zlen_pos. rewrite zlen_app. change (zlen (replicate 6 0)) with 6.
  rewrite size_sub_small by (cbn; lia). replace (6 + zlen body - HeaderSize_) with (zlen body) by (cbn; lia).
  rewrite to_int_small by lia. unfold overwrite, frame_bytes.
  pose proof (policy_write_size id (zlen body)) as Hz. change HeaderSize_ with 6 in Hz. cbn [fst snd].
  set (header := Policy_Write id (zlen body)) in *. unfold zlen in Hz.
  clearbody header. assert (Hh : length header = 6%nat) by lia. by rewrite Hh.
Qed.

Lemma SendPacket_spec {T} `{!MemoryPackFormatter T, !WireFormat T, !FormatterLaws T} pid (v : T) s :
  conn_ok s.1 → wf v → zlen (enc v) ≤ 2 ^ 16 → sends_frame (SendPacket pid v) (packet_id pid, enc v) 0 s.
Proof.
  destruct s as [c w]. intros (Hlim & Hw & Hv) Hwf Hl. cbn [fst] in *. destruct (vec_ (writer_ c)) as [l|] eqn:El; [|done].
  pose proof grow_limit_bounds. zlen_pos.
  set (w1 := set_vec (Some (replicate 6 0)) (set_w_error NoError (set_vec (Some []) (writer_ c)))).
  assert (Hw1 : w_ok w1) by (destruct Hw; by split).
  assert (Hroom : w_Size w1 + zlen (enc v) ≤ w_limit w1) by (change (6 + zlen (enc v) ≤ grow_limit); lia).
  destruct (Write_fits w1 v Hwf Hw1 Hroom) as (w2 & E2 & Hs & G & Herr).
  destruct (vec_ w2) as [buf|] eqn:Eb; [|by apply (step_vec _ _ Hs) in Eb].
  assert (Hbuf : buf = replicate 6 0 ++ enc v).
  { unfold GetSpan, w_Size, Data in G. rewrite Eb in G. cbn [vec_ w1 set_vec] in G. by rewrite !slice_all in G. }
  unfold sends_frame, SendPacket, mbind, M_bind, on_writer at 1, Clear, modify at 1. cbn [fst snd]. rewrite El.
  unfold on_writer at 1, modify at 1. cbn [fst snd writer_ set_writer vec_ set_vec set_w_error fmap option_fmap option_map].
  change (vector_resize 0 HeaderSize_ []) with (replicate 6 0). change (set_vec (Some (replicate 6 0)) _) with w1.
  unfold on_writer at 1. cbn [fst snd writer_ set_writer]. rewrite E2.
  unfold gets at 1. cbn [fst snd writer_ set_writer]. unfold w_Failed. rewrite Herr, bool_decide_false by (intros Hne; by apply Hne).
  unfold gets at 1, sendBuffer_. cbn [fst snd writer_ set_writer]. rewrite Eb. cbn [default from_option id].
  unfold on_writer, modify, gets. cbn [fst snd writer_ set_writer vec_ set_vec default from_option id].
  rewrite Hbuf, patched_frame by lia. set (frame := frame_bytes _).
  assert (Hfl : zlen frame < 2 ^ 31).
  { unfold frame, frame_bytes. rewrite zlen_app, policy_write_size. cbn. lia. }
  unfold SendAll, on_snd. cbn [fst snd].
  destruct (send_loop_spec frame (Z.to_nat (zlen frame)) 0 w) as (ok & part & k & -> & Hp & Hiff & Hall);
    [zlia|done|unfold zlen; lia|]. cbn [Z.to_nat drop] in *.
  eexists ok, part, _. split; [reflexivity|]. split; [|done]. split; cbn; [|done|done|done|lia].
  split; [done|]. split; [|done]. destruct (step_ok _ _ Hs). by split.
Qed.

(** *** Decoding *)

Lemma DecodeBody_spec {T} `{!MemoryPackFormatter T, !WireFormat T, !FormatterLaws T} body s :
  conn_ok s.1 → bytes_ok body → zlen body < size_mod →
  ∃ s', DecodeBody T body s = (Ret (decode_body T MakeReaderLimits body), s') ∧ effect [] 0 s s'.
Proof.
  intros Hs Hb Hsz. assert (Hq : ∀ line (o : option T), ∃ s', (LogC line ;; mret o) s = (Ret o, s') ∧ effect [] 0 s s').
  { intros line o. destruct (quiet_LogC line s Hs) as (s' & E & F). exists s'. unfold mbind, M_bind. by rewrite E. }
  unfold DecodeBody, decode_body, mbind at 1, M_bind at 1, gets. destruct Hs as (Hlim & Hs). rewrite Hlim.
  pose proof (law_safe (T := T) value_init _ (ready_ok _ _ _ (new_reader_ready MakeReaderLimits body eq_refl Hb Hsz))) as Hsafe.
  unfold safe_at, ReadInto in *. destruct (Deserialize value_init _) as [[v|e off|] r]; [|apply Hq|done].
  destruct (Failed r); [apply Hq|]. exists s. split; [done|]. by apply effect_refl.
Qed.

(** What the handlers promise for the answer [ans]. *)
Definition handles (m : C bool) (ans : option (packet * nat)) s : Prop :=
  match ans with
  | None => ∃ s', m s = (Ret false, s') ∧ effect [] 0 s s'
  | Some (q, k) => ∃ n, k = (clock_reads s.2 + n)%nat ∧ sends_frame m q n s
  end.

(** A handler: decode, and close the connection if that fails. *)
Lemma handles_decode {T} `{!MemoryPackFormatter T, !WireFormat T, !FormatterLaws T, !Decoded T, !DecodedLaws T}
    body (k : T → C bool) (ans : T → option (packet * nat)) s :
  conn_ok s.1 → bytes_ok body → zlen body < size_mod →
  (∀ v s', decoded MakeReaderLimits v → effect [] 0 s s' → handles (k v) (ans v) s') →
  handles (r ← DecodeBody T body; match r with None => mret false | Some v => k v end)
    (decode_body T MakeReaderLimits body ≫= ans) s.
Proof.
  intros Hs Hb Hsz Hk. destruct (DecodeBody_spec (T := T) body s Hs Hb Hsz) as (s1 & E & F).
  destruct (decode_body T MakeReaderLimits body) as [v|] eqn:Ed; cbn [mbind option_bind].
  2: { exists s1. unfold mbind, M_bind. by rewrite E. }
  specialize (Hk v s1 (decode_body_decoded body v Hb Hsz Ed) F). unfold handles in *.
  assert (Hc : clock_reads s1.2 = clock_reads s.2) by (rewrite (eff_clock _ _ _ _ F); lia).
  destruct (ans v) as [[q k']|].
  - destruct Hk as (n & Hn & ok & part & s2 & E2 & F2 & Hr). exists n. split; [congruence|]. exists ok, part, s2.
    unfold mbind, M_bind. rewrite E, E2. split; [done|]. split; [|done]. exact (effect_trans [] 0 _ _ _ _ _ F F2).
  - destruct Hk as (s2 & E2 & F2). exists s2. unfold mbind, M_bind. rewrite E, E2. split; [done|].
    exact (effect_trans [] 0 _ _ _ _ _ F F2).
Qed.

(** *** The handlers *)

Lemma ticks_ok k : arith_ok Int64 (ticks_at k).
Proof. unfold ticks_at, TICKS_AT_UNIX_EPOCH. pose proof (clock_range k). arith_ranges. lia. Qed.

Lemma UtcNowTicks_spec s : conn_ok s.1 → ∃ s', UtcNowTicks s = (Ret (ticks_at (clock_reads s.2)), s') ∧ effect [] 1 s s'.
Proof.
  intros Hs. pose proof (clock_range (clock_reads s.2)) as Hc. pose proof (ticks_ok (clock_reads s.2)) as Ht.
  unfold UtcNowTicks, mbind at 1, M_bind at 1, on_snd, now. cbn [fst snd].
  rewrite (int64_ok (system_clock (clock_reads s.2) * 10)) by lia. cbn [mbind option_bind].
  change (TICKS_AT_UNIX_EPOCH + _) with (ticks_at (clock_reads s.2)). rewrite int64_ok by (arith_ranges; lia).
  eexists. split; [reflexivity|]. split; cbn; rewrite ?app_nil_r; done || lia.
Qed.

Lemma HandleEcho_spec body s : conn_ok s.1 → bytes_ok body → zlen body < size_mod →
  handles (HandleEcho body) (answer (clock_reads s.2) (201, body)) s.
Proof.
  intros Hs Hb Hsz. apply (handles_decode body); [done..|]. intros r s1 Hr F. exists 1%nat.
  assert (Hc : clock_reads s1.2 = clock_reads s.2) by (rewrite (eff_clock _ _ _ _ F); lia). rewrite Hc. split; [lia|].
  apply sends_quiet; [apply quiet_LogC|apply F|]. intros s2 F2. rewrite <-Hc.
  destruct (UtcNowTicks_spec s2 (eff_conn _ _ _ _ F2)) as (s3 & E3 & F3).
  assert (Hc2 : clock_reads s2.2 = clock_reads s1.2) by (rewrite (eff_clock _ _ _ _ F2); lia). rewrite Hc2 in E3.
  destruct (sends_quiet (LogC (LogSendEcho (pval (erq_seq r)) (ToUpperAscii (bytes_of (erq_text r))) (ticks_at (clock_reads s1.2))))
    (SendPacket EchoResponseId (MkEchoResponse (erq_seq r) (Str (ToUpperAscii (bytes_of (erq_text r)))) (Prim (ticks_at (clock_reads s1.2)))))
    (202, enc (MkEchoResponse (erq_seq r) (Str (ToUpperAscii (bytes_of (erq_text r)))) (Prim (ticks_at (clock_reads s1.2))))) 0 s3)
    as (ok & part & s4 & E4 & F4 & Hp); [apply quiet_LogC|apply F3| |].
  { intros s4 F4. destruct (echo_reply_ok r (ticks_at (clock_reads s1.2)) Hr (ticks_ok _)) as [Hw Hz].
    apply (SendPacket_spec EchoResponseId _ s4); [apply F4|done|done]. }
  exists ok, part, s4. cbv zeta. unfold mbind at 1, M_bind at 1. rewrite E3, E4. split; [done|]. split; [|done].
  exact (effect_trans [] 1 _ 0 _ _ _ F3 F4).
Qed.

Lemma sum_loop_spec l total s : Forall (λ v, arith_ok Int32 (pval v)) l → Z.abs total + 2 ^ 31 * zlen l < 2 ^ 63 →
  sum_loop l total s = (Ret (total + sum_values_of l), s).
Proof.
  intros Hl. revert total. induction Hl as [|v l Hv _ IH]; intros total Ht; cbn [sum_loop].
  - unfold sum_values_of. cbn. by rewrite Z.add_0_r.
  - rewrite zlen_cons in Ht. zlen_pos. arith_ranges. rewrite int64_ok by lia. rewrite IH by lia.
    unfold sum_values_of. cbn [foldr]. by rewrite Z.add_assoc.
Qed.

Lemma sum_bound l : Forall (λ v : prim Int32, arith_ok Int32 (pval v)) l → Z.abs (sum_values_of l) ≤ 2 ^ 31 * zlen l.
Proof.
  induction 1 as [|v l Hv _ IH]; [done|]. rewrite zlen_cons. unfold sum_values_of in *. cbn [foldr]. arith_ranges. lia.
Qed.

Lemma HandleSum_spec body s : conn_ok s.1 → bytes_ok body → zlen body < size_mod →
  handles (HandleSum body) (answer (clock_reads s.2) (203, body)) s.
Proof.
  intros Hs Hb Hsz. apply (handles_decode body); [done..|]. intros r s1 [Hr Hl] F. exists 0%nat.
  rewrite (eff_clock _ _ _ _ F). split; [lia|].
  change (Forall (λ v : prim Int32, arith_ok Int32 (pval v)) (elements (sum_values r))) in Hr.
  assert (Hz : zlen (elements (sum_values r)) ≤ 4096).
  { destruct Hl as [Hl _]. cbn in Hl. lia. } zlen_pos.
  destruct (Z.gtb_spec (zlen (elements (sum_values r))) MAX_SUM_VALUES) as [Hg|_]; [unfold MAX_SUM_VALUES in Hg; lia|].
  pose proof (sum_bound (elements (sum_values r)) Hr) as Hsum. set (l := elements (sum_values r)) in *.
  destruct (sends_quiet (LogC (LogRecvSum (zlen l)))
    (LogC (LogSendSum (sum_values_of l)) ;; SendPacket SumResponseId (MkSumResponse (Prim (sum_values_of l))))
    (204, enc (MkSumResponse (Prim (sum_values_of l)))) 0 s1) as (ok & part & s2 & E2 & Hr2); [apply quiet_LogC|apply F| |].
  { intros s2 F2. apply sends_quiet; [apply quiet_LogC|apply F2|]. intros s3 F3.
    destruct (sum_reply_ok (sum_values_of l)) as [Hw Hrz]; [arith_ranges; lia|].
    apply (SendPacket_spec SumResponseId _ s3); [apply F3|done|done]. }
  exists ok, part, s2. unfold mbind at 1, M_bind at 1. rewrite sum_loop_spec by (done || cbn; lia). rewrite Z.add_0_l, E2. done.
Qed.

Lemma HandleSpawn_spec body s : conn_ok s.1 → bytes_ok body → zlen body < size_mod →
  handles (HandleSpawn body) (answer (clock_reads s.2) (205, body)) s.
Proof.
  intros Hs Hb Hsz. apply (handles_decode body); [done..|]. intros r s1 _ F. exists 0%nat.
  rewrite (eff_clock _ _ _ _ F). split; [lia|].
  apply sends_quiet; [apply quiet_LogC|apply F|]. intros s2 F2.
  apply sends_quiet; [apply quiet_mapM; intros; apply quiet_LogC|apply F2|]. intros s3 F3.
  apply sends_quiet; [apply quiet_LogC|apply F3|]. intros s4 F4.
  destruct (spawn_reply_ok (pval (spawn_count r))) as [Hw Hz].
  apply (SendPacket_spec SpawnResponseId _ s4); [apply F4|done|done].
Qed.

Lemma HandlePacket_spec (p : packet) s : conn_ok s.1 → bytes_ok p.2 → zlen p.2 < size_mod →
  handles (HandlePacket p.1 p.2) (answer (clock_reads s.2) p) s.
Proof.
  destruct p as [i body]. cbn [fst snd]. intros Hs Hb Hsz. unfold HandlePacket. cbn [packet_id].
  destruct (Z.eqb_spec i 201) as [->|Hi1]; [by apply HandleEcho_spec|].
  destruct (Z.eqb_spec i 203) as [->|Hi2]; [by apply HandleSum_spec|].
  destruct (Z.eqb_spec i 205) as [->|Hi3]; [by apply HandleSpawn_spec|].
  unfold answer. cbn [fst snd]. rewrite !(proj2 (Z.eqb_neq _ _)) by done.
  destruct (quiet_LogC (LogUnexpectedId i) s Hs) as (s1 & E & F). exists s1. unfold mbind, M_bind. by rewrite E.
Qed.
End Packets.

(** ** A session *)

Section Sessions.
Context `{Platform, System, !SystemLaws}.
Implicit Types s : Connection * system.

Definition reply_bytes (k : nat) (ps : list packet) : list Z := replies k ps ≫= frame_bytes.

(** From [s], the packets [ps] were answered on the way to [s']. *)
Record served (ps : list packet) s s' : Prop := {
  srv_conn : conn_ok s'.1;
  srv_in : incoming s'.2 = incoming s.2;
  srv_out : ∃ part, outgoing s'.2 = outgoing s.2 ++ part ∧ part `prefix_of` reply_bytes (clock_reads s.2) ps ∧
    (alive_ s'.1 = true ∨ sends_always → part = reply_bytes (clock_reads s.2) ps);
  srv_alive : alive_ s'.1 = true → length (replies (clock_reads s.2) ps) = length ps ∧
    ∀ more, replies (clock_reads s.2) (ps ++ more) = replies (clock_reads s.2) ps ++ replies (clock_reads s'.2) more;
  srv_closed : alive_ s'.1 = false → sends_always → (length (replies (clock_reads s.2) ps) < length ps)%nat;
}.

Lemma deliver_cons q ps s : deliver on_packet (q :: ps) s =
  match on_packet q.1 q.2 s with
  | (Ret _, s') => deliver on_packet ps s'
  | (Throw e off, s') => (Throw e off, s')
  | (UB, s') => (UB, s')
  end.
Proof. done. Qed.

(** A closed connection ignores the packets left in the chunk. *)
Lemma deliver_closed ps s : alive_ s.1 = false → deliver on_packet ps s = (Ret tt, s).
Proof.
  intros Hs. induction ps as [|q ps IH]; [done|]. rewrite deliver_cons.
  unfold on_packet at 1, mbind, M_bind, gets. by rewrite Hs.
Qed.

Lemma on_packet_handled q s : alive_ s.1 = true → on_packet q.1 q.2 s =
  match HandlePacket q.1 q.2 s with
  | (Ret true, s') => (Ret tt, s')
  | (Ret false, s') => (Ret tt, (set_alive false s'.1, s'.2))
  | (Throw e off, s') => (Throw e off, s')
  | (UB, s') => (UB, s')
  end.
Proof.
  intros Hs. unfold on_packet, mbind, M_bind, gets. rewrite Hs.
  by destruct (HandlePacket q.1 q.2 s) as [[[]| |] s'].
Qed.

Lemma conn_ok_closed c : conn_ok c → conn_ok (set_alive false c).
Proof. done. Qed.

Lemma deliver_served ps : ∀ s, conn_ok s.1 → alive_ s.1 = true →
  Forall (λ q : packet, bytes_ok q.2 ∧ zlen q.2 < size_mod) ps →
  ∃ s', deliver on_packet ps s = (Ret tt, s') ∧ served ps s s'.
Proof.
  induction ps as [|q ps IH]; intros s Hs Ha Hps.
  { exists s. split; [done|]. split; [done|done|exists []|done|congruence].
    by rewrite app_nil_r. }
  apply Forall_cons in Hps as [[Hq Hqz] Hps]. pose proof (HandlePacket_spec q s Hs Hq Hqz) as Hh.
  rewrite deliver_cons, on_packet_handled by done. unfold handles in Hh. unfold reply_bytes. destruct (answer (clock_reads s.2) q) as [[a k]|] eqn:Ea.
  2: { destruct Hh as (s1 & -> & F). rewrite (deliver_closed ps) by done. eexists. split; [done|]. destruct F.
       assert (Hnil : replies (clock_reads s.2) (q :: ps) = []) by (cbn [replies]; by rewrite Ea).
       split; [done|done| |done|intros _ _; rewrite Hnil; cbn; lia].
       exists []. unfold reply_bytes. rewrite Hnil. by split. }
  destruct Hh as (n & -> & ok & part & s1 & -> & F & Hp & Hiff & Hall).
  assert (Hcons : ∀ more, replies (clock_reads s.2) ((q :: ps) ++ more) = a :: replies (clock_reads s.2 + n) (ps ++ more))
    by (intros more; cbn [app replies]; by rewrite Ea).
  assert (Hcons0 := Hcons []). rewrite !app_nil_r in Hcons0. destruct ok.
  - rewrite (proj1 Hiff eq_refl) in F. destruct F as [Fc Fa Fi Fo Fk]. rewrite <-Fk in *.
    destruct (IH s1 Fc ltac:(congruence) Hps) as (s2 & E2 & V). exists s2. split; [done|]. destruct V as [Vc Vi Vo Va Vx].
    split; [done|congruence| | |].
    + destruct Vo as (p2 & Hp2 & Hpre & Hfull). exists (frame_bytes a ++ p2). unfold reply_bytes in *.
      rewrite Hcons0, bind_cons, Hp2, Fo, <-app_assoc. split_and!; [done|by apply prefix_app|]. intros Hd. by rewrite Hfull.
    + intros Ha2. destruct (Va Ha2) as [Hl Hm]. rewrite Hcons0. split; [cbn; by rewrite Hl|]. intros more. by rewrite Hcons, Hm.
    + intros Ha2 Hsend. rewrite Hcons0. cbn. specialize (Vx Ha2 Hsend). lia.
  - rewrite (deliver_closed ps) by done. eexists. split; [done|]. destruct F as [Fc Fa Fi Fo Fk].
    assert (Hno : sends_always → False) by (intros Hsend; by specialize (Hall Hsend)).
    split; [done|done| |done|intros _ Hsend; by destruct Hno].
    exists part. unfold reply_bytes. rewrite Hcons0, bind_cons. split_and!; [done|by apply prefix_app_r|].
    intros [|]; [done|by destruct Hno].
Qed.

(** What [run_loop] leaves when it started at [p], [s]. *)
Record session p s (s' : Connection * system) (n : nat) (ps : list packet) (ok : bool) : Prop := {
  ses_some : (n ≤ length (incoming s.2))%nat;
  ses_decodes : ∃ r, decodes MAX_BODY_LENGTH (pending p ++ take n (incoming s.2)) ps r ok;
  ses_in : incoming s'.2 = drop n (incoming s.2);
  ses_out : ∃ part, outgoing s'.2 = outgoing s.2 ++ part ∧ part `prefix_of` reply_bytes (clock_reads s.2) ps ∧
    (sends_always → part = reply_bytes (clock_reads s.2) ps);
  ses_end : sends_always → receives_always → ok = true → length (replies (clock_reads s.2) ps) = length ps →
    incoming s'.2 = [];
}.

(** One chunk: what [Feed] does with [k] received bytes. *)
Lemma feed_chunk p s k : parser_ok p → maxBodyLength_ p = MAX_BODY_LENGTH → conn_ok s.1 → alive_ s.1 = true →
  bytes_ok (incoming s.2) → zlen (buffer_ p) + zlen (incoming s.2) < size_mod → (k ≤ length (incoming s.2))%nat →
  ∃ ps r ok p' s', decodes MAX_BODY_LENGTH (pending p ++ take k (incoming s.2)) ps r ok ∧
    Feed (take k (incoming s.2)) on_packet (p, (s.1, after_recv k (S (recvs s.2)) s.2)) = (Ret ok, (p', s')) ∧
    served ps (s.1, after_recv k (S (recvs s.2)) s.2) s' ∧ parser_ok p' ∧ maxBodyLength_ p' = MAX_BODY_LENGTH ∧
    pending p' = r ∧ zlen (buffer_ p') + zlen (incoming s'.2) < size_mod.
Proof.
  intros Hp Hmax Hs Ha Hb Hsz Hk. set (chunk := take k (incoming s.2)). set (s1 := (s.1, after_recv k (S (recvs s.2)) s.2)).
  assert (Hc : bytes_ok chunk) by by apply Forall_take. zlen_pos.
  assert (Hz : zlen chunk + zlen (incoming s1.2) = zlen (incoming s.2)).
  { unfold chunk, s1, zlen. cbn. rewrite length_take, length_drop. lia. }
  assert (Hn : 0 ≤ zlen (incoming s1.2)) by apply zlen_nonneg.
  destruct (decodes_total (maxBodyLength_ p) (pending p ++ chunk)) as (ps & r & ok & Hd).
  assert (Hpend : bytes_ok (pending p)) by (apply Forall_drop, Hp).
  destruct (decodes_packets _ _ _ _ _ Hd) as [Hps _]; [by apply bytes_ok_app|].
  destruct (deliver_served ps s1) as (s2 & Hdel & V); [done|done| |].
  { eapply Forall_impl; [exact Hps|]. intros q [Hq1 Hq2]. split; [done|]. rewrite Hmax in Hq2. pose proof size_mod_pos.
    unfold MAX_BODY_LENGTH in Hq2. lia. }
  destruct (Feed_returns on_packet chunk p s1 ps r ok s2 Hp Hc) as (p' & E & Hp' & Hmax' & Hle & Hr); [lia|done|done|].
  rewrite Hmax in *. exists ps, r, ok, p', s2. split_and!; try done. rewrite (srv_in _ _ _ V). lia.
Qed.

Lemma run_loop_session fuel : ∀ p s, parser_ok p → maxBodyLength_ p = MAX_BODY_LENGTH →
  next_frame MAX_BODY_LENGTH (pending p) = Wait → conn_ok s.1 → alive_ s.1 = true →
  bytes_ok (incoming s.2) → zlen (buffer_ p) + zlen (incoming s.2) < size_mod → (length (incoming s.2) < fuel)%nat →
  ∃ p' s' n ps ok, run_loop fuel (p, s) = (Ret tt, (p', s')) ∧ conn_ok s'.1 ∧ session p s s' n ps ok.
Proof.
  induction fuel as [|fuel IH]; intros p s Hp Hmax Hw Hs Ha Hb Hsz Hf; [lia|].
  cbn [run_loop]. unfold mbind at 1, M_bind at 1, gets at 1. cbn [snd fst]. rewrite Ha.
  unfold mbind at 1, M_bind at 1, on_snd at 1 2. cbn [snd fst].
  destruct (recv_spec 4096 s.2 ltac:(lia)) as (k & -> & Hk1 & Hk2 & Hk3). cbn [snd fst].
  destruct (Z.leb_spec k 0) as [Hz|Hpos].
  - exists p, (s.1, after_recv (Z.to_nat k) (S (recvs s.2)) s.2), 0%nat, [], true. split; [done|]. split; [done|].
    replace (Z.to_nat k) with 0%nat by lia. split; [lia|exists (pending p)|done|exists []|].
    + rewrite take_0, app_nil_r. by apply decodes_wait.
    + by rewrite app_nil_r.
    + intros _ Hr _ _. cbn. rewrite drop_0. destruct (incoming s.2) eqn:Ei; [done|].
      specialize (Hk3 Hr ltac:(lia) ltac:(done)). lia.
  - destruct (feed_chunk p s (Z.to_nat k)) as (ps & r & ok & p1 & s1 & Hd & E & V & Hp1 & Hmax1 & Hr & Hsz1); try done; [unfold zlen in Hk2; lia|].
    unfold mbind at 1, M_bind at 1. rewrite E. destruct V as [Vc Vi (part & Vo & Vp & Vf) Va Vx]. cbn [incoming outgoing clock_reads after_recv fst snd] in *.
    assert (Hnk : (Z.to_nat k ≤ length (incoming s.2))%nat) by (unfold zlen in Hk2; lia).
    assert (Hstop : ok = false ∨ alive_ s1.1 = false → ∀ s', incoming s'.2 = incoming s1.2 → outgoing s'.2 = outgoing s1.2 →
      session p s s' (Z.to_nat k) ps ok).
    { intros Hend s' Ei Eo. split; [done|by exists r|congruence|exists part|].
      - rewrite Eo. split_and!; [done|done|]. intros. apply Vf. by right.
      - intros Hsend _ -> Hl. destruct Hend as [|Hend]; [done|]. specialize (Vx Hend Hsend). lia. }
    destruct ok.
    2: { destruct (quiet_LogC LogFrameLimit s1 Vc) as (s2 & E2 & F2). exists p1, s2, (Z.to_nat k), ps, false.
         unfold on_snd. cbn [fst snd]. rewrite E2. split; [done|]. split; [apply F2|]. apply Hstop; [by left|apply F2|].
         rewrite (eff_out _ _ _ _ F2). apply app_nil_r. }
    destruct (alive_ s1.1) eqn:Ea1.
    2: { exists p1, s1, (Z.to_nat k), ps, true. split; [|split; [done|apply Hstop; by try right]].
         destruct fuel; cbn [run_loop]; unfold mbind, M_bind, gets; cbn [snd fst]; by rewrite Ea1. }
    destruct (IH p1 s1) as (p2 & s2 & n & ps2 & ok2 & E2 & Hc2 & S2); try done.
    { rewrite Hr. by eapply decodes_settled. }
    { rewrite Vi. by apply Forall_drop. }
    { rewrite Vi, length_drop. lia. }
    destruct S2 as [Sn (r2 & Sd) Si (part2 & So & Sp & Sf) Se]. rewrite Vi in *. rewrite length_drop in Sn.
    destruct (Va eq_refl) as [Hl Hm]. specialize (Vf ltac:(by left)). subst part.
    exists p2, s2, (Z.to_nat k + n)%nat, (ps ++ ps2), ok2. split; [done|]. split; [done|].
    split; [lia|exists r2| |exists (reply_bytes (clock_reads s.2) ps ++ part2)|].
    + rewrite <-take_take_drop, app_assoc. rewrite Hr in Sd. by apply (decodes_app _ _ _ _ _ _ _ _ _ Hd).
    + by rewrite Si, drop_drop.
    + unfold reply_bytes in *. rewrite Hm, bind_app, So, Vo, <-app_assoc. split_and!; [done|by apply prefix_app|].
      intros Hsend. by rewrite Sf.
    + intros Hsend Hrecv Hok Hlen. apply Se; try done. rewrite Hm, !length_app, Hl in Hlen. lia.
Qed.
End Sessions.

(** ** The contract of the server *)

Section Contract.
Context `{Platform, System, !SystemLaws}.

(** The whole of [Run], from a fresh connection. *)
Lemma serve_client_run id bytes : bytes_ok bytes → zlen bytes < size_mod →
  ∃ p c w n ps ok, serve_client id (connected bytes) = (Ret tt, (p, (c, w))) ∧
    session (NewParser MAX_BODY_LENGTH) (NewConnection id, connected bytes) (c, w) n ps ok.
Proof.
  intros Hb Hsz. set (s0 := (NewConnection id, connected bytes) : Connection * system).
  assert (Hc : conn_ok s0.1) by (split; [done|]; split; [apply WriterOfVector_ok|done]).
  destruct (quiet_LogC LogConnected s0 Hc) as (s1 & E1 & F1).
  destruct (run_loop_session (S (length (incoming s1.2))) (NewParser MAX_BODY_LENGTH) s1)
    as (p & s2 & n & ps & ok & E2 & Hc2 & S2);
    [apply NewParser_ok|done|done|apply F1|by rewrite (eff_alive _ _ _ _ F1)|by rewrite (eff_in _ _ _ _ F1)..|lia|].
  destruct (quiet_LogC LogDisconnected s2 Hc2) as ([c w] & E3 & F3).
  destruct S2 as [Sn Sd Si (part & So & Sp & Sf) Se]. destruct F1 as [_ _ Fi Fo Fk]. destruct F3 as [_ _ Gi Go _].
  rewrite Nat.add_0_r in Fk. rewrite app_nil_r in Fo, Go. cbn [fst snd] in *. rewrite Fk, Fi, Fo in *.
  exists p, c, w, n, ps, ok. split.
  - unfold serve_client, Run, mbind, M_bind, on_snd at 1, gets. cbn [fst snd]. fold s0. rewrite E1. cbn [fst snd].
    rewrite Fi, E2. unfold on_snd. cbn [fst snd]. by rewrite E3.
  - split; cbn [fst snd]; rewrite ?Gi, ?Go; [done|done|done| |done]. by exists part.
Qed.

(** C7: The server survives every client. Whatever bytes a client sends, however they are
    cut into chunks and however little the system sends at a time, the client's thread
    returns: no exception, no undefined behaviour, no endless loop. What it has read, a
    prefix of those bytes, decodes to some packets, and what it has sent is a prefix of
    the frames that answer them in order, up to the first packet it refuses. On a
    connection that never fails it has sent all of these, and it has read everything
    unless it refused a packet or the stream broke the framing limit. *)
Theorem server_session id bytes : bytes_ok bytes → zlen bytes < size_mod →
  ∃ p c w n ps r ok, serve_client id (connected bytes) = (Ret tt, (p, (c, w))) ∧
    decodes MAX_BODY_LENGTH (take n bytes) ps r ok ∧ incoming w = drop n bytes ∧
    outgoing w `prefix_of` (replies 0 ps ≫= frame_bytes) ∧
    (sends_always → outgoing w = replies 0 ps ≫= frame_bytes) ∧
    (sends_always → receives_always → ok = true → length (replies 0 ps) = length ps → incoming w = []).
Proof.
  intros Hb Hsz. destruct (serve_client_run id bytes Hb Hsz) as (p & c & w & n & ps & ok & E & [_ (r & Hd) Hi (part & Ho & Hp & Hf) He]).
  exists p, c, w, n, ps, r, ok. cbn [fst snd incoming outgoing clock_reads connected app] in *. rewrite Ho.
  split; [exact E|]. split; [exact Hd|]. split; [exact Hi|]. split; [exact Hp|]. split; [exact Hf|exact He].
Qed.

Lemma replies_length ps : ∀ k, (length (replies k ps) ≤ length ps)%nat.
Proof.
  induction ps as [|p ps IH]; intros k; [done|]. cbn [replies]. destruct (answer k p) as [[q k']|]; cbn; [|lia].
  specialize (IH k'). lia.
Qed.

Lemma replies_prefix ps ps' : ∀ k, length (replies k (ps ++ ps')) = length (ps ++ ps') → length (replies k ps) = length ps.
Proof.
  induction ps as [|p ps IH]; intros k Hl; [done|]. cbn [replies app length] in *. destruct (answer k p) as [[q k']|]; [|done].
  cbn [length] in *. f_equal. apply IH. lia.
Qed.

(** A stream of whole frames the server has an answer to. *)
Lemma session_ends_well id bytes ps : bytes_ok bytes → zlen bytes < size_mod →
  decodes MAX_BODY_LENGTH bytes ps [] true → length (replies 0 ps) = length ps → sends_always → receives_always →
  ∃ p c w, serve_client id (connected bytes) = (Ret tt, (p, (c, w))) ∧
    outgoing w = replies 0 ps ≫= frame_bytes ∧ incoming w = [].
Proof.
  intros Hb Hsz Hd Hl Hsend Hrecv.
  destruct (serve_client_run id bytes Hb Hsz) as (p & c & w & n & ps1 & ok1 & E & [_ (r1 & Hd1) Hi (part & Ho & _ & Hf) He]).
  exists p, c, w. split; [done|]. cbn [fst snd incoming outgoing clock_reads connected app] in *.
  change (pending (NewParser MAX_BODY_LENGTH) ++ take n bytes) with (take n bytes) in Hd1.
  assert (Hcat : bytes = take n bytes ++ drop n bytes) by by rewrite take_drop.
  destruct ok1.
  - destruct (decodes_total MAX_BODY_LENGTH (r1 ++ drop n bytes)) as (ps2 & r2 & ok2 & Hd2).
    pose proof (decodes_app _ _ _ _ _ (drop n bytes) _ _ _ Hd1 Hd2) as Hd12. rewrite <-Hcat in Hd12.
    destruct (decodes_det _ _ _ _ _ _ _ _ Hd Hd12) as (-> & _ & _).
    assert (Hnil : incoming w = []) by (apply He; try done; by eapply replies_prefix).
    split; [|done]. rewrite Ho, Hf by done. unfold reply_bytes. rewrite Hi in Hnil.
    rewrite Hnil, app_nil_r in *. rewrite <-Hcat in Hd1. pose proof (decodes_det _ _ _ _ _ _ _ _ Hd Hd1) as (Eps & _).
    by rewrite Eps.
  - pose proof (decodes_app _ _ _ _ _ (drop n bytes) [] [] false Hd1 ltac:(done)) as Hd12. rewrite <-Hcat in Hd12.
    by destruct (decodes_det _ _ _ _ _ _ _ _ Hd Hd12) as (_ & _ & ?).
Qed.

Lemma reply_fits {T} `{!MemoryPackFormatter T, !WireFormat T, !FormatterLaws T} (v : T) :
  wf v ∧ zlen (enc v) ≤ 2 ^ 16 → bytes_ok (enc v) ∧ zlen (enc v) ≤ MAX_BODY_LENGTH.
Proof. intros [Hv Hz]. split; [by apply law_bytes|done]. Qed.

(** No request makes the server send much. A reply, whatever the request asked for,
    is made of bytes and fits the 64 KiB limit of the protocol (a [SpawnRequest] for two
    billion entities gets 64); requests come only with the three request ids, so the
    response ids and unknown ids close the connection. *)
Theorem server_reply_bounded k p q k' : bytes_ok p.2 → zlen p.2 < size_mod → answer k p = Some (q, k') →
  bytes_ok q.2 ∧ zlen q.2 ≤ MAX_BODY_LENGTH ∧ (p.1 = 201 ∨ p.1 = 203 ∨ p.1 = 205) ∧ q.1 = p.1 + 1.
Proof.
  destruct p as [i body]. cbn [fst snd]. intros Hb Hsz. unfold answer. cbn [fst snd].
  repeat case_match; try done; intros Ea; apply bind_Some in Ea as (r & Ed & Ea);
    apply (inj Some), pair_equal_spec in Ea as [<- _].
  all: apply decode_body_decoded in Ed; [|done..]; cbn [fst snd].
  all: match goal with Hi : (_ =? _) = true |- _ => apply Z.eqb_eq in Hi; subst i end.
  all: match goal with |- ?A ∧ ?B ∧ _ => enough (A ∧ B) by (destruct_and?; split_and!; done || lia) end.
  - exact (reply_fits _ (echo_reply_ok r (ticks_at k) Ed (ticks_ok k))).
  - refine (reply_fits _ (sum_reply_ok _ _)). destruct Ed as [Hr [Hl _]].
    change (Forall (λ v : prim Int32, arith_ok Int32 (pval v)) (elements (sum_values r))) in Hr. pose proof (sum_bound _ Hr) as Hsum.
    assert (Hz : zlen (elements (sum_values r)) ≤ 4096) by (cbn in Hl; lia).
    arith_ranges. lia.
  - exact (reply_fits _ (spawn_reply_ok _)).
Qed.
End Contract.

(** ** Well-formed clients *)

Inductive request := EchoReq (r : EchoRequest) | SumReq (r : SumRequest) | SpawnReq (r : SpawnRequest).

Section Clients.
Context `{Platform, System, !SystemLaws}.

(** The packet of a request, and requests the server's limits allow. *)
Definition request_packet (q : request) : packet :=
  match q with
  | EchoReq r => (packet_id EchoRequestId, enc r)
  | SumReq r => (packet_id SumRequestId, enc r)
  | SpawnReq r => (packet_id SpawnRequestId, enc r)
  end.

Definition request_ok (q : request) : Prop :=
  match q with
  | EchoReq r => wf r ∧ within MakeReaderLimits 0 r
  | SumReq r => wf r ∧ within MakeReaderLimits 0 r
  | SpawnReq r => wf r ∧ within MakeReaderLimits 0 r
  end.

(** The replies the protocol promises; [k] counts the readings of the clock. *)
Fixpoint promised (k : nat) (qs : list request) : list packet :=
  match qs with
  | [] => []
  | EchoReq r :: qs' =>
      (packet_id EchoResponseId, enc (MkEchoResponse (erq_seq r) (Str (ToUpperAscii (bytes_of (erq_text r)))) (Prim (ticks_at k)))) :: promised (S k) qs'
  | SumReq r :: qs' =>
      (packet_id SumResponseId, enc (MkSumResponse (Prim (sum_values_of (elements (sum_values r)))))) :: promised k qs'
  | SpawnReq r :: qs' =>
      (packet_id SpawnResponseId, enc (MkSpawnResponse (spawned (pval (spawn_count r))))) :: promised k qs'
  end.

Lemma decode_body_enc {T} `{!MemoryPackFormatter T, !WireFormat T, !FormatterLaws T} (v : T) :
  wf v → within MakeReaderLimits 0 v → zlen (enc v) < size_mod → decode_body T MakeReaderLimits (enc v) = Some v.
Proof.
  intros Hv Hwi Hsz. pose proof (new_reader_ready MakeReaderLimits (enc v) eq_refl (law_bytes v Hv) Hsz) as Hr.
  destruct (law_reads MakeReaderLimits 0 v value_init ltac:(done) Hv Hwi _ Hr) as [E _].
  unfold decode_body, ReadInto. rewrite E by done. done.
Qed.

Lemma packet_fits {T} `{!MemoryPackFormatter T, !WireFormat T, !FormatterLaws T} i (v : T) :
  arith_ok UInt16 i → wf v → zlen (enc v) ≤ MAX_BODY_LENGTH → frame_ok MAX_BODY_LENGTH (i, enc v).
Proof. intros Hi Hv Hz. split_and!; [done|by apply law_bytes|done|]. unfold MAX_BODY_LENGTH in Hz. cbn [snd]. lia. Qed.

Lemma request_fits q : request_ok q → frame_ok MAX_BODY_LENGTH (request_packet q).
Proof.
  destruct q as [r|r|r]; intros [Hv [_ Hwi]]; (refine (packet_fits _ r _ Hv _); [done|]).
  - specialize (Hwi (MemberSpec erq_text_m) ltac:(right; left)). change (zlen (bytes_of (erq_text r)) ≤ 4096) in Hwi.
    change (enc r) with (2 :: (le_bytes 4 (pval (erq_seq r)) ++ enc_string (bytes_of (erq_text r)) ++ [])).
    rewrite app_nil_r, zlen_cons, zlen_app, zlen_le_bytes. pose proof (zlen_enc_string (bytes_of (erq_text r))). unfold MAX_BODY_LENGTH. lia.
  - specialize (Hwi (MemberSpec sum_values_m) ltac:(left)). destruct Hwi as [Hl _]. change (zlen (elements (sum_values r)) ≤ 4096) in Hl.
    change (enc r) with (1 :: (enc_elements (elements (sum_values r)) ++ [])). unfold enc_elements.
    rewrite app_nil_r, zlen_cons, zlen_app, zlen_le_bytes. unfold enc. cbn [prim_wire].
    rewrite (zlen_bind_const _ 4) by (intros; by rewrite zlen_le_bytes). unfold MAX_BODY_LENGTH. lia.
  - by vm_compute.
Qed.

(** A request within the limits decodes to itself. *)
Lemma answer_request k q qs : request_ok q → ∃ a k', answer k (request_packet q) = Some (a, k') ∧
  promised k (q :: qs) = a :: promised k' qs.
Proof.
  intros Hq. pose proof (request_fits q Hq) as (_ & _ & Hz & _). pose proof size_mod_pos.
  unfold MAX_BODY_LENGTH in Hz. unfold answer. destruct q as [r|r|r]; destruct Hq as [Hv Hwi]; cbn [request_packet fst snd packet_id] in *;
    eexists _, _; (rewrite decode_body_enc; [split; [reflexivity|done]|done|done|lia]).
Qed.

Lemma replies_promised qs : ∀ k, Forall request_ok qs → replies k (request_packet <$> qs) = promised k qs ∧
  length (promised k qs) = length qs.
Proof.
  induction qs as [|q qs IH]; intros k Hqs; [done|]. apply Forall_cons in Hqs as [Hq Hqs].
  destruct (answer_request k q qs Hq) as (a & k' & Ea & ->). destruct (IH k' Hqs) as [E1 E2].
  rewrite fmap_cons. cbn [replies length]. rewrite Ea, E1. split; [done|]. by rewrite E2.
Qed.

(** C20: Requests get the replies the protocol promises. A client that sends any requests
    within the server's limits, over a connection that never fails but cuts the stream
    in any way, receives exactly one reply frame to each, in order: the text in ASCII
    upper case with the time, the exact sum of the values in 64 bits, and the entities
    for the count clamped to 0..64; and the server has read everything it sent. *)
Theorem server_answers_requests id qs : Forall request_ok qs →
  zlen ((request_packet <$> qs) ≫= frame_bytes) < size_mod → sends_always → receives_always →
  ∃ p c w, serve_client id (connected ((request_packet <$> qs) ≫= frame_bytes)) = (Ret tt, (p, (c, w))) ∧
    outgoing w = promised 0 qs ≫= frame_bytes ∧ incoming w = [].
Proof.
  intros Hqs Hsz Hsend Hrecv. set (bytes := (request_packet <$> qs) ≫= frame_bytes) in *.
  assert (Hframes : Forall (frame_ok MAX_BODY_LENGTH) (request_packet <$> qs)).
  { apply Forall_fmap. eapply Forall_impl; [exact Hqs|]. apply request_fits. }
  assert (Hb : bytes_ok bytes).
  { apply bytes_ok_bind. intros q Hin. rewrite Forall_forall in Hframes. destruct (Hframes q Hin) as (_ & Hq & _).
    apply bytes_ok_app; [apply policy_write_bytes|done]. }
  destruct (session_ends_well id bytes (request_packet <$> qs) Hb Hsz) as (p & c & w & E & Ho & Hi); try done.
  - by apply decodes_frames.
  - destruct (replies_promised qs 0 Hqs) as [E1 E2]. by rewrite E1, E2, length_fmap.
  - exists p, c, w. rewrite Ho. by rewrite (proj1 (replies_promised qs 0 Hqs)).
Qed.
End Clients.

(** ** Concrete sessions *)

Section Witnesses.
#[local] Existing Instances host64 slow_system slow_system_laws.

Definition echo_ab : EchoRequest := MkEchoRequest (Prim 7) (Str [97; 98]).
Definition spawn_two : SpawnRequest := MkSpawnRequest (Prim 2).

Lemma echo_ab_ok : wf echo_ab ∧ within MakeReaderLimits 0 echo_ab.
Proof.
  split; [|split; [vm_compute; discriminate|]]; intros s Hs; apply list_elem_of_In in Hs; destruct Hs as [<-|[<-|[]]].
  - by split.
  - change (string_ok [97; 98]). split; [bytes_lit|]. vm_compute. split; [done|by split].
  - done.
  - vm_compute. discriminate.
Qed.

Lemma spawn_two_ok : wf spawn_two ∧ within MakeReaderLimits 0 spawn_two.
Proof.
  split; [|split; [vm_compute; discriminate|]]; intros s Hs; apply list_elem_of_In in Hs; destruct Hs as [<-|[]]; by split.
Qed.

(** The client goes away in the middle of a frame. *)
Lemma server_session_witness : ∃ p c w,
  serve_client 1 (connected [203; 0; 5; 0; 0; 0; 1; 0; 0; 0; 0; 203]) = (Ret tt, (p, (c, w))) ∧
  outgoing w = [204; 0; 9; 0; 0; 0; 1; 0; 0; 0; 0; 0; 0; 0; 0].
Proof.
  destruct (server_session 1 [203; 0; 5; 0; 0; 0; 1; 0; 0; 0; 0; 203]) as (p & c & w & n & ps & r & ok & E & _);
    [bytes_lit|done|].
  exists p, c, w. split; [exact E|]. vm_compute in E. by injection E as <- <- <-.
Defined.

Lemma server_reply_bounded_witness : ∃ q, answer 0 (205, [1; 255; 255; 255; 127]) = Some (q, 0%nat) ∧ zlen q.2 ≤ MAX_BODY_LENGTH.
Proof.
  eexists. split; [reflexivity|].
  eapply (server_reply_bounded 0 (205, [1; 255; 255; 255; 127])); [bytes_lit|done|reflexivity].
Defined.

Lemma server_answers_requests_witness : ∃ p c w,
  serve_client 3 (connected ((request_packet <$> [EchoReq echo_ab; SpawnReq spawn_two]) ≫= frame_bytes)) = (Ret tt, (p, (c, w))) ∧
  outgoing w = promised 0 [EchoReq echo_ab; SpawnReq spawn_two] ≫= frame_bytes ∧ incoming w = [].
Proof.
  apply (server_answers_requests 3 [EchoReq echo_ab; SpawnReq spawn_two]).
  - apply Forall_cons. split; [apply echo_ab_ok|]. apply Forall_cons. split; [apply spawn_two_ok|by apply Forall_nil_2].
  - by vm_compute.
  - intros k n Hn. cbn. destruct (Nat.even k); lia.
  - intros k n Hn. cbn. lia.
Defined.
End Witnesses.
