(* ===== verification/ServerMain.v ===== *)
(** The server program ([samples/CppServer/main.cpp], [main]): opening the listening socket,
    the loop that accepts clients, and their detached threads.

    Main thread and client threads interleave: accepting one client is a step, and so are
    the start of a client's thread, each round of its receive loop and its end. What each
    peer sends, and how the system treats its connection, is arbitrary. *)
From stdpp Require Import strings.
From S2P Require Import Prelude Endian Writer Reader Text Packet Net CppServer ServerTheorems Sockets.

Abbreviation T := (M trace).

(** What a client's thread works on: [parser_], the other members of [Connection], and
    the system as the connection sees it. *)
Abbreviation conn_state := (PacketFrameParser * (Connection * system))%type.

Inductive thread_pc := Starting | Receiving | Ended.

#[global] Instance thread_pc_eq_dec : EqDecision thread_pc.
Proof. solve_decision. Defined.

(** [peer_bytes] is what the peer sends in the whole session. *)
Record client_thread := ClientThread {
  th_sock : Z;
  th_id : Z;
  peer_bytes : list Z;
  th_pc : thread_pc;
  th_state : conn_state;
}.

(** [accepting] is the listening socket while [main] is in its loop; [exit_code] is the
    result of [main]. *)
Record server := Server {
  calls : trace;
  accepting : option Z;
  g_nextConnectionId : Z;
  threads : list client_thread;
  exit_code : option Z;
}.

Section Main.
Context `{Platform, SocketSystem}.

(** Socket, [bind] and [listen]: the listening socket, none when [main] returns 1. *)
Definition open_listener (port : Z) : T (option Z) :=
  listener ← socket;
  match listener with
  | None => cerr (literal "Failed to create listening socket" ++ [10]) ;; mret None
  | Some listener =>
      setsockopt listener ;;
      r ← bind listener port;
      if negb (r =? 0) then
        cerr (literal "Failed to bind port " ++ to_string port ++ [10]) ;; CLOSE_SOCKET listener ;; mret None
      else
        r ← listen listener;
        if negb (r =? 0) then
          cerr (literal "Failed to listen on port " ++ to_string port ++ [10]) ;; CLOSE_SOCKET listener ;; mret None
        else
          print_line (literal "CppServer listening on port " ++ to_string port ++ literal " (Ctrl-C to stop)") ;;
          mret (Some listener)
  end.

(** [main] up to its loop, on the arguments after the program's name. *)
Definition server_start (args : list (list Z)) : T (option Z) :=
  match chosen_port (strtol <$> head args) with
  | None => cerr (literal "usage: CppServer [port]" ++ [10]) ;; mret None
  | Some port =>
      started ← start_winsock;
      if started : bool then open_listener port else mret None
  end.

(** [++g_nextConnectionId]: the addition of an atomic [int] wraps around. *)
Definition next_id (n : Z) : Z := to_int (n + 1).

(** A round of the loop: the new socket and its id, nothing when the loop ends. *)
Definition accept_client (listener n : Z) : T (option (Z * Z)) :=
  client ← accept listener;
  match client with
  | None => print_line (literal "accept failed - shutting down") ;; mret None
  | Some (client, peer) =>
      let id := next_id n in
      print_line (literal "[conn " ++ to_string id ++ literal "] accepted from " ++ inet_ntop (peer_ip peer) ++
                  literal ":" ++ to_string (peer_port peer)) ;;
      mret (Some (client, id))
  end.

(** The end of [main]. *)
Definition server_stop (listener : Z) : T Z :=
  CLOSE_SOCKET listener ;; clean_winsock ;; mret 0.

(** *** A client's thread *)

Context (peers : Z → System).

(** One round of the loop of [Run] on the connection with the given id: whether it goes on. *)
Definition run_round (id : Z) : M conn_state bool :=
  let _ := peers id in
  alive ← gets (λ s, alive_ s.2.1);
  if alive : bool then
    r ← on_snd (on_snd (recv 4096));
    if r.1 <=? 0 then mret false else
    ok ← Feed r.2 on_packet;
    if ok : bool then mret true else on_snd (LogC LogFrameLimit) ;; mret false
  else mret false.

(** [~Connection]. *)
Definition destroy_connection (th : client_thread) : T unit := CLOSE_SOCKET (th_sock th).

(** The next step of the thread; at its end its [Connection] is destroyed. *)
Definition thread_step (th : client_thread) : T client_thread := λ t,
  let run (m : M conn_state thread_pc) :=
    match m (th_state th) with
    | (Ret pc, st) => (Ret (ClientThread (th_sock th) (th_id th) (peer_bytes th) pc st), t)
    | (Throw e off, st) => (Throw e off, t)
    | (UB, st) => (UB, t)
    end in
  match th_pc th with
  | Starting => run (on_snd (LogC LogConnected) ;; mret Receiving)
  | Receiving =>
      (th' ← with_socket (th_sock th) (λ t, run (
         go_on ← run_round (th_id th);
         if go_on : bool then mret Receiving else on_snd (LogC LogDisconnected) ;; mret Ended));
       match th_pc th' with
       | Ended => destroy_connection th'
       | _ => mret tt
       end ;;
       mret th') t
  | Ended => (UB, t)
  end.

(** *** The program *)

(** A connection right after [accept], with what its peer will send. *)
Definition new_thread (s id : Z) (bytes : list Z) : client_thread :=
  ClientThread s id bytes Starting (NewParser MAX_BODY_LENGTH, (NewConnection id, connected bytes)).

(** One client's thread makes a step, while [main] is in its loop. *)
Inductive thread_moves : server → server → Prop :=
  | move t l n ths i th th' t' : ths !! i = Some th → th_pc th ≠ Ended → thread_step th t = (Ret th', t') →
      thread_moves (Server t (Some l) n ths None) (Server t' (Some l) n (<[i := th']> ths) None).

Inductive server_step : server → server → Prop :=
  | step_accept t l n ths bytes s id t' : bytes_ok bytes → zlen bytes < size_mod →
      accept_client l n t = (Ret (Some (s, id)), t') →
      server_step (Server t (Some l) n ths None) (Server t' (Some l) id (ths ++ [new_thread s id bytes]) None)
  | step_stop t l n ths t1 code t2 : accept_client l n t = (Ret None, t1) → server_stop l t1 = (Ret code, t2) →
      server_step (Server t (Some l) n ths None) (Server t2 None n ths (Some code))
  | step_thread s s' : thread_moves s s' → server_step s s'.

(** The program listens; what came before are the calls of [t]. *)
Definition listening (t : trace) (l : Z) : server := Server t (Some l) 0 [] None.
End Main.
