(* ===== verification/ServerMainTheorems.v ===== *)
(** The server program as a whole: how it starts, that its threads do not disturb each
    other, that its sockets are accounted for, and that client threads end. *)
From stdpp Require Import strings.
From S2P Require Import Prelude Endian Writer Reader Text Packet Net CppServer ServerTheorems Sockets ServerMain.

(** ** One connection *)

Section Thread.
Context `{Platform, SocketSystem} (peers : Z → System) (peers_laws : ∀ id, SystemLaws (H := peers id)).
Implicit Types (th : client_thread) (t : trace) (st final : conn_state).

(** What a connection does when nothing else runs. *)
Definition serves id bytes final : Prop := serve_client (H0 := peers id) id (connected bytes) = (Ret tt, final).

Lemma serves_total id bytes : bytes_ok bytes → zlen bytes < size_mod → ∃ final, serves id bytes final.
Proof.
  intros Hb Hs. destruct (serve_client_run (H0 := peers id) id bytes Hb Hs) as (p & c & w & _ & _ & _ & E & _).
  by exists (p, (c, w)).
Qed.

Lemma LogC_returns (id : Z) line st : ∃ st', on_snd (LogC line) st = (Ret tt, st').
Proof. by eexists. Qed.

(** The rest of [Run] from the loop on, with [fuel] rounds left. *)
Definition run_rest id fuel : M conn_state unit :=
  run_loop (H0 := peers id) fuel ;; on_snd (LogC LogDisconnected).

(** The loop goes on exactly when a round says so. *)
Lemma run_loop_round id fuel st : run_loop (H0 := peers id) (S fuel) st =
  (b ← run_round peers id; if b : bool then run_loop (H0 := peers id) fuel else mret tt) st.
Proof.
  cbn [run_loop]. unfold run_round, mbind, M_bind, gets. destruct (alive_ st.2.1); [|done].
  destruct (on_snd _ st) as [[r| |] st1]; [|done..]. destruct (r.1 <=? 0); [done|].
  destruct (Feed _ _ st1) as [[[]| |] st2]; [done| |done..].
  destruct (on_snd (LogC LogFrameLimit) st2) as [[[]| |] st3]; done.
Qed.

(** What is left of a session after a round. *)
Lemma run_rest_round id fuel st final : run_rest id fuel st = (Ret tt, final) →
  ∃ b st', run_round peers id st = (Ret b, st') ∧
    if b : bool then ∃ fuel', fuel = S fuel' ∧ run_rest id fuel' st' = (Ret tt, final)
    else on_snd (LogC LogDisconnected) st' = (Ret tt, final).
Proof.
  unfold run_rest. destruct fuel as [|fuel].
  - cbn [run_loop]. unfold run_round, mbind, M_bind, gets. destruct (alive_ st.2.1); [done|]. intros E. by exists false, st.
  - unfold mbind at 1, M_bind at 1. rewrite run_loop_round. unfold mbind at 1, M_bind at 1.
    destruct (run_round peers id st) as [[[]| |] st']; [| |done..]; intros E.
    + exists true, st'. split; [done|]. by exists fuel.
    + by exists false, st'.
Qed.

(** [th_ok th n]: the thread is on its way through the session it would have alone, and
    has at most [n] steps to go. *)
Definition th_ok th (n : nat) : Prop := ∃ final, serves (th_id th) (peer_bytes th) final ∧
  match th_pc th with
  | Starting => th_state th = (NewParser MAX_BODY_LENGTH, (NewConnection (th_id th), connected (peer_bytes th))) ∧ n = S (S (S (length (peer_bytes th))))
  | Receiving => ∃ fuel, run_rest (th_id th) fuel (th_state th) = (Ret tt, final) ∧ n = S fuel
  | Ended => th_state th = final ∧ n = 0%nat
  end.

Lemma new_thread_ok s id bytes : bytes_ok bytes → zlen bytes < size_mod → th_ok (new_thread s id bytes) (length bytes + 3).
Proof.
  intros Hb Hs. destruct (serves_total id bytes Hb Hs) as [final Hf]. exists final. split; [done|].
  cbn. split; [done|lia].
Qed.

(** The three fields that never change. *)
Definition same_thread th th' : Prop := th_sock th' = th_sock th ∧ th_id th' = th_id th ∧ peer_bytes th' = peer_bytes th.

(** A thread with an open socket makes its step; the step closes the socket exactly when
    it is the last one. *)
Lemma thread_step_ok th n t : th_ok th n → th_pc th ≠ Ended → th_sock th ∈ open_sockets t →
  ∃ th' n' t', thread_step peers th t = (Ret th', t') ∧ same_thread th th' ∧ th_ok th' n' ∧ (n' < n)%nat ∧
    (th_pc th' ≠ Ended → t' = t) ∧ (th_pc th' = Ended → t' = t ++ [CClose (th_sock th)]).
Proof.
  intros (final & Hs & Hpc) He Ho. unfold thread_step. destruct (th_pc th) eqn:Epc; [| |done].
  - destruct Hpc as [E ->]. unfold mbind, M_bind. destruct (LogC_returns (th_id th) LogConnected (th_state th)) as [st' El].
    eexists _, (S (S (length (peer_bytes th)))), t. rewrite El. split; [reflexivity|]. split; [done|].
    split; [|split; [lia|split; [done|discriminate]]].
    exists final. split; [done|]. exists (S (length (peer_bytes th))). cbn. split; [|done].
    unfold serves, serve_client, Run, mbind, M_bind in Hs. rewrite <-E, El in Hs. unfold run_rest, mbind, M_bind.
    unfold gets in Hs. replace (length (incoming st'.2.2)) with (length (peer_bytes th)) in Hs; [done|].
    rewrite E in El. by injection El as <-.
  - destruct Hpc as (fuel & Hr & ->). destruct (run_rest_round _ _ _ _ Hr) as (b & st' & Er & Hb).
    unfold with_socket, mbind, M_bind. rewrite bool_decide_eq_true_2, Er by done. destruct b.
    + destruct Hb as (fuel' & -> & Hr'). eexists _, (S fuel'), t. split; [reflexivity|]. split; [done|].
      split; [|split; [lia|split; [done|discriminate]]]. exists final. split; [done|]. by exists fuel'.
    + rewrite Hb. eexists _, 0%nat, _. cbn. unfold destroy_connection, CLOSE_SOCKET, with_socket. cbn. rewrite bool_decide_eq_true_2 by done.
      split; [reflexivity|]. split; [done|]. split; [|split; [lia|done]]. by exists final.
Qed.
End Thread.

(** ** All connections *)

(** The sockets of the threads that have not ended. *)
Definition live_sockets (ths : list client_thread) : list Z := th_sock <$> filter (λ th, th_pc th ≠ Ended) ths.

Lemma live_sockets_cons th ths :
  live_sockets (th :: ths) = (if decide (th_pc th ≠ Ended) then [th_sock th] else []) ++ live_sockets ths.
Proof. unfold live_sockets. rewrite filter_cons. by case_decide. Qed.

Lemma live_socket_in ths i th : ths !! i = Some th → th_pc th ≠ Ended → th_sock th ∈ live_sockets ths.
Proof.
  intros Hi He. apply list_elem_of_fmap. exists th. split; [done|]. apply list_elem_of_filter. split; [done|].
  by apply list_elem_of_lookup_2 in Hi.
Qed.

Lemma live_sockets_insert ths : ∀ i th th', ths !! i = Some th → th_pc th ≠ Ended → th_sock th' = th_sock th →
  live_sockets ths ≡ₚ (if decide (th_pc th' ≠ Ended) then [] else [th_sock th]) ++ live_sockets (<[i := th']> ths).
Proof.
  induction ths as [|th0 ths IH]; intros i th th' Hi He Hs; [done|]. destruct i as [|i]; cbn [list_insert insert lookup list_lookup] in *.
  - injection Hi as ->. rewrite !live_sockets_cons, Hs. destruct (decide (th_pc th ≠ Ended)); [|done]. by case_decide.
  - change (list_insert i th' ths) with (<[i := th']> ths). rewrite !live_sockets_cons, (IH i th th') by done.
    apply Permutation_app_swap_app.
Qed.

Lemma sum_insert_lt (ns : list nat) : ∀ i n n', ns !! i = Some n → (n' < n)%nat → (sum_list (<[i := n']> ns) < sum_list ns)%nat.
Proof.
  induction ns as [|m ns IH]; intros i n n' Hi Hn; [done|]. destruct i as [|i].
  - injection Hi as ->. change (n' + sum_list ns < n + sum_list ns)%nat. lia.
  - change (m + sum_list (<[i := n']> ns) < m + sum_list ns)%nat. specialize (IH i n n' Hi Hn). lia.
Qed.

Lemma to_int_next n : next_id (to_int n) = to_int (n + 1).
Proof.
  unfold next_id, to_int. f_equal. pose proof (of_unsigned_mod Int32 (to_unsigned 4 n)) as E.
  change (arith_size Int32) with 4%nat in E. unfold to_unsigned in *. rewrite Z.mod_mod in E by done.
  rewrite <-Zplus_mod_idemp_l, E. apply Zplus_mod_idemp_l.
Qed.

Section Server.
Context `{Platform, SocketSystem, !SocketLaws} (peers : Z → System) (peers_laws : ∀ id, SystemLaws (H := peers id)).
Implicit Types s : server.

(** The sockets of the program, the ids of its connections, and how many steps its threads
    have to go. *)
Record server_inv s (ns : list nat) : Prop := {
  inv_distinct : NoDup (open_sockets (calls s));
  inv_open : open_sockets (calls s) ≡ₚ option_list (accepting s) ++ live_sockets (threads s);
  inv_threads : Forall2 (th_ok peers) (threads s) ns;
  inv_ids : th_id <$> threads s = (λ k, to_int (Z.of_nat k + 1)) <$> seq 0 (length (threads s));
  inv_next : g_nextConnectionId s = to_int (zlen (threads s));
  inv_exit : exit_code s = match accepting s with Some _ => None | None => Some 0 end;
}.

Lemma accept_client_eq l n t : l ∈ open_sockets t → ∃ text, accept_client l n t =
  let r := accept_result t l in
  (Ret ((λ x, (x.1, next_id n)) <$> r), t ++ [CAccept l r; COut text]).
Proof.
  intros Hl. unfold accept_client, accept, with_socket, answered, mbind, M_bind, gets. rewrite bool_decide_eq_true_2 by done. cbn.
  destruct (accept_result t l) as [[s p]|]; eexists; cbn; unfold record_call, modify; by rewrite <-app_assoc.
Qed.

Lemma moves_inv s s' ns : server_inv s ns → thread_moves peers s s' →
  ∃ ns', server_inv s' ns' ∧ (sum_list ns' < sum_list ns)%nat.
Proof.
  intros [Hd Ho Ht Hi Hn Hx] Hm. destruct Hm as [t l n ths i th th' t' Hth He E]. cbn [calls accepting threads g_nextConnectionId exit_code] in *.
  destruct (Forall2_lookup_l _ _ _ _ _ Ht Hth) as (k & Hk & Hok).
  assert (Hs : th_sock th ∈ open_sockets t) by (rewrite Ho; apply elem_of_app; right; by apply (live_socket_in ths i)).
  destruct (thread_step_ok peers th k t Hok He Hs) as (th1 & k' & t1 & E1 & (S1 & S2 & S3) & Hok' & Hlt & Hlive & Hend).
  rewrite E in E1. injection E1 as <- <-. exists (<[i := k']> ns). split; [|by apply (sum_insert_lt ns i k)].
  pose proof (live_sockets_insert ths i th th' Hth He S1) as Hl.
  split; cbn [calls accepting threads g_nextConnectionId exit_code]; [| | | | |done].
  - destruct (decide (th_pc th' = Ended)) as [Ee|Ee]; [|by rewrite Hlive].
    rewrite Hend, open_sockets_app by done. cbn. by apply NoDup_filter.
  - destruct (decide (th_pc th' = Ended)) as [Ee|Ee].
    + rewrite Hend, open_sockets_app by done. cbn. apply close_perm; [done|]. rewrite Ho, Hl.
      rewrite decide_False by tauto. cbn. apply perm_swap.
    + rewrite Hlive by done. rewrite Ho, Hl. by rewrite decide_True by done.
  - by apply Forall2_insert.
  - rewrite length_insert, list_fmap_insert, S2. etrans; [|exact Hi]. apply list_insert_id. by rewrite list_lookup_fmap, Hth.
  - unfold zlen. by rewrite length_insert.
Qed.

Lemma accept_inv t l n ths ns bytes sk id t' : server_inv (Server t (Some l) n ths None) ns →
  bytes_ok bytes → zlen bytes < size_mod → accept_client l n t = (Ret (Some (sk, id)), t') →
  server_inv (Server t' (Some l) id (ths ++ [new_thread sk id bytes]) None) (ns ++ [(length bytes + 3)%nat]).
Proof.
  intros [Hd Ho Ht Hi Hn Hx] Hb Hsz E. cbn [calls accepting threads g_nextConnectionId exit_code] in *.
  assert (Hl : l ∈ open_sockets t) by (rewrite Ho; by left).
  destruct (accept_client_eq l n t Hl) as [text Ea]. rewrite Ea in E. cbn in E.
  destruct (accept_result t l) as [[sk' p]|] eqn:Er; [|done]. injection E as <- <- <-.
  pose proof (accept_fresh t l sk' p Er) as Hf.
  split; cbn [calls accepting threads g_nextConnectionId exit_code]; [| | | | |done].
  - rewrite open_sockets_app. by constructor.
  - rewrite open_sockets_app. cbn. rewrite Ho. unfold live_sockets. rewrite filter_app, fmap_app. cbn. solve_Permutation.
  - apply Forall2_app; [done|]. constructor; [|constructor]. by apply new_thread_ok.
  - rewrite fmap_app, length_app, seq_app, fmap_app, Hi. f_equal. cbn. f_equal. rewrite Hn. apply to_int_next.
  - rewrite Hn. etrans; [apply to_int_next|]. f_equal. by rewrite zlen_app.
Qed.

Lemma stop_inv t l n ths ns t1 code t2 : server_inv (Server t (Some l) n ths None) ns →
  accept_client l n t = (Ret None, t1) → server_stop l t1 = (Ret code, t2) → server_inv (Server t2 None n ths (Some code)) ns.
Proof.
  intros [Hd Ho Ht Hi Hn Hx] E1 E2. cbn [calls accepting threads g_nextConnectionId exit_code] in *.
  assert (Hl : l ∈ open_sockets t) by (rewrite Ho; by left).
  destruct (accept_client_eq l n t Hl) as [text Ea]. rewrite Ea in E1. cbn in E1.
  destruct (accept_result t l) as [[sk' p]|] eqn:Er; [done|]. injection E1 as <-.
  assert (open_sockets (t ++ [CAccept l None; COut text]) = open_sockets t) as Eo by by rewrite open_sockets_app.
  unfold server_stop, CLOSE_SOCKET, with_socket, mbind, M_bind in E2. rewrite Eo, bool_decide_eq_true_2 in E2 by done.
  assert (∃ u, t2 = (t ++ [CAccept l None; COut text]) ++ CClose l :: u ∧ open_sockets t2 = filter (.≠ l) (open_sockets t) ∧ code = 0) as (u & Et & Eopen & ->).
  { unfold clean_winsock in E2. destruct on_windows; cbn in E2; injection E2 as <- <-; eexists; rewrite <-!app_assoc; (split; [reflexivity|]);
      by rewrite open_sockets_app. }
  split; cbn [calls accepting threads g_nextConnectionId exit_code]; [| |done..].
  - rewrite Eopen. by apply NoDup_filter.
  - rewrite Eopen. by apply close_perm.
Qed.

Lemma step_inv s s' : (∃ ns, server_inv s ns) → server_step peers s s' → ∃ ns, server_inv s' ns.
Proof.
  intros [ns Hi] Hs. destruct Hs as [t l n ths bytes sk id t' Hb Hsz E|t l n ths t1 code t2 E1 E2|s s' Hm].
  - eexists. by eapply accept_inv.
  - eexists. by eapply stop_inv.
  - destruct (moves_inv s s' ns Hi Hm) as (ns' & Hi' & _). by exists ns'.
Qed.

Lemma listening_inv t l : open_sockets t = [l] → server_inv (listening t l) [].
Proof.
  intros Ho. split; cbn [listening calls accepting threads g_nextConnectionId exit_code]; rewrite ?Ho; [apply NoDup_singleton|done|constructor|done..].
Qed.

Lemma reachable_inv t l s : open_sockets t = [l] → rtc (server_step peers) (listening t l) s → ∃ ns, server_inv s ns.
Proof.
  intros Ho Hr. assert (∃ ns, server_inv (listening t l) ns) as Hi by (exists []; by apply listening_inv).
  clear Ho. induction Hr as [|s1 s2 s3 Hst _ IH]; [done|]. by apply IH, (step_inv s1).
Qed.

(** C8: Clients do not disturb each other. From the moment the server listens, whatever
    clients connect, whatever they send and however the system interleaves the threads:
    the open sockets are the listening one and one of its own for every running thread;
    the [k]-th client has id [k] (as an [int]); a thread that has ended has done exactly
    what [Connection::Run] does alone with that client; and, until [accept] fails, no
    thread is ever stuck: each can make its next step, and so can the accepting loop. *)
Theorem server_connections t l s : open_sockets t = [l] → rtc (server_step peers) (listening t l) s →
  NoDup (open_sockets (calls s)) ∧
  open_sockets (calls s) ≡ₚ option_list (accepting s) ++ live_sockets (threads s) ∧
  (∀ i th, threads s !! i = Some th → th_id th = to_int (Z.of_nat i + 1) ∧
    (th_pc th = Ended → serve_client (H0 := peers (th_id th)) (th_id th) (connected (peer_bytes th)) = (Ret tt, th_state th)) ∧
    (th_pc th ≠ Ended → exit_code s = None → ∃ th' t', thread_step peers th (calls s) = (Ret th', t'))) ∧
  (∀ l', accepting s = Some l' → ∃ r t', accept_client l' (g_nextConnectionId s) (calls s) = (Ret r, t')).
Proof.
  intros Ho Hr. destruct (reachable_inv t l s Ho Hr) as [ns [Hd Hop Ht Hi Hn Hx]].
  split; [done|]. split; [done|]. split.
  - intros i th Hth. destruct (Forall2_lookup_l _ _ _ _ _ Ht Hth) as (n & Hk & Hok). split; [|split].
    + apply (f_equal (.!! i)) in Hi. rewrite !list_lookup_fmap, Hth, lookup_seq_lt in Hi by (by eapply lookup_lt_Some). by injection Hi.
    + intros He. destruct Hok as (final & Hs & Hpc). rewrite He in Hpc. destruct Hpc as [-> _]. done.
    + intros He _. destruct (thread_step_ok peers th n (calls s) Hok He) as (th' & n' & t' & E & _); [|by eauto].
      rewrite Hop. apply elem_of_app. right. by apply (live_socket_in _ i).
  - intros l' Hl. destruct (accept_client_eq l' (g_nextConnectionId s) (calls s)) as [text E]; [|by eexists _, _].
    rewrite Hop, Hl. by left.
Qed.

Lemma moves_sn s ns : server_inv s ns → sn (thread_moves peers) s.
Proof.
  remember (sum_list ns) as m eqn:Em. revert s ns Em. induction (lt_wf m) as [m _ IH]. intros s ns -> Hi.
  constructor. intros s' Hm. destruct (moves_inv s s' ns Hi Hm) as (ns' & Hi' & Hlt). by apply (IH _ Hlt s' ns').
Qed.

Lemma moves_inv_rtc s s' : (∃ ns, server_inv s ns) → rtc (thread_moves peers) s s' → ∃ ns, server_inv s' ns.
Proof.
  intros Hi Hm. induction Hm as [|s1 s2 s3 Hm _ IH]; [done|]. apply IH. destruct Hi as [ns Hi].
  destruct (moves_inv s1 s2 ns Hi Hm) as (ns' & Hi' & _). by exists ns'.
Qed.

Lemma moves_accepting s s' : rtc (thread_moves peers) s s' → accepting s' = accepting s.
Proof. intros Hm. induction Hm as [|s1 s2 s3 Hm _ IH]; [done|]. rewrite IH. by destruct Hm. Qed.

(** C21: Client threads end. In every state the server reaches, if no further client is
    accepted the threads cannot run forever; and whenever they have run as far as they
    can, every thread has ended, its socket is closed, and only the listening socket is
    open. *)
Theorem server_threads_finish t l s l' : open_sockets t = [l] → rtc (server_step peers) (listening t l) s →
  accepting s = Some l' →
  sn (thread_moves peers) s ∧
  ∀ s', rtc (thread_moves peers) s s' → nf (thread_moves peers) s' →
    Forall (λ th, th_pc th = Ended) (threads s') ∧ open_sockets (calls s') = [l'].
Proof.
  intros Ho Hr Hl. destruct (reachable_inv t l s Ho Hr) as [ns Hi]. split; [by apply (moves_sn s ns)|].
  intros s' Hm Hnf. destruct (moves_inv_rtc s s' ltac:(by exists ns) Hm) as [ns' [Hd Hop Ht _ _ Hx]].
  rewrite (moves_accepting s s' Hm), Hl in *. cbn [option_list app] in *.
  assert (He : Forall (λ th, th_pc th = Ended) (threads s')).
  { apply Forall_lookup. intros i th Hth. destruct (decide (th_pc th = Ended)) as [|He]; [done|]. exfalso. apply Hnf.
    destruct (Forall2_lookup_l _ _ _ _ _ Ht Hth) as (n & Hk & Hok).
    destruct (thread_step_ok peers th n (calls s') Hok He) as (th' & n' & t' & E & _).
    { rewrite Hop. right. by apply (live_socket_in _ i). }
    pose proof (moves_accepting s s' Hm) as Ha. destruct s' as [t0 a n0 ths x]. cbn in *. rewrite Hl in Ha. subst a x.
    eexists. by eapply move. }
  split; [done|]. apply Permutation_singleton_r. rewrite Hop. unfold live_sockets.
  assert (filter (λ th, th_pc th ≠ Ended) (threads s') = []) as ->; [|done].
  clear -He. induction He as [|th ths He _ IH]; [done|]. rewrite filter_cons_False by tauto. done.
Qed.

End Server.

(** ** Starting *)

Section Start.
Context `{Platform, SocketSystem}.

(** How opening the listening socket may end. *)
Definition started port (r : option Z) (t t' : trace) : Prop := ∃ u, t' = t ++ u ∧
  match r with
  | None => open_sockets t' = [] ∧ errors u ≠ [] ∧ printed u = []
  | Some l => open_sockets t' = [l] ∧ CBind l port 0 ∈ u ∧ CListen l 0 ∈ u ∧ errors u = [] ∧
      printed u = literal "CppServer listening on port " ++ to_string port ++ literal " (Ctrl-C to stop)" ++ [10]
  end.

Lemma open_listener_started port t : open_sockets t = [] → ∃ r t', open_listener port t = (Ret r, t') ∧ started port r t t'.
Proof.
  intros Ho. unfold open_listener. next_call. destruct (socket_result t) as [l|].
  2: { next_call. eexists _, _. split; [reflexivity|]. calls_made. by rewrite Ho. }
  assert (Hc : filter (.≠ l) (l :: open_sockets t) = []) by by rewrite Ho, open_close by apply not_elem_of_nil.
  next_call. next_call. match goal with |- context [CBind l port ?x] => set (r := x) end.
  destruct (Z.eqb_spec r 0) as [Er|Er]; cbn [negb].
  2: { next_call. next_call. eexists _, _. split; [reflexivity|]. calls_made. by rewrite Hc. }
  rewrite Er. clear r Er. next_call. match goal with |- context [CListen l ?x] => set (r := x) end.
  destruct (Z.eqb_spec r 0) as [Er|Er]; cbn [negb].
  2: { next_call. next_call. eexists _, _. split; [reflexivity|]. calls_made. by rewrite Hc. }
  rewrite Er. next_call. eexists _, _. split; [reflexivity|]. calls_made. rewrite Ho. split; [done|].
  split; [set_solver|]. split; [set_solver|]. split; [done|].
  etrans; [|apply app_nil_r]. reflexivity.
Qed.

(** C22: The server starts or cleans up. On any command line, [main] reports an error, or
    it listens on the port the argument names (25003 without one) with exactly one socket
    open. When it gives up - a bad port, no Winsock, no socket, a port that cannot be
    bound or listened on - it has written why to [std::cerr] and every socket it opened
    is closed again. *)
Theorem server_starts args : ∃ r t, server_start args [] = (Ret r, t) ∧
  match r with
  | None => open_sockets t = [] ∧ errors t ≠ [] ∧ printed t = []
  | Some l => ∃ port, chosen_port (strtol <$> head args) = Some port ∧ open_sockets t = [l] ∧
      CBind l port 0 ∈ t ∧ CListen l 0 ∈ t ∧ errors t = [] ∧
      printed t = literal "CppServer listening on port " ++ to_string port ++ literal " (Ctrl-C to stop)" ++ [10]
  end.
Proof.
  unfold server_start. destruct (chosen_port _) as [port|]; [|by eexists _, _].
  destruct start_winsock_spec as (b & t & E & Ho & Hp & He).
  erewrite bind_ret by exact E. destruct b; destruct He as [He _]; [|by eexists _, _].
  destruct (open_listener_started port t Ho) as (r & t' & Er & u & -> & Hr). exists r, (t ++ u). split; [done|].
  rewrite errors_app, printed_app, Hp, He. destruct r as [l|]; [|done]. destruct Hr as (H1' & H2' & H3' & H4' & H5').
  exists port. split; [done|]. rewrite !elem_of_app. tauto.
Qed.
End Start.

(** ** A concrete run *)

Section Witnesses.

#[local] Existing Instance host64.
#[local] Instance one_client : SocketSystem := quiet_system false 0.
#[local] Instance one_client_laws : SocketLaws := quiet_laws false 0.
#[local] Instance peers_slow_laws (id : Z) : SystemLaws (H := (λ _, slow_system) id) := slow_system_laws.

Definition start_trace : trace := (server_start [] []).2.

Lemma start_trace_open : open_sockets start_trace = [3].
Proof. by vm_compute. Qed.

(** The client is accepted and its thread starts. *)
Definition client_started : client_thread :=
  ClientThread 4 1 [202] Receiving (on_snd (LogC LogConnected) (th_state (new_thread 4 1 [202]))).2.

Definition one_started : server := Server
  (accept_client 3 0 start_trace).2 (Some 3) 1
  [client_started] None.

Lemma one_started_reachable : rtc (server_step (λ _, slow_system)) (listening start_trace 3) one_started.
Proof.
  eapply rtc_l.
  { eapply (step_accept _ start_trace 3 0 [] [202] 4 1); [bytes_lit|by vm_compute|]. by vm_compute. }
  apply rtc_once, step_thread. refine (move _ _ 3 1 _ 0 _ _ _ _ _ _); [reflexivity|done|]. reflexivity.
Qed.

Lemma server_connections_witness : open_sockets (calls one_started) ≡ₚ [3; 4] ∧
  ∃ th' t', thread_step (λ _, slow_system) client_started (calls one_started) = (Ret th', t').
Proof.
  destruct (server_connections (λ _, slow_system) peers_slow_laws start_trace 3 one_started start_trace_open one_started_reachable)
    as (_ & Ho & Hth & _). split; [exact Ho|]. destruct (Hth 0%nat _ eq_refl) as (_ & _ & Hstep). by apply Hstep.
Defined.

Lemma server_threads_finish_witness : sn (thread_moves (λ _, slow_system)) one_started.
Proof.
  apply (server_threads_finish (λ _, slow_system) peers_slow_laws start_trace 3 one_started 3 start_trace_open one_started_reachable).
  reflexivity.
Defined.
End Witnesses.

(** On Windows, [main] returns 1 without [WSACleanup] when the port cannot be bound; the
    end of the accepting loop cleans up. *)
Example winsock_left_started :
  let _ := host64 in let _ := quiet_system true 1 in
  let '(r, t) := server_start [] [] in r = Ret None ∧ winsock_uses t = 1.
Proof. vm_compute. done. Qed.

Example winsock_cleaned_up :
  let _ := host64 in let _ := quiet_system true 0 in
  let '(r, t) := server_start [literal "8080x"] [] in
  let '(code, t') := server_stop 3 t in
  r = Ret (Some 3) ∧ code = Ret 0 ∧ winsock_uses t' = 0 ∧ open_sockets t' = [] ∧ CBind 3 8080 0 ∈ t'.
Proof. vm_compute. split_and!; try done. by repeat constructor. Qed.
