(* ===== verification/ChatProtocol.v ===== *)
(** The chat protocol. [samples/ChatClientConsole/packets.hpp] and
    [samples/ChatClient/packets.hpp] declare the same ids, structs and member lists. *)
From S2P Require Import Prelude Endian Writer Reader Headers Utf Strings Formatter Collections Objects.

(** ** The protocol ([packets.hpp]) *)

Inductive PacketId :=
  | LoginRequestId | LoginResponseId | RoomJoinRequestId | RoomJoinResponseId
  | RoomChatId | PrivateChatId | UserEnteredId | UserLeftId.

Definition packet_id (p : PacketId) : Z :=
  match p with
  | LoginRequestId => 101
  | LoginResponseId => 102
  | RoomJoinRequestId => 103
  | RoomJoinResponseId => 104
  | RoomChatId => 105
  | PrivateChatId => 106
  | UserEnteredId => 107
  | UserLeftId => 108
  end.

Record LoginRequest := MkLoginRequest { lrq_username : string }.
Record LoginResponse := MkLoginResponse { lrs_success : prim Bool_t; lrs_message : string }.
Record RoomJoinRequest := MkRoomJoinRequest { jrq_roomName : string }.
Record RoomJoinResponse := MkRoomJoinResponse { jrs_success : prim Bool_t; jrs_existingUsers : vector string }.
Record RoomChat := MkRoomChat { rc_senderName : string; rc_message : string }.
Record PrivateChat := MkPrivateChat { pc_senderName : string; pc_targetName : string; pc_message : string }.
Record UserEntered := MkUserEntered { ue_username : string }.
Record UserLeft := MkUserLeft { ul_username : string }.

Section Protocol.
Context `{Platform}.

Definition lrq_username_m : member LoginRequest := Member string lrq_username (λ x _, MkLoginRequest x).
#[global] Instance LoginRequest_members : Members LoginRequest := {
  default_value := MkLoginRequest (Str []); members := [lrq_username_m] }.

Definition lrs_success_m : member LoginResponse := Member (prim Bool_t) lrs_success (λ x v, MkLoginResponse x (lrs_message v)).
Definition lrs_message_m : member LoginResponse := Member string lrs_message (λ x v, MkLoginResponse (lrs_success v) x).
#[global] Instance LoginResponse_members : Members LoginResponse := {
  default_value := MkLoginResponse (Prim 0) (Str []); members := [lrs_success_m; lrs_message_m] }.

Definition jrq_roomName_m : member RoomJoinRequest := Member string jrq_roomName (λ x _, MkRoomJoinRequest x).
#[global] Instance RoomJoinRequest_members : Members RoomJoinRequest := {
  default_value := MkRoomJoinRequest (Str []); members := [jrq_roomName_m] }.

Definition jrs_success_m : member RoomJoinResponse :=
  Member (prim Bool_t) jrs_success (λ x v, MkRoomJoinResponse x (jrs_existingUsers v)).
Definition jrs_existingUsers_m : member RoomJoinResponse :=
  Member (vector string) jrs_existingUsers (λ x v, MkRoomJoinResponse (jrs_success v) x).
#[global] Instance RoomJoinResponse_members : Members RoomJoinResponse := {
  default_value := MkRoomJoinResponse (Prim 0) (Vector []); members := [jrs_success_m; jrs_existingUsers_m] }.

Definition rc_senderName_m : member RoomChat := Member string rc_senderName (λ x v, MkRoomChat x (rc_message v)).
Definition rc_message_m : member RoomChat := Member string rc_message (λ x v, MkRoomChat (rc_senderName v) x).
#[global] Instance RoomChat_members : Members RoomChat := {
  default_value := MkRoomChat (Str []) (Str []); members := [rc_senderName_m; rc_message_m] }.

Definition pc_senderName_m : member PrivateChat :=
  Member string pc_senderName (λ x v, MkPrivateChat x (pc_targetName v) (pc_message v)).
Definition pc_targetName_m : member PrivateChat :=
  Member string pc_targetName (λ x v, MkPrivateChat (pc_senderName v) x (pc_message v)).
Definition pc_message_m : member PrivateChat :=
  Member string pc_message (λ x v, MkPrivateChat (pc_senderName v) (pc_targetName v) x).
#[global] Instance PrivateChat_members : Members PrivateChat := {
  default_value := MkPrivateChat (Str []) (Str []) (Str []); members := [pc_senderName_m; pc_targetName_m; pc_message_m] }.

Definition ue_username_m : member UserEntered := Member string ue_username (λ x _, MkUserEntered x).
#[global] Instance UserEntered_members : Members UserEntered := {
  default_value := MkUserEntered (Str []); members := [ue_username_m] }.

Definition ul_username_m : member UserLeft := Member string ul_username (λ x _, MkUserLeft x).
#[global] Instance UserLeft_members : Members UserLeft := {
  default_value := MkUserLeft (Str []); members := [ul_username_m] }.
End Protocol.

Section ProtocolLaws.
Context `{Platform}.

#[global] Instance LoginRequest_laws : MembersLaws LoginRequest := {
  specs := [MemberSpec lrq_username_m];
  specs_members := eq_refl; specs_count := ltac:(done); specs_rebuild := ltac:(by intros [] []) }.
#[global] Instance LoginResponse_laws : MembersLaws LoginResponse := {
  specs := [MemberSpec lrs_success_m; MemberSpec lrs_message_m];
  specs_members := eq_refl; specs_count := ltac:(done); specs_rebuild := ltac:(by intros [] []) }.
#[global] Instance RoomJoinRequest_laws : MembersLaws RoomJoinRequest := {
  specs := [MemberSpec jrq_roomName_m];
  specs_members := eq_refl; specs_count := ltac:(done); specs_rebuild := ltac:(by intros [] []) }.
#[global] Instance RoomJoinResponse_laws : MembersLaws RoomJoinResponse := {
  specs := [MemberSpec jrs_success_m; MemberSpec jrs_existingUsers_m];
  specs_members := eq_refl; specs_count := ltac:(done); specs_rebuild := ltac:(by intros [] []) }.
#[global] Instance RoomChat_laws : MembersLaws RoomChat := {
  specs := [MemberSpec rc_senderName_m; MemberSpec rc_message_m];
  specs_members := eq_refl; specs_count := ltac:(done); specs_rebuild := ltac:(by intros [] []) }.
#[global] Instance PrivateChat_laws : MembersLaws PrivateChat := {
  specs := [MemberSpec pc_senderName_m; MemberSpec pc_targetName_m; MemberSpec pc_message_m];
  specs_members := eq_refl; specs_count := ltac:(done); specs_rebuild := ltac:(by intros [] []) }.
#[global] Instance UserEntered_laws : MembersLaws UserEntered := {
  specs := [MemberSpec ue_username_m];
  specs_members := eq_refl; specs_count := ltac:(done); specs_rebuild := ltac:(by intros [] []) }.
#[global] Instance UserLeft_laws : MembersLaws UserLeft := {
  specs := [MemberSpec ul_username_m];
  specs_members := eq_refl; specs_count := ltac:(done); specs_rebuild := ltac:(by intros [] []) }.
End ProtocolLaws.
