(* ===== verification/ChatConsole.v ===== *)
(** The console chat client ([samples/ChatClientConsole/main.cpp]): the text helpers,
    the class [ChatClient] (sending, and the receive thread that prints what arrives) and
    the command loop of the main thread.

    Lines are printed as the bytes of their text. *)
From stdpp Require Import strings.
From S2P Require Import Prelude Endian Writer Reader Headers Utf Strings Formatter Collections Objects Decoded Api Packet Text Net ChatProtocol.

(** ** Constants and text helpers ([main.cpp]) *)

Definition DEFAULT_HOST : list Z := literal "127.0.0.1".
Definition DEFAULT_PORT : Z := 25002.
Definition DEFAULT_ROOM : list Z := literal "lobby".
Definition MAX_BODY_LENGTH : Z := 64 * 1024.

Definition MakeReaderLimits : ReaderOptions :=
  {| maxCollectionLength := 1024; maxStringLength := 4096; maxDepth := 8 |}.

Definition SPACE : Z := 32.
Definition TAB : Z := 9.
Definition CR : Z := 13.

(** The two loops of [Trim]: over the front, and over the (reversed) back. *)
Fixpoint trim_front (text : list Z) : list Z :=
  match text with
  | c :: text' => if (c =? SPACE) || (c =? TAB) then trim_front text' else text
  | [] => []
  end.

Fixpoint trim_back (reversed : list Z) : list Z :=
  match reversed with
  | c :: text' => if (c =? SPACE) || (c =? TAB) || (c =? CR) then trim_back text' else reversed
  | [] => []
  end.

Definition Trim (text : list Z) : list Z := reverse (trim_back (reverse (trim_front text))).

Definition StartsWith (text prefix : list Z) : bool :=
  (zlen text >=? zlen prefix) && bool_decide (take (length prefix) text = prefix).

(** [text.find(c)]. *)
Fixpoint find_char (c : Z) (text : list Z) : option nat :=
  match text with
  | [] => None
  | d :: text' => if d =? c then Some 0%nat else S <$> find_char c text'
  end.

(** ** [ChatClient] *)

(** The members both threads use, the socket and the mutexes apart. *)
Record ChatClient := MkChatClient {
  running_ : bool;
  sendBuffer_ : list Z;
}.

Definition set_running (b : bool) (c : ChatClient) : ChatClient := MkChatClient b (sendBuffer_ c).

Abbreviation system := (world (list Z)).
Abbreviation C := (M (ChatClient * system)).

Section Operations.
Context `{Platform, System}.

Definition Print_ (line : list Z) : C unit := on_snd (Log line).

Definition SendAll (data : list Z) (length : Z) : C bool := on_snd (send_loop (Z.to_nat length) data length 0).

Definition Send {T} `{MemoryPackFormatter T} (id : PacketId) (body : T) : C bool := λ s,
  match WritePacket [] (packet_id id) body with
  | (Ret _, buffer) => SendAll buffer (zlen buffer) (MkChatClient (running_ s.1) buffer, s.2)
  | (Throw e off, buffer) => (Throw e off, (MkChatClient (running_ s.1) buffer, s.2))
  | (UB, buffer) => (UB, s)
  end.

(** *** The receive thread *)

Definition DecodeBody (T : Type) `{MemoryPackFormatter T} (body : list Z) : C (option T) :=
  match ReadInto value_init (NewReader body MakeReaderLimits) with
  | (UB, _) => undefined
  | (Throw _ _, _) => Print_ (literal "[error] malformed packet body") ;; mret None
  | (Ret out, reader) =>
      if Failed reader then
        Print_ (literal "[error] decode failed: " ++ ToString (error_ reader)) ;; mret None
      else mret (Some out)
  end.

(** [if (!DecodeBody(body, packet)) return; ...]. *)
Definition with_body (T : Type) `{MemoryPackFormatter T} (body : list Z) (k : T → C unit) : C unit :=
  packet ← DecodeBody T body;
  match packet with Some packet => k packet | None => mret tt end.

(** The names joined by commas. *)
Fixpoint join_names (users : list string) : list Z :=
  match users with
  | [] => []
  | [u] => bytes_of u
  | u :: users' => bytes_of u ++ literal ", " ++ join_names users'
  end.

Definition HandlePacket (rawId : Z) (body : list Z) : C unit :=
  if rawId =? packet_id LoginResponseId then
    with_body LoginResponse body (λ packet,
      Print_ (if negb (pval (lrs_success packet) =? 0) then literal "[system] logged in"
              else literal "[system] login rejected: " ++ bytes_of (lrs_message packet)) ;;
      if pval (lrs_success packet) =? 0 then modify (λ s, (set_running false s.1, s.2)) else mret tt)
  else if rawId =? packet_id RoomJoinResponseId then
    with_body RoomJoinResponse body (λ packet,
      let users := elements (jrs_existingUsers packet) in
      Print_ (literal "[system] joined the room. Already here: " ++
              (if bool_decide (users = []) then literal "(nobody)" else join_names users)))
  else if rawId =? packet_id RoomChatId then
    with_body RoomChat body (λ packet,
      Print_ (literal "<" ++ bytes_of (rc_senderName packet) ++ literal "> " ++ bytes_of (rc_message packet)))
  else if rawId =? packet_id PrivateChatId then
    with_body PrivateChat body (λ packet,
      Print_ (literal "*" ++ bytes_of (pc_senderName packet) ++ literal " -> " ++ bytes_of (pc_targetName packet) ++
              literal "* " ++ bytes_of (pc_message packet)))
  else if rawId =? packet_id UserEnteredId then
    with_body UserEntered body (λ packet, Print_ (literal "[system] " ++ bytes_of (ue_username packet) ++ literal " entered the room"))
  else if rawId =? packet_id UserLeftId then
    with_body UserLeft body (λ packet, Print_ (literal "[system] " ++ bytes_of (ul_username packet) ++ literal " left the room"))
  else Print_ (literal "[warn] ignoring unexpected packet id " ++ to_string rawId).

(** One round of the loop of [ReceiveLoop]: whether the loop goes on. *)
Definition receive_round : M (PacketFrameParser * (ChatClient * system)) bool :=
  running ← gets (λ s, running_ s.2.1);
  if running : bool then
    r ← on_snd (on_snd (recv 4096));
    if r.1 <=? 0 then mret false else
    ok ← Feed r.2 HandlePacket;
    if ok : bool then mret true
    else on_snd (Print_ (literal "[error] the server sent a frame that violates the protocol limits")) ;; mret false
  else mret false.

(** The end of [ReceiveLoop]. *)
Definition receive_end : C unit :=
  was_running ← gets (λ s, running_ s.1);
  modify (λ s, (set_running false s.1, s.2)) ;;
  if was_running : bool then Print_ (literal "[system] the connection was closed. Press Enter to exit.") else mret tt.

Fixpoint receive_loop (fuel : nat) : M (PacketFrameParser * (ChatClient * system)) unit :=
  match fuel with
  | O => undefined
  | S fuel' => go_on ← receive_round; if go_on : bool then receive_loop fuel' else on_snd receive_end
  end.

(** Every round takes at least one byte off what the server sends. *)
Definition ReceiveLoop : M (PacketFrameParser * (ChatClient * system)) unit :=
  n ← gets (λ s, length (incoming s.2.2));
  receive_loop (S n).

(** *** The main thread *)

(** One round of the command loop on a line from the console: whether the loop goes on. *)
Definition process_line (username line : list Z) : C bool :=
  let line := Trim line in
  if bool_decide (line = []) then mret true
  else if bool_decide (line = literal "/quit") then mret false
  else if bool_decide (line = literal "/join") || StartsWith line (literal "/join ") then
    let target := Trim (drop 5 line) in
    if bool_decide (target = []) then Print_ (literal "[system] usage: /join <room>") ;; mret true
    else Send RoomJoinRequestId (MkRoomJoinRequest (Str target)) ;; mret true
  else if StartsWith line (literal "/w ") then
    let rest := Trim (drop 3 line) in
    match find_char SPACE rest with
    | None => Print_ (literal "[system] usage: /w <user> <message>") ;; mret true
    | Some space =>
        let whisper := MkPrivateChat (Str username) (Str (take space rest)) (Str (Trim (drop (S space) rest))) in
        if bool_decide (bytes_of (pc_message whisper) = []) then
          Print_ (literal "[system] usage: /w <user> <message>") ;; mret true
        else Send PrivateChatId whisper ;; mret true
    end
  else Send RoomChatId (MkRoomChat (Str username) (Str line)) ;; mret true.

(** What [main] does once connected, before the command loop. *)
Definition send_login (username host : list Z) (port : Z) : C unit :=
  Print_ (literal "[system] connected to " ++ host ++ literal ":" ++ to_string port) ;;
  Send LoginRequestId (MkLoginRequest (Str username)) ;;
  mret tt.

Definition send_room (room : list Z) : C unit :=
  Send RoomJoinRequestId (MkRoomJoinRequest (Str room)) ;;
  Print_ (literal "[system] commands: /w <user> <message> | /join <room> | /quit").

(** [Stop] up to the [join] of the receive thread, and after it. *)
Definition stop_begin : C bool :=
  was_running ← gets (λ s, running_ s.1);
  modify (λ s, (set_running false s.1, s.2)) ;;
  mret was_running.

Definition stop_end (was_running : bool) : C unit :=
  if was_running then Print_ (literal "[system] disconnected") else mret tt.
End Operations.

(** The start of [main]: user, room, host and port from the arguments; the port is what
    [strtol] made of its argument. *)
Definition argument_names (args : list (list Z)) : list Z * list Z * list Z :=
  (Trim (default [] (args !! 0%nat)), Trim (default [] (args !! 1%nat)), default DEFAULT_HOST (Trim <$> args !! 2%nat)).

Definition chosen_port (parsed : option Z) : option Z :=
  match parsed with
  | None => Some DEFAULT_PORT
  | Some parsed => if (parsed <=? 0) || (parsed >? 65535) then None else Some (to_unsigned 2 parsed)
  end.

(** [Ask]: the next line of the console, trimmed; nothing at its end. *)
Definition Ask (input : list (list Z)) : list Z * list (list Z) :=
  match input with
  | [] => ([], [])
  | line :: input' => (Trim line, input')
  end.

(** User and room are asked for when they are missing, and the rest of the input is left;
    [None] when there is no user. *)
Definition choose_names (args input : list (list Z)) : option (list Z * list Z * list Z * list (list Z)) :=
  let '(username, room, host) := argument_names args in
  let '(username, input) := if bool_decide (username = []) then Ask input else (username, input) in
  if bool_decide (username = []) then None else
  let '(room, input) := if bool_decide (room = []) then Ask input else (room, input) in
  let room := if bool_decide (room = []) then DEFAULT_ROOM else room in
  Some (username, room, host, input).

(** ** The two threads

    The receive thread and the main thread share [ChatClient], the connection and the
    console. Their steps interleave: a round of the receive loop, its end, and on the main
    thread each [Send] before the loop, each round of the command loop, the two halves of
    [Stop]. Each step uses one direction of the socket, and prints under the mutex. *)
Inductive main_pc :=
  | SendingLogin (lines : list (list Z))
  | SendingRoom (lines : list (list Z))
  | Commanding (lines : list (list Z))
  | Joining (was_running : bool)
  | Exited.

(** [receiver] is the parser of the receive thread until that thread has ended. *)
Record threads := Threads {
  shared : ChatClient * system;
  receiver : option PacketFrameParser;
  main_thread : main_pc;
}.

Section Threads.
Context `{Platform, System} (username room host : list Z) (port : Z).

Inductive chat_step : threads → threads → Prop :=
  | step_receive s p m p' s' : receive_round (p, s) = (Ret true, (p', s')) →
      chat_step (Threads s (Some p) m) (Threads s' (Some p') m)
  | step_receive_end s p m p' s1 s' : receive_round (p, s) = (Ret false, (p', s1)) → receive_end s1 = (Ret tt, s') →
      chat_step (Threads s (Some p) m) (Threads s' None m)
  | step_login s r lines s' : send_login username host port s = (Ret tt, s') →
      chat_step (Threads s r (SendingLogin lines)) (Threads s' r (SendingRoom lines))
  | step_room s r lines s' : send_room room s = (Ret tt, s') →
      chat_step (Threads s r (SendingRoom lines)) (Threads s' r (Commanding lines))
  | step_line s r line lines s' : running_ s.1 = true → process_line username line s = (Ret true, s') →
      chat_step (Threads s r (Commanding (line :: lines))) (Threads s' r (Commanding lines))
  | step_quit s r line lines s1 b s' : running_ s.1 = true → process_line username line s = (Ret false, s1) →
      stop_begin s1 = (Ret b, s') →
      chat_step (Threads s r (Commanding (line :: lines))) (Threads s' r (Joining b))
  | step_leave s r lines b s' : running_ s.1 = false ∨ lines = [] → stop_begin s = (Ret b, s') →
      chat_step (Threads s r (Commanding lines)) (Threads s' r (Joining b))
  | step_join s b s' : stop_end b s = (Ret tt, s') →
      chat_step (Threads s None (Joining b)) (Threads s' None Exited).

(** Right after [Connect] succeeded; [lines] is what the user will type. *)
Definition started (bytes : list Z) (lines : list (list Z)) : threads :=
  Threads (MkChatClient true [], connected bytes) (Some (NewParser MAX_BODY_LENGTH)) (SendingLogin lines).
End Threads.

(** A line and what it sends. *)
Section Example.
#[local] Existing Instances host64 slow_system.

Definition idle_client : ChatClient := MkChatClient true [].

Example whisper_sent :
  outgoing (process_line [97] (literal " /w bob  hi there ") (idle_client, connected [])).2.2 =
  [106; 0; 37; 0; 0; 0; 3; 254; 255; 255; 255; 1; 0; 0; 0; 97; 252; 255; 255; 255; 3; 0; 0; 0] ++ literal "bob" ++
  [247; 255; 255; 255; 8; 0; 0; 0] ++ literal "hi there".
Proof. vm_compute. reflexivity. Qed.
End Example.
