(* ===== verification/ChatTheorems.v ===== *)
(** What the console chat client does: its text helpers, what each console line sends,
    its reaction to whatever the server sends, and the interleavings of its two threads. *)
From stdpp Require Import strings relations.
From S2P Require Import Prelude Endian Writer Reader Headers Utf Strings Formatter Collections Objects Decoded Api Packet Text Net ChatProtocol ChatConsole.


(** ** Text *)

Definition blank (c : Z) : Prop := c = SPACE ∨ c = TAB.

Lemma trim_front_spec text : ∃ pre, text = pre ++ trim_front text ∧ Forall blank pre ∧
  (∀ c rest, trim_front text = c :: rest → ¬ blank c).
Proof.
  induction text as [|c text (pre & E & Hp & Hh)]; [by exists []|]. cbn [trim_front].
  destruct ((c =? SPACE) || (c =? TAB)) eqn:Eb.
  - exists (c :: pre). rewrite <-app_comm_cons, <-E. split; [done|]. split; [|done]. constructor; [|done].
    apply orb_true_iff in Eb as [Eb|Eb]; apply Z.eqb_eq in Eb; [by left|by right].
  - exists []. split; [done|]. split; [done|]. intros d rest [= <- _] [-> | ->]; by vm_compute in Eb.
Qed.

Lemma trim_back_spec text : ∃ pre, text = pre ++ trim_back text ∧ Forall (λ c, blank c ∨ c = CR) pre ∧
  (∀ c rest, trim_back text = c :: rest → ¬ blank c ∧ c ≠ CR).
Proof.
  induction text as [|c text (pre & E & Hp & Hh)]; [by exists []|]. cbn [trim_back].
  destruct ((c =? SPACE) || (c =? TAB) || (c =? CR)) eqn:Eb.
  - exists (c :: pre). rewrite <-app_comm_cons, <-E. split; [done|]. split; [|done]. constructor; [|done].
    rewrite !orb_true_iff, !Z.eqb_eq in Eb. unfold blank. tauto.
  - exists []. split; [done|]. split; [done|]. rewrite !orb_false_iff, !Z.eqb_neq in Eb. unfold blank.
    intros d rest [= <- _]. tauto.
Qed.

(** A text [Trim] leaves alone: it starts and ends with something visible. *)
Definition trimmed (text : list Z) : Prop :=
  (∀ c rest, text = c :: rest → ¬ blank c) ∧ (∀ c rest, text = rest ++ [c] → ¬ blank c ∧ c ≠ CR).

Lemma Trim_spec text : ∃ pre post, text = pre ++ Trim text ++ post ∧ Forall blank pre ∧
  Forall (λ c, blank c ∨ c = CR) post ∧ trimmed (Trim text).
Proof.
  destruct (trim_front_spec text) as (pre & E & Hp & Hh).
  destruct (trim_back_spec (reverse (trim_front text))) as (post & E2 & Hp2 & Hh2).
  assert (E3 : trim_front text = Trim text ++ reverse post).
  { unfold Trim. rewrite <-reverse_app, <-E2. by rewrite reverse_involutive. }
  exists pre, (reverse post). rewrite <-E3. split; [done|]. split; [done|]. split; [by apply Forall_reverse|]. split.
  - intros c rest Ec. rewrite Ec in E3. by apply (Hh c (rest ++ reverse post)).
  - intros c rest Ec. apply (Hh2 c (reverse rest)). unfold Trim in Ec.
    apply (f_equal reverse) in Ec. by rewrite reverse_involutive, reverse_app in Ec.
Qed.

Lemma Trim_sub (P : Z → Prop) text : Forall P text → Forall P (Trim text) ∧ zlen (Trim text) ≤ zlen text.
Proof.
  destruct (Trim_spec text) as (pre & post & E & _). intros HP. split; [|rewrite E at 2; zlia].
  rewrite E in HP. apply Forall_app in HP as [_ HP]. by apply Forall_app in HP as [HP _].
Qed.

Lemma find_char_spec c text : match find_char c text with
  | Some n => ∃ rest, text = take n text ++ c :: rest ∧ drop (S n) text = rest ∧ c ∉ take n text
  | None => c ∉ text
  end.
Proof.
  induction text as [|d text IH]; cbn [find_char]; [by apply not_elem_of_nil|].
  destruct (Z.eqb_spec d c) as [->|Hd]; [exists text; split; [done|]; split; [by rewrite skipn_cons|apply not_elem_of_nil]|].
  destruct (find_char c text) as [n|]; cbn [fmap option_fmap option_map].
  - destruct IH as (rest & E & Er & Hn). exists rest. cbn [take]. rewrite <-app_comm_cons, <-E. split; [done|].
    split; [done|]. rewrite not_elem_of_cons. by split.
  - rewrite not_elem_of_cons. by split.
Qed.

(** ** What a console line sends *)

Inductive chat_request :=
  | LoginReq (username : list Z)
  | JoinReq (room : list Z)
  | WhisperReq (target message : list Z)
  | SayReq (message : list Z).

Section Commands.
Context `{Platform, System, !SystemLaws}.
Implicit Types s : ChatClient * system.

(** The packet of a request made by [username]. *)
Definition chat_packet (username : list Z) (q : chat_request) : packet :=
  match q with
  | LoginReq name => (packet_id LoginRequestId, enc (MkLoginRequest (Str name)))
  | JoinReq room => (packet_id RoomJoinRequestId, enc (MkRoomJoinRequest (Str room)))
  | WhisperReq target message => (packet_id PrivateChatId, enc (MkPrivateChat (Str username) (Str target) (Str message)))
  | SayReq message => (packet_id RoomChatId, enc (MkRoomChat (Str username) (Str message)))
  end.

(** Requests the client makes: nothing empty, nothing with blanks around it, and a target
    that is one word. *)
Definition request_clean (q : chat_request) : Prop :=
  match q with
  | LoginReq _ => False
  | JoinReq room => room ≠ [] ∧ trimmed room
  | WhisperReq target message => target ≠ [] ∧ (SPACE ∉ target) ∧ message ≠ [] ∧ trimmed message
  | SayReq message => message ≠ [] ∧ trimmed message
  end.

(** Text that fits a string, however it is cut up. *)
Definition text_ok (text : list Z) : Prop := bytes_ok text ∧ zlen text < (2 ^ 27).

Lemma text_string_ok text : text_ok text → string_ok text ∧ zlen (enc_string text) ≤ 8 + 2 ^ 27.
Proof.
  intros [Hb Hl]. zlen_pos. split.
  - split; [done|]. split; [lia|]. rewrite utf16_length_count by done. pose proof (count_units_bound text 0). lia.
  - unfold enc_string. destruct (zlen text =? 0); rewrite ?zlen_app, !zlen_le_bytes; zlia.
Qed.

Lemma text_ok_Trim text : text_ok text → text_ok (Trim text).
Proof. intros [Hb Hl]. destruct (Trim_sub byte_ok text Hb) as [Hb' Hl']. split; [done|lia]. Qed.

Lemma text_ok_drop n text : text_ok text → text_ok (drop n text).
Proof. intros [Hb Hl]. split; [by apply Forall_drop|]. unfold zlen in *. rewrite length_drop. lia. Qed.

Lemma text_ok_take n text : text_ok text → text_ok (take n text).
Proof. intros [Hb Hl]. split; [by apply Forall_take|]. unfold zlen in *. rewrite length_take. lia. Qed.

(** What printing and sending may change. *)
Record acts (part : list Z) s s' : Prop := {
  act_running : running_ s'.1 = running_ s.1;
  act_in : incoming s'.2 = incoming s.2;
  act_out : outgoing s'.2 = outgoing s.2 ++ part;
  act_console : console s.2 `prefix_of` console s'.2;
}.

Lemma acts_refl s : acts [] s s.
Proof. split; rewrite ?app_nil_r; done. Qed.

Lemma acts_trans p1 p2 s1 s2 s3 : acts p1 s1 s2 → acts p2 s2 s3 → acts (p1 ++ p2) s1 s3.
Proof. intros [] []. split; [congruence|congruence|by rewrite app_assoc; congruence|by etrans]. Qed.

Lemma Print_acts line s : ∃ s', Print_ line s = (Ret tt, s') ∧ acts [] s s'.
Proof. eexists. split; [reflexivity|]. split; cbn; rewrite ?app_nil_r; [done..|]. by eexists. Qed.

(** [Send] puts one whole frame on the connection, or what of it the system takes. *)
Definition sends (m : C bool) (q : packet) s : Prop := ∃ ok part s', m s = (Ret ok, s') ∧ acts part s s' ∧
  part `prefix_of` frame_bytes q ∧ ((∀ k n, 0 < n → 0 < send_result k n) → part = frame_bytes q).

Lemma Send_spec {T} `{!MemoryPackFormatter T, !WireFormat T, !FormatterLaws T} pid (v : T) s :
  wf v → zlen (enc v) < 2 ^ 30 - 6 → sends (Send pid v) (packet_id pid, enc v) s.
Proof.
  intros Hv Hl. pose proof grow_limit_bounds. zlen_pos. unfold Send, sends.
  rewrite WritePacket_spec; [|done|by destruct pid|lia|change HeaderSize_ with 6; rewrite zlen_nil; lia].
  rewrite app_nil_l. set (frame := frame_bytes _).
  assert (Hfl : zlen frame < 2 ^ 31) by (unfold frame, frame_bytes; rewrite zlen_app, policy_write_size; change HeaderSize_ with 6; cbn [snd]; lia).
  unfold SendAll, on_snd. cbn [fst snd].
  destruct (send_loop_spec frame (Z.to_nat (zlen frame)) 0 s.2) as (ok & part & k & -> & Hp & Hiff & Hall);
    [zlia|done|unfold zlen; lia|]. cbn [Z.to_nat drop] in *.
  eexists ok, part, _. split; [reflexivity|]. split; [by split|]. split; [done|]. intros Hs. by apply Hiff, Hall.
Qed.

(** What one operation of the main thread puts on the connection: nothing, or one frame. *)
Definition sends_at_most (P : chat_request → Prop) (username : list Z) (m : C bool) s : Prop := ∃ go_on part s',
  m s = (Ret go_on, s') ∧ acts part s s' ∧
  (part = [] ∨ ∃ q, P q ∧ part `prefix_of` frame_bytes (chat_packet username q) ∧
     ((∀ k n, 0 < n → 0 < send_result k n) → part = frame_bytes (chat_packet username q))).

Lemma Send_request username q : text_ok username →
  match q with
  | LoginReq t | JoinReq t | SayReq t => text_ok t
  | WhisperReq t m => text_ok t ∧ text_ok m
  end → ∀ pid s, packet_id pid = (chat_packet username q).1 →
  sends (match q with
         | LoginReq t => Send pid (MkLoginRequest (Str t))
         | JoinReq t => Send pid (MkRoomJoinRequest (Str t))
         | WhisperReq t m => Send pid (MkPrivateChat (Str username) (Str t) (Str m))
         | SayReq t => Send pid (MkRoomChat (Str username) (Str t))
         end) (chat_packet username q) s.
Proof.
  intros Hu Hq pid s Hid. destruct (text_string_ok username Hu) as [Hu1 Hu2].
  replace (chat_packet username q) with (packet_id pid, (chat_packet username q).2) by (by rewrite Hid; destruct q).
  destruct q as [t|t|t m|t]; cbn [chat_packet snd].
  3: destruct Hq as [Ht Hm]; destruct (text_string_ok t Ht) as [Ht1 Ht2]; destruct (text_string_ok m Hm) as [Hm1 Hm2];
     apply (Send_spec pid (MkPrivateChat (Str username) (Str t) (Str m)));
     [|change (zlen (3 :: (enc_string username ++ enc_string t ++ enc_string m ++ [])) < 2 ^ 30 - 6); zlia].
  1, 2, 4: destruct (text_string_ok t Hq) as [Ht1 Ht2].
  1: apply (Send_spec pid (MkLoginRequest (Str t))); [|change (zlen (1 :: (enc_string t ++ [])) < 2 ^ 30 - 6); zlia].
  2: apply (Send_spec pid (MkRoomJoinRequest (Str t))); [|change (zlen (1 :: (enc_string t ++ [])) < 2 ^ 30 - 6); zlia].
  3: apply (Send_spec pid (MkRoomChat (Str username) (Str t)));
     [|change (zlen (2 :: (enc_string username ++ enc_string t ++ [])) < 2 ^ 30 - 6); zlia].
  all: intros sp Hin; apply list_elem_of_In in Hin; cbn in Hin;
    repeat match type of Hin with _ ∨ _ => destruct Hin as [<-|Hin] end; done.
Qed.

(** A command that prints and goes on. *)
Lemma usage_at_most P username text s : sends_at_most P username (Print_ text ;; mret true) s.
Proof.
  destruct (Print_acts text s) as (s' & E & A). exists true, [], s'. unfold mbind, M_bind. rewrite E.
  split; [done|]. split; [done|by left].
Qed.

(** A command that sends and goes on. *)
Lemma send_at_most {T} `{!MemoryPackFormatter T} P username q pid (v : T) s : P q →
  sends (Send pid v) (chat_packet username q) s → sends_at_most P username (Send pid v ;; mret true) s.
Proof.
  intros HP (ok & part & s' & E & A & Hp & Hall). exists true, part, s'. unfold mbind, M_bind. rewrite E.
  split; [done|]. split; [done|]. right. by exists q.
Qed.

(** The target of a whisper: the text before the first space of a trimmed text. *)
Lemma target_clean rest n more : trimmed rest → rest = take n rest ++ SPACE :: more → SPACE ∉ take n rest → take n rest ≠ [].
Proof.
  intros [Hfront _] E Hn Hnil. rewrite Hnil in E. apply (Hfront SPACE more E). by left.
Qed.

Lemma process_line_at_most username line s : text_ok username → text_ok line →
  sends_at_most request_clean username (process_line username line) s.
Proof.
  intros Hu Hl. unfold process_line. destruct (Trim_spec line) as (_ & _ & _ & _ & _ & Ht).
  pose proof (text_ok_Trim line Hl) as Hl'. set (l := Trim line) in *.
  assert (Hnone : ∀ b, sends_at_most request_clean username (mret b) s).
  { intros b. exists b, [], s. split; [done|]. split; [apply acts_refl|by left]. }
  case_bool_decide as Hne; [apply Hnone|]. case_bool_decide; [apply Hnone|]. destruct (_ || _).
  { destruct (Trim_spec (drop 5 l)) as (_ & _ & _ & _ & _ & Hr). set (room := Trim (drop 5 l)) in *.
    case_bool_decide; [apply usage_at_most|]. apply (send_at_most _ _ (JoinReq room)); [done|].
    apply (Send_request username (JoinReq room)); [done|by apply text_ok_Trim, text_ok_drop|done]. }
  destruct (StartsWith l _).
  { destruct (Trim_spec (drop 3 l)) as (_ & _ & _ & _ & _ & Hr).
    assert (Hro : text_ok (Trim (drop 3 l))) by by apply text_ok_Trim, text_ok_drop. set (rest := Trim (drop 3 l)) in *.
    pose proof (find_char_spec SPACE rest) as Hf. destruct (find_char SPACE rest) as [n|]; [|apply usage_at_most].
    destruct Hf as (more & E & _ & Hn). cbn [pc_message bytes_of].
    destruct (Trim_spec (drop (S n) rest)) as (_ & _ & _ & _ & _ & Hm).
    case_bool_decide as Hmne; [apply usage_at_most|]. set (message := Trim (drop (S n) rest)) in *.
    apply (send_at_most _ _ (WhisperReq (take n rest) message)).
    - split; [by eapply target_clean|]. by split.
    - apply (Send_request username (WhisperReq (take n rest) message)); [done| |done].
      split; [by apply text_ok_take|by apply text_ok_Trim, text_ok_drop]. }
  apply (send_at_most _ _ (SayReq l)); [done|]. by apply (Send_request username (SayReq l)).
Qed.

Lemma Trim_trimmed text : trimmed text → Trim text = text.
Proof.
  intros [Hf Hb]. destruct (Trim_spec text) as (pre & post & E & Hpre & Hpost & _). destruct pre as [|c pre].
  2: { apply Forall_cons in Hpre as [Hc _]. destruct (Hf c (pre ++ Trim text ++ post)); done. }
  destruct post as [|c post _] using rev_ind; [by rewrite app_nil_r in E|].
  apply Forall_app in Hpost as [_ Hc]. apply Forall_inv in Hc.
  destruct (Hb c (Trim text ++ post)) as [Hb1 Hb2]; [rewrite <-app_assoc; exact E|]. by destruct Hc.
Qed.

Lemma find_char_at c (pre post : list Z) : c ∉ pre → find_char c (pre ++ c :: post) = Some (length pre).
Proof.
  induction pre as [|d pre IH]; intros Hn; cbn; [by rewrite Z.eqb_refl|]. apply not_elem_of_cons in Hn as [Hd Hn].
  destruct (Z.eqb_spec d c); [done|]. by rewrite IH.
Qed.

(** The line "/w target message". *)
Definition whisper_line (target message : list Z) : list Z := literal "/w " ++ target ++ SPACE :: message.

Lemma process_whisper username line target message s :
  Trim line = whisper_line target message → trimmed target → target ≠ [] → SPACE ∉ target → trimmed message → message ≠ [] →
  process_line username line s = (Send PrivateChatId (MkPrivateChat (Str username) (Str target) (Str message)) ;; mret true) s.
Proof.
  intros El Ht Htne Hts Hm Hmne.
  assert (Hrest : trimmed (target ++ SPACE :: message)).
  { split; [destruct target; [done|]; intros c rest [= <- _]; by eapply (proj1 Ht)|].
    intros c rest Ec. destruct message as [|d message _] using rev_ind; [done|].
    rewrite app_comm_cons, (app_assoc target) in Ec. apply app_inj_tail in Ec as [_ <-]. by eapply (proj2 Hm). }
  unfold process_line. rewrite El. change (drop 3 (whisper_line target message)) with (target ++ SPACE :: message).
  rewrite (Trim_trimmed _ Hrest), find_char_at by done.
  rewrite (bool_decide_false (whisper_line target message = [])) by done.
  rewrite (bool_decide_false (whisper_line target message = literal "/quit")) by done.
  rewrite (bool_decide_false (whisper_line target message = literal "/join")) by done.
  assert (Hj : StartsWith (whisper_line target message) (literal "/join ") = false).
  { unfold StartsWith. rewrite bool_decide_false by (intros E; by apply (f_equal (λ l, nth 1 l 0)) in E). apply andb_false_r. }
  assert (Hw : StartsWith (whisper_line target message) (literal "/w ") = true).
  { unfold StartsWith. rewrite bool_decide_true by done. unfold whisper_line. rewrite zlen_app.
    rewrite (proj2 (Z.geb_le _ _)) by zlia. done. }
  rewrite Hj, Hw. cbn [orb pc_message bytes_of]. rewrite take_app_length.
  replace (drop (S (length target)) (target ++ SPACE :: message)) with message.
  - rewrite (Trim_trimmed message) by done. by rewrite bool_decide_false.
  - rewrite (cons_middle SPACE), app_assoc, drop_app_length' by (rewrite length_app; cbn; lia). done.
Qed.

(** What a console line sends. Any line, whatever it contains, makes the client send
    nothing or exactly one frame, never an empty or untrimmed room, target or message and
    never a target of more than one word; sending does not throw and stays in its buffer.
    And the line "/w target message", with blanks around it, sends that message to that
    target in the name of the user. *)
Theorem process_line_sends username line s : text_ok username → text_ok line →
  sends_at_most request_clean username (process_line username line) s ∧
  ∀ target message, Trim line = whisper_line target message →
    trimmed target → target ≠ [] → SPACE ∉ target → trimmed message → message ≠ [] →
    ∃ part s', process_line username line s = (Ret true, s') ∧ acts part s s' ∧
      part `prefix_of` frame_bytes (chat_packet username (WhisperReq target message)) ∧
      ((∀ k n, 0 < n → 0 < send_result k n) → part = frame_bytes (chat_packet username (WhisperReq target message))).
Proof.
  intros Hu Hl. split; [by apply process_line_at_most|]. intros target message El Ht Htne Hts Hm Hmne.
  rewrite (process_whisper _ _ target message) by done. destruct (text_ok_Trim line Hl) as [Hb Hz].
  rewrite El in Hb, Hz. unfold whisper_line in Hb, Hz. change (SPACE :: message) with ([SPACE] ++ message) in *.
  apply Forall_app in Hb as [_ Hb]. apply Forall_app in Hb as [Hb1 Hb]. apply Forall_app in Hb as [_ Hb2].
  rewrite !zlen_app in Hz. zlen_pos.
  destruct (Send_request username (WhisperReq target message) Hu) with (pid := PrivateChatId) (s := s)
    as (ok & part & s' & E & A & Hp & Hall); [split; (split; [done|lia])|done|].
  exists part, s'. unfold mbind, M_bind. by rewrite E.
Qed.
End Commands.

(** ** The receive thread *)

Section Receiving.
Context `{Platform, System, !SystemLaws}.
Implicit Types s : ChatClient * system.

(** What a packet from the server may change: lines are printed, the client may stop. *)
Record reacts s s' : Prop := {
  rea_running : running_ s'.1 = true → running_ s.1 = true;
  rea_in : incoming s'.2 = incoming s.2;
  rea_out : outgoing s'.2 = outgoing s.2;
  rea_console : console s.2 `prefix_of` console s'.2;
}.

Lemma reacts_refl s : reacts s s.
Proof. by split. Qed.

#[global] Instance reacts_trans : Transitive reacts.
Proof. intros s1 s2 s3 [] []. split; [auto|congruence|congruence|by etrans]. Qed.

(** An operation of the receive thread that always returns. *)
Definition reactive (m : C unit) : Prop := ∀ s, ∃ s', m s = (Ret tt, s') ∧ reacts s s'.

Lemma reactive_Print line : reactive (Print_ line).
Proof. intros s. eexists. split; [reflexivity|]. split; cbn; [done..|]. by eexists. Qed.

Lemma reactive_ret : reactive (mret tt).
Proof. intros s. exists s. split; [done|apply reacts_refl]. Qed.

Lemma reactive_stop : reactive (modify (λ s, (set_running false s.1, s.2))).
Proof. intros s. eexists. split; [reflexivity|]. by split. Qed.

Lemma reactive_bind m m' : reactive m → reactive m' → reactive (m ;; m').
Proof.
  intros Hm Hm' s. destruct (Hm s) as (s1 & E1 & R1). destruct (Hm' s1) as (s2 & E2 & R2). exists s2.
  unfold mbind, M_bind. rewrite E1, E2. split; [done|]. by etrans.
Qed.

(** Decoding a body, whatever it holds: the value decoded, or a line. *)
Lemma reactive_with_body {T} `{!MemoryPackFormatter T, !WireFormat T, !FormatterLaws T} body (k : T → C unit) :
  bytes_ok body → zlen body < size_mod → (∀ v, reactive (k v)) → reactive (with_body T body k).
Proof.
  intros Hb Hsz Hk s. pose proof (law_safe (T := T) value_init _ (ready_ok _ _ _ (new_reader_ready MakeReaderLimits body eq_refl Hb Hsz))) as Hsafe.
  assert (Hp : ∀ line, ∃ s', (p ← (Print_ line ;; mret None); match p with Some p => k p | None => mret tt end) s = (Ret tt, s') ∧ reacts s s').
  { intros line. destruct (reactive_Print line s) as (s' & E & R). exists s'. unfold mbind, M_bind. rewrite E. done. }
  unfold with_body, DecodeBody. unfold safe_at, ReadInto in *. destruct (Deserialize value_init _) as [[v|e off|] r]; [|apply Hp|done].
  destruct (Failed r); [apply Hp|]. apply (Hk v).
Qed.

Lemma reactive_HandlePacket i body : bytes_ok body → zlen body < size_mod → reactive (HandlePacket i body).
Proof.
  intros Hb Hsz. unfold HandlePacket.
  repeat match goal with |- context [if ?b then _ else _] =>
    lazymatch b with Z.eqb _ _ => destruct b; [apply reactive_with_body; [done..|]; intros v|] end end; try apply reactive_Print.
  apply reactive_bind; [apply reactive_Print|]. destruct (_ =? 0); [apply reactive_stop|apply reactive_ret].
Qed.

Lemma deliver_reacts ps s : Forall (λ q : packet, bytes_ok q.2 ∧ zlen q.2 < size_mod) ps →
  ∃ s', deliver HandlePacket ps s = (Ret tt, s') ∧ reacts s s'.
Proof.
  intros Hps. revert s. induction Hps as [|q ps [Hb Hsz] _ IH]; intros s; [by apply reactive_ret|].
  destruct (reactive_HandlePacket q.1 q.2 Hb Hsz s) as (s1 & E1 & R1). destruct (IH s1) as (s2 & E2 & R2). exists s2.
  unfold deliver in *. cbn [mapM_]. unfold mbind at 1, M_bind at 1. rewrite E1, E2. split; [done|]. by etrans.
Qed.

(** The invariant of the receive thread. *)
Definition receiver_ok p (w : system) : Prop := parser_ok p ∧ maxBodyLength_ p = MAX_BODY_LENGTH ∧
  bytes_ok (incoming w) ∧ zlen (buffer_ p) + zlen (incoming w) < size_mod.

(** One round: it consumes input and goes on, or ends the loop. *)
Lemma receive_round_spec p s : receiver_ok p s.2 → ∃ go_on p' s' n, receive_round (p, s) = (Ret go_on, (p', s')) ∧
  receiver_ok p' s'.2 ∧ incoming s'.2 = drop n (incoming s.2) ∧ outgoing s'.2 = outgoing s.2 ∧
  (running_ s'.1 = true → running_ s.1 = true) ∧ console s.2 `prefix_of` console s'.2 ∧
  (go_on = true → (0 < n ≤ length (incoming s.2))%nat).
Proof.
  intros (Hp & Hmax & Hb & Hsz). unfold receive_round. unfold mbind at 1, M_bind at 1, gets. cbn [fst snd].
  assert (Hstay : ∃ go_on p' s' n, (Ret false, (p, s)) = (Ret go_on, (p', s')) ∧
    receiver_ok p' s'.2 ∧ incoming s'.2 = drop n (incoming s.2) ∧ outgoing s'.2 = outgoing s.2 ∧
    (running_ s'.1 = true → running_ s.1 = true) ∧ console s.2 `prefix_of` console s'.2 ∧
    (go_on = true → (0 < n ≤ length (incoming s.2))%nat)) by (by exists false, p, s, 0%nat).
  destruct (running_ s.1) eqn:Er; [|exact Hstay]. clear Hstay.
  unfold mbind at 1, M_bind at 1, on_snd at 1 2. cbn [fst snd].
  destruct (recv_spec 4096 s.2 ltac:(lia)) as (k & -> & Hk1 & Hk2 & _). cbn [fst snd].
  destruct (Z.leb_spec k 0) as [Hz|Hpos].
  { replace (Z.to_nat k) with 0%nat by lia. exists false, p, (s.1, after_recv 0 (S (recvs s.2)) s.2), 0%nat.
    split; [done|]. by split_and!. }
  set (chunk := take (Z.to_nat k) (incoming s.2)). set (s1 := (s.1, after_recv (Z.to_nat k) (S (recvs s.2)) s.2)).
  assert (Hc : bytes_ok chunk) by by apply Forall_take.
  assert (Hz : zlen chunk + zlen (incoming s1.2) = zlen (incoming s.2)).
  { unfold chunk, s1, zlen. cbn. rewrite length_take, length_drop. lia. }
  assert (Hn : 0 ≤ zlen (incoming s1.2)) by apply zlen_nonneg.
  destruct (decodes_total (maxBodyLength_ p) (pending p ++ chunk)) as (ps & r & ok & Hd).
  destruct (decodes_packets _ _ _ _ _ Hd) as [Hps _]; [by apply bytes_ok_app; [apply Forall_drop, Hp|]|].
  destruct (deliver_reacts ps s1) as (s2 & Hdel & R).
  { eapply Forall_impl; [exact Hps|]. intros q [Hq1 Hq2]. split; [done|]. pose proof size_mod_pos. rewrite Hmax in Hq2.
    unfold MAX_BODY_LENGTH in Hq2. lia. }
  destruct (Feed_returns HandlePacket chunk p s1 ps r ok s2 Hp Hc) as (p' & E & Hp' & Hmax' & Hle & _); [lia|done|done|].
  unfold mbind at 1, M_bind at 1. rewrite E. destruct R as [Ra Ri Ro Rc].
  assert (Hok : receiver_ok p' s2.2).
  { split; [done|]. split; [congruence|]. rewrite Ri. split; [by apply Forall_drop|lia]. }
  assert (Hnk : (0 < Z.to_nat k ≤ length (incoming s.2))%nat) by (unfold zlen in Hk2; lia).
  destruct ok; [exists true, p', s2, (Z.to_nat k); by split_and!|].
  destruct (reactive_Print (literal "[error] the server sent a frame that violates the protocol limits") s2) as (s3 & E3 & R3).
  exists false, p', s3, (Z.to_nat k). destruct R3 as [Ra3 Ri3 Ro3 Rc3]. unfold mbind, M_bind, on_snd. cbn [fst snd]. rewrite E3.
  split; [done|]. split; [unfold receiver_ok; by rewrite Ri3|]. split; [by rewrite Ri3, Ri|]. split; [by rewrite Ro3, Ro|]. split; [done|]. split; [by etrans|done].
Qed.

Lemma receive_loop_spec fuel : ∀ p s, receiver_ok p s.2 → (length (incoming s.2) < fuel)%nat →
  ∃ p' s', receive_loop fuel (p, s) = (Ret tt, (p', s')) ∧ running_ s'.1 = false ∧ outgoing s'.2 = outgoing s.2 ∧
    console s.2 `prefix_of` console s'.2.
Proof.
  induction fuel as [|fuel IH]; intros p s Hp Hf; [lia|]. cbn [receive_loop]. unfold mbind at 1, M_bind at 1.
  destruct (receive_round_spec p s Hp) as (go_on & p1 & s1 & n & -> & Hp1 & Hi & Ho & _ & Hc & Hgo). destruct go_on.
  - destruct (IH p1 s1 Hp1) as (p2 & s2 & -> & Hr & Ho2 & Hc2); [rewrite Hi, length_drop; specialize (Hgo eq_refl); lia|].
    exists p2, s2. split; [done|]. split; [done|]. split; [congruence|by etrans].
  - unfold on_snd, receive_end, mbind, M_bind, gets, modify. cbn [fst snd].
    destruct (running_ s1.1); [|by eexists _, _].
    destruct (reactive_Print (literal "[system] the connection was closed. Press Enter to exit.") (set_running false s1.1, s1.2))
      as (s2 & E2 & [Rr _ Ro Rc]). rewrite E2. exists p1, s2. split; [done|]. split; [|split; [by rewrite Ro|by etrans]].
    cbn in Rr. by destruct (running_ s2.1); [specialize (Rr eq_refl)|].
Qed.

(** C23: The client survives every server. Whatever bytes the server sends, however they
    are cut, the receive thread ends: no exception leaves it, nothing undefined happens;
    it has only printed, it has sent nothing, and when it is gone the client is marked as
    stopped, so that the command loop ends as well. *)
Theorem ReceiveLoop_any_server bytes buffer : bytes_ok bytes → zlen bytes < size_mod →
  ∃ p' s', ReceiveLoop (NewParser MAX_BODY_LENGTH, (MkChatClient true buffer, connected bytes)) = (Ret tt, (p', s')) ∧
    running_ s'.1 = false ∧ outgoing s'.2 = [].
Proof.
  intros Hb Hsz. destruct (receive_loop_spec (S (length bytes)) (NewParser MAX_BODY_LENGTH) (MkChatClient true buffer, connected bytes))
    as (p' & s' & E & Hr & Ho & _); [|cbn; lia|by exists p', s'].
  split; [apply NewParser_ok|]. by split.
Qed.
End Receiving.
