(* ===== verification/ChatThreads.v ===== *)
(** The interleavings of the threads of the console chat client: they all end, none gets
    stuck, and the frames sent are whole. *)
From stdpp Require Import strings relations.
From S2P Require Import Prelude Endian Writer Reader Headers Utf Strings Formatter Collections Objects Decoded Api Packet Text Net ChatProtocol ChatConsole ChatTheorems.

Section Threads.
Context `{Platform, System, !SystemLaws} (username room host : list Z) (port : Z).
Context (Huser : text_ok username) (Hroom : text_ok room) (Hroom_clean : request_clean (JoinReq room)).
Implicit Types st : threads.

Abbreviation step := (chat_step username room host port).

Definition own_request (q : chat_request) : Prop := request_clean q ∨ q = LoginReq username.

(** Whole frames of requests of this user. *)
Definition framed (bytes : list Z) : Prop :=
  ∃ qs, Forall own_request qs ∧ bytes = qs ≫= (λ q, frame_bytes (chat_packet username q)).

Definition lines_of (m : main_pc) : list (list Z) :=
  match m with SendingLogin l | SendingRoom l | Commanding l => l | _ => [] end.

(** The invariant of the threads. *)
Record threads_ok st : Prop := {
  th_receiver : ∀ p, receiver st = Some p → receiver_ok p (shared st).2;
  th_lines : Forall text_ok (lines_of (main_thread st));
  th_framed : (∀ k n, 0 < n → 0 < send_result k n) → framed (outgoing (shared st).2);
  th_exited : main_thread st = Exited → receiver st = None;
}.

(** Steps left at most. *)
Definition steps_left st : nat :=
  length (incoming (shared st).2) + (if receiver st is Some _ then 1 else 0) +
  match main_thread st with
  | SendingLogin lines => length lines + 4
  | SendingRoom lines => length lines + 3
  | Commanding lines => length lines + 2
  | Joining _ => 1
  | Exited => 0
  end.

Lemma framed_app bytes q : framed bytes → own_request q → framed (bytes ++ frame_bytes (chat_packet username q)).
Proof.
  intros (qs & Hqs & ->) Hq. exists (qs ++ [q]). split; [apply Forall_app; by split; [|apply Forall_singleton]|].
  rewrite bind_app. cbn. by rewrite app_nil_r.
Qed.

(** A step of the main thread: it leaves the input alone and sends at most a frame. *)
Definition main_act (s s' : ChatClient * system) : Prop := incoming s'.2 = incoming s.2 ∧
  ((∀ k n, 0 < n → 0 < send_result k n) → framed (outgoing s.2) → framed (outgoing s'.2)).

Lemma main_act_ok s r m s' m' : threads_ok (Threads s r m) → main_act s s' → Forall text_ok (lines_of m') → m' ≠ Exited →
  threads_ok (Threads s' r m').
Proof.
  intros [Hr Hl Hf He] [Hi Ho] Hl' Hne. split; cbn in *; [|done|auto|done].
  intros p ->. unfold receiver_ok. rewrite Hi. by apply Hr.
Qed.

Lemma at_most_act P m s : (∀ q, P q → own_request q) → sends_at_most P username m s →
  ∃ go_on s', m s = (Ret go_on, s') ∧ main_act s s' ∧ running_ s'.1 = running_ s.1.
Proof.
  intros HP (go_on & part & s' & E & [Ar Ai Ao _] & Hpart). exists go_on, s'. split; [done|]. split; [|done]. split; [done|].
  intros Hall Hf. rewrite Ao. destruct Hpart as [->|(q & Hq & _ & Hfull)]; [by rewrite app_nil_r|].
  rewrite Hfull by done. by apply framed_app; [|apply HP].
Qed.

(** Every operation of the main thread returns. *)
Lemma send_login_act s : ∃ s', send_login username host port s = (Ret tt, s') ∧ main_act s s'.
Proof.
  destruct (Print_acts (literal "[system] connected to " ++ host ++ literal ":" ++ to_string port) s) as (s1 & E1 & [_ Ai Ao _]).
  destruct (Send_request username (LoginReq username) Huser Huser LoginRequestId s1 eq_refl) as (ok & part & s2 & E2 & [_ Bi Bo _] & _ & Hfull).
  exists s2. unfold send_login, mbind, M_bind. rewrite E1, E2. split; [done|]. rewrite app_nil_r in Ao. split; [congruence|].
  intros Hall Hf. rewrite Bo, Ao, Hfull by done. apply framed_app; [done|by right].
Qed.

Lemma send_room_act s : ∃ s', send_room room s = (Ret tt, s') ∧ main_act s s'.
Proof.
  destruct (Send_request username (JoinReq room) Huser Hroom RoomJoinRequestId s eq_refl) as (ok & part & s1 & E1 & [_ Bi Bo _] & _ & Hfull).
  destruct (Print_acts (literal "[system] commands: /w <user> <message> | /join <room> | /quit") s1) as (s2 & E2 & [_ Ai Ao _]).
  exists s2. unfold send_room, mbind, M_bind. rewrite E1, E2. split; [done|]. rewrite app_nil_r in Ao. split; [congruence|].
  intros Hall Hf. rewrite Ao, Bo, Hfull by done. apply framed_app; [done|by left].
Qed.

Lemma line_act line s : text_ok line → ∃ go_on s', process_line username line s = (Ret go_on, s') ∧ main_act s s'.
Proof.
  intros Hl. destruct (at_most_act request_clean (process_line username line) s) as (go_on & s' & E & A & _);
    [by left|by apply process_line_at_most|by exists go_on, s'].
Qed.

Lemma stop_begin_act s : ∃ b s', stop_begin s = (Ret b, s') ∧ main_act s s'.
Proof. eexists _, _. split; [reflexivity|]. by split. Qed.

Lemma stop_end_act b s : ∃ s', stop_end b s = (Ret tt, s') ∧ main_act s s'.
Proof.
  destruct b; [|by exists s]. destruct (Print_acts (literal "[system] disconnected") s) as (s' & E & [_ Ai Ao _]).
  exists s'. split; [done|]. rewrite app_nil_r in Ao. split; [done|]. intros _ Hf. by rewrite Ao.
Qed.

Lemma receive_end_act s : ∃ s', receive_end s = (Ret tt, s') ∧ incoming s'.2 = incoming s.2 ∧ outgoing s'.2 = outgoing s.2.
Proof.
  unfold receive_end, mbind, M_bind, gets, modify. destruct (running_ s.1); [|by eexists]. eexists. by split.
Qed.

(** A step keeps the invariant and brings the end closer. *)
Lemma step_ok st st' : step st st' → threads_ok st → threads_ok st' ∧ (steps_left st' < steps_left st)%nat.
Proof.
  intros Hs Hok. destruct Hs as [s p m p' s' E|s p m p' s1 s' E E2|s r lines s' E|s r lines s' E|s r line lines s' Hr E|
    s r line lines s1 b s' Hr E E2|s r lines b s' Hr E|s b s' E]; destruct (Hok) as [Hrec Hl Hf He]; cbn in Hrec, Hl, Hf, He.
  - destruct (receive_round_spec p s (Hrec p eq_refl)) as (go_on & p1 & s2 & n & E1 & Hp & Hi & Ho & _ & _ & Hgo). rewrite E in E1.
    injection E1 as <- <- <-. specialize (Hgo eq_refl). split; [|unfold steps_left; cbn; rewrite Hi, length_drop; lia].
    split; cbn; [by intros ? [= <-]|done|by rewrite Ho|by intros ->; specialize (He eq_refl)].
  - destruct (receive_round_spec p s (Hrec p eq_refl)) as (go_on & p1 & s2 & n & E1 & _ & Hi & Ho & _). rewrite E in E1. injection E1 as <- <- <-.
    destruct (receive_end_act s1) as (s3 & E3 & Hi3 & Ho3). rewrite E2 in E3. injection E3 as <-.
    split; [|unfold steps_left; cbn; rewrite Hi3, Hi, length_drop; lia]. split; cbn; [done|done|by rewrite Ho3, Ho|done].
  - destruct (send_login_act s) as (s2 & E2 & A). rewrite E in E2. injection E2 as <-.
    split; [by eapply main_act_ok|unfold steps_left; cbn; rewrite (proj1 A); lia].
  - destruct (send_room_act s) as (s2 & E2 & A). rewrite E in E2. injection E2 as <-.
    split; [by eapply main_act_ok|unfold steps_left; cbn; rewrite (proj1 A); lia].
  - apply Forall_cons in Hl as [Hl1 Hl]. destruct (line_act line s Hl1) as (go_on & s2 & E2 & A). rewrite E in E2. injection E2 as <- <-.
    split; [by eapply main_act_ok|unfold steps_left; cbn; rewrite (proj1 A); lia].
  - apply Forall_cons in Hl as [Hl1 Hl]. destruct (line_act line s Hl1) as (go_on & s2 & E3 & A). rewrite E in E3. injection E3 as <- <-.
    injection E2 as <- <-. split; [|unfold steps_left; cbn; rewrite (proj1 A); lia].
    eapply (main_act_ok s); [done| |by apply Forall_nil_2|done]. by split; [apply A|intros; apply A].
  - injection E as <- <-. split; [|unfold steps_left; cbn; lia]. eapply (main_act_ok s); [done|by split|by apply Forall_nil_2|done].
  - destruct (stop_end_act b s) as (s2 & E2 & A). rewrite E in E2. injection E2 as <-.
    split; [|unfold steps_left; cbn; rewrite (proj1 A); lia]. split; cbn; [done|by apply Forall_nil_2|intros; by apply A; auto|done].
Qed.

(** A step is always possible, until both threads have ended. *)
Lemma step_possible st : threads_ok st → (receiver st = None ∧ main_thread st = Exited) ∨ ∃ st', step st st'.
Proof.
  destruct st as [s r m]. intros Hok. destruct (Hok) as [Hrec Hl Hf He]; cbn in Hrec, Hl, Hf, He. destruct r as [p|].
  { right. destruct (receive_round_spec p s (Hrec p eq_refl)) as ([] & p1 & s1 & n & E & _); [eexists; by eapply step_receive|].
    destruct (receive_end_act s1) as (s2 & E2 & _). eexists. by eapply step_receive_end. }
  destruct m as [lines|lines|lines|b|]; [| | | |by left]; right.
  - destruct (send_login_act s) as (s' & E & _). eexists. by eapply step_login.
  - destruct (send_room_act s) as (s' & E & _). eexists. by eapply step_room.
  - destruct (stop_begin_act s) as (b & s' & E & _). destruct (running_ s.1) eqn:Er; [|eexists; eapply step_leave; [by left|done]].
    destruct lines as [|line lines]; [eexists; eapply step_leave; [by right|done]|]. apply Forall_cons in Hl as [Hl1 Hl].
    destruct (line_act line s Hl1) as ([] & s1 & E1 & _); [eexists; by eapply step_line|].
    destruct (stop_begin_act s1) as (b1 & s2 & E2 & _). eexists. by eapply step_quit.
  - destruct (stop_end_act b s) as (s' & E & _). eexists. by eapply step_join.
Qed.

Lemma steps_ok n st st' : nsteps step n st st' → threads_ok st → threads_ok st' ∧ (n + steps_left st' ≤ steps_left st)%nat.
Proof.
  induction 1 as [st|n st1 st2 st3 Hs _ IH]; intros Hok; [done|]. destruct (step_ok _ _ Hs Hok) as [Hok2 Hlt].
  destruct (IH Hok2) as [Hok3 Hle]. split; [done|lia].
Qed.
End Threads.

(** ** The client as [main] starts it *)

Section Client.
Context `{Platform, System, !SystemLaws}.

Lemma default_room_clean : text_ok DEFAULT_ROOM ∧ trimmed DEFAULT_ROOM.
Proof.
  split; [split; [apply literal_ok|done]|]. split.
  - intros c rest E. vm_compute in E. injection E as <- _. by intros [?|?].
  - intros c rest E. apply (f_equal last) in E. rewrite last_snoc in E. vm_compute in E. injection E as <-.
    split; [by intros [?|?]|done].
Qed.

Lemma Trim_clean text : text_ok text → text_ok (Trim text) ∧ trimmed (Trim text).
Proof. intros Ht. split; [by apply text_ok_Trim|]. by destruct (Trim_spec text) as (_ & _ & _ & _ & _ & ?). Qed.

Lemma empty_text_ok : text_ok [].
Proof. by split; [apply Forall_nil_2|]. Qed.

Lemma Ask_clean input : Forall text_ok input → text_ok (Ask input).1 ∧ trimmed (Ask input).1 ∧ Forall text_ok (Ask input).2.
Proof.
  intros Hi. destruct input as [|line input].
  - split; [apply empty_text_ok|]. split; [|done]. by split; intros c [] E.
  - apply Forall_cons in Hi as [Hl Hi]. destruct (Trim_clean line Hl). by split_and!.
Qed.

Lemma arg_clean (args : list (list Z)) i : Forall text_ok args → text_ok (Trim (default [] (args !! i))) ∧ trimmed (Trim (default [] (args !! i))).
Proof.
  intros Ha. apply Trim_clean. destruct (args !! i) as [a|] eqn:E; [|apply empty_text_ok]. by eapply Forall_lookup_1.
Qed.

(** The names [main] settles on can be sent. *)
Lemma choose_names_clean args input username room host lines : Forall text_ok args → Forall text_ok input →
  choose_names args input = Some (username, room, host, lines) →
  text_ok username ∧ username ≠ [] ∧ text_ok room ∧ request_clean (JoinReq room) ∧ Forall text_ok lines.
Proof.
  intros Ha Hi. unfold choose_names, argument_names. destruct (arg_clean args 0 Ha) as [Hu _]. destruct (arg_clean args 1 Ha) as [Hr Hrt].
  set (u0 := Trim (default [] (args !! 0%nat))) in *. set (r0 := Trim (default [] (args !! 1%nat))) in *.
  destruct (if bool_decide (u0 = []) then Ask input else (u0, input)) as [u i1] eqn:Eu.
  assert (text_ok u ∧ Forall text_ok i1) as [Hu1 Hi1].
  { destruct (Ask_clean input Hi) as (? & _ & ?). case_bool_decide; [by rewrite Eu in *|by injection Eu as <- <-]. }
  destruct (decide (u = [])) as [Hnil|Hne]; [by rewrite (bool_decide_true (u = []))|rewrite (bool_decide_false (u = [])) by done].
  destruct (if bool_decide (r0 = []) then Ask i1 else (r0, i1)) as [r i2] eqn:Er.
  assert (text_ok r ∧ trimmed r ∧ Forall text_ok i2) as (Hr1 & Hrt1 & Hi2).
  { destruct (Ask_clean i1 Hi1) as (A1 & A2 & A3). case_bool_decide; [rewrite Er in A1, A2, A3; done|].
    injection Er as <- <-. done. }
  intros [= <- <- _ <-]. split; [exact Hu1|]. split; [exact Hne|]. destruct default_room_clean as [Hd Hdt].
  destruct (decide (r = [])) as [Hnil|Hrne]; [rewrite bool_decide_true by done|rewrite bool_decide_false by done].
  - by split; [|split].
  - by split; [|split].
Qed.

(** The client always comes to an end. However its two threads interleave, whatever
    the user types and the server sends, the number of steps is bounded by the bytes
    received and the lines typed, and until both threads have ended one of them can go on:
    neither the [join] of the receive thread nor anything else blocks for ever, and no
    step throws. On a connection that accepts everything, what has been sent at any moment
    is a sequence of whole frames, each a request in the name of the user. *)
Theorem chat_threads_finish args input username room host port bytes lines n st :
  choose_names args input = Some (username, room, host, lines) →
  Forall text_ok args → Forall text_ok input → bytes_ok bytes → zlen bytes < size_mod →
  nsteps (chat_step username room host port) n (started bytes lines) st →
  (n ≤ length bytes + length lines + 5)%nat ∧
  ((receiver st = None ∧ main_thread st = Exited) ∨ ∃ st', chat_step username room host port st st') ∧
  ((∀ k m, 0 < m → 0 < send_result k m) → framed username (outgoing (shared st).2)).
Proof.
  intros Hnames Ha Hi Hb Hsz Hsteps. destruct (choose_names_clean _ _ _ _ _ _ Ha Hi Hnames) as (Hu & _ & Hr & Hrc & Hl).
  assert (Hok : threads_ok username (started bytes lines)).
  { split; cbn; [|done|by exists []|done]. intros p [= <-]. split; [apply NewParser_ok|]. split; [done|]. by split. }
  destruct (steps_ok username room host port Hu Hr Hrc n _ st Hsteps Hok) as [Hok' Hle]. unfold steps_left at 2 in Hle. cbn in Hle.
  split; [lia|]. split; [by apply step_possible|apply Hok'].
Qed.
End Client.

(** ** A concrete run *)

Section Witnesses.
#[local] Existing Instances host64 slow_system slow_system_laws.

Definition alice : list Z := literal "alice".

Lemma literal_text_ok s : zlen (literal s) < 2 ^ 27 → text_ok (literal s).
Proof. intros Hl. split; [apply literal_ok|done]. Qed.

(** Alice greets; the receive thread may already have seen the end of the stream. *)
Lemma chat_threads_finish_witness : ∃ st,
  nsteps (chat_step alice DEFAULT_ROOM DEFAULT_HOST 25002) 1 (started [] [literal "hello"]) st ∧
  ((receiver st = None ∧ main_thread st = Exited) ∨ ∃ st', chat_step alice DEFAULT_ROOM DEFAULT_HOST 25002 st st').
Proof.
  destruct (receive_round (NewParser MAX_BODY_LENGTH, (MkChatClient true [], connected []))) as [o [p s1]] eqn:E1.
  destruct (receive_end s1) as [o2 s2] eqn:E2.
  assert (Ho : o = Ret false ∧ o2 = Ret tt).
  { vm_compute in E1. injection E1 as <- <- <-. vm_compute in E2. by injection E2 as <- <-. }
  destruct Ho as [-> ->].
  assert (Hs : nsteps (chat_step alice DEFAULT_ROOM DEFAULT_HOST 25002) 1 (started [] [literal "hello"])
    (Threads s2 None (SendingLogin [literal "hello"]))).
  { eapply nsteps_l; [|apply nsteps_O]. by eapply step_receive_end. }
  exists (Threads s2 None (SendingLogin [literal "hello"])). split; [exact Hs|].
  apply (chat_threads_finish [alice] [[]; literal "hello"] alice DEFAULT_ROOM DEFAULT_HOST 25002 [] [literal "hello"] 1).
  - vm_compute. reflexivity.
  - apply Forall_singleton. by apply literal_text_ok.
  - apply Forall_cons. split; [apply empty_text_ok|]. apply Forall_singleton. by apply literal_text_ok.
  - by apply Forall_nil_2.
  - done.
  - exact Hs.
Defined.

Lemma process_line_sends_witness : ∃ part s', process_line alice (literal " /w bob  hi ") (idle_client, connected []) = (Ret true, s') ∧
  acts part (idle_client, connected []) s' ∧ part `prefix_of` frame_bytes (chat_packet alice (WhisperReq (literal "bob") (literal "hi"))).
Proof.
  destruct (process_line_sends alice (literal " /w bob  hi ") (idle_client, connected [])) as [[go_on (part & s' & E & A & Hp)] _];
    [by apply literal_text_ok..|].
  exists part, s'. vm_compute in E. injection E as <- <-. split; [done|]. split; [exact A|].
  destruct A as [_ _ Ao _]. vm_compute in Ao. subst part. eexists. vm_compute. reflexivity.
Defined.

Lemma ReceiveLoop_any_server_witness : ∃ p' s', ReceiveLoop (NewParser MAX_BODY_LENGTH, (MkChatClient true [], connected [102; 0; 255])) =
  (Ret tt, (p', s')) ∧ running_ s'.1 = false ∧ outgoing s'.2 = [].
Proof. apply (ReceiveLoop_any_server [102; 0; 255] []); [bytes_lit|done]. Defined.
End Witnesses.
