(* ===== verification/ChatMain.v ===== *)
(** The console chat client as a program ([samples/ChatClientConsole/main.cpp]): command
    line and prompts, [ChatClient::Connect] and [ChatClient::Stop], and the socket's life
    around the two threads of [ChatConsole].

    What is printed before the connection is in the trace of calls; what the threads print
    is the console of their [world]. *)
From stdpp Require Import strings.
From S2P Require Import Prelude Endian Text Net ChatConsole Sockets.

(** ** Before the threads *)

Section Setup.
Context `{Platform, SocketSystem}.

(** The trace, and the lines [std::getline] has still to read. *)
Abbreviation P := (M (trace * list (list Z))).

(** [Connect]: the socket that becomes [sock_] when it returns true. *)
Definition Connect (host : list Z) (port : Z) : M trace (option Z) :=
  sock ← socket;
  match sock with
  | None => print_line (literal "[error] failed to create a socket") ;; mret None
  | Some sock =>
      if negb (inet_pton host) then
        print_line (literal "[error] '" ++ host ++ literal "' is not a valid IPv4 address") ;;
        CLOSE_SOCKET sock ;; mret None
      else
        r ← connect sock host port;
        if negb (r =? 0) then
          print_line (literal "[error] could not connect to " ++ host ++ literal ":" ++ to_string port) ;;
          CLOSE_SOCKET sock ;; mret None
        else mret (Some sock)
  end.

(** The line [Ask] reads. *)
Definition read_trimmed : P (list Z) := λ s, let '(line, input) := Ask s.2 in (Ret line, (s.1, input)).

(** [Ask], with its prompt. *)
Definition prompted_Ask (prompt : list Z) : P (list Z) := on_fst (cout prompt) ;; read_trimmed.

(** What [main] has when [Connect] succeeded. *)
Record session := Session {
  s_sock : Z;
  s_username : list Z;
  s_room : list Z;
  s_host : list Z;
  s_port : Z;
}.

(** [main] up to [Connect]: nothing when it returns 1. *)
Definition chat_setup (args : list (list Z)) : P (option session) :=
  let '(username, room, host) := argument_names args in
  match chosen_port (strtol <$> args !! 3%nat) with
  | None => on_fst (cerr (literal "usage: ChatClientConsole [username] [room] [host] [port]" ++ [10])) ;; mret None
  | Some port =>
      started ← on_fst start_winsock;
      if negb started then mret None else
      username ← (if bool_decide (username = []) then prompted_Ask (literal "Username: ") else mret username);
      if bool_decide (username = []) then
        on_fst (cerr (literal "A username is required." ++ [10])) ;; mret None
      else
        room ← (if bool_decide (room = []) then prompted_Ask (literal "Room [lobby]: ") else mret room);
        let room := if bool_decide (room = []) then DEFAULT_ROOM else room in
        sock ← on_fst (Connect host port);
        match sock with
        | None => on_fst clean_winsock ;; mret None
        | Some sock => mret (Some (Session sock username room host port))
        end
  end.
End Setup.

(** ** The program

    [sock_] and the state of [receiveThread_] are members of [ChatClient] that only the
    main thread changes: [receiveThread_] is joinable until [Stop] has joined it. *)
Record program := Program {
  calls : trace;
  sock_ : option Z;
  joinable : bool;
  running : threads;
  exit_code : option Z;
}.

Section Program.
Context `{Platform, System, SocketSystem} (s : session).

Abbreviation step := (chat_step (s_username s) (s_room s) (s_host s) (s_port s)).

(** [Stop] up to the [join], after [running_.exchange(false)]. *)
Definition stop_shutdown (sock : option Z) : M trace unit :=
  if sock is Some sock then shutdown sock else mret tt.

(** [Stop] after the [join]: [sock_] when it returns. *)
Definition stop_close (sock : option Z) : M trace (option Z) :=
  if sock is Some sock then CLOSE_SOCKET sock ;; mret None else mret None.

(** [Stop] as a whole, where no other thread runs: the destructor. *)
Definition Stop (sock : option Z) : M (trace * (ChatClient * system)) (option Z) :=
  was_running ← on_snd stop_begin;
  on_fst (stop_shutdown sock) ;;
  sock ← on_fst (stop_close sock);
  on_snd (stop_end was_running) ;;
  mret sock.

(** Before, in and after [Stop]. *)
Inductive stop_stage := BeforeStop | InStop | AfterStop.

Definition stage (m : main_pc) : stop_stage :=
  match m with Joining _ => InStop | Exited => AfterStop | _ => BeforeStop end.

(** A step of a thread that does not concern the socket; the call of [Stop] with its
    [shutdown]; its end, after the [join]; and the end of [main], where [client] is
    destroyed last. *)
Inductive program_step : program → program → Prop :=
  | p_threads t sk j ths ths' : step ths ths' → stage (main_thread ths') = stage (main_thread ths) →
      program_step (Program t sk j ths None) (Program t sk j ths' None)
  | p_stop t sk j ths ths' t' : step ths ths' → stage (main_thread ths) = BeforeStop → stage (main_thread ths') = InStop →
      stop_shutdown sk t = (Ret tt, t') →
      program_step (Program t sk j ths None) (Program t' sk j ths' None)
  | p_join t sk j ths ths' t' sk' : step ths ths' → stage (main_thread ths) = InStop → stage (main_thread ths') = AfterStop →
      stop_close sk t = (Ret sk', t') →
      program_step (Program t sk j ths None) (Program t' sk' false ths' None)
  | p_exit t sk ths t1 t2 sh sk' : stage (main_thread ths) = AfterStop → clean_winsock t = (Ret tt, t1) →
      Stop sk (t1, shared ths) = (Ret sk', (t2, sh)) →
      program_step (Program t sk false ths None) (Program t2 sk' false (Threads sh (receiver ths) Exited) (Some 0)).

(** Right after [Connect]; [bytes] is what the server sends in the session, [lines] what
    the user will type. *)
Definition connected_program (t : trace) (bytes : list Z) (lines : list (list Z)) : program :=
  Program t (Some (s_sock s)) true (ChatConsole.started bytes lines) None.
End Program.
