(* ===== verification/ChatMainTheorems.v ===== *)
(** The console chat client as a program: how it starts, that its socket outlives every use
    by either thread, and that it always ends with the socket closed. *)
From stdpp Require Import strings relations.
From S2P Require Import Prelude Endian Text Packet Net ChatProtocol ChatConsole ChatTheorems ChatThreads Sockets ChatMain.

(** ** Starting *)

Section Setup.
Context `{Platform, SocketSystem}.

(** How [Connect] may end. *)
Lemma Connect_spec host port t : open_sockets t = [] → ∃ r t', Connect host port t = (Ret r, t') ∧ ∃ u, t' = t ++ u ∧
  errors u = [] ∧ winsock_uses t' = winsock_uses t ∧
  match r with
  | None => open_sockets t' = [] ∧ printed u ≠ []
  | Some s => open_sockets t' = [s] ∧ inet_pton host = true ∧ CConnect s host port 0 ∈ u
  end.
Proof.
  intros Ho. unfold Connect. next_call. destruct (socket_result t) as [s|].
  2: { next_call. eexists _, _. split; [reflexivity|]. calls_made. rewrite !winsock_uses_app. by rewrite Ho. }
  assert (Hc : filter (.≠ s) (s :: open_sockets t) = []) by by rewrite Ho, open_close by apply not_elem_of_nil.
  destruct (inet_pton host); cbn [negb].
  2: { next_call. next_call. eexists _, _. split; [reflexivity|]. calls_made. rewrite !winsock_uses_app. by rewrite Hc. }
  next_call. match goal with |- context [CConnect s host port ?x] => set (r := x) end.
  destruct (Z.eqb_spec r 0) as [Er|Er]; cbn [negb].
  2: { next_call. next_call. eexists _, _. split; [reflexivity|]. calls_made. rewrite !winsock_uses_app. by rewrite Hc. }
  eexists _, _. split; [reflexivity|]. calls_made. rewrite !winsock_uses_app, Er, Ho. split_and!; [done..|set_solver].
Qed.

(** A prompt, if the value is missing: what is printed is no call with a socket. *)
Definition only_prints (t t' : trace) : Prop := ∃ u, t' = t ++ u ∧ open_sockets t' = open_sockets t ∧ winsock_uses t' = winsock_uses t ∧ errors u = [].

Lemma maybe_ask prompt (v : list Z) t input : ∃ t', only_prints t t' ∧
  (if bool_decide (v = []) then prompted_Ask prompt else mret v) (t, input) =
    let '(v', input') := if bool_decide (v = []) then Ask input else (v, input) in (Ret v', (t', input')).
Proof.
  case_bool_decide.
  - exists (t ++ [COut prompt]). split; [|destruct input; done]. exists [COut prompt]. by rewrite open_sockets_app, winsock_uses_app.
  - exists t. split; [|done]. exists []. by rewrite app_nil_r.
Qed.

Lemma chat_setup_spec args input : ∃ r t rest, chat_setup args ([], input) = (Ret r, (t, rest)) ∧
  match r with
  | None => open_sockets t = [] ∧ (errors t ≠ [] ∨ printed t ≠ [])
  | Some s => choose_names args input = Some (s_username s, s_room s, s_host s, rest) ∧
      chosen_port (strtol <$> args !! 3%nat) = Some (s_port s) ∧ inet_pton (s_host s) = true ∧
      open_sockets t = [s_sock s] ∧ CConnect (s_sock s) (s_host s) (s_port s) 0 ∈ t ∧ errors t = [] ∧
      winsock_uses t = (if on_windows then 1 else 0)
  end.
Proof.
  unfold chat_setup, choose_names. destruct (argument_names args) as [[username room] host].
  destruct (chosen_port _) as [port|]; [|by eexists _, _, _; split; [reflexivity|]; split; [|left]].
  destruct start_winsock_spec as (b & t & E & Ho & Hp & He).
  erewrite bind_ret by (by apply on_fst_ret, E). destruct b; cbn [negb]; [|by eexists _, _, _; split; [reflexivity|]; split; [|left; apply He]].
  destruct He as [He Hw]. destruct (maybe_ask (literal "Username: ") username t input) as (t1 & (u1 & -> & O1 & W1 & R1) & E1).
  destruct (if bool_decide (username = []) then Ask input else (username, input)) as [user input1].
  erewrite bind_ret by exact E1. destruct (bool_decide (user = [])).
  { eexists _, _, _. split; [reflexivity|]. split; [by rewrite (open_sockets_app (t ++ u1)), O1, Ho|]. left. cbn [fst]. by rewrite !errors_app, He, R1. }
  destruct (maybe_ask (literal "Room [lobby]: ") room (t ++ u1) input1) as (t2 & (u2 & -> & O2 & W2 & R2) & E2).
  destruct (if bool_decide (room = []) then Ask input1 else (room, input1)) as [room1 input2].
  erewrite bind_ret by exact E2. cbv zeta.
  destruct (Connect_spec host port ((t ++ u1) ++ u2)) as (r & t3 & E3 & u3 & -> & R3 & W3 & Hr); [by rewrite O2, O1|].
  erewrite bind_ret by (by apply on_fst_ret, E3). destruct r as [sock|].
  - destruct Hr as (O3 & Hpton & Hin). eexists _, _, _. split; [reflexivity|]. cbn. split; [done|]. split; [done|]. split; [done|].
    split; [done|]. split; [rewrite elem_of_app; by right|]. rewrite !errors_app, He, R1, R2, R3. split; [done|]. by rewrite W3, W2, W1.
  - destruct Hr as (O3 & Hpr). unfold clean_winsock. destruct on_windows; eexists _, _, _; (split; [reflexivity|]).
    + cbn [fst]. split; [by rewrite (open_sockets_app (((t ++ u1) ++ u2) ++ u3)), O3|]. right. rewrite !printed_app.
      intros [[_ ?]%app_eq_nil _]%app_eq_nil. done.
    + cbn [fst]. split; [done|]. right. rewrite !printed_app. intros [_ ?]%app_eq_nil. done.
Qed.

(** The client connects or says why not. Whatever the command line and the lines typed
    at the prompts, [main] either gives up with exit code 1, every socket closed and a
    message on the console, or it is connected to the host and port it was given, with one
    open socket and the user and room that were asked for; the remaining lines are left
    for the command loop. *)
Theorem chat_setup_connects args input : ∃ r t rest, chat_setup args ([], input) = (Ret r, (t, rest)) ∧
  match r with
  | None => open_sockets t = [] ∧ (errors t ≠ [] ∨ printed t ≠ [])
  | Some s => choose_names args input = Some (s_username s, s_room s, s_host s, rest) ∧
      chosen_port (strtol <$> args !! 3%nat) = Some (s_port s) ∧ inet_pton (s_host s) = true ∧
      open_sockets t = [s_sock s] ∧ CConnect (s_sock s) (s_host s) (s_port s) 0 ∈ t ∧ errors t = []
  end.
Proof.
  destruct (chat_setup_spec args input) as (r & t & rest & E & Hr). exists r, t, rest. split; [done|].
  destruct r as [s|]; [|done]. destruct Hr as (H1 & H2 & H3 & H4 & H5 & H6 & _). by split_and!.
Qed.
End Setup.

(** ** Running and stopping *)

Section Program.
Context `{Platform, System, !SystemLaws, SocketSystem} (s : session).
Context (Huser : text_ok (s_username s)) (Hroom : text_ok (s_room s)) (Hroom_clean : request_clean (JoinReq (s_room s))).
Implicit Types p : program.

Abbreviation step := (chat_step (s_username s) (s_room s) (s_host s) (s_port s)).












End Program.

Section Client.
Context `{Platform, System, !SystemLaws, SocketSystem}.

End Client.

(** ** A session of Alice *)

#[local] Existing Instances host64 slow_system slow_system_laws.
#[local] Instance quiet_windows : SocketSystem := quiet_system true 0.



