(* ===== verification/CppClient.v ===== *)
(** The sample client ([samples/CppClient]): its protocol ([packets.hpp]), with the
    serializers [MEMORYPACK_DEFINE] generates and the hand-written ones over C arrays, the
    dispatch table, and from [main.cpp] the blocking packet exchange and the ten tests. *)
From stdpp Require Import strings.
From S2P Require Import Prelude Endian Writer Reader Headers Utf Strings Formatter Collections Objects Api Packet Text Net.

(** ** The protocol ([packets.hpp]) *)

Inductive PacketId :=
  | LoginRequestId | LoginResponseId | PlayerStateId | ScoreUpdateId | ChatMessageId | InventoryDataId
  | BufferDataId | IntArrayPacketId | SkillSlotDataId | MapTileRowId | MixedFormatPacketId.

Definition packet_id (p : PacketId) : Z :=
  match p with
  | LoginRequestId => 1
  | LoginResponseId => 2
  | PlayerStateId => 3
  | ScoreUpdateId => 4
  | ChatMessageId => 5
  | InventoryDataId => 6
  | BufferDataId => 7
  | IntArrayPacketId => 8
  | SkillSlotDataId => 9
  | MapTileRowId => 10
  | MixedFormatPacketId => 11
  end.

Definition PACKET_HEADER_SIZE : Z := 6.

Record LoginRequest := MkLoginRequest { lrq_username : string; lrq_level : prim Int32 }.
Record LoginResponse := MkLoginResponse { lrs_success : prim Bool_t; lrs_playerId : prim Int32; lrs_message : string }.
Record PlayerState := MkPlayerState { ps_playerId : prim Int32; ps_posX : prim Float32; ps_posY : prim Float32; ps_posZ : prim Float32; ps_name : string }.
Record ScoreUpdate := MkScoreUpdate { su_playerId : prim Int32; su_scores : vector (prim Int32); su_totalScore : prim Float64 }.
Record ChatMessage := MkChatMessage { cm_senderId : prim Int32; cm_message : string; cm_timestamp : prim Int64 }.
Record InventoryData := MkInventoryData { inv_playerId : prim Int32; inv_itemNames : vector string; inv_itemCounts : vector (prim Int32) }.
Record BufferData := MkBufferData { bd_tag : prim UInt8; bd_grade : prim Int8; bd_rawData : vector (prim UInt8); bd_charCodes : vector (prim Int8) }.
Record IntArrayPacket := MkIntArrayPacket { ia_id : prim Int32; ia_shortArray : vector (prim Int16); ia_intArray : vector (prim Int32); ia_longArray : vector (prim Int64) }.

(** The structs with C arrays: an array is the list of its elements, all of them. *)
Definition MAX_SKILLS : Z := 8.
Record SkillSlotData := MkSkillSlotData {
  ss_playerId : Z; ss_skillIds : list Z; ss_skillCount : Z; ss_cooldowns : list Z; ss_cooldownCount : Z }.

Definition MAX_TILES : Z := 64.
Record MapTileRow := MkMapTileRow {
  mt_rowIndex : Z; mt_tiles : list Z; mt_tileCount : Z; mt_heights : list Z; mt_heightCount : Z }.

Definition MAX_BONUSES : Z := 4.
Definition MAX_TAG_LEN : Z := 16.
Record MixedFormatPacket := MkMixedFormatPacket {
  mf_id : Z; mf_dynamicScores : list Z; mf_fixedBonuses : list Z; mf_fixedBonusCount : Z;
  mf_tagBytes : list Z; mf_tagByteCount : Z; mf_multiplier : Z }.

Section Protocol.
Context `{Platform}.

Definition lrq_username_m : member LoginRequest :=
  Member string lrq_username (λ x v, MkLoginRequest x (lrq_level v)).
Definition lrq_level_m : member LoginRequest :=
  Member (prim Int32) lrq_level (λ x v, MkLoginRequest (lrq_username v) x).
#[global] Instance LoginRequest_members : Members LoginRequest := {
  default_value := MkLoginRequest (Str []) (Prim 0);
  members := [lrq_username_m; lrq_level_m] }.

Definition lrs_success_m : member LoginResponse :=
  Member (prim Bool_t) lrs_success (λ x v, MkLoginResponse x (lrs_playerId v) (lrs_message v)).
Definition lrs_playerId_m : member LoginResponse :=
  Member (prim Int32) lrs_playerId (λ x v, MkLoginResponse (lrs_success v) x (lrs_message v)).
Definition lrs_message_m : member LoginResponse :=
  Member string lrs_message (λ x v, MkLoginResponse (lrs_success v) (lrs_playerId v) x).
#[global] Instance LoginResponse_members : Members LoginResponse := {
  default_value := MkLoginResponse (Prim 0) (Prim 0) (Str []);
  members := [lrs_success_m; lrs_playerId_m; lrs_message_m] }.

Definition ps_playerId_m : member PlayerState :=
  Member (prim Int32) ps_playerId (λ x v, MkPlayerState x (ps_posX v) (ps_posY v) (ps_posZ v) (ps_name v)).
Definition ps_posX_m : member PlayerState :=
  Member (prim Float32) ps_posX (λ x v, MkPlayerState (ps_playerId v) x (ps_posY v) (ps_posZ v) (ps_name v)).
Definition ps_posY_m : member PlayerState :=
  Member (prim Float32) ps_posY (λ x v, MkPlayerState (ps_playerId v) (ps_posX v) x (ps_posZ v) (ps_name v)).
Definition ps_posZ_m : member PlayerState :=
  Member (prim Float32) ps_posZ (λ x v, MkPlayerState (ps_playerId v) (ps_posX v) (ps_posY v) x (ps_name v)).
Definition ps_name_m : member PlayerState :=
  Member string ps_name (λ x v, MkPlayerState (ps_playerId v) (ps_posX v) (ps_posY v) (ps_posZ v) x).
#[global] Instance PlayerState_members : Members PlayerState := {
  default_value := MkPlayerState (Prim 0) (Prim 0) (Prim 0) (Prim 0) (Str []);
  members := [ps_playerId_m; ps_posX_m; ps_posY_m; ps_posZ_m; ps_name_m] }.

Definition su_playerId_m : member ScoreUpdate :=
  Member (prim Int32) su_playerId (λ x v, MkScoreUpdate x (su_scores v) (su_totalScore v)).
Definition su_scores_m : member ScoreUpdate :=
  Member (vector (prim Int32)) su_scores (λ x v, MkScoreUpdate (su_playerId v) x (su_totalScore v)).
Definition su_totalScore_m : member ScoreUpdate :=
  Member (prim Float64) su_totalScore (λ x v, MkScoreUpdate (su_playerId v) (su_scores v) x).
#[global] Instance ScoreUpdate_members : Members ScoreUpdate := {
  default_value := MkScoreUpdate (Prim 0) (Vector []) (Prim 0);
  members := [su_playerId_m; su_scores_m; su_totalScore_m] }.

Definition cm_senderId_m : member ChatMessage :=
  Member (prim Int32) cm_senderId (λ x v, MkChatMessage x (cm_message v) (cm_timestamp v)).
Definition cm_message_m : member ChatMessage :=
  Member string cm_message (λ x v, MkChatMessage (cm_senderId v) x (cm_timestamp v)).
Definition cm_timestamp_m : member ChatMessage :=
  Member (prim Int64) cm_timestamp (λ x v, MkChatMessage (cm_senderId v) (cm_message v) x).
#[global] Instance ChatMessage_members : Members ChatMessage := {
  default_value := MkChatMessage (Prim 0) (Str []) (Prim 0);
  members := [cm_senderId_m; cm_message_m; cm_timestamp_m] }.

Definition inv_playerId_m : member InventoryData :=
  Member (prim Int32) inv_playerId (λ x v, MkInventoryData x (inv_itemNames v) (inv_itemCounts v)).
Definition inv_itemNames_m : member InventoryData :=
  Member (vector string) inv_itemNames (λ x v, MkInventoryData (inv_playerId v) x (inv_itemCounts v)).
Definition inv_itemCounts_m : member InventoryData :=
  Member (vector (prim Int32)) inv_itemCounts (λ x v, MkInventoryData (inv_playerId v) (inv_itemNames v) x).
#[global] Instance InventoryData_members : Members InventoryData := {
  default_value := MkInventoryData (Prim 0) (Vector []) (Vector []);
  members := [inv_playerId_m; inv_itemNames_m; inv_itemCounts_m] }.

Definition bd_tag_m : member BufferData :=
  Member (prim UInt8) bd_tag (λ x v, MkBufferData x (bd_grade v) (bd_rawData v) (bd_charCodes v)).
Definition bd_grade_m : member BufferData :=
  Member (prim Int8) bd_grade (λ x v, MkBufferData (bd_tag v) x (bd_rawData v) (bd_charCodes v)).
Definition bd_rawData_m : member BufferData :=
  Member (vector (prim UInt8)) bd_rawData (λ x v, MkBufferData (bd_tag v) (bd_grade v) x (bd_charCodes v)).
Definition bd_charCodes_m : member BufferData :=
  Member (vector (prim Int8)) bd_charCodes (λ x v, MkBufferData (bd_tag v) (bd_grade v) (bd_rawData v) x).
#[global] Instance BufferData_members : Members BufferData := {
  default_value := MkBufferData (Prim 0) (Prim 0) (Vector []) (Vector []);
  members := [bd_tag_m; bd_grade_m; bd_rawData_m; bd_charCodes_m] }.

Definition ia_id_m : member IntArrayPacket :=
  Member (prim Int32) ia_id (λ x v, MkIntArrayPacket x (ia_shortArray v) (ia_intArray v) (ia_longArray v)).
Definition ia_shortArray_m : member IntArrayPacket :=
  Member (vector (prim Int16)) ia_shortArray (λ x v, MkIntArrayPacket (ia_id v) x (ia_intArray v) (ia_longArray v)).
Definition ia_intArray_m : member IntArrayPacket :=
  Member (vector (prim Int32)) ia_intArray (λ x v, MkIntArrayPacket (ia_id v) (ia_shortArray v) x (ia_longArray v)).
Definition ia_longArray_m : member IntArrayPacket :=
  Member (vector (prim Int64)) ia_longArray (λ x v, MkIntArrayPacket (ia_id v) (ia_shortArray v) (ia_intArray v) x).
#[global] Instance IntArrayPacket_members : Members IntArrayPacket := {
  default_value := MkIntArrayPacket (Prim 0) (Vector []) (Vector []) (Vector []);
  members := [ia_id_m; ia_shortArray_m; ia_intArray_m; ia_longArray_m] }.

(** *** The hand-written serializers *)

Definition SkillSlotData_Serialize (v : option SkillSlotData) : W unit :=
  match v with
  | None => WriteNullObjectHeader
  | Some v =>
      WriteObjectHeader 3 ;;
      WriteInt32 (ss_playerId v) ;;
      WriteArray Int32 (ss_skillIds v) (ss_skillCount v) ;;
      WriteArray Float32 (ss_cooldowns v) (ss_cooldownCount v)
  end.

(** [if (cnt >= n) v.member = read;]. *)
Definition assign_if {V A} (cnt n : Z) (read : V → R A) (assign : A → V → V) (v : V) : R V :=
  if cnt >=? n then x ← read v; mret (assign x v) else mret v.

Definition ss_set_playerId (x : Z) (v : SkillSlotData) : SkillSlotData :=
  MkSkillSlotData x (ss_skillIds v) (ss_skillCount v) (ss_cooldowns v) (ss_cooldownCount v).
Definition ss_set_skills (x : Z * list Z) (v : SkillSlotData) : SkillSlotData :=
  MkSkillSlotData (ss_playerId v) x.2 x.1 (ss_cooldowns v) (ss_cooldownCount v).
Definition ss_set_cooldowns (x : Z * list Z) (v : SkillSlotData) : SkillSlotData :=
  MkSkillSlotData (ss_playerId v) (ss_skillIds v) (ss_skillCount v) x.2 x.1.

Definition SkillSlotData_assign (v : SkillSlotData) (cnt : Z) : R SkillSlotData :=
  v ← assign_if cnt 1 (λ _, ReadInt32) ss_set_playerId v;
  v ← assign_if cnt 2 (λ v, ReadArray Int32 (ss_skillIds v) MAX_SKILLS) ss_set_skills v;
  assign_if cnt 3 (λ v, ReadArray Float32 (ss_cooldowns v) MAX_SKILLS) ss_set_cooldowns v.

Definition SkillSlotData_Deserialize (v : SkillSlotData) : R SkillSlotData :=
  header ← ReadObjectHeader;
  if isNull header then mret v else SkillSlotData_assign v (count header).

#[global] Instance SkillSlotData_formatter : MemoryPackFormatter SkillSlotData := {
  value_init := MkSkillSlotData 0 (replicate 8 0) 0 (replicate 8 0) 0;
  kind := OtherType;
  Serialize := λ v, SkillSlotData_Serialize (Some v);
  Deserialize := SkillSlotData_Deserialize }.

Definition MapTileRow_Serialize (v : option MapTileRow) : W unit :=
  match v with
  | None => WriteNullObjectHeader
  | Some v =>
      WriteObjectHeader 3 ;;
      WriteInt32 (mt_rowIndex v) ;;
      WriteArray UInt8 (mt_tiles v) (mt_tileCount v) ;;
      WriteArray Int16 (mt_heights v) (mt_heightCount v)
  end.

Definition mt_set_rowIndex (x : Z) (v : MapTileRow) : MapTileRow :=
  MkMapTileRow x (mt_tiles v) (mt_tileCount v) (mt_heights v) (mt_heightCount v).
Definition mt_set_tiles (x : Z * list Z) (v : MapTileRow) : MapTileRow :=
  MkMapTileRow (mt_rowIndex v) x.2 x.1 (mt_heights v) (mt_heightCount v).
Definition mt_set_heights (x : Z * list Z) (v : MapTileRow) : MapTileRow :=
  MkMapTileRow (mt_rowIndex v) (mt_tiles v) (mt_tileCount v) x.2 x.1.

Definition MapTileRow_assign (v : MapTileRow) (cnt : Z) : R MapTileRow :=
  v ← assign_if cnt 1 (λ _, ReadInt32) mt_set_rowIndex v;
  v ← assign_if cnt 2 (λ v, ReadArray UInt8 (mt_tiles v) MAX_TILES) mt_set_tiles v;
  assign_if cnt 3 (λ v, ReadArray Int16 (mt_heights v) MAX_TILES) mt_set_heights v.

Definition MapTileRow_Deserialize (v : MapTileRow) : R MapTileRow :=
  header ← ReadObjectHeader;
  if isNull header then mret v else MapTileRow_assign v (count header).

#[global] Instance MapTileRow_formatter : MemoryPackFormatter MapTileRow := {
  value_init := MkMapTileRow 0 (replicate 64 0) 0 (replicate 64 0) 0;
  kind := OtherType;
  Serialize := λ v, MapTileRow_Serialize (Some v);
  Deserialize := MapTileRow_Deserialize }.

Definition MixedFormatPacket_Serialize (v : option MixedFormatPacket) : W unit :=
  match v with
  | None => WriteNullObjectHeader
  | Some v =>
      WriteObjectHeader 5 ;;
      WriteInt32 (mf_id v) ;;
      WriteVector Int32 (mf_dynamicScores v) ;;
      WriteArray Int32 (mf_fixedBonuses v) (mf_fixedBonusCount v) ;;
      WriteArray Int8 (mf_tagBytes v) (mf_tagByteCount v) ;;
      WriteDouble (mf_multiplier v)
  end.

Definition mf_set_id (x : Z) (v : MixedFormatPacket) : MixedFormatPacket :=
  MkMixedFormatPacket x (mf_dynamicScores v) (mf_fixedBonuses v) (mf_fixedBonusCount v) (mf_tagBytes v) (mf_tagByteCount v) (mf_multiplier v).
Definition mf_set_scores (x : list Z) (v : MixedFormatPacket) : MixedFormatPacket :=
  MkMixedFormatPacket (mf_id v) x (mf_fixedBonuses v) (mf_fixedBonusCount v) (mf_tagBytes v) (mf_tagByteCount v) (mf_multiplier v).
Definition mf_set_bonuses (x : Z * list Z) (v : MixedFormatPacket) : MixedFormatPacket :=
  MkMixedFormatPacket (mf_id v) (mf_dynamicScores v) x.2 x.1 (mf_tagBytes v) (mf_tagByteCount v) (mf_multiplier v).
Definition mf_set_tag (x : Z * list Z) (v : MixedFormatPacket) : MixedFormatPacket :=
  MkMixedFormatPacket (mf_id v) (mf_dynamicScores v) (mf_fixedBonuses v) (mf_fixedBonusCount v) x.2 x.1 (mf_multiplier v).
Definition mf_set_multiplier (x : Z) (v : MixedFormatPacket) : MixedFormatPacket :=
  MkMixedFormatPacket (mf_id v) (mf_dynamicScores v) (mf_fixedBonuses v) (mf_fixedBonusCount v) (mf_tagBytes v) (mf_tagByteCount v) x.

Definition MixedFormatPacket_assign (v : MixedFormatPacket) (cnt : Z) : R MixedFormatPacket :=
  v ← assign_if cnt 1 (λ _, ReadInt32) mf_set_id v;
  v ← assign_if cnt 2 (λ _, ReadVector Int32) mf_set_scores v;
  v ← assign_if cnt 3 (λ v, ReadArray Int32 (mf_fixedBonuses v) MAX_BONUSES) mf_set_bonuses v;
  v ← assign_if cnt 4 (λ v, ReadArray Int8 (mf_tagBytes v) MAX_TAG_LEN) mf_set_tag v;
  assign_if cnt 5 (λ _, ReadDouble) mf_set_multiplier v.

Definition MixedFormatPacket_Deserialize (v : MixedFormatPacket) : R MixedFormatPacket :=
  header ← ReadObjectHeader;
  if isNull header then mret v else MixedFormatPacket_assign v (count header).

#[global] Instance MixedFormatPacket_formatter : MemoryPackFormatter MixedFormatPacket := {
  value_init := MkMixedFormatPacket 0 [] (replicate 4 0) 0 (replicate 16 0) 0 0;
  kind := OtherType;
  Serialize := λ v, MixedFormatPacket_Serialize (Some v);
  Deserialize := MixedFormatPacket_Deserialize }.
End Protocol.

(** *** Packets of any type *)

Inductive client_packet :=
  | PLoginRequest (v : LoginRequest) | PLoginResponse (v : LoginResponse) | PPlayerState (v : PlayerState)
  | PScoreUpdate (v : ScoreUpdate) | PChatMessage (v : ChatMessage) | PInventoryData (v : InventoryData)
  | PBufferData (v : BufferData) | PIntArrayPacket (v : IntArrayPacket) | PSkillSlotData (v : SkillSlotData)
  | PMapTileRow (v : MapTileRow) | PMixedFormatPacket (v : MixedFormatPacket).

Section Packets.
Context `{Platform}.

Definition serialize_packet (p : client_packet) : outcome (list Z) :=
  match p with
  | PLoginRequest v => SerializeNew v
  | PLoginResponse v => SerializeNew v
  | PPlayerState v => SerializeNew v
  | PScoreUpdate v => SerializeNew v
  | PChatMessage v => SerializeNew v
  | PInventoryData v => SerializeNew v
  | PBufferData v => SerializeNew v
  | PIntArrayPacket v => SerializeNew v
  | PSkillSlotData v => SerializeNew v
  | PMapTileRow v => SerializeNew v
  | PMixedFormatPacket v => SerializeNew v
  end.

Definition deserialize_packet (id : PacketId) (body : list Z) : outcome client_packet :=
  match id with
  | LoginRequestId => outcome_map PLoginRequest (DeserializeNew body)
  | LoginResponseId => outcome_map PLoginResponse (DeserializeNew body)
  | PlayerStateId => outcome_map PPlayerState (DeserializeNew body)
  | ScoreUpdateId => outcome_map PScoreUpdate (DeserializeNew body)
  | ChatMessageId => outcome_map PChatMessage (DeserializeNew body)
  | InventoryDataId => outcome_map PInventoryData (DeserializeNew body)
  | BufferDataId => outcome_map PBufferData (DeserializeNew body)
  | IntArrayPacketId => outcome_map PIntArrayPacket (DeserializeNew body)
  | SkillSlotDataId => outcome_map PSkillSlotData (DeserializeNew body)
  | MapTileRowId => outcome_map PMapTileRow (DeserializeNew body)
  | MixedFormatPacketId => outcome_map PMixedFormatPacket (DeserializeNew body)
  end.

(** The [case] labels of [DispatchPacket]. *)
Definition packet_of_id (id : Z) : option PacketId :=
  if id =? 1 then Some LoginRequestId else if id =? 2 then Some LoginResponseId
  else if id =? 3 then Some PlayerStateId else if id =? 4 then Some ScoreUpdateId
  else if id =? 5 then Some ChatMessageId else if id =? 6 then Some InventoryDataId
  else if id =? 7 then Some BufferDataId else if id =? 8 then Some IntArrayPacketId
  else if id =? 9 then Some SkillSlotDataId else if id =? 10 then Some MapTileRowId
  else if id =? 11 then Some MixedFormatPacketId else None.

Definition DispatchPacket {S} (id : Z) (body : list Z) (handler : client_packet → M S unit) : M S bool :=
  match packet_of_id id with
  | Some t => v ← lift_outcome (deserialize_packet t body); handler v ;; mret true
  | None => mret false
  end.
End Packets.

(** ** Blocking exchange ([main.cpp]) *)

(** What the tests print, with its arguments. *)
Inductive client_line :=
  | TestTitle (title : list Z)
  | SendLine (p : client_packet)
  | RecvLine (p : client_packet)
  | AllPassed
  | SomeFailed.

Section Operations.
Context `{Platform, System}.

Definition recv_exact {L} (len : Z) : M (world L) (bool * list Z) := recv_loop (Z.to_nat len) [] len 0.
Definition send_exact {L} (buf : list Z) (len : Z) : M (world L) bool := send_loop (Z.to_nat len) buf len 0.

(** The header is copied in the byte order of the host. *)
Definition send_packet {L} (id : Z) (body : list Z) : M (world L) bool :=
  let bodyLength := to_int (zlen body) in
  let header := object_bytes UInt16 id ++ object_bytes Int32 bodyLength in
  ok ← send_exact header PACKET_HEADER_SIZE;
  if negb ok then mret false else
  if bodyLength >? 0 then send_exact body (zlen body) else mret true.

Definition recv_packet {L} : M (world L) (option (Z * list Z)) :=
  header ← recv_exact PACKET_HEADER_SIZE;
  if negb header.1 then mret None else
  let packetId := of_object_bytes UInt16 (slice 0 2 header.2) in
  let bodyLength := of_object_bytes Int32 (slice 2 4 header.2) in
  if bodyLength >? 0 then
    body ← recv_exact bodyLength;
    mret (if body.1 : bool then Some (packetId, body.2) else None)
  else mret (Some (packetId, [])).

(** [duration_cast<milliseconds>] of the clock's microseconds. *)
Definition current_timestamp_ms {L} : M (world L) Z := micros ← now; mret (Z.quot micros 1000).

(** ** The tests

    The ten functions differ in their request, the packet id and the type of the
    response; this is what varies. *)
Record test := Test {
  t_title : list Z;
  t_clock : bool;
  t_request : Z → client_packet;
  t_id : PacketId;
  t_response : PacketId;
}.

(** Printing a response stays inside its vectors and arrays. *)
Definition printable (p : client_packet) : bool :=
  match p with
  | PInventoryData v => zlen (elements (inv_itemNames v)) <=? zlen (elements (inv_itemCounts v))
  | PSkillSlotData v => (ss_skillCount v <=? zlen (ss_skillIds v)) && (ss_skillCount v <=? zlen (ss_cooldowns v))
  | PMapTileRow v => (mt_tileCount v <=? zlen (mt_tiles v)) && (mt_heightCount v <=? zlen (mt_heights v))
  | PMixedFormatPacket v => (mf_fixedBonusCount v <=? zlen (mf_fixedBonuses v)) && (mf_tagByteCount v <=? zlen (mf_tagBytes v))
  | _ => true
  end.

Definition run_test (t : test) : M (world client_line) bool :=
  Log (TestTitle (t_title t)) ;;
  timestamp ← (if t_clock t then current_timestamp_ms else mret 0);
  let req := t_request t timestamp in
  Log (SendLine req) ;;
  body ← lift_outcome (serialize_packet req);
  sent ← send_packet (packet_id (t_id t)) body;
  if negb sent then mret false else
  received ← recv_packet;
  match received with
  | None => mret false
  | Some (_, respBody) =>
      resp ← lift_outcome (deserialize_packet (t_response t) respBody);
      if printable resp then Log (RecvLine resp) ;; mret true else undefined
  end.

Definition int32s (l : list Z) : vector (prim Int32) := Vector (Prim <$> l).

Definition test_login : test := Test (literal "Test 1: LoginRequest -> LoginResponse") false
  (λ _, PLoginRequest (MkLoginRequest (Str (literal "TestPlayer")) (Prim 42))) LoginRequestId LoginResponseId.

(** 100.5f, 200.25f and -50.75f. *)
Definition test_player_state : test := Test (literal "Test 2: PlayerState (float test)") false
  (λ _, PPlayerState (MkPlayerState (Prim 1001) (Prim 0x42C90000) (Prim 0x43484000) (Prim 0xC24B0000) (Str (literal "TestPlayer"))))
  PlayerStateId PlayerStateId.

Definition test_chat_message : test := Test (literal "Test 3: ChatMessage (int64 + string test)") true
  (λ timestamp, PChatMessage (MkChatMessage (Prim 1001) (Str (literal "Hello from C++ client!")) (Prim timestamp)))
  ChatMessageId ChatMessageId.

(** 1700.5. *)
Definition test_score_update : test := Test (literal "Test 4: ScoreUpdate (vector<int32> + double test)") false
  (λ _, PScoreUpdate (MkScoreUpdate (Prim 1001) (int32s [100; 250; 380; 420; 550]) (Prim 0x409A920000000000)))
  ScoreUpdateId ScoreUpdateId.

Definition test_inventory : test := Test (literal "Test 5: InventoryData (vector<string> + vector<int32> test)") false
  (λ _, PInventoryData (MkInventoryData (Prim 1001)
     (Vector [Str (literal "Sword"); Str (literal "Shield"); Str (literal "Potion"); Str (literal "Scroll")]) (int32s [1; 1; 5; 3])))
  InventoryDataId InventoryDataId.

Definition test_buffer_data : test := Test (literal "Test 6: BufferData (char/byte array test)") false
  (λ _, PBufferData (MkBufferData (Prim 0xAB) (Prim (-42)) (Vector (Prim <$> [0x00; 0x11; 0x22; 0xFF; 0xEE; 0xDD]))
     (Vector (Prim <$> (literal "Hello!" ++ [-1; -128; 127])))))
  BufferDataId BufferDataId.

Definition test_int_arrays : test := Test (literal "Test 7: IntArrayPacket (short/int/long array test)") false
  (λ _, PIntArrayPacket (MkIntArrayPacket (Prim 7777) (Vector (Prim <$> [-100; 0; 100; 32767; -32768]))
     (int32s [-1; 0; 1; 2147483647; -2147483648])
     (Vector (Prim <$> [-1; 0; 1; 9223372036854775807; -9223372036854775807 - 1]))))
  IntArrayPacketId IntArrayPacketId.

(** 1.5f, 3.0f and 0.5f. *)
Definition test_skill_slots : test := Test (literal "Test 8: SkillSlotData (C fixed int32[] + float[])") false
  (λ _, PSkillSlotData (MkSkillSlotData 1001 (overwrite 0 [101; 205; 310] (replicate 8 0)) 3
     (overwrite 0 [0x3FC00000; 0x40400000; 0x3F000000] (replicate 8 0)) 3))
  SkillSlotDataId SkillSlotDataId.

Definition test_map_tile_row : test := Test (literal "Test 9: MapTileRow (C fixed uint8[] + int16[])") false
  (λ _, PMapTileRow (MkMapTileRow 5 (overwrite 0 [1; 2; 3; 0; 0; 4; 5; 255; 128; 64] (replicate 64 0)) 10
     (overwrite 0 [10; 20; 30; 0; 0; -10; 50; 100; -100; 0] (replicate 64 0)) 10))
  MapTileRowId MapTileRowId.

(** 2.5. *)
Definition test_mixed_format : test := Test (literal "Test 10: MixedFormatPacket (vector + C array + char array)") false
  (λ _, PMixedFormatPacket (MkMixedFormatPacket 42 [100; 200; 300; 400; 500] (overwrite 0 [10; 20; 30] (replicate 4 0)) 3
     (overwrite 0 (literal "HELLO") (replicate 16 0)) (zlen (literal "HELLO")) 0x4004000000000000))
  MixedFormatPacketId MixedFormatPacketId.

Definition tests : list test :=
  [test_login; test_player_state; test_chat_message; test_score_update; test_inventory; test_buffer_data;
   test_int_arrays; test_skill_slots; test_map_tile_row; test_mixed_format].

(** [allPassed &= test(sock);] for each test: a failure does not stop the others. *)
Fixpoint run_tests (ts : list test) (allPassed : bool) : M (world client_line) bool :=
  match ts with
  | [] => mret allPassed
  | t :: ts' => passed ← run_test t; run_tests ts' (allPassed && passed)
  end.

(** [main] once connected; the result is the exit code. *)
Definition client_main : M (world client_line) Z :=
  allPassed ← run_tests tests true;
  Log (if allPassed : bool then AllPassed else SomeFailed) ;;
  mret (if allPassed : bool then 0 else 1).
End Operations.

Section Example.
#[local] Existing Instances host64 slow_system.

Example login_exchange :
  let '(o, w) := run_test test_login (connected
    [2; 0; 15; 0; 0; 0; 3; 1; 233; 3; 0; 0; 254; 255; 255; 255; 1; 0; 0; 0; 33]) in
  o = Ret true ∧ incoming w = [] ∧
  console w !! 2%nat = Some (RecvLine (PLoginResponse (MkLoginResponse (Prim 1) (Prim 1001) (Str [33])))).
Proof. by vm_compute. Qed.
End Example.
