(* ===== verification/ClientPackets.v ===== *)
(** The packets of the sample client on the wire: what its generated and hand-written
    serializers send, and what a receiver holds afterwards. *)
From stdpp Require Import strings.
From S2P Require Import Prelude Endian Writer Reader Headers Utf Strings Formatter Collections Objects Decoded Api Packet Text Net CppClient.

(** ** The interface of a packet type

    Unlike [FormatterLaws] it allows a reader that fills part of an existing object: what
    a receiver ends up with depends on the object it read into, and reading is safe only
    into an object of the right [shape] (its C arrays have their declared lengths). *)
Class Transfer `{Platform} (T : Type) `{!MemoryPackFormatter T} := {
  sendable : T → Prop;
  sent : T → list Z;
  received : T → T → T;
  shape : T → Prop;
  transfer_emits v : sendable v → emits (Serialize v) (sent v);
  transfer_bytes v : sendable v → bytes_ok (sent v);
  transfer_shape : shape value_init;
  transfer_reads v old : sendable v → shape old → reads DefaultOptions 0 (Deserialize old) (sent v) (received old v);
  transfer_safe old : shape old → safe (Deserialize old) (λ v _, shape v);
}.

#[export] Hint Mode Transfer - ! - : typeclass_instances.

Section Lawful.
Context `{Platform} {T : Type} `{!MemoryPackFormatter T, !WireFormat T, !FormatterLaws T}.

(** A lawful formatter replaces the object altogether. *)
#[global] Instance lawful_transfer : Transfer T | 100.
Proof.
  refine {| sendable := portable; sent := enc; received := λ _ v, v; shape := λ _, True |}.
  - intros v [Hv _]. by apply law_emits.
  - intros v [Hv _]. by apply law_bytes.
  - done.
  - intros v old [Hv Hw] _. by apply law_reads.
  - intros old _ r Hr. eapply safe_at_mono; [by apply law_safe|done].
Defined.
End Lawful.

Section Laws.
Context `{Platform}.

#[global] Instance LoginRequest_laws : MembersLaws LoginRequest := {
  specs := [MemberSpec lrq_username_m; MemberSpec lrq_level_m];
  specs_members := eq_refl; specs_count := ltac:(done); specs_rebuild := ltac:(by intros [] []) }.
#[global] Instance LoginResponse_laws : MembersLaws LoginResponse := {
  specs := [MemberSpec lrs_success_m; MemberSpec lrs_playerId_m; MemberSpec lrs_message_m];
  specs_members := eq_refl; specs_count := ltac:(done); specs_rebuild := ltac:(by intros [] []) }.
#[global] Instance PlayerState_laws : MembersLaws PlayerState := {
  specs := [MemberSpec ps_playerId_m; MemberSpec ps_posX_m; MemberSpec ps_posY_m; MemberSpec ps_posZ_m; MemberSpec ps_name_m];
  specs_members := eq_refl; specs_count := ltac:(done); specs_rebuild := ltac:(by intros [] []) }.
#[global] Instance ScoreUpdate_laws : MembersLaws ScoreUpdate := {
  specs := [MemberSpec su_playerId_m; MemberSpec su_scores_m; MemberSpec su_totalScore_m];
  specs_members := eq_refl; specs_count := ltac:(done); specs_rebuild := ltac:(by intros [] []) }.
#[global] Instance ChatMessage_laws : MembersLaws ChatMessage := {
  specs := [MemberSpec cm_senderId_m; MemberSpec cm_message_m; MemberSpec cm_timestamp_m];
  specs_members := eq_refl; specs_count := ltac:(done); specs_rebuild := ltac:(by intros [] []) }.
#[global] Instance InventoryData_laws : MembersLaws InventoryData := {
  specs := [MemberSpec inv_playerId_m; MemberSpec inv_itemNames_m; MemberSpec inv_itemCounts_m];
  specs_members := eq_refl; specs_count := ltac:(done); specs_rebuild := ltac:(by intros [] []) }.
#[global] Instance BufferData_laws : MembersLaws BufferData := {
  specs := [MemberSpec bd_tag_m; MemberSpec bd_grade_m; MemberSpec bd_rawData_m; MemberSpec bd_charCodes_m];
  specs_members := eq_refl; specs_count := ltac:(done); specs_rebuild := ltac:(by intros [] []) }.
#[global] Instance IntArrayPacket_laws : MembersLaws IntArrayPacket := {
  specs := [MemberSpec ia_id_m; MemberSpec ia_shortArray_m; MemberSpec ia_intArray_m; MemberSpec ia_longArray_m];
  specs_members := eq_refl; specs_count := ltac:(done); specs_rebuild := ltac:(by intros [] []) }.
End Laws.

(** ** C arrays *)

Section CArrays.
Context `{Platform}.

(** The first [n] elements of [src] over those of [dst]. *)
Definition refill (n : Z) (src dst : list Z) : list Z := take (Z.to_nat n) src ++ drop (Z.to_nat n) dst.

Definition enc_c_array (t : arith_ty) (arr : list Z) (n : Z) : list Z :=
  le_bytes 4 n ++ (take (Z.to_nat n) arr ≫= le_bytes (arith_size t)).

(** An array of [N] elements, [n] of which are in use. *)
Definition c_array (t : arith_ty) (N : nat) (arr : list Z) (n : Z) : Prop :=
  length arr = N ∧ 0 ≤ n ≤ Z.of_nat N ∧ Forall (arith_ok t) arr.

Lemma c_array_emits t N arr n : c_array t N arr n → Z.of_nat N < 2 ^ 31 → emits (WriteArray t arr n) (enc_c_array t arr n).
Proof.
  intros (Hl & Hn & Hok) HN. unfold enc_c_array. rewrite <-(Z2Nat.id n) at 1 2 by lia.
  apply WriteArray_emits; [lia|by apply Forall_take|lia].
Qed.

Lemma c_array_reads o t N arr n dst : c_array t N arr n → length dst = N → Z.of_nat N < 2 ^ 31 → Z.of_nat N ≤ maxCollectionLength o →
  ∀ d, reads o d (ReadArray t dst (Z.of_nat N)) (enc_c_array t arr n) (n, refill n arr dst).
Proof.
  intros (Hl & Hn & Hok) Hd HN Hlim d. assert (Hlen : length (take (Z.to_nat n) arr) = Z.to_nat n) by (rewrite length_take; lia).
  pose proof (reads_ReadArray o d t dst N (take (Z.to_nat n) arr)) as Hr. unfold zlen in Hr. rewrite Hlen in Hr.
  rewrite Z2Nat.id, Z.min_l, take_take, Nat.min_r in Hr by lia. apply Hr; [by apply Forall_take|lia|lia|done].
Qed.

Lemma c_array_bytes t N arr n : c_array t N arr n → Z.of_nat N < 2 ^ 31 → bytes_ok (enc_c_array t arr n).
Proof. intros Hc HN. apply bytes_ok_app; [apply le_bytes_ok|]. apply bytes_ok_bind. intros. apply le_bytes_ok. Qed.

(** *** One member after the other: [P] is an invariant of the object *)
Section Member.
Context {A V : Type} (P : V → Prop) (m : V → R A) (f : A → V → V).
Context (Hm : ∀ v r, r_ok r → P v → safe_at r (m v) (λ x _, P (f x v))).

Lemma safe_member c n v : P v → safe (assign_if c n m f v) (λ v _, P v).
Proof.
  intros Hv r Hr. unfold assign_if. destruct (c >=? n); [|by apply safe_at_ret].
  eapply safe_at_bind; [by apply Hm|]. intros x r1 Hr1 _ Hx. by apply safe_at_ret.
Qed.

Lemma safe_member_then {B} c n v (k : V → R B) (Q : B → Prop) : P v → (∀ v, P v → safe (k v) (λ b _, Q b)) →
  safe (v ← assign_if c n m f v; k v) (λ b _, Q b).
Proof. intros Hv Hk r Hr. eapply safe_at_bind; [by apply safe_member|]. intros v1 r1 Hr1 _ Hv1. by apply Hk. Qed.

(** A member the sender wrote. *)
Lemma reads_member o d c n v bs a : n ≤ c → P v → reads o d (m v) bs a → reads o d (assign_if c n m f v) bs (f a v).
Proof.
  intros Hn Hv Hr. unfold assign_if. destruct (Z.geb_spec c n); [|lia]. apply (reads_map o d (m v) (λ x, f x v)); [done|].
  intros r Hr1. eapply safe_at_anything. by apply Hm.
Qed.

Lemma reads_member_then {B} o d c n v (k : V → R B) (Q : B → Prop) bs1 bs2 a b : n ≤ c → P v → reads o d (m v) bs1 a →
  reads o d (k (f a v)) bs2 b → (∀ v, P v → safe (k v) (λ b _, Q b)) →
  reads o d (v ← assign_if c n m f v; k v) (bs1 ++ bs2) b.
Proof.
  intros Hn Hv Hr Hk Sk. apply (reads_bind_post P _ _ _ _ _ _ (f a v)); [by apply reads_member|by apply safe_member|done|].
  intros v1 r1 Hr1 Hv1. eapply safe_at_anything. by apply Sk.
Qed.
End Member.

(** Members read for what they are. *)
Lemma safe_plain {A V} (P : V → Prop) (m : R A) (f : A → V → V) : safe m anything → (∀ x v, P v → P (f x v)) →
  ∀ v r, r_ok r → P v → safe_at r m (λ x _, P (f x v)).
Proof. intros Hm Hf v r Hr Hv. eapply safe_at_mono; [by apply Hm|]. intros. by apply Hf. Qed.

(** An array of the object, filled in place. *)
Lemma safe_fill {V} (P : V → Prop) t N (get : V → list Z) (f : Z * list Z → V → V) :
  (∀ v, P v → length (get v) = N) →
  (∀ x v, 0 ≤ x.1 ≤ Z.of_nat N → length x.2 = N → P v → P (f x v)) →
  ∀ v r, r_ok r → P v → safe_at r (ReadArray t (get v) (Z.of_nat N)) (λ x _, P (f x v)).
Proof.
  intros Hl Hf v r Hr Hv. specialize (Hl v Hv).
  eapply safe_at_mono; [apply (safe_ReadArray_bound t (get v) (Z.of_nat N)); [unfold zlen; lia|done]|].
  intros x r1 _ [Hx1 [Hx2 _]]. apply Hf; [done|congruence|done].
Qed.

(** The header in front of the members. *)
Lemma safe_after_header {V} (P : V → Prop) (k : V → Z → R V) v : P v → (∀ c, safe (k v c) (λ v _, P v)) →
  safe (h ← ReadObjectHeader; if isNull h then mret v else k v (count h)) (λ v _, P v).
Proof.
  intros Hv Hk r Hr. eapply safe_at_bind; [by apply safe_ReadObjectHeader|]. intros h r1 Hr1 _ _.
  destruct (isNull h); [by apply safe_at_ret|by apply Hk].
Qed.
End CArrays.

(** *** [SkillSlotData] *)

Section SkillSlots.
Context `{Platform}.

Definition SkillSlotData_shape (v : SkillSlotData) : Prop :=
  length (ss_skillIds v) = 8%nat ∧ ss_skillCount v ≤ 8 ∧ length (ss_cooldowns v) = 8%nat ∧ ss_cooldownCount v ≤ 8.

Definition SkillSlotData_sent (v : SkillSlotData) : list Z :=
  3 :: le_bytes 4 (ss_playerId v) ++ enc_c_array Int32 (ss_skillIds v) (ss_skillCount v) ++
  enc_c_array Float32 (ss_cooldowns v) (ss_cooldownCount v).

Definition SkillSlotData_received (old v : SkillSlotData) : SkillSlotData :=
  MkSkillSlotData (ss_playerId v) (refill (ss_skillCount v) (ss_skillIds v) (ss_skillIds old)) (ss_skillCount v)
    (refill (ss_cooldownCount v) (ss_cooldowns v) (ss_cooldowns old)) (ss_cooldownCount v).

Definition SkillSlotData_sendable (v : SkillSlotData) : Prop :=
  arith_ok Int32 (ss_playerId v) ∧ c_array Int32 8 (ss_skillIds v) (ss_skillCount v) ∧
  c_array Float32 8 (ss_cooldowns v) (ss_cooldownCount v).

#[local] Abbreviation shape_ := SkillSlotData_shape.

Lemma ss_safe1 : ∀ v r, r_ok r → shape_ v → safe_at r ReadInt32 (λ x _, shape_ (ss_set_playerId x v)).
Proof. apply safe_plain; [apply safe_ReadRaw_any|done]. Qed.
Lemma ss_safe2 : ∀ v r, r_ok r → shape_ v → safe_at r (ReadArray Int32 (ss_skillIds v) MAX_SKILLS) (λ x _, shape_ (ss_set_skills x v)).
Proof. apply (safe_fill shape_ Int32 8); unfold shape_; cbn; intuition lia. Qed.
Lemma ss_safe3 : ∀ v r, r_ok r → shape_ v → safe_at r (ReadArray Float32 (ss_cooldowns v) MAX_SKILLS) (λ x _, shape_ (ss_set_cooldowns x v)).
Proof. apply (safe_fill shape_ Float32 8); unfold shape_; cbn; intuition lia. Qed.

Lemma SkillSlotData_assign_safe cnt v : shape_ v → safe (SkillSlotData_assign v cnt) (λ v _, shape_ v).
Proof.
  intros Hv. apply (safe_member_then _ _ _ ss_safe1); [done|]. intros v1 Hv1.
  apply (safe_member_then _ _ _ ss_safe2); [done|]. intros v2 Hv2. by apply (safe_member _ _ _ ss_safe3).
Qed.

Lemma SkillSlotData_assign_reads v old : SkillSlotData_sendable v → shape_ old →
  reads DefaultOptions 0 (SkillSlotData_assign old 3) (tail (SkillSlotData_sent v)) (SkillSlotData_received old v).
Proof.
  intros (Hp & Hs & Hc) Hold.
  change (SkillSlotData_received old v) with (ss_set_cooldowns (ss_cooldownCount v, refill (ss_cooldownCount v) (ss_cooldowns v) (ss_cooldowns old))
    (ss_set_skills (ss_skillCount v, refill (ss_skillCount v) (ss_skillIds v) (ss_skillIds old)) (ss_set_playerId (ss_playerId v) old))).
  apply (reads_member_then shape_ _ _ ss_safe1 _ _ _ _ _ _ shape_ _ _ (ss_playerId v));
    [done|done|by apply (reads_ReadRaw _ _ Int32)| |intros v1 Hv1; apply (safe_member_then _ _ _ ss_safe2); [done|];
     intros; by apply (safe_member _ _ _ ss_safe3)].
  apply (reads_member_then shape_ _ _ ss_safe2 _ _ _ _ _ _ shape_ _ _ (ss_skillCount v, refill (ss_skillCount v) (ss_skillIds v) (ss_skillIds old)));
    [done|done|by apply (c_array_reads _ _ 8); [..|apply Hold| |vm_compute; discriminate]| |intros; by apply (safe_member _ _ _ ss_safe3)].
  apply (reads_member shape_ _ _ ss_safe3 _ _ _ _ _ _ (ss_cooldownCount v, refill (ss_cooldownCount v) (ss_cooldowns v) (ss_cooldowns old)));
    [done| |by apply (c_array_reads _ _ 8); [..|apply Hold| |vm_compute; discriminate]].
  destruct Hold as (? & ? & ? & ?), Hs as (? & ? & _). split; [|split; [cbn; lia|done]]. cbn. unfold refill. rewrite length_app, length_take, length_drop. lia.
Qed.

#[global] Instance SkillSlotData_transfer : Transfer SkillSlotData.
Proof.
  refine {| sendable := SkillSlotData_sendable; sent := SkillSlotData_sent; received := SkillSlotData_received; shape := shape_ |}.
  - intros v (Hp & Hs & Hc). apply (emits_bind _ _ [3]); [by apply WriteObjectHeader_emits|].
    apply emits_bind; [by apply (WriteRaw_emits Int32)|]. apply emits_bind; by apply (c_array_emits _ 8).
  - intros v (Hp & Hs & Hc). apply Forall_cons. split; [done|]. apply bytes_ok_app; [apply le_bytes_ok|].
    apply bytes_ok_app; by eapply (c_array_bytes _ 8).
  - by split.
  - intros v old Hv Hold. apply (reads_header_then _ _ old); [done|by apply SkillSlotData_assign_reads|].
    intros c r Hr. eapply safe_at_anything. by apply SkillSlotData_assign_safe.
  - intros old Hold. apply safe_after_header; [done|]. intros c. by apply SkillSlotData_assign_safe.
Defined.
End SkillSlots.

(** *** [MapTileRow] *)

Section MapTiles.
Context `{Platform}.

Definition MapTileRow_shape (v : MapTileRow) : Prop :=
  length (mt_tiles v) = 64%nat ∧ mt_tileCount v ≤ 64 ∧ length (mt_heights v) = 64%nat ∧ mt_heightCount v ≤ 64.

Definition MapTileRow_sent (v : MapTileRow) : list Z :=
  3 :: le_bytes 4 (mt_rowIndex v) ++ enc_c_array UInt8 (mt_tiles v) (mt_tileCount v) ++
  enc_c_array Int16 (mt_heights v) (mt_heightCount v).

Definition MapTileRow_received (old v : MapTileRow) : MapTileRow :=
  MkMapTileRow (mt_rowIndex v) (refill (mt_tileCount v) (mt_tiles v) (mt_tiles old)) (mt_tileCount v)
    (refill (mt_heightCount v) (mt_heights v) (mt_heights old)) (mt_heightCount v).

Definition MapTileRow_sendable (v : MapTileRow) : Prop :=
  arith_ok Int32 (mt_rowIndex v) ∧ c_array UInt8 64 (mt_tiles v) (mt_tileCount v) ∧
  c_array Int16 64 (mt_heights v) (mt_heightCount v).

#[local] Abbreviation shape_ := MapTileRow_shape.

Lemma mt_safe1 : ∀ v r, r_ok r → shape_ v → safe_at r ReadInt32 (λ x _, shape_ (mt_set_rowIndex x v)).
Proof. apply safe_plain; [apply safe_ReadRaw_any|done]. Qed.
Lemma mt_safe2 : ∀ v r, r_ok r → shape_ v → safe_at r (ReadArray UInt8 (mt_tiles v) MAX_TILES) (λ x _, shape_ (mt_set_tiles x v)).
Proof. apply (safe_fill shape_ UInt8 64); unfold shape_; cbn; intuition lia. Qed.
Lemma mt_safe3 : ∀ v r, r_ok r → shape_ v → safe_at r (ReadArray Int16 (mt_heights v) MAX_TILES) (λ x _, shape_ (mt_set_heights x v)).
Proof. apply (safe_fill shape_ Int16 64); unfold shape_; cbn; intuition lia. Qed.

Lemma MapTileRow_assign_safe cnt v : shape_ v → safe (MapTileRow_assign v cnt) (λ v _, shape_ v).
Proof.
  intros Hv. apply (safe_member_then _ _ _ mt_safe1); [done|]. intros v1 Hv1.
  apply (safe_member_then _ _ _ mt_safe2); [done|]. intros v2 Hv2. by apply (safe_member _ _ _ mt_safe3).
Qed.

Lemma MapTileRow_assign_reads v old : MapTileRow_sendable v → shape_ old →
  reads DefaultOptions 0 (MapTileRow_assign old 3) (tail (MapTileRow_sent v)) (MapTileRow_received old v).
Proof.
  intros (Hp & Hs & Hc) Hold.
  change (MapTileRow_received old v) with (mt_set_heights (mt_heightCount v, refill (mt_heightCount v) (mt_heights v) (mt_heights old))
    (mt_set_tiles (mt_tileCount v, refill (mt_tileCount v) (mt_tiles v) (mt_tiles old)) (mt_set_rowIndex (mt_rowIndex v) old))).
  apply (reads_member_then shape_ _ _ mt_safe1 _ _ _ _ _ _ shape_ _ _ (mt_rowIndex v));
    [done|done|by apply (reads_ReadRaw _ _ Int32)| |intros v1 Hv1; apply (safe_member_then _ _ _ mt_safe2); [done|];
     intros; by apply (safe_member _ _ _ mt_safe3)].
  apply (reads_member_then shape_ _ _ mt_safe2 _ _ _ _ _ _ shape_ _ _ (mt_tileCount v, refill (mt_tileCount v) (mt_tiles v) (mt_tiles old)));
    [done|done|by apply (c_array_reads _ _ 64); [..|apply Hold| |vm_compute; discriminate]| |intros; by apply (safe_member _ _ _ mt_safe3)].
  apply (reads_member shape_ _ _ mt_safe3 _ _ _ _ _ _ (mt_heightCount v, refill (mt_heightCount v) (mt_heights v) (mt_heights old)));
    [done| |by apply (c_array_reads _ _ 64); [..|apply Hold| |vm_compute; discriminate]].
  destruct Hold as (? & ? & ? & ?), Hs as (? & ? & _). split; [|split; [cbn; lia|done]]. cbn. unfold refill. rewrite length_app, length_take, length_drop. lia.
Qed.

#[global] Instance MapTileRow_transfer : Transfer MapTileRow.
Proof.
  refine {| sendable := MapTileRow_sendable; sent := MapTileRow_sent; received := MapTileRow_received; shape := shape_ |}.
  - intros v (Hp & Hs & Hc). apply (emits_bind _ _ [3]); [by apply WriteObjectHeader_emits|].
    apply emits_bind; [by apply (WriteRaw_emits Int32)|]. apply emits_bind; by apply (c_array_emits _ 64).
  - intros v (Hp & Hs & Hc). apply Forall_cons. split; [done|]. apply bytes_ok_app; [apply le_bytes_ok|].
    apply bytes_ok_app; by eapply (c_array_bytes _ 64).
  - by split.
  - intros v old Hv Hold. apply (reads_header_then _ _ old); [done|by apply MapTileRow_assign_reads|].
    intros c r Hr. eapply safe_at_anything. by apply MapTileRow_assign_safe.
  - intros old Hold. apply safe_after_header; [done|]. intros c. by apply MapTileRow_assign_safe.
Defined.
End MapTiles.

(** *** [MixedFormatPacket] *)

Section Mixed.
Context `{Platform}.

Definition MixedFormatPacket_shape (v : MixedFormatPacket) : Prop :=
  length (mf_fixedBonuses v) = 4%nat ∧ mf_fixedBonusCount v ≤ 4 ∧ length (mf_tagBytes v) = 16%nat ∧ mf_tagByteCount v ≤ 16.

Definition MixedFormatPacket_sent (v : MixedFormatPacket) : list Z :=
  5 :: le_bytes 4 (mf_id v) ++ (le_bytes 4 (zlen (mf_dynamicScores v)) ++ (mf_dynamicScores v ≫= le_bytes 4)) ++
  enc_c_array Int32 (mf_fixedBonuses v) (mf_fixedBonusCount v) ++ enc_c_array Int8 (mf_tagBytes v) (mf_tagByteCount v) ++
  le_bytes 8 (mf_multiplier v).

Definition MixedFormatPacket_received (old v : MixedFormatPacket) : MixedFormatPacket :=
  MkMixedFormatPacket (mf_id v) (mf_dynamicScores v)
    (refill (mf_fixedBonusCount v) (mf_fixedBonuses v) (mf_fixedBonuses old)) (mf_fixedBonusCount v)
    (refill (mf_tagByteCount v) (mf_tagBytes v) (mf_tagBytes old)) (mf_tagByteCount v) (mf_multiplier v).

Definition MixedFormatPacket_sendable (v : MixedFormatPacket) : Prop :=
  arith_ok Int32 (mf_id v) ∧ (Forall (arith_ok Int32) (mf_dynamicScores v) ∧ zlen (mf_dynamicScores v) < 2 ^ 31) ∧
  c_array Int32 4 (mf_fixedBonuses v) (mf_fixedBonusCount v) ∧ c_array Int8 16 (mf_tagBytes v) (mf_tagByteCount v) ∧
  arith_ok Float64 (mf_multiplier v).

#[local] Abbreviation shape_ := MixedFormatPacket_shape.

Lemma mf_safe1 : ∀ v r, r_ok r → shape_ v → safe_at r ReadInt32 (λ x _, shape_ (mf_set_id x v)).
Proof. apply safe_plain; [apply safe_ReadRaw_any|done]. Qed.
Lemma mf_safe2 : ∀ v r, r_ok r → shape_ v → safe_at r (ReadVector Int32) (λ x _, shape_ (mf_set_scores x v)).
Proof. apply safe_plain; [apply safe_ReadVector|done]. Qed.
Lemma mf_safe3 : ∀ v r, r_ok r → shape_ v → safe_at r (ReadArray Int32 (mf_fixedBonuses v) MAX_BONUSES) (λ x _, shape_ (mf_set_bonuses x v)).
Proof. apply (safe_fill shape_ Int32 4); unfold shape_; cbn; intuition lia. Qed.
Lemma mf_safe4 : ∀ v r, r_ok r → shape_ v → safe_at r (ReadArray Int8 (mf_tagBytes v) MAX_TAG_LEN) (λ x _, shape_ (mf_set_tag x v)).
Proof. apply (safe_fill shape_ Int8 16); unfold shape_; cbn; intuition lia. Qed.
Lemma mf_safe5 : ∀ v r, r_ok r → shape_ v → safe_at r ReadDouble (λ x _, shape_ (mf_set_multiplier x v)).
Proof. apply safe_plain; [apply safe_ReadRaw_any|done]. Qed.

#[local] Ltac mf_safe :=
  repeat first [ by apply (safe_member _ _ _ mf_safe5)
    | apply (safe_member_then _ _ _ mf_safe1); [done|]; intros ? ? | apply (safe_member_then _ _ _ mf_safe2); [done|]; intros ? ?
    | apply (safe_member_then _ _ _ mf_safe3); [done|]; intros ? ? | apply (safe_member_then _ _ _ mf_safe4); [done|]; intros ? ? ].

Lemma MixedFormatPacket_assign_safe cnt v : shape_ v → safe (MixedFormatPacket_assign v cnt) (λ v _, shape_ v).
Proof. intros Hv. unfold MixedFormatPacket_assign. mf_safe. Qed.

Lemma MixedFormatPacket_assign_reads v old : MixedFormatPacket_sendable v → shape_ old →
  reads DefaultOptions 0 (MixedFormatPacket_assign old 5) (tail (MixedFormatPacket_sent v)) (MixedFormatPacket_received old v).
Proof.
  intros (Hp & [Hd Hdl] & Hb & Ht & Hm) Hold. set (bonuses := (mf_fixedBonusCount v, refill (mf_fixedBonusCount v) (mf_fixedBonuses v) (mf_fixedBonuses old))).
  set (tag := (mf_tagByteCount v, refill (mf_tagByteCount v) (mf_tagBytes v) (mf_tagBytes old))).
  change (MixedFormatPacket_received old v) with (mf_set_multiplier (mf_multiplier v) (mf_set_tag tag (mf_set_bonuses bonuses
    (mf_set_scores (mf_dynamicScores v) (mf_set_id (mf_id v) old))))).
  assert (Hlen : length bonuses.2 = 4%nat ∧ length tag.2 = 16%nat).
  { destruct Hold as (? & ? & ? & ?), Hb as (? & ? & _), Ht as (? & ? & _). unfold bonuses, tag, refill. cbn [snd].
    rewrite !length_app, !length_take, !length_drop. lia. }
  apply (reads_member_then shape_ _ _ mf_safe1 _ _ _ _ _ _ shape_ _ _ (mf_id v));
    [done|done|by apply (reads_ReadRaw _ _ Int32)| |intros; mf_safe].
  apply (reads_member_then shape_ _ _ mf_safe2 _ _ _ _ _ _ shape_ _ _ (mf_dynamicScores v));
    [done|done|by apply (reads_ReadVector _ _ Int32); [..|cbn; lia]| |intros; mf_safe].
  apply (reads_member_then shape_ _ _ mf_safe3 _ _ _ _ _ _ shape_ _ _ bonuses);
    [done|done|by apply (c_array_reads _ _ 4); [..|apply Hold| |vm_compute; discriminate]| |intros; mf_safe].
  destruct Hold as (Hb1 & Hb2 & Ht1 & Ht2), Hb as (_ & Hb3 & _), Ht as (Ht3 & Ht4 & Ht5).
  assert (Hs3 : shape_ (mf_set_bonuses bonuses (mf_set_scores (mf_dynamicScores v) (mf_set_id (mf_id v) old)))).
  { split; [apply Hlen|]. by split; [cbn; lia|]. }
  apply (reads_member_then shape_ _ _ mf_safe4 _ _ _ _ _ _ shape_ _ _ tag);
    [done|done|by apply (c_array_reads _ _ 16); [|..|vm_compute; discriminate]| |intros; mf_safe].
  apply (reads_member shape_ _ _ mf_safe5); [done| |by apply (reads_ReadRaw _ _ Float64)].
  split; [apply Hs3|]. split; [apply Hs3|]. split; [apply Hlen|cbn; lia].
Qed.

#[global] Instance MixedFormatPacket_transfer : Transfer MixedFormatPacket.
Proof.
  refine {| sendable := MixedFormatPacket_sendable; sent := MixedFormatPacket_sent; received := MixedFormatPacket_received; shape := shape_ |}.
  - intros v (Hp & [Hd Hdl] & Hb & Ht & Hm). apply (emits_bind _ _ [5]); [by apply WriteObjectHeader_emits|].
    apply emits_bind; [by apply (WriteRaw_emits Int32)|]. apply emits_bind; [by apply (WriteVector_emits Int32)|].
    apply emits_bind; [by apply (c_array_emits _ 4)|]. apply emits_bind; [by apply (c_array_emits _ 16)|by apply (WriteRaw_emits Float64)].
  - intros v (Hp & Hd & Hb & Ht & Hm). apply Forall_cons. split; [done|]. apply bytes_ok_app; [apply le_bytes_ok|].
    apply bytes_ok_app; [apply bytes_ok_app; [|apply bytes_ok_bind; intros]; apply le_bytes_ok|].
    apply bytes_ok_app; [by eapply (c_array_bytes _ 4)|]. apply bytes_ok_app; [by eapply (c_array_bytes _ 16)|apply le_bytes_ok].
  - by split.
  - intros v old Hv Hold. apply (reads_header_then _ _ old); [done|by apply MixedFormatPacket_assign_reads|].
    intros c r Hr. eapply safe_at_anything. by apply MixedFormatPacket_assign_safe.
  - intros old Hold. apply safe_after_header; [done|]. intros c. by apply MixedFormatPacket_assign_safe.
Defined.
End Mixed.

(** ** Packets of any type *)

Section AnyPacket.
Context `{Platform}.

Definition with_packet {X} (f : ∀ T (F : MemoryPackFormatter T), Transfer T → T → X) (p : client_packet) : X :=
  match p with
  | PLoginRequest v => f _ _ _ v
  | PLoginResponse v => f _ _ _ v
  | PPlayerState v => f _ _ _ v
  | PScoreUpdate v => f _ _ _ v
  | PChatMessage v => f _ _ _ v
  | PInventoryData v => f _ _ _ v
  | PBufferData v => f _ _ _ v
  | PIntArrayPacket v => f _ _ _ v
  | PSkillSlotData v => f _ _ _ v
  | PMapTileRow v => f _ _ _ v
  | PMixedFormatPacket v => f _ _ _ v
  end.

Definition packet_sendable : client_packet → Prop := with_packet (λ T F Tr v, sendable v).
Definition packet_sent : client_packet → list Z := with_packet (λ T F Tr v, sent v).

(** What a fresh object holds after receiving [p]: [p] itself, except that the part of a
    C array that was not sent is zero. *)
Definition packet_received (p : client_packet) : client_packet :=
  match p with
  | PSkillSlotData v => PSkillSlotData (SkillSlotData_received value_init v)
  | PMapTileRow v => PMapTileRow (MapTileRow_received value_init v)
  | PMixedFormatPacket v => PMixedFormatPacket (MixedFormatPacket_received value_init v)
  | p => p
  end.

Definition packet_type (p : client_packet) : PacketId :=
  match p with
  | PLoginRequest _ => LoginRequestId
  | PLoginResponse _ => LoginResponseId
  | PPlayerState _ => PlayerStateId
  | PScoreUpdate _ => ScoreUpdateId
  | PChatMessage _ => ChatMessageId
  | PInventoryData _ => InventoryDataId
  | PBufferData _ => BufferDataId
  | PIntArrayPacket _ => IntArrayPacketId
  | PSkillSlotData _ => SkillSlotDataId
  | PMapTileRow _ => MapTileRowId
  | PMixedFormatPacket _ => MixedFormatPacketId
  end.

Lemma packet_of_id_id t : packet_of_id (packet_id t) = Some t.
Proof. by destruct t. Qed.

Lemma packet_sent_ok p : packet_sendable p → bytes_ok (packet_sent p).
Proof. destruct p; apply transfer_bytes. Qed.

Lemma serialize_packet_sent p : packet_sendable p → zlen (packet_sent p) ≤ grow_limit → serialize_packet p = Ret (packet_sent p).
Proof. destruct p; intros Hp Hl; by apply SerializeNew_emits; [apply transfer_emits|]. Qed.

Lemma deserialize_packet_sent p : packet_sendable p → zlen (packet_sent p) < size_mod →
  deserialize_packet (packet_type p) (packet_sent p) = Ret (packet_received p).
Proof.
  intros Hp Hl. pose proof (packet_sent_ok p Hp) as Hb.
  assert (Hone : ∀ T (F : MemoryPackFormatter T) (Tr : Transfer T) (v : T), sendable v → bytes_ok (sent v) → zlen (sent v) < size_mod →
    DeserializeNew (sent v) = Ret (received value_init v)).
  { intros T F Tr v Hv Hbv Hlv. by apply DeserializeInto_reads; [apply transfer_reads, transfer_shape|..]. }
  destruct p as [v|v|v|v|v|v|v|v|v|v|v]; cbn [deserialize_packet packet_type];
    (etrans; [apply (f_equal (outcome_map _) (Hone _ _ _ v Hp Hb Hl))|reflexivity]).
Qed.

(** Whatever the body, a packet comes out or an exception; only the two vectors of an
    inventory need not fit together. *)
Lemma deserialize_packet_any t body : bytes_ok body → zlen body < size_mod →
  (∃ p, deserialize_packet t body = Ret p ∧ packet_type p = t ∧ (t ≠ InventoryDataId → printable p = true)) ∨
  has_exceptions = true ∧ ∃ e off, deserialize_packet t body = Throw e off.
Proof.
  intros Hb Hl. assert (Hany : ∀ T (F : MemoryPackFormatter T) (Tr : Transfer T),
    (∃ v : T, DeserializeNew body = Ret v ∧ shape v) ∨ has_exceptions = true ∧ ∃ e off, DeserializeNew (T := T) body = Throw e off).
  { intros T F Tr. by apply (DeserializeInto_safe value_init shape); [apply transfer_safe, transfer_shape|..]. }
  destruct t; cbn [deserialize_packet];
    match goal with |- context [@DeserializeNew ?T ?F _] =>
      destruct (Hany T F ltac:(typeclasses eauto)) as [(v & -> & Hv)|(Hex & e & off & ->)]; [left|right; by eauto]
    end; eexists;
    (split; [reflexivity|]); (split; [reflexivity|]); intros Hne; try done; cbn;
    destruct Hv as (L1 & ? & L2 & ?); unfold zlen; rewrite ?L1, ?L2;
    apply andb_true_iff; split; apply Z.leb_le; cbn; lia.
Qed.
End AnyPacket.

(** ** Dispatch *)

Section Dispatch.
Context `{Platform}.

(** C27: The dispatch table agrees with the serializers, for every kind of packet. A packet
    serialized by its sender and dispatched under its id reaches the handler exactly once,
    unchanged except that the unused tail of a C array is zero at the receiver; and an id
    that is in no case label runs no handler and reports false, whatever the body. *)
Theorem DispatchPacket_delivers {S} p (handler : client_packet → M S unit) (s : S) :
  packet_sendable p → zlen (packet_sent p) ≤ grow_limit →
  serialize_packet p = Ret (packet_sent p) ∧
  DispatchPacket (packet_id (packet_type p)) (packet_sent p) handler s = (handler (packet_received p) ;; mret true) s ∧
  ∀ id body, (∀ t, id ≠ packet_id t) → DispatchPacket id body handler s = (Ret false, s).
Proof.
  intros Hp Hl. pose proof grow_limit_bounds. split; [by apply serialize_packet_sent|]. split.
  - unfold DispatchPacket. rewrite packet_of_id_id. unfold mbind at 1, M_bind at 1, lift_outcome.
    rewrite deserialize_packet_sent by (done || lia). done.
  - intros id body Hid. unfold DispatchPacket. destruct (packet_of_id id) as [t|] eqn:E; [|done]. destruct (Hid t).
    unfold packet_of_id in E. repeat (case_match; [injection E as <-; cbn; lia|]). done.
Qed.
End Dispatch.

Section Witness.
#[local] Existing Instance host64.

Definition some_skills : SkillSlotData := MkSkillSlotData 7 [1; 2; 3; 0; 0; 0; 0; 9] 2 (replicate 8 0) 0.

Lemma some_skills_sendable : packet_sendable (PSkillSlotData some_skills).
Proof. split; [done|]. by split; (split; [done|]); (split; [done|]); repeat (apply Forall_cons; split; [by split|]). Qed.

(** The third element is beyond the count: it is not sent. *)
Lemma DispatchPacket_delivers_witness :
  serialize_packet (PSkillSlotData some_skills) = Ret [3; 7; 0; 0; 0; 2; 0; 0; 0; 1; 0; 0; 0; 2; 0; 0; 0; 0; 0; 0; 0] ∧
  packet_received (PSkillSlotData some_skills) = PSkillSlotData (MkSkillSlotData 7 [1; 2; 0; 0; 0; 0; 0; 0] 2 (replicate 8 0) 0).
Proof.
  split; [|reflexivity].
  apply (DispatchPacket_delivers (PSkillSlotData some_skills) (λ _, mret tt) tt); [apply some_skills_sendable|vm_compute; discriminate].
Defined.

(** A null object leaves what it is read into alone; the generated readers reset it. *)
Example SkillSlotData_null_keeps : DeserializeInto [255] some_skills = Ret some_skills ∧
  DeserializeInto [255] (MkLoginRequest (Str [97]) (Prim 5)) = Ret (MkLoginRequest (Str []) (Prim 0)).
Proof. by split. Qed.
End Witness.
