(* ===== verification/ClientTheorems.v ===== *)
(** The sample client against any server: the packet exchange over a stream, what one
    test does, and the whole program. *)
From stdpp Require Import strings.
From S2P Require Import Prelude Endian Writer Reader Headers Utf Strings Formatter Collections Objects Decoded Api Packet Text Net CppClient ClientPackets.

(** ** Exchanging packets *)

Section Exchange.
Context `{Platform, System, !SystemLaws} {L : Type}.
Implicit Types w : world L.

(** A packet as the client frames it: its header in the byte order of the host. *)
Definition host_frame (id : Z) (body : list Z) : list Z :=
  (object_bytes UInt16 id ++ object_bytes Int32 (zlen body)) ++ body.

(** On a little-endian host that is the header of the protocol. *)
Lemma host_frame_little id body : native_little = true → host_frame id body = frame_bytes (id, body).
Proof. intros En. unfold host_frame, frame_bytes. cbn [Policy_Write DefaultPacketHeaderPolicy fst snd]. unfold endian_convert. by rewrite En. Qed.

Lemma zlen_host_header id n : zlen (object_bytes UInt16 id ++ object_bytes Int32 n) = 6.
Proof. rewrite zlen_app. unfold zlen. by rewrite !length_object_bytes. Qed.

(** [send_exact] of a whole buffer. *)
Lemma send_exact_spec buf w : zlen buf < 2 ^ 31 → ∃ ok part k, send_exact buf (zlen buf) w = (Ret ok, after_send part k w) ∧
  part `prefix_of` buf ∧ (ok = true → part = buf) ∧ (sends_always → ok = true).
Proof.
  intros Hl. destruct (send_loop_spec buf (Z.to_nat (zlen buf)) 0 w) as (ok & part & k & E & Hp & Hiff & Hall);
    [zlia|done|unfold zlen; lia|]. exists ok, part, k. cbn [Z.to_nat drop] in *. split_and!; [exact E|done|tauto|exact Hall].
Qed.

Lemma after_send_twice p1 p2 k1 k2 w : after_send p2 k2 (after_send p1 k1 w) = after_send (p1 ++ p2) k2 w.
Proof. unfold after_send. cbn. by rewrite app_assoc. Qed.

Lemma send_packet_spec id body w : zlen body < 2 ^ 31 →
  ∃ ok part k, send_packet id body w = (Ret ok, after_send part k w) ∧
    part `prefix_of` host_frame id body ∧ (ok = true → part = host_frame id body) ∧ (sends_always → ok = true).
Proof.
  intros Hl. zlen_pos. unfold send_packet. rewrite to_int_small by lia. set (header := object_bytes UInt16 id ++ _).
  assert (Hh : zlen header = PACKET_HEADER_SIZE) by apply zlen_host_header.
  destruct (send_exact_spec header w) as (ok1 & p1 & k1 & E1 & Hp1 & Hf1 & Ha1); [by rewrite Hh|]. rewrite Hh in E1.
  unfold mbind, M_bind. rewrite E1. unfold host_frame. fold header. destruct ok1; cbn [negb].
  2: { exists false, p1, k1. split_and!; [done|by apply prefix_app_r|done|intros Hs; by specialize (Ha1 Hs)]. }
  rewrite Hf1 by done. destruct (Z.gtb_spec (zlen body) 0) as [Hpos|Hz].
  - destruct (send_exact_spec body (after_send header k1 w) Hl) as (ok2 & p2 & k2 & E2 & Hp2 & Hf2 & Ha2).
    exists ok2, (header ++ p2), k2. rewrite E2, after_send_twice. split_and!; [done|by apply prefix_app|intros Ho; by rewrite Hf2|exact Ha2].
  - assert (body = []) as -> by (apply zlen_0_nil; lia). rewrite app_nil_r. exists true, header, k1. by split_and!.
Qed.

(** [recv_exact]: all of the bytes, or nothing to rely on. *)
Lemma recv_exact_spec n w : 0 ≤ n < 2 ^ 31 → ∃ ok buf j k, recv_exact n w = (Ret (ok, buf), after_recv j k w) ∧
  (j ≤ length (incoming w))%nat ∧ buf = take j (incoming w) ∧ (ok = true → zlen buf = n) ∧
  (receives_always → n ≤ zlen (incoming w) → ok = true).
Proof.
  intros Hn. destruct (recv_loop_spec n (Z.to_nat n) [] w) as (ok & buf & j & k & E & Hbuf & Hj & Hok & _ & Hall);
    [rewrite zlen_nil; lia|lia|cbn; lia|]. exists ok, buf, j, k. split_and!; [exact E|done|done|done|].
  intros Hr Hroom. apply Hall; [exact Hr|]. rewrite zlen_nil. lia.
Qed.

Lemma recv_exact_all bs rest w : incoming w = bs ++ rest → zlen bs < 2 ^ 31 → receives_always →
  ∃ k, recv_exact (zlen bs) w = (Ret (true, bs), after_recv (length bs) k w).
Proof.
  intros Hin Hl Hr. zlen_pos. destruct (recv_exact_spec (zlen bs) w) as (ok & buf & j & k & E & Hj & Hbuf & Hok & Hall); [lia|].
  rewrite Hall in * by (done || rewrite Hin; zlia). specialize (Hok eq_refl). exists k. rewrite E.
  assert (j = length bs) as -> by (subst buf; unfold zlen in Hok; rewrite length_take in Hok; lia).
  by rewrite Hbuf, Hin, take_app_length.
Qed.

Lemma after_recv_twice j1 j2 k1 k2 w : after_recv j2 k2 (after_recv j1 k1 w) = after_recv (j1 + j2) k2 w.
Proof. unfold after_recv. cbn. by rewrite drop_drop. Qed.

Lemma recv_packet_frame id body rest w : incoming w = host_frame id body ++ rest → arith_ok UInt16 id → zlen body < 2 ^ 31 →
  receives_always → ∃ k, recv_packet w = (Ret (Some (id, body)), after_recv (length (host_frame id body)) k w).
Proof.
  intros Hin Hid Hl Hr. zlen_pos. unfold host_frame in *. set (header := object_bytes UInt16 id ++ _) in *.
  assert (Hh : zlen header = PACKET_HEADER_SIZE) by apply zlen_host_header.
  destruct (recv_exact_all header (body ++ rest) w) as [k1 E1]; [by rewrite Hin, <-app_assoc|by rewrite Hh|done|].
  unfold recv_packet, mbind, M_bind. rewrite <-Hh, E1. cbn [fst snd negb].
  assert (Hi : slice 0 2 header = object_bytes UInt16 id).
  { unfold slice, header. apply take_app_length'. by rewrite length_object_bytes. }
  assert (Hb : slice 2 4 header = object_bytes Int32 (zlen body)).
  { apply slice_suffix; unfold zlen at 1; by rewrite length_object_bytes. }
  rewrite Hi, Hb, !of_object_bytes_repr by (done || arith_ranges; lia). destruct (Z.gtb_spec (zlen body) 0) as [Hpos|Hz].
  - destruct (recv_exact_all body rest (after_recv (length header) k1 w)) as [k2 E2]; [|done|done|].
    { cbn. rewrite Hin, <-app_assoc. by rewrite drop_app_length. }
    rewrite E2. cbn [fst snd]. exists k2. by rewrite after_recv_twice, <-length_app.
  - assert (body = []) as -> by (apply zlen_0_nil; lia). exists k1. by rewrite app_nil_r.
Qed.

(** A packet from any bytes: it takes a part of them, and fails on less than a header. *)
Lemma recv_packet_any w : bytes_ok (incoming w) → ∃ r j k, recv_packet w = (Ret r, after_recv j k w) ∧
  (∀ id body, r = Some (id, body) → bytes_ok body ∧ zlen body < 2 ^ 31) ∧ (zlen (incoming w) < 6 → r = None).
Proof.
  intros Hb. destruct (recv_exact_spec PACKET_HEADER_SIZE w) as (ok & header & j & k & E & Hj & Hbuf & Hok & _); [done|].
  unfold recv_packet, mbind, M_bind. rewrite E. cbn [fst snd]. destruct ok; cbn [negb]; [|by exists None, j, k].
  specialize (Hok eq_refl). change PACKET_HEADER_SIZE with 6 in Hok.
  assert (Hsix : zlen (incoming w) < 6 → False) by (subst header; unfold zlen in *; rewrite length_take in Hok; lia).
  assert (Hh : bytes_ok header) by (subst header; by apply Forall_take). set (n := of_object_bytes Int32 (slice 2 4 header)).
  assert (Hn : arith_ok Int32 n).
  { apply of_object_bytes_ok; [done|by apply Forall_slice|]. pose proof (zlen_slice 2 4 header ltac:(lia) ltac:(lia) ltac:(lia)) as Hz.
    unfold zlen in Hz. cbn. lia. }
  arith_ranges. destruct (Z.gtb_spec n 0).
  - destruct (recv_exact_spec n (after_recv j k w)) as (ok & body & j2 & k2 & E2 & Hj2 & Hbuf2 & Hok2 & _); [lia|].
    rewrite E2. cbn [fst snd]. rewrite after_recv_twice. eexists _, _, _. split; [reflexivity|]. split; [|by intros ?%Hsix].
    destruct ok; [|done]. intros id b [= <- <-]. split; [subst body; by apply Forall_take, Forall_drop|]. rewrite Hok2 by done. lia.
  - eexists _, _, _. split; [reflexivity|]. split; [|by intros ?%Hsix]. intros id b [= <- <-]. by split; [apply Forall_nil_2|].
Qed.
End Exchange.

(** ** One test *)

(** The clock is read once, by the test that sends a timestamp. *)
Definition clock_after (k : nat) (t : test) : nat := if t_clock t then S k else k.
Definition request_at `{System} (k : nat) (t : test) : client_packet :=
  t_request t (if t_clock t then Z.quot (system_clock k) 1000 else 0).
Definition request_frame `{Platform, System} (k : nat) (t : test) : list Z :=
  host_frame (packet_id (t_id t)) (packet_sent (request_at k t)).

(** A response [t] accepts: under any id, a packet of the type it expects. *)
Definition answers `{Platform} (t : test) (r : Z * client_packet) : Prop :=
  arith_ok UInt16 r.1 ∧ packet_type r.2 = t_response t ∧ packet_sendable r.2 ∧ zlen (packet_sent r.2) < 2 ^ 31 ∧
  printable (packet_received r.2) = true.

(** A request the test can send. *)
Definition request_ok `{Platform} (p : client_packet) : Prop := packet_sendable p ∧ zlen (packet_sent p) ≤ 2 ^ 16.

Section Tests.
Context `{Platform, System, !SystemLaws}.
Implicit Types w : world client_line.

(** What is printed before anything is received. *)
Definition opening (k : nat) (t : test) : list client_line := [TestTitle (t_title t); SendLine (request_at k t)].

(** The state in which [t] sends its request. *)
Definition asking (t : test) w : world client_line :=
  World (incoming w) (outgoing w) (sends w) (recvs w) (clock_after (clock_reads w) t)
    (console w ++ opening (clock_reads w) t).

(** The body of [run_test] after its two lines. *)
Definition exchange (t : test) (req : client_packet) : M (world client_line) bool :=
  body ← lift_outcome (serialize_packet req);
  sent ← send_packet (packet_id (t_id t)) body;
  if negb sent then mret false else
  received ← recv_packet;
  match received with
  | None => mret false
  | Some (_, respBody) =>
      resp ← lift_outcome (deserialize_packet (t_response t) respBody);
      if printable resp then Log (RecvLine resp) ;; mret true else undefined
  end.

Lemma run_test_exchange t w : run_test t w = exchange t (request_at (clock_reads w) t) (asking t w).
Proof.
  assert (Hclock : ∀ w, (if t_clock t then current_timestamp_ms else mret 0) w =
    (Ret (if t_clock t then Z.quot (system_clock (clock_reads w)) 1000 else 0),
     World (incoming w) (outgoing w) (sends w) (recvs w) (clock_after (clock_reads w) t) (console w))).
  { intros w1. unfold clock_after. destruct (t_clock t); [done|by destruct w1]. }
  unfold run_test. unfold mbind at 1, M_bind at 1. unfold Log at 1, modify at 1. unfold mbind at 1, M_bind at 1. rewrite Hclock.
  unfold mbind at 1, M_bind at 1. unfold Log at 1, modify at 1. cbn [incoming outgoing sends recvs clock_reads console].
  rewrite <-app_assoc. reflexivity.
Qed.


(** Sending the request: all of [exchange] up to the reply. *)
Lemma exchange_sends t req w : request_ok req → ∃ ok part k,
  part `prefix_of` host_frame (packet_id (t_id t)) (packet_sent req) ∧
  (ok = true → part = host_frame (packet_id (t_id t)) (packet_sent req)) ∧ (sends_always → ok = true) ∧
  exchange t req w = (if ok then
      received ← recv_packet;
      match received with
      | None => mret false
      | Some (_, respBody) =>
          resp ← lift_outcome (deserialize_packet (t_response t) respBody);
          if printable resp then Log (RecvLine resp) ;; mret true else undefined
      end
    else mret false) (after_send part k w).
Proof.
  intros [Hp Hl]. pose proof grow_limit_bounds. destruct (send_packet_spec (packet_id (t_id t)) (packet_sent req) w) as (ok & part & k & E & Hr); [lia|].
  exists ok, part, k. split; [apply Hr|]. split; [apply Hr|]. split; [apply Hr|]. unfold exchange. rewrite serialize_packet_sent by (done || lia).
  unfold mbind at 1, M_bind at 1, lift_outcome at 1. unfold mbind at 1, M_bind at 1. rewrite E. by destruct ok.
Qed.
End Tests.

(** ** The requests of the tests can be sent *)

Section Requests.
Context `{Platform}.

#[local] Ltac small_number := first [by split | cbn [pval]; arith_ranges; cbn [pval]; lia].

#[local] Ltac portable_step :=
  first [ apply portable_prim; small_number
        | apply portable_string; [apply literal_ok|done]
        | apply portable_vector; [done|]
        | apply Forall_cons; split | apply Forall_nil_2 ].

#[local] Ltac c_array_step := split; [done|split; [done|repeat (apply Forall_cons; split; [small_number|]); apply Forall_nil_2]].

Lemma request_lawful {V} `{MembersLaws V} (v : V) :
  Forall (λ s, wf (m_get (ms_member s) v) ∧ within DefaultOptions 1 (m_get (ms_member s) v)) specs →
  zlen (enc v) ≤ 2 ^ 16 → sendable v ∧ zlen (sent v) ≤ 2 ^ 16.
Proof. intros Hv Hl. split; [by apply portable_object|exact Hl]. Qed.

Lemma login_request_ok ts : request_ok (t_request test_login ts).
Proof. apply request_lawful; [|by vm_compute]. repeat portable_step. Qed.
Lemma player_state_request_ok ts : request_ok (t_request test_player_state ts).
Proof. apply request_lawful; [|by vm_compute]. repeat portable_step. Qed.
Lemma score_update_request_ok ts : request_ok (t_request test_score_update ts).
Proof. apply request_lawful; [|by vm_compute]. repeat portable_step. Qed.
Lemma inventory_request_ok ts : request_ok (t_request test_inventory ts).
Proof. apply request_lawful; [|by vm_compute]. repeat portable_step. Qed.
Lemma buffer_data_request_ok ts : request_ok (t_request test_buffer_data ts).
Proof. apply request_lawful; [|by vm_compute]. repeat portable_step. Qed.
Lemma int_arrays_request_ok ts : request_ok (t_request test_int_arrays ts).
Proof. apply request_lawful; [|by vm_compute]. repeat portable_step. Qed.
Lemma chat_message_request_ok ts : 0 ≤ ts < 2 ^ 58 → request_ok (t_request test_chat_message ts).
Proof. intros Hts. apply request_lawful; [|by vm_compute]. repeat portable_step. Qed.
Lemma skill_slots_request_ok ts : request_ok (t_request test_skill_slots ts).
Proof. split; [|by vm_compute]. split; [small_number|]. split; c_array_step. Qed.
Lemma map_tile_row_request_ok ts : request_ok (t_request test_map_tile_row ts).
Proof. split; [|by vm_compute]. split; [small_number|]. split; c_array_step. Qed.
Lemma mixed_format_request_ok ts : request_ok (t_request test_mixed_format ts).
Proof.
  split; [|by vm_compute]. split; [small_number|]. split; [split; [|done]; repeat (apply Forall_cons; split; [small_number|]); apply Forall_nil_2|].
  split; [c_array_step|]. split; [c_array_step|small_number].
Qed.

Lemma tests_request_ok ts : 0 ≤ ts < 2 ^ 58 → Forall (λ t, request_ok (t_request t ts)) tests.
Proof.
  intros Hts. apply Forall_cons. split; [apply login_request_ok|].
  apply Forall_cons. split; [apply player_state_request_ok|]. apply Forall_cons. split; [by apply chat_message_request_ok|].
  apply Forall_cons. split; [apply score_update_request_ok|]. apply Forall_cons. split; [apply inventory_request_ok|].
  apply Forall_cons. split; [apply buffer_data_request_ok|]. apply Forall_cons. split; [apply int_arrays_request_ok|].
  apply Forall_cons. split; [apply skill_slots_request_ok|]. apply Forall_cons. split; [apply map_tile_row_request_ok|].
  apply Forall_cons. split; [apply mixed_format_request_ok|apply Forall_nil_2].
Qed.
End Requests.

(** ** The whole program against a server that answers *)

Section Session.
Context `{Platform, System, !SystemLaws}.
Implicit Types w : world client_line.

Lemma request_at_ok k : Forall (λ t, request_ok (request_at k t)) tests.
Proof.
  pose proof (clock_range k) as Hk. assert (Hts : 0 ≤ Z.quot (system_clock k) 1000 < 2 ^ 58).
  { rewrite Z.quot_div_nonneg by lia. split; [apply Z.div_pos; lia|]. apply Z.div_lt_upper_bound; lia. }
  pose proof (conj (tests_request_ok _ Hts) (tests_request_ok 0 ltac:(lia))) as Hq. apply Forall_and in Hq.
  eapply Forall_impl; [exact Hq|]. intros t [Hq1 Hq0]. unfold request_at. by destruct (t_clock t).
Qed.

(** What the program sends when its clock was read [k] times before. *)
Fixpoint requests (k : nat) (ts : list test) : list Z :=
  match ts with
  | [] => []
  | t :: ts' => frame_bytes (packet_id (t_id t), packet_sent (request_at k t)) ++ requests (clock_after k t) ts'
  end.

(** What it prints. *)
Fixpoint transcript (k : nat) (ts : list test) (rs : list (Z * client_packet)) : list client_line :=
  match ts, rs with
  | t :: ts', r :: rs' => opening k t ++ RecvLine (packet_received r.2) :: transcript (clock_after k t) ts' rs'
  | _, _ => []
  end.

Definition response_bytes (r : Z * client_packet) : list Z := frame_bytes (r.1, packet_sent r.2).

(** [w'] is [w] after the exchanges, with [rest] left to receive. *)
Definition answered (k : nat) (out : list Z) (lines : list client_line) (rest : list Z) w w' : Prop :=
  incoming w' = rest ∧ outgoing w' = outgoing w ++ out ∧ clock_reads w' = k ∧ console w' = console w ++ lines.

Context (Hlittle : native_little = true) (Hsend : sends_always) (Hrecv : receives_always).

Lemma run_test_answered t r rest w : request_ok (request_at (clock_reads w) t) → answers t r → incoming w = response_bytes r ++ rest →
  ∃ w', run_test t w = (Ret true, w') ∧
    answered (clock_after (clock_reads w) t) (frame_bytes (packet_id (t_id t), packet_sent (request_at (clock_reads w) t)))
      (opening (clock_reads w) t ++ [RecvLine (packet_received r.2)]) rest w w'.
Proof.
  intros Hq (Hid & Hty & Hp & Hl & Hpr) Hin. rewrite run_test_exchange. pose proof size_mod_pos.
  destruct (exchange_sends t _ (asking t w) Hq) as (ok & part & k & _ & Hpart & Hok & ->). rewrite Hok, Hpart in * by auto.
  set (w1 := after_send _ _ _). unfold response_bytes in Hin. rewrite <-host_frame_little in Hin by done.
  destruct (recv_packet_frame r.1 (packet_sent r.2) rest w1) as [k2 E2]; [exact Hin|done|done|done|].
  unfold mbind at 1, M_bind at 1. rewrite E2. unfold mbind at 1, M_bind at 1, lift_outcome at 1.
  rewrite <-Hty, deserialize_packet_sent by (done || lia). rewrite Hpr. unfold mbind at 1, M_bind at 1, Log at 1, modify at 1, mret, M_ret.
  eexists. split; [reflexivity|]. unfold answered, w1, after_send, after_recv, asking. cbn [incoming outgoing clock_reads console].
  rewrite Hin, drop_app_length, host_frame_little by done. split_and!; [done|done|done|by rewrite <-app_assoc].
Qed.

Lemma run_tests_answered ts rs rest : Forall2 answers ts rs → (∀ k, Forall (λ t, request_ok (request_at k t)) ts) →
  ∀ allPassed w, incoming w = (rs ≫= response_bytes) ++ rest →
  ∃ w' k', run_tests ts allPassed w = (Ret allPassed, w') ∧
    answered k' (requests (clock_reads w) ts) (transcript (clock_reads w) ts rs) rest w w'.
Proof.
  intros Hrs. induction Hrs as [|t r ts rs Hr _ IH]; intros Hq allPassed w Hin.
  - exists w, (clock_reads w). split; [done|]. unfold answered. cbn. rewrite !app_nil_r. by split_and!.
  - rewrite bind_cons, <-app_assoc in Hin. assert (Hqt : ∀ k, Forall (λ t, request_ok (request_at k t)) ts) by (intros k; by apply (Forall_inv_tail (Hq k))).
    destruct (run_test_answered t r _ w (Forall_inv (Hq _)) Hr Hin) as (w1 & E1 & Hi1 & Ho1 & Hk1 & Hc1).
    destruct (IH Hqt (allPassed && true) w1 Hi1) as (w2 & k2 & E2 & Hi2 & Ho2 & Hk2 & Hc2).
    exists w2, k2. cbn [run_tests]. unfold mbind, M_bind. rewrite E1, E2, andb_true_r. split; [done|].
    unfold answered. rewrite Hi2, Ho2, Hc2, Hk2, Ho1, Hc1, Hk1. cbn [requests transcript]. by rewrite <-!app_assoc.
Qed.
End Session.

Section Main.
Context `{Platform, System, !SystemLaws}.

Lemma client_main_answered rs rest : native_little = true → sends_always → receives_always → Forall2 answers tests rs →
  ∃ w', client_main (connected ((rs ≫= response_bytes) ++ rest)) = (Ret 0, w') ∧
    incoming w' = rest ∧ outgoing w' = requests 0 tests ∧ console w' = transcript 0 tests rs ++ [AllPassed].
Proof.
  intros Hlittle Hsend Hrecv Hrs.
  destruct (run_tests_answered Hlittle Hsend Hrecv tests rs rest Hrs request_at_ok true (connected ((rs ≫= response_bytes) ++ rest)) eq_refl)
    as (w & k & E & Hi & Ho & _ & Hc).
  unfold client_main. unfold mbind at 1, M_bind at 1. rewrite E. unfold mbind, M_bind, Log, modify. eexists. split; [reflexivity|].
  cbn [incoming outgoing console]. by rewrite Hi, Ho, Hc.
Qed.

(** The whole test client, end to end. On a little-endian host and a connection that
    keeps delivering, against a server that answers each request with any packet of the
    expected type (under whatever id), all ten tests pass: [main] returns 0, it has sent
    exactly the ten request frames of the protocol in order and consumed exactly the ten
    responses, and for each test it printed its title, the request and the response as
    it was received. *)
Theorem client_tests_pass rs rest : native_little = true → sends_always → receives_always → Forall2 answers tests rs →
  ∃ w', client_main (connected ((rs ≫= response_bytes) ++ rest)) = (Ret 0, w') ∧
    incoming w' = rest ∧ outgoing w' = requests 0 tests ∧ console w' = transcript 0 tests rs ++ [AllPassed].
Proof. apply client_main_answered. Qed.
End Main.

(** ** Any server *)

Section AnyServer.
Context `{Platform, System, !SystemLaws}.
Implicit Types w : world client_line.

(** One test against any server. *)
Lemma run_test_any t w : t ∈ tests → bytes_ok (incoming w) →
  ∃ o w' part, run_test t w = (o, w') ∧
    ((∃ b, o = Ret b) ∨ (has_exceptions = true ∧ ∃ e off, o = Throw e off) ∨ (o = UB ∧ t_response t = InventoryDataId)) ∧
    outgoing w' = outgoing w ++ part ∧ part `prefix_of` request_frame (clock_reads w) t ∧
    incoming w' `suffix_of` incoming w ∧ (zlen (incoming w) < 6 → o = Ret false) ∧
    clock_reads w' = clock_after (clock_reads w) t.
Proof.
  intros Ht Hb. pose proof (request_at_ok (clock_reads w)) as Hq. rewrite Forall_forall in Hq. specialize (Hq t Ht).
  rewrite run_test_exchange. pose proof size_mod_pos.
  destruct (exchange_sends t _ (asking t w) Hq) as (ok & part & k & Hpre & _ & _ & ->). set (w1 := after_send part k (asking t w)).
  destruct ok; [|exists (Ret false), w1, part; split; [done|]; split_and!; [by eauto|done|done|reflexivity|done|done]].
  destruct (recv_packet_any w1 Hb) as (r & j & k2 & E & Hbody & Hshort). unfold mbind at 1, M_bind at 1. rewrite E.
  assert (Hsuf : ∀ j, drop j (incoming w) `suffix_of` incoming w) by (intros i; apply suffix_drop).
  destruct r as [[id body]|]; [|exists (Ret false); eexists _, part; split; [reflexivity|]; split_and!; [by eauto|done|done|apply Hsuf|done|done]].
  destruct (Hbody id body eq_refl) as [Hbb Hl]. assert (Hno : zlen (incoming w) < 6 → False) by (intros Hlt; by specialize (Hshort Hlt)).
  assert (Hsz : zlen body < size_mod) by lia. unfold mbind at 1, M_bind at 1, lift_outcome at 1.
  destruct (deserialize_packet_any (t_response t) body Hbb Hsz) as [(p & -> & _ & Hpr)|(Hex & e & off & ->)].
  - destruct (printable p) eqn:Ep.
    + exists (Ret true). eexists _, part. split; [reflexivity|]. split_and!; [by eauto|done|done|apply Hsuf|by intros ?%Hno|done].
    + exists UB. eexists _, part. split; [reflexivity|]. split_and!; [|done|done|apply Hsuf|by intros ?%Hno|done].
      right; right. split; [done|]. revert Hpr. destruct (t_response t); intros Hpr; (done || by specialize (Hpr ltac:(done))).
  - exists (Throw e off). eexists _, part. split; [reflexivity|]. split_and!; [eauto 6|done|done|apply Hsuf|by intros ?%Hno|done].
Qed.

(** What the program has sent when the clock was read [k] times before: of every test no
    more than its request. *)
Fixpoint partial_requests (k : nat) (ts : list test) (out : list Z) : Prop :=
  match ts with
  | [] => out = []
  | t :: ts' => ∃ part out', out = part ++ out' ∧ part `prefix_of` request_frame k t ∧
      partial_requests (clock_after k t) ts' out'
  end.

Lemma partial_requests_nil k ts : partial_requests k ts [].
Proof. revert k. induction ts as [|t ts IH]; intros k; [done|]. exists [], []. split; [done|]. split; [apply prefix_nil|apply IH]. Qed.

(** The tests one after the other, against any server. *)
Lemma run_tests_any ts : (∀ t, t ∈ ts → t ∈ tests) → ∀ allPassed w, bytes_ok (incoming w) →
  ∃ o w' out, run_tests ts allPassed w = (o, w') ∧
    ((∃ b, o = Ret b) ∨ (has_exceptions = true ∧ ∃ e off, o = Throw e off) ∨
     (o = UB ∧ ∃ t w0, t ∈ ts ∧ t_response t = InventoryDataId ∧ incoming w0 `suffix_of` incoming w ∧ fst (run_test t w0) = UB)) ∧
    outgoing w' = outgoing w ++ out ∧ partial_requests (clock_reads w) ts out ∧ incoming w' `suffix_of` incoming w.
Proof.
  induction ts as [|t ts IH]; intros Hts allPassed w Hb.
  { exists (Ret allPassed), w, []. rewrite app_nil_r. split; [done|]. split; [by eauto|]. by split_and!. }
  destruct (run_test_any t w (Hts t ltac:(left)) Hb) as (o & w1 & part & E & Ho & Hout & Hpart & Hin & _ & Hk).
  assert (Hstop : ∃ out, outgoing w1 = outgoing w ++ out ∧ partial_requests (clock_reads w) (t :: ts) out).
  { exists part. split; [done|]. exists part, []. rewrite app_nil_r. split; [done|]. split; [done|apply partial_requests_nil]. }
  destruct Hstop as (out & Ho1 & Hp1). cbn [run_tests]. unfold mbind, M_bind. rewrite E.
  destruct Ho as [[b ->]|[[Hex (e & off & ->)]|[-> Hinv]]].
  2: { exists (Throw e off), w1, out. split; [done|]. split; [right; left; eauto|done]. }
  2: { exists UB, w1, out. split; [done|]. split; [|done]. right; right. split; [done|]. exists t, w.
       split_and!; [left|done|done|by rewrite E]. }
  assert (Hb1 : bytes_ok (incoming w1)) by (destruct Hin as [x Hx]; rewrite Hx in Hb; by apply Forall_app in Hb as [_ ?]).
  destruct (IH (λ t' Ht', Hts t' ltac:(by right)) (allPassed && b) w1 Hb1) as (o2 & w2 & out2 & E2 & Ho2 & Hout2 & Hpart2 & Hin2).
  exists o2, w2, (part ++ out2). split; [exact E2|]. split.
  { destruct Ho2 as [Ho2|[Ho2|(-> & t' & w0 & Ht' & Hr & Hi & Hu)]]; [by left|by right; left|right; right]. split; [done|].
    exists t', w0. split; [by right|]. split; [done|]. split; [by etrans|done]. }
  split; [by rewrite Hout2, Hout, app_assoc|]. split; [|by etrans]. exists part, out2. rewrite <-Hk. by split_and!.
Qed.

(** C24: No server can harm the test client, with one exception. Whatever bytes a server
    sends, however they are split, a test ends: it returns, or ends by the library's
    exception; it has sent no more than its own request and read no more than was there;
    fewer bytes than a header make it fail. Only the inventory test can do worse: it prints
    a count for every name, and the server may send fewer counts than names. *)
Theorem test_any_server t w : t ∈ tests → bytes_ok (incoming w) →
  ∃ o w' part, run_test t w = (o, w') ∧
    ((∃ b, o = Ret b) ∨ (has_exceptions = true ∧ ∃ e off, o = Throw e off) ∨ (o = UB ∧ t_response t = InventoryDataId)) ∧
    outgoing w' = outgoing w ++ part ∧ part `prefix_of` request_frame (clock_reads w) t ∧
    incoming w' `suffix_of` incoming w ∧ (zlen (incoming w) < 6 → o = Ret false).
Proof.
  intros Ht Hb. destruct (run_test_any t w Ht Hb) as (o & w' & part & E & Ho & Hout & Hpart & Hin & Hshort & _).
  exists o, w', part. by split_and!.
Qed.
End AnyServer.

(** ** Concrete runs *)

Section Witnesses.
#[local] Existing Instances host64 slow_system slow_system_laws.

(** A server that accepts the login and echoes every other request. *)
Definition welcome : LoginResponse := MkLoginResponse (Prim 1) (Prim 1001) (Str (literal "Welcome")).
Definition echo (t : test) : Z * client_packet :=
  if bool_decide (packet_id (t_response t) = 2) then (2, PLoginResponse welcome)
  else (packet_id (t_response t), t_request t 0).

Lemma echo_answers : Forall2 answers tests (echo <$> tests).
Proof.
  assert (Hw : packet_sendable (PLoginResponse welcome)).
  { apply portable_object. apply Forall_cons. split; [by apply portable_prim|]. apply Forall_cons. split; [by apply portable_prim|].
    apply Forall_cons. split; [apply portable_string; [apply literal_ok|done]|apply Forall_nil_2]. }
  assert (Hone : ∀ t id p, echo t = (id, p) → arith_ok UInt16 id → packet_type p = t_response t → request_ok p →
    printable (packet_received p) = true → answers t (echo t)).
  { intros t id p -> Hid Hty [Hp Hl] Hpr. split; [done|]. split; [done|]. split; [done|]. split; [cbn [snd]; lia|done]. }
  apply Forall2_fmap_r, Forall_Forall2_diag. pose proof (tests_request_ok 0 ltac:(lia)) as Hq.
  apply Forall_cons. split; [by apply (Hone _ 2 (PLoginResponse welcome)); [..|split; [exact Hw|]|]|].
  apply Forall_cons in Hq as [_ Hq].
  repeat (apply Forall_cons in Hq as [Hq1 Hq]; apply Forall_cons; split; [by eapply Hone; [reflexivity|..|exact Hq1|]|clear Hq1]).
  apply Forall_nil_2.
Qed.

Lemma client_tests_pass_witness : ∃ w', client_main (connected ((echo <$> tests) ≫= response_bytes)) = (Ret 0, w') ∧
  incoming w' = [] ∧ take 6 (outgoing w') = [1; 0; 23; 0; 0; 0] ∧ last (console w') = Some AllPassed.
Proof.
  destruct (client_tests_pass (echo <$> tests) []) as (w & E & Hi & Ho & Hc); [done| | |apply echo_answers|].
  - intros k n Hn. cbn. destruct (Nat.even k); lia.
  - intros k n Hn. cbn. lia.
  - exists w. rewrite app_nil_r in E. split; [exact E|]. split; [exact Hi|]. split; [rewrite Ho; reflexivity|].
    rewrite Hc. apply last_snoc.
Defined.

Lemma test_any_server_witness : ∃ o w', run_test test_login (connected [2; 0; 255; 255]) = (o, w') ∧
  o = Ret false ∧ outgoing w' = [1; 0; 23; 0; 0; 0; 2; 245; 255; 255; 255; 10; 0; 0; 0; 84; 101; 115; 116; 80; 108; 97; 121; 101; 114; 42; 0; 0; 0].
Proof.
  destruct (test_any_server test_login (connected [2; 0; 255; 255])) as (o & w & part & E & _ & Ho & _); [left|bytes_lit|].
  exists o, w. split; [exact E|]. vm_compute in E. injection E as <- <-. by split.
Defined.

(** An inventory of one name and no counts: the subscript of the printing loop is out of range. *)
Example test_inventory_overrun :
  fst (run_test test_inventory (connected (host_frame 6
    [3; 1; 0; 0; 0; 1; 0; 0; 0; 254; 255; 255; 255; 1; 0; 0; 0; 65; 0; 0; 0; 0]))) = UB.
Proof. by vm_compute. Qed.
End Witnesses.
