(* ===== verification/ClientMain.v ===== *)
(** The test client as a program ([samples/CppClient/main.cpp], [main]): connecting to the
    server, the tests of [CppClient], and closing the socket. *)
From stdpp Require Import strings.
From S2P Require Import Prelude Endian Text Net CppClient ClientPackets ClientTheorems Sockets.

Definition SERVER_IP : list Z := literal "127.0.0.1".
Definition SERVER_PORT : Z := 25001.

Section Main.
Context `{Platform, System, SocketSystem}.

(** [main] up to the tests: the connected socket, nothing when it returns 1. *)
Definition connecting : M trace (option Z) :=
  started ← start_winsock;
  if negb started then mret None else
  sock ← socket;
  match sock with
  | None => cerr (literal "Failed to create socket" ++ [10]) ;; mret None
  | Some sock =>
      cout (literal "Connecting to " ++ SERVER_IP ++ literal ":" ++ to_string SERVER_PORT ++ literal "..." ++ [10]) ;;
      r ← connect sock SERVER_IP SERVER_PORT;
      if negb (r =? 0) then
        cerr (literal "Failed to connect to server" ++ [10]) ;; CLOSE_SOCKET sock ;; mret None
      else cout (literal "Connected!" ++ [10]) ;; mret (Some sock)
  end.

(** The trace of calls, and the connection: what the tests print is its console. *)
Definition main : M (trace * world client_line) Z :=
  sock ← on_fst connecting;
  match sock with
  | None => mret 1
  | Some sock =>
      code ← on_snd client_main;
      on_fst (CLOSE_SOCKET sock ;; clean_winsock) ;;
      mret code
  end.
End Main.

Section Theorems.
Context `{Platform, System, !SystemLaws, SocketSystem}.

(** The first part of the program ends, with one open socket or with none. *)
Lemma connecting_spec : ∃ r t, connecting [] = (Ret r, t) ∧ open_sockets t = option_list r ∧
  match r with
  | None => errors t ≠ []
  | Some s => errors t = [] ∧ CConnect s SERVER_IP SERVER_PORT 0 ∈ t ∧ winsock_uses t = (if on_windows then 1 else 0)
  end.
Proof.
  unfold connecting. destruct start_winsock_spec as (b & t & E & Ho & _ & He). erewrite bind_ret by exact E.
  destruct b; destruct He as [He Hw]; cbn [negb]; [|by eexists _, _]. next_call. destruct (socket_result t) as [s|].
  2: { next_call. eexists _, _. split; [reflexivity|]. by rewrite !open_sockets_app, Ho, !errors_app, He. }
  assert (Hc : filter (.≠ s) (s :: open_sockets t) = []) by by rewrite Ho, open_close by apply not_elem_of_nil.
  next_call. next_call. match goal with |- context [CConnect s SERVER_IP SERVER_PORT ?x] => set (r := x) end.
  destruct (Z.eqb_spec r 0) as [Er|Er]; cbn [negb].
  2: { next_call. next_call. eexists _, _. split; [reflexivity|]. split; [rewrite !open_sockets_app; exact Hc|]. by rewrite !errors_app, He. }
  next_call. eexists _, _. split; [reflexivity|]. rewrite Er, !open_sockets_app, !errors_app, !winsock_uses_app, He, Hw, Ho.
  split; [done|]. split; [done|]. split; [rewrite !elem_of_app; set_solver|done].
Qed.

(** Closing down after the tests. *)
Lemma closing_spec sk t : open_sockets t = [sk] → winsock_uses t = (if on_windows then 1 else 0) →
  ∃ u, (CLOSE_SOCKET sk ;; clean_winsock) t = (Ret tt, t ++ u) ∧ open_sockets (t ++ u) = [] ∧ winsock_uses (t ++ u) = 0 ∧ errors u = [].
Proof.
  intros Ho Hw. assert (Hc : filter (.≠ sk) (open_sockets t) = []) by by rewrite Ho, open_close by apply not_elem_of_nil.
  next_call. unfold clean_winsock. destruct on_windows.
  - exists ([CClose sk] ++ [CCleanup]). split; [by rewrite (app_assoc t)|].
    by rewrite open_sockets_app, winsock_uses_app, Hw.
  - exists [CClose sk]. split; [done|]. by rewrite open_sockets_app, winsock_uses_app, Hw.
Qed.

(** The tests of a connected client, against any server. *)
Lemma client_main_any bytes : bytes_ok bytes → ∃ o w, client_main (connected bytes) = (o, w) ∧
  partial_requests 0 tests (outgoing w) ∧ incoming w `suffix_of` bytes ∧
  match o with
  | Ret c => c = 0 ∨ c = 1
  | Throw _ _ => has_exceptions = true
  | UB => ∃ w0, incoming w0 `suffix_of` bytes ∧ fst (run_test test_inventory w0) = UB
  end.
Proof.
  intros Hb. destruct (run_tests_any tests (λ t Ht, Ht) true (connected bytes) Hb) as (o & w & out & E & Ho & Hout & Hpart & Hin).
  cbn [connected outgoing clock_reads incoming app] in Hout, Hpart, Hin. unfold client_main, mbind, M_bind. rewrite E.
  destruct Ho as [[b ->]|[[Hex (e & off & ->)]|(-> & t & w0 & Ht & Hr & Hi & Hu)]].
  - eexists _, _. split; [reflexivity|]. cbn [outgoing incoming]. rewrite Hout. split_and!; [done|done|]. destruct b; [by left|by right].
  - eexists _, _. split; [reflexivity|]. rewrite Hout. by split_and!.
  - eexists _, _. split; [reflexivity|]. rewrite Hout. split_and!; [done|done|]. exists w0. split; [done|].
    assert (Et : t = test_inventory); [|by subst t]. unfold tests in Ht.
    repeat (apply elem_of_cons in Ht as [->|Ht]; [first [done|discriminate Hr]|]). by apply not_elem_of_nil in Ht.
Qed.

(** C9: The test client as a program, against any server and whatever the calls of the
    operating system return. Either it cannot connect to 127.0.0.1:25001: it says so on
    [std::cerr] and returns 1 with every socket closed and nothing sent. Or it connects,
    and sends no more than the requests of its ten tests, in order, each as a whole or up
    to where sending failed. Then, if it returns (0 or 1), its socket is closed and Winsock
    is cleaned up. It may also end by the library's exception, only in builds with
    exceptions: [main] does not catch it, and the socket stays open. And the inventory
    test may subscript out of range. On a little-endian host, on a connection where sending
    and receiving never fail, and against a server that answers each of the ten tests with
    a packet of the type it expects, a connected client returns 0, having sent exactly the
    ten requests and read exactly the ten answers. *)
Theorem client_program bytes : bytes_ok bytes →
  ∃ o t w, main ([], connected bytes) = (o, (t, w)) ∧
    ((o = Ret 1 ∧ errors t ≠ [] ∧ open_sockets t = [] ∧ w = connected bytes) ∨
     (∃ sk, CConnect sk SERVER_IP SERVER_PORT 0 ∈ t ∧ errors t = [] ∧
        partial_requests 0 tests (outgoing w) ∧ incoming w `suffix_of` bytes ∧
        match o with
        | Ret c => (c = 0 ∨ c = 1) ∧ open_sockets t = [] ∧ winsock_uses t = 0
        | Throw _ _ => has_exceptions = true ∧ open_sockets t = [sk]
        | UB => ∃ w0, incoming w0 `suffix_of` bytes ∧ fst (run_test test_inventory w0) = UB
        end ∧
        (native_little = true → sends_always → receives_always → ∀ rs rest, Forall2 answers tests rs →
         bytes = (rs ≫= response_bytes) ++ rest → o = Ret 0 ∧ outgoing w = requests 0 tests ∧ incoming w = rest))).
Proof.
  intros Hb. unfold main. destruct connecting_spec as (r & t & E & Ho & Hr).
  erewrite bind_ret by (by apply on_fst_ret, E). destruct r as [sk|].
  2: { eexists (Ret 1), t, _. split; [reflexivity|]. by left. }
  destruct Hr as (He & Hc & Hw). destruct (client_main_any bytes Hb) as (o & w & Em & Hout & Hin & Hend).
  assert (Hans : native_little = true → sends_always → receives_always → ∀ rs rest, Forall2 answers tests rs →
    bytes = (rs ≫= response_bytes) ++ rest → o = Ret 0 ∧ outgoing w = requests 0 tests ∧ incoming w = rest).
  { intros Hlittle Hsend Hrecv rs rest Hrs ->.
    destruct (client_main_answered rs rest Hlittle Hsend Hrecv Hrs) as (w' & Em' & Hi & Hreq & _).
    rewrite Em in Em'. by injection Em' as -> ->. }
  unfold mbind at 1, M_bind at 1, on_snd at 1. cbn [fst snd]. rewrite Em. destruct o as [c|e off|].
  - destruct (closing_spec sk t Ho Hw) as (u & Ec & Ho' & Hw' & He').
    erewrite bind_ret by (by apply on_fst_ret, Ec). eexists (Ret c), (t ++ u), w. split; [reflexivity|]. right. exists sk.
    rewrite errors_app, He, He', elem_of_app. split_and!; try done. by left.
  - eexists (Throw e off), t, w. split; [reflexivity|]. right. exists sk. by split_and!.
  - eexists UB, t, w. split; [reflexivity|]. right. exists sk. by split_and!.
Qed.
End Theorems.

(** The peer that answers every test with its own packet. *)
Section Witness.
#[local] Existing Instances host64 slow_system slow_system_laws.
#[local] Instance calls_succeed : SocketSystem := quiet_system true 0.

Lemma echoes_ok : bytes_ok ((echo <$> tests) ≫= response_bytes).
Proof.
  assert (Hall : forallb (λ b, (0 <=? b) && (b <? 256)) ((echo <$> tests) ≫= response_bytes) = true) by (vm_compute; reflexivity).
  rewrite forallb_forall in Hall. apply Forall_forall. intros b Hin%list_elem_of_In. specialize (Hall b Hin). unfold byte_ok. lia.
Qed.

Lemma client_program_witness : ∃ o t w, main ([], connected ((echo <$> tests) ≫= response_bytes)) = (o, (t, w)) ∧
  (errors t = [] → o = Ret 0 ∧ open_sockets t = []).
Proof.
  destruct (client_program ((echo <$> tests) ≫= response_bytes) echoes_ok) as (o & t & w & E & Hend).
  exists o, t, w. split; [exact E|]. intros He. destruct Hend as [(_ & Hne & _)|(sk & _ & _ & _ & _ & Ho & Hans)]; [by destruct Hne|].
  destruct (Hans eq_refl) with (rs := echo <$> tests) (rest := @nil Z) as (-> & _ & _).
  - intros k n Hn. cbn. destruct (Nat.even k); lia.
  - intros k n Hn. cbn. lia.
  - exact echo_answers.
  - by rewrite app_nil_r.
  - split; [done|apply Ho].
Defined.
End Witness.
