(* ===== verification/Golden.v ===== *)
(** The headers the generator is expected to write ([tools/cs2cpp.Tests/Expected]): the
    structs and serializers of its C++ output, one module per header. The macro mode uses
    [MEMORYPACK_DEFINE]; the explicit mode, and every struct with arrays, writes the
    serializer out. *)
From stdpp Require Import strings.
From S2P Require Import Prelude Endian Writer Reader Headers Utf Strings Formatter Collections Assoc Nullable Objects Union VersionTolerant Unmanaged DotNet Api CppClient.

(** What the explicit mode reads: [r.ReadString().value_or(...)], [r.ReadInt32()], ... *)
Section Values.
Context `{Platform}.

Definition string_value : R string := s ← ReadString; mret (Str (default [] s)).
Definition int32_value : R (prim Int32) := x ← ReadInt32; mret (Prim x).
Definition int64_value : R (prim Int64) := x ← ReadInt64; mret (Prim x).
Definition bool_value : R (prim Bool_t) := b ← ReadBool; mret (Prim (if b : bool then 1 else 0)).
Definition double_value : R (prim Float64) := x ← ReadDouble; mret (Prim x).
End Values.

(** [Plain.hpp]: the macro mode. *)
Module Plain_hpp.
Record LoginRequest := MkLoginRequest { LoginRequest_username : string; LoginRequest_level : prim Int32; LoginRequest_remember : prim Bool_t; LoginRequest_score : prim Float64 }.
Record FieldPacket := MkFieldPacket { FieldPacket_id : prim Int32; FieldPacket_name : string; FieldPacket_ticks : prim Int64 }.
Record RecordPacket := MkRecordPacket { RecordPacket_id : prim Int32; RecordPacket_name : string }.

Section Definitions.
Context `{Platform}.

#[global] Instance LoginRequest_members : Members LoginRequest := {
  default_value := MkLoginRequest (Str []) (Prim 0) (Prim 0) (Prim 0);
  members := [
    Member string LoginRequest_username (λ x v, MkLoginRequest x (LoginRequest_level v) (LoginRequest_remember v) (LoginRequest_score v));
    Member (prim Int32) LoginRequest_level (λ x v, MkLoginRequest (LoginRequest_username v) x (LoginRequest_remember v) (LoginRequest_score v));
    Member (prim Bool_t) LoginRequest_remember (λ x v, MkLoginRequest (LoginRequest_username v) (LoginRequest_level v) x (LoginRequest_score v));
    Member (prim Float64) LoginRequest_score (λ x v, MkLoginRequest (LoginRequest_username v) (LoginRequest_level v) (LoginRequest_remember v) x)] }.

#[global] Instance FieldPacket_members : Members FieldPacket := {
  default_value := MkFieldPacket (Prim 0) (Str []) (Prim 0);
  members := [
    Member (prim Int32) FieldPacket_id (λ x v, MkFieldPacket x (FieldPacket_name v) (FieldPacket_ticks v));
    Member string FieldPacket_name (λ x v, MkFieldPacket (FieldPacket_id v) x (FieldPacket_ticks v));
    Member (prim Int64) FieldPacket_ticks (λ x v, MkFieldPacket (FieldPacket_id v) (FieldPacket_name v) x)] }.

#[global] Instance RecordPacket_members : Members RecordPacket := {
  default_value := MkRecordPacket (Prim 0) (Str []);
  members := [
    Member (prim Int32) RecordPacket_id (λ x v, MkRecordPacket x (RecordPacket_name v));
    Member string RecordPacket_name (λ x v, MkRecordPacket (RecordPacket_id v) x)] }.
End Definitions.

Section Laws.
Context `{Platform}.

#[global] Instance LoginRequest_laws : MembersLaws LoginRequest.
Proof. members_laws. Defined.
#[global] Instance FieldPacket_laws : MembersLaws FieldPacket.
Proof. members_laws. Defined.
#[global] Instance RecordPacket_laws : MembersLaws RecordPacket.
Proof. members_laws. Defined.
End Laws.
End Plain_hpp.

(** [PlainExplicit.hpp]: the structs of [Plain.hpp], with explicit serializers. *)
Module PlainExplicit_hpp.
Import Plain_hpp.

Definition LoginRequest : Type := Plain_hpp.LoginRequest.
Definition FieldPacket : Type := Plain_hpp.FieldPacket.
Definition RecordPacket : Type := Plain_hpp.RecordPacket.

Section Definitions.
Context `{Platform}.

Definition LoginRequest_Serialize (v : option LoginRequest) : W unit :=
  match v with
  | None => WriteNullObjectHeader
  | Some v =>
      WriteObjectHeader 4 ;;
      WriteString (bytes_of (LoginRequest_username v)) ;;
      WriteInt32 (pval (LoginRequest_level v)) ;;
      WriteBool (negb (pval (LoginRequest_remember v) =? 0)) ;;
      WriteDouble (pval (LoginRequest_score v))
  end.

Definition LoginRequest_Deserialize (v : LoginRequest) : R LoginRequest :=
  header ← ReadObjectHeader;
  if isNull header then mret v else
  let cnt := count header in
  v ← assign_if cnt 1 (λ _, string_value) (λ x v, MkLoginRequest x (LoginRequest_level v) (LoginRequest_remember v) (LoginRequest_score v)) v;
  v ← assign_if cnt 2 (λ _, int32_value) (λ x v, MkLoginRequest (LoginRequest_username v) x (LoginRequest_remember v) (LoginRequest_score v)) v;
  v ← assign_if cnt 3 (λ _, bool_value) (λ x v, MkLoginRequest (LoginRequest_username v) (LoginRequest_level v) x (LoginRequest_score v)) v;
  v ← assign_if cnt 4 (λ _, double_value) (λ x v, MkLoginRequest (LoginRequest_username v) (LoginRequest_level v) (LoginRequest_remember v) x) v;
  mret v.

Definition FieldPacket_Serialize (v : option FieldPacket) : W unit :=
  match v with
  | None => WriteNullObjectHeader
  | Some v =>
      WriteObjectHeader 3 ;;
      WriteInt32 (pval (FieldPacket_id v)) ;;
      WriteString (bytes_of (FieldPacket_name v)) ;;
      WriteInt64 (pval (FieldPacket_ticks v))
  end.

Definition FieldPacket_Deserialize (v : FieldPacket) : R FieldPacket :=
  header ← ReadObjectHeader;
  if isNull header then mret v else
  let cnt := count header in
  v ← assign_if cnt 1 (λ _, int32_value) (λ x v, MkFieldPacket x (FieldPacket_name v) (FieldPacket_ticks v)) v;
  v ← assign_if cnt 2 (λ _, string_value) (λ x v, MkFieldPacket (FieldPacket_id v) x (FieldPacket_ticks v)) v;
  v ← assign_if cnt 3 (λ _, int64_value) (λ x v, MkFieldPacket (FieldPacket_id v) (FieldPacket_name v) x) v;
  mret v.

Definition RecordPacket_Serialize (v : option RecordPacket) : W unit :=
  match v with
  | None => WriteNullObjectHeader
  | Some v =>
      WriteObjectHeader 2 ;;
      WriteInt32 (pval (RecordPacket_id v)) ;;
      WriteString (bytes_of (RecordPacket_name v))
  end.

Definition RecordPacket_Deserialize (v : RecordPacket) : R RecordPacket :=
  header ← ReadObjectHeader;
  if isNull header then mret v else
  let cnt := count header in
  v ← assign_if cnt 1 (λ _, int32_value) (λ x v, MkRecordPacket x (RecordPacket_name v)) v;
  v ← assign_if cnt 2 (λ _, string_value) (λ x v, MkRecordPacket (RecordPacket_id v) x) v;
  mret v.
End Definitions.
End PlainExplicit_hpp.

(** [PlainNullableStrings.hpp]: [Plain.hpp] with nullable strings. *)
Module PlainNullableStrings_hpp.
Record LoginRequest := MkLoginRequest { LoginRequest_username : option string; LoginRequest_level : prim Int32; LoginRequest_remember : prim Bool_t; LoginRequest_score : prim Float64 }.
Record FieldPacket := MkFieldPacket { FieldPacket_id : prim Int32; FieldPacket_name : string; FieldPacket_ticks : prim Int64 }.
Record RecordPacket := MkRecordPacket { RecordPacket_id : prim Int32; RecordPacket_name : string }.

Section Definitions.
Context `{Platform}.

#[global] Instance LoginRequest_members : Members LoginRequest := {
  default_value := MkLoginRequest None (Prim 0) (Prim 0) (Prim 0);
  members := [
    Member (option string) LoginRequest_username (λ x v, MkLoginRequest x (LoginRequest_level v) (LoginRequest_remember v) (LoginRequest_score v));
    Member (prim Int32) LoginRequest_level (λ x v, MkLoginRequest (LoginRequest_username v) x (LoginRequest_remember v) (LoginRequest_score v));
    Member (prim Bool_t) LoginRequest_remember (λ x v, MkLoginRequest (LoginRequest_username v) (LoginRequest_level v) x (LoginRequest_score v));
    Member (prim Float64) LoginRequest_score (λ x v, MkLoginRequest (LoginRequest_username v) (LoginRequest_level v) (LoginRequest_remember v) x)] }.

#[global] Instance FieldPacket_members : Members FieldPacket := {
  default_value := MkFieldPacket (Prim 0) (Str []) (Prim 0);
  members := [
    Member (prim Int32) FieldPacket_id (λ x v, MkFieldPacket x (FieldPacket_name v) (FieldPacket_ticks v));
    Member string FieldPacket_name (λ x v, MkFieldPacket (FieldPacket_id v) x (FieldPacket_ticks v));
    Member (prim Int64) FieldPacket_ticks (λ x v, MkFieldPacket (FieldPacket_id v) (FieldPacket_name v) x)] }.

#[global] Instance RecordPacket_members : Members RecordPacket := {
  default_value := MkRecordPacket (Prim 0) (Str []);
  members := [
    Member (prim Int32) RecordPacket_id (λ x v, MkRecordPacket x (RecordPacket_name v));
    Member string RecordPacket_name (λ x v, MkRecordPacket (RecordPacket_id v) x)] }.
End Definitions.

Section Laws.
Context `{Platform}.

#[global] Instance LoginRequest_laws : MembersLaws LoginRequest.
Proof. members_laws. Defined.
#[global] Instance FieldPacket_laws : MembersLaws FieldPacket.
Proof. members_laws. Defined.
#[global] Instance RecordPacket_laws : MembersLaws RecordPacket.
Proof. members_laws. Defined.
End Laws.
End PlainNullableStrings_hpp.

(** [Dispatch.hpp]: packet ids, a dispatch table and the hash of the schema. *)
Module Dispatch_hpp.
Inductive PacketId := LoginRequestId | LoginResponseId | HeartbeatId.

Definition packet_id (p : PacketId) : Z := match p with LoginRequestId => 1 | LoginResponseId => 2 | HeartbeatId => 3 end.

Definition PACKET_HEADER_SIZE : Z := 6.
Definition PACKET_SCHEMA_HASH : Z := 0xA7CEC854C3062379.

Record LoginRequest := MkLoginRequest { LoginRequest_username : string; LoginRequest_level : prim Int32 }.
Record LoginResponse := MkLoginResponse { LoginResponse_success : prim Bool_t; LoginResponse_playerId : prim Int32 }.

Section Definitions.
Context `{Platform}.

#[global] Instance LoginRequest_members : Members LoginRequest := {
  default_value := MkLoginRequest (Str []) (Prim 0);
  members := [
    Member string LoginRequest_username (λ x v, MkLoginRequest x (LoginRequest_level v));
    Member (prim Int32) LoginRequest_level (λ x v, MkLoginRequest (LoginRequest_username v) x)] }.

#[global] Instance LoginResponse_members : Members LoginResponse := {
  default_value := MkLoginResponse (Prim 0) (Prim 0);
  members := [
    Member (prim Bool_t) LoginResponse_success (λ x v, MkLoginResponse x (LoginResponse_playerId v));
    Member (prim Int32) LoginResponse_playerId (λ x v, MkLoginResponse (LoginResponse_success v) x)] }.

(** The packet a handler gets. *)
Inductive packet_value := PLoginRequest (v : LoginRequest) | PLoginResponse (v : LoginResponse).

Definition DispatchPacket {S} (id : Z) (body : list Z) (handler : packet_value → M S unit) : M S bool :=
  if id =? packet_id LoginRequestId then
    v ← lift_outcome (DeserializeNew (T := LoginRequest) body); handler (PLoginRequest v) ;; mret true
  else if id =? packet_id LoginResponseId then
    v ← lift_outcome (DeserializeNew (T := LoginResponse) body); handler (PLoginResponse v) ;; mret true
  else mret false.

End Definitions.

Section Laws.
Context `{Platform}.

#[global] Instance LoginRequest_laws : MembersLaws LoginRequest.
Proof. members_laws. Defined.
#[global] Instance LoginResponse_laws : MembersLaws LoginResponse.
Proof. members_laws. Defined.
End Laws.
End Dispatch_hpp.

(** [DispatchExplicitOff.hpp]: the same protocol with explicit serializers and no dispatch table. *)
Module DispatchExplicitOff_hpp.
Import Dispatch_hpp.

Definition LoginRequest : Type := Dispatch_hpp.LoginRequest.
Definition LoginResponse : Type := Dispatch_hpp.LoginResponse.

Definition PacketId : Type := Dispatch_hpp.PacketId.
Definition packet_id : PacketId → Z := Dispatch_hpp.packet_id.
Definition PACKET_HEADER_SIZE : Z := 6.

Section Definitions.
Context `{Platform}.

Definition LoginRequest_Serialize (v : option LoginRequest) : W unit :=
  match v with
  | None => WriteNullObjectHeader
  | Some v =>
      WriteObjectHeader 2 ;;
      WriteString (bytes_of (LoginRequest_username v)) ;;
      WriteInt32 (pval (LoginRequest_level v))
  end.

Definition LoginRequest_Deserialize (v : LoginRequest) : R LoginRequest :=
  header ← ReadObjectHeader;
  if isNull header then mret v else
  let cnt := count header in
  v ← assign_if cnt 1 (λ _, string_value) (λ x v, MkLoginRequest x (LoginRequest_level v)) v;
  v ← assign_if cnt 2 (λ _, int32_value) (λ x v, MkLoginRequest (LoginRequest_username v) x) v;
  mret v.

Definition LoginResponse_Serialize (v : option LoginResponse) : W unit :=
  match v with
  | None => WriteNullObjectHeader
  | Some v =>
      WriteObjectHeader 2 ;;
      WriteBool (negb (pval (LoginResponse_success v) =? 0)) ;;
      WriteInt32 (pval (LoginResponse_playerId v))
  end.

Definition LoginResponse_Deserialize (v : LoginResponse) : R LoginResponse :=
  header ← ReadObjectHeader;
  if isNull header then mret v else
  let cnt := count header in
  v ← assign_if cnt 1 (λ _, bool_value) (λ x v, MkLoginResponse x (LoginResponse_playerId v)) v;
  v ← assign_if cnt 2 (λ _, int32_value) (λ x v, MkLoginResponse (LoginResponse_success v) x) v;
  mret v.
End Definitions.
End DispatchExplicitOff_hpp.

(** [FixedArray.hpp]: C arrays; the structs are those of the sample client, but for the names of [tag] and
    [tagCount]. *)
Module FixedArray_hpp.
Definition MAX_SKILLS : Z := 8.
Definition MAX_BONUSES : Z := 4.
Definition MAX_TAG_LEN : Z := 16.

Definition SkillSlotData : Type := CppClient.SkillSlotData.
Definition MixedFormatPacket : Type := CppClient.MixedFormatPacket.

Section Definitions.
Context `{Platform}.

Definition SkillSlotData_Serialize (v : option SkillSlotData) : W unit :=
  match v with
  | None => WriteNullObjectHeader
  | Some v =>
      WriteObjectHeader 3 ;;
      WriteInt32 (ss_playerId v) ;;
      WriteArray Int32 (ss_skillIds v) (ss_skillCount v) ;;
      WriteArray Float32 (ss_cooldowns v) (ss_cooldownCount v)
  end.

Definition SkillSlotData_Deserialize (v : SkillSlotData) : R SkillSlotData :=
  header ← ReadObjectHeader;
  if isNull header then mret v else
  let cnt := count header in
  v ← assign_if cnt 1 (λ _, ReadInt32) ss_set_playerId v;
  v ← assign_if cnt 2 (λ v, ReadArray Int32 (ss_skillIds v) MAX_SKILLS) ss_set_skills v;
  assign_if cnt 3 (λ v, ReadArray Float32 (ss_cooldowns v) MAX_SKILLS) ss_set_cooldowns v.

Definition MixedFormatPacket_Serialize (v : option MixedFormatPacket) : W unit :=
  match v with
  | None => WriteNullObjectHeader
  | Some v =>
      WriteObjectHeader 5 ;;
      WriteInt32 (mf_id v) ;;
      WriteVector Int32 (mf_dynamicScores v) ;;
      WriteArray Int32 (mf_fixedBonuses v) (mf_fixedBonusCount v) ;;
      WriteArray Int8 (mf_tagBytes v) (mf_tagByteCount v) ;;
      WriteDouble (mf_multiplier v)
  end.

Definition MixedFormatPacket_Deserialize (v : MixedFormatPacket) : R MixedFormatPacket :=
  header ← ReadObjectHeader;
  if isNull header then mret v else
  let cnt := count header in
  v ← assign_if cnt 1 (λ _, ReadInt32) mf_set_id v;
  v ← assign_if cnt 2 (λ _, ReadVector Int32) mf_set_scores v;
  v ← assign_if cnt 3 (λ v, ReadArray Int32 (mf_fixedBonuses v) MAX_BONUSES) mf_set_bonuses v;
  v ← assign_if cnt 4 (λ v, ReadArray Int8 (mf_tagBytes v) MAX_TAG_LEN) mf_set_tag v;
  assign_if cnt 5 (λ _, ReadDouble) mf_set_multiplier v.

End Definitions.
End FixedArray_hpp.

(** [FixedArrayExplicit.hpp]: the explicit mode, which makes no difference here. *)
Module FixedArrayExplicit_hpp.
Definition MAX_SKILLS : Z := 8.
Definition MAX_BONUSES : Z := 4.
Definition MAX_TAG_LEN : Z := 16.

Definition SkillSlotData : Type := CppClient.SkillSlotData.
Definition MixedFormatPacket : Type := CppClient.MixedFormatPacket.

Section Definitions.
Context `{Platform}.

Definition SkillSlotData_Serialize (v : option SkillSlotData) : W unit :=
  match v with
  | None => WriteNullObjectHeader
  | Some v =>
      WriteObjectHeader 3 ;;
      WriteInt32 (ss_playerId v) ;;
      WriteArray Int32 (ss_skillIds v) (ss_skillCount v) ;;
      WriteArray Float32 (ss_cooldowns v) (ss_cooldownCount v)
  end.

Definition SkillSlotData_Deserialize (v : SkillSlotData) : R SkillSlotData :=
  header ← ReadObjectHeader;
  if isNull header then mret v else
  let cnt := count header in
  v ← assign_if cnt 1 (λ _, ReadInt32) ss_set_playerId v;
  v ← assign_if cnt 2 (λ v, ReadArray Int32 (ss_skillIds v) MAX_SKILLS) ss_set_skills v;
  assign_if cnt 3 (λ v, ReadArray Float32 (ss_cooldowns v) MAX_SKILLS) ss_set_cooldowns v.

Definition MixedFormatPacket_Serialize (v : option MixedFormatPacket) : W unit :=
  match v with
  | None => WriteNullObjectHeader
  | Some v =>
      WriteObjectHeader 5 ;;
      WriteInt32 (mf_id v) ;;
      WriteVector Int32 (mf_dynamicScores v) ;;
      WriteArray Int32 (mf_fixedBonuses v) (mf_fixedBonusCount v) ;;
      WriteArray Int8 (mf_tagBytes v) (mf_tagByteCount v) ;;
      WriteDouble (mf_multiplier v)
  end.

Definition MixedFormatPacket_Deserialize (v : MixedFormatPacket) : R MixedFormatPacket :=
  header ← ReadObjectHeader;
  if isNull header then mret v else
  let cnt := count header in
  v ← assign_if cnt 1 (λ _, ReadInt32) mf_set_id v;
  v ← assign_if cnt 2 (λ _, ReadVector Int32) mf_set_scores v;
  v ← assign_if cnt 3 (λ v, ReadArray Int32 (mf_fixedBonuses v) MAX_BONUSES) mf_set_bonuses v;
  v ← assign_if cnt 4 (λ v, ReadArray Int8 (mf_tagBytes v) MAX_TAG_LEN) mf_set_tag v;
  assign_if cnt 5 (λ _, ReadDouble) mf_set_multiplier v.

End Definitions.
End FixedArrayExplicit_hpp.

(** [StdArray.hpp]: [std::array]s of 4 and 16 [float]s, as lists. *)
Module StdArray_hpp.
Record TransformData := MkTransformData { TransformData_id : Z; TransformData_quaternion : list Z; TransformData_matrix : list Z }.

Section Definitions.
Context `{Platform}.

Definition TransformData_Serialize (v : option TransformData) : W unit :=
  match v with
  | None => WriteNullObjectHeader
  | Some v =>
      WriteObjectHeader 3 ;;
      WriteInt32 (TransformData_id v) ;;
      WriteStdArray Float32 (TransformData_quaternion v) ;;
      WriteStdArray Float32 (TransformData_matrix v)
  end.

Definition TransformData_Deserialize (v : TransformData) : R TransformData :=
  header ← ReadObjectHeader;
  if isNull header then mret v else
  let cnt := count header in
  v ← assign_if cnt 1 (λ _, ReadInt32) (λ x v, MkTransformData x (TransformData_quaternion v) (TransformData_matrix v)) v;
  v ← assign_if cnt 2 (λ _, ReadStdArray Float32 4) (λ x v, MkTransformData (TransformData_id v) x (TransformData_matrix v)) v;
  assign_if cnt 3 (λ _, ReadStdArray Float32 16) (λ x v, MkTransformData (TransformData_id v) (TransformData_quaternion v) x) v.
End Definitions.
End StdArray_hpp.

(** [Unmanaged.hpp]: structs C# copies verbatim, as their bytes. *)
Module Unmanaged_hpp.
Record Vec3 := MkVec3 { Vec3_bytes : list Z }.
Record PaddedStruct := MkPaddedStruct { PaddedStruct_bytes : list Z }.
Record PackedStruct := MkPackedStruct { PackedStruct_bytes : list Z }.
Record ManagedStruct := MkManagedStruct { ManagedStruct_id : prim Int32; ManagedStruct_label : string }.
Record UnmanagedHolder := MkUnmanagedHolder { UnmanagedHolder_position : Vec3; UnmanagedHolder_padded : PaddedStruct; UnmanagedHolder_packed : PackedStruct; UnmanagedHolder_maybeVec : option Vec3; UnmanagedHolder_points : vector Vec3; UnmanagedHolder_managed : ManagedStruct }.

Section Definitions.
Context `{Platform}.

#[global] Instance Vec3_scrubbed : Scrubbed Vec3 := {
  sc_rep := MkRep 12 4 Vec3_bytes MkVec3;
  sc_init := MkVec3 (replicate 12 0);
  sc_fields := [(0, 4); (4, 4); (8, 4)] }.

#[global] Instance PaddedStruct_scrubbed : Scrubbed PaddedStruct := {
  sc_rep := MkRep 8 4 PaddedStruct_bytes MkPaddedStruct;
  sc_init := MkPaddedStruct (replicate 8 0);
  sc_fields := [(0, 1); (4, 4)] }.

#[global] Instance PackedStruct_unmanaged : Unmanaged PackedStruct := {
  um_rep := MkRep 5 1 PackedStruct_bytes MkPackedStruct;
  um_init := MkPackedStruct (replicate 5 0) }.

(** The assertion of [MEMORYPACK_UNMANAGED_EXACT]. *)
Definition PackedStruct_exact : bool := exact_assert (um_rep (T := PackedStruct)) [(0, 1); (1, 4)].

#[global] Instance ManagedStruct_members : Members ManagedStruct := {
  default_value := MkManagedStruct (Prim 0) (Str []);
  members := [
    Member (prim Int32) ManagedStruct_id (λ x v, MkManagedStruct x (ManagedStruct_label v));
    Member string ManagedStruct_label (λ x v, MkManagedStruct (ManagedStruct_id v) x)] }.

#[global] Instance UnmanagedHolder_members : Members UnmanagedHolder := {
  default_value := MkUnmanagedHolder (MkVec3 (replicate 12 0)) (MkPaddedStruct (replicate 8 0)) (MkPackedStruct (replicate 5 0)) None (Vector []) default_value;
  members := [
    Member Vec3 UnmanagedHolder_position (λ x v, MkUnmanagedHolder x (UnmanagedHolder_padded v) (UnmanagedHolder_packed v) (UnmanagedHolder_maybeVec v) (UnmanagedHolder_points v) (UnmanagedHolder_managed v));
    Member PaddedStruct UnmanagedHolder_padded (λ x v, MkUnmanagedHolder (UnmanagedHolder_position v) x (UnmanagedHolder_packed v) (UnmanagedHolder_maybeVec v) (UnmanagedHolder_points v) (UnmanagedHolder_managed v));
    Member PackedStruct UnmanagedHolder_packed (λ x v, MkUnmanagedHolder (UnmanagedHolder_position v) (UnmanagedHolder_padded v) x (UnmanagedHolder_maybeVec v) (UnmanagedHolder_points v) (UnmanagedHolder_managed v));
    Member (option Vec3) UnmanagedHolder_maybeVec (λ x v, MkUnmanagedHolder (UnmanagedHolder_position v) (UnmanagedHolder_padded v) (UnmanagedHolder_packed v) x (UnmanagedHolder_points v) (UnmanagedHolder_managed v));
    Member (vector Vec3) UnmanagedHolder_points (λ x v, MkUnmanagedHolder (UnmanagedHolder_position v) (UnmanagedHolder_padded v) (UnmanagedHolder_packed v) (UnmanagedHolder_maybeVec v) x (UnmanagedHolder_managed v));
    Member ManagedStruct UnmanagedHolder_managed (λ x v, MkUnmanagedHolder (UnmanagedHolder_position v) (UnmanagedHolder_padded v) (UnmanagedHolder_packed v) (UnmanagedHolder_maybeVec v) (UnmanagedHolder_points v) x)] }.
End Definitions.

Section Laws.
Context `{Platform}.

#[global] Instance ManagedStruct_laws : MembersLaws ManagedStruct.
Proof. members_laws. Defined.
End Laws.
End Unmanaged_hpp.

(** [Collections.hpp]: maps, sets, pairs, nullable numbers and the .NET types. *)
Module Collections_hpp.
Record CollectionPacket := MkCollectionPacket { CollectionPacket_scores : std_map (prim Int32) string; CollectionPacket_lookup : std_map string (prim Int32); CollectionPacket_tags : std_set (prim Int32); CollectionPacket_head : (prim Int32) * string; CollectionPacket_rows : vector (vector (prim Int32)); CollectionPacket_maybeInt : option (prim Int32); CollectionPacket_maybeFloat : option (prim Float32) }.
Record DotNetPacket := MkDotNetPacket { DotNetPacket_id : Guid; DotNetPacket_createdAt : DateTime; DotNetPacket_duration : TimeSpan; DotNetPacket_offset : DateTimeOffset; DotNetPacket_price : Decimal; DotNetPacket_ratio : Half; DotNetPacket_big : Int128; DotNetPacket_uBig : UInt128; DotNetPacket_initial : prim Char16 }.

Section Definitions.
Context `{Platform}.

#[global] Instance CollectionPacket_members : Members CollectionPacket := {
  default_value := MkCollectionPacket c_clear c_clear c_clear ((Prim 0, Str [])) (Vector []) None None;
  members := [
    Member (std_map (prim Int32) string) CollectionPacket_scores (λ x v, MkCollectionPacket x (CollectionPacket_lookup v) (CollectionPacket_tags v) (CollectionPacket_head v) (CollectionPacket_rows v) (CollectionPacket_maybeInt v) (CollectionPacket_maybeFloat v));
    Member (std_map string (prim Int32)) CollectionPacket_lookup (λ x v, MkCollectionPacket (CollectionPacket_scores v) x (CollectionPacket_tags v) (CollectionPacket_head v) (CollectionPacket_rows v) (CollectionPacket_maybeInt v) (CollectionPacket_maybeFloat v));
    Member (std_set (prim Int32)) CollectionPacket_tags (λ x v, MkCollectionPacket (CollectionPacket_scores v) (CollectionPacket_lookup v) x (CollectionPacket_head v) (CollectionPacket_rows v) (CollectionPacket_maybeInt v) (CollectionPacket_maybeFloat v));
    Member ((prim Int32) * string) CollectionPacket_head (λ x v, MkCollectionPacket (CollectionPacket_scores v) (CollectionPacket_lookup v) (CollectionPacket_tags v) x (CollectionPacket_rows v) (CollectionPacket_maybeInt v) (CollectionPacket_maybeFloat v));
    Member (vector (vector (prim Int32))) CollectionPacket_rows (λ x v, MkCollectionPacket (CollectionPacket_scores v) (CollectionPacket_lookup v) (CollectionPacket_tags v) (CollectionPacket_head v) x (CollectionPacket_maybeInt v) (CollectionPacket_maybeFloat v));
    Member (option (prim Int32)) CollectionPacket_maybeInt (λ x v, MkCollectionPacket (CollectionPacket_scores v) (CollectionPacket_lookup v) (CollectionPacket_tags v) (CollectionPacket_head v) (CollectionPacket_rows v) x (CollectionPacket_maybeFloat v));
    Member (option (prim Float32)) CollectionPacket_maybeFloat (λ x v, MkCollectionPacket (CollectionPacket_scores v) (CollectionPacket_lookup v) (CollectionPacket_tags v) (CollectionPacket_head v) (CollectionPacket_rows v) (CollectionPacket_maybeInt v) x)] }.

#[global] Instance DotNetPacket_members : Members DotNetPacket := {
  default_value := MkDotNetPacket value_init value_init value_init value_init value_init value_init value_init value_init (Prim 0);
  members := [
    Member Guid DotNetPacket_id (λ x v, MkDotNetPacket x (DotNetPacket_createdAt v) (DotNetPacket_duration v) (DotNetPacket_offset v) (DotNetPacket_price v) (DotNetPacket_ratio v) (DotNetPacket_big v) (DotNetPacket_uBig v) (DotNetPacket_initial v));
    Member DateTime DotNetPacket_createdAt (λ x v, MkDotNetPacket (DotNetPacket_id v) x (DotNetPacket_duration v) (DotNetPacket_offset v) (DotNetPacket_price v) (DotNetPacket_ratio v) (DotNetPacket_big v) (DotNetPacket_uBig v) (DotNetPacket_initial v));
    Member TimeSpan DotNetPacket_duration (λ x v, MkDotNetPacket (DotNetPacket_id v) (DotNetPacket_createdAt v) x (DotNetPacket_offset v) (DotNetPacket_price v) (DotNetPacket_ratio v) (DotNetPacket_big v) (DotNetPacket_uBig v) (DotNetPacket_initial v));
    Member DateTimeOffset DotNetPacket_offset (λ x v, MkDotNetPacket (DotNetPacket_id v) (DotNetPacket_createdAt v) (DotNetPacket_duration v) x (DotNetPacket_price v) (DotNetPacket_ratio v) (DotNetPacket_big v) (DotNetPacket_uBig v) (DotNetPacket_initial v));
    Member Decimal DotNetPacket_price (λ x v, MkDotNetPacket (DotNetPacket_id v) (DotNetPacket_createdAt v) (DotNetPacket_duration v) (DotNetPacket_offset v) x (DotNetPacket_ratio v) (DotNetPacket_big v) (DotNetPacket_uBig v) (DotNetPacket_initial v));
    Member Half DotNetPacket_ratio (λ x v, MkDotNetPacket (DotNetPacket_id v) (DotNetPacket_createdAt v) (DotNetPacket_duration v) (DotNetPacket_offset v) (DotNetPacket_price v) x (DotNetPacket_big v) (DotNetPacket_uBig v) (DotNetPacket_initial v));
    Member Int128 DotNetPacket_big (λ x v, MkDotNetPacket (DotNetPacket_id v) (DotNetPacket_createdAt v) (DotNetPacket_duration v) (DotNetPacket_offset v) (DotNetPacket_price v) (DotNetPacket_ratio v) x (DotNetPacket_uBig v) (DotNetPacket_initial v));
    Member UInt128 DotNetPacket_uBig (λ x v, MkDotNetPacket (DotNetPacket_id v) (DotNetPacket_createdAt v) (DotNetPacket_duration v) (DotNetPacket_offset v) (DotNetPacket_price v) (DotNetPacket_ratio v) (DotNetPacket_big v) x (DotNetPacket_initial v));
    Member (prim Char16) DotNetPacket_initial (λ x v, MkDotNetPacket (DotNetPacket_id v) (DotNetPacket_createdAt v) (DotNetPacket_duration v) (DotNetPacket_offset v) (DotNetPacket_price v) (DotNetPacket_ratio v) (DotNetPacket_big v) (DotNetPacket_uBig v) x)] }.
End Definitions.

Section Laws.
Context `{Platform}.

#[global] Instance CollectionPacket_laws : MembersLaws CollectionPacket.
Proof. members_laws. Defined.
#[global] Instance DotNetPacket_laws : MembersLaws DotNetPacket.
Proof. members_laws. Defined.
End Laws.
End Collections_hpp.

(** [VersionTolerant.hpp]. *)
Module VersionTolerant_hpp.
Record VersionTolerantPacket := MkVersionTolerantPacket { VersionTolerantPacket_id : prim Int32; VersionTolerantPacket_name : string; VersionTolerantPacket_score : prim Float32 }.

Section Definitions.
Context `{Platform}.

Definition VersionTolerantPacket_members : list (member VersionTolerantPacket) := [
  Member (prim Int32) VersionTolerantPacket_id (λ x v, MkVersionTolerantPacket x (VersionTolerantPacket_name v) (VersionTolerantPacket_score v));
  Member string VersionTolerantPacket_name (λ x v, MkVersionTolerantPacket (VersionTolerantPacket_id v) x (VersionTolerantPacket_score v));
  Member (prim Float32) VersionTolerantPacket_score (λ x v, MkVersionTolerantPacket (VersionTolerantPacket_id v) (VersionTolerantPacket_name v) x)].

Definition VersionTolerantPacket_Serialize (v : option VersionTolerantPacket) : W unit :=
  match v with
  | None => WriteNullObjectHeader
  | Some v => WriteVersionTolerant VersionTolerantPacket_members v
  end.

Definition VersionTolerantPacket_Deserialize (v : VersionTolerantPacket) : R VersionTolerantPacket :=
  ReadVersionTolerant VersionTolerantPacket_members v.
End Definitions.
End VersionTolerant_hpp.

(** [Union.hpp]: a union of three structs. *)
Module Union_hpp.
Record CircleShape := MkCircleShape { CircleShape_radius : prim Float32 }.
Record RectShape := MkRectShape { RectShape_width : prim Float32; RectShape_height : prim Float32 }.
Record WideShape := MkWideShape { WideShape_sides : prim Int32 }.
(** [std::variant<CircleShape, RectShape, WideShape>]. *)
Inductive IShape := Circle (s : CircleShape) | Rect (s : RectShape) | Wide (s : WideShape).
Record UnionHolder := MkUnionHolder { UnionHolder_shape : option IShape }.

Section Definitions.
Context `{Platform}.

#[global] Instance CircleShape_members : Members CircleShape := {
  default_value := MkCircleShape (Prim 0);
  members := [
    Member (prim Float32) CircleShape_radius (λ x _, MkCircleShape x)] }.

#[global] Instance RectShape_members : Members RectShape := {
  default_value := MkRectShape (Prim 0) (Prim 0);
  members := [
    Member (prim Float32) RectShape_width (λ x v, MkRectShape x (RectShape_height v));
    Member (prim Float32) RectShape_height (λ x v, MkRectShape (RectShape_width v) x)] }.

#[global] Instance WideShape_members : Members WideShape := {
  default_value := MkWideShape (Prim 0);
  members := [
    Member (prim Int32) WideShape_sides (λ x _, MkWideShape x)] }.

#[global] Instance IShape_variant : Variant IShape := {
  first_alternative := Circle default_value;
  alternatives := [
    Alternative CircleShape 0 Circle (λ v, if v is Circle s then Some s else None);
    Alternative RectShape 1 Rect (λ v, if v is Rect s then Some s else None);
    Alternative WideShape 300 Wide (λ v, if v is Wide s then Some s else None)] }.

#[global] Instance UnionHolder_members : Members UnionHolder := {
  default_value := MkUnionHolder None;
  members := [
    Member (option IShape) UnionHolder_shape (λ x _, MkUnionHolder x)] }.
End Definitions.

Section Laws.
Context `{Platform}.

#[global] Instance CircleShape_laws : MembersLaws CircleShape.
Proof. members_laws. Defined.
#[global] Instance RectShape_laws : MembersLaws RectShape.
Proof. members_laws. Defined.
#[global] Instance WideShape_laws : MembersLaws WideShape.
Proof. members_laws. Defined.
End Laws.
End Union_hpp.

(** [Enums.hpp]: enums with an underlying type. *)
Module Enums_hpp.
Definition Color : Type := enum UInt8.
Definition Red : Color := Enum 0.
Definition Green : Color := Enum 1.
Definition Blue : Color := Enum 10.
Definition Cyan : Color := Enum 11.
Definition Signed : Type := enum Int16.
Definition Neg : Signed := Enum (-2).
Definition Zero : Signed := Enum 0.
Definition Pos : Signed := Enum 5.
Definition Wide : Type := enum UInt32.
Definition Small : Wide := Enum 1.
Definition Big : Wide := Enum 65536.

Record EnumPacket := MkEnumPacket { EnumPacket_color : Color; EnumPacket_signed_ : Signed; EnumPacket_wide : Wide; EnumPacket_palette : vector Color }.

Section Definitions.
Context `{Platform}.

#[global] Instance EnumPacket_members : Members EnumPacket := {
  default_value := MkEnumPacket (Enum 0) (Enum 0) (Enum 0) (Vector []);
  members := [
    Member Color EnumPacket_color (λ x v, MkEnumPacket x (EnumPacket_signed_ v) (EnumPacket_wide v) (EnumPacket_palette v));
    Member Signed EnumPacket_signed_ (λ x v, MkEnumPacket (EnumPacket_color v) x (EnumPacket_wide v) (EnumPacket_palette v));
    Member Wide EnumPacket_wide (λ x v, MkEnumPacket (EnumPacket_color v) (EnumPacket_signed_ v) x (EnumPacket_palette v));
    Member (vector Color) EnumPacket_palette (λ x v, MkEnumPacket (EnumPacket_color v) (EnumPacket_signed_ v) (EnumPacket_wide v) x)] }.
End Definitions.

Section Laws.
Context `{Platform}.

#[global] Instance EnumPacket_laws : MembersLaws EnumPacket.
Proof. members_laws. Defined.
End Laws.
End Enums_hpp.

(** [Nested.hpp]: objects in objects. *)
Module Nested_hpp.
Record Item := MkItem { Item_itemId : prim Int32; Item_itemName : string; Item_count : prim Int32 }.
Record Inventory := MkInventory { Inventory_ownerId : prim Int32; Inventory_equipped : option Item; Inventory_items : vector Item }.

Section Definitions.
Context `{Platform}.

#[global] Instance Item_members : Members Item := {
  default_value := MkItem (Prim 0) (Str []) (Prim 0);
  members := [
    Member (prim Int32) Item_itemId (λ x v, MkItem x (Item_itemName v) (Item_count v));
    Member string Item_itemName (λ x v, MkItem (Item_itemId v) x (Item_count v));
    Member (prim Int32) Item_count (λ x v, MkItem (Item_itemId v) (Item_itemName v) x)] }.

#[global] Instance Inventory_members : Members Inventory := {
  default_value := MkInventory (Prim 0) None (Vector []);
  members := [
    Member (prim Int32) Inventory_ownerId (λ x v, MkInventory x (Inventory_equipped v) (Inventory_items v));
    Member (option Item) Inventory_equipped (λ x v, MkInventory (Inventory_ownerId v) x (Inventory_items v));
    Member (vector Item) Inventory_items (λ x v, MkInventory (Inventory_ownerId v) (Inventory_equipped v) x)] }.
End Definitions.

Section Laws.
Context `{Platform}.

#[global] Instance Item_laws : MembersLaws Item.
Proof. members_laws. Defined.
#[global] Instance Inventory_laws : MembersLaws Inventory.
Proof. members_laws. Defined.
End Laws.
End Nested_hpp.

(** [NestedNamespaced.hpp]: the same in a namespace. *)
Module NestedNamespaced_hpp.
Record Item := MkItem { Item_itemId : prim Int32; Item_itemName : string; Item_count : prim Int32 }.
Record Inventory := MkInventory { Inventory_ownerId : prim Int32; Inventory_equipped : option Item; Inventory_items : vector Item }.

Section Definitions.
Context `{Platform}.

#[global] Instance Item_members : Members Item := {
  default_value := MkItem (Prim 0) (Str []) (Prim 0);
  members := [
    Member (prim Int32) Item_itemId (λ x v, MkItem x (Item_itemName v) (Item_count v));
    Member string Item_itemName (λ x v, MkItem (Item_itemId v) x (Item_count v));
    Member (prim Int32) Item_count (λ x v, MkItem (Item_itemId v) (Item_itemName v) x)] }.

#[global] Instance Inventory_members : Members Inventory := {
  default_value := MkInventory (Prim 0) None (Vector []);
  members := [
    Member (prim Int32) Inventory_ownerId (λ x v, MkInventory x (Inventory_equipped v) (Inventory_items v));
    Member (option Item) Inventory_equipped (λ x v, MkInventory (Inventory_ownerId v) x (Inventory_items v));
    Member (vector Item) Inventory_items (λ x v, MkInventory (Inventory_ownerId v) (Inventory_equipped v) x)] }.
End Definitions.

Section Laws.
Context `{Platform}.

#[global] Instance Item_laws : MembersLaws Item.
Proof. members_laws. Defined.
#[global] Instance Inventory_laws : MembersLaws Inventory.
Proof. members_laws. Defined.
End Laws.
End NestedNamespaced_hpp.

(** [OrderIgnore.hpp]: an ordered struct with an ignored member. *)
Module OrderIgnore_hpp.
Record OrderedPacket := MkOrderedPacket { OrderedPacket_first : prim Int32; OrderedPacket_second : prim Int32; OrderedPacket_trailing : string }.

Section Definitions.
Context `{Platform}.

#[global] Instance OrderedPacket_members : Members OrderedPacket := {
  default_value := MkOrderedPacket (Prim 0) (Prim 0) (Str []);
  members := [
    Member (prim Int32) OrderedPacket_first (λ x v, MkOrderedPacket x (OrderedPacket_second v) (OrderedPacket_trailing v));
    Member (prim Int32) OrderedPacket_second (λ x v, MkOrderedPacket (OrderedPacket_first v) x (OrderedPacket_trailing v));
    Member string OrderedPacket_trailing (λ x v, MkOrderedPacket (OrderedPacket_first v) (OrderedPacket_second v) x)] }.
End Definitions.

Section Laws.
Context `{Platform}.

#[global] Instance OrderedPacket_laws : MembersLaws OrderedPacket.
Proof. members_laws. Defined.
End Laws.
End OrderIgnore_hpp.
