(* ===== verification/ChatGui.v ===== *)
(** The Win32 chat client ([samples/ChatClient/main.cpp]): its window as the text and the
    enabled state of each control, the button handlers, the packet handler of the window
    procedure, the receive thread and the messages it posts.

    Windows itself is a parameter: how it converts between UTF-8 and UTF-16, which list
    item it takes for an exact match, how much of an insertion an edit control accepts,
    and which connections succeed. *)
From stdpp Require Import strings relations.
From S2P Require Import Prelude Endian Writer Reader Headers Utf Strings Formatter Collections Objects Api Packet Text Net ChatProtocol.

(** ** Windows *)

Class Windows := {
  (** [MultiByteToWideChar] and [WideCharToMultiByte] with [CP_UTF8], on non-empty text. *)
  multi_byte_to_wide : list Z → list Z;
  wide_to_multi_byte : list Z → list Z;
  (** What [LB_FINDSTRINGEXACT] takes for the same text: it ignores case. *)
  same_item : list Z → list Z → bool;
  (** The part of a text that [EM_REPLACESEL] inserts at the end of another one. *)
  accepted_text : list Z → list Z → list Z;
  (** The [k]-th [connect]: what the server will send, or a failure. *)
  connect_result : nat → option (list Z);
}.

(** What is documented of them. *)
Class WindowsLaws `{Windows} : Prop := {
  multi_byte_ok w : bytes_ok (wide_to_multi_byte w);
  multi_byte_size w : zlen (wide_to_multi_byte w) ≤ 3 * zlen w;
  same_item_refl w : same_item w w = true;
  accepted_prefix old new : accepted_text old new `prefix_of` new;
  connect_bytes k bytes : connect_result k = Some bytes → bytes_ok bytes;
}.

(** ** State *)

(** The controls: what they show and whether they are enabled. [boxes] are the message
    boxes that were shown. *)
Record window := Window {
  username_text : list Z;
  username_enabled : bool;
  login_enabled : bool;
  room_text : list Z;
  room_enabled : bool;
  join_enabled : bool;
  users : list (list Z);
  chat_text : list Z;
  message_text : list Z;
  message_enabled : bool;
  send_enabled : bool;
  pm_enabled : bool;
  boxes : list (list Z);
}.

(** After [WM_CREATE]. *)
Definition created : window := Window [] true true [] false false [] [] [] false false false [].

Inductive net_message :=
  | WM_NET_PACKET (id : Z) (body : list Z)
  | WM_NET_DISCONNECT.

(** A socket is the connection behind it; nothing is printed. *)
Abbreviation socket := (world Empty_set).

(** The globals, the receive threads that run, the messages posted to the window and the
    number of connections tried. *)
Record client := Client {
  g_window : window;
  g_sock : option socket;
  g_running : bool;
  g_username : list Z;
  recv_threads : nat;
  posted : list net_message;
  connects : nat;
  destroyed : bool;
}.

Definition started_client : client := Client created None false [] 0 [] 0 false.

Definition on_window (f : window → window) (c : client) : client :=
  Client (f (g_window c)) (g_sock c) (g_running c) (g_username c) (recv_threads c) (posted c) (connects c) (destroyed c).
Definition set_sock (s : option socket) (c : client) : client :=
  Client (g_window c) s (g_running c) (g_username c) (recv_threads c) (posted c) (connects c) (destroyed c).
Definition set_running (b : bool) (c : client) : client :=
  Client (g_window c) (g_sock c) b (g_username c) (recv_threads c) (posted c) (connects c) (destroyed c).
Definition set_username (name : list Z) (c : client) : client :=
  Client (g_window c) (g_sock c) (g_running c) name (recv_threads c) (posted c) (connects c) (destroyed c).
Definition set_threads (n : nat) (c : client) : client :=
  Client (g_window c) (g_sock c) (g_running c) (g_username c) n (posted c) (connects c) (destroyed c).
Definition set_posted (ms : list net_message) (c : client) : client :=
  Client (g_window c) (g_sock c) (g_running c) (g_username c) (recv_threads c) ms (connects c) (destroyed c).
Definition set_connects (n : nat) (c : client) : client :=
  Client (g_window c) (g_sock c) (g_running c) (g_username c) (recv_threads c) (posted c) n (destroyed c).
Definition set_destroyed (c : client) : client :=
  Client (g_window c) (g_sock c) (g_running c) (g_username c) (recv_threads c) (posted c) (connects c) true.

Definition set_username_text (t : list Z) (w : window) : window :=
  Window t (username_enabled w) (login_enabled w) (room_text w) (room_enabled w) (join_enabled w) (users w) (chat_text w)
    (message_text w) (message_enabled w) (send_enabled w) (pm_enabled w) (boxes w).
Definition set_room_text (t : list Z) (w : window) : window :=
  Window (username_text w) (username_enabled w) (login_enabled w) t (room_enabled w) (join_enabled w) (users w) (chat_text w)
    (message_text w) (message_enabled w) (send_enabled w) (pm_enabled w) (boxes w).
Definition set_message_text (t : list Z) (w : window) : window :=
  Window (username_text w) (username_enabled w) (login_enabled w) (room_text w) (room_enabled w) (join_enabled w) (users w) (chat_text w)
    t (message_enabled w) (send_enabled w) (pm_enabled w) (boxes w).
Definition set_users (us : list (list Z)) (w : window) : window :=
  Window (username_text w) (username_enabled w) (login_enabled w) (room_text w) (room_enabled w) (join_enabled w) us (chat_text w)
    (message_text w) (message_enabled w) (send_enabled w) (pm_enabled w) (boxes w).
Definition set_chat_text (t : list Z) (w : window) : window :=
  Window (username_text w) (username_enabled w) (login_enabled w) (room_text w) (room_enabled w) (join_enabled w) (users w) t
    (message_text w) (message_enabled w) (send_enabled w) (pm_enabled w) (boxes w).
Definition enable_login (b : bool) (w : window) : window :=
  Window (username_text w) b b (room_text w) (room_enabled w) (join_enabled w) (users w) (chat_text w)
    (message_text w) (message_enabled w) (send_enabled w) (pm_enabled w) (boxes w).
Definition enable_room (b : bool) (w : window) : window :=
  Window (username_text w) (username_enabled w) (login_enabled w) (room_text w) b b (users w) (chat_text w)
    (message_text w) (message_enabled w) (send_enabled w) (pm_enabled w) (boxes w).
Definition enable_chat (b : bool) (w : window) : window :=
  Window (username_text w) (username_enabled w) (login_enabled w) (room_text w) (room_enabled w) (join_enabled w) (users w) (chat_text w)
    (message_text w) b b b (boxes w).
Definition add_box (t : list Z) (w : window) : window :=
  Window (username_text w) (username_enabled w) (login_enabled w) (room_text w) (room_enabled w) (join_enabled w) (users w) (chat_text w)
    (message_text w) (message_enabled w) (send_enabled w) (pm_enabled w) (boxes w ++ [t]).

Definition ui (f : window → window) : M client unit := modify (on_window f).
Definition MessageBox (text : list Z) : M client unit := ui (add_box text).
Definition get_win {A} (f : window → A) : M client A := gets (λ c, f (g_window c)).

(** ** Text *)

(** What a callee sees of a [c_str()]: everything up to the first null. *)
Fixpoint c_str (w : list Z) : list Z :=
  match w with
  | [] => []
  | u :: w' => if u =? 0 then [] else u :: c_str w'
  end.

Section Operations.
Context `{Platform, System, Windows}.

Definition Utf8ToWide (s : list Z) : list Z := if bool_decide (s = []) then [] else multi_byte_to_wide s.
Definition WideToUtf8 (w : list Z) : list Z := if bool_decide (w = []) then [] else wide_to_multi_byte w.

(** [GetWindowTextW] stores the text and a null; the null is cut off again. *)
Definition GetEditText (text : list Z) : list Z :=
  let len := zlen text in
  if len =? 0 then [] else vector_resize 0 len (text ++ [0]).

(** ** Network *)

(** The loops count in [int]; [buf] holds the bytes stored so far. *)
Fixpoint RecvExact_loop (fuel : nat) (buf : list Z) (len got : Z) : M socket (bool * list Z) :=
  if got <? len then
    match fuel with
    | O => undefined
    | S fuel' =>
        r ← recv (len - got);
        if r.1 <=? 0 then mret (false, buf) else RecvExact_loop fuel' (buf ++ r.2) len (got + r.1)
    end
  else mret (true, buf).

Definition RecvExact (len : Z) : M socket (bool * list Z) := RecvExact_loop (Z.to_nat len) [] len 0.

Fixpoint SendExact_loop (fuel : nat) (buf : list Z) (len sent : Z) : M socket bool :=
  if sent <? len then
    match fuel with
    | O => undefined
    | S fuel' =>
        n ← send buf sent (len - sent);
        if n <=? 0 then mret false else SendExact_loop fuel' buf len (sent + n)
    end
  else mret true.

Definition SendExact (buf : list Z) (len : Z) : M socket bool := SendExact_loop (Z.to_nat len) buf len 0.

Definition SendTo (id : PacketId) (body : list Z) : M socket bool :=
  let blen := to_int (zlen body) in
  let hdr := object_bytes UInt16 (packet_id id) ++ object_bytes Int32 blen in
  ok ← SendExact hdr 6;
  if negb ok then mret false else
  if blen >? 0 then SendExact body blen else mret true.

(** The packet, or nothing when it fails. *)
Definition RecvPacket : M socket (option (Z * list Z)) :=
  hdr ← RecvExact 6;
  if negb hdr.1 then mret None else
  let pid := of_object_bytes UInt16 (slice 0 2 hdr.2) in
  let blen := of_object_bytes Int32 (slice 2 4 hdr.2) in
  if blen >? 0 then
    body ← RecvExact blen;
    mret (if body.1 : bool then Some (pid, body.2) else None)
  else mret (Some (pid, [])).

(** Runs an operation on [g_sock]; calls on [INVALID_SOCKET] fail. *)
Definition on_socket {A} (m : M socket A) (failed : A) : M client A := λ c,
  match g_sock c with
  | Some s => let '(o, s') := m s in (o, set_sock (Some s') c)
  | None => (Ret failed, c)
  end.

Definition SendPacket (id : PacketId) (body : list Z) : M client bool := on_socket (SendTo id body) false.

(** [SendPacket(id, memorypack::Serialize(v))]; an exception leaves the caller. *)
Definition send_value {T} `{!MemoryPackFormatter T} (id : PacketId) (v : T) : M client unit :=
  body ← lift_outcome (SerializeNew v);
  SendPacket id body ;;
  mret tt.

(** ** The window *)

Definition AppendChat (text : list Z) : M client unit :=
  chat ← get_win chat_text;
  let line := (if zlen chat >? 0 then [13; 10] else []) ++ text in
  ui (set_chat_text (chat ++ accepted_text chat (c_str line))).

(** One round of the loop of [RecvThread]; false when it is over. *)
Definition recv_round : M client bool :=
  running ← gets g_running;
  if negb running then mret false else
  r ← on_socket RecvPacket None;
  match r with
  | None =>
      running ← gets g_running;
      (if running : bool then modify (λ c, set_posted (posted c ++ [WM_NET_DISCONNECT]) c) else mret tt) ;;
      mret false
  | Some (id, body) => modify (λ c, set_posted (posted c ++ [WM_NET_PACKET id body]) c) ;; mret true
  end.

Definition OnLogin : M client unit :=
  text ← get_win username_text;
  let wname := GetEditText text in
  if bool_decide (wname = []) then MessageBox (literal "Enter a username.") else
  k ← gets connects;
  modify (set_connects (S k)) ;;
  match connect_result k with
  | None => MessageBox (literal "Cannot connect to server.") ;; modify (set_sock None)
  | Some bytes =>
      modify (set_sock (Some (connected bytes))) ;;
      modify (set_username (WideToUtf8 wname)) ;;
      modify (set_running true) ;;
      modify (λ c, set_threads (S (recv_threads c)) c) ;;
      name ← gets g_username;
      send_value LoginRequestId (MkLoginRequest (Str name))
  end.

Definition OnJoinRoom : M client unit :=
  text ← get_win room_text;
  let wroom := GetEditText text in
  if bool_decide (wroom = []) then mret tt else
  send_value RoomJoinRequestId (MkRoomJoinRequest (Str (WideToUtf8 wroom))).

Definition OnSendChat : M client unit :=
  text ← get_win message_text;
  let wmsg := GetEditText text in
  if bool_decide (wmsg = []) then mret tt else
  send_value RoomChatId (MkRoomChat (Str []) (Str (WideToUtf8 wmsg))) ;;
  ui (set_message_text []).

(** [sel] is the selected item; [LB_GETTEXT] copies it and a null into [target[256]]. *)
Definition OnSendPM (sel : option nat) : M client unit :=
  match sel with
  | None => MessageBox (literal "Select a user for PM.")
  | Some i =>
      us ← get_win users;
      match us !! i with
      | None => undefined
      | Some target =>
          if zlen target + 1 >? 256 then undefined else
          text ← get_win message_text;
          let wmsg := GetEditText text in
          if bool_decide (wmsg = []) then mret tt else
          send_value PrivateChatId (MkPrivateChat (Str []) (Str (WideToUtf8 target)) (Str (WideToUtf8 wmsg))) ;;
          ui (set_message_text [])
      end
  end.

(** [LB_FINDSTRINGEXACT] from the top, and [LB_DELETESTRING]. *)
Fixpoint delete_item (w : list Z) (us : list (list Z)) : list (list Z) :=
  match us with
  | [] => []
  | u :: us' => if same_item u w then us' else u :: delete_item w us'
  end.

(** An [LB_ADDSTRING] item, from its [c_str()]. *)
Definition shown (s : list Z) : list Z := c_str (Utf8ToWide s).

Definition deserialize (T : Type) `{!MemoryPackFormatter T} (body : list Z) : M client T := lift_outcome (DeserializeNew body).

Definition HandleNetPacket (id : Z) (body : list Z) : M client unit :=
  if id =? packet_id LoginResponseId then
    r ← deserialize LoginResponse body;
    if negb (pval (lrs_success r) =? 0) then
      AppendChat (literal "[System] Login OK") ;;
      ui (enable_login false) ;;
      ui (enable_room true)
    else
      AppendChat (literal "[System] Login failed: " ++ Utf8ToWide (bytes_of (lrs_message r))) ;;
      modify (set_sock None) ;;
      modify (set_running false)
  else if id =? packet_id RoomJoinResponseId then
    r ← deserialize RoomJoinResponse body;
    ui (set_users []) ;;
    mapM_ (λ u, ui (λ w, set_users (users w ++ [shown (bytes_of u)]) w)) (elements (jrs_existingUsers r)) ;;
    ui (enable_chat true) ;;
    room ← get_win room_text;
    AppendChat (literal "[System] Joined room: " ++ GetEditText room)
  else if id =? packet_id RoomChatId then
    r ← deserialize RoomChat body;
    AppendChat (Utf8ToWide (bytes_of (rc_senderName r)) ++ literal ": " ++ Utf8ToWide (bytes_of (rc_message r)))
  else if id =? packet_id PrivateChatId then
    r ← deserialize PrivateChat body;
    name ← gets g_username;
    if bool_decide (bytes_of (pc_senderName r) = name) then
      AppendChat (literal "[PM to " ++ Utf8ToWide (bytes_of (pc_targetName r)) ++ literal "] " ++ Utf8ToWide (bytes_of (pc_message r)))
    else
      AppendChat (literal "[PM from " ++ Utf8ToWide (bytes_of (pc_senderName r)) ++ literal "] " ++ Utf8ToWide (bytes_of (pc_message r)))
  else if id =? packet_id UserEnteredId then
    r ← deserialize UserEntered body;
    ui (λ w, set_users (users w ++ [shown (bytes_of (ue_username r))]) w) ;;
    AppendChat (literal "[System] " ++ Utf8ToWide (bytes_of (ue_username r)) ++ literal " entered the room")
  else if id =? packet_id UserLeftId then
    r ← deserialize UserLeft body;
    let w := Utf8ToWide (bytes_of (ul_username r)) in
    ui (λ win, set_users (delete_item (c_str w) (users win)) win) ;;
    AppendChat (literal "[System] " ++ w ++ literal " left the room")
  else mret tt.

(** What the window procedure does with a posted message. *)
Definition on_message (m : net_message) : M client unit :=
  match m with
  | WM_NET_PACKET id body => HandleNetPacket id body
  | WM_NET_DISCONNECT => AppendChat (literal "[System] Disconnected from server")
  end.

(** [WM_DESTROY]. *)
Definition OnDestroy : M client unit :=
  modify (set_running false) ;;
  modify (set_sock None) ;;
  modify set_destroyed.
End Operations.

(** ** Running *)

(** What can be typed into an edit control: it holds at most 32767 characters, no null. *)
Definition typed (t : list Z) : Prop := (0 ∉ t) ∧ zlen t < 2 ^ 15.

Section Steps.
Context `{Platform, System, Windows}.

(** One event: the user, while the window exists, types into or clicks an enabled control;
    a receive thread makes a round; the window procedure takes the next posted message; the
    window is closed. An event whose handler does not return is not a step. *)
Inductive gui_step : client → client → Prop :=
  | type_username t c : destroyed c = false → username_enabled (g_window c) = true → typed t →
      gui_step c (on_window (set_username_text t) c)
  | type_room t c : destroyed c = false → room_enabled (g_window c) = true → typed t →
      gui_step c (on_window (set_room_text t) c)
  | type_message t c : destroyed c = false → message_enabled (g_window c) = true → typed t →
      gui_step c (on_window (set_message_text t) c)
  | click_login c c' : destroyed c = false → login_enabled (g_window c) = true → OnLogin c = (Ret tt, c') → gui_step c c'
  | click_join c c' : destroyed c = false → join_enabled (g_window c) = true → OnJoinRoom c = (Ret tt, c') → gui_step c c'
  | click_send c c' : destroyed c = false → send_enabled (g_window c) = true → OnSendChat c = (Ret tt, c') → gui_step c c'
  | click_pm sel c c' : destroyed c = false → pm_enabled (g_window c) = true →
      (∀ i, sel = Some i → (i < length (users (g_window c)))%nat) → OnSendPM sel c = (Ret tt, c') → gui_step c c'
  | receive_packet c c' : (0 < recv_threads c)%nat → recv_round c = (Ret true, c') → gui_step c c'
  | receive_end c c' : (0 < recv_threads c)%nat → recv_round c = (Ret false, c') →
      gui_step c (set_threads (recv_threads c' - 1) c')
  | dispatch m ms c c' : destroyed c = false → posted c = m :: ms → on_message m (set_posted ms c) = (Ret tt, c') → gui_step c c'
  | close_window c c' : destroyed c = false → OnDestroy c = (Ret tt, c') → gui_step c c'.

Definition reachable (c : client) : Prop := rtc gui_step started_client c.
End Steps.

(** ** A session *)

Section Example.
#[local] Existing Instances host64 slow_system.

(** Text in ASCII; names are the same item when they are equal but for the case of their
    letters; the server answers the login and lets "Bo" into a room with "Al". *)
Definition lower (u : Z) : Z := if (65 <=? u) && (u <=? 90) then u + 32 else u.

Definition ascii_windows : Windows := {|
  multi_byte_to_wide := λ s, s;
  wide_to_multi_byte := λ w, (λ u, u mod 128) <$> w;
  same_item := λ a b, bool_decide (lower <$> a = lower <$> b);
  accepted_text := λ _ new, new;
  connect_result := λ k, if Nat.leb k 1 then Some
    ([102; 0; 6; 0; 0; 0; 2; 1; 0; 0; 0; 0] ++
     [104; 0; 16; 0; 0; 0; 2; 1; 1; 0; 0; 0; 253; 255; 255; 255; 2; 0; 0; 0; 65; 108]) else None |}.

#[local] Existing Instance ascii_windows.

Example gui_session :
  let '(o, c) := (ui (set_username_text (literal "Bo")) ;; OnLogin ;; recv_round ;; recv_round ;;
    HandleNetPacket 102 [2; 1; 0; 0; 0; 0] ;; HandleNetPacket 104 [2; 1; 1; 0; 0; 0; 253; 255; 255; 255; 2; 0; 0; 0; 65; 108] ;;
    ui (set_message_text (literal "hi")) ;; OnSendPM (Some 0%nat)) started_client in
  o = Ret tt ∧ length (posted c) = 2%nat ∧ users (g_window c) = [literal "Al"] ∧ message_text (g_window c) = [] ∧
  (outgoing <$> g_sock c) = Some (
    [101; 0; 11; 0; 0; 0; 1; 253; 255; 255; 255; 2; 0; 0; 0; 66; 111] ++
     [106; 0; 25; 0; 0; 0; 3; 0; 0; 0; 0; 253; 255; 255; 255; 2; 0; 0; 0; 65; 108; 253; 255; 255; 255; 2; 0; 0; 0; 104; 105]).
Proof. vm_compute. split_and!; reflexivity. Qed.
End Example.
