(* ===== verification/ChatGuiTheorems.v ===== *)
(** The Win32 chat client: the invariant of its states, by induction on the events, what
    its handlers can and cannot do, and its list of the members of a room. *)
From stdpp Require Import strings relations.
From S2P Require Import Prelude Endian Writer Reader Headers Utf Strings Formatter Collections Objects Decoded Api Packet Text Net CppClient ClientTheorems ChatProtocol ChatGui.

(** ** The network helpers are those of the test client *)

Section Network.
Context `{Platform, System, !SystemLaws}.
Implicit Types w : world Empty_set.

Lemma SendExact_loop_eq buf len fuel : ∀ sent w, 0 ≤ sent ≤ len → len < 2 ^ 31 →
  SendExact_loop fuel buf len sent w = send_loop fuel buf len sent w.
Proof.
  pose proof size_mod_pos. induction fuel as [|fuel IH]; intros sent w Hs Hl; cbn [SendExact_loop send_loop]; [done|].
  destruct (Z.ltb_spec sent len); [|done]. rewrite size_sub_small, to_int_small by lia. unfold mbind, M_bind, send.
  destruct ((0 <=? sent) && (0 <=? len - sent) && (sent + (len - sent) <=? zlen buf)); [|done].
  pose proof (send_at_most (sends w) (len - sent) ltac:(lia)). set (k := send_result _ _) in *.
  destruct (Z.leb_spec k 0); [done|]. rewrite size_add_small by lia. apply IH; lia.
Qed.

Lemma RecvExact_loop_eq len fuel : ∀ buf got w, 0 ≤ got ≤ len → len < 2 ^ 31 →
  RecvExact_loop fuel buf len got w = recv_loop fuel buf len got w.
Proof.
  pose proof size_mod_pos. induction fuel as [|fuel IH]; intros buf got w Hs Hl; cbn [RecvExact_loop recv_loop]; [done|].
  destruct (Z.ltb_spec got len); [|done]. rewrite size_sub_small, to_int_small by lia. unfold mbind, M_bind.
  destruct (recv_spec (len - got) w ltac:(lia)) as (k & -> & Hk & _). cbn [fst snd].
  destruct (Z.leb_spec k 0); [done|]. rewrite size_add_small by lia. apply IH; lia.
Qed.

Lemma SendTo_eq id body w : zlen body < 2 ^ 31 → SendTo id body w = send_packet (packet_id id) body w.
Proof.
  intros Hl. zlen_pos. unfold SendTo, send_packet, SendExact, send_exact. rewrite to_int_small by lia.
  unfold mbind, M_bind. rewrite SendExact_loop_eq by done. change PACKET_HEADER_SIZE with 6.
  destruct (send_loop _ _ 6 0 w) as [[[|]| |] w1]; try done. cbn [negb].
  destruct (Z.gtb_spec (zlen body) 0); [|done]. by apply SendExact_loop_eq.
Qed.

Lemma RecvExact_eq len w : 0 ≤ len < 2 ^ 31 → RecvExact len w = recv_exact len w.
Proof. intros Hl. apply RecvExact_loop_eq; lia. Qed.

Lemma RecvPacket_eq w : bytes_ok (incoming w) → RecvPacket w = recv_packet w.
Proof.
  intros Hb. destruct (recv_exact_spec 6 w ltac:(lia)) as (ok & hdr & j & k & E & _ & Hbuf & Hok & _).
  unfold RecvPacket, recv_packet, mbind, M_bind. change PACKET_HEADER_SIZE with 6. rewrite RecvExact_eq, E by lia. cbn [fst snd].
  destruct ok; cbn [negb]; [|done]. specialize (Hok eq_refl).
  assert (Hn : arith_ok Int32 (of_object_bytes Int32 (slice 2 4 hdr))).
  { apply of_object_bytes_ok; [done|subst hdr; by apply Forall_slice, Forall_take|].
    pose proof (zlen_slice 2 4 hdr ltac:(lia) ltac:(lia) ltac:(lia)) as Hz. unfold zlen in Hz. cbn. lia. }
  arith_ranges. destruct (Z.gtb_spec (of_object_bytes Int32 (slice 2 4 hdr)) 0); [|done]. by rewrite RecvExact_eq by lia.
Qed.
End Network.

(** ** What the client sends *)

Section Requests.
Context `{Platform, System, Windows, !SystemLaws, !WindowsLaws}.
Implicit Types c : client.

(** The frame of a value under an id. *)
Definition value_frame {T} `{!WireFormat T} (id : PacketId) (v : T) : list Z := host_frame (packet_id id) (enc v).

Definition login_frame (name : list Z) : list Z := value_frame LoginRequestId (MkLoginRequest (Str name)).

Inductive request :=
  | JoinReq (room : list Z)
  | ChatReq (text : list Z)
  | PmReq (target text : list Z).

(** The names of the sender are left to the server. *)
Definition request_frame (q : request) : list Z :=
  match q with
  | JoinReq room => value_frame RoomJoinRequestId (MkRoomJoinRequest (Str room))
  | ChatReq text => value_frame RoomChatId (MkRoomChat (Str []) (Str text))
  | PmReq target text => value_frame PrivateChatId (MkPrivateChat (Str []) (Str target) (Str text))
  end.

(** Sending [frame]: nothing else changes, and on a connection that never fails all of it goes out. *)
Definition sends (frame : list Z) c c' : Prop :=
  match g_sock c with
  | None => c' = c
  | Some s => ∃ part k, c' = set_sock (Some (after_send part k s)) c ∧ (sends_always → part = frame)
  end.

Lemma send_value_sends {T} `{!MemoryPackFormatter T, !WireFormat T, !FormatterLaws T} id (v : T) c :
  wf v → zlen (enc v) ≤ 2 ^ 20 → ∃ c', send_value id v c = (Ret tt, c') ∧ sends (value_frame id v) c c'.
Proof.
  intros Hv Hl. pose proof grow_limit_bounds. unfold send_value, sends, SendPacket, on_socket.
  rewrite (SerializeNew_emits v (enc v)) by (by apply law_emits || lia). unfold mbind at 1, M_bind at 1, lift_outcome.
  unfold mbind, M_bind. destruct (g_sock c) as [s|]; [|by exists c]. rewrite SendTo_eq by lia.
  destruct (send_packet_spec (packet_id id) (enc v) s) as (ok & part & k & -> & _ & Hok & Ha); [lia|].
  eexists. split; [reflexivity|]. exists part, k. split; [done|]. intros Hs. by apply Hok, Ha.
Qed.

(** Texts the client sends: short enough to be any part of a packet. *)
Definition short_text (s : list Z) : Prop := bytes_ok s ∧ zlen s ≤ 2 ^ 17.

Lemma short_text_nil : short_text [].
Proof. by split; [apply Forall_nil_2|]. Qed.

Lemma WideToUtf8_short w : zlen w < 2 ^ 15 → short_text (WideToUtf8 w).
Proof.
  intros Hl. unfold WideToUtf8. case_bool_decide; [apply short_text_nil|].
  split; [apply multi_byte_ok|]. pose proof (multi_byte_size w). lia.
Qed.

Lemma short_text_string s : short_text s → string_ok s.
Proof.
  intros [Hb Hl]. zlen_pos. split; [done|]. split; [lia|]. rewrite utf16_length_count by done.
  pose proof (count_units_bound s 0). lia.
Qed.

Lemma zlen_enc_string_short s : short_text s → zlen (enc_string s) ≤ 2 ^ 17 + 8.
Proof. intros [_ Hl]. unfold enc_string. case_match; rewrite ?zlen_app, ?zlen_le_bytes; lia. Qed.

(** An object whose members are short strings. *)
Lemma short_object_ok {V} `{!Members V, !MembersLaws V} (v : V) n :
  Forall (λ s, wf (m_get (ms_member s) v) ∧ zlen (enc (m_get (ms_member s) v)) ≤ n) specs → zlen (specs (V := V)) ≤ 4 → 0 ≤ n →
  wf v ∧ zlen (enc v) ≤ 1 + 4 * n.
Proof.
  intros Hs Hn Hpos. split; [intros s Hin; rewrite Forall_forall in Hs; by apply Hs|].
  cbn [enc object_wire]. rewrite zlen_cons. assert (Hb : zlen (enc_members specs v) ≤ zlen (specs (V := V)) * n).
  2: { pose proof (Z.mul_le_mono_nonneg_r _ 4 n Hpos Hn). lia. }
  clear Hn. unfold enc_members. induction specs as [|s ss IH]; [change (0 ≤ 0 * n); lia|]. apply Forall_cons in Hs as [[_ Hs] Hss].
  specialize (IH Hss). rewrite bind_cons, zlen_app, zlen_cons. lia.
Qed.

Lemma short_member s : short_text s → wf (Str s) ∧ zlen (enc (Str s)) ≤ 2 ^ 17 + 8.
Proof. intros Hs. split; [by apply short_text_string|by apply zlen_enc_string_short]. Qed.

(** What the handlers send is a frame of the protocol. *)
Lemma sends_login name c : short_text name →
  ∃ c', send_value LoginRequestId (MkLoginRequest (Str name)) c = (Ret tt, c') ∧ sends (login_frame name) c c'.
Proof.
  intros Hn. destruct (short_object_ok (MkLoginRequest (Str name)) (2 ^ 17 + 8)) as [Hw Hl]; [|done|done|apply send_value_sends; [done|lia]].
  apply Forall_singleton. by apply short_member.
Qed.

Lemma sends_join room c : short_text room →
  ∃ c', send_value RoomJoinRequestId (MkRoomJoinRequest (Str room)) c = (Ret tt, c') ∧ sends (request_frame (JoinReq room)) c c'.
Proof.
  intros Hn. destruct (short_object_ok (MkRoomJoinRequest (Str room)) (2 ^ 17 + 8)) as [Hw Hl]; [|done|done|apply send_value_sends; [done|lia]].
  apply Forall_singleton. by apply short_member.
Qed.

Lemma sends_chat text c : short_text text →
  ∃ c', send_value RoomChatId (MkRoomChat (Str []) (Str text)) c = (Ret tt, c') ∧ sends (request_frame (ChatReq text)) c c'.
Proof.
  intros Hn. pose proof short_text_nil.
  destruct (short_object_ok (MkRoomChat (Str []) (Str text)) (2 ^ 17 + 8)) as [Hw Hl]; [|done|done|apply send_value_sends; [done|lia]].
  apply Forall_cons. split; [by apply short_member|]. apply Forall_singleton. by apply short_member.
Qed.

Lemma sends_pm target text c : short_text target → short_text text →
  ∃ c', send_value PrivateChatId (MkPrivateChat (Str []) (Str target) (Str text)) c = (Ret tt, c') ∧
    sends (request_frame (PmReq target text)) c c'.
Proof.
  intros Ht Hn. pose proof short_text_nil.
  destruct (short_object_ok (MkPrivateChat (Str []) (Str target) (Str text)) (2 ^ 17 + 8)) as [Hw Hl]; [|done|done|apply send_value_sends; [done|lia]].
  apply Forall_cons. split; [by apply short_member|]. apply Forall_cons. split; [by apply short_member|].
  apply Forall_singleton. by apply short_member.
Qed.
End Requests.

(** ** The invariant *)

(** Controls that belong together are enabled together; the room can be chosen exactly
    when the login is done; what is typed fits the controls. *)
Record window_ok (w : window) : Prop := {
  ok_login : username_enabled w = login_enabled w;
  ok_room : room_enabled w = join_enabled w;
  ok_chat : message_enabled w = send_enabled w ∧ send_enabled w = pm_enabled w;
  ok_once : room_enabled w = negb (login_enabled w);
  ok_texts : zlen (username_text w) < 2 ^ 15 ∧ zlen (room_text w) < 2 ^ 15 ∧ zlen (message_text w) < 2 ^ 15;
}.

Definition posted_ok (m : net_message) : Prop :=
  match m with
  | WM_NET_PACKET id body => bytes_ok body ∧ zlen body < 2 ^ 31
  | WM_NET_DISCONNECT => True
  end.

Section Invariant.
Context `{Platform, System, Windows, !SystemLaws, !WindowsLaws}.
Implicit Types c : client.

(** Every connection opens with the login of the user, and only requests follow. *)
Definition speaks (name : list Z) (out : list Z) : Prop :=
  ∃ qs, out = login_frame name ++ (qs ≫= request_frame).

(** While the socket is open the client runs; [named] says that the login is on its way. *)
Record gui_ok (named : bool) c : Prop := {
  gui_window : window_ok (g_window c);
  gui_running : is_Some (g_sock c) → g_running c = true;
  gui_input s : g_sock c = Some s → bytes_ok (incoming s);
  gui_output s : g_sock c = Some s → sends_always → if named then speaks (g_username c) (outgoing s) else outgoing s = [];
  gui_posted : Forall posted_ok (posted c);
  gui_threads : (recv_threads c ≤ connects c)%nat;
  gui_destroyed : destroyed c = true → g_running c = false;
}.

(** [m] runs without undefined behaviour, to a state in [Q] if it returns; it may throw
    only where that is said. *)
Definition runs {A} (throws : Prop) (m : M client A) (Q : A → client → Prop) c : Prop :=
  match m c with
  | (Ret a, c') => Q a c'
  | (Throw _ _, _) => throws
  | (UB, _) => False
  end.

Lemma runs_bind {A B} throws (m : M client A) (k : A → M client B) P Q c :
  runs throws m P c → (∀ a c', P a c' → runs throws (k a) Q c') → runs throws (m ≫= k) Q c.
Proof. unfold runs, mbind, M_bind. destruct (m c) as [[a|e off|] c']; [|done..]. intros HP HQ. by apply HQ. Qed.

(** *** Parts of the state *)

Lemma gui_on_window named f c : gui_ok named c → window_ok (f (g_window c)) → gui_ok named (on_window f c).
Proof. intros [] Hw. by split. Qed.

Lemma GetEditText_eq t : GetEditText t = t.
Proof.
  unfold GetEditText. destruct (Z.eqb_spec (zlen t) 0) as [E|E]; [by apply zlen_0_nil in E|].
  rewrite vector_resize_take by zlia. by rewrite zlen_to_nat, take_app_length.
Qed.

Lemma runs_AppendChat named throws text c : gui_ok named c → runs throws (AppendChat text) (λ _, gui_ok named) c.
Proof. intros Hc. apply (gui_on_window named _ c Hc). by destruct (gui_window _ _ Hc). Qed.

(** Sending from a socket that belongs to the user. *)
Lemma gui_sends q c c' : gui_ok true c → sends (request_frame q) c c' → gui_ok true c'.
Proof.
  intros Hc Hs. unfold sends in Hs. destruct (g_sock c) as [s|] eqn:Es; [|by subst c'].
  destruct Hs as (part & k & -> & Hp). destruct Hc as [Hw Hr Hi Ho Hpo Ht Hd]. split; try done; cbn.
  - intros _. by apply Hr.
  - intros s' [= <-]. exact (Hi s Es).
  - intros s' [= <-] Ha. destruct (Ho s Es Ha) as (qs & E). cbn. rewrite (Hp Ha), E. exists (qs ++ [q]).
    rewrite bind_app, bind_cons, app_assoc. cbn. by rewrite app_nil_r.
Qed.

(** *** The buttons *)

Lemma OnLogin_runs throws c : gui_ok true c → destroyed c = false → runs throws OnLogin (λ _, gui_ok true) c.
Proof.
  intros Hc Hnd. unfold runs, OnLogin, get_win. unfold mbind at 1, M_bind at 1, gets at 1. rewrite GetEditText_eq.
  case_bool_decide; [by apply (gui_on_window true (add_box _) c Hc); destruct (gui_window _ _ Hc)|].
  unfold mbind at 1, M_bind at 1, gets at 1. unfold mbind at 1, M_bind at 1, modify at 1.
  destruct Hc as [Hw Hr Hi Ho Hpo Ht Hd]. destruct (connect_result (connects c)) as [bytes|] eqn:Ec.
  - do 4 (unfold mbind at 1, M_bind at 1, modify at 1). unfold mbind at 1, M_bind at 1, gets at 1. cbn [g_username set_threads set_running set_username].
    set (name := WideToUtf8 _). set (c1 := set_threads _ _).
    destruct (sends_login name c1) as (c' & E & Hs); [apply WideToUtf8_short, Hw|]. rewrite E.
    unfold sends in Hs. cbn [g_sock c1] in Hs. destruct Hs as (part & k & -> & Hp). split; try done; cbn.
    + intros s [= <-]. by apply (connect_bytes _ _ Ec).
    + intros s [= <-] Ha. cbn. rewrite (Hp Ha). exists []. by rewrite app_nil_r.
    + lia.
    + intros E'. congruence.
  - split; try done; cbn; [by destruct Hw|by intros []|lia].
Qed.

(** A request, and then the message control is emptied. *)
Lemma gui_clear_message named c : gui_ok named c → gui_ok named (on_window (set_message_text []) c).
Proof. intros Hc. apply gui_on_window; [done|]. destruct (gui_window _ _ Hc) as [? ? ? ? (? & ? & ?)]. by split. Qed.

Lemma OnJoinRoom_runs throws c : gui_ok true c → runs throws OnJoinRoom (λ _, gui_ok true) c.
Proof.
  intros Hc. unfold runs, OnJoinRoom, get_win. unfold mbind at 1, M_bind at 1, gets at 1. rewrite GetEditText_eq.
  case_bool_decide; [done|]. destruct (sends_join (WideToUtf8 (room_text (g_window c))) c) as (c' & -> & Hs).
  { apply WideToUtf8_short. by apply (gui_window _ _ Hc). }
  by eapply gui_sends.
Qed.

Lemma OnSendChat_runs throws c : gui_ok true c → runs throws OnSendChat (λ _, gui_ok true) c.
Proof.
  intros Hc. unfold runs, OnSendChat, get_win. unfold mbind at 1, M_bind at 1, gets at 1. rewrite GetEditText_eq.
  case_bool_decide; [done|]. unfold mbind, M_bind. destruct (sends_chat (WideToUtf8 (message_text (g_window c))) c) as (c' & -> & Hs).
  { apply WideToUtf8_short. by apply (gui_window _ _ Hc). }
  apply gui_clear_message. by eapply gui_sends.
Qed.

(** The item the user selected. *)
Definition selected_name (sel : option nat) c : option (list Z) := i ← sel; users (g_window c) !! i.

(** A private message to a name the buffer has no room for is the one click that fails. *)
Lemma OnSendPM_runs throws sel c : gui_ok true c → (∀ i, sel = Some i → (i < length (users (g_window c)))%nat) →
  if bool_decide (256 ≤ zlen (default [] (selected_name sel c))) then fst (OnSendPM sel c) = UB
  else runs throws (OnSendPM sel) (λ _, gui_ok true) c.
Proof.
  intros Hc Hsel. destruct sel as [i|].
  2: { rewrite bool_decide_false by (change (¬ 256 ≤ 0); lia). apply (gui_on_window true (add_box _) c Hc). by destruct (gui_window _ _ Hc). }
  destruct (lookup_lt_is_Some_2 (users (g_window c)) i (Hsel i eq_refl)) as [target Ht]. 
  assert (selected_name (Some i) c = Some target) as -> by exact Ht. cbn [default from_option id].
  case_bool_decide as Hlen.
  - unfold OnSendPM, get_win. unfold mbind at 1, M_bind at 1, gets at 1. rewrite Ht.
    by destruct (Z.gtb_spec (zlen target + 1) 256); [|lia].
  - unfold runs, OnSendPM, get_win. unfold mbind at 1, M_bind at 1, gets at 1. rewrite Ht.
    destruct (Z.gtb_spec (zlen target + 1) 256); [lia|]. unfold mbind at 1, M_bind at 1, gets at 1. rewrite GetEditText_eq.
    case_bool_decide; [done|].
    unfold mbind, M_bind. destruct (sends_pm (WideToUtf8 target) (WideToUtf8 (message_text (g_window c))) c) as (c' & -> & Hs).
    { apply WideToUtf8_short. lia. }
    { apply WideToUtf8_short. by apply (gui_window _ _ Hc). }
    apply gui_clear_message. by eapply gui_sends.
Qed.

(** *** The receive thread *)

Lemma recv_round_runs throws c : gui_ok true c → runs throws recv_round (λ _, gui_ok true) c.
Proof.
  intros Hc. unfold runs, recv_round. unfold mbind at 1, M_bind at 1, gets at 1. destruct (g_running c) eqn:Er; cbn [negb]; [|done].
  unfold mbind at 1, M_bind at 1, on_socket. destruct Hc as [Hw Hr Hi Ho Hpo Ht Hd]. destruct (g_sock c) as [s|] eqn:Es.
  2: { unfold mbind, M_bind, gets. rewrite Er. split; try done; cbn; [by rewrite Es in *|intros s; congruence..|].
       apply Forall_app. by split; [|apply Forall_singleton]. }
  specialize (Hi s eq_refl). rewrite RecvPacket_eq by done. destruct (recv_packet_any s Hi) as (r & j & k & -> & Hr2 & _).
  assert (Hbase : ∀ ms, Forall posted_ok ms → gui_ok true (set_posted (posted c ++ ms) (set_sock (Some (after_recv j k s)) c))).
  { intros ms Hms. split; try done; cbn; [intros s' [= <-]; by apply Forall_drop|intros s' [= <-]; exact (Ho s eq_refl)|].
    by apply Forall_app. }
  destruct r as [[id body]|].
  - apply (Hbase [WM_NET_PACKET id body]). apply Forall_singleton. by apply (Hr2 id).
  - unfold mbind, M_bind, gets. cbn [g_running set_sock]. rewrite Er. apply (Hbase [WM_NET_DISCONNECT]). by apply Forall_singleton.
Qed.

(** *** The packets of the server *)

Lemma runs_deserialize {T} `{!MemoryPackFormatter T, !WireFormat T, !FormatterLaws T} body c : bytes_ok body → zlen body < 2 ^ 31 →
  runs (has_exceptions = true) (deserialize T body) (λ _ c', c' = c) c.
Proof.
  intros Hb Hl. pose proof size_mod_pos. unfold runs, deserialize, lift_outcome.
  change (DeserializeNew body) with (DeserializeInto body (value_init (T := T))).
  destruct (DeserializeInto_safe (value_init (T := T)) (λ _, True) body) as [(v & -> & _)|(Hex & e & off & ->)]; [|done|lia|done|done].
  intros r Hr. by eapply safe_at_mono; [apply law_safe|].
Qed.

(** A packet that only adds a line. *)
Lemma runs_line {T} `{!MemoryPackFormatter T, !WireFormat T, !FormatterLaws T} (k : T → M client unit) body c :
  gui_ok true c → bytes_ok body → zlen body < 2 ^ 31 →
  (∀ v, runs (has_exceptions = true) (k v) (λ _, gui_ok true) c) →
  runs (has_exceptions = true) (v ← deserialize T body; k v) (λ _, gui_ok true) c.
Proof. intros Hc Hb Hl Hk. eapply runs_bind; [by apply runs_deserialize|]. by intros v ? ->. Qed.

(** [ui f ;; k] goes on in the changed window. *)
Lemma runs_ui throws f (k : M client unit) Q c : runs throws k Q (on_window f c) → runs throws (ui f ;; k) Q c.
Proof. done. Qed.

Lemma mapM_add_users us c : mapM_ (λ u, ui (λ w, set_users (users w ++ [shown (bytes_of u)]) w)) us c =
  (Ret tt, on_window (λ w, set_users (users w ++ ((λ u, shown (bytes_of u)) <$> us)) w) c).
Proof.
  revert c. induction us as [|u us IH]; intros c.
  - unfold on_window, set_users. cbn. rewrite app_nil_r. by destruct c as [[]].
  - cbn [mapM_]. unfold mbind, M_bind, ui at 1, modify at 1. rewrite IH. unfold on_window, set_users. cbn. by rewrite <-app_assoc.
Qed.

Lemma HandleNetPacket_runs id body c : gui_ok true c → bytes_ok body → zlen body < 2 ^ 31 →
  runs (has_exceptions = true) (HandleNetPacket id body) (λ _, gui_ok true) c.
Proof.
  intros Hc Hb Hl. pose proof (gui_window _ _ Hc) as [W1 W2 [W3 W4] W5 W6]. unfold HandleNetPacket.
  destruct (id =? packet_id LoginResponseId).
  { apply runs_line; [done..|]. intros r. destruct (negb (pval (lrs_success r) =? 0)).
    - eapply runs_bind; [by apply runs_AppendChat|]. intros ? c1 Hc1. apply runs_ui.
      change (gui_ok true (on_window (enable_room true ∘ enable_login false) c1)).
      apply gui_on_window; [done|]. by destruct (gui_window _ _ Hc1).
    - eapply runs_bind; [by apply runs_AppendChat|]. intros ? c1 []. split; try done; cbn; by intros []. }
  destruct (id =? packet_id RoomJoinResponseId).
  { apply runs_line; [done..|]. intros r. apply runs_ui. eapply (runs_bind _ _ _ (λ _, gui_ok true)).
    - unfold runs. rewrite mapM_add_users. apply gui_on_window; [by apply gui_on_window|]. by split.
    - intros ? c1 Hc1. apply runs_ui. unfold get_win. eapply (runs_bind _ _ _ (λ _, gui_ok true)).
      + apply gui_on_window; [done|]. by destruct (gui_window _ _ Hc1).
      + intros t c2 Hc2. by apply runs_AppendChat. }
  destruct (id =? packet_id RoomChatId); [apply runs_line; [done..|]; intros r; by apply runs_AppendChat|].
  destruct (id =? packet_id PrivateChatId).
  { apply runs_line; [done..|]. intros r. eapply (runs_bind _ _ _ (λ _, gui_ok true)); [done|]. intros name c1 Hc1.
    destruct (bool_decide _); by apply runs_AppendChat. }
  destruct (id =? packet_id UserEnteredId); [apply runs_line; [done..|]; intros r; apply runs_ui, runs_AppendChat; by apply gui_on_window|].
  destruct (id =? packet_id UserLeftId); [apply runs_line; [done..|]; intros r; apply runs_ui, runs_AppendChat; by apply gui_on_window|].
  done.
Qed.

Lemma on_message_runs m c : gui_ok true c → posted_ok m → runs (has_exceptions = true) (on_message m) (λ _, gui_ok true) c.
Proof. intros Hc Hm. destruct m as [id body|]; [by apply HandleNetPacket_runs; [|apply Hm..]|by apply runs_AppendChat]. Qed.

(** *** Every event keeps the invariant *)

Lemma gui_set_posted ms c : gui_ok true c → Forall posted_ok ms → gui_ok true (set_posted ms c).
Proof. intros [] Hms. by split. Qed.

Lemma gui_started : gui_ok true started_client.
Proof. split; try done; cbn. by intros []. Qed.

Lemma runs_returns {A} throws (m : M client A) (Q : A → client → Prop) c a c' : runs throws m Q c → m c = (Ret a, c') → Q a c'.
Proof. unfold runs. by intros Hm E; rewrite E in Hm. Qed.

Lemma gui_step_ok c c' : gui_ok true c → gui_step c c' → gui_ok true c'.
Proof.
  intros Hc Hs. pose proof (gui_window _ _ Hc) as [W1 W2 W3 W4 (W5 & W6 & W7)].
  destruct Hs as [t c Hd He [_ Ht]|t c Hd He [_ Ht]|t c Hd He [_ Ht]|c c' Hd He E|c c' Hd He E|c c' Hd He E
    |sel c c' Hd He Hsel E|c c' Hn E|c c' Hn E|m ms c c' Hd Hp E|c c' Hd E].
  - apply gui_on_window; [done|]. by split.
  - apply gui_on_window; [done|]. by split.
  - apply gui_on_window; [done|]. by split.
  - exact (runs_returns False _ _ _ _ _ (OnLogin_runs _ c Hc Hd) E).
  - exact (runs_returns False _ _ _ _ _ (OnJoinRoom_runs _ c Hc) E).
  - exact (runs_returns False _ _ _ _ _ (OnSendChat_runs _ c Hc) E).
  - pose proof (OnSendPM_runs False sel c Hc Hsel) as Hr. case_bool_decide; [by rewrite E in Hr|].
    exact (runs_returns _ _ _ _ _ _ Hr E).
  - exact (runs_returns False _ _ _ _ _ (recv_round_runs _ c Hc) E).
  - pose proof (runs_returns False _ _ _ _ _ (recv_round_runs _ c Hc) E) as [? ? ? ? ? Hthreads ?]. split; try done. cbn. lia.
  - assert (Hm : Forall posted_ok (m :: ms)) by (rewrite <-Hp; apply Hc). apply Forall_cons in Hm as [Hm Hms].
    exact (runs_returns _ _ _ _ _ _ (on_message_runs m _ (gui_set_posted ms c Hc Hms) Hm) E).
  - unfold OnDestroy, mbind, M_bind, modify in E. injection E as <-. destruct Hc. split; try done. cbn. by intros [].
Qed.

Lemma gui_reachable_ok c : reachable c → gui_ok true c.
Proof.
  intros Hr. unfold reachable in Hr. revert Hr. generalize gui_started. generalize started_client. intros c0 H0' Hr.
  induction Hr as [c|c1 c2 c3 Hs _ IH]; [done|]. apply IH. by eapply gui_step_ok.
Qed.

(** C28: The states of the chat window. However the user, the server, the receive threads and
    Windows' message queue interleave, in every state the program reaches: controls that
    belong together are enabled together, and the room can be chosen exactly when the
    login is done; the program runs while its socket is open; and on a connection that
    accepts everything the server is sent whole frames, the login of the current user
    first and only requests after it. *)
Theorem gui_invariant c : reachable c →
  window_ok (g_window c) ∧ (is_Some (g_sock c) → g_running c = true) ∧
  (∀ s, g_sock c = Some s → sends_always → speaks (g_username c) (outgoing s)) ∧
  (recv_threads c ≤ connects c)%nat.
Proof. intros Hr. destruct (gui_reachable_ok c Hr) as [Hw Hrun _ Hout _ Ht _]. by split_and!. Qed.

(** What a run that cannot throw, or can, comes to. *)
Lemma runs_ret {A} (m : M client A) Q c : runs False m Q c → ∃ a c', m c = (Ret a, c').
Proof. unfold runs. destruct (m c) as [[a|e off|] c']; [by eauto|done..]. Qed.

Lemma runs_ret_or_throw {A} throws (m : M client A) Q c : runs throws m Q c →
  (∃ a c', m c = (Ret a, c')) ∨ throws ∧ ∃ e off, fst (m c) = Throw e off.
Proof. unfold runs. destruct (m c) as [[a|e off|] c']; [by eauto|right; by eauto|done]. Qed.

(** C29: What can go wrong in the chat window. In every state the program reaches, whatever
    the server sent, each button and each round of the receive thread comes to its end, and
    a posted message does too, or a malformed body throws (and nothing catches it). The
    one exception is a private message to a name of 256 characters or more: it is copied
    into a buffer of 256, which the server, choosing the names, can overrun. *)
Theorem gui_events_end c : reachable c → destroyed c = false →
  (∃ c', OnLogin c = (Ret tt, c')) ∧ (∃ c', OnJoinRoom c = (Ret tt, c')) ∧ (∃ c', OnSendChat c = (Ret tt, c')) ∧
  (∀ sel, (∀ i, sel = Some i → (i < length (users (g_window c)))%nat) →
     if bool_decide (256 ≤ zlen (default [] (selected_name sel c))) then fst (OnSendPM sel c) = UB
     else ∃ c', OnSendPM sel c = (Ret tt, c')) ∧
  (∃ b c', recv_round c = (Ret b, c')) ∧
  (∀ m ms, posted c = m :: ms → (∃ c', on_message m (set_posted ms c) = (Ret tt, c')) ∨
     has_exceptions = true ∧ ∃ e off, fst (on_message m (set_posted ms c)) = Throw e off).
Proof.
  intros Hr Hd. pose proof (gui_reachable_ok c Hr) as Hc.
  assert (Hunit : ∀ (m : M client unit) Q, runs False m Q c → ∃ c', m c = (Ret tt, c')).
  { intros m Q Hm. destruct (runs_ret m Q c Hm) as ([] & c' & E). by exists c'. }
  split; [by eapply Hunit, OnLogin_runs|]. split; [by eapply Hunit, OnJoinRoom_runs|]. split; [by eapply Hunit, OnSendChat_runs|].
  split; [|split; [by eapply runs_ret, recv_round_runs|]].
  - intros sel Hsel. pose proof (OnSendPM_runs False sel c Hc Hsel) as Hp. case_bool_decide; [done|by eapply Hunit].
  - intros m ms E. assert (Hm : Forall posted_ok (m :: ms)) by (rewrite <-E; apply Hc). apply Forall_cons in Hm as [Hm Hms].
    destruct (runs_ret_or_throw _ _ _ _ (on_message_runs m _ (gui_set_posted ms c Hc Hms) Hm)) as [([] & c' & E')|Ht]; [by left; exists c'|by right].
Qed.
End Invariant.

(** ** The list of members *)

(** What a server tells about the members of the room. *)
Inductive room_event :=
  | Joined (names : list (list Z))
  | Entered (name : list Z)
  | Left (name : list Z).

Fixpoint remove_first (n : list Z) (ms : list (list Z)) : list (list Z) :=
  match ms with
  | [] => []
  | m :: ms' => if bool_decide (m = n) then ms' else m :: remove_first n ms'
  end.

(** The members after an event. *)
Definition members_after (ms : list (list Z)) (e : room_event) : list (list Z) :=
  match e with
  | Joined names => names
  | Entered n => ms ++ [n]
  | Left n => remove_first n ms
  end.

Definition event_names (e : room_event) : list (list Z) :=
  match e with Joined names => names | Entered n | Left n => [n] end.

Section Members.
Context `{Platform, System, Windows, !SystemLaws, !WindowsLaws}.
Implicit Types c : client.

Definition event_packet (e : room_event) : Z * list Z :=
  match e with
  | Joined names => (packet_id RoomJoinResponseId, enc (MkRoomJoinResponse (Prim 1) (Vector (Str <$> names))))
  | Entered n => (packet_id UserEnteredId, enc (MkUserEntered (Str n)))
  | Left n => (packet_id UserLeftId, enc (MkUserLeft (Str n)))
  end.

Definition event_ok (e : room_event) : Prop :=
  Forall short_text (event_names e) ∧ zlen (event_names e) < 2 ^ 16 ∧ zlen (event_packet e).2 < 2 ^ 31.

Lemma deserialize_enc {T} `{!MemoryPackFormatter T, !WireFormat T, !FormatterLaws T} (v : T) c : portable v → zlen (enc v) < 2 ^ 31 →
  deserialize T (enc v) c = (Ret v, c).
Proof.
  intros Hv Hl. pose proof size_mod_pos. unfold deserialize, lift_outcome. by rewrite DeserializeNew_enc by (done || lia).
Qed.

Lemma short_portable s : short_text s → wf (Str s) ∧ within DefaultOptions 1 (Str s).
Proof. intros Hs. split; [by apply short_text_string|]. destruct Hs as [_ Hl]. cbn. lia. Qed.

(** The first exact match is the member itself when no two names look alike. *)
Lemma delete_item_remove n ms : (∀ m, m ∈ ms → same_item (shown m) (shown n) = bool_decide (m = n)) →
  delete_item (shown n) (shown <$> ms) = shown <$> remove_first n ms.
Proof.
  induction ms as [|m ms IH]; intros Hms; [done|]. cbn [fmap list_fmap delete_item remove_first]. rewrite Hms by left.
  destruct (bool_decide (m = n)); [done|]. cbn. f_equal. apply IH. intros x Hx. apply Hms. by right.
Qed.

(** Handling one event. *)
Lemma HandleNetPacket_event e ms c : event_ok e → users (g_window c) = shown <$> ms →
  (∀ m n, m ∈ ms → n ∈ event_names e → same_item (shown m) (shown n) = bool_decide (m = n)) →
  ∃ c', HandleNetPacket (event_packet e).1 (event_packet e).2 c = (Ret tt, c') ∧
    users (g_window c') = shown <$> members_after ms e.
Proof.
  intros (Hn & Hlen & Hsz) Hu Hsame. unfold event_packet in *. destruct e as [names|n|n]; cbn [fst snd event_names members_after] in *.
  - unfold HandleNetPacket. cbn [packet_id Z.eqb Pos.eqb]. unfold mbind at 1, M_bind at 1. rewrite deserialize_enc; [| |done].
    + unfold mbind at 1, M_bind at 1, ui at 1, modify at 1. unfold mbind at 1, M_bind at 1. rewrite mapM_add_users.
      unfold AppendChat, get_win, ui, mbind, M_bind, modify, gets. eexists. split; [reflexivity|]. cbn. by rewrite <-list_fmap_compose.
    + apply portable_object. apply Forall_cons. split; [by apply portable_prim|]. apply Forall_singleton.
      apply portable_vector; [unfold zlen in *; by rewrite length_fmap|]. apply Forall_fmap. eapply Forall_impl; [exact Hn|].
      intros s. apply short_portable.
  - unfold HandleNetPacket. cbn [packet_id Z.eqb Pos.eqb]. unfold mbind at 1, M_bind at 1. rewrite deserialize_enc; [| |done].
    + unfold AppendChat, get_win, ui, mbind, M_bind, modify, gets. eexists. split; [reflexivity|]. cbn. rewrite Hu. by rewrite fmap_app.
    + apply portable_object, Forall_singleton. by apply short_portable, (Forall_inv Hn).
  - unfold HandleNetPacket. cbn [packet_id Z.eqb Pos.eqb]. unfold mbind at 1, M_bind at 1. rewrite deserialize_enc; [| |done].
    + unfold AppendChat, get_win, ui, mbind, M_bind, modify, gets. eexists. split; [reflexivity|]. cbn. rewrite Hu. apply delete_item_remove. intros m Hm. apply Hsame; [done|left].
    + apply portable_object, Forall_singleton. by apply short_portable, (Forall_inv Hn).
Qed.

Lemma remove_first_sub n ms m : m ∈ remove_first n ms → m ∈ ms.
Proof.
  induction ms as [|x ms IH]; [done|]. cbn [remove_first]. case_bool_decide; [by right|].
  intros [->|Hm]%elem_of_cons; [left|right; by apply IH].
Qed.

Lemma members_after_sub ms e m : m ∈ members_after ms e → m ∈ ms ∨ m ∈ event_names e.
Proof.
  destruct e as [names|n|n]; cbn; [by right| |intros Hm; left; by eapply remove_first_sub].
  by intros [?|?]%elem_of_app; [left|right].
Qed.

Lemma HandleNetPacket_events (names : list (list Z)) evs : Forall event_ok evs → (∀ e n, e ∈ evs → n ∈ event_names e → n ∈ names) →
  (∀ m n, m ∈ names → n ∈ names → same_item (shown m) (shown n) = bool_decide (m = n)) →
  ∀ ms c, users (g_window c) = shown <$> ms → (∀ m, m ∈ ms → m ∈ names) →
  ∃ c', mapM_ (λ e, HandleNetPacket (event_packet e).1 (event_packet e).2) evs c = (Ret tt, c') ∧
    users (g_window c') = shown <$> foldl members_after ms evs.
Proof.
  intros Hok Hin Hsame. induction Hok as [|e evs He _ IH]; intros ms c Hu Hms; [by exists c|].
  destruct (HandleNetPacket_event e ms c He Hu) as (c1 & E1 & Hu1).
  { intros m n Hm Hn. apply Hsame; [by apply Hms|]. by apply (Hin e); [left|]. }
  destruct (IH ltac:(intros e' n ??; apply (Hin e'); [by right|done]) (members_after ms e) c1 Hu1) as (c2 & E2 & Hu2).
  { intros m [Hm|Hm]%members_after_sub; [by apply Hms|]. by apply (Hin e); [left|]. }
  exists c2. cbn [mapM_ foldl]. unfold mbind, M_bind. by rewrite E1, E2.
Qed.

(** C31: The list box shows the members of the room. After any sequence of packets by which
    the server tells who was there when the user joined, who entered and who left, the
    list is exactly the members in the order they came, provided no two of their names
    are the same item to Windows; a name that left and was not there changes nothing. *)
Theorem users_are_members evs : Forall event_ok evs →
  (∀ m n, m ∈ evs ≫= event_names → n ∈ evs ≫= event_names → same_item (shown m) (shown n) = bool_decide (m = n)) →
  ∃ c', mapM_ (λ e, HandleNetPacket (event_packet e).1 (event_packet e).2) evs started_client = (Ret tt, c') ∧
    users (g_window c') = shown <$> foldl members_after [] evs.
Proof.
  intros Hok Hsame. apply (HandleNetPacket_events (evs ≫= event_names)); [done| |done|done|by intros m []%not_elem_of_nil].
  intros e n He Hn. apply list_elem_of_bind. by exists e.
Qed.
End Members.

(** ** Concrete runs *)

Section Witnesses.
#[local] Existing Instances host64 slow_system slow_system_laws ascii_windows.

#[local] Instance ascii_windows_laws : WindowsLaws.
Proof.
  split.
  - intros w. apply Forall_fmap, Forall_true. intros u. pose proof (Z.mod_pos_bound u 128 ltac:(lia)) as Hu. unfold byte_ok, compose. lia.
  - intros w. cbn. unfold zlen. rewrite length_fmap. lia.
  - intros w. by apply bool_decide_true.
  - done.
  - intros k bytes. cbn. destruct (k <=? 1)%nat; [|done]. intros [= <-]. bytes_lit.
Qed.

(** Bo clicks "Login"; and again, before the answer. *)
Definition named : client := on_window (set_username_text (literal "Bo")) started_client.
Definition logged_in : client := (OnLogin named).2.

Lemma named_reachable : reachable named.
Proof. eapply rtc_l; [apply type_username; [done..|]|apply rtc_refl]. split; [|done]. by apply (bool_decide_unpack _). Qed.

Lemma click_login_result c c' : reachable c → destroyed c = false → login_enabled (g_window c) = true →
  OnLogin c = (Ret tt, c') → reachable c'.
Proof. intros Hc Hd He E. eapply rtc_r; [exact Hc|]. by apply click_login. Qed.

Lemma logged_in_reachable : reachable logged_in.
Proof. apply (click_login_result named); [apply named_reachable|vm_compute; reflexivity..]. Qed.

Lemma gui_invariant_witness : window_ok (g_window logged_in) ∧ recv_threads logged_in = 1%nat ∧
  (recv_threads logged_in ≤ connects logged_in)%nat.
Proof.
  destruct (gui_invariant logged_in logged_in_reachable) as (Hw & _ & _ & Ht). split; [exact Hw|]. split; [vm_compute; reflexivity|exact Ht].
Defined.

Lemma gui_events_end_witness : (∃ b c', recv_round logged_in = (Ret b, c')) ∧ (∃ c', OnSendPM None logged_in = (Ret tt, c')).
Proof.
  destruct (gui_events_end logged_in logged_in_reachable) as (_ & _ & _ & Hp & Hr & _); [vm_compute; reflexivity|]. split; [exact Hr|]. by apply (Hp None).
Defined.

Lemma users_are_members_witness : ∃ c',
  mapM_ (λ e, HandleNetPacket (event_packet e).1 (event_packet e).2) [Joined [literal "Al"; literal "Cy"]; Entered (literal "Bo"); Left (literal "Al")]
    started_client = (Ret tt, c') ∧ users (g_window c') = [literal "Cy"; literal "Bo"].
Proof.
  destruct (users_are_members [Joined [literal "Al"; literal "Cy"]; Entered (literal "Bo"); Left (literal "Al")]) as (c' & E & Hu);
    [..|exists c'; split; [exact E|]; by rewrite Hu].
  - repeat (apply Forall_cons; split; [split; [repeat (apply Forall_cons; split; [by split; [apply literal_ok|]|]); apply Forall_nil_2|by split]|]).
    apply Forall_nil_2.
  - assert (Hall : ∀ l : list (list Z), Forall (λ m, Forall (λ n, same_item (shown m) (shown n) = bool_decide (m = n)) l) l →
      ∀ m n, m ∈ l → n ∈ l → same_item (shown m) (shown n) = bool_decide (m = n)).
    { intros l Hl m n Hm Hn. rewrite Forall_forall in Hl. specialize (Hl m Hm). rewrite Forall_forall in Hl. by apply Hl. }
    apply Hall, (bool_decide_unpack _). vm_compute. exact I.
Defined.

(** Logging in twice before the server answers leaves two receive threads on one socket. *)
Example login_twice : reachable (OnLogin logged_in).2 ∧ recv_threads (OnLogin logged_in).2 = 2%nat.
Proof. split; [apply (click_login_result logged_in); [apply logged_in_reachable|vm_compute; reflexivity..]|vm_compute; reflexivity]. Qed.

(** A user who leaves takes a namesake in other letters off the list. *)
Example case_confusion :
  let '(o, c) := mapM_ (λ e, HandleNetPacket (event_packet e).1 (event_packet e).2)
    [Entered (literal "bob"); Entered (literal "BOB"); Left (literal "BOB")] started_client in
  o = Ret tt ∧ users (g_window c) = [literal "BOB"].
Proof. by vm_compute. Qed.

(** The private message that overruns its buffer. *)
Example long_name_overrun : fst (OnSendPM (Some 0%nat) (on_window (set_users [replicate 256 65]) started_client)) = UB.
Proof. by vm_compute. Qed.
End Witnesses.
