(* ===== verification/ChatGuiWindow.v ===== *)
(** The window of the Win32 chat client ([samples/ChatClient/main.cpp]): the controls that
    [WM_CREATE] puts into it, and which of them [WM_COMMAND] listens to.

    [CreateWindowExW] is assumed to succeed; fonts and drawing are left out. *)
From stdpp Require Import strings.
From S2P Require Import Prelude Endian Text Net ChatProtocol ChatGui.

Definition WND_CLASS : list Z := literal "ChatClientWnd".
Definition WND_TITLE : list Z := literal "MemoryPack Chat Client".
Definition CLIENT_W : Z := 740.
Definition CLIENT_H : Z := 490.

Inductive CtrlId :=
  | ID_EDIT_USERNAME | ID_BTN_LOGIN
  | ID_EDIT_ROOM | ID_BTN_JOIN
  | ID_LIST_USERS | ID_EDIT_CHAT
  | ID_EDIT_MESSAGE | ID_BTN_SEND | ID_BTN_PM.

Definition ctrl_ids : list CtrlId :=
  [ID_EDIT_USERNAME; ID_BTN_LOGIN; ID_EDIT_ROOM; ID_BTN_JOIN; ID_LIST_USERS; ID_EDIT_CHAT; ID_EDIT_MESSAGE; ID_BTN_SEND; ID_BTN_PM].

(** The enumerators count from 101. *)
Definition ctrl_id (i : CtrlId) : Z :=
  match i with
  | ID_EDIT_USERNAME => 101 | ID_BTN_LOGIN => 102
  | ID_EDIT_ROOM => 103 | ID_BTN_JOIN => 104
  | ID_LIST_USERS => 105 | ID_EDIT_CHAT => 106
  | ID_EDIT_MESSAGE => 107 | ID_BTN_SEND => 108 | ID_BTN_PM => 109
  end.

#[global] Instance CtrlId_eq_dec : EqDecision CtrlId.
Proof. solve_decision. Defined.

Inductive window_class := STATIC | EDIT | BUTTON | LISTBOX.

(** The style bits, but for those every control has. *)
Inductive style :=
  | SS_LEFT | WS_BORDER | WS_VSCROLL | ES_AUTOHSCROLL | ES_MULTILINE | ES_READONLY | ES_AUTOVSCROLL
  | LBS_NOTIFY | BS_PUSHBUTTON.

(** A child window. The globals [g_hEditUsername], ... are handles of the controls whose id
    they are assigned with; a label has no id. *)
Record control := Control {
  c_class : window_class;
  c_text : list Z;
  c_style : list style;
  c_x : Z;
  c_y : Z;
  c_w : Z;
  c_h : Z;
  c_id : option CtrlId;
  c_enabled : bool;
}.

(** The lambda [S] of [WM_CREATE], with and without an id. *)
Definition S_ (cls : window_class) (text : String.string) (st : list style) (x y w h : Z) (id : option CtrlId) : M (list control) unit :=
  modify (λ cs, cs ++ [Control cls (literal text) st x y w h id true]).

(** [EnableWindow] on the handle of a control. *)
Definition EnableWindow (id : CtrlId) (b : bool) : M (list control) unit :=
  modify (fmap (λ c, if decide (c_id c = Some id) then
    Control (c_class c) (c_text c) (c_style c) (c_x c) (c_y c) (c_w c) (c_h c) (c_id c) b else c)).

(** [WM_CREATE]. *)
Definition OnCreate : M (list control) unit :=
  S_ STATIC "Username:" [SS_LEFT] 10 14 65 20 None ;;
  S_ EDIT "" [WS_BORDER; ES_AUTOHSCROLL] 78 10 130 24 (Some ID_EDIT_USERNAME) ;;
  S_ BUTTON "Login" [BS_PUSHBUTTON] 216 10 60 26 (Some ID_BTN_LOGIN) ;;
  S_ STATIC "Room:" [SS_LEFT] 290 14 42 20 None ;;
  S_ EDIT "" [WS_BORDER; ES_AUTOHSCROLL] 336 10 130 24 (Some ID_EDIT_ROOM) ;;
  S_ BUTTON "Join" [BS_PUSHBUTTON] 474 10 60 26 (Some ID_BTN_JOIN) ;;
  S_ STATIC "Room Members" [SS_LEFT] 10 44 150 16 None ;;
  S_ LISTBOX "" [WS_BORDER; WS_VSCROLL; LBS_NOTIFY] 10 62 150 368 (Some ID_LIST_USERS) ;;
  S_ EDIT "" [WS_BORDER; ES_MULTILINE; ES_READONLY; ES_AUTOVSCROLL; WS_VSCROLL] 170 44 560 386 (Some ID_EDIT_CHAT) ;;
  S_ EDIT "" [WS_BORDER; ES_AUTOHSCROLL] 170 440 370 24 (Some ID_EDIT_MESSAGE) ;;
  S_ BUTTON "Send" [BS_PUSHBUTTON] 548 438 60 28 (Some ID_BTN_SEND) ;;
  S_ BUTTON "PM" [BS_PUSHBUTTON] 616 438 55 28 (Some ID_BTN_PM) ;;
  EnableWindow ID_EDIT_ROOM false ;;
  EnableWindow ID_BTN_JOIN false ;;
  EnableWindow ID_EDIT_MESSAGE false ;;
  EnableWindow ID_BTN_SEND false ;;
  EnableWindow ID_BTN_PM false.

(** [WM_COMMAND]: the low word of [wParam] is the id of the control. *)
Definition OnCommand `{Platform, System, Windows} (selected : option nat) (wParam : Z) : M client unit :=
  let id := wParam mod 2 ^ 16 in
  if id =? ctrl_id ID_BTN_LOGIN then OnLogin
  else if id =? ctrl_id ID_BTN_JOIN then OnJoinRoom
  else if id =? ctrl_id ID_BTN_SEND then OnSendChat
  else if id =? ctrl_id ID_BTN_PM then OnSendPM selected
  else mret tt.

(** ** What the window is *)

Definition controls : list control := (OnCreate []).2.

Definition find_control (cs : list control) (id : CtrlId) : option control := List.find (λ c, bool_decide (c_id c = Some id)) cs.
Definition text_of (cs : list control) (id : CtrlId) : list Z := default [] (c_text <$> find_control cs id).
Definition is_enabled (cs : list control) (id : CtrlId) : bool := default false (c_enabled <$> find_control cs id).

(** The state of the controls as [ChatGui] keeps it. *)
Definition window_of (cs : list control) : window :=
  Window (text_of cs ID_EDIT_USERNAME) (is_enabled cs ID_EDIT_USERNAME) (is_enabled cs ID_BTN_LOGIN)
    (text_of cs ID_EDIT_ROOM) (is_enabled cs ID_EDIT_ROOM) (is_enabled cs ID_BTN_JOIN)
    [] (text_of cs ID_EDIT_CHAT)
    (text_of cs ID_EDIT_MESSAGE) (is_enabled cs ID_EDIT_MESSAGE) (is_enabled cs ID_BTN_SEND) (is_enabled cs ID_BTN_PM) [].

(** A control lies in the client area, and two do not overlap. *)
Definition inside (c : control) : bool :=
  (0 <=? c_x c) && (0 <=? c_y c) && (c_x c + c_w c <=? CLIENT_W) && (c_y c + c_h c <=? CLIENT_H).

Definition apart (c d : control) : bool :=
  (c_x c + c_w c <=? c_x d) || (c_x d + c_w d <=? c_x c) || (c_y c + c_h c <=? c_y d) || (c_y d + c_h d <=? c_y c).

Fixpoint all_apart (cs : list control) : bool :=
  match cs with
  | [] => true
  | c :: cs' => forallb (apart c) cs' && all_apart cs'
  end.

(** What [WM_CREATE] makes is the window [ChatGui] starts with: the user can log in and do
    nothing else. Each id names one control; the controls fit the client area and do not
    cover each other. *)
Theorem window_created : (OnCreate []).1 = Ret tt ∧ window_of controls = created ∧
  omap c_id controls = ctrl_ids ∧ NoDup (ctrl_id <$> ctrl_ids) ∧
  forallb inside controls = true ∧ all_apart controls = true.
Proof.
  split_and!; [done|by vm_compute|by vm_compute| |by vm_compute..].
  apply (bool_decide_unpack _). by vm_compute.
Qed.

(** A command is handled exactly when it comes from a button, whatever its notification
    code is; the edit controls and the list send commands too, which do nothing. *)
Theorem commands_of_buttons `{Platform, System, Windows} selected code (id : CtrlId) : 0 ≤ code →
  OnCommand selected (code * 2 ^ 16 + ctrl_id id) =
  match id with
  | ID_BTN_LOGIN => OnLogin
  | ID_BTN_JOIN => OnJoinRoom
  | ID_BTN_SEND => OnSendChat
  | ID_BTN_PM => OnSendPM selected
  | _ => mret tt
  end ∧ (c_class <$> find_control controls id = Some BUTTON ↔ id ∈ [ID_BTN_LOGIN; ID_BTN_JOIN; ID_BTN_SEND; ID_BTN_PM]).
Proof.
  intros Hc. split.
  - unfold OnCommand. rewrite Z.add_comm, Z_mod_plus_full. rewrite Z.mod_small by (by destruct id). by destruct id.
  - destruct id; vm_compute; (split; [intros Heq; try discriminate Heq; repeat constructor|]);
      intros Hin; try reflexivity; exfalso; repeat (apply elem_of_cons in Hin as [?|Hin]; [done|]); by apply elem_of_nil in Hin.
Qed.
