(* ===== verification/ChatGuiMain.v ===== *)
(** The Win32 chat client as a program ([samples/ChatClient/main.cpp]): the window procedure
    on every message, and [wWinMain], which makes the window and pumps messages until the
    window is gone. It refines the events of [ChatGui]: what holds in every state [gui_step]
    reaches holds whenever the program runs. *)
From stdpp Require Import strings relations.
From S2P Require Import Prelude Endian Text Net Sockets ChatProtocol ChatGui ChatGuiTheorems ChatGuiWindow.

(** What the window procedure gets; [OtherMessage] is one it leaves to [DefWindowProcW],
    with that function's answer. *)
Inductive message :=
  | WM_CREATE
  | WM_COMMAND (wParam : Z)
  | WM_NET (m : net_message)
  | WM_DESTROY
  | OtherMessage (answer : Z).

(** [wWinMain]: its calls of Winsock, the globals, and its result. *)
Record program := Program {
  calls : trace;
  app : client;
  exit_code : option Z;
}.

Section Program.
Context `{Platform, System, Windows, SocketSystem}.

(** [selected] is the selected item of the list. *)
Definition WndProc (selected : option nat) (m : message) : M client Z :=
  match m with
  | WM_CREATE => modify (on_window (λ _, window_of (OnCreate []).2)) ;; mret 0
  | WM_COMMAND wParam => OnCommand selected wParam ;; mret 0
  | WM_NET m => on_message m ;; mret 0
  | WM_DESTROY => OnDestroy ;; mret 0
  | OtherMessage answer => mret answer
  end.

(** The globals before the window is made, whatever it will show. *)
Definition no_window (w : window) : client := Client w None false [] 0 [] 0 false.

(** [wWinMain] up to its loop: the result of [WSAStartup] is not looked at, and
    [CreateWindowExW] sends [WM_CREATE]. *)
Definition wWinMain_start : M (trace * client) unit :=
  on_fst WSAStartup ;; on_snd (WndProc None WM_CREATE) ;; mret tt.

(** [WM_QUIT] ends the loop, with the code [WM_DESTROY] posts. *)
Definition wWinMain_end : M trace Z := WSACleanup ;; mret 0.

(** *** What the loop may meet next *)

(** The user types into an enabled edit control, which handles its own messages. *)
Inductive types : client → client → Prop :=
  | types_username t c : username_enabled (g_window c) = true → typed t → types c (on_window (set_username_text t) c)
  | types_room t c : room_enabled (g_window c) = true → typed t → types c (on_window (set_room_text t) c)
  | types_message t c : message_enabled (g_window c) = true → typed t → types c (on_window (set_message_text t) c).

(** A control sends a command with a notification code. A button sends one when it is
    enabled and clicked; the codes of the others are arbitrary. *)
Definition can_send (w : window) (id : CtrlId) (code : Z) : Prop :=
  match id with
  | ID_BTN_LOGIN => login_enabled w = true ∧ code = 0
  | ID_BTN_JOIN => join_enabled w = true ∧ code = 0
  | ID_BTN_SEND => send_enabled w = true ∧ code = 0
  | ID_BTN_PM => pm_enabled w = true ∧ code = 0
  | _ => 0 ≤ code
  end.

(** The item selected in the list is one of it. *)
Definition selection_ok (selected : option nat) (c : client) : Prop :=
  ∀ i, selected = Some i → (i < length (users (g_window c)))%nat.

(** A message that reaches the window procedure while there is a window: a command, a
    posted message, the closing of the window or anything else. *)
Inductive dispatches : client → client → Prop :=
  | dispatch_command selected id code c c' r : can_send (g_window c) id code → selection_ok selected c →
      WndProc selected (WM_COMMAND (code * 2 ^ 16 + ctrl_id id)) c = (Ret r, c') → dispatches c c'
  | dispatch_posted m ms c c' r : posted c = m :: ms → WndProc None (WM_NET m) (set_posted ms c) = (Ret r, c') → dispatches c c'
  | dispatch_destroy c c' r : WndProc None WM_DESTROY c = (Ret r, c') → dispatches c c'
  | dispatch_other answer c c' r : WndProc None (OtherMessage answer) c = (Ret r, c') → dispatches c c'.

Inductive program_step : program → program → Prop :=
  | step_types t c c' : destroyed c = false → types c c' → program_step (Program t c None) (Program t c' None)
  | step_dispatch t c c' : destroyed c = false → dispatches c c' → program_step (Program t c None) (Program t c' None)
  | step_receive t c c' (b : bool) : (0 < recv_threads c)%nat → recv_round c = (Ret b, c') →
      program_step (Program t c None) (Program t (if b then c' else set_threads (recv_threads c' - 1) c') None)
  | step_quit t c t' code : destroyed c = true → wWinMain_end t = (Ret code, t') →
      program_step (Program t c None) (Program t' c (Some code)).
End Program.

(** ** Refinement *)

Section Refinement.
Context `{Platform, System, Windows, SocketSystem}.
Implicit Types c : client.

(** The loop starts in the state [ChatGui] starts in. *)
Lemma wWinMain_starts w t : ∃ t', wWinMain_start (t, no_window w) = (Ret tt, (t', started_client)) ∧
  winsock_uses t' = winsock_uses t + (if startup_result t =? 0 then 1 else 0).
Proof.
  exists (t ++ [CStartup (startup_result t)]). split; [reflexivity|]. rewrite winsock_uses_app. cbn. destruct (_ =? 0); lia.
Qed.

(** An answer is all a handler adds. *)
Lemma answered_ret (m : M client unit) (a r : Z) c c' : (m ;; mret a) c = (Ret r, c') → m c = (Ret tt, c').
Proof. unfold mbind, M_bind. destruct (m c) as [[[]| |] c1]; [by intros [= _ ->]|done..]. Qed.

Lemma command_is_event selected id code c c' r : destroyed c = false → can_send (g_window c) id code → selection_ok selected c →
  WndProc selected (WM_COMMAND (code * 2 ^ 16 + ctrl_id id)) c = (Ret r, c') → c' = c ∨ gui_step c c'.
Proof.
  intros Hd Hs Hsel E%answered_ret. assert (Hc : 0 ≤ code) by (destruct id; cbn in Hs; lia).
  destruct (commands_of_buttons selected code id Hc) as [-> _] in E.
  destruct id; cbn in Hs, E; try (injection E as <-; by left); destruct Hs as [Hs _]; right;
    by eauto using click_login, click_join, click_send, click_pm.
Qed.

Lemma dispatch_is_event c c' : destroyed c = false → dispatches c c' → c' = c ∨ gui_step c c'.
Proof.
  intros Hd Hs. destruct Hs as [selected id code c c' r Hc Hsel E|m ms c c' r Hp E|c c' r E|answer c c' r E].
  - by eapply command_is_event.
  - right. apply answered_ret in E. by eapply dispatch.
  - right. apply answered_ret in E. by apply close_window.
  - left. by injection E.
Qed.

Lemma step_is_event p p' : program_step p p' → exit_code p = None ∧ (app p' = app p ∨ gui_step (app p) (app p')).
Proof.
  intros Hs. destruct Hs as [t c c' Hd Ht|t c c' Hd Hdi|t c c' b Hn E|t c t' code Hd E]; cbn; (split; [done|]).
  - right. destruct Ht; by constructor.
  - by apply dispatch_is_event.
  - right. destruct b; [by apply receive_packet|by apply receive_end].
  - by left.
Qed.
End Refinement.

(** ** The property *)

Section Run.
Context `{Platform, System, Windows, !SystemLaws, !WindowsLaws, SocketSystem}.

(** What the calls and the exit code are in every state of the program. *)
Record program_inv (n : Z) (p : program) : Prop := {
  inv_reachable : reachable (app p);
  inv_winsock : winsock_uses (calls p) = n - (if exit_code p is Some _ then 1 else 0);
  inv_exit code : exit_code p = Some code → code = 0 ∧ destroyed (app p) = true;
}.

Lemma program_step_inv n p p' : program_step p p' → program_inv n p → program_inv n p'.
Proof.
  intros Hs [Hr Hw Hx]. destruct (step_is_event p p' Hs) as [_ Ha]. split.
  - destruct Ha as [->|Ha]; [done|]. by eapply rtc_r.
  - destruct Hs as [| | |t c t' code Hd E]; [done..|]. injection E as <- <-. cbn [exit_code calls] in *.
    rewrite winsock_uses_app. cbn [foldl winsock_step]. lia.
  - destruct Hs as [| | |t c t' code Hd E]; [done..|]. injection E as <- <-. cbn. by intros ? [= <-].
Qed.

Lemma program_inv_reached n p p' : rtc program_step p p' → program_inv n p → program_inv n p'.
Proof. induction 1 as [|p1 p2 p3 Hs _ IH]; [done|]. intros Hp. apply IH. by eapply program_step_inv. Qed.

(** C30: The Win32 client as a program. Whatever messages come in whatever order, and however
    the receive threads run meanwhile: the program is always in a state that [gui_step]
    reaches, so what holds of those states holds of it; once the window is closed the loop
    can end; and it ends only then, with exit code 0, the socket closed, the client no
    longer running, and one [WSACleanup] for the one [WSAStartup]. *)
Theorem gui_program w t c p : wWinMain_start ([], no_window w) = (Ret tt, (t, c)) → rtc program_step (Program t c None) p →
  reachable (app p) ∧
  winsock_uses (calls p) = (if startup_result [] =? 0 then 1 else 0) - (if exit_code p is Some _ then 1 else 0) ∧
  (∀ code, exit_code p = Some code → code = 0 ∧ destroyed (app p) = true ∧ g_sock (app p) = None ∧ g_running (app p) = false) ∧
  (exit_code p = None → destroyed (app p) = true → ∃ p', program_step p p' ∧ exit_code p' = Some 0).
Proof.
  intros E Hs. destruct (wWinMain_starts w []) as (t' & E' & Hw). rewrite E in E'. injection E' as -> ->.
  destruct (program_inv_reached _ _ _ Hs ltac:(split; [apply rtc_refl|exact (eq_trans Hw (eq_sym (Z.sub_0_r _)))|done])) as [Hr Hu Hx].
  pose proof (gui_reachable_ok _ Hr) as Hok. split; [done|]. split; [exact Hu|]. split.
  - intros code Ec. destruct (Hx code Ec) as [-> Hd]. pose proof (gui_destroyed _ _ Hok Hd) as Hrun. split_and!; try done.
    destruct (g_sock (app p)) as [s|] eqn:Es; [|done]. rewrite (gui_running _ _ Hok) in Hrun by (rewrite Es; by eexists). done.
  - intros Ec Hd. destruct p as [tp cp ep]. cbn in *. subst ep. eexists. split; [by apply step_quit|done].
Qed.
End Run.

(** A user looks at the window and closes it. *)
Section Witness.
#[local] Existing Instances host64 slow_system slow_system_laws ascii_windows ascii_windows_laws.
#[local] Instance quiet_windows_system : SocketSystem := quiet_system true 0.

Lemma gui_program_witness : ∃ t p, wWinMain_start ([], no_window created) = (Ret tt, (t, started_client)) ∧
  exit_code p = Some 0 ∧ rtc program_step (Program t started_client None) p ∧ winsock_uses (calls p) = 0 ∧ g_sock (app p) = None.
Proof.
  destruct (wWinMain_start ([], no_window created)) as [r [t c]] eqn:E. exists t.
  assert (Hs : r = Ret tt ∧ c = started_client) by (vm_compute in E; by injection E as <- <- <-). destruct Hs as [-> ->].
  assert (Hrun : rtc program_step (Program t started_client None) (Program (t ++ [CCleanup]) (set_destroyed started_client) (Some 0))).
  { eapply rtc_l; [apply step_dispatch; [done|by apply (dispatch_destroy _ _ 0)]|]. apply rtc_once. by apply step_quit. }
  eexists. split; [done|]. split; [|split; [exact Hrun|]]; [done|].
  destruct (gui_program created t started_client _ E Hrun) as (_ & Hw & Hx & _). split; [exact Hw|]. by destruct (Hx 0 eq_refl) as (_ & _ & ? & _).
Defined.
End Witness.
