(* ===== verification/ChatDispatch.v ===== *)
(** The dispatch table of the chat protocol ([DispatchPacket] of
    [samples/ChatClient/packets.hpp]): what it does with the packets of the protocol, and
    with any bytes. *)
From S2P Require Import Prelude Endian Writer Reader Headers Utf Strings Formatter Collections Objects Decoded Api ChatProtocol.

(** ** The table *)

Inductive chat_packet :=
  | PLoginRequest (v : LoginRequest)
  | PLoginResponse (v : LoginResponse)
  | PRoomJoinRequest (v : RoomJoinRequest)
  | PRoomJoinResponse (v : RoomJoinResponse)
  | PRoomChat (v : RoomChat)
  | PPrivateChat (v : PrivateChat)
  | PUserEntered (v : UserEntered)
  | PUserLeft (v : UserLeft).

(** The [case] labels. *)
Definition packet_of_id (id : Z) : option PacketId :=
  if id =? 101 then Some LoginRequestId else if id =? 102 then Some LoginResponseId
  else if id =? 103 then Some RoomJoinRequestId else if id =? 104 then Some RoomJoinResponseId
  else if id =? 105 then Some RoomChatId else if id =? 106 then Some PrivateChatId
  else if id =? 107 then Some UserEnteredId else if id =? 108 then Some UserLeftId else None.

Section Table.
Context `{Platform}.

(** [memorypack::Deserialize<...>(body)] of each case. *)
Definition deserialize_packet (t : PacketId) (body : list Z) : outcome chat_packet :=
  match t with
  | LoginRequestId => outcome_map PLoginRequest (DeserializeNew body)
  | LoginResponseId => outcome_map PLoginResponse (DeserializeNew body)
  | RoomJoinRequestId => outcome_map PRoomJoinRequest (DeserializeNew body)
  | RoomJoinResponseId => outcome_map PRoomJoinResponse (DeserializeNew body)
  | RoomChatId => outcome_map PRoomChat (DeserializeNew body)
  | PrivateChatId => outcome_map PPrivateChat (DeserializeNew body)
  | UserEnteredId => outcome_map PUserEntered (DeserializeNew body)
  | UserLeftId => outcome_map PUserLeft (DeserializeNew body)
  end.

Definition DispatchPacket {S} (id : Z) (body : list Z) (handler : chat_packet → M S unit) : M S bool :=
  match packet_of_id id with
  | Some t => v ← lift_outcome (deserialize_packet t body); handler v ;; mret true
  | None => mret false
  end.

(** [memorypack::Serialize] of a packet by its sender. *)
Definition serialize_packet (p : chat_packet) : outcome (list Z) :=
  match p with
  | PLoginRequest v => SerializeNew v
  | PLoginResponse v => SerializeNew v
  | PRoomJoinRequest v => SerializeNew v
  | PRoomJoinResponse v => SerializeNew v
  | PRoomChat v => SerializeNew v
  | PPrivateChat v => SerializeNew v
  | PUserEntered v => SerializeNew v
  | PUserLeft v => SerializeNew v
  end.
End Table.

(** ** What it does *)

Definition packet_type (p : chat_packet) : PacketId :=
  match p with
  | PLoginRequest _ => LoginRequestId
  | PLoginResponse _ => LoginResponseId
  | PRoomJoinRequest _ => RoomJoinRequestId
  | PRoomJoinResponse _ => RoomJoinResponseId
  | PRoomChat _ => RoomChatId
  | PPrivateChat _ => PrivateChatId
  | PUserEntered _ => UserEnteredId
  | PUserLeft _ => UserLeftId
  end.

Section Dispatch.
Context `{Platform}.

(** A packet any reader accepts, and its body. *)
Definition packet_portable (p : chat_packet) : Prop :=
  match p with
  | PLoginRequest v => portable v
  | PLoginResponse v => portable v
  | PRoomJoinRequest v => portable v
  | PRoomJoinResponse v => portable v
  | PRoomChat v => portable v
  | PPrivateChat v => portable v
  | PUserEntered v => portable v
  | PUserLeft v => portable v
  end.

Definition packet_enc (p : chat_packet) : list Z :=
  match p with
  | PLoginRequest v => enc v
  | PLoginResponse v => enc v
  | PRoomJoinRequest v => enc v
  | PRoomJoinResponse v => enc v
  | PRoomChat v => enc v
  | PPrivateChat v => enc v
  | PUserEntered v => enc v
  | PUserLeft v => enc v
  end.

Lemma chat_packet_of_id t : packet_of_id (packet_id t) = Some t.
Proof. by destruct t. Qed.

Lemma packet_of_id_Some id t : packet_of_id id = Some t → id = packet_id t.
Proof. unfold packet_of_id. repeat case_match; intros [= <-]; cbn; lia. Qed.

Lemma serialize_packet_enc p : packet_portable p → zlen (packet_enc p) ≤ grow_limit → serialize_packet p = Ret (packet_enc p).
Proof. destruct p; intros [Hp _] Hl; by apply SerializeNew_emits; [apply law_emits|]. Qed.

Lemma deserialize_packet_enc p : packet_portable p → zlen (packet_enc p) < size_mod →
  deserialize_packet (packet_type p) (packet_enc p) = Ret p.
Proof. intros Hp Hl. destruct p as [v|v|v|v|v|v|v|v]; exact (f_equal (outcome_map _) (DeserializeNew_enc v Hp Hl)). Qed.

Lemma outcome_map_any {T} `{!MemoryPackFormatter T, !WireFormat T, !FormatterLaws T} (k : T → chat_packet) t body :
  bytes_ok body → zlen body < size_mod → (∀ v, packet_type (k v) = t) →
  (∃ p, outcome_map k (DeserializeNew body) = Ret p ∧ packet_type p = t) ∨
  has_exceptions = true ∧ ∃ e off, outcome_map k (DeserializeNew body) = Throw e off.
Proof. intros Hb Hl Hk. destruct (DeserializeNew_any (T := T) body Hb Hl) as [(v & ->)|(Hex & e & off & ->)]; cbn; eauto 6. Qed.

Lemma deserialize_chat_any t body : bytes_ok body → zlen body < size_mod →
  (∃ p, deserialize_packet t body = Ret p ∧ packet_type p = t) ∨
  has_exceptions = true ∧ ∃ e off, deserialize_packet t body = Throw e off.
Proof. intros Hb Hl. destruct t; by apply outcome_map_any. Qed.

(** The dispatch table of the chat protocol agrees with its serializers, whatever arrives.
    A packet dispatched under its id reaches the handler once and unchanged; an id in no
    case label runs no handler and reports false; and for any other body, the handler sees
    a packet of the kind the id names, or an exception leaves before the handler runs. *)
Theorem chat_dispatch_delivers {S} p (handler : chat_packet → M S unit) (s : S) :
  packet_portable p → zlen (packet_enc p) ≤ grow_limit →
  serialize_packet p = Ret (packet_enc p) ∧
  DispatchPacket (packet_id (packet_type p)) (packet_enc p) handler s = (handler p ;; mret true) s ∧
  (∀ id body, (∀ t, id ≠ packet_id t) → DispatchPacket id body handler s = (Ret false, s)) ∧
  ∀ t body, bytes_ok body → zlen body < size_mod →
    (∃ q, packet_type q = t ∧ DispatchPacket (packet_id t) body handler s = (handler q ;; mret true) s) ∨
    has_exceptions = true ∧ ∃ e off, DispatchPacket (packet_id t) body handler s = (Throw e off, s).
Proof.
  intros Hp Hl. pose proof grow_limit_bounds. split; [by apply serialize_packet_enc|]. split_and!.
  - unfold DispatchPacket. rewrite chat_packet_of_id. unfold mbind at 1, M_bind at 1, lift_outcome.
    by rewrite deserialize_packet_enc by (done || lia).
  - intros id body Hid. unfold DispatchPacket. destruct (packet_of_id id) as [t|] eqn:E; [|done].
    by destruct (Hid t (packet_of_id_Some id t E)).
  - intros t body Hb Hs. unfold DispatchPacket. rewrite chat_packet_of_id. unfold mbind at 1 3, M_bind at 1 3, lift_outcome.
    destruct (deserialize_chat_any t body Hb Hs) as [(q & -> & Hq)|(Hex & e & off & ->)]; [left; by exists q|right; by eauto].
Qed.
End Dispatch.

Section Witness.
#[local] Existing Instance host64.

Lemma chat_dispatch_delivers_witness :
  serialize_packet (PRoomChat (MkRoomChat (Str []) (Str [104; 105]))) = Ret [2; 0; 0; 0; 0; 253; 255; 255; 255; 2; 0; 0; 0; 104; 105].
Proof.
  apply (chat_dispatch_delivers (PRoomChat (MkRoomChat (Str []) (Str [104; 105]))) (λ _, mret tt) tt); [|vm_compute; discriminate].
  apply portable_object. repeat (apply Forall_cons; split; [apply portable_string; [bytes_lit|done]|]). apply Forall_nil_2.
Defined.
End Witness.
