(* ===== verification/Schema.v ===== *)
(** The schema hashes of the generated protocol headers ([PACKET_SCHEMA_HASH]): how the
    generator computes them ([tools/cs2cpp/SchemaHash.cs]), the C# classes they stand for
    ([samples/ChatServer/Packets.cs], [samples/CSharpServer/Packets.cs]), and the structs of
    the C++ headers, whose members have the types of those classes. *)
From stdpp Require Import strings.
From S2P Require Import Prelude Endian Writer Reader Headers Utf Strings Formatter Collections Objects Text ChatProtocol CppClient.

(** ** The hash *)

(** A packet class: its name, and the types of its members in the order they are written. *)
Record PackableType := MkPackableType { Name : String.string; Members_CsType : list String.string }.

Fixpoint members_string (i : Z) (types : list String.string) : list Z :=
  match types with
  | [] => []
  | t :: types' => to_string i ++ literal ":" ++ literal t ++ literal ";" ++ members_string (i + 1) types'
  end.

Definition BuildCanonicalString (types : list PackableType) : list Z :=
  types ≫= λ t, literal (Name t) ++ literal "(" ++ members_string 0 (Members_CsType t) ++ literal ")" ++ [10].

Definition FnvOffsetBasis : Z := 0xcbf29ce484222325.
Definition FnvPrime : Z := 0x100000001b3.

(** One round, in [ulong]. *)
Definition fnv_step (hash b : Z) : Z := (Z.lxor hash b * FnvPrime) mod 2 ^ 64.

Definition Fnv1a64 (text : list Z) : Z := foldl fnv_step FnvOffsetBasis text.

Definition SchemaHash_Compute (types : list PackableType) : Z := Fnv1a64 (BuildCanonicalString types).

Example KnownFnvVector : Fnv1a64 [] = 0xcbf29ce484222325 ∧ Fnv1a64 (literal "a") = 0xaf63dc4c8601ec8c.
Proof. by vm_compute. Qed.

Example canonical_string : BuildCanonicalString [MkPackableType "LoginResponse" ["bool"; "string?"]%string] =
  literal "LoginResponse(0:bool;1:string?;)" ++ [10].
Proof. by vm_compute. Qed.

(** *** One changed byte changes the hash *)

Definition hash_ok (h : Z) : Prop := 0 ≤ h < 2 ^ 64.

Lemma fnv_step_ok h b : hash_ok (fnv_step h b).
Proof. apply Z.mod_pos_bound. lia. Qed.

Lemma lxor_bound h b : hash_ok h → byte_ok b → hash_ok (Z.lxor h b).
Proof.
  intros [Hh Hh'] [Hb Hb']. split; [by apply Z.lxor_nonneg|].
  destruct (Z.eq_dec (Z.lxor h b) 0) as [->|Hx]; [done|]. assert (Hpos : 0 < Z.lxor h b).
  { pose proof (proj2 (Z.lxor_nonneg h b) ltac:(lia)). lia. }
  apply Z.log2_lt_pow2; [done|]. pose proof (Z.log2_lxor h b Hh Hb).
  assert (Z.log2 h < 64) by (destruct (Z.eq_dec h 0) as [->|]; [done|apply Z.log2_lt_pow2; lia]).
  assert (Z.log2 b < 64) by (destruct (Z.eq_dec b 0) as [->|]; [done|apply Z.log2_lt_pow2; lia]). lia.
Qed.

(** The inverse of the prime modulo 2^64: no round loses information. *)
Definition FnvPrime_inverse : Z := 0xce965057aff6957b.

Lemma FnvPrime_invertible x : hash_ok x → ((x * FnvPrime) mod 2 ^ 64 * FnvPrime_inverse) mod 2 ^ 64 = x.
Proof.
  intros Hx. rewrite Z.mul_mod_idemp_l by lia. rewrite <-Z.mul_assoc, <-Z.mul_mod_idemp_r by lia.
  change ((FnvPrime * FnvPrime_inverse) mod 2 ^ 64) with 1. rewrite Z.mul_1_r. by apply Z.mod_small.
Qed.

Lemma fnv_step_inj h h' b b' : hash_ok h → hash_ok h' → byte_ok b → byte_ok b' →
  fnv_step h b = fnv_step h' b' → Z.lxor h b = Z.lxor h' b'.
Proof.
  intros Hh Hh' Hb Hb' E. rewrite <-(FnvPrime_invertible (Z.lxor h b)), <-(FnvPrime_invertible (Z.lxor h' b')) by (by apply lxor_bound).
  unfold fnv_step in E. by rewrite E.
Qed.

Lemma lxor_cancel_l h x : Z.lxor h (Z.lxor h x) = x.
Proof. by rewrite <-Z.lxor_assoc, Z.lxor_nilpotent, Z.lxor_0_l. Qed.

Lemma fnv_from_inj post : ∀ h h', hash_ok h → hash_ok h' → bytes_ok post →
  foldl fnv_step h post = foldl fnv_step h' post → h = h'.
Proof.
  induction post as [|b post IH]; intros h h' Hh Hh' Hp E; [done|]. apply Forall_cons in Hp as [Hb Hp].
  apply IH in E; [|apply fnv_step_ok..|done]. apply fnv_step_inj in E; [|done..].
  apply (f_equal (Z.lxor b)) in E. by rewrite !(Z.lxor_comm _ b), !lxor_cancel_l in E.
Qed.

Lemma fnv_ok text : ∀ h, hash_ok h → hash_ok (foldl fnv_step h text).
Proof. induction text as [|b text IH]; intros h Hh; [done|]. apply IH, fnv_step_ok. Qed.

Lemma Fnv1a64_one_byte pre b b' post : bytes_ok post → byte_ok b → byte_ok b' →
  Fnv1a64 (pre ++ b :: post) = Fnv1a64 (pre ++ b' :: post) → b = b'.
Proof.
  intros Hp Hb Hb' E. unfold Fnv1a64 in E. rewrite !foldl_app in E. cbn [foldl] in E.
  assert (Hpre : hash_ok (foldl fnv_step FnvOffsetBasis pre)) by by apply fnv_ok.
  apply fnv_from_inj in E; [|apply fnv_step_ok..|done]. apply fnv_step_inj in E; [|done..].
  apply (f_equal (Z.lxor (foldl fnv_step FnvOffsetBasis pre))) in E. by rewrite !lxor_cancel_l in E.
Qed.

Lemma members_string_ok types : ∀ i, bytes_ok (members_string i types).
Proof.
  induction types as [|t types IH]; intros i; cbn [members_string]; [apply Forall_nil_2|].
  unfold to_string. repeat (apply Forall_app; split); try apply literal_ok. apply IH.
Qed.

Lemma BuildCanonicalString_ok types : bytes_ok (BuildCanonicalString types).
Proof.
  apply Forall_bind, Forall_true. intros t. repeat (apply Forall_app; split); try apply literal_ok; [apply members_string_ok|by bytes_lit].
Qed.

(** ** The C# classes *)

Definition ChatServer_packets : list PackableType := [
  MkPackableType "LoginRequest" ["string?"];
  MkPackableType "LoginResponse" ["bool"; "string?"];
  MkPackableType "RoomJoinRequest" ["string?"];
  MkPackableType "RoomJoinResponse" ["bool"; "List<string>?"];
  MkPackableType "RoomChat" ["string?"; "string?"];
  MkPackableType "PrivateChat" ["string?"; "string?"; "string?"];
  MkPackableType "UserEntered" ["string?"];
  MkPackableType "UserLeft" ["string?"]]%string.

Definition CSharpServer_packets : list PackableType := [
  MkPackableType "LoginRequest" ["string?"; "int"];
  MkPackableType "LoginResponse" ["bool"; "int"; "string?"];
  MkPackableType "PlayerState" ["int"; "float"; "float"; "float"; "string?"];
  MkPackableType "ScoreUpdate" ["int"; "List<int>?"; "double"];
  MkPackableType "ChatMessage" ["int"; "string?"; "long"];
  MkPackableType "InventoryData" ["int"; "List<string>?"; "List<int>?"];
  MkPackableType "BufferData" ["byte"; "sbyte"; "List<byte>?"; "List<sbyte>?"];
  MkPackableType "IntArrayPacket" ["int"; "List<short>?"; "List<int>?"; "List<long>?"];
  MkPackableType "SkillSlotData" ["int"; "List<int>?"; "List<float>?"];
  MkPackableType "MapTileRow" ["int"; "List<byte>?"; "List<short>?"];
  MkPackableType "MixedFormatPacket" ["int"; "List<int>?"; "List<int>?"; "List<sbyte>?"; "double"]]%string.

(** ** The constants of the C++ headers *)

Definition Chat_PACKET_SCHEMA_HASH : Z := 0xE3D920B3AD21BFE8.
Definition CppClient_PACKET_SCHEMA_HASH : Z := 0x84FDF5A4970EF78F.

(** ** The C++ structs *)

(** The C# type that has the encoding of a C++ type, and whether it is a reference type. *)
Class CsType (T : Type) := { cs_name : String.string; cs_reference : bool }.

Definition arith_cs_name (t : arith_ty) : String.string :=
  match t with
  | Bool_t => "bool" | Int8 => "sbyte" | UInt8 => "byte" | Int16 => "short" | UInt16 => "ushort"
  | Int32 => "int" | UInt32 => "uint" | Int64 => "long" | UInt64 => "ulong" | Float32 => "float"
  | Float64 => "double" | Char16 => "char"
  end.

#[export] Instance prim_cs t : CsType (prim t) := {| cs_name := arith_cs_name t; cs_reference := false |}.
#[export] Instance string_cs : CsType string := {| cs_name := "string"; cs_reference := true |}.
#[export] Instance vector_cs `{CsType T} : CsType (vector T) :=
  {| cs_name := "List<" ++ cs_name (T := T) ++ ">"; cs_reference := true |}.

(** As the type of a member: any reference may be null. *)
Definition member_cs (T : Type) `{CsType T} : String.string := cs_name (T := T) ++ if cs_reference (T := T) then "?" else "".

(** The type of a member declared by [MEMORYPACK_DEFINE]. *)
#[export] Hint Extern 0 (CsType (m_type ?m)) => (let T := eval hnf in (m_type m) in change (CsType T)) : typeclass_instances.

Record field (V : Type) := Field { f_member : member V; f_cs : CsType (m_type f_member) }.
Arguments Field {V} f_member {f_cs}.
Arguments f_member {V}.
Arguments f_cs {V}.

(** A struct with its members and their C# types. *)
Class Declared (V : Type) `{Members V} := {
  declared_name : String.string;
  fields : list (field V);
  fields_members : f_member <$> fields = members;
}.

Definition packable (V : Type) `{Declared V} : PackableType :=
  MkPackableType (declared_name (V := V)) ((λ f, member_cs (m_type (f_member f)) (H := f_cs f)) <$> fields).

Section Structs.
Context `{Platform}.

#[export] Instance chat_LoginRequest_declared : Declared ChatProtocol.LoginRequest := {|
  declared_name := "LoginRequest";
  fields := [Field ChatProtocol.lrq_username_m];
  fields_members := eq_refl |}.

#[export] Instance chat_LoginResponse_declared : Declared ChatProtocol.LoginResponse := {|
  declared_name := "LoginResponse";
  fields := [Field ChatProtocol.lrs_success_m; Field ChatProtocol.lrs_message_m];
  fields_members := eq_refl |}.

#[export] Instance chat_RoomJoinRequest_declared : Declared ChatProtocol.RoomJoinRequest := {|
  declared_name := "RoomJoinRequest";
  fields := [Field ChatProtocol.jrq_roomName_m];
  fields_members := eq_refl |}.

#[export] Instance chat_RoomJoinResponse_declared : Declared ChatProtocol.RoomJoinResponse := {|
  declared_name := "RoomJoinResponse";
  fields := [Field ChatProtocol.jrs_success_m; Field ChatProtocol.jrs_existingUsers_m];
  fields_members := eq_refl |}.

#[export] Instance chat_RoomChat_declared : Declared ChatProtocol.RoomChat := {|
  declared_name := "RoomChat";
  fields := [Field ChatProtocol.rc_senderName_m; Field ChatProtocol.rc_message_m];
  fields_members := eq_refl |}.

#[export] Instance chat_PrivateChat_declared : Declared ChatProtocol.PrivateChat := {|
  declared_name := "PrivateChat";
  fields := [Field ChatProtocol.pc_senderName_m; Field ChatProtocol.pc_targetName_m; Field ChatProtocol.pc_message_m];
  fields_members := eq_refl |}.

#[export] Instance chat_UserEntered_declared : Declared ChatProtocol.UserEntered := {|
  declared_name := "UserEntered";
  fields := [Field ChatProtocol.ue_username_m];
  fields_members := eq_refl |}.

#[export] Instance chat_UserLeft_declared : Declared ChatProtocol.UserLeft := {|
  declared_name := "UserLeft";
  fields := [Field ChatProtocol.ul_username_m];
  fields_members := eq_refl |}.

#[export] Instance client_LoginRequest_declared : Declared CppClient.LoginRequest := {|
  declared_name := "LoginRequest";
  fields := [Field CppClient.lrq_username_m; Field CppClient.lrq_level_m];
  fields_members := eq_refl |}.

#[export] Instance client_LoginResponse_declared : Declared CppClient.LoginResponse := {|
  declared_name := "LoginResponse";
  fields := [Field CppClient.lrs_success_m; Field CppClient.lrs_playerId_m; Field CppClient.lrs_message_m];
  fields_members := eq_refl |}.

#[export] Instance client_PlayerState_declared : Declared CppClient.PlayerState := {|
  declared_name := "PlayerState";
  fields := [Field CppClient.ps_playerId_m; Field CppClient.ps_posX_m; Field CppClient.ps_posY_m; Field CppClient.ps_posZ_m; Field CppClient.ps_name_m];
  fields_members := eq_refl |}.

#[export] Instance client_ScoreUpdate_declared : Declared CppClient.ScoreUpdate := {|
  declared_name := "ScoreUpdate";
  fields := [Field CppClient.su_playerId_m; Field CppClient.su_scores_m; Field CppClient.su_totalScore_m];
  fields_members := eq_refl |}.

#[export] Instance client_ChatMessage_declared : Declared CppClient.ChatMessage := {|
  declared_name := "ChatMessage";
  fields := [Field CppClient.cm_senderId_m; Field CppClient.cm_message_m; Field CppClient.cm_timestamp_m];
  fields_members := eq_refl |}.

#[export] Instance client_InventoryData_declared : Declared CppClient.InventoryData := {|
  declared_name := "InventoryData";
  fields := [Field CppClient.inv_playerId_m; Field CppClient.inv_itemNames_m; Field CppClient.inv_itemCounts_m];
  fields_members := eq_refl |}.

#[export] Instance client_BufferData_declared : Declared CppClient.BufferData := {|
  declared_name := "BufferData";
  fields := [Field CppClient.bd_tag_m; Field CppClient.bd_grade_m; Field CppClient.bd_rawData_m; Field CppClient.bd_charCodes_m];
  fields_members := eq_refl |}.

#[export] Instance client_IntArrayPacket_declared : Declared CppClient.IntArrayPacket := {|
  declared_name := "IntArrayPacket";
  fields := [Field CppClient.ia_id_m; Field CppClient.ia_shortArray_m; Field CppClient.ia_intArray_m; Field CppClient.ia_longArray_m];
  fields_members := eq_refl |}.

Definition chat_packets : list PackableType := [packable ChatProtocol.LoginRequest; packable ChatProtocol.LoginResponse; packable ChatProtocol.RoomJoinRequest; packable ChatProtocol.RoomJoinResponse; packable ChatProtocol.RoomChat; packable ChatProtocol.PrivateChat; packable ChatProtocol.UserEntered; packable ChatProtocol.UserLeft].

(** The three structs with C arrays have no member list: their types are read off the
    hand-written serializers, in which a C array is sent like a vector. *)
Definition hand_written : list PackableType := [
  MkPackableType "SkillSlotData" [member_cs (prim Int32); member_cs (vector (prim Int32)); member_cs (vector (prim Float32))];
  MkPackableType "MapTileRow" [member_cs (prim Int32); member_cs (vector (prim UInt8)); member_cs (vector (prim Int16))];
  MkPackableType "MixedFormatPacket" [member_cs (prim Int32); member_cs (vector (prim Int32)); member_cs (vector (prim Int32));
    member_cs (vector (prim Int8)); member_cs (prim Float64)]].

Definition client_packets : list PackableType := [packable CppClient.LoginRequest; packable CppClient.LoginResponse; packable CppClient.PlayerState; packable CppClient.ScoreUpdate; packable CppClient.ChatMessage; packable CppClient.InventoryData; packable CppClient.BufferData; packable CppClient.IntArrayPacket] ++ hand_written.

End Structs.

(** The two ends of each sample protocol agree. The structs of the C++ header, read as
    C# types, are the classes of the server, in the same order and with the members in the
    order they are written; the hash in the header is the hash of those classes; and a
    protocol whose canonical text differs from it in one character has another hash, so
    comparing the hashes finds a changed member type. *)
Theorem schemas_agree `{Platform} :
  chat_packets = ChatServer_packets ∧ SchemaHash_Compute chat_packets = Chat_PACKET_SCHEMA_HASH ∧
  client_packets = CSharpServer_packets ∧ SchemaHash_Compute client_packets = CppClient_PACKET_SCHEMA_HASH ∧
  ∀ types types' pre b b' post,
    BuildCanonicalString types = pre ++ b :: post → BuildCanonicalString types' = pre ++ b' :: post → b ≠ b' →
    SchemaHash_Compute types ≠ SchemaHash_Compute types'.
Proof.
  split; [by vm_compute|]. split; [by vm_compute|]. split; [by vm_compute|]. split; [by vm_compute|].
  intros types types' pre b b' post E E' Hb Hhash. unfold SchemaHash_Compute in Hhash.
  pose proof (BuildCanonicalString_ok types) as Hok. pose proof (BuildCanonicalString_ok types') as Hok'. rewrite E in *. rewrite E' in *.
  apply Forall_app in Hok as [_ [Hb1 Hp]%Forall_cons]. apply Forall_app in Hok' as [_ [Hb2 _]%Forall_cons].
  by apply Hb, (Fnv1a64_one_byte pre b b' post).
Qed.
