(* ===== verification/GoldenTheorems.v ===== *)
(** The two modes of the generator agree: a struct with [MEMORYPACK_DEFINE] and the same
    struct with explicit serializers write the same bytes, and read any input alike but for
    a null object and the limit on nesting. *)
From stdpp Require Import strings.
From S2P Require Import Prelude Endian Writer Reader Headers Utf Strings Formatter Collections Objects CppClient Golden Text Schema.

(** ** Reads that do not look at the nesting depth *)

Section Blind.
Context `{Platform}.

Definition depth_blind {A} (m : R A) : Prop :=
  ∀ r d, m (set_depth d r) = let '(o, r') := m r in (o, set_depth d r').

Lemma blind_ret {A} (a : A) : depth_blind (mret a).
Proof. done. Qed.

Lemma blind_bind {A B} (m : R A) (k : A → R B) : depth_blind m → (∀ a, depth_blind (k a)) → depth_blind (m ≫= k).
Proof. intros Hm Hk r d. unfold mbind, M_bind. rewrite Hm. destruct (m r) as [[a|e off|] r']; [apply Hk|done..]. Qed.

Lemma blind_gets {A} (f : MemoryPackReader → A) : (∀ r d, f (set_depth d r) = f r) → depth_blind (gets f).
Proof. intros Hf r d. unfold gets. by rewrite Hf. Qed.

Lemma blind_modify f : (∀ r d, f (set_depth d r) = set_depth d (f r)) → depth_blind (modify f).
Proof. intros Hf r d. unfold modify. by rewrite Hf. Qed.

Lemma blind_if {A} (b : bool) (m1 m2 : R A) : depth_blind m1 → depth_blind m2 → depth_blind (if b then m1 else m2).
Proof. by destruct b. Qed.

(** Such a read also leaves the depth alone. *)
Lemma blind_keeps {A} (m : R A) r : depth_blind m → depth_ (m r).2 = depth_ r.
Proof. intros Hm. pose proof (Hm r (depth_ r)) as E. destruct r as [data p d o e]. cbn in *. destruct (m _) as [x r']. injection E as ->. done. Qed.

Lemma blind_Fail code : depth_blind (Fail code).
Proof. intros r d. unfold Fail. cbn. case_decide; by destruct has_exceptions. Qed.

Lemma blind_EnsureBytes n : depth_blind (EnsureBytes n).
Proof.
  intros r d. unfold EnsureBytes. cbn. case_decide; [|done]. change (size_ (set_depth d r)) with (size_ r). destruct (n >? _); [|done].
  apply (blind_bind (Fail BufferUnderflow) (λ _, mret false)); [apply blind_Fail|done].
Qed.

Lemma blind_load off n : depth_blind (load off n).
Proof. intros r d. unfold load. change (size_ (set_depth d r)) with (size_ r). by destruct (_ && _). Qed.
End Blind.

Create HintDb blind.
#[export] Hint Resolve blind_ret blind_Fail blind_EnsureBytes blind_load : blind.

(** Reads built from blind ones. *)
Ltac blind_go :=
  repeat first
    [ solve [auto with blind] | apply blind_bind; [|intros ?] | apply blind_if
    | apply blind_gets; intros; reflexivity | apply blind_modify; intros; reflexivity ].

Section BlindReads.
Context `{Platform}.

Lemma blind_take_bytes n : depth_blind (take_bytes n).
Proof. unfold take_bytes, advance. blind_go. Qed.

#[local] Hint Resolve blind_take_bytes : blind.

Lemma blind_ReadByte : depth_blind ReadByte.
Proof. unfold ReadByte. blind_go. Qed.

Lemma blind_ReadRaw t : depth_blind (ReadRaw t).
Proof. unfold ReadRaw. blind_go. Qed.

#[local] Hint Resolve blind_ReadByte blind_ReadRaw : blind.

Lemma blind_utf16_loop n out : depth_blind (read_utf16_loop n out).
Proof.
  revert out. induction (lt_wf n) as [n _ IH]. intros out. destruct n as [|n]; cbn [read_utf16_loop]; [done|].
  destruct n as [|n]; blind_go; apply IH; lia.
Qed.

Lemma blind_CheckStringLength n u : depth_blind (CheckStringLength n u).
Proof. unfold CheckStringLength. blind_go. Qed.

#[local] Hint Resolve blind_utf16_loop blind_CheckStringLength : blind.

Lemma blind_ReadString : depth_blind ReadString.
Proof. unfold ReadString, ReadUtf16String, ReadUtf16Payload, ReadUtf8Payload. blind_go. Qed.

Lemma blind_prim t (old : prim t) : depth_blind (ReadInto old).
Proof.
  unfold ReadInto, prim_formatter, prim_Deserialize, ReadBool, ReadFloat, ReadDouble, ReadUInt8, ReadUInt16, ReadUInt32, ReadUInt64.
  cbn. destruct t; cbn [arith_size]; blind_go.
Qed.

Lemma blind_string (old : string) : depth_blind (ReadInto old).
Proof. unfold ReadInto, string_formatter, ReadStringInto. cbn. blind_go; apply blind_ReadString. Qed.

Lemma blind_members {V} (ms : list (member V)) c i v :
  Forall (λ m, ∀ old : m_type m, depth_blind (ReadInto old)) ms → depth_blind (read_members c i ms v).
Proof. intros Hms. revert i v. induction Hms as [|m ms Hm _ IH]; intros i v; [done|]. cbn [read_members]. blind_go. Qed.
End BlindReads.

#[export] Hint Resolve blind_prim blind_string : blind.

(** ** Reads and writes that do the same *)

Section Same.
Context `{Platform}.

(** On every reader the library can be in. *)
Definition reads_alike {A} (m m' : R A) : Prop := ∀ r, r_ok r → m r = m' r.

Lemma alike_bind {A B} (P : A → Prop) (m m' : R A) (k k' : A → R B) : reads_alike m m' → safe m (λ a _, P a) →
  (∀ a, P a → reads_alike (k a) (k' a)) → reads_alike (m ≫= k) (m' ≫= k').
Proof.
  intros Hm Sm Hk r Hr. unfold mbind, M_bind. specialize (Sm r Hr). unfold safe_at in Sm. rewrite <-(Hm r Hr).
  destruct (m r) as [[a|e off|] r']; [|done..]. destruct Sm as (S & _ & Ha). by apply Hk, S.
Qed.

(** A signed integer, read as such or as the unsigned one. *)
Lemma ReadRaw_signed t u : arith_size u = arith_size t → is_signed u = false →
  reads_alike (x ← ReadRaw t; mret (Prim x : prim t)) (x ← ReadRaw u; mret (Prim (of_unsigned t x))).
Proof.
  intros Hs Hu r Hr. unfold ReadRaw. rewrite !bind_assoc. unfold sizeof. rewrite Hs. revert r Hr.
  apply (alike_bind (λ bs, if bs is Some bs then bytes_ok bs ∧ length bs = arith_size t else True)); [done| |].
  - intros r Hr. eapply safe_at_mono; [apply safe_take_bytes; [done|lia]|]. intros [bs|] r' _; [|done].
    intros (Hl & Hb & _). unfold zlen in Hl. split; [done|lia].
  - intros [bs|] Hb r _; unfold mret, M_ret, mbind, M_bind; do 3 f_equal.
    + destruct Hb as [Hb Hl]. assert (Eu : wire_value u bs = le_value bs) by (unfold wire_value, of_unsigned; by rewrite Hu).
      rewrite !endian_convert_of_object_bytes, Eu by congruence. done.
    + unfold of_unsigned. destruct (is_signed t) eqn:Et; [|done]. by destruct t.
Qed.

(** What the explicit mode reads, and what [MEMORYPACK_DEFINE] reads. *)
Lemma int32_alike old : reads_alike int32_value (ReadInto (T := prim Int32) old).
Proof. by apply (ReadRaw_signed Int32 UInt32). Qed.
Lemma int64_alike old : reads_alike int64_value (ReadInto (T := prim Int64) old).
Proof. by apply (ReadRaw_signed Int64 UInt64). Qed.
Lemma bool_alike old : reads_alike bool_value (ReadInto (T := prim Bool_t) old).
Proof. done. Qed.
Lemma double_alike old : reads_alike double_value (ReadInto (T := prim Float64) old).
Proof. done. Qed.
Lemma string_alike old : reads_alike string_value (ReadInto (T := string) old).
Proof.
  intros r _. unfold string_value, ReadInto, string_formatter, ReadStringInto. cbn. unfold mbind, M_bind.
  by destruct (ReadString r) as [[[]| |] ?].
Qed.

(** And writes. *)
Lemma int32_written (v : prim Int32) w : wf v → WriteInt32 (pval v) w = Write v w.
Proof.
  intros Hv. change (WriteRaw Int32 (pval v) w = WriteRaw UInt32 (to_unsigned 4 (pval v)) w). unfold WriteRaw.
  rewrite !object_bytes_endian_convert by (apply (to_unsigned_ok 4) || apply Hv). cbn [arith_size]. by rewrite le_bytes_to_unsigned.
Qed.
Lemma int64_written (v : prim Int64) w : wf v → WriteInt64 (pval v) w = Write v w.
Proof.
  intros Hv. change (WriteRaw Int64 (pval v) w = WriteRaw UInt64 (to_unsigned 8 (pval v)) w). unfold WriteRaw.
  rewrite !object_bytes_endian_convert by (apply (to_unsigned_ok 8) || apply Hv). cbn [arith_size]. by rewrite le_bytes_to_unsigned.
Qed.

(** One member after the other. *)
Section Member.
Context {V : Type} (m : member V).

Lemma member_alike c n i ms rd f (k : V → R V) : n = i + 1 → (∀ old, reads_alike rd (ReadInto (T := m_type m) old)) → safe rd anything →
  (∀ x v, f x v = m_set m x v) → (∀ v, reads_alike (k v) (read_members c (i + 1) ms v)) →
  ∀ v, reads_alike (v ← assign_if c n (λ _, rd) f v; k v) (read_members c i (m :: ms) v).
Proof.
  intros -> Hm Sm Hf Hk v. cbn [read_members]. unfold assign_if.
  assert (E : (c >=? i + 1) = (c >? i)) by (destruct (Z.geb_spec c (i + 1)), (Z.gtb_spec c i); lia || done). rewrite E.
  destruct (c >? i); [|by apply (alike_bind (λ _, True))].
  apply (alike_bind (λ _, True)); [| |done].
  - apply (alike_bind (λ _, True)); [apply Hm|done|]. intros x _ r _. by rewrite Hf.
  - by apply safe_map.
Qed.

Lemma member_written ms v (m1 m2 : W unit) : (∀ w, m1 w = Write (m_get m v) w) → (∀ w, m2 w = write_members ms v w) →
  ∀ w, (m1 ;; m2) w = write_members (m :: ms) v w.
Proof. intros H1 H2 w. unfold write_members in *. cbn [mapM_]. by apply bind_pointwise. Qed.

Lemma last_written v (m1 : W unit) : (∀ w, m1 w = Write (m_get m v) w) → ∀ w, m1 w = write_members [m] v w.
Proof. intros H1 w. unfold write_members. cbn [mapM_]. unfold mbind, M_bind. rewrite H1. by destruct (Write _ w) as [[[]| |] ?]. Qed.
End Member.
End Same.

(** ** The two modes *)

Section Modes.
Context `{Platform} {V : Type} `{MembersLaws V}.

(** The same outcome and, but for the nesting depth when the read throws, the same reader. *)
Definition same_but_depth {A} (p q : outcome A * MemoryPackReader) : Prop :=
  p.1 = q.1 ∧ set_depth 0 p.2 = set_depth 0 q.2 ∧ (∀ a, p.1 = Ret a → p.2 = q.2).

(** Explicit serializers [ser] and [des] against those of [MEMORYPACK_DEFINE]. *)
Definition modes_agree (ser : option V → W unit) (des : V → R V) : Prop :=
  (∀ v w, wf v → ser (Some v) w = Define_Serialize (Some v) w) ∧
  ser None = Define_Serialize None ∧
  ∀ old r, r_ok r → depth_ r ≤ maxDepth (options_ r) → maxDepth (options_ r) + 1 < 2 ^ 32 →
    match ReadObjectHeader r with
    | (Ret header, r1) =>
        if isNull header then des old r = (Ret old, r1) ∧ Define_Deserialize old r = (Ret default_value, r1)
        else if depth_ r <? maxDepth (options_ r) then same_but_depth (Define_Deserialize old r) (des old r)
        else fails_at r (Define_Deserialize old)
    | (Throw e off, r1) => des old r = (Throw e off, r1) ∧ Define_Deserialize old r = (Throw e off, r1)
    | (UB, _) => False
    end.

Context (n : Z) (ser : V → W unit) (body : ObjectHeader → V → R V) (Hn : n = zlen members).
Context (Hser : ∀ v, wf v → ∀ w, ser v w = write_members members v w).
Context (Hbody : ∀ h v, reads_alike (body h v) (read_members (count h) 0 members v)).
Context (Hblind : Forall (λ m, ∀ old : m_type m, depth_blind (ReadInto old)) members).

Lemma zlen_members : zlen members = zlen specs.
Proof. rewrite <-specs_members. unfold zlen. by rewrite length_fmap. Qed.

Lemma blind_ReadObjectHeader : depth_blind ReadObjectHeader.
Proof. unfold ReadObjectHeader. pose proof blind_ReadByte. blind_go. Qed.

(** What [MEMORYPACK_DEFINE] reads after the header, one level deeper. *)
Lemma object_body_same c v r : r_ok r → depth_ r < maxDepth (options_ r) →
  same_but_depth (object_body v c r) (read_members c 0 members v r).
Proof.
  intros Hr Hd. pose proof (ok_depth r Hr). pose proof (ok_options r Hr).
  pose proof (blind_members members c 0 v Hblind) as Hb. pose proof (blind_keeps _ r Hb) as Hk. specialize (Hb r (depth_ r + 1)).
  unfold object_body, EnterObject, LeaveObject, mbind, M_bind, gets, modify. cbn. rewrite Z.mod_small by lia.
  destruct (Z.gtb_spec (depth_ r + 1) (maxDepth (options_ r))); [lia|]. cbn. rewrite Hb.
  destruct (read_members c 0 members v r) as [[x|e off|] [data p d o er]]; cbn in *; subst d; try by split_and!.
  destruct (Z.gtb_spec (depth_ r + 1) 0); [|lia]. unfold set_depth. cbn. by rewrite Z.add_simpl_r.
Qed.

(** At the limit, [MEMORYPACK_DEFINE] fails. *)
Lemma object_body_limit c v r : r_ok r → depth_ r = maxDepth (options_ r) → maxDepth (options_ r) + 1 < 2 ^ 32 →
  fails_at r (object_body v c).
Proof.
  intros Hr Hd Hm. pose proof (ok_depth r Hr). unfold fails_at, object_body, EnterObject, mbind, M_bind, gets, modify.
  cbn. rewrite Z.mod_small by lia. destruct (Z.gtb_spec (depth_ r + 1) (maxDepth (options_ r))); [|lia]. unfold Fail. cbn.
  case_decide as Er; destruct has_exceptions; cbn; done.
Qed.

Lemma modes_agree_of :
  modes_agree (λ v, match v with None => WriteNullObjectHeader | Some v => WriteObjectHeader n ;; ser v end)
    (λ v, header ← ReadObjectHeader; if isNull header then mret v else body header v).
Proof.
  split; [|split; [done|]].
  - intros v w Hv. unfold Define_Serialize. rewrite MemberCount_specs, <-zlen_members, Hn.
    apply bind_pointwise; [done|]. intros _. by apply Hser.
  - intros old r Hr Hd Hm. pose proof (blind_keeps _ r blind_ReadObjectHeader) as Hk. pose proof (safe_ReadObjectHeader_any r Hr) as S.
    change (Define_Deserialize old) with (h ← ReadObjectHeader; if isNull h then mret default_value else object_body old (count h)).
    unfold safe_at, fails_at, mbind, M_bind in *. destruct (ReadObjectHeader r) as [[[c []]|e off|] r1]; cbn in *; [done| |done|done].
    destruct S as (S & _). rewrite (Hbody (MkHeader c false) old r1) by apply S. rewrite <-(rstep_options _ _ S), <-Hk in *.
    destruct (Z.ltb_spec (depth_ r1) (maxDepth (options_ r1))).
    + apply object_body_same; [apply S|done].
    + apply object_body_limit; [apply S|lia|done].
Qed.
End Modes.

Section SafeValues.
Context `{Platform}.

Lemma safe_string_value : safe string_value anything.
Proof. apply safe_map, safe_ReadString_any. Qed.
Lemma safe_int32_value : safe int32_value anything.
Proof. apply safe_map, safe_ReadRaw_any. Qed.
Lemma safe_int64_value : safe int64_value anything.
Proof. apply safe_map, safe_ReadRaw_any. Qed.
Lemma safe_double_value : safe double_value anything.
Proof. apply safe_map, safe_ReadRaw_any. Qed.
Lemma safe_bool_value : safe bool_value anything.
Proof. apply safe_map, safe_map, safe_ReadByte_any. Qed.

(** A member of a value that can be written can be written. *)
Lemma member_wf {V} `{MembersLaws V} (v : V) i s : wf v → specs !! i = Some s → wf (m_get (ms_member s) v).
Proof. intros Hv Hs. by eapply Hv, list_elem_of_lookup_2. Qed.
End SafeValues.

(** ** The members of the explicit mode, one by one *)

Create HintDb golden.
#[export] Hint Resolve safe_string_value safe_int32_value safe_int64_value safe_double_value safe_bool_value : golden.
#[export] Hint Resolve int32_alike int64_alike bool_alike double_alike string_alike : golden.

Ltac member_wf Hv :=
  first [ exact (member_wf _ 0 _ Hv eq_refl) | exact (member_wf _ 1 _ Hv eq_refl)
        | exact (member_wf _ 2 _ Hv eq_refl) | exact (member_wf _ 3 _ Hv eq_refl) ].

(** The list of members, spelled out. *)
Ltac spell_members :=
  match goal with |- context [@members ?V ?i] => let ms := eval hnf in (@members V i) in change (@members V i) with ms end.

Ltac members_written Hv :=
  spell_members;
  repeat lazymatch goal with
    | |- ∀ w, _ = write_members [_] _ w => refine (last_written _ _ _ _)
    | |- ∀ w, _ = write_members (_ :: _) _ w => refine (member_written _ _ _ _ _ _ _)
    end;
  lazymatch goal with
  | |- ∀ w, WriteInt32 _ w = _ => intros; apply int32_written; member_wf Hv
  | |- ∀ w, WriteInt64 _ w = _ => intros; apply int64_written; member_wf Hv
  | |- _ => reflexivity
  end.

Ltac members_alike h v :=
  spell_members; revert v;
  repeat lazymatch goal with
    | |- ∀ v, reads_alike _ (read_members _ _ (?m :: _) v) =>
        refine (member_alike m (count h) _ _ _ _ _ _ _ _ _ _ _); [done|auto with golden|auto with golden|done|]
    end; done.

Ltac explicit_mode :=
  let h := fresh "h" in let v := fresh "v" in let Hv := fresh "Hv" in
  cbv zeta; refine (modes_agree_of _ _ _ _ _ _ _);
    [ done | intros v Hv; members_written Hv | intros h v; members_alike h v 
    | repeat apply Forall_cons_2; [first [exact blind_string | exact (blind_prim _)].. | apply Forall_nil_2] ].

(** ** The property *)

Section Golden.
Context `{Platform}.

(** C13: The generator's two modes are one protocol. For every packet of [Plain.cs] and
    [Dispatch.cs], the explicit serializer ([PlainExplicit.hpp],
    [DispatchExplicitOff.hpp]) and [MEMORYPACK_DEFINE] ([Plain.hpp], [Dispatch.hpp])
    write the same bytes to any writer, and on any input, well formed or not, read the
    same value or fail in the same way at the same place; with two exceptions: a null
    object leaves the explicit mode's object as it was and resets that of
    [MEMORYPACK_DEFINE], and only the latter fails at the limit on nesting. *)
Theorem golden_modes_agree :
  modes_agree PlainExplicit_hpp.LoginRequest_Serialize PlainExplicit_hpp.LoginRequest_Deserialize ∧
  modes_agree PlainExplicit_hpp.FieldPacket_Serialize PlainExplicit_hpp.FieldPacket_Deserialize ∧
  modes_agree PlainExplicit_hpp.RecordPacket_Serialize PlainExplicit_hpp.RecordPacket_Deserialize ∧
  modes_agree DispatchExplicitOff_hpp.LoginRequest_Serialize DispatchExplicitOff_hpp.LoginRequest_Deserialize ∧
  modes_agree DispatchExplicitOff_hpp.LoginResponse_Serialize DispatchExplicitOff_hpp.LoginResponse_Deserialize.
Proof.
  split_and!.
  - unfold PlainExplicit_hpp.LoginRequest_Serialize, PlainExplicit_hpp.LoginRequest_Deserialize. explicit_mode.
  - unfold PlainExplicit_hpp.FieldPacket_Serialize, PlainExplicit_hpp.FieldPacket_Deserialize. explicit_mode.
  - unfold PlainExplicit_hpp.RecordPacket_Serialize, PlainExplicit_hpp.RecordPacket_Deserialize. explicit_mode.
  - unfold DispatchExplicitOff_hpp.LoginRequest_Serialize, DispatchExplicitOff_hpp.LoginRequest_Deserialize. explicit_mode.
  - unfold DispatchExplicitOff_hpp.LoginResponse_Serialize, DispatchExplicitOff_hpp.LoginResponse_Deserialize. explicit_mode.
Qed.
End Golden.

(** A null packet: the two modes differ. *)
Section Null.
#[local] Existing Instance host64.

Definition alice_login : Dispatch_hpp.LoginRequest := Dispatch_hpp.MkLoginRequest (Str [65]) (Prim 7).

Example null_differs :
  (DispatchExplicitOff_hpp.LoginRequest_Deserialize alice_login (NewReader [255] DefaultOptions)).1 = Ret alice_login ∧
  (Define_Deserialize alice_login (NewReader [255] DefaultOptions)).1 = Ret (Dispatch_hpp.MkLoginRequest (Str []) (Prim 0)).
Proof. by vm_compute. Qed.
End Null.

(** The hash in [Dispatch.hpp] is that of the classes in [Cases/Dispatch.cs]. *)
Example Dispatch_schema : SchemaHash_Compute [MkPackableType "LoginRequest" ["string?"; "int"]; MkPackableType "LoginResponse" ["bool"; "int"]]%string =
  Dispatch_hpp.PACKET_SCHEMA_HASH.
Proof. by vm_compute. Qed.
