(* ===== verification/Console.v ===== *)
(** What the example programs ([src/examples]) use besides the library: [printf] on a
    console, the globals of a program, local objects, exceptions; and the helpers every
    example has its own copy of ([Dump], [Show], [Check]). *)
From stdpp Require Import strings.
From S2P Require Import Prelude Endian Writer Reader Headers Utf Strings Formatter Collections Objects Assoc Api Text.

(** ** [printf] *)

(** The text of a string literal; [\q] stands for an escaped double quote. *)
Fixpoint unescape (s : list Z) : list Z :=
  match s with
  | 92 :: c :: s' => (if c =? 110 then 10 else if c =? 113 then 34 else c) :: unescape s'
  | c :: s' => c :: unescape s'
  | [] => []
  end.

Definition c_literal (s : String.string) : list Z := unescape (literal s).

(** Arguments after their promotions: any integer, a [double], a null-terminated string. *)
Inductive arg :=
  | Int (n : Z)
  | Double (bits : Z)
  | Text (s : list Z).

(** A conversion specification on the way. *)
Record spec := Spec { minus : bool; zero : bool; width : Z; precision : option Z }.

Definition no_spec : spec := Spec false false 0 None.

Definition put_digit (d : Z) (s : spec) : spec :=
  match precision s with
  | Some p => Spec (minus s) (zero s) (width s) (Some (10 * p + d))
  | None => if (d =? 0) && (width s =? 0) then Spec (minus s) true 0 None
            else Spec (minus s) (zero s) (10 * width s + d) None
  end.

(** The digits of [n] to the base 16; [alpha] is the letter for ten. *)
Fixpoint hex_text (fuel : nat) (alpha n : Z) : list Z :=
  let digit d := if d <? 10 then 48 + d else alpha + d - 10 in
  match fuel with
  | O => []
  | S fuel' => if n <? 16 then [digit n] else hex_text fuel' alpha (n / 16) ++ [digit (n mod 16)]
  end.

Definition pad_left (c n : Z) (s : list Z) : list Z := replicate (Z.to_nat (n - zlen s)) c ++ s.
Definition pad_right (n : Z) (s : list Z) : list Z := s ++ replicate (Z.to_nat (n - zlen s)) 32.

(** [n / d], ties to even. *)
Definition div_half_even (n d : Z) : Z :=
  let q := n / d in
  let r := 2 * (n mod d) in
  if (d <? r) || ((d =? r) && Z.odd q) then q + 1 else q.

(** [%.pf] of the [double] with these bits. *)
Definition fixed_text (p bits : Z) : list Z :=
  let e := Z.land (Z.shiftr bits 52) 0x7FF in
  let m := Z.land bits (2 ^ 52 - 1) in
  (if Z.testbit bits 63 then literal "-" else []) ++
  if e =? 0x7FF then literal (if m =? 0 then "inf" else "nan") else
  let mantissa := if e =? 0 then m else 2 ^ 52 + m in
  let exponent := Z.max e 1 - 1075 in
  let n := if 0 <=? exponent then mantissa * 2 ^ exponent * 10 ^ p else div_half_even (mantissa * 10 ^ p) (2 ^ (- exponent)) in
  to_string (n / 10 ^ p) ++ if p =? 0 then [] else literal "." ++ pad_left 48 p (to_string (n mod 10 ^ p)).

(** A C string ends at its first null. *)
Fixpoint until_null (s : list Z) : list Z :=
  match s with
  | [] => []
  | c :: s' => if c =? 0 then [] else c :: until_null s'
  end.

(** The conversions, by the code of their letter. *)
Definition d_conversion : Z := 100.
Definition u_conversion : Z := 117.
Definition x_conversion : Z := 120.
Definition X_conversion : Z := 88.
Definition c_conversion : Z := 99.
Definition f_conversion : Z := 102.
Definition s_conversion : Z := 115.

(** The text of one conversion; none when the argument does not fit it. *)
Definition convert (s : spec) (conversion : Z) (a : arg) : option (list Z) :=
  match a with
  | Int n =>
      if conversion =? d_conversion then Some (to_string n)
      else if n <? 0 then None
      else if conversion =? u_conversion then Some (to_string n)
      else if conversion =? x_conversion then Some (hex_text 16 97 n)
      else if conversion =? X_conversion then Some (hex_text 16 65 n)
      else if (conversion =? c_conversion) && (n <? 256) then Some [n] else None
  | Double bits => if conversion =? f_conversion then Some (fixed_text (default 6 (precision s)) bits) else None
  | Text t => if conversion =? s_conversion then Some (until_null t) else None
  end.

Definition justify (s : spec) (t : list Z) : list Z :=
  if minus s then pad_right (width s) t else pad_left (if zero s then 48 else 32) (width s) t.

(** The text [printf] writes; none when the arguments do not fit the format. Length
    modifiers only name the type of the argument. *)
Fixpoint format (st : option spec) (fmt : list Z) (args : list arg) : option (list Z) :=
  match fmt with
  | [] => match st, args with None, [] => Some [] | _, _ => None end
  | c :: fmt' =>
      match st with
      | None => if c =? 37 then format (Some no_spec) fmt' args else (c ::.) <$> format None fmt' args
      | Some s =>
          if c =? 37 then (37 ::.) <$> format None fmt' args
          else if c =? 45 then format (Some (Spec true (zero s) (width s) (precision s))) fmt' args
          else if c =? 46 then format (Some (Spec (minus s) (zero s) (width s) (Some 0))) fmt' args
          else if (48 <=? c) && (c <=? 57) then format (Some (put_digit (c - 48) s)) fmt' args
          else if (c =? 122) || (c =? 108) then format st fmt' args
          else match args with
               | [] => None
               | a :: args' =>
                   t ← convert s c a;
                   rest ← format None fmt' args';
                   Some (justify s t ++ rest)
               end
      end
  end.

Example format_hex : format None (c_literal "    %04zx  %02X |%c|%-5s|\n") [Int 16; Int 10; Int 65; Text (literal "ab")] =
  Some (literal "    0010  0A |A|ab   |" ++ [10]).
Proof. by vm_compute. Qed.

(** [-1.25], [12.5] and [1/3] as [double]s. *)
Example format_double : format None (c_literal "%.1f %10.4f %.2f %d%%") [Double 0xBFF4000000000000; Double 0x4029000000000000; Double 0x3FD5555555555555; Int (-7)] =
  Some (literal "-1.2    12.5000 0.33 -7%").
Proof. by vm_compute. Qed.

(** ** Floating point *)

(** The [float] [m * 2 ^ e], for a literal that is exact in it. *)
Definition float_of (m e : Z) : Z :=
  if m =? 0 then 0 else
  let k := Z.log2 (Z.abs m) in
  (if m <? 0 then 2 ^ 31 else 0) + (k + e + 127) * 2 ^ 23 + Z.shiftl (Z.abs m) (23 - k) - 2 ^ 23.

(** [static_cast<double>] of a [float]. *)
Definition double_of (b : Z) : Z :=
  let e := Z.land (Z.shiftr b 23) 0xFF in
  let m := Z.land b (2 ^ 23 - 1) in
  (if Z.testbit b 31 then 2 ^ 63 else 0) +
  if e =? 0xFF then 0x7FF * 2 ^ 52 + m * 2 ^ 29
  else if e =? 0 then
    if m =? 0 then 0 else (Z.log2 m - 149 + 1023) * 2 ^ 52 + Z.shiftl m (52 - Z.log2 m) - 2 ^ 52
  else (e - 127 + 1023) * 2 ^ 52 + m * 2 ^ 29.

(** [a == b] on [float]s. *)
Definition is_nan (b : Z) : bool := 0x7F800000 <? Z.land b 0x7FFFFFFF.
Definition float_eq (a b : Z) : bool :=
  negb (is_nan a) && negb (is_nan b) && ((a =? b) || (Z.land (Z.lor a b) 0x7FFFFFFF =? 0)).

Example float_literals : float_of 25 (-1) = 0x41480000 ∧ float_of (-1) 0 = 0xBF800000 ∧ double_of (float_of 25 (-1)) = 0x4029000000000000.
Proof. by vm_compute. Qed.

(** ** Values of C++ types *)

(** A [std::string] from a literal. *)
Definition str (s : String.string) : string := Str (c_literal s).
Definition i32 (n : Z) : prim Int32 := Prim n.
Definition f32 (m e : Z) : prim Float32 := Prim (float_of m e).

(** [operator==]. *)
#[export] Instance prim_eq_dec t : EqDecision (prim t).
Proof. solve_decision. Defined.
#[export] Instance string_eq_dec : EqDecision string.
Proof. solve_decision. Defined.
#[export] Instance vector_eq_dec `{EqDecision T} : EqDecision (vector T).
Proof. solve_decision. Defined.
#[export] Instance std_map_eq_dec `{EqDecision K, EqDecision V} : EqDecision (std_map K V).
Proof. solve_decision. Defined.
#[export] Instance std_set_eq_dec `{EqDecision K} : EqDecision (std_set K).
Proof. solve_decision. Defined.

(** ** Programs *)

(** What a program has written, and its global variables. *)
Record program (G : Type) := Program { stdout : list Z; globals : G }.
Arguments Program {G}.
Arguments stdout {G}.
Arguments globals {G}.

Definition started {G} (g : G) : program G := Program [] g.

(** Programs with [bool g_ok], which [Check] clears. *)
Class Checked (G : Type) := {
  g_ok : G → bool;
  set_failed : G → G;
}.

#[export] Instance ok_checked : Checked bool := {| g_ok := id; set_failed := λ _, false |}.

Section Calls.
Context `{Platform} {G : Type}.

Definition write_text (t : list Z) : M (program G) unit := modify (λ p, Program (stdout p ++ t) (globals p)).

Definition printf (fmt : String.string) (args : list arg) : M (program G) unit :=
  match format None (c_literal fmt) args with
  | Some t => write_text t
  | None => undefined
  end.

Definition set_globals (f : G → G) : M (program G) unit := modify (λ p, Program (stdout p) (f (globals p))).

(** [try { m } catch (const MemoryPackException& e) { h }]. *)
Definition try_catch {A} (m : M (program G) A) (h : MemoryPackError → Z → M (program G) A) : M (program G) A := λ p,
  match m p with
  | (Throw e off, p') => h e off p'
  | r => r
  end.

Definition serialize {T} `{!MemoryPackFormatter T} (v : T) : M (program G) (list Z) := lift_outcome (SerializeNew v).
Definition deserialize (T : Type) `{!MemoryPackFormatter T} (bytes : list Z) : M (program G) T := lift_outcome (DeserializeNew bytes).

(** [bytes[i]] *)
Definition at_index (bytes : list Z) (i : Z) : M (program G) Z :=
  if 0 <=? i then match bytes !! Z.to_nat i with Some b => mret b | None => undefined end else undefined.

(** [bytes[i] = b] *)
Definition set_index (bytes : list Z) (i b : Z) : M (program G) (list Z) :=
  if (0 <=? i) && (i <? zlen bytes) then mret (<[Z.to_nat i := b]> bytes) else undefined.

(** [for (auto x : l) body;] where the body changes the local variables [s]. *)
Fixpoint fold_loop {S A} (body : S → A → M (program G) S) (l : list A) (s : S) : M (program G) S :=
  match l with
  | [] => mret s
  | x :: l' => s' ← body s x; fold_loop body l' s'
  end.

(** [for (j = from; cond(j); j += step) body(j);] with the final value of [j]. *)
Fixpoint for_loop (fuel : nat) (step : Z) (cond : Z → bool) (body : Z → M (program G) unit) (j : Z) : M (program G) Z :=
  if cond j then
    match fuel with
    | O => undefined
    | S fuel' => body j ;; for_loop fuel' step cond body (size_add j step)
    end
  else mret j.

(** *** Helpers of the examples *)

(** One row of [Dump]: the offset, 16 cells in hexadecimal and the characters. *)
Definition dump_row (bytes : list Z) (i : Z) : M (program G) unit :=
  printf "    %04zx  " [Int i] ;;
  j ← for_loop 16 1 (λ j, (j <? 16) && (size_add i j <? zlen bytes))
        (λ j, b ← at_index bytes (size_add i j); printf "%02X " [Int b]) 0;
  for_loop 16 1 (λ j, j <? 16) (λ _, printf "   " []) j ;;
  printf " |" [] ;;
  for_loop 16 1 (λ j, (j <? 16) && (size_add i j <? zlen bytes))
    (λ j, c ← at_index bytes (size_add i j); printf "%c" [Int (if (0x20 <=? c) && (c <? 0x7F) then c else 46)]) 0 ;;
  printf "|\n" [].

Definition hex_dump (label : String.string) (bytes : list Z) : M (program G) unit :=
  printf "%s (%zu bytes)\n" [Text (c_literal label); Int (zlen bytes)] ;;
  for_loop (length bytes) 16 (λ i, i <? zlen bytes) (dump_row bytes) 0 ;;
  mret tt.

Definition show_value {T} `{!MemoryPackFormatter T} (label : String.string) (value : T) (explanation : String.string) : M (program G) unit :=
  bytes ← serialize value;
  hex_dump label bytes ;;
  printf "    -> %s\n\n" [Text (c_literal explanation)].

Definition check `{!Checked G} (what : String.string) (condition : bool) : M (program G) unit :=
  if negb condition then
    set_globals set_failed ;;
    printf "  FAILED: %s\n" [Text (c_literal what)]
  else mret tt.
End Calls.
