(* ===== verification/ConsoleTheorems.v ===== *)
(** What the helpers of the examples write: [Dump] the rows of a hexadecimal dump of any
    bytes, [Show] a dump of the wire encoding of any value. *)
From stdpp Require Import strings.
From S2P Require Import Prelude Endian Writer Reader Headers Utf Strings Formatter Collections Objects Api Text Console.

Section Dump.
Context `{Platform} {G : Type}.
Implicit Types p : program G.

Definition wrote (t : list Z) p : program G := Program (stdout p ++ t) (globals p).

Lemma wrote_nil p : wrote [] p = p.
Proof. unfold wrote. rewrite app_nil_r. by destruct p. Qed.

Lemma wrote_wrote t t' p : wrote t' (wrote t p) = wrote (t ++ t') p.
Proof. unfold wrote. cbn. by rewrite app_assoc. Qed.

Lemma printf_writes fmt args t p : format None (c_literal fmt) args = Some t → printf fmt args p = (Ret tt, wrote t p).
Proof. unfold printf. by intros ->. Qed.

(** A loop of [n] rounds, the [i]-th of which writes [f i]. *)
Lemma for_loop_writes step cond (body : Z → M (program G) unit) (f : nat → list Z) n : ∀ fuel j p,
  (n ≤ fuel)%nat → 0 ≤ j → 0 ≤ step → j + Z.of_nat n * step < size_mod →
  (∀ i, (i < n)%nat → cond (j + Z.of_nat i * step) = true ∧ ∀ p, body (j + Z.of_nat i * step) p = (Ret tt, wrote (f i) p)) →
  cond (j + Z.of_nat n * step) = false →
  for_loop fuel step cond body j p = (Ret (j + Z.of_nat n * step), wrote (seq 0 n ≫= f) p).
Proof.
  revert f. induction n as [|n IH]; intros f fuel j p Hf Hj Hs Hb Hc He.
  - rewrite Z.mul_0_l, Z.add_0_r in *. rewrite wrote_nil. by destruct fuel; cbn [for_loop]; rewrite He.
  - destruct fuel as [|fuel]; [lia|]. destruct (Hc 0%nat ltac:(lia)) as [Hc0 Hb0]. rewrite Z.mul_0_l, Z.add_0_r in *.
    cbn [for_loop]. rewrite Hc0. rewrite (bind_ret _ _ _ _ _ (Hb0 p)). rewrite size_add_small by nia.
    rewrite (IH (f ∘ S)); [|lia..| |].
    + cbn [seq]. rewrite bind_cons, wrote_wrote, <-fmap_S_seq, list_fmap_bind. do 2 f_equal. lia.
    + intros i Hi. destruct (Hc (S i) ltac:(lia)) as [Hci Hbi]. replace (j + step + Z.of_nat i * step) with (j + Z.of_nat (S i) * step) by lia. done.
    + by replace (j + step + Z.of_nat n * step) with (j + Z.of_nat (S n) * step) by lia.
Qed.

(** *** One row *)

Definition hex_digit_upper (d : Z) : Z := if d <? 10 then 48 + d else 55 + d.
Definition cell (b : Z) : list Z := [hex_digit_upper (b / 16); hex_digit_upper (b mod 16); 32].
Definition shown (c : Z) : Z := if (0x20 <=? c) && (c <? 0x7F) then c else 46.

Definition row_text (i : Z) (row : list Z) : list Z :=
  literal "    " ++ pad_left 48 4 (hex_text 16 97 i) ++ literal "  " ++
  (row ≫= cell) ++ replicate (3 * (16 - length row)) 32 ++ literal " |" ++ (shown <$> row) ++ literal "|" ++ [10].

Lemma hex_text_two b : byte_ok b →
  hex_text 16 65 b = if b <? 16 then [hex_digit_upper b] else [hex_digit_upper (b / 16); hex_digit_upper (b mod 16)].
Proof.
  intros Hb. unfold byte_ok in Hb. assert (Hd : ∀ d, (if d <? 10 then 48 + d else 65 + d - 10) = hex_digit_upper d).
  { intros d. unfold hex_digit_upper. destruct (d <? 10); lia. }
  change 16%nat with (S (S 14)). cbn [hex_text]. rewrite !Hd. destruct (b <? 16); [done|].
  pose proof (Z.div_lt_upper_bound b 16 16 ltac:(lia) ltac:(lia)). destruct (Z.ltb_spec (b / 16) 16); [done|lia].
Qed.

Lemma hex_two b : byte_ok b → pad_left 48 2 (hex_text 16 65 b) = [hex_digit_upper (b / 16); hex_digit_upper (b mod 16)].
Proof.
  intros Hb. rewrite hex_text_two by done. unfold byte_ok in Hb. destruct (Z.ltb_spec b 16); [|done].
  by rewrite Z.div_small, Z.mod_small by lia.
Qed.

Lemma cell_writes b p : byte_ok b → printf "%02X " [Int b] p = (Ret tt, wrote (cell b) p).
Proof.
  intros Hb. apply printf_writes. change (c_literal "%02X ") with [37; 48; 50; 88; 32].
  cbn -[hex_text pad_left Z.ltb]. destruct (Z.ltb_spec b 0); [unfold byte_ok in Hb; lia|].
  cbn -[hex_text pad_left]. unfold justify. cbn -[hex_text pad_left]. by rewrite hex_two.
Qed.

Lemma char_writes c p : 0 ≤ c < 256 → printf "%c" [Int c] p = (Ret tt, wrote [c] p).
Proof.
  intros Hc. apply printf_writes. change (c_literal "%c") with [37; 99].
  cbn -[Z.ltb]. destruct (Z.ltb_spec c 0); [lia|]. cbn -[Z.ltb]. by destruct (Z.ltb_spec c 256); [|lia].
Qed.

Lemma shown_byte c : byte_ok c → 0 ≤ shown c < 256.
Proof. unfold byte_ok, shown. intros Hc. destruct (_ && _); lia. Qed.

Lemma at_index_lookup bytes i b p : 0 ≤ i → bytes !! Z.to_nat i = Some b → at_index bytes i p = (Ret b, p).
Proof. intros Hi Hb. unfold at_index. destruct (Z.leb_spec 0 i); [|lia]. by rewrite Hb. Qed.

Lemma offset_writes i p : 0 ≤ i → printf "    %04zx  " [Int i] p = (Ret tt, wrote (literal "    " ++ pad_left 48 4 (hex_text 16 97 i) ++ literal "  ") p).
Proof.
  intros Hi. apply printf_writes. change (c_literal "    %04zx  ") with [32; 32; 32; 32; 37; 48; 52; 122; 120; 32; 32].
  change (literal "    ") with [32; 32; 32; 32]. change (literal "  ") with [32; 32].
  cbn -[hex_text pad_left Z.ltb]. destruct (Z.ltb_spec i 0); [lia|]. reflexivity.
Qed.

Lemma bind_seq {A B} (f : A → list B) (l : list A) : l ≫= f = seq 0 (length l) ≫= λ k, default [] (f <$> l !! k).
Proof.
  induction l as [|x l IH]; [done|]. rewrite bind_cons, IH. cbn [length seq]. by rewrite bind_cons, <-fmap_S_seq, list_fmap_bind.
Qed.

(** The cells and the characters of the bytes from [i] on, by position. *)
Lemma row_loop bytes i (body : Z → M (program G) unit) (f : Z → list Z) p :
  let row := slice i 16 bytes in
  bytes_ok bytes → 0 ≤ i < zlen bytes → zlen bytes + 16 < size_mod →
  (∀ j b p, 0 ≤ j < 16 → i + j < zlen bytes → bytes !! Z.to_nat (i + j) = Some b → byte_ok b → body j p = (Ret tt, wrote (f b) p)) →
  for_loop 16 1 (λ j, (j <? 16) && (size_add i j <? zlen bytes)) body 0 p = (Ret (zlen row), wrote (row ≫= f) p).
Proof.
  intros row Hok Hi Hs Hb. assert (Hrow : zlen row = Z.min 16 (zlen bytes - i)).
  { subst row. unfold slice, zlen in *. rewrite length_take, length_drop. lia. }
  assert (E : row ≫= f = seq 0 (length row) ≫= λ k, default [] (f <$> row !! k)) by apply bind_seq.
  rewrite E. replace (zlen row) with (0 + Z.of_nat (length row) * 1) by (unfold zlen; lia).
  apply for_loop_writes; unfold zlen in *; try lia.
  - intros k Hk. rewrite Z.mul_1_r, Z.add_0_l. rewrite size_add_small by lia. split.
    + apply andb_true_iff. split; apply Z.ltb_lt; lia.
    + assert (Hl : row !! k = bytes !! Z.to_nat (i + Z.of_nat k)).
      { subst row. unfold slice. rewrite lookup_take_lt, lookup_drop by lia. f_equal. lia. }
      destruct (lookup_lt_is_Some_2 bytes (Z.to_nat (i + Z.of_nat k))) as [b Eb]; [lia|].
      intros p'. rewrite Hl, Eb. apply (Hb _ b); [lia..|done|]. by apply (Forall_lookup_1 _ _ _ _ Hok Eb).
  - rewrite Z.mul_1_r, Z.add_0_l, size_add_small by lia. apply andb_false_iff. destruct (Z.leb_spec 16 (Z.of_nat (length row))); [left|right]; apply Z.ltb_ge; lia.
Qed.

Lemma bind_spaces n k : (seq k n ≫= λ _, [32; 32; 32]) = replicate (3 * n) 32.
Proof.
  revert k. induction n as [|n IH]; intros k; [done|]. cbn [seq]. rewrite bind_cons, IH.
  replace (3 * S n)%nat with (S (S (S (3 * n)))) by lia. reflexivity.
Qed.

Lemma bind_singleton {A B} (f : A → B) l : (l ≫= λ x, [f x]) = f <$> l.
Proof. induction l as [|x l IH]; [done|]. by rewrite bind_cons, IH. Qed.

Lemma dump_row_writes bytes i p : bytes_ok bytes → 0 ≤ i < zlen bytes → zlen bytes + 16 < size_mod →
  dump_row bytes i p = (Ret tt, wrote (row_text i (slice i 16 bytes)) p).
Proof.
  intros Hok Hi Hs. set (row := slice i 16 bytes). pose proof size_mod_pos.
  assert (Hrow : (length row ≤ 16)%nat) by (subst row; unfold slice; rewrite length_take; lia).
  unfold dump_row. rewrite (bind_ret _ _ _ _ _ (offset_writes i p ltac:(lia))).
  erewrite bind_ret; [|apply (row_loop bytes i _ cell); [done..|]].
  2: { intros j b p' Hj Hij Hb Hbk. rewrite size_add_small by lia.
       rewrite (bind_ret _ _ _ _ _ (at_index_lookup bytes (i + j) b p' ltac:(lia) Hb)). by apply cell_writes. }
  fold row. erewrite bind_ret.
  2: { apply (for_loop_writes 1 _ _ (λ _, [32; 32; 32]) (16 - length row)); unfold zlen in *; try lia.
       - intros k Hk. split; [apply Z.ltb_lt; lia|]. intros p'. by apply printf_writes.
       - apply Z.ltb_ge. lia. }
  erewrite bind_ret; [|by apply printf_writes].
  erewrite bind_ret; [|apply (row_loop bytes i _ (λ c, [shown c])); [done..|]].
  2: { intros j b p' Hj Hij Hb Hbk. rewrite size_add_small by lia.
       rewrite (bind_ret _ _ _ _ _ (at_index_lookup bytes (i + j) b p' ltac:(lia) Hb)). apply char_writes. by apply shown_byte. }
  erewrite printf_writes by reflexivity. rewrite !wrote_wrote. do 2 f_equal. unfold row_text. fold row.
  by rewrite <-!app_assoc, bind_spaces, bind_singleton.
Qed.

(** *** The whole dump *)

Definition heading (label : list Z) (n : Z) : list Z := until_null label ++ literal " (" ++ to_string n ++ literal " bytes)" ++ [10].

Definition rows_text (bytes : list Z) : list Z :=
  seq 0 ((length bytes + 15) / 16) ≫= λ k, row_text (Z.of_nat k * 16) (slice (Z.of_nat k * 16) 16 bytes).

Lemma pad_left_0 c t : pad_left c 0 t = t.
Proof. unfold pad_left. zlen_pos. by replace (Z.to_nat (0 - zlen t)) with 0%nat by lia. Qed.

Lemma heading_writes label n p : 0 ≤ n →
  printf "%s (%zu bytes)\n" [Text (c_literal label); Int n] p = (Ret tt, wrote (heading (c_literal label) n) p).
Proof.
  intros Hn. apply printf_writes. unfold heading. change (c_literal "%s (%zu bytes)\n") with
    [37; 115; 32; 40; 37; 122; 117; 32; 98; 121; 116; 101; 115; 41; 10].
  change (literal " (") with [32; 40]. change (literal " bytes)") with [32; 98; 121; 116; 101; 115; 41].
  generalize (c_literal label). intros t. cbn -[to_string Z.ltb until_null]. destruct (Z.ltb_spec n 0); [lia|].
  cbn -[to_string until_null]. unfold justify. cbn -[to_string until_null pad_left].
  rewrite !pad_left_0. cbn -[to_string until_null]. reflexivity.
Qed.

(** [Dump] of any bytes writes the label, their number and their rows, and changes nothing else. *)
Lemma hex_dump_writes label bytes p : bytes_ok bytes → zlen bytes + 16 < size_mod →
  hex_dump label bytes p = (Ret tt, wrote (heading (c_literal label) (zlen bytes) ++ rows_text bytes) p).
Proof.
  intros Hok Hs. unfold hex_dump. zlen_pos. erewrite bind_ret; [|apply heading_writes; lia].
  assert (Hn : (16 * ((length bytes + 15) / 16) ≤ length bytes + 15)%nat) by apply Nat.Div0.mul_div_le.
  assert (Hn' : (length bytes ≤ 16 * ((length bytes + 15) / 16))%nat).
  { pose proof (Nat.div_mod_eq (length bytes + 15) 16). pose proof (Nat.mod_upper_bound (length bytes + 15) 16 ltac:(lia)). lia. }
  erewrite bind_ret.
  2: { apply (for_loop_writes 16 _ _ (λ k, row_text (Z.of_nat k * 16) (slice (Z.of_nat k * 16) 16 bytes)) ((length bytes + 15) / 16));
         unfold zlen in *; try lia.
       - intros k Hk. rewrite Z.add_0_l. split; [apply Z.ltb_lt; lia|]. intros p'. apply dump_row_writes; unfold zlen; [done|lia..]. }
  by rewrite wrote_wrote.
Qed.

Lemma arrow_writes t p :
  printf "    -> %s\n\n" [Text t] p = (Ret tt, wrote (literal "    -> " ++ until_null t ++ [10; 10]) p).
Proof.
  apply printf_writes. change (c_literal "    -> %s\n\n") with [32; 32; 32; 32; 45; 62; 32; 37; 115; 10; 10].
  change (literal "    -> ") with [32; 32; 32; 32; 45; 62; 32]. cbn -[until_null]. unfold justify. cbn -[until_null pad_left].
  by rewrite pad_left_0.
Qed.

Lemma grow_limit_dump : grow_limit + 16 < size_mod.
Proof. unfold grow_limit, size_mod. by destruct size_t_is_32. Qed.

(** [Show] prints the wire format: for every value of every type whose formatter meets
    the contract, and whatever the program has written so far, it writes the label, the
    size and the hexadecimal rows of exactly the value's encoding (16 bytes a row, the
    last one padded, the printable characters beside them), then the explanation; the
    program's globals are untouched. *)
Theorem Show_prints_encoding {T} `{!MemoryPackFormatter T, !WireFormat T, !FormatterLaws T} (label explanation : String.string) (v : T) p :
  wf v → zlen (enc v) ≤ grow_limit →
  show_value label v explanation p =
    (Ret tt, Program (stdout p ++ heading (c_literal label) (zlen (enc v)) ++ rows_text (enc v) ++
                      literal "    -> " ++ until_null (c_literal explanation) ++ [10; 10])
                     (globals p)).
Proof.
  intros Hv Hsz. pose proof grow_limit_dump. pose proof (law_bytes v Hv) as Hb. unfold show_value.
  assert (Hs : zlen (enc v) + 16 < size_mod) by lia.
  rewrite (bind_ret _ _ p (enc v) p); [|unfold serialize; by rewrite (SerializeNew_emits v _ (law_emits v Hv) Hsz)].
  rewrite (bind_ret _ _ _ _ _ (hex_dump_writes label (enc v) p Hb Hs)).
  rewrite arrow_writes, wrote_wrote. by rewrite <-!app_assoc.
Qed.
End Dump.

#[local] Existing Instance host64.

Lemma Show_prints_encoding_witness :
  show_value "a word" (str "Hi!") "UTF-8" (started tt) =
    (Ret tt, Program (c_literal "a word (11 bytes)\n    0000  FC FF FF FF 03 00 00 00 48 69 21                 |........Hi!|\n    -> UTF-8\n\n") tt).
Proof.
  rewrite (Show_prints_encoding "a word" "UTF-8" (str "Hi!") (started tt)); [vm_compute; reflexivity|apply (portable_string (c_literal "Hi!")); [change (c_literal "Hi!") with [72; 105; 33]; bytes_lit|done]|vm_compute; discriminate].
Defined.

