(* ===== verification/ExampleQuickStart.v ===== *)
(** The first example: [examples/01_quick_start.cpp]. *)
From stdpp Require Import strings.
From S2P Require Import Prelude Endian Writer Reader Headers Utf Strings Formatter Collections Objects Assoc Nullable Api Text Console.

Module QuickStart.
Record LoginRequest := MkLoginRequest { userId : prim Int32; userName : string; level : prim Float32; isAdmin : prim Bool_t }.

Section Example.
Context `{Platform}.

#[local] Instance LoginRequest_members : Members LoginRequest := {
  default_value := MkLoginRequest (Prim 0) (Str []) (Prim 0) (Prim 0);
  members := [
    Member (prim Int32) userId (λ x v, MkLoginRequest x (userName v) (level v) (isAdmin v));
    Member string userName (λ x v, MkLoginRequest (userId v) x (level v) (isAdmin v));
    Member (prim Float32) level (λ x v, MkLoginRequest (userId v) (userName v) x (isAdmin v));
    Member (prim Bool_t) isAdmin (λ x v, MkLoginRequest (userId v) (userName v) (level v) x)] }.

Definition Dump : String.string → list Z → M (program unit) unit := hex_dump.

Definition request : LoginRequest := MkLoginRequest (Prim 1001) (str "Alice") (Prim (float_of 25 (-1))) (Prim 1).

Definition main : M (program unit) Z :=
  printf "== 01 quick start ==\n\n" [] ;;
  bytes ← serialize request;
  Dump "wire bytes" bytes ;;
  printf "\nlayout: [1B count][4B int32][4B ~utf8Len][4B utf16Len][utf8][4B float][1B bool]\n" [] ;;
  printf "        1 + 4 + 4 + 4 + 5 + 4 + 1 = %zu bytes\n\n" [Int (zlen bytes)] ;;
  back ← deserialize LoginRequest bytes;
  printf "round-tripped values\n" [] ;;
  printf "    userId   = %d\n" [Int (pval (userId back))] ;;
  printf "    userName = \q%s\q\n" [Text (bytes_of (userName back))] ;;
  printf "    level    = %.2f\n" [Double (double_of (pval (level back)))] ;;
  printf "    isAdmin  = %s\n" [Text (c_literal (if negb (pval (isAdmin back) =? 0) then "true" else "false"))] ;;
  let same := (pval (userId back) =? pval (userId request))
    && bool_decide (bytes_of (userName back) = bytes_of (userName request))
    && float_eq (pval (level back)) (pval (level request))
    && (pval (isAdmin back) =? pval (isAdmin request)) in
  printf "\nround trip %s\n" [Text (c_literal (if same then "OK" else "MISMATCH"))] ;;
  mret (if same then 0 else 1).
End Example.
End QuickStart.
