(* ===== verification/ExampleNested.v ===== *)
(** The example on nested objects and collections: [examples/02_nested_and_collections.cpp]. *)
From stdpp Require Import strings.
From S2P Require Import Prelude Endian Writer Reader Headers Utf Strings Formatter Collections Objects Assoc Nullable Api Text Console.

Module NestedAndCollections.
Record Item := MkItem { id : prim Int32; name : string }.

Record Inventory := MkInventory {
  equipped : Item;
  bag : vector Item;
  grid : vector (vector (prim Int32));
  counts : std_map string (prim Int32);
  tags : std_set (prim Int32);
  note : option string;
}.

Section Example.
Context `{Platform}.

#[local] Instance Item_members : Members Item := {
  default_value := MkItem (Prim 0) (Str []);
  members := [
    Member (prim Int32) id (λ x v, MkItem x (name v));
    Member string name (λ x v, MkItem (id v) x)] }.

#[local] Instance Inventory_members : Members Inventory := {
  default_value := MkInventory default_value (Vector []) (Vector []) (StdMap []) (StdSet []) None;
  members := [
    Member Item equipped (λ x v, MkInventory x (bag v) (grid v) (counts v) (tags v) (note v));
    Member (vector Item) bag (λ x v, MkInventory (equipped v) x (grid v) (counts v) (tags v) (note v));
    Member (vector (vector (prim Int32))) grid (λ x v, MkInventory (equipped v) (bag v) x (counts v) (tags v) (note v));
    Member (std_map string (prim Int32)) counts (λ x v, MkInventory (equipped v) (bag v) (grid v) x (tags v) (note v));
    Member (std_set (prim Int32)) tags (λ x v, MkInventory (equipped v) (bag v) (grid v) (counts v) x (note v));
    Member (option string) note (λ x v, MkInventory (equipped v) (bag v) (grid v) (counts v) (tags v) x)] }.

Definition Dump : String.string → list Z → M (program unit) unit := hex_dump.
Definition Show {T} `{!MemoryPackFormatter T} : String.string → T → String.string → M (program unit) unit := show_value.

(** The initializer lists of [main]. *)
Definition two_items : vector Item := Vector [MkItem (i32 1) (str "a"); MkItem (i32 2) (str "b")].
Definition two_rows : vector (vector (prim Int32)) := Vector [Vector [i32 1; i32 2]; Vector [i32 3]].
Definition two_counts : std_map string (prim Int32) := foldl c_insert c_clear [(str "hp", i32 100); (str "mp", i32 50)].
Definition three_tags : std_set (prim Int32) := foldl c_insert c_clear [i32 3; i32 1; i32 2].

Definition inv : Inventory := MkInventory (MkItem (i32 7) (str "axe")) two_items two_rows two_counts three_tags (Some (str "starter kit")).

Definition main : M (program unit) Z :=
  printf "== 02 nested objects and collections ==\n\n" [] ;;
  Show "Item{7, \qaxe\q}" (MkItem (i32 7) (str "axe"))
    "[02 header][07 00 00 00 id][FC FF FF FF = ~3][03 00 00 00 utf16][61 78 65]" ;;
  Show "vector<Item> of 2" two_items "[02 00 00 00] then two complete Item objects, each with its own header" ;;
  Show "vector<Item> empty" (Vector [] : vector Item) "[00 00 00 00] - an empty list, NOT null (null would be FF FF FF FF)" ;;
  Show "vector<vector<int32>>" two_rows "[02 00 00 00] [02 00 00 00][1][2] [01 00 00 00][3]" ;;
  Show "map<string,int32>" two_counts "[02 00 00 00] then key,value key,value with no pair header" ;;
  Show "set<int32>" three_tags "[03 00 00 00][1][2][3] - std::set iterates sorted" ;;
  Show "optional<string> engaged" (Some (str "hi")) "a normal string; the optional adds no bytes of its own" ;;
  Show "optional<string> null" (None : option string) "FF FF FF FF - the string null sentinel (int32 -1)" ;;
  bytes ← serialize inv;
  Dump "Inventory (all six members)" bytes ;;
  printf "    -> leading 06 is the object header: six members follow, in\n" [] ;;
  printf "       declaration order, with nothing between them.\n\n" [] ;;
  back ← deserialize Inventory bytes;
  printf "round-tripped\n" [] ;;
  printf "    equipped = {%d, \q%s\q}\n" [Int (pval (id (equipped back))); Text (bytes_of (name (equipped back)))] ;;
  printf "    bag      = %zu items" [Int (zlen (elements (bag back)))] ;;
  mapM_ (λ item, printf "  {%d,\q%s\q}" [Int (pval (id item)); Text (bytes_of (name item))]) (elements (bag back)) ;;
  printf "\n" [] ;;
  printf "    grid     = %zu rows" [Int (zlen (elements (grid back)))] ;;
  mapM_ (λ row, printf "  [%zu]" [Int (zlen (elements row))]) (elements (grid back)) ;;
  printf "\n" [] ;;
  printf "    counts   =" [] ;;
  mapM_ (λ kv, printf "  %s=%d" [Text (bytes_of kv.1); Int (pval kv.2)]) (nodes (counts back)) ;;
  printf "\n" [] ;;
  printf "    tags     =" [] ;;
  mapM_ (λ tag, printf "  %d" [Int (pval tag)]) (keys (tags back)) ;;
  printf "\n" [] ;;
  printf "    note     = %s\n" [Text (match note back with Some s => bytes_of s | None => c_literal "(null)" end)] ;;
  let same := bool_decide (name (equipped back) = name (equipped inv))
    && (zlen (elements (bag back)) =? zlen (elements (bag inv)))
    && bool_decide (grid back = grid inv)
    && bool_decide (counts back = counts inv)
    && bool_decide (tags back = tags inv)
    && bool_decide (note back = note inv) in
  printf "\nround trip %s\n" [Text (c_literal (if same then "OK" else "MISMATCH"))] ;;
  mret (if same then 0 else 1).
End Example.
End NestedAndCollections.
