(* ===== verification/ExampleNullables.v ===== *)
(** The example on the four null encodings: [examples/03_nullable.cpp]. *)
From stdpp Require Import strings.
From S2P Require Import Prelude Endian Writer Reader Headers Utf Strings Formatter Collections Objects Assoc Nullable Api Text Console.

Module Nullables.
Record Profile := MkProfile { id : prim Int32; nick : string }.

Section Example.
Context `{Platform}.

#[local] Instance Profile_members : Members Profile := {
  default_value := MkProfile (Prim 0) (Str []);
  members := [
    Member (prim Int32) id (λ x v, MkProfile x (nick v));
    Member string nick (λ x v, MkProfile (id v) x)] }.

Definition Dump : String.string → list Z → M (program bool) unit := hex_dump.
Definition Show {T} `{!MemoryPackFormatter T} : String.string → T → String.string → M (program bool) unit := show_value.
Definition Check_ : String.string → bool → M (program bool) unit := check.

(** [Deserialize<T>(Serialize(v))]. *)
Definition round_trip {T} `{!MemoryPackFormatter T} (v : T) : M (program bool) T :=
  bytes ← serialize v;
  deserialize T bytes.

Definition shows : M (program bool) unit :=
  printf "--- 1. C# `int?`  ->  std::optional<int32_t>  (Nullable<T> struct copy)\n\n" [] ;;
  Show "optional<int32_t> = 42" (Some (i32 42)) "01 | 00 00 00 (pad) | 2A 00 00 00 - hasValue byte, CLR padding, value" ;;
  Show "optional<int32_t> = null" (None : option (prim Int32)) "00 | 00 00 00 (pad) | 00 00 00 00 - still 8 bytes; only byte 0 differs" ;;
  Show "optional<double> = null" (None : option (prim Float64)) "16 bytes: alignof(double)==8 pushes the value to offset 8" ;;
  printf "--- 2. C# `string?`  ->  std::optional<std::string>  (4-byte -1 sentinel)\n\n" [] ;;
  Show "optional<string> = \qhi\q" (Some (str "hi")) "FD FF FF FF (~2 == -3) | 02 00 00 00 (utf16 len) | 68 69 ('hi')" ;;
  Show "optional<string> = \q\q" (Some (Str [])) "00 00 00 00 - EMPTY string" ;;
  Show "optional<string> = null" (None : option string) "FF FF FF FF - NULL string. Different from empty!" ;;
  printf "--- 3. C# `List<int>?`  ->  std::optional<std::vector<int32_t>>  (4-byte -1)\n\n" [] ;;
  Show "optional<vector<int32_t>> = {1,2}" (Some (Vector [i32 1; i32 2])) "02 00 00 00 | 01 00 00 00 | 02 00 00 00" ;;
  Show "optional<vector<int32_t>> = {}" (Some (Vector [] : vector (prim Int32))) "00 00 00 00 - an EMPTY list" ;;
  Show "optional<vector<int32_t>> = null" (None : option (vector (prim Int32))) "FF FF FF FF - a NULL list" ;;
  printf "--- 4. C# `MyClass?`  ->  std::optional<Profile>  (single 0xFF byte)\n\n" [] ;;
  Show "optional<Profile> = {5,\qneo\q}" (Some (MkProfile (i32 5) (str "neo"))) "02 (member count) then the two members - no extra optional byte" ;;
  Show "optional<Profile> = null" (None : option Profile) "FF - one single byte for the whole null object".

Definition sizes : M (program bool) unit :=
  printf "--- summary: sizeof(null) per kind ---\n" [] ;;
  b ← serialize (None : option (prim Int32));
  printf "    C# int?        -> %zu bytes\n" [Int (zlen b)] ;;
  b ← serialize (None : option string);
  printf "    C# string?     -> %zu bytes\n" [Int (zlen b)] ;;
  b ← serialize (None : option (vector (prim Int32)));
  printf "    C# List<int>?  -> %zu bytes\n" [Int (zlen b)] ;;
  b ← serialize (None : option Profile);
  printf "    C# MyClass?    -> %zu bytes\n\n" [Int (zlen b)].

Definition round_trips : M (program bool) unit :=
  r ← round_trip (Some (i32 42));
  Check_ "int? engaged" (bool_decide (r = Some (i32 42))) ;;
  r ← round_trip (None : option (prim Int32));
  Check_ "int? null" (negb (bool_decide (is_Some r))) ;;
  r ← round_trip (None : option string);
  Check_ "string? null stays null" (negb (bool_decide (is_Some r))) ;;
  emptyBack ← round_trip (Some (Str []));
  Check_ "string? empty stays empty (not null)" (match emptyBack with Some s => bool_decide (bytes_of s = []) | None => false end) ;;
  r ← round_trip (None : option (vector (prim Int32)));
  Check_ "List<int>? null stays null" (negb (bool_decide (is_Some r))) ;;
  emptyList ← round_trip (Some (Vector [] : vector (prim Int32)));
  Check_ "List<int>? empty stays empty (not null)" (match emptyList with Some l => (zlen (elements l) =? 0) | None => false end) ;;
  r ← round_trip (None : option Profile);
  Check_ "MyClass? null stays null" (negb (bool_decide (is_Some r))) ;;
  profile ← round_trip (Some (MkProfile (i32 5) (str "neo")));
  Check_ "MyClass? engaged" (match profile with Some p => bool_decide (nick p = str "neo") | None => false end).

Definition main : M (program bool) Z :=
  printf "== 03 the four null encodings ==\n\n" [] ;;
  shows ;;
  sizes ;;
  round_trips ;;
  ok ← gets globals;
  printf "all null encodings %s\n" [Text (c_literal (if ok : bool then "OK" else "MISMATCH"))] ;;
  mret (if ok : bool then 0 else 1).
End Example.
End Nullables.
