(* ===== verification/ExampleUnions.v ===== *)
(** The example on unions: [examples/04_union_variant.cpp]. *)
From stdpp Require Import strings.
From S2P Require Import Prelude Endian Writer Reader Headers Utf Strings Formatter Collections Objects Assoc Nullable Union Api Text Console.

Module Unions.
Record MoveCommand := MkMoveCommand { x : prim Float32; y : prim Float32 }.
Record ChatCommand := MkChatCommand { text : string }.
Record AdminCommand := MkAdminCommand { code : prim Int32 }.

(** [std::variant<MoveCommand, ChatCommand, AdminCommand>]. *)
Inductive Command := Move (c : MoveCommand) | Chat (c : ChatCommand) | Admin (c : AdminCommand).

Definition index (c : Command) : Z := match c with Move _ => 0 | Chat _ => 1 | Admin _ => 2 end.

(** [std::get]; on another alternative it throws [std::bad_variant_access], which no
    handler of the program catches. *)
Definition get {S A B} (f : A → option B) (c : A) : M S B :=
  match f c with Some b => mret b | None => undefined end.

Definition as_move (c : Command) : option MoveCommand := match c with Move m => Some m | _ => None end.
Definition as_chat (c : Command) : option ChatCommand := match c with Chat m => Some m | _ => None end.
Definition as_admin (c : Command) : option AdminCommand := match c with Admin m => Some m | _ => None end.

Section Example.
Context `{Platform}.

#[local] Instance MoveCommand_members : Members MoveCommand := {
  default_value := MkMoveCommand (Prim 0) (Prim 0);
  members := [
    Member (prim Float32) x (λ a v, MkMoveCommand a (y v));
    Member (prim Float32) y (λ a v, MkMoveCommand (x v) a)] }.

#[local] Instance ChatCommand_members : Members ChatCommand := {
  default_value := MkChatCommand (Str []);
  members := [Member string text (λ a _, MkChatCommand a)] }.

#[local] Instance AdminCommand_members : Members AdminCommand := {
  default_value := MkAdminCommand (Prim 0);
  members := [Member (prim Int32) code (λ a _, MkAdminCommand a)] }.

(** The alternatives and their [MEMORYPACK_UNION_TAG]s. *)
#[local] Instance Command_variant : Variant Command := {
  first_alternative := Move default_value;
  alternatives := [
    Alternative MoveCommand 0 Move as_move;
    Alternative ChatCommand 1 Chat as_chat;
    Alternative AdminCommand 300 Admin as_admin] }.

Definition Dump : String.string → list Z → M (program bool) unit := hex_dump.
Definition Show {T} `{!MemoryPackFormatter T} : String.string → T → String.string → M (program bool) unit := show_value.
Definition Check_ : String.string → bool → M (program bool) unit := check.

Definition Handle (command : Command) : M (program bool) unit :=
  match command with
  | Move alt => printf "    Move  x=%.1f y=%.1f\n" [Double (double_of (pval (x alt))); Double (double_of (pval (y alt)))]
  | Chat alt => printf "    Chat  \q%s\q\n" [Text (bytes_of (text alt))]
  | Admin alt => printf "    Admin code=%d\n" [Int (pval (code alt))]
  end.

Definition move_default : MoveCommand := default_value.
Definition admin_default : AdminCommand := default_value.

Definition shows : M (program bool) unit :=
  printf "--- narrow tags (< 250): one byte ---\n\n" [] ;;
  Show "Command = MoveCommand{1,2}" (Move (MkMoveCommand (f32 1 0) (f32 1 1))) "00 (tag 0) | 02 (MoveCommand object header) | 4B float | 4B float" ;;
  Show "Command = ChatCommand{\qgg\q}" (Chat (MkChatCommand (str "gg"))) "01 (tag 1) | 01 (ChatCommand header) | string 'gg'" ;;
  printf "--- wide tag (>= 250): the 250 escape + uint16 ---\n\n" [] ;;
  Show "Command = AdminCommand{7}" (Admin (MkAdminCommand (i32 7))) "FA (250 == WIDE_TAG) | 2C 01 (uint16 300) | 01 (header) | 07 00 00 00" ;;
  a ← serialize (Move move_default);
  b ← serialize move_default;
  printf "    tag 0   header cost: %zu byte(s)\n" [Int (size_sub (zlen a) (zlen b))] ;;
  a ← serialize (Admin admin_default);
  b ← serialize admin_default;
  printf "    tag 300 header cost: %zu byte(s)  <- keep hot tags below 250\n\n" [Int (size_sub (zlen a) (zlen b))] ;;
  printf "--- nullable union: std::optional<std::variant<...>> ---\n\n" [] ;;
  Show "optional<Command> = ChatCommand{\qhi\q}" (Some (Chat (MkChatCommand (str "hi")))) "01 (tag) | 01 (header) | string - the optional adds nothing" ;;
  Show "optional<Command> = null" (None : option Command) "FF - one byte for the whole null union".

(** [outgoing[0]], [outgoing[1]], [outgoing[2]]. *)
Definition outgoing0 : Command := Move (MkMoveCommand (f32 7 (-1)) (f32 (-5) (-2))).
Definition outgoing1 : Command := Chat (MkChatCommand (str "hello union")).
Definition outgoing2 : Command := Admin (MkAdminCommand (i32 42)).

Definition round_trip {T} `{!MemoryPackFormatter T} (v : T) : M (program bool) T :=
  bytes ← serialize v;
  deserialize T bytes.

Definition receiving : M (program bool) unit :=
  printf "--- receiving side ---\n" [] ;;
  mapM_ (λ command,
    received ← round_trip command;
    Check_ "variant alternative survives the round trip" (index received =? index command) ;;
    Handle received) [outgoing0; outgoing1; outgoing2] ;;
  c ← round_trip outgoing0;
  m ← get as_move c;
  Check_ "MoveCommand payload" (float_eq (pval (x m)) (float_of 7 (-1))) ;;
  c ← round_trip outgoing1;
  m ← get as_chat c;
  Check_ "ChatCommand payload" (bool_decide (text m = str "hello union")) ;;
  c ← round_trip outgoing2;
  m ← get as_admin c;
  Check_ "AdminCommand payload (wide tag)" (pval (code m) =? 42) ;;
  nullBack ← round_trip (None : option Command);
  Check_ "null union stays null" (negb (bool_decide (is_Some nullBack))) ;;
  someBack ← round_trip (Some (Admin (MkAdminCommand (i32 9))));
  Check_ "engaged nullable union" (match someBack with Some c => bool_decide (is_Some (as_admin c)) | None => false end).

Definition main : M (program bool) Z :=
  printf "== 04 unions (std::variant <-> [MemoryPackUnion]) ==\n\n" [] ;;
  shows ;;
  receiving ;;
  ok ← gets globals;
  printf "\nunions %s\n" [Text (c_literal (if ok : bool then "OK" else "MISMATCH"))] ;;
  mret (if ok : bool then 0 else 1).
End Example.
End Unions.
