(* ===== verification/ExampleUnmanaged.v ===== *)
(** The example on unmanaged structs: [examples/05_unmanaged_struct.cpp]. An object with
    padding is its bytes, so that what the padding holds is part of the state. *)
From stdpp Require Import strings.
From S2P Require Import Prelude Endian Writer Reader Headers Utf Strings Formatter Collections Objects Assoc Nullable Unmanaged DotNet Api Text Console.

Module UnmanagedStructs.

(** ** The structs *)

Record Vec3 := MkVec3 { x : Z; y : Z; z : Z }.

Definition Vec3_eq (a b : Vec3) : bool := float_eq (x a) (x b) && float_eq (y a) (y b) && float_eq (z a) (z b).

Definition vec3 (a b c : Z) : Vec3 := MkVec3 (float_of a 0) (float_of b 0) (float_of c 0).

(** [uint8_t tier] at offset 0, [int32_t score] at offset 4. *)
Record PaddedStat := MkPaddedStat { stat_bytes : list Z }.
Record PaddedStatScrubbed := MkPaddedStatScrubbed { scrubbed_bytes : list Z }.

Record ManagedVec3 := MkManagedVec3 { mx : prim Float32; my : prim Float32; mz : prim Float32 }.
Record Transform := MkTransform { position : Vec3; scale : Vec3; label : string }.

Section Example.
Context `{Platform}.

Definition tier (bytes : list Z) : Z := nth 0 bytes 0.
Definition score (bytes : list Z) : Z := of_object_bytes Int32 (slice 4 4 bytes).

(** Assignments to the members leave the padding as it is. *)
Definition set_tier (v : Z) (bytes : list Z) : list Z := overwrite 0 [v] bytes.
Definition set_score (v : Z) (bytes : list Z) : list Z := overwrite 4 (object_bytes Int32 v) bytes.

(** [memset(&stat, c, sizeof(stat)); stat.tier = 3; stat.score = 0x11223344;] *)
Definition filled (c : Z) : list Z := set_score 0x11223344 (set_tier 3 (replicate 8 c)).

Definition same_stat (a b : list Z) : bool := (tier a =? tier b) && (score a =? score b).

#[local] Instance Vec3_unmanaged : Unmanaged Vec3 := {
  um_rep := float_struct 3 (λ v, [x v; y v; z v]) (λ l, MkVec3 (nth 0 l 0) (nth 1 l 0) (nth 2 l 0));
  um_init := MkVec3 0 0 0 }.

#[local] Instance PaddedStat_unmanaged : Unmanaged PaddedStat := {
  um_rep := MkRep 8 4 stat_bytes MkPaddedStat;
  um_init := MkPaddedStat (replicate 8 0) }.

#[local] Instance PaddedStatScrubbed_scrubbed : Scrubbed PaddedStatScrubbed := {
  sc_rep := MkRep 8 4 scrubbed_bytes MkPaddedStatScrubbed;
  sc_init := MkPaddedStatScrubbed (replicate 8 0);
  sc_fields := [(0, 1); (4, 4)] }.

#[local] Instance ManagedVec3_members : Members ManagedVec3 := {
  default_value := MkManagedVec3 (Prim 0) (Prim 0) (Prim 0);
  members := [
    Member (prim Float32) mx (λ a v, MkManagedVec3 a (my v) (mz v));
    Member (prim Float32) my (λ a v, MkManagedVec3 (mx v) a (mz v));
    Member (prim Float32) mz (λ a v, MkManagedVec3 (mx v) (my v) a)] }.

#[local] Instance Transform_members : Members Transform := {
  default_value := MkTransform (MkVec3 0 0 0) (MkVec3 0 0 0) (Str []);
  members := [
    Member Vec3 position (λ a v, MkTransform a (scale v) (label v));
    Member Vec3 scale (λ a v, MkTransform (position v) a (label v));
    Member string label (λ a v, MkTransform (position v) (scale v) a)] }.

Definition Dump : String.string → list Z → M (program bool) unit := hex_dump.
Definition Check_ : String.string → bool → M (program bool) unit := check.

(** ** The parts of [main] *)

Definition v : Vec3 := MkVec3 (float_of 3 (-1)) (float_of 5 (-1)) (float_of 7 (-1)).

Definition no_header : M (program bool) unit :=
  printf "--- no object header ---\n\n" [] ;;
  vecBytes ← serialize v;
  Dump "Vec3{1.5, 2.5, 3.5} (unmanaged)" vecBytes ;;
  printf "    -> 12 bytes: three raw little-endian floats, nothing else.\n\n" [] ;;
  managedBytes ← serialize (MkManagedVec3 (f32 3 (-1)) (f32 5 (-1)) (f32 7 (-1)));
  Dump "the same three floats as a MANAGED object" managedBytes ;;
  printf "    -> 13 bytes: the leading 03 is the object header.\n" [] ;;
  printf "       Header cost avoided per value: %zu byte(s).\n\n" [Int (size_sub (zlen managedBytes) (zlen vecBytes))] ;;
  Check_ "unmanaged Vec3 has no header" (zlen vecBytes =? 12) ;;
  Check_ "managed equivalent has a header" (zlen managedBytes =? 13) ;;
  back ← deserialize Vec3 vecBytes;
  Check_ "Vec3 round trip" (Vec3_eq back v).

(** The bytes of [stat], which the next part compares with. *)
Definition padding : M (program bool) (list Z) :=
  printf "--- padding is part of the format ---\n\n" [] ;;
  let stat := filled 0 in
  statBytes ← serialize (MkPaddedStat stat);
  Dump "PaddedStat{tier=3, score=0x11223344}, zeroed first" statBytes ;;
  printf "    -> 03 | 00 00 00 (padding) | 44 33 22 11\n" [] ;;
  printf "       sizeof(PaddedStat) == %zu, matching .NET's natural alignment.\n" [Int (rep_size (um_rep (T := PaddedStat)))] ;;
  printf "       MEMORYPACK_UNMANAGED(PaddedStat, 8) is what catches layout drift.\n\n" [] ;;
  let noisy := filled 0xCD in
  noisyBytes ← serialize (MkPaddedStat noisy);
  Dump "the same value, padding left dirty" noisyBytes ;;
  printf "    -> bytes 1..3 carry whatever was in that stack slot. The VALUE\n" [] ;;
  printf "       still decodes correctly, but the BYTES are not reproducible,\n" [] ;;
  printf "       and you just sent three bytes of your own memory to the peer.\n\n" [] ;;
  back ← deserialize PaddedStat noisyBytes;
  Check_ "dirty padding still decodes" (same_stat (stat_bytes back) noisy) ;;
  b1 ← at_index noisyBytes 1;
  Check_ "dirty padding really does reach the wire" (b1 =? 0xCD) ;;
  Check_ "same value, different bytes" (negb (bool_decide (noisyBytes = statBytes))) ;;
  Check_ "PaddedStat is 8 bytes" (zlen statBytes =? 8) ;;
  back ← deserialize PaddedStat statBytes;
  Check_ "PaddedStat round trip" (same_stat (stat_bytes back) stat) ;;
  b1 ← at_index statBytes 1;
  b2 ← at_index statBytes 2;
  b3 ← at_index statBytes 3;
  Check_ "zeroed padding is actually zero" ((b1 =? 0) && (b2 =? 0) && (b3 =? 0)) ;;
  mret statBytes.

Definition scrubbed (statBytes : list Z) : M (program bool) unit :=
  printf "--- MEMORYPACK_UNMANAGED_SCRUBBED fixes it structurally ---\n\n" [] ;;
  let dirtyScrubbed := filled 0xCD in
  scrubbedBytes ← serialize (MkPaddedStatScrubbed dirtyScrubbed);
  Dump "PaddedStatScrubbed{tier=3, score=0x11223344}, padding left dirty" scrubbedBytes ;;
  printf "    -> padding is zero anyway: Serialize() never touches the caller's\n" [] ;;
  printf "       padding at all, only the value-initialized temporary's.\n\n" [] ;;
  b1 ← at_index scrubbedBytes 1;
  b2 ← at_index scrubbedBytes 2;
  b3 ← at_index scrubbedBytes 3;
  Check_ "SCRUBBED zeroes padding even from a dirty source object" ((b1 =? 0) && (b2 =? 0) && (b3 =? 0)) ;;
  Check_ "SCRUBBED bytes match the cleanly-zeroed PaddedStat bytes" (bool_decide (scrubbedBytes = statBytes)) ;;
  back ← deserialize PaddedStatScrubbed scrubbedBytes;
  Check_ "SCRUBBED round trip" (same_stat (scrubbed_bytes back) dirtyScrubbed).

Definition cloud : list Vec3 := [vec3 1 2 3; vec3 4 5 6; vec3 7 8 9].

Fixpoint points_eq (l l' : list Vec3) : bool :=
  match l, l' with
  | [], [] => true
  | a :: l, b :: l' => Vec3_eq a b && points_eq l l'
  | _, _ => false
  end.

Definition bulk : M (program bool) unit :=
  printf "--- bulk arrays (single memcpy) ---\n\n" [] ;;
  r ← on_local NewWriter (WriteUnmanagedCollection (um_rep (T := Vec3)) cloud);
  let writer := r.2 in
  Dump "vector<Vec3> of 3 via WriteUnmanagedCollection" (GetSpan writer) ;;
  printf "    -> [03 00 00 00 count][3 * 12 raw bytes] = %zu bytes,\n" [Int (w_Size writer)] ;;
  printf "       written and read back with one memcpy each way.\n\n" [] ;;
  r ← on_local (NewReader (GetSpan writer) DefaultOptions) (ReadUnmanagedCollection (um_rep (T := Vec3)));
  let '(cloudBack, reader) := r in
  Check_ "bulk array size" (w_Size writer =? 4 + 3 * 12) ;;
  Check_ "bulk array round trip" (points_eq cloudBack cloud) ;;
  Check_ "bulk array fully consumed" (IsEnd reader) ;;
  printf "    read back %zu points:" [Int (zlen cloudBack)] ;;
  mapM_ (λ p, printf " (%.0f,%.0f,%.0f)" [Double (double_of (x p)); Double (double_of (y p)); Double (double_of (z p))]) cloudBack ;;
  printf "\n\n" [].

Definition transform : Transform := MkTransform (vec3 0 1 0) (vec3 2 2 2) (str "player").

Definition nested : M (program bool) unit :=
  printf "--- unmanaged members inside a managed object ---\n\n" [] ;;
  transformBytes ← serialize transform;
  Dump "Transform{position, scale, label}" transformBytes ;;
  printf "    -> 03 (header) | 12 raw bytes | 12 raw bytes | string.\n" [] ;;
  printf "       The Vec3 members contribute no headers of their own.\n\n" [] ;;
  transformBack ← deserialize Transform transformBytes;
  Check_ "nested unmanaged members" (Vec3_eq (position transformBack) (position transform)
    && Vec3_eq (scale transformBack) (scale transform) && bool_decide (label transformBack = label transform)) ;;
  optionalBytes ← serialize (Some v);
  printf "optional<Vec3> is %zu bytes: [1B hasValue][3B pad][12B Vec3]\n" [Int (zlen optionalBytes)] ;;
  printf "(C# Nullable<Vec3>, see 03_nullable.cpp case 1)\n\n" [] ;;
  Check_ "optional<Vec3> uses the Nullable layout" (zlen optionalBytes =? 16).

Definition main : M (program bool) Z :=
  printf "== 05 unmanaged structs ==\n\n" [] ;;
  no_header ;;
  statBytes ← padding;
  scrubbed statBytes ;;
  bulk ;;
  nested ;;
  ok ← gets globals;
  printf "unmanaged structs %s\n" [Text (c_literal (if ok : bool then "OK" else "MISMATCH"))] ;;
  mret (if ok : bool then 0 else 1).
End Example.
End UnmanagedStructs.
