(* ===== verification/ExampleBuffers.v ===== *)
(** The example on fixed buffers: [examples/06_fixed_buffer.cpp]. *)
From stdpp Require Import strings.
From S2P Require Import Prelude Endian Writer Reader Headers Utf Strings Formatter Collections Objects Api Text Console.

Module FixedBuffers.
Record Telemetry := MkTelemetry { tick : prim Int32; x : prim Float32; y : prim Float32; z : prim Float32 }.

Section Example.
Context `{Platform}.

#[local] Instance Telemetry_members : Members Telemetry := {
  default_value := MkTelemetry (Prim 0) (Prim 0) (Prim 0) (Prim 0);
  members := [
    Member (prim Int32) tick (λ a v, MkTelemetry a (x v) (y v) (z v));
    Member (prim Float32) x (λ a v, MkTelemetry (tick v) a (y v) (z v));
    Member (prim Float32) y (λ a v, MkTelemetry (tick v) (x v) a (z v));
    Member (prim Float32) z (λ a v, MkTelemetry (tick v) (x v) (y v) a)] }.

Definition Dump : String.string → list Z → M (program bool) unit := hex_dump.
Definition Check_ : String.string → bool → M (program bool) unit := check.

Definition telemetry (t a b c : Z) : Telemetry := MkTelemetry (i32 t) (f32 a 0) (f32 b 0) (f32 c 0).

Definition serialize_to_array : M (program bool) unit :=
  printf "--- 1. SerializeTo into a std::array (no allocation) ---\n\n" [] ;;
  let '(o, buffer) := SerializeTo (Some (replicate 64 0)) (telemetry 1 1 2 3) in
  let buffer := default [] buffer in
  written ← lift_outcome o;
  Dump "Telemetry{1, 1, 2, 3}" (slice 0 written buffer) ;;
  printf "    -> %zu of %zu bytes used; the array lives on the stack.\n\n" [Int written; Int (zlen buffer)] ;;
  back ← deserialize Telemetry (slice 0 written buffer);
  Check_ "SerializeTo round trip" ((pval (tick back) =? 1) && float_eq (pval (z back)) (float_of 3 0)) ;;
  Check_ "SerializeTo size" (written =? 17).

(** The body of the loop; its locals are [writer] and [totalSent]. *)
Definition one_tick (s : MemoryPackWriter * Z) (t : Z) : M (program bool) (MemoryPackWriter * Z) :=
  let '(writer, totalSent) := s in
  r ← on_local writer (Clear ;; Write (telemetry t t 0 0));
  let writer := r.2 in
  let frame := GetSpan writer in
  let totalSent := size_add totalSent (zlen frame) in
  printf "    tick %d -> %zu bytes, RemainingCapacity() = %zu\n" [Int t; Int (zlen frame); Int (RemainingCapacity writer)] ;;
  back ← deserialize Telemetry frame;
  Check_ "reused-writer round trip" (pval (tick back) =? t) ;;
  mret (writer, totalSent).

Definition reused_writer : M (program bool) unit :=
  printf "--- 2. One writer, one buffer, reused per message ---\n\n" [] ;;
  let scratch := replicate 256 0 in
  let writer := WriterOfBuffer (Some scratch) (zlen scratch) in
  printf "    capacity %zu, RemainingCapacity() before any write: %zu\n" [Int (zlen scratch); Int (RemainingCapacity writer)] ;;
  s ← fold_loop one_tick [1; 2; 3] (writer, 0);
  printf "    %zu bytes produced with zero heap allocations.\n\n" [Int s.2] ;;
  Check_ "three messages sent" (s.2 =? 3 * 17) ;;
  Check_ "growable writer reports an unbounded capacity" (RemainingCapacity NewWriter =? (-1) mod size_mod).

Definition kHeaderSize : Z := 6.
Definition kPacketId : Z := 0x2A.

(** [sendBuffer.reserve] does not change what the vector holds. *)
Definition patched_header : M (program bool) unit :=
  printf "--- 3. Reserve header -> serialize -> patch length ---\n\n" [] ;;
  let sendBuffer := vector_resize 0 kHeaderSize [] in
  r ← on_local (WriterOfVector sendBuffer) (Write (telemetry 99 4 5 6));
  let writer := r.2 in
  let sendBuffer := default [] (vec_ writer) in
  Check_ "external-vector writer keeps size() exact" (w_Size writer =? zlen sendBuffer) ;;
  let bodyLength := size_sub (zlen sendBuffer) kHeaderSize in
  sendBuffer ← set_index sendBuffer 0 (Z.land kPacketId 0xFF);
  sendBuffer ← set_index sendBuffer 1 (Z.land (Z.shiftr kPacketId 8) 0xFF);
  sendBuffer ← set_index sendBuffer 2 (Z.land bodyLength 0xFF);
  sendBuffer ← set_index sendBuffer 3 (Z.land (Z.shiftr bodyLength 8) 0xFF);
  sendBuffer ← set_index sendBuffer 4 (Z.land (Z.shiftr bodyLength 16) 0xFF);
  sendBuffer ← set_index sendBuffer 5 (Z.land (Z.shiftr bodyLength 24) 0xFF);
  Dump "framed packet" sendBuffer ;;
  printf "    -> [2A 00 id][11 00 00 00 length=%zu][17-byte body]\n\n" [Int bodyLength] ;;
  Check_ "body length" (bodyLength =? 17) ;;
  back ← deserialize Telemetry (slice kHeaderSize bodyLength sendBuffer);
  Check_ "framed body round trip" ((pval (tick back) =? 99) && float_eq (pval (y back)) (float_of 5 0)).

(** The text of the exception is that of the one place that refuses the write. *)
Definition overflow : M (program bool) unit :=
  printf "--- 4. Overflowing a fixed buffer ---\n\n" [] ;;
  let tiny := replicate 8 0 in
  printf "    buffer capacity: %zu, message size: 17\n" [Int (zlen tiny)] ;;
  let '(o, tiny) := SerializeTo (Some tiny) (telemetry 1 1 2 3) in
  (if has_exceptions then
     threw ← try_catch
       (written ← lift_outcome o;
        printf "    unexpectedly wrote %zu bytes\n" [Int written] ;;
        mret false)
       (λ code offset,
        printf "    threw: %s\n" [Text (what_text (NewException code offset (Some (c_literal "fixed buffer is full"))))] ;;
        printf "    code : %s\n" [Text (ToString code)] ;;
        printf "    at   : offset %zu (where the write was refused)\n" [Int offset] ;;
        mret true);
     Check_ "overflow is reported" threw
   else
     written ← lift_outcome o;
     printf "    SerializeTo returned %zu (0 == did not fit)\n" [Int written] ;;
     Check_ "overflow is reported" (written =? 0)) ;;
  let tiny := default [] tiny in
  r ← on_local (WriterOfBuffer (Some tiny) (zlen tiny)) (WriteInt32 1 ;; WriteInt32 2);
  let writer := r.2 in
  printf "    after two int32 writes: Size()=%zu RemainingCapacity()=%zu Failed()=%s\n"
    [Int (w_Size writer); Int (RemainingCapacity writer); Text (c_literal (if w_Failed writer then "true" else "false"))] ;;
  Check_ "exactly full" ((w_Size writer =? 8) && (RemainingCapacity writer =? 0)) ;;
  Check_ "still healthy when exactly full" (negb (w_Failed writer)) ;;
  r ← on_local writer Clear;
  let writer := r.2 in
  Check_ "Clear() rewinds" ((w_Size writer =? 0) && (RemainingCapacity writer =? 8)).

Definition main : M (program bool) Z :=
  printf "== 06 fixed buffers and zero-allocation serialization ==\n\n" [] ;;
  serialize_to_array ;;
  reused_writer ;;
  patched_header ;;
  overflow ;;
  ok ← gets globals;
  printf "\nfixed buffers %s\n" [Text (c_literal (if ok : bool then "OK" else "MISMATCH"))] ;;
  mret (if ok : bool then 0 else 1).
End Example.
End FixedBuffers.
