(* ===== verification/ExampleFraming.v ===== *)
(** The example on packet framing: [examples/07_packet_framing.cpp]. *)
From stdpp Require Import strings.
From S2P Require Import Prelude Endian Writer Reader Headers Utf Strings Formatter Collections Objects Api Packet Text Console.

Module PacketFraming.
Definition PID_LOGIN : Z := 1.
Definition PID_CHAT : Z := 2.
Definition PID_HEARTBEAT : Z := 3.

Record LoginRequest := MkLoginRequest { userName : string; level : prim Int32 }.
Record ChatMessage := MkChatMessage { from : string; text : string }.
Record Heartbeat := MkHeartbeat { timestamp : prim Int64 }.

(** [g_ok] and [g_delivered]. *)
Record state := State { ok_ : bool; g_delivered : Z }.

#[export] Instance state_checked : Checked state := {| g_ok := ok_; set_failed := λ s, State false (g_delivered s) |}.

Section Example.
Context `{Platform}.

#[local] Instance LoginRequest_members : Members LoginRequest := {
  default_value := MkLoginRequest (Str []) (Prim 0);
  members := [
    Member string userName (λ a v, MkLoginRequest a (level v));
    Member (prim Int32) level (λ a v, MkLoginRequest (userName v) a)] }.

#[local] Instance ChatMessage_members : Members ChatMessage := {
  default_value := MkChatMessage (Str []) (Str []);
  members := [
    Member string from (λ a v, MkChatMessage a (text v));
    Member string text (λ a v, MkChatMessage (from v) a)] }.

#[local] Instance Heartbeat_members : Members Heartbeat := {
  default_value := MkHeartbeat (Prim 0);
  members := [Member (prim Int64) timestamp (λ a _, MkHeartbeat a)] }.

Definition Dump : String.string → list Z → M (program state) unit := hex_dump.
Definition Check_ : String.string → bool → M (program state) unit := check.

(** The packet callback: one header, one body. *)
Definition Dispatch (id : Z) (body : list Z) : M (program state) unit :=
  set_globals (λ s, State (ok_ s) (g_delivered s + 1)) ;;
  if id =? PID_LOGIN then
    value ← deserialize LoginRequest body;
    printf "    [%zu B] LOGIN     user=\q%s\q level=%d\n" [Int (zlen body); Text (bytes_of (userName value)); Int (pval (level value))] ;;
    Check_ "login body" (bool_decide (userName value = str "alice") && (pval (level value) =? 12))
  else if id =? PID_CHAT then
    value ← deserialize ChatMessage body;
    printf "    [%zu B] CHAT      %s: \q%s\q\n" [Int (zlen body); Text (bytes_of (from value)); Text (bytes_of (text value))] ;;
    Check_ "chat body" (bool_decide (from value = str "alice"))
  else if id =? PID_HEARTBEAT then
    value ← deserialize Heartbeat body;
    printf "    [%zu B] HEARTBEAT ts=%lld\n" [Int (zlen body); Int (pval (timestamp value))] ;;
    Check_ "heartbeat body" (pval (timestamp value) =? 1700000000)
  else printf "    [%zu B] (unknown packet id %u - skipped)\n" [Int (zlen body); Int id].

(** [parser.Feed(bytes, Dispatch)] on a local parser. *)
Definition feed (parser : PacketFrameParser) (bytes : list Z) : M (program state) (bool * PacketFrameParser) := λ s,
  match Feed bytes Dispatch (parser, s) with
  | (Ret ok, (parser', s')) => (Ret (ok, parser'), s')
  | (Throw e off, (_, s')) => (Throw e off, s')
  | (UB, (_, s')) => (UB, s')
  end.

(** [WritePacket(stream, id, body)]. *)
Definition write_packet {T} `{!MemoryPackFormatter T} (stream : list Z) (id : Z) (body : T) : M (program state) (list Z) :=
  let '(o, stream) := WritePacket stream id body in
  lift_outcome o ;;
  mret stream.

Definition login : LoginRequest := MkLoginRequest (str "alice") (i32 12).

Definition one_packet : M (program state) unit :=
  printf "--- 1. one packet, header decoded ---\n\n" [] ;;
  packet ← lift_outcome (MakePacket PID_LOGIN login);
  Dump "MakePacket(PID_LOGIN, LoginRequest{\qalice\q, 12})" packet ;;
  let header := PeekPacketHeader packet in
  Check_ "header decodes" (bool_decide (is_Some header)) ;;
  (match header with
   | Some header =>
       printf "    -> id = %u, bodyLength = %d, header size = %zu\n" [Int (ph_id header); Int (ph_bodyLength header); Int HeaderSize_] ;;
       Check_ "header id" (ph_id header =? PID_LOGIN) ;;
       Check_ "header length" (ph_bodyLength header mod size_mod =? size_sub (zlen packet) HeaderSize_)
   | None => mret tt
   end) ;;
  let partial := PeekPacketHeader (slice 0 3 packet) in
  Check_ "short header returns nullopt" (negb (bool_decide (is_Some partial))) ;;
  printf "    -> PeekPacketHeader on 3 bytes: %s\n\n"
    [Text (c_literal (if bool_decide (is_Some partial) then "decoded (wrong!)" else "nullopt, need more bytes"))].

Definition three_packets : M (program state) (list Z) :=
  printf "--- 2. three packets in one send buffer ---\n\n" [] ;;
  stream ← write_packet [] PID_LOGIN login;
  stream ← write_packet stream PID_CHAT (MkChatMessage (str "alice") (str "hello framing"));
  stream ← write_packet stream PID_HEARTBEAT (MkHeartbeat (Prim 1700000000));
  Dump "the wire stream" stream ;;
  printf "\n" [] ;;
  mret stream.

Definition kChunk : Z := 7.

(** The receive loop from [offset] on; every round moves the offset by at least a byte. *)
Fixpoint receive (fuel : nat) (chunk : Z) (stream : list Z) (offset : Z) (parser : PacketFrameParser) : M (program state) PacketFrameParser :=
  if offset <? zlen stream then
    match fuel with
    | O => undefined
    | S fuel' =>
        let n := if size_sub (zlen stream) offset <? chunk then size_sub (zlen stream) offset else chunk in
        printf "  feed %zu byte(s) at offset %zu (buffered before: %zu)\n" [Int n; Int offset; Int (Buffered parser)] ;;
        r ← feed parser (slice offset n stream);
        Check_ "stream stays healthy" r.1 ;;
        receive fuel' chunk stream (size_add offset chunk) r.2
    end
  else mret parser.

(** [size_t maxBodyLength = 8u * 1024u * 1024u]. *)
Definition default_parser : PacketFrameParser := NewParser (8 * 1024 * 1024).

Definition reassembly (stream : list Z) : M (program state) unit :=
  printf "--- 3. reassembly from 7-byte chunks ---\n\n" [] ;;
  parser ← receive (length stream) kChunk stream 0 default_parser;
  delivered ← gets (λ s, g_delivered (globals s));
  printf "\n    delivered %d packets, %zu byte(s) left buffered\n\n" [Int delivered; Int (Buffered parser)] ;;
  Check_ "all three packets delivered" (delivered =? 3) ;;
  Check_ "nothing left over" (Buffered parser =? 0).

Definition single_chunk (stream : list Z) : M (program state) unit :=
  printf "--- 4. the same stream in a single chunk ---\n\n" [] ;;
  set_globals (λ s, State (ok_ s) 0) ;;
  r ← feed default_parser stream;
  Check_ "single-chunk feed succeeds" r.1 ;;
  delivered ← gets (λ s, g_delivered (globals s));
  printf "\n    delivered %d packets\n\n" [Int delivered] ;;
  Check_ "single chunk delivers the same three" (delivered =? 3).

(** The callback of the last part only counts. *)
Definition absurd_length : M (program state) unit :=
  printf "--- 5. rejecting an absurd declared length ---\n\n" [] ;;
  let guarded := NewParser 1024 in
  printf "    MaxBodyLength = %zu\n" [Int (MaxBodyLength guarded)] ;;
  let hostile := replicate (Z.to_nat HeaderSize_) 0 in
  hostile ← set_index hostile 0 0x01;
  hostile ← set_index hostile 2 0xFF;
  hostile ← set_index hostile 3 0xFF;
  hostile ← set_index hostile 4 0xFF;
  hostile ← set_index hostile 5 0x7F;
  r ← on_local (guarded, 0) (Feed hostile (λ _ _, modify (Z.add 1)));
  let '(healthy, (guarded, delivered)) := r in
  printf "    header claims a %d byte body -> Feed() returned %s\n" [Int 0x7FFFFFFF; Text (c_literal (if healthy : bool then "true" else "false"))] ;;
  printf "    packets delivered: %d, parser buffer reset: %s\n\n"
    [Int delivered; Text (c_literal (if Buffered guarded =? 0 then "yes" else "no"))] ;;
  Check_ "hostile length rejected" (negb healthy) ;;
  Check_ "nothing delivered" (delivered =? 0) ;;
  Check_ "parser dropped its buffer" (Buffered guarded =? 0).

Definition main : M (program state) Z :=
  printf "== 07 packet framing over a TCP-like stream ==\n\n" [] ;;
  one_packet ;;
  stream ← three_packets;
  reassembly stream ;;
  single_chunk stream ;;
  absurd_length ;;
  ok ← gets (λ s, ok_ (globals s));
  printf "packet framing %s\n" [Text (c_literal (if ok : bool then "OK" else "MISMATCH"))] ;;
  mret (if ok : bool then 0 else 1).
End Example.
End PacketFraming.
