(* ===== verification/ExampleErrors.v ===== *)
(** The example on malformed input: [examples/08_error_handling.cpp], built with
    [std::expected]. *)
From stdpp Require Import strings.
From S2P Require Import Prelude Endian Writer Reader Headers Utf Strings Formatter Collections Objects Api Text Console.

Module ErrorHandling.
Record Packet := MkPacket { id : prim Int32; name : string }.
Record Inner := MkInner { v : prim Int32 }.
Record Outer := MkOuter { inner : Inner }.

Section Example.
Context `{Platform}.

#[local] Instance Packet_members : Members Packet := {
  default_value := MkPacket (Prim 0) (Str []);
  members := [
    Member (prim Int32) id (λ a p, MkPacket a (name p));
    Member string name (λ a p, MkPacket (id p) a)] }.

#[local] Instance Inner_members : Members Inner := {
  default_value := MkInner (Prim 0);
  members := [Member (prim Int32) v (λ a _, MkInner a)] }.

#[local] Instance Outer_members : Members Outer := {
  default_value := MkOuter (MkInner (Prim 0));
  members := [Member Inner inner (λ a _, MkOuter a)] }.

Definition Dump : String.string → list Z → M (program bool) unit := hex_dump.
Definition Check_ : String.string → bool → M (program bool) unit := check.

(** [attempt] returns the error state of its reader, or throws where there are exceptions. *)
Definition ExpectFailure (what : String.string) (attempt : M (program bool) MemoryPackError) : M (program bool) unit :=
  (if has_exceptions then
     try_catch
       (code ← attempt;
        printf "  %-38s -> error state: %s\n" [Text (c_literal what); Text (ToString code)] ;;
        mret (Some code))
       (λ code offset,
        printf "  %-38s -> threw: %s\n" [Text (c_literal what); Text (ToString code)] ;;
        printf "  %-38s    at offset %zu\n" [Text []; Int offset] ;;
        Check_ what (bool_decide (code ≠ NoError)) ;;
        mret None)
   else
     code ← attempt;
     printf "  %-38s -> error state: %s\n" [Text (c_literal what); Text (ToString code)] ;;
     mret (Some code)) ≫= λ code,
  match code with
  | Some code => Check_ what (bool_decide (code ≠ NoError))
  | None => mret tt
  end.

(** [MemoryPackReader reader(bytes, options); read; return reader.Error();] *)
Definition attempt {A} (bytes : list Z) (options : ReaderOptions) (read : R A) : M (program bool) MemoryPackError :=
  r ← on_local (NewReader bytes options) read;
  mret (error_ r.2).

Definition bounds : M (program bool) unit :=
  printf "--- 1. bounds-checked reads ---\n\n" [] ;;
  full ← serialize (MkPacket (i32 7) (str "hello"));
  Dump "a valid packet" full ;;
  printf "\n" [] ;;
  let truncated := slice 0 7 full in
  Dump "the same packet, truncated to 7 bytes" truncated ;;
  ExpectFailure "reading a truncated payload" (attempt truncated DefaultOptions (ReadInto (default_value (V := Packet)))) ;;
  ExpectFailure "reading past the end of an empty input" (attempt [] DefaultOptions ReadInt64) ;;
  ExpectFailure "reserved object header value" (attempt [0xFC] DefaultOptions ReadObjectHeader) ;;
  ExpectFailure "collection longer than the input"
    (attempt [0xFF; 0xFF; 0xFF; 0x7F; 0x01; 0x02; 0x03; 0x04] DefaultOptions (ReadVector Int32)) ;;
  printf "\n" [].

(** Default options but for one limit. *)
Definition with_collections (n : Z) : ReaderOptions := MkOptions n (maxStringLength DefaultOptions) (maxDepth DefaultOptions).
Definition with_strings (n : Z) : ReaderOptions := MkOptions (maxCollectionLength DefaultOptions) n (maxDepth DefaultOptions).
Definition with_depth (n : Z) : ReaderOptions := MkOptions (maxCollectionLength DefaultOptions) (maxStringLength DefaultOptions) n.

Definition limits : M (program bool) unit :=
  printf "--- 2. ReaderOptions limits ---\n\n" [] ;;
  list_ ← serialize (Vector (i32 <$> [1; 2; 3; 4; 5]));
  ExpectFailure "5 elements, maxCollectionLength = 3" (attempt list_ (with_collections 3) (ReadVector Int32)) ;;
  r ← on_local (NewReader list_ (with_collections 1000)) (ReadVector Int32);
  let '(values, reader) := r in
  printf "  %-38s -> accepted, %zu elements\n" [Text (c_literal "5 elements, maxCollectionLength = 1000"); Int (zlen values)] ;;
  Check_ "legit payload still accepted" (negb (Failed reader) && (zlen values =? 5)) ;;
  text ← serialize (str "abcdefghij");
  ExpectFailure "10-byte string, maxStringLength = 4" (attempt text (with_strings 4) ReadString) ;;
  nested ← serialize (MkOuter (MkInner (i32 42)));
  ExpectFailure "2 levels of nesting, maxDepth = 1" (attempt nested (with_depth 1) (Read (T := Outer))) ;;
  r ← on_local (NewReader nested (with_depth 2)) (Read (T := Outer));
  let '(value, reader) := r in
  printf "  %-38s -> accepted, inner.v = %d\n" [Text (c_literal "2 levels of nesting, maxDepth = 2"); Int (pval (v (inner value)))] ;;
  Check_ "nesting within the limit is accepted" (negb (Failed reader) && (pval (v (inner value)) =? 42)) ;;
  printf "\n" [].

Definition trailing : M (program bool) unit :=
  printf "--- 3. DeserializeExact catches trailing bytes ---\n\n" [] ;;
  bytes ← serialize (MkPacket (i32 1) (str "x"));
  let bytes := bytes ++ [0xAA] ++ [0xBB] in
  lenient ← deserialize Packet bytes;
  printf "  Deserialize      -> id=%d name=\q%s\q (2 stray bytes ignored)\n" [Int (pval (id lenient)); Text (bytes_of (name lenient))] ;;
  Check_ "lenient deserialize succeeds" (pval (id lenient) =? 1) ;;
  ExpectFailure "DeserializeExact with 2 stray bytes"
    (attempt bytes DefaultOptions (ReadInto (default_value (V := Packet)) ;; RequireEnd)) ;;
  printf "\n" [].

Definition expected_api : M (program bool) unit :=
  printf "--- 4. std::expected API ---\n\n" [] ;;
  good ← serialize (MkPacket (i32 4) (str "ok"));
  parsed ← lift_outcome (TryDeserialize (T := Packet) good);
  (match parsed with
   | inr parsed => printf "  TryDeserialize(valid)     -> id=%d name=\q%s\q\n" [Int (pval (id parsed)); Text (bytes_of (name parsed))]
   | inl error => printf "  TryDeserialize(valid)     -> UNEXPECTED failure: %s\n" [Text (ToString error)]
   end) ;;
  Check_ "TryDeserialize succeeds on valid input" (match parsed with inr _ => true | inl _ => false end) ;;
  failed ← lift_outcome (TryDeserialize (T := Packet) [0x02; 0x01]);
  printf "  TryDeserialize(truncated) -> %s\n" [Text (match failed with inr _ => c_literal "unexpectedly ok" | inl error => ToString error end)] ;;
  Check_ "TryDeserialize reports truncation" (match failed with inr _ => false | inl error => bool_decide (error = BufferUnderflow) end) ;;
  overflowed ← lift_outcome (TrySerializeTo (Some (replicate 4 0)) (MkPacket (i32 1) (str "far too long"))).1;
  printf "  TrySerializeTo(4-byte buf)-> %s\n" [Text (match overflowed with inr _ => c_literal "unexpectedly ok" | inl error => ToString error end)] ;;
  Check_ "TrySerializeTo reports overflow" (match overflowed with inr _ => false | inl error => bool_decide (error = BufferOverflow) end) ;;
  written ← lift_outcome (TrySerializeTo (Some (replicate 64 0)) (MkPacket (i32 1) (str "fits"))).1;
  printf "  TrySerializeTo(64-byte buf)-> %zu bytes written\n" [Int (match written with inr n => n | inl _ => 0 end)] ;;
  Check_ "TrySerializeTo succeeds when it fits" (match written with inr _ => true | inl _ => false end).

Definition main : M (program bool) Z :=
  printf "== 08 error handling and hostile input ==\n\n" [] ;;
  bounds ;;
  limits ;;
  trailing ;;
  expected_api ;;
  ok ← gets globals;
  printf "\nerror handling %s\n" [Text (c_literal (if ok : bool then "OK" else "MISMATCH"))] ;;
  mret (if ok : bool then 0 else 1).
End Example.
End ErrorHandling.
