(* ===== verification/ExampleVersions.v ===== *)
(** The example on schema evolution: [examples/09_version_tolerance.cpp]. *)
From stdpp Require Import strings.
From S2P Require Import Prelude Endian Writer Reader Headers Utf Strings Formatter Collections Objects VersionTolerant Api Text Console.

Module VersionTolerance.
Record PlayerV1 := MkPlayerV1 { id1 : prim Int32; name1 : string }.
Record PlayerV2 := MkPlayerV2 { id2 : prim Int32; name2 : string; score2 : prim Float32 }.

Section Example.
Context `{Platform}.

#[local] Instance PlayerV1_members : Members PlayerV1 := {
  default_value := MkPlayerV1 (Prim 0) (Str []);
  members := [
    Member (prim Int32) id1 (λ a v, MkPlayerV1 a (name1 v));
    Member string name1 (λ a v, MkPlayerV1 (id1 v) a)] }.

#[local] Instance PlayerV2_members : Members PlayerV2 := {
  default_value := MkPlayerV2 (Prim 0) (Str []) (f32 (-1) 0);
  members := [
    Member (prim Int32) id2 (λ a v, MkPlayerV2 a (name2 v) (score2 v));
    Member string name2 (λ a v, MkPlayerV2 (id2 v) a (score2 v));
    Member (prim Float32) score2 (λ a v, MkPlayerV2 (id2 v) (name2 v) a)] }.

Definition Dump : String.string → list Z → M (program bool) unit := hex_dump.
Definition Check_ : String.string → bool → M (program bool) unit := check.

(** A1: new code, old bytes. *)
Definition v2_reads_v1 : M (program bool) unit :=
  printf "--- A1. V2 reads V1 bytes (missing member keeps its default) ---\n\n" [] ;;
  v1Bytes ← serialize (MkPlayerV1 (i32 7) (str "old"));
  Dump "PlayerV1{7, \qold\q}" v1Bytes ;;
  printf "    -> leading 02: only two members were written.\n\n" [] ;;
  asV2 ← deserialize PlayerV2 v1Bytes;
  printf "    read as PlayerV2: id=%d name=\q%s\q score=%.1f\n\n"
    [Int (pval (id2 asV2)); Text (bytes_of (name2 asV2)); Double (double_of (pval (score2 asV2)))] ;;
  Check_ "V2 reads V1 id" (pval (id2 asV2) =? 7) ;;
  Check_ "V2 reads V1 name" (bool_decide (name2 asV2 = str "old")) ;;
  Check_ "V2 keeps its default for the absent member" (float_eq (pval (score2 asV2)) (float_of (-1) 0)).

(** A2: old code, new bytes. *)
Definition v1_reads_v2 (v2Bytes : list Z) : M (program bool) unit :=
  Dump "PlayerV2{9, \qnew\q, 12.5}" v2Bytes ;;
  printf "    -> leading 03, and four extra bytes for the float.\n\n" [] ;;
  asV1 ← deserialize PlayerV1 v2Bytes;
  printf "    read as PlayerV1: id=%d name=\q%s\q  (score dropped)\n\n" [Int (pval (id1 asV1)); Text (bytes_of (name1 asV1))] ;;
  Check_ "V1 reads V2 id" (pval (id1 asV1) =? 9) ;;
  Check_ "V1 reads V2 name" (bool_decide (name1 asV1 = str "new")).

(** [MemoryPackWriter tail(stream); tail.WriteInt32(0x5A5A5A5A);] *)
Definition with_sentinel (stream : list Z) : M (program bool) (list Z) :=
  r ← on_local (WriterOfVector stream) (WriteInt32 0x5A5A5A5A);
  mret (default [] (vec_ r.2)).

(** A3: what follows the object is misread. *)
Definition misaligned (v2Bytes : list Z) : M (program bool) unit :=
  printf "--- A3. why that is not enough: the reader ends up misaligned ---\n\n" [] ;;
  stream ← with_sentinel v2Bytes;
  r ← on_local (NewReader stream DefaultOptions) (asV1 ← Read (T := PlayerV1); sentinel ← ReadInt32; mret (asV1, sentinel));
  let '((asV1, sentinel), reader) := r in
  printf "    object read as V1: id=%d name=\q%s\q\n" [Int (pval (id1 asV1)); Text (bytes_of (name1 asV1))] ;;
  printf "    next value expected 0x5A5A5A5A, actually read 0x%08X\n" [Int (sentinel mod 2 ^ 32)] ;;
  printf "    -> the stream is DESYNCED: V1 stopped %zu bytes early.\n\n" [Int (size_sub (zlen stream) (pos_ reader))] ;;
  Check_ "default layout does desync an old reader" (negb (sentinel =? 0x5A5A5A5A)).

(** B1: the object [vt] flushes when its scope ends. *)
Definition vt_layout : M (program bool) (list Z) :=
  printf "--- B1. the VersionTolerant layout ---\n\n" [] ;;
  r ← on_local (NewVTWriter NewWriter)
    (WriteMember (i32 77) ;; WriteMember (str "legacy-mode") ;; WriteMember (f32 1 (-1)) ;; vt_Destroy);
  let writer := vt_out r.2 in
  let vtBytes := GetSpan writer in
  Dump "VersionTolerant object with 3 members" vtBytes ;;
  printf "    -> 03            member count\n" [] ;;
  printf "       04 13 04      the three member byte-lengths\n" [] ;;
  printf "       4D 00 00 00   member 0: int32 77\n" [] ;;
  printf "       ...           member 1: string \qlegacy-mode\q\n" [] ;;
  printf "       00 00 00 3F   member 2: float 0.5\n\n" [] ;;
  mret vtBytes.

(** [VersionTolerantReader vt(reader);] *)
Definition open_vt (bytes : list Z) : M (program bool) VersionTolerantReader :=
  r ← on_local (NewReader bytes DefaultOptions) NewVTReader;
  let '((lengths, count, next, null), reader) := r in
  mret (MkVTReader reader lengths count 0 next null).

(** B2: a member that is skipped. *)
Definition skipping (vtBytes : list Z) : M (program bool) unit :=
  printf "--- B2. skipping an unknown member ---\n\n" [] ;;
  vt ← open_vt vtBytes;
  printf "    sender wrote %u member(s)\n" [Int (vr_Count vt)] ;;
  Check_ "VT object is not null" (negb (vr_IsNull vt)) ;;
  Check_ "VT member count" (vr_Count vt =? 3) ;;
  r ← on_local vt (ReadMember (i32 0));
  let '((ok, id), vt) := r in
  Check_ "read member 0" ok ;;
  r ← on_local vt SkipMember;
  let '(ok, vt) := r in
  Check_ "skip member 1" ok ;;
  r ← on_local vt (ReadMember (f32 0 0));
  let '((ok, score), vt) := r in
  Check_ "read member 2" ok ;;
  r ← on_local vt vr_Finish;
  printf "    id = %d, (member 1 skipped without decoding), score = %.1f\n\n" [Int (pval id); Double (double_of (pval score))] ;;
  Check_ "id survived the skip" (pval id =? 77) ;;
  Check_ "score survived the skip" (float_eq (pval score) (float_of 1 (-1))).

(** B3: an old reader stays aligned. *)
Definition aligned (vtBytes : list Z) : M (program bool) unit :=
  printf "--- B3. an old reader stays aligned (compare with A3) ---\n\n" [] ;;
  stream ← with_sentinel vtBytes;
  vt ← open_vt stream;
  r ← on_local vt (r ← ReadMember (i32 0); vr_Finish ;; mret r.2);
  let '(id, vt) := r in
  r ← on_local (vr_in vt) ReadInt32;
  let sentinel := r.1 in
  printf "    id = %d, next value = 0x%08X (expected 0x5A5A5A5A)\n" [Int (pval id); Int (sentinel mod 2 ^ 32)] ;;
  printf "    -> still aligned; the two unknown members were skipped exactly.\n\n" [] ;;
  Check_ "VT reader stays aligned" (sentinel =? 0x5A5A5A5A) ;;
  Check_ "VT reader got the known member" (pval id =? 77).

Definition cost (vtBytes : list Z) : M (program bool) unit :=
  printf "--- cost of the two layouts ---\n\n" [] ;;
  bytes ← serialize (MkPlayerV2 (i32 77) (str "legacy-mode") (f32 1 (-1)));
  let defaultSize := zlen bytes in
  printf "    default layout      : %zu bytes\n" [Int defaultSize] ;;
  printf "    VersionTolerant     : %zu bytes  (+%zu for the length prefixes)\n\n" [Int (zlen vtBytes); Int (size_sub (zlen vtBytes) defaultSize)].

Definition main : M (program bool) Z :=
  printf "== 09 version tolerance ==\n\n" [] ;;
  v2_reads_v1 ;;
  printf "--- A2. V1 reads V2 bytes (extra member ignored) ---\n\n" [] ;;
  v2Bytes ← serialize (MkPlayerV2 (i32 9) (str "new") (f32 25 (-1)));
  v1_reads_v2 v2Bytes ;;
  misaligned v2Bytes ;;
  vtBytes ← vt_layout;
  skipping vtBytes ;;
  aligned vtBytes ;;
  cost vtBytes ;;
  printf "rules of thumb\n" [] ;;
  printf "    * default layout: only ever APPEND members, at the end\n" [] ;;
  printf "    * never reorder, never remove, never change a member's type\n" [] ;;
  printf "    * frame your messages so a stale reader cannot desync the stream\n" [] ;;
  printf "    * reach for VersionTolerant only for persisted / slow-moving data\n\n" [] ;;
  ok ← gets globals;
  printf "version tolerance %s\n" [Text (c_literal (if ok : bool then "OK" else "MISMATCH"))] ;;
  mret (if ok : bool then 0 else 1).
End Example.
End VersionTolerance.
