(* ===== verification/ExampleDotNet.v ===== *)
(** The example on .NET value types: [examples/10_dotnet_types.cpp]. The period of
    [std::chrono::system_clock] and the time it shows are parameters. *)
From stdpp Require Import strings.
From S2P Require Import Prelude Endian Writer Reader Headers Utf Strings Formatter Collections Objects Unmanaged DotNet Api Text Console.

Module DotNetTypes.
Record SessionRecord := MkSessionRecord { sessionId : Guid; startedAt : DateTime; duration : TimeSpan; quality : Half }.

Definition set_sessionId (g : Guid) (r : SessionRecord) : SessionRecord := MkSessionRecord g (startedAt r) (duration r) (quality r).

(** [operator==]. *)
#[export] Instance Guid_eq_dec : EqDecision Guid.
Proof. solve_decision. Defined.
#[export] Instance DateTime_eq_dec : EqDecision DateTime.
Proof. solve_decision. Defined.
#[export] Instance DateTimeOffset_eq_dec : EqDecision DateTimeOffset.
Proof. solve_decision. Defined.

Section Example.
Context `{Platform}.

#[local] Instance SessionRecord_members : Members SessionRecord := {
  default_value := MkSessionRecord value_init value_init value_init value_init;
  members := [
    Member Guid sessionId set_sessionId;
    Member DateTime startedAt (λ a v, MkSessionRecord (sessionId v) a (duration v) (quality v));
    Member TimeSpan duration (λ a v, MkSessionRecord (sessionId v) (startedAt v) a (quality v));
    Member Half quality (λ a v, MkSessionRecord (sessionId v) (startedAt v) (duration v) a)] }.

Definition Dump : String.string → list Z → M (program bool) unit := hex_dump.
Definition Check_ : String.string → bool → M (program bool) unit := check.

(** A computation that is undefined where [int64_t] overflows. *)
Definition defined {A} (o : option A) : M (program bool) A := match o with Some a => mret a | None => undefined end.

Definition guid_text : list Z := c_literal "01020304-0506-0708-090a-0b0c0d0e0f10".

Definition guids : M (program bool) unit :=
  printf "--- 1. System.Guid ---\n\n" [] ;;
  let parsed := Guid_Parse guid_text in
  Check_ "Guid parses" (bool_decide (is_Some parsed)) ;;
  (match parsed with
   | Some parsed =>
       printf "    parsed  : %s\n" [Text (Guid_ToString parsed)] ;;
       bytes ← serialize parsed;
       Dump "    on the wire" bytes ;;
       printf "    -> 04 03 02 01 | 06 05 | 08 07 | 09 0A 0B 0C 0D 0E 0F 10\n" [] ;;
       printf "       ^ uint32 LE   ^u16 LE ^u16 LE ^ eight bytes in order\n\n" [] ;;
       Check_ "Guid is 16 bytes" (zlen bytes =? 16) ;;
       back ← deserialize Guid bytes;
       Check_ "Guid round trip" (bool_decide (back = parsed)) ;;
       Check_ "Guid text round trip" (bool_decide (Guid_ToString parsed = guid_text))
   | None => mret tt
   end) ;;
  Check_ "bad Guid text rejected" (negb (bool_decide (is_Some (Guid_Parse (c_literal "not-a-guid"))))) ;;
  Check_ "short Guid text rejected" (negb (bool_decide (is_Some (Guid_Parse (c_literal "01020304-0506-0708-090a-0b0c0d0e0f1"))))) ;;
  printf "    Guid::Parse(\qnot-a-guid\q) -> nullopt (no exception, no garbage)\n\n" [].

Definition date_times : M (program bool) unit :=
  printf "--- 2. System.DateTime ---\n\n" [] ;;
  let dt := FromTicks 638000000000000000 (kind_value Utc) in
  printf "    ticks   : %lld\n" [Int (GetTicks dt)] ;;
  printf "    kind    : %u (0=Unspecified 1=Utc 2=Local)\n" [Int (GetKind dt)] ;;
  printf "    dateData: 0x%016llX  <- kind is packed into the top 2 bits\n" [Int (dateData dt)] ;;
  bytes ← serialize dt;
  Dump "    on the wire" bytes ;;
  printf "    -> a single little-endian uint64; the last byte carries both the\n" [] ;;
  printf "       top bits of the tick count and the 2-bit Kind (0x40 == Utc).\n\n" [] ;;
  Check_ "DateTime is 8 bytes" (zlen bytes =? 8) ;;
  back ← deserialize DateTime bytes;
  Check_ "DateTime round trip" (bool_decide (back = dt)) ;;
  Check_ "DateTime kind survives" (GetKind dt =? kind_value Utc) ;;
  Check_ "DateTime ticks survive" (GetTicks dt =? 638000000000000000).

Definition seconds : Z * Z := (1, 1).
Definition minutes : Z * Z := (60, 1).

(** [now] in units of [clock], and there and back. *)
Definition chrono (clock : Z * Z) (now : Z) : M (program bool) unit :=
  asDt ← defined (FromTimePoint clock now);
  back ← defined (ToTimePoint clock asDt);
  distance ← defined (int64 (if back >? now then back - now else now - back));
  drift ← defined (duration_cast clock seconds distance);
  printf "    std::chrono::now() -> DateTime -> time_point drift: %lld s\n" [Int drift] ;;
  printf "    (FromTimePoint stamps Kind=Utc, since a time_point is an instant)\n\n" [] ;;
  Check_ "chrono round trip is lossless to the second" (drift =? 0) ;;
  Check_ "FromTimePoint marks the value as UTC" (GetKind asDt =? kind_value Utc).

Definition time_spans : M (program bool) unit :=
  printf "--- 3. System.TimeSpan ---\n\n" [] ;;
  span ← defined (FromDuration seconds 90);
  printf "    90 s          = %lld ticks\n" [Int (ticks span)] ;;
  nanos ← defined (ToDuration span);
  printf "    back to chrono= %lld ns\n" [Int nanos] ;;
  bytes ← serialize span;
  Dump "    on the wire" bytes ;;
  printf "    -> int64 little-endian, nothing else.\n\n" [] ;;
  Check_ "TimeSpan is 8 bytes" (zlen bytes =? 8) ;;
  Check_ "TimeSpan ticks" (ticks span =? 900000000) ;;
  nanos ← defined (ToDuration span);
  Check_ "TimeSpan to chrono" (nanos =? 90 * 1000000000) ;;
  back ← deserialize TimeSpan bytes;
  Check_ "TimeSpan round trip" (ticks back =? ticks span) ;;
  tiny ← defined (FromDuration nano_period 150);
  printf "    150 ns        = %lld ticks (a tick is 100 ns, so this truncates)\n\n" [Int (ticks tiny)] ;;
  Check_ "sub-tick precision truncates" (ticks tiny =? 1).

(** The floats of the loop. *)
Definition exact_floats : list Z :=
  [float_of 0 0; float_of 1 0; float_of (-1) 0; float_of 1 (-1); float_of 3 (-1); float_of (-1) (-2); float_of 2047 5].

Definition halves : M (program bool) unit :=
  printf "--- 4. System.Half ---\n\n" [] ;;
  let quality := FromFloat (float_of 3 (-2)) in
  f ← defined (ToFloat quality);
  printf "    0.75f -> bits 0x%04X -> %.4f\n" [Int (DotNet.bits quality); Double (double_of f)] ;;
  bytes ← serialize quality;
  Dump "    on the wire" bytes ;;
  printf "    -> two bytes, little-endian.\n\n" [] ;;
  Check_ "Half is 2 bytes" (zlen bytes =? 2) ;;
  back ← deserialize Half bytes;
  Check_ "Half round trip" (DotNet.bits back =? DotNet.bits quality) ;;
  printf "    exactly representable values survive:\n" [] ;;
  mapM_ (λ f,
    back ← defined (ToFloat (FromFloat f));
    printf "        %10.4f -> %10.4f  %s\n"
      [Double (double_of f); Double (double_of back); Text (c_literal (if float_eq back f then "exact" else "LOSSY"))] ;;
    Check_ "Half round trips an exactly representable value" (float_eq back f)) exact_floats ;;
  printf "        %10.4f -> overflows to infinity (max finite Half is 65504)\n\n" [Double (double_of (float_of 100000 0))].

Definition session_record : M (program bool) unit :=
  printf "--- 5. a record using all four ---\n\n" [] ;;
  let parsed := Guid_Parse (c_literal "2f9a1c40-1111-2222-3333-444455556666") in
  Check_ "session guid parses" (bool_decide (is_Some parsed)) ;;
  span ← defined (FromDuration minutes 3);
  let record := MkSessionRecord (default value_init parsed) (FromTicks 638000000000000000 (kind_value Utc)) span (FromFloat (float_of 3 (-2))) in
  bytes ← serialize record;
  Dump "SessionRecord" bytes ;;
  printf "    -> 04 (object header) | 16 Guid | 8 DateTime | 8 TimeSpan | 2 Half\n" [] ;;
  printf "       = 1 + 16 + 8 + 8 + 2 = %zu bytes, with no per-member framing.\n\n" [Int (zlen bytes)] ;;
  Check_ "SessionRecord size" (zlen bytes =? 35) ;;
  back ← deserialize SessionRecord bytes;
  printf "    round-tripped\n" [] ;;
  printf "        sessionId = %s\n" [Text (Guid_ToString (sessionId back))] ;;
  printf "        startedAt = %lld ticks, kind %u\n" [Int (GetTicks (startedAt back)); Int (GetKind (startedAt back))] ;;
  printf "        duration  = %lld ticks (%lld s)\n" [Int (ticks (duration back)); Int (Z.quot (ticks (duration back)) TICKS_PER_SECOND)] ;;
  f ← defined (ToFloat (quality back));
  printf "        quality   = %.4f\n\n" [Double (double_of f)] ;;
  Check_ "record guid" (bool_decide (sessionId back = sessionId record)) ;;
  Check_ "record datetime" (bool_decide (startedAt back = startedAt record)) ;;
  Check_ "record timespan" (ticks (duration back) =? ticks (duration record)) ;;
  Check_ "record half" (DotNet.bits (quality back) =? DotNet.bits (quality record)).

Definition dto : DateTimeOffset := MkDateTimeOffset (9 * 60) (FromTicks 638000000000000000 (kind_value Unspecified)).
Definition dec : Decimal := value_init.
Definition i128 : Int128 := MkInt128 0x0123456789ABCDEF 1.
Definition v3 : Vector3 := MkVector3 (float_of 1 0) (float_of 2 0) (float_of 3 0).

(** [Serialize(v).size()] *)
Definition size_of {T} `{!MemoryPackFormatter T} (v : T) : M (program bool) Z := bytes ← serialize v; mret (zlen bytes).

Definition the_rest : M (program bool) unit :=
  printf "--- 6. the rest of dotnet.hpp ---\n\n" [] ;;
  n ← size_of dto;
  printf "    DateTimeOffset : %zu bytes  (int16 offset, 6 bytes CLR padding, DateTime)\n" [Int n] ;;
  n ← size_of dec;
  printf "    Decimal        : %zu bytes  (raw CLR bits; kept opaque, no arithmetic)\n" [Int n] ;;
  n ← size_of i128;
  printf "    Int128         : %zu bytes  (uint64 low, int64 high, little-endian)\n" [Int n] ;;
  n ← size_of v3;
  printf "    Vector3        : %zu bytes  (an unmanaged struct - see example 05)\n\n" [Int n] ;;
  n ← size_of dto;
  Check_ "DateTimeOffset size" (n =? 16) ;;
  n ← size_of dec;
  Check_ "Decimal size" (n =? 16) ;;
  n ← size_of i128;
  Check_ "Int128 size" (n =? 16) ;;
  n ← size_of v3;
  Check_ "Vector3 size" (n =? 12) ;;
  bytes ← serialize dto;
  back ← deserialize DateTimeOffset bytes;
  Check_ "DateTimeOffset round trip" (bool_decide (back = dto)).

Definition main (clock : Z * Z) (now : Z) : M (program bool) Z :=
  printf "== 10 .NET value types ==\n\n" [] ;;
  guids ;;
  date_times ;;
  chrono clock now ;;
  time_spans ;;
  halves ;;
  session_record ;;
  the_rest ;;
  ok ← gets globals;
  printf ".NET types %s\n" [Text (c_literal (if ok : bool then "OK" else "MISMATCH"))] ;;
  mret (if ok : bool then 0 else 1).
End Example.
End DotNetTypes.
