(* ===== verification/ExampleTheorems.v ===== *)
(** The example programs do what they announce: each of them ends with
    exit code 0, so every [Check] on the way held, no read or write left its object, no
    format string was given an argument it does not fit, and no exception escaped. *)
From stdpp Require Import strings.
From S2P Require Import Prelude Endian Writer Reader Headers Utf Strings Formatter Collections Objects DotNet Api Packet Text Console ExampleQuickStart ExampleNested ExampleNullables ExampleUnions ExampleUnmanaged ExampleBuffers ExampleFraming ExampleErrors ExampleVersions ExampleDotNet.

(** [main] runs to the end and returns 0; [closing] is the last line it writes. *)
Definition succeeds {G} (main : M (program G) Z) (g : G) (closing : String.string) : Prop :=
  ∃ p text, main (started g) = (Ret 0, p) ∧ stdout p = text ++ c_literal closing.

(** The text a program writes before its last line. *)
Definition before (closing : String.string) (out : list Z) : list Z :=
  take (length out - length (c_literal closing)) out.

Lemma succeeds_run {G} (main : M (program G) Z) g closing :
  (let '(o, p) := main (started g) in
   match o with Ret c => c =? 0 | _ => false end &&
   bool_decide (stdout p = before closing (stdout p) ++ c_literal closing)) = true → succeeds main g closing.
Proof.
  unfold succeeds. destruct (main (started g)) as [[c|e off|] p]; [|done..].
  intros [->%Z.eqb_eq E%bool_decide_eq_true]%andb_true_iff. by exists p, (before closing (stdout p)).
Qed.

Ltac run_program := apply succeeds_run; vm_compute; reflexivity.

Section Platforms.
Context `{P : Platform}.

(** *** The programs without a clock *)

Lemma quick_start_succeeds : succeeds QuickStart.main tt "round trip OK\n".
Proof. destruct P as [[] [] [] []]; run_program. Qed.

Lemma nested_succeeds : succeeds NestedAndCollections.main tt "round trip OK\n".
Proof. destruct P as [[] [] [] []]; run_program. Qed.

Lemma nullable_succeeds : succeeds Nullables.main true "all null encodings OK\n".
Proof. destruct P as [[] [] [] []]; run_program. Qed.

Lemma unions_succeed : succeeds Unions.main true "unions OK\n".
Proof. destruct P as [[] [] [] []]; run_program. Qed.

Lemma unmanaged_succeeds : native_little = true → succeeds UnmanagedStructs.main true "unmanaged structs OK\n".
Proof. destruct P as [[] [] [] []]; cbn [native_little]; intros El; (done || run_program). Qed.

Lemma fixed_buffers_succeed : succeeds FixedBuffers.main true "fixed buffers OK\n".
Proof. destruct P as [[] [] [] []]; run_program. Qed.

Lemma packet_framing_succeeds : succeeds PacketFraming.main (PacketFraming.State true 0) "packet framing OK\n".
Proof. destruct P as [[] [] [] []]; run_program. Qed.

Lemma error_handling_succeeds : succeeds ErrorHandling.main true "error handling OK\n".
Proof. destruct P as [[] [] [] []]; run_program. Qed.

Lemma version_tolerance_succeeds : succeeds VersionTolerance.main true "version tolerance OK\n".
Proof. destruct P as [[] [] [] []]; run_program. Qed.

(** *** The clock of example 10 *)

(** What the chrono part does when nothing drifts. *)
Definition no_drift : M (program bool) unit :=
  printf "    std::chrono::now() -> DateTime -> time_point drift: %lld s\n" [Int 0] ;;
  printf "    (FromTimePoint stamps Kind=Utc, since a time_point is an instant)\n\n" [].

(** The conversions lose less than a tick. *)
Lemma chrono_any_time clock now p : clock_at clock now → DotNetTypes.chrono clock now p = no_drift p.
Proof.
  intros Hc. destruct (clock_at_drift clock now Hc) as (dt & back & d & E1 & Hkind & E2 & E3 & E4).
  unfold DotNetTypes.chrono. rewrite E1. unfold mbind at 1, M_bind at 1. cbn [DotNetTypes.defined mret M_ret]. rewrite E2.
  unfold mbind at 1, M_bind at 1. cbn [DotNetTypes.defined mret M_ret]. rewrite E3.
  unfold mbind at 1, M_bind at 1. cbn [DotNetTypes.defined mret M_ret]. unfold DotNetTypes.seconds. rewrite E4.
  unfold mbind at 1, M_bind at 1. cbn [DotNetTypes.defined mret M_ret]. rewrite Hkind. reflexivity.
Qed.

(** The .NET example returns 0 whatever the time is: for a system clock whose period is a
    second over a multiple or a divisor of 10^7, at any instant a [DateTime] can represent,
    the conversions to [DateTime] and back drift by less than a second, every check of the
    ten .NET types holds, and the last line is written. *)
Lemma dotnet_types_succeed clock now : clock_at clock now → succeeds (DotNetTypes.main clock now) true ".NET types OK\n".
Proof.
  intros Hc. assert (H0 : clock_at (1, TICKS_PER_SECOND) 0) by (apply standard_clock_at; [auto|done]).
  assert (E : ∀ p, DotNetTypes.chrono clock now p = DotNetTypes.chrono (1, TICKS_PER_SECOND) 0 p).
  { intros p. by rewrite !chrono_any_time. }
  assert (Hm : DotNetTypes.main clock now (started true) = DotNetTypes.main (1, TICKS_PER_SECOND) 0 (started true)).
  { unfold DotNetTypes.main. do 3 (apply bind_pointwise; [done|intros ? ?]). by apply bind_pointwise. }
  unfold succeeds. rewrite Hm. clear. destruct P as [[] [] [] []]; run_program.
Qed.

(** C32: The ten examples run to their end and return 0, on every platform (any width of
    [size_t], byte order, alignment of 8-byte types, with or without exceptions): every
    [Check] holds, no access leaves its object, no format string meets an argument it does
    not fit, no exception escapes, and the last line says so. Only of the fifth, whose
    structs are copied as they lie in memory, is this claimed for little-endian hosts
    alone. The tenth succeeds at any time a [DateTime] can represent, for a system clock
    whose period is a second over a multiple or a divisor of 10^7, as those of the three
    standard libraries are. *)
Theorem examples_succeed :
  succeeds QuickStart.main tt "round trip OK\n" ∧
  succeeds NestedAndCollections.main tt "round trip OK\n" ∧
  succeeds Nullables.main true "all null encodings OK\n" ∧
  succeeds Unions.main true "unions OK\n" ∧
  (native_little = true → succeeds UnmanagedStructs.main true "unmanaged structs OK\n") ∧
  succeeds FixedBuffers.main true "fixed buffers OK\n" ∧
  succeeds PacketFraming.main (PacketFraming.State true 0) "packet framing OK\n" ∧
  succeeds ErrorHandling.main true "error handling OK\n" ∧
  succeeds VersionTolerance.main true "version tolerance OK\n" ∧
  ∀ clock now, clock_at clock now → succeeds (DotNetTypes.main clock now) true ".NET types OK\n".
Proof.
  split; [exact quick_start_succeeds|]. split; [exact nested_succeeds|]. split; [exact nullable_succeeds|].
  split; [exact unions_succeed|]. split; [exact unmanaged_succeeds|]. split; [exact fixed_buffers_succeed|].
  split; [exact packet_framing_succeeds|]. split; [exact error_handling_succeeds|].
  split; [exact version_tolerance_succeeds|exact dotnet_types_succeed].
Qed.
End Platforms.

#[local] Existing Instance host64.

(** The fifth example, and the tenth with a clock in nanoseconds, and one in microseconds,
    in November 2023. *)
Lemma examples_succeed_witness : succeeds UnmanagedStructs.main true "unmanaged structs OK\n" ∧
  succeeds (DotNetTypes.main (1, 1000000000) (1700000000 * 10 ^ 9)) true ".NET types OK\n" ∧
  succeeds (DotNetTypes.main (1, 1000000) (1700000000 * 10 ^ 6)) true ".NET types OK\n".
Proof.
  destruct (examples_succeed (P := host64)) as (_ & _ & _ & _ & H5 & _ & _ & _ & _ & H10).
  split; [exact (H5 eq_refl)|]. split; apply H10, standard_clock_at; auto; done.
Defined.
