(* ===== verification/Benchmarks.v ===== *)
(** The benchmark suite: [benchmarks/memorypack_bench.cpp]. Google Benchmark is a library
    the program calls: it runs the body of [for (auto _ : state)] a number of times it
    chooses, a parameter, and keeps what the benchmark reports. What a body passes to
    [benchmark::DoNotOptimize] is what it measures: the sequence of these values is the
    trace of the run ([data()] of a buffer stands for what the buffer holds). *)
From stdpp Require Import strings.
From S2P Require Import Prelude Endian Writer Reader Headers Utf Strings Formatter Collections Objects Unmanaged DotNet Api Packet Text Console.

(** ** [benchmark::State] *)

Record bench (O : Type) := Bench {
  iterations : Z;
  range : Z;
  observed : list O;
  bytes_processed : option Z;
  payload_bytes : option Z;
}.
Arguments Bench {O}.
Arguments iterations {O}.
Arguments range {O}.
Arguments observed {O}.
Arguments bytes_processed {O}.
Arguments payload_bytes {O}.

(** Before a benchmark runs: [n] iterations, with argument [a]. *)
Definition fresh {O} (n a : Z) : bench O := Bench n a [] None None.

(** [static_cast<double>] of an unsigned integer, ties to even. *)
Definition double_of_size (n : Z) : Z :=
  if n =? 0 then 0 else
  let k := Z.log2 n in
  (k + 1023) * 2 ^ 52 + (if k <=? 52 then Z.shiftl n (52 - k) else div_half_even n (2 ^ (k - 52))) - 2 ^ 52.

Section Run.
Context {Ob : Type}.

Definition DoNotOptimize (x : Ob) : M (bench Ob) unit :=
  modify (λ b, Bench (iterations b) (range b) (observed b ++ [x]) (bytes_processed b) (payload_bytes b)).

Fixpoint repeat_body {L} (n : nat) (body : L → M (bench Ob) L) (s : L) : M (bench Ob) L :=
  match n with
  | O => mret s
  | S n' => s' ← body s; repeat_body n' body s'
  end.

(** [for (auto _ : state) body;] where the body changes the local variables [s]. *)
Definition for_state {L} (body : L → M (bench Ob) L) (s : L) : M (bench Ob) L :=
  n ← gets iterations;
  repeat_body (Z.to_nat n) body s.

(** The product is computed in [int64_t]. *)
Definition SetThroughput (payloadBytes : Z) : M (bench Ob) unit :=
  n ← gets iterations;
  match int64 (n * of_unsigned Int64 (to_unsigned 8 payloadBytes)) with
  | Some p => modify (λ b, Bench (iterations b) (range b) (observed b) (Some p) (Some (double_of_size payloadBytes)))
  | None => undefined
  end.
End Run.

(** ** The payload types *)

Record PlayerState := MkPlayerState { ps_id : prim Int32; ps_x : prim Float32; ps_y : prim Float32; ps_z : prim Float32; ps_name : string }.
Record ChatMessage := MkChatMessage { timestamp : prim Int64; sender : string; body : string }.
Record Item := MkItem { id : prim Int32; name : string; count : prim Int32 }.
Record ItemList := MkItemList { items : vector Item }.
Record Vec3 := MkVec3 { x : Z; y : Z; z : Z }.
Record Vec3Generic := MkVec3Generic { gx : prim Float32; gy : prim Float32; gz : prim Float32 }.
Record Vec3Scrubbed := MkVec3Scrubbed { sx : Z; sy : Z; sz : Z }.

Section Types.
Context `{Platform}.

Definition ps_id_m : member PlayerState := Member (prim Int32) ps_id (λ a v, MkPlayerState a (ps_x v) (ps_y v) (ps_z v) (ps_name v)).
Definition ps_x_m : member PlayerState := Member (prim Float32) ps_x (λ a v, MkPlayerState (ps_id v) a (ps_y v) (ps_z v) (ps_name v)).
Definition ps_y_m : member PlayerState := Member (prim Float32) ps_y (λ a v, MkPlayerState (ps_id v) (ps_x v) a (ps_z v) (ps_name v)).
Definition ps_z_m : member PlayerState := Member (prim Float32) ps_z (λ a v, MkPlayerState (ps_id v) (ps_x v) (ps_y v) a (ps_name v)).
Definition ps_name_m : member PlayerState := Member string ps_name (λ a v, MkPlayerState (ps_id v) (ps_x v) (ps_y v) (ps_z v) a).
#[global] Instance PlayerState_members : Members PlayerState := {
  default_value := MkPlayerState (Prim 0) (Prim 0) (Prim 0) (Prim 0) (Str []);
  members := [ps_id_m; ps_x_m; ps_y_m; ps_z_m; ps_name_m] }.

Definition timestamp_m : member ChatMessage := Member (prim Int64) timestamp (λ a v, MkChatMessage a (sender v) (body v)).
Definition sender_m : member ChatMessage := Member string sender (λ a v, MkChatMessage (timestamp v) a (body v)).
Definition body_m : member ChatMessage := Member string body (λ a v, MkChatMessage (timestamp v) (sender v) a).
#[global] Instance ChatMessage_members : Members ChatMessage := {
  default_value := MkChatMessage (Prim 0) (Str []) (Str []);
  members := [timestamp_m; sender_m; body_m] }.

Definition id_m : member Item := Member (prim Int32) id (λ a v, MkItem a (name v) (count v)).
Definition name_m : member Item := Member string name (λ a v, MkItem (id v) a (count v)).
Definition count_m : member Item := Member (prim Int32) count (λ a v, MkItem (id v) (name v) a).
#[global] Instance Item_members : Members Item := {
  default_value := MkItem (Prim 0) (Str []) (Prim 0);
  members := [id_m; name_m; count_m] }.

Definition items_m : member ItemList := Member (vector Item) items (λ a _, MkItemList a).
#[global] Instance ItemList_members : Members ItemList := {
  default_value := MkItemList (Vector []);
  members := [items_m] }.

#[global] Instance Vec3_unmanaged : Unmanaged Vec3 := {
  um_rep := float_struct 3 (λ v, [x v; y v; z v]) (λ l, MkVec3 (nth 0 l 0) (nth 1 l 0) (nth 2 l 0));
  um_init := MkVec3 0 0 0 }.

Definition gx_m : member Vec3Generic := Member (prim Float32) gx (λ a v, MkVec3Generic a (gy v) (gz v)).
Definition gy_m : member Vec3Generic := Member (prim Float32) gy (λ a v, MkVec3Generic (gx v) a (gz v)).
Definition gz_m : member Vec3Generic := Member (prim Float32) gz (λ a v, MkVec3Generic (gx v) (gy v) a).
#[global] Instance Vec3Generic_members : Members Vec3Generic := {
  default_value := MkVec3Generic (Prim 0) (Prim 0) (Prim 0);
  members := [gx_m; gy_m; gz_m] }.

#[global] Instance Vec3Scrubbed_scrubbed : Scrubbed Vec3Scrubbed := {
  sc_rep := float_struct 3 (λ v, [sx v; sy v; sz v]) (λ l, MkVec3Scrubbed (nth 0 l 0) (nth 1 l 0) (nth 2 l 0));
  sc_init := MkVec3Scrubbed 0 0 0;
  sc_fields := [(0, 4); (4, 4); (8, 4)] }.
End Types.

(** ** Sample data *)

Definition kFixedBufferSize : Z := 256.
Definition kItemCount : Z := 100.
Definition kVec3Count : Z := 4096.
Definition kPlayerStatePacketId : Z := 1001.

Definition MakePlayerState : PlayerState := MkPlayerState (i32 42) (f32 3 (-1)) (f32 (-9) (-2)) (f32 403 (-2)) (str "Player1").

Definition MakeChatMessage : ChatMessage :=
  MkChatMessage (Prim 1700000000000) (str "player_1234") (str "Heading to the north gate now, bring potions and a spare key.").

(** [values[i] = static_cast<int32_t>(i)] *)
Definition MakeIntVector (count : Z) : vector (prim Int32) :=
  Vector ((λ i, Prim (of_unsigned Int32 (to_unsigned 4 i))) <$> seqZ 0 count).

Definition MakeItem (i : Z) : Item := MkItem (Prim i) (Str (literal "item_" ++ to_string i)) (Prim (Z.rem i 7 + 1)).
Definition MakeItemList (count : Z) : ItemList := MkItemList (Vector (MakeItem <$> seqZ 0 count)).

(** The integer nearest to [n] that a [float] holds, ties to even. *)
Definition round_float (n : Z) : Z :=
  let k := Z.log2 (Z.abs n) in
  if k <=? 23 then n else Z.sgn n * (div_half_even (Z.abs n) (2 ^ (k - 23)) * 2 ^ (k - 23)).

(** [T{f, f * 2.0f, f * 3.0f}] *)
Definition MakeVec3 {T} (make : Z → Z → Z → T) (i : Z) : T :=
  let f := round_float i in
  make (float_of f 0) (float_of (round_float (f * 2)) 0) (float_of (round_float (f * 3)) 0).
Definition MakeVec3s {T} (make : Z → Z → Z → T) (count : Z) : list T := MakeVec3 make <$> seqZ 0 count.

Definition vec3_generic (a b c : Z) : Vec3Generic := MkVec3Generic (Prim a) (Prim b) (Prim c).

(** ** The benchmarks *)

Section Benchmarks.
Context `{Platform}.

(** [memorypack::Serialize(value)] *)
Definition fresh_bytes {Ob T} `{!MemoryPackFormatter T} (value : T) : M (bench Ob) (list Z) := lift_outcome (SerializeNew value).

(** [buffer.clear(); memorypack::Serialize(value, buffer);] *)
Definition clear_vector (buffer : list Z) : list Z := [].

Definition append_to {Ob T} `{!MemoryPackFormatter T} (value : T) (buffer : list Z) : M (bench Ob) (list Z) :=
  let '(o, buffer) := SerializeInto value buffer in
  lift_outcome o ;;
  mret buffer.

(** [MemoryPackWriter writer; writer.Reserve(n);] *)
Definition reserved {Ob} (n : Z) : M (bench Ob) MemoryPackWriter :=
  r ← on_local NewWriter (Reserve n);
  mret r.2.

(** *** 1. Small packet *)

Definition BM_Serialize_SmallPacket : M (bench (list Z)) unit :=
  bytes ← fresh_bytes MakePlayerState;
  let payloadSize := zlen bytes in
  for_state (λ _, bytes ← fresh_bytes MakePlayerState; DoNotOptimize bytes) tt ;;
  SetThroughput payloadSize.

Definition BM_Deserialize_SmallPacket : M (bench PlayerState) unit :=
  bytes ← fresh_bytes MakePlayerState;
  for_state (λ _, out ← lift_outcome (DeserializeInto bytes default_value); DoNotOptimize out) tt ;;
  SetThroughput (zlen bytes).

(** *** 2. Buffer modes *)

Definition BM_Serialize_OwnedBuffer : M (bench (list Z)) unit :=
  bytes ← fresh_bytes MakePlayerState;
  let payloadSize := zlen bytes in
  for_state (λ _, bytes ← fresh_bytes MakePlayerState; DoNotOptimize bytes) tt ;;
  SetThroughput payloadSize.

(** Mode B: one writer with a buffer of [capacity] bytes, rewound before every [write]. *)
Definition rewrite_loop (capacity payloadSize : Z) (write : W unit) : M (bench Z) unit :=
  writer ← reserved capacity;
  for_state (λ writer,
    r ← on_local writer (Clear ;; write);
    DoNotOptimize (w_Size r.2) ;;
    mret r.2) writer ;;
  SetThroughput payloadSize.

Definition BM_Serialize_ReusedWriter : M (bench Z) unit :=
  bytes ← fresh_bytes MakePlayerState;
  rewrite_loop kFixedBufferSize (zlen bytes) (Write MakePlayerState).

Definition BM_Serialize_ExternalVector : M (bench (list Z)) unit :=
  bytes ← fresh_bytes MakePlayerState;
  let payloadSize := zlen bytes in
  for_state (λ buffer, buffer ← append_to MakePlayerState (clear_vector buffer); DoNotOptimize buffer ;; mret buffer) [] ;;
  SetThroughput payloadSize.

Definition BM_Serialize_FixedBuffer : M (bench Z) unit :=
  bytes ← fresh_bytes MakePlayerState;
  let payloadSize := zlen bytes in
  for_state (λ buffer,
    let '(o, buffer') := SerializeTo (Some buffer) MakePlayerState in
    written ← lift_outcome o;
    DoNotOptimize written ;;
    mret (default [] buffer')) (replicate (Z.to_nat kFixedBufferSize) 0) ;;
  SetThroughput payloadSize.

(** [std::memcpy] from one object to another. *)
Definition memcpy {Ob} (destination source : list Z) (n : Z) : M (bench Ob) (list Z) :=
  if (n <=? zlen source) && (n <=? zlen destination) then mret (overwrite 0 (slice 0 n source) destination) else undefined.

Definition BM_Memcpy_Baseline : M (bench (list Z)) unit :=
  source ← fresh_bytes MakePlayerState;
  let payloadSize := zlen source in
  for_state (λ destination,
    destination ← memcpy destination source payloadSize;
    DoNotOptimize destination ;;
    mret destination) (replicate (Z.to_nat kFixedBufferSize) 0) ;;
  SetThroughput payloadSize.

(** *** 3. Bulk primitives *)

(** [MakeIntVector(static_cast<size_t>(state.range(0)))] *)
Definition int_vector {Ob} : M (bench Ob) (vector (prim Int32)) := gets (λ b, MakeIntVector (range b mod size_mod)).

Definition BM_Serialize_IntVector : M (bench (list Z)) unit :=
  values ← int_vector;
  bytes ← fresh_bytes values;
  let payloadSize := zlen bytes in
  for_state (λ buffer, buffer ← append_to values (clear_vector buffer); DoNotOptimize buffer ;; mret buffer) [] ;;
  SetThroughput payloadSize.

Definition BM_Deserialize_IntVector : M (bench (vector (prim Int32))) unit :=
  values ← int_vector;
  bytes ← fresh_bytes values;
  for_state (λ _, out ← lift_outcome (DeserializeNew (T := vector (prim Int32)) bytes); DoNotOptimize out) tt ;;
  SetThroughput (zlen bytes).

(** *** 4. In-place bulk read *)

(** [ReadVector] replaces what [out] held. *)
Definition BM_Deserialize_IntVector_InPlace : M (bench (list Z)) unit :=
  values ← int_vector;
  bytes ← fresh_bytes values;
  for_state (λ _,
    r ← on_local (NewReader bytes DefaultOptions) (ReadVector Int32);
    DoNotOptimize r.1 ;;
    mret r.1) [] ;;
  SetThroughput (zlen bytes).

(** *** 5. Strings *)

Definition BM_Serialize_ChatMessage : M (bench (list Z)) unit :=
  bytes ← fresh_bytes MakeChatMessage;
  let payloadSize := zlen bytes in
  for_state (λ buffer, buffer ← append_to MakeChatMessage (clear_vector buffer); DoNotOptimize buffer ;; mret buffer) [] ;;
  SetThroughput payloadSize.

Definition BM_Deserialize_ChatMessage : M (bench ChatMessage) unit :=
  bytes ← fresh_bytes MakeChatMessage;
  for_state (λ _, out ← lift_outcome (DeserializeInto bytes default_value); DoNotOptimize out) tt ;;
  SetThroughput (zlen bytes).

Inductive viewed :=
  | Header (h : ObjectHeader)
  | Timestamp (t : Z)
  | View (s : option (list Z)).

Definition BM_Deserialize_ChatMessage_StringView : M (bench viewed) unit :=
  bytes ← fresh_bytes MakeChatMessage;
  for_state (λ _,
    let reader := NewReader bytes DefaultOptions in
    r ← on_local reader ReadObjectHeader;
    let '(header, reader) := r in
    DoNotOptimize (Header header) ;;
    r ← on_local reader ReadInt64;
    let '(timestamp, reader) := r in
    DoNotOptimize (Timestamp timestamp) ;;
    r ← on_local reader ReadStringView;
    let '(sender, reader) := r in
    r ← on_local reader ReadStringView;
    let '(body, reader) := r in
    DoNotOptimize (View sender) ;;
    DoNotOptimize (View body)) tt ;;
  SetThroughput (zlen bytes).

(** *** 6. Nested objects *)

Definition BM_Serialize_ItemList : M (bench (list Z)) unit :=
  let value := MakeItemList kItemCount in
  bytes ← fresh_bytes value;
  let payloadSize := zlen bytes in
  for_state (λ buffer, buffer ← append_to value (clear_vector buffer); DoNotOptimize buffer ;; mret buffer) [] ;;
  SetThroughput payloadSize.

Definition BM_Deserialize_ItemList : M (bench ItemList) unit :=
  bytes ← fresh_bytes (MakeItemList kItemCount);
  for_state (λ _, out ← lift_outcome (DeserializeInto bytes default_value); DoNotOptimize out) tt ;;
  SetThroughput (zlen bytes).

(** *** 7. Unmanaged bulk path and generic path *)

Definition BM_Serialize_UnmanagedCollection : M (bench Z) unit :=
  let values := MakeVec3s MkVec3 kVec3Count in
  probe ← on_local NewWriter (WriteUnmanagedCollection (um_rep (T := Vec3)) values);
  rewrite_loop (w_Size probe.2) (w_Size probe.2) (WriteUnmanagedCollection (um_rep (T := Vec3)) values).

Definition BM_Deserialize_UnmanagedCollection : M (bench (list Vec3)) unit :=
  let values := MakeVec3s MkVec3 kVec3Count in
  r ← on_local NewWriter (WriteUnmanagedCollection (um_rep (T := Vec3)) values ;; TakeBuffer);
  let bytes := r.1 in
  for_state (λ _,
    r ← on_local (NewReader bytes DefaultOptions) (ReadUnmanagedCollection (um_rep (T := Vec3)));
    DoNotOptimize r.1 ;;
    mret r.1) [] ;;
  SetThroughput (zlen bytes).

Definition BM_Serialize_GenericCollection : M (bench Z) unit :=
  let values := Vector (MakeVec3s vec3_generic kVec3Count) in
  bytes ← fresh_bytes values;
  rewrite_loop (zlen bytes) (zlen bytes) (Write values).

Definition BM_Deserialize_GenericCollection : M (bench (list Vec3Generic)) unit :=
  bytes ← fresh_bytes (Vector (MakeVec3s vec3_generic kVec3Count));
  for_state (λ _,
    r ← on_local (NewReader bytes DefaultOptions) ReadCollection;
    DoNotOptimize r.1 ;;
    mret r.1) [] ;;
  SetThroughput (zlen bytes).

(** *** 7b. Exact and scrubbed structs, element by element *)

Definition BM_Serialize_UnmanagedExact_PerElement : M (bench Z) unit :=
  let values := Vector (MakeVec3s MkVec3 kVec3Count) in
  bytes ← fresh_bytes values;
  rewrite_loop (zlen bytes) (zlen bytes) (Write values).

Definition BM_Serialize_UnmanagedScrubbed_PerElement : M (bench Z) unit :=
  let values := Vector (MakeVec3s MkVec3Scrubbed kVec3Count) in
  bytes ← fresh_bytes values;
  rewrite_loop (zlen bytes) (zlen bytes) (Write values).

(** *** 8. Packet framing *)

Inductive framed :=
  | Id (id : Z)
  | Fed (ok : bool)
  | Decoded (value : PlayerState).

(** The callback; [decoded] is a local of the benchmark. A [Deserialize] that throws ends
    the benchmark, so what it left in [decoded] does not matter. *)
Definition on_frame (id : Z) (body : list Z) : M (PlayerState * bench framed) unit := λ s,
  let '(decoded, b) := s in
  match (DoNotOptimize (Id id) ;; lift_outcome (DeserializeInto body decoded)) b with
  | (Ret decoded, b) => (Ret tt, (decoded, b))
  | (Throw e off, b) => (Throw e off, (decoded, b))
  | (UB, b) => (UB, (decoded, b))
  end.

(** [parser.Feed(frame, on_frame)] *)
Definition feed_frame (frame : list Z) (s : PacketFrameParser * PlayerState) :
    M (bench framed) (bool * (PacketFrameParser * PlayerState)) := λ b,
  match Feed frame on_frame (s.1, (s.2, b)) with
  | (Ret ok, (parser, (decoded, b))) => (Ret (ok, (parser, decoded)), b)
  | (Throw e off, (_, (_, b))) => (Throw e off, b)
  | (UB, (_, (_, b))) => (UB, b)
  end.

Definition BM_PacketFraming_RoundTrip : M (bench framed) unit :=
  frame ← lift_outcome (MakePacket kPlayerStatePacketId MakePlayerState);
  let payloadSize := zlen frame in
  for_state (λ s,
    frame ← lift_outcome (MakePacket kPlayerStatePacketId MakePlayerState);
    r ← feed_frame frame s;
    DoNotOptimize (Fed r.1) ;;
    DoNotOptimize (Decoded r.2.2) ;;
    mret r.2) (NewParser (8 * 1024 * 1024), default_value) ;;
  SetThroughput payloadSize.
End Benchmarks.
