(* ===== verification/BenchmarkTheorems.v ===== *)
(** What the benchmarks measure: on every platform and for any number of iterations each
    of them runs to its end, every iteration yields the same, correct result, and the
    throughput reported is that of the bytes on the wire. *)
From stdpp Require Import strings.
From S2P Require Import Prelude Endian Writer Reader Headers Utf Strings Formatter Collections Objects Unmanaged DotNet Api Packet Text Console Benchmarks.

(** ** The laws of the payload types *)

Section Laws.
Context `{Platform}.

#[global] Instance PlayerState_laws : MembersLaws PlayerState := {
  specs := [MemberSpec ps_id_m; MemberSpec ps_x_m; MemberSpec ps_y_m; MemberSpec ps_z_m; MemberSpec ps_name_m];
  specs_members := eq_refl; specs_count := ltac:(done); specs_rebuild := ltac:(by intros [] []) }.
#[global] Instance ChatMessage_laws : MembersLaws ChatMessage := {
  specs := [MemberSpec timestamp_m; MemberSpec sender_m; MemberSpec body_m];
  specs_members := eq_refl; specs_count := ltac:(done); specs_rebuild := ltac:(by intros [] []) }.
#[global] Instance Item_laws : MembersLaws Item := {
  specs := [MemberSpec id_m; MemberSpec name_m; MemberSpec count_m];
  specs_members := eq_refl; specs_count := ltac:(done); specs_rebuild := ltac:(by intros [] []) }.
#[global] Instance ItemList_laws : MembersLaws ItemList := {
  specs := [MemberSpec items_m];
  specs_members := eq_refl; specs_count := ltac:(done); specs_rebuild := ltac:(by intros [] []) }.
#[global] Instance Vec3Generic_laws : MembersLaws Vec3Generic := {
  specs := [MemberSpec gx_m; MemberSpec gy_m; MemberSpec gz_m];
  specs_members := eq_refl; specs_count := ltac:(done); specs_rebuild := ltac:(by intros [] []) }.
#[global] Instance Vec3_laws : UnmanagedLaws Vec3.
Proof. done. Qed.
End Laws.

(** ** Running a benchmark *)

(** [bm] with argument [a]: whatever the number of iterations, as long as the product it
    reports fits an [int64_t], every iteration observes [obs] and the size is [size]. *)
Definition reports {Ob} (bm : M (bench Ob) unit) (a : Z) (obs : list Ob) (size : Z) : Prop :=
  ∀ n, 0 ≤ n → n * size < 2 ^ 63 →
    bm (fresh n a) = (Ret tt, Bench n a (concat (replicate (Z.to_nat n) obs)) (Some (n * size)) (Some (double_of_size size))).

Section Run.
Context `{Platform} {Ob : Type}.
Implicit Types b : bench Ob.

Definition watched (obs : list Ob) b : bench Ob :=
  Bench (iterations b) (range b) (observed b ++ obs) (bytes_processed b) (payload_bytes b).

Lemma DoNotOptimize_watched x b : DoNotOptimize x b = (Ret tt, watched [x] b).
Proof. done. Qed.

Lemma watched_watched o1 o2 b : watched o2 (watched o1 b) = watched (o1 ++ o2) b.
Proof. unfold watched. cbn. by rewrite app_assoc. Qed.

Lemma step {A B} (m : M (bench Ob) A) (k : A → M (bench Ob) B) b a b' : m b = (Ret a, b') → (m ≫= k) b = k a b'.
Proof. unfold mbind, M_bind. by intros ->. Qed.

(** A loop whose body keeps an invariant of its locals and observes the same every time. *)
Lemma repeat_same {L} (Inv : L → Prop) (body : L → M (bench Ob) L) obs :
  (∀ s b, Inv s → ∃ s', body s b = (Ret s', watched obs b) ∧ Inv s') →
  ∀ n s b, Inv s → ∃ s', repeat_body n body s b = (Ret s', watched (concat (replicate n obs)) b).
Proof.
  intros Hb n. induction n as [|n IH]; intros s b Hs.
  - exists s. unfold watched. cbn. rewrite app_nil_r. by destruct b.
  - destruct (Hb s b Hs) as (s1 & E & Hs1). destruct (IH s1 (watched obs b) Hs1) as (s2 & E2).
    exists s2. cbn [repeat_body]. by rewrite (step _ _ _ _ _ E), E2, watched_watched.
Qed.

Lemma SetThroughput_fits size b : 0 ≤ iterations b → 0 ≤ size ≤ 2 ^ 62 → iterations b * size < 2 ^ 63 →
  SetThroughput size b =
    (Ret tt, Bench (iterations b) (range b) (observed b) (Some (iterations b * size)) (Some (double_of_size size))).
Proof.
  intros Hn Hs Hp. unfold SetThroughput, mbind, M_bind, gets. rewrite (arith_ok_unsigned Int64) by (arith_ranges; lia).
  by rewrite int64_ok by lia.
Qed.

(** The frame every benchmark has. *)
Lemma reports_loop {L} (bm : M (bench Ob) unit) a (Inv : L → Prop) (body : L → M (bench Ob) L) s obs size :
  (∀ n, 0 ≤ n → bm (fresh n a) = (for_state body s ;; SetThroughput size) (fresh n a)) →
  0 ≤ size ≤ 2 ^ 62 → Inv s → (∀ s b, Inv s → ∃ s', body s b = (Ret s', watched obs b) ∧ Inv s') →
  reports bm a obs size.
Proof.
  intros Hbm Hs Hi Hb n Hn Hp. rewrite Hbm by done.
  destruct (repeat_same Inv body obs Hb (Z.to_nat n) s (fresh n a) Hi) as (s' & E).
  rewrite (step (for_state body s) _ _ _ _ E). by rewrite SetThroughput_fits.
Qed.
End Run.

(** ** One iteration *)

Section Rounds.
Context `{Platform} {Ob : Type} {T : Type} `{!MemoryPackFormatter T, !WireFormat T, !FormatterLaws T}.
Implicit Types b : bench Ob.

Lemma fresh_bytes_enc (v : T) b : wf v → zlen (enc v) ≤ grow_limit → fresh_bytes v b = (Ret (enc v), b).
Proof. intros Hv Hs. unfold fresh_bytes, lift_outcome. by rewrite (SerializeNew_emits v _ (law_emits v Hv) Hs). Qed.

Lemma append_to_enc (v : T) b : wf v → zlen (enc v) ≤ grow_limit → append_to v [] b = (Ret (enc v), b).
Proof.
  intros Hv Hs. unfold append_to, SerializeInto.
  destruct (Write_fits (WriterOfVector []) v Hv (WriterOfVector_ok [])) as (w & E & Hst & G & _); [done|].
  rewrite E. destruct (vec_ w) as [l|] eqn:El; [|by apply (step_vec _ _ Hst) in El].
  unfold GetSpan, w_Size, Data in G. rewrite El in G. cbn in G. rewrite slice_all in G. by subst l.
Qed.

(** A writer that owns its buffer, as it is between two rounds. *)
Definition reusable (w : MemoryPackWriter) : Prop := w_ok w ∧ owned_mode w.

Lemma Reserve_reusable n : 0 ≤ n ≤ grow_limit → ∃ w, Reserve n NewWriter = (Ret tt, w) ∧ reusable w.
Proof.
  intros Hn. eexists. split; [reflexivity|]. cbn. destruct (Z.gtb_spec n (zlen (@nil Z))).
  - split; [|done]. split; cbn -[grow_limit Z.mul]; [rewrite zlen_vector_resize by lia; lia..|done].
  - split; [apply NewWriter_ok|done].
Qed.

Lemma rewrite_round (m : W unit) bs w b : emits m bs → zlen bs ≤ grow_limit → reusable w →
  ∃ w', on_local w (Clear ;; m) b = (Ret (tt, w'), b) ∧ w_Size w' = zlen bs ∧ GetSpan w' = bs ∧ reusable w'.
Proof.
  intros Hm Hs [Hw [Hv Hf]]. set (w0 := (Clear w).2).
  assert (E0 : w0 = set_w_error NoError (set_owned (owned_ w) 0 w)) by (subst w0; cbn; by rewrite Hv, Hf).
  assert (Hw0 : w_ok w0).
  { rewrite E0. destruct Hw as [? ? Hfx]. split; cbn; [zlia|done|]. by rewrite Hf. }
  assert (Ho : owned_mode w0) by (rewrite E0; by split).
  assert (Hz : w_Size w0 = 0) by (rewrite E0; unfold w_Size; cbn; by rewrite Hv, Hf).
  assert (Hl : w_limit w0 = grow_limit) by (unfold w_limit; by destruct Ho as [-> ->]).
  destruct (Hm w0 Hw0) as [Hfit _]. destruct Hfit as (w' & E & Hst & G & _); [lia|].
  assert (Hspan : GetSpan w0 = []) by (rewrite GetSpan_owned by done; rewrite E0; done).
  rewrite Hspan in G. exists w'. unfold on_local, mbind, M_bind.
  replace (Clear w) with (Ret tt, w0) by done. rewrite E.
  split_and!; [done| |done|].
  - rewrite <-zlen_GetSpan by apply Hst. by rewrite G.
  - split; [apply Hst|]. destruct Ho as [Hv0 Hf0]. split; [by apply (step_vec _ _ Hst)|].
    destruct (fixedBuf_ w') eqn:Ef; [|done]. exfalso.
    assert (is_fixed w0) as [_ Hx]; [apply (step_fixed _ _ Hst); split; [by apply (step_vec _ _ Hst)|by rewrite Ef]|done].
Qed.

Lemma read_round (m : R (list T)) bs l b : reads DefaultOptions 0 m bs l → bytes_ok bs → zlen bs < size_mod →
  ∃ r, on_local (NewReader bs DefaultOptions) m b = (Ret (l, r), b).
Proof.
  intros Hm Hb Hs. eexists. unfold on_local. rewrite (proj1 (Hm _ (NewReader_ready bs Hb Hs))); done.
Qed.
End Rounds.

(** ** Families of benchmarks *)

Section Families.
Context `{Platform}.

Lemma grow_limit_62 : 0 ≤ grow_limit ≤ 2 ^ 62.
Proof. unfold grow_limit. by destruct size_t_is_32. Qed.

Lemma reports_ext {Ob} (bm bm' : M (bench Ob) unit) a obs size :
  (∀ n, 0 ≤ n → bm (fresh n a) = bm' (fresh n a)) → reports bm' a obs size → reports bm a obs size.
Proof. intros E Hr n Hn Hp. rewrite E by done. by apply Hr. Qed.

Section Value.
Context {T : Type} `{!MemoryPackFormatter T, !WireFormat T, !FormatterLaws T} (v : T).
Hypothesis (Hv : portable v) (Hfits : zlen (enc v) ≤ grow_limit).

Lemma size_ok : 0 ≤ zlen (enc v) ≤ 2 ^ 62.
Proof. pose proof grow_limit_62. zlen_pos. lia. Qed.

Lemma fits_memory : zlen (enc v) < size_mod.
Proof. pose proof grow_limit_bounds. lia. Qed.

(** A new vector every time. *)
Lemma reports_fresh a :
  reports (bytes ← fresh_bytes v; for_state (λ _, bytes ← fresh_bytes v; DoNotOptimize bytes) tt ;; SetThroughput (zlen bytes))
    a [enc v] (zlen (enc v)).
Proof.
  apply (reports_loop _ a (λ _, True) (λ _, bytes ← fresh_bytes v; DoNotOptimize bytes) tt); [|apply size_ok|done|].
  - intros n _. by rewrite (step _ _ _ _ _ (fresh_bytes_enc v _ (proj1 Hv) Hfits)).
  - intros s b _. exists tt. by rewrite (step _ _ _ _ _ (fresh_bytes_enc v _ (proj1 Hv) Hfits)).
Qed.

(** One vector, cleared every time. *)
Lemma reports_append a :
  reports (bytes ← fresh_bytes v;
           for_state (λ buffer, buffer ← append_to v (clear_vector buffer); DoNotOptimize buffer ;; mret buffer) [] ;;
           SetThroughput (zlen bytes))
    a [enc v] (zlen (enc v)).
Proof.
  eapply (reports_loop _ a (λ _, True)
    (λ buffer, buffer ← append_to v (clear_vector buffer); DoNotOptimize buffer ;; mret buffer) []); [|apply size_ok|done|].
  - intros n _. by rewrite (step _ _ _ _ _ (fresh_bytes_enc v _ (proj1 Hv) Hfits)).
  - intros s b _. exists (enc v). by rewrite (step _ _ _ _ _ (append_to_enc v _ (proj1 Hv) Hfits)).
Qed.

(** Decoding into an object. *)
Lemma reports_decode (old : T) a :
  reports (bytes ← fresh_bytes v;
           for_state (λ _, out ← lift_outcome (DeserializeInto bytes old); DoNotOptimize out) tt ;;
           SetThroughput (zlen bytes))
    a [v] (zlen (enc v)).
Proof.
  eapply (reports_loop _ a (λ _, True) (λ _, out ← lift_outcome (DeserializeInto (enc v) old); DoNotOptimize out) tt);
    [|apply size_ok|done|].
  - intros n _. by rewrite (step _ _ _ _ _ (fresh_bytes_enc v _ (proj1 Hv) Hfits)).
  - intros s b _. exists tt. rewrite (DeserializeInto_reads v old (enc v)); [done|apply law_reads; [done|apply Hv..]|by apply law_bytes, Hv|apply fits_memory].
Qed.
End Value.

(** One writer, cleared every time. *)
Lemma reports_rewrite m bs n a : emits m bs → zlen bs ≤ grow_limit → 0 ≤ n ≤ grow_limit →
  reports (rewrite_loop n (zlen bs) m) a [zlen bs] (zlen bs).
Proof.
  intros Hm Hs Hn. pose proof grow_limit_62. zlen_pos. destruct (Reserve_reusable n Hn) as (w & E & Hw).
  apply (reports_loop _ a reusable (λ writer, r ← on_local writer (Clear ;; m); DoNotOptimize (w_Size r.2) ;; mret r.2) w);
    [|lia|done|].
  - intros k _. unfold rewrite_loop. rewrite (step (reserved _) _ _ w (fresh k a)); [done|].
    unfold reserved, on_local, mbind, M_bind. by rewrite E.
  - intros s b Hs'. destruct (rewrite_round m bs s b Hm Hs Hs') as (w' & E' & Hz & _ & Hw').
    exists w'. rewrite (step _ _ _ _ _ E'). cbn [snd]. by rewrite Hz.
Qed.

(** Reading a sequence with a reader of its own. *)
Lemma reports_read {T} (m : R (list T)) bs (l : list T) a : reads DefaultOptions 0 m bs l → bytes_ok bs → zlen bs ≤ grow_limit →
  reports (for_state (λ _, r ← on_local (NewReader bs DefaultOptions) m; DoNotOptimize r.1 ;; mret r.1) [] ;;
           SetThroughput (zlen bs)) a [l] (zlen bs).
Proof.
  intros Hm Hb Hs. pose proof grow_limit_62. pose proof grow_limit_bounds. zlen_pos.
  apply (reports_loop _ a (λ _, True) (λ _, r ← on_local (NewReader bs DefaultOptions) m; DoNotOptimize r.1 ;; mret r.1) []);
    [done|lia|done|].
  intros s b _. destruct (read_round m bs l b Hm Hb) as (r & E); [lia|]. exists l. by rewrite (step _ _ _ _ _ E).
Qed.
End Families.

(** ** The small packet: sections 1 and 2 *)

Section SmallPacket.
Context `{P : Platform}.

Definition small_packet : list Z :=
  [5; 42; 0; 0; 0; 0; 0; 192; 63; 0; 0; 16; 192; 0; 128; 201; 66; 248; 255; 255; 255; 7; 0; 0; 0; 80; 108; 97; 121; 101; 114; 49].

Lemma enc_MakePlayerState : enc MakePlayerState = small_packet.
Proof. by vm_compute. Qed.

Lemma MakePlayerState_portable : portable MakePlayerState.
Proof.
  apply portable_object. repeat (apply Forall_cons; split; [by apply portable_prim|]). apply Forall_singleton.
  apply (portable_string (c_literal "Player1")); [change (c_literal "Player1") with [80; 108; 97; 121; 101; 114; 49]; bytes_lit|done].
Qed.

Lemma small_packet_fits : zlen (enc MakePlayerState) ≤ grow_limit.
Proof. rewrite enc_MakePlayerState. unfold grow_limit. by destruct size_t_is_32. Qed.

(** The buffer of 256 bytes, before the first iteration and after any. *)
Definition blank : list Z := replicate (Z.to_nat kFixedBufferSize) 0.
Definition holding : list Z := small_packet ++ replicate (Z.to_nat kFixedBufferSize - 32) 0.

Lemma fixed_buffer_reports a : reports BM_Serialize_FixedBuffer a [32] 32.
Proof.
  apply (reports_loop _ a (λ buffer, buffer = blank ∨ buffer = holding) (λ buffer,
    let '(o, buffer') := SerializeTo (Some buffer) MakePlayerState in
    written ← lift_outcome o;
    DoNotOptimize written ;;
    mret (default [] buffer')) blank); [|lia|by left|].
  - intros n _. unfold BM_Serialize_FixedBuffer.
    by rewrite (step _ _ _ _ _ (fresh_bytes_enc MakePlayerState _ (proj1 MakePlayerState_portable) small_packet_fits)).
  - intros s b Hs. exists holding. split; [|by right]. destruct b, P as [[] [] [] []], Hs as [-> | ->]; by vm_compute.
Qed.

Lemma memcpy_reports a : reports BM_Memcpy_Baseline a [holding] 32.
Proof.
  apply (reports_loop _ a (λ destination, destination = blank ∨ destination = holding) (λ destination,
    destination ← memcpy destination small_packet 32;
    DoNotOptimize destination ;;
    mret destination) blank); [|lia|by left|].
  - intros n _. unfold BM_Memcpy_Baseline.
    by rewrite (step _ _ _ _ _ (fresh_bytes_enc MakePlayerState _ (proj1 MakePlayerState_portable) small_packet_fits)).
  - intros s b Hs. exists holding. split; [|by right]. destruct b, Hs as [-> | ->]; by vm_compute.
Qed.

(** The five buffer modes of the benchmark suite measure the same thing: on every
    platform, for every number of iterations whose reported product fits an [int64_t],
    each of them runs to its end, and every iteration produces the same 32 bytes (a fresh
    vector, a caller's vector cleared before, or [memcpy] into a buffer) or the size 32 (a
    writer rewound with [Clear], a fixed buffer); what is reported is [32 * iterations]
    bytes. Decoding the packet gives the value back in every iteration. *)
Theorem buffer_modes_agree a :
  zlen small_packet = 32 ∧
  reports BM_Serialize_SmallPacket a [small_packet] 32 ∧
  reports BM_Serialize_OwnedBuffer a [small_packet] 32 ∧
  reports BM_Serialize_ReusedWriter a [32] 32 ∧
  reports BM_Serialize_ExternalVector a [small_packet] 32 ∧
  reports BM_Serialize_FixedBuffer a [32] 32 ∧
  reports BM_Memcpy_Baseline a [small_packet ++ replicate 224 0] 32 ∧
  reports BM_Deserialize_SmallPacket a [MakePlayerState] 32.
Proof.
  pose proof MakePlayerState_portable as Hp. pose proof small_packet_fits as Hf.
  assert (Ha : reports BM_Serialize_OwnedBuffer a [small_packet] 32) by exact (reports_fresh MakePlayerState Hp Hf a).
  split; [done|]. split; [exact Ha|]. split; [exact Ha|].
  split; [|split; [exact (reports_append MakePlayerState Hp Hf a)|split; [apply fixed_buffer_reports|]]].
  - apply (reports_ext _ (rewrite_loop kFixedBufferSize (zlen (enc MakePlayerState)) (Write MakePlayerState))).
    + intros n _. unfold BM_Serialize_ReusedWriter. by rewrite (step _ _ _ _ _ (fresh_bytes_enc MakePlayerState _ (proj1 Hp) Hf)).
    + refine (reports_rewrite _ (enc MakePlayerState) kFixedBufferSize a (law_emits _ (proj1 Hp)) Hf _).
      unfold grow_limit. by destruct size_t_is_32.
  - split; [apply memcpy_reports|exact (reports_decode MakePlayerState Hp Hf default_value a)].
Qed.
End SmallPacket.
