(* ===== verification/BenchmarkPaths.v ===== *)
(** The benchmarks of the other sections: vectors of structs in bulk and element by element,
    integers, strings, nested objects and packet framing. *)
From stdpp Require Import strings.
From S2P Require Import Prelude Endian Writer Reader Headers Utf Strings Formatter Collections Objects Unmanaged DotNet Api Packet Text Console Benchmarks BenchmarkTheorems.

(** ** The vectors: section 7 *)

Section Vectors.
Context `{Platform}.

Definition float_ok (b : Z) : bool := (0 <=? b) && (b <? 2 ^ 32).
Definition all_floats (i : Z) : bool := MakeVec3 (λ a b c, float_ok a && float_ok b && float_ok c) i.

Lemma float_ok_spec b : float_ok b = true → arith_ok Float32 b.
Proof. intros [?%Z.leb_le ?%Z.ltb_lt]%andb_true_iff. by arith_ranges. Qed.

Lemma MakeVec3_floats {T} (make : Z → Z → Z → T) i : 0 ≤ i < kVec3Count →
  ∃ a b c, MakeVec3 make i = make a b c ∧ arith_ok Float32 a ∧ arith_ok Float32 b ∧ arith_ok Float32 c.
Proof.
  intros Hi. assert (Hall : forallb all_floats (seqZ 0 kVec3Count) = true) by (vm_compute; reflexivity).
  rewrite forallb_forall in Hall. specialize (Hall i). rewrite <-list_elem_of_In, elem_of_seqZ in Hall.
  unfold all_floats, MakeVec3 in Hall. destruct (andb_prop _ _ (Hall ltac:(lia))) as [Hab Hc%float_ok_spec].
  apply andb_prop in Hab as [Ha%float_ok_spec Hb%float_ok_spec]. unfold MakeVec3. eauto 10.
Qed.

Lemma MakeVec3s_elem {T} (make : Z → Z → Z → T) v : v ∈ MakeVec3s make kVec3Count →
  ∃ a b c, v = make a b c ∧ arith_ok Float32 a ∧ arith_ok Float32 b ∧ arith_ok Float32 c.
Proof. unfold MakeVec3s. intros (i & -> & Hi%elem_of_seqZ)%list_elem_of_fmap. by apply MakeVec3_floats. Qed.

Lemma zlen_MakeVec3s {T} (make : Z → Z → Z → T) : zlen (MakeVec3s make kVec3Count) = kVec3Count.
Proof. unfold MakeVec3s, zlen. by rewrite length_fmap, length_seqZ. Qed.

(** A vector of encodings of [m] bytes each. *)
Lemma vec3s_portable {T} `{!MemoryPackFormatter T, !WireFormat T, !FormatterLaws T} (make : Z → Z → Z → T) m :
  (∀ a b c, arith_ok Float32 a → arith_ok Float32 b → arith_ok Float32 c → wf (make a b c) ∧ within DefaultOptions 0 (make a b c) ∧ zlen (enc (make a b c)) = m) →
  portable (Vector (MakeVec3s make kVec3Count)) ∧ zlen (enc (Vector (MakeVec3s make kVec3Count))) = 4 + kVec3Count * m.
Proof.
  intros Hm. split; [split; (split; [cbn [elements]; rewrite zlen_MakeVec3s; by vm_compute|])|].
  - intros v Hv. apply MakeVec3s_elem in Hv as (a & b & c & -> & Ha & Hb & Hc). by apply Hm.
  - intros v Hv. apply MakeVec3s_elem in Hv as (a & b & c & -> & Ha & Hb & Hc). by apply Hm.
  - cbn [enc vector_wire elements]. unfold enc_elements. rewrite zlen_app, zlen_le_bytes, (zlen_bind_const _ m).
    + rewrite zlen_MakeVec3s. lia.
    + intros v Hv. apply MakeVec3s_elem in Hv as (a & b & c & -> & Ha & Hb & Hc). by apply Hm.
Qed.

Lemma Vec3_rep_ok a b c : arith_ok Float32 a → arith_ok Float32 b → arith_ok Float32 c → rep_ok (um_rep (T := Vec3)) (MkVec3 a b c).
Proof. intros Ha Hb Hc. apply float_struct_ok; [done|by repeat (apply Forall_cons; split; [done|])|done]. Qed.

Lemma vec3s : portable (Vector (MakeVec3s MkVec3 kVec3Count)) ∧ zlen (enc (Vector (MakeVec3s MkVec3 kVec3Count))) = 4 + kVec3Count * 12.
Proof.
  apply vec3s_portable. intros a b c Ha Hb Hc. pose proof (Vec3_rep_ok a b c Ha Hb Hc) as Hr. split; [done|]. split; [done|apply Hr].
Qed.

Lemma generic_vec3s : portable (Vector (MakeVec3s vec3_generic kVec3Count)) ∧
  zlen (enc (Vector (MakeVec3s vec3_generic kVec3Count))) = 4 + kVec3Count * 13.
Proof.
  apply vec3s_portable. intros a b c Ha Hb Hc.
  assert (Hw : Forall (λ s, wf (m_get (ms_member s) (vec3_generic a b c)) ∧ within DefaultOptions 1 (m_get (ms_member s) (vec3_generic a b c))) specs)
    by (by repeat (apply Forall_cons; split; [by apply portable_prim|])).
  destruct (portable_object _ Hw) as [Hwf Hwi]. split; [done|]. split; [done|].
  cbn. done.
Qed.

(** The members of [Vec3Scrubbed] leave no padding, so the copy changes nothing. *)
#[global] Instance Vec3Scrubbed_laws : ScrubbedLaws Vec3Scrubbed.
Proof. split; [done|done|]. cbn. unfold fields_ok. repeat (apply Forall_cons; split; [cbn; lia|]). by apply Forall_nil. Qed.

Lemma Vec3Scrubbed_wf a b c : arith_ok Float32 a → arith_ok Float32 b → arith_ok Float32 c → wf (MkVec3Scrubbed a b c).
Proof.
  intros Ha Hb Hc. assert (Hr : rep_ok (sc_rep (T := Vec3Scrubbed)) (MkVec3Scrubbed a b c)).
  { apply float_struct_ok; [done|by repeat (apply Forall_cons; split; [done|])|done]. }
  split; [done|]. destruct Hr as (_ & Hz & _). set (bs := rep_bytes _ _) in *. pose proof sc_fields_ok as Hf.
  assert (Hl : length bs = 12%nat) by (change (zlen bs = 12) in Hz; unfold zlen in Hz; lia).
  pose proof (zlen_scrub sc_rep bs sc_fields Hz Hf) as Hz'. change (zlen (scrub sc_rep sc_fields bs) = 12) in Hz'.
  apply list_eq_same_length with 12%nat; [done|unfold zlen in Hz'; lia|].
  intros i u w Hi Hu Hw. rewrite (scrub_lookup sc_rep bs sc_fields i Hz Hf) in Hu by lia.
  assert (Hcov : covered sc_fields (Z.of_nat i) = true).
  { do 12 (destruct i as [|i]; [done|]). lia. }
  rewrite Hcov in Hu. congruence.
Qed.

Lemma scrubbed_vec3s : portable (Vector (MakeVec3s MkVec3Scrubbed kVec3Count)) ∧
  zlen (enc (Vector (MakeVec3s MkVec3Scrubbed kVec3Count))) = 4 + kVec3Count * 12.
Proof.
  apply vec3s_portable. intros a b c Ha Hb Hc. destruct (Vec3Scrubbed_wf a b c Ha Hb Hc) as [Hr Hs].
  split; [done|]. split; [done|]. cbn [enc scrubbed_wire]. rewrite Hs. apply Hr.
Qed.

Lemma vec3s_fit n : 0 ≤ n ≤ 2 ^ 16 → 0 ≤ n ≤ grow_limit.
Proof. unfold grow_limit. destruct size_t_is_32; lia. Qed.

(** The generic and the per-element benchmarks. *)
Lemma per_element {T} `{!MemoryPackFormatter T, !WireFormat T, !FormatterLaws T} (v : T) n a :
  portable v → zlen (enc v) = n → n ≤ 2 ^ 16 →
  reports (bytes ← fresh_bytes v; rewrite_loop (zlen bytes) (zlen bytes) (Write v)) a [n] n.
Proof.
  intros Hv <- Hn. assert (Hz : 0 ≤ zlen (enc v) ≤ 2 ^ 16) by (split; [unfold zlen; lia|done]).
  pose proof (vec3s_fit _ Hz) as Hf.
  apply (reports_ext _ (rewrite_loop (zlen (enc v)) (zlen (enc v)) (Write v))).
  - intros k _. by rewrite (step _ _ _ _ _ (fresh_bytes_enc v _ (proj1 Hv) (proj2 Hf))).
  - apply reports_rewrite; [apply law_emits, Hv|lia|lia].
Qed.

(** The bytes of the bulk path. *)
Definition bulk_bytes : list Z := le_bytes 4 kVec3Count ++ (MakeVec3s MkVec3 kVec3Count ≫= rep_bytes (um_rep (T := Vec3))).

Lemma bulk_emits : emits (WriteUnmanagedCollection (um_rep (T := Vec3)) (MakeVec3s MkVec3 kVec3Count)) bulk_bytes.
Proof.
  pose proof (zlen_MakeVec3s MkVec3) as Hz.
  pose proof (WriteUnmanagedCollection_emits (um_rep (T := Vec3)) (MakeVec3s MkVec3 kVec3Count)) as He. rewrite Hz in He. by apply He.
Qed.

(** A new writer after [m]. *)
Lemma probe_size {Ob} (m : W unit) bs (b : bench Ob) : emits m bs → zlen bs ≤ grow_limit →
  ∃ w, on_local NewWriter m b = (Ret (tt, w), b) ∧ w_Size w = zlen bs.
Proof.
  intros Hm Hs. destruct (Hm NewWriter NewWriter_ok) as [Hfit _]. destruct Hfit as (w & E & Hst & G & _); [exact Hs|].
  exists w. unfold on_local. rewrite E. split; [done|]. rewrite <-zlen_GetSpan by apply Hst. by rewrite G.
Qed.

Lemma taken_buffer {Ob} (m : W unit) bs (b : bench Ob) : emits m bs → zlen bs ≤ grow_limit →
  ∃ w, on_local NewWriter (m ;; TakeBuffer) b = (Ret (bs, w), b).
Proof.
  intros Hm Hs. destruct (Hm NewWriter NewWriter_ok) as [Hfit _]. destruct Hfit as (w & E & Hst & G & _); [exact Hs|].
  destruct (owned_GetSpan w Hst) as (Gs & Hvec & Hb). rewrite Gs in G.
  eexists. unfold on_local, mbind, M_bind. rewrite E. unfold TakeBuffer. rewrite Hvec, Hb.
  rewrite vector_resize_take by apply Hst. by rewrite G.
Qed.

Lemma enc_exact_bulk : enc (Vector (MakeVec3s MkVec3 kVec3Count)) = bulk_bytes.
Proof. cbn [enc vector_wire elements]. unfold enc_elements, bulk_bytes. by rewrite zlen_MakeVec3s. Qed.

Lemma enc_scrubbed_bulk : enc (Vector (MakeVec3s MkVec3Scrubbed kVec3Count)) = bulk_bytes.
Proof.
  cbn [enc vector_wire elements]. unfold enc_elements, bulk_bytes. rewrite zlen_MakeVec3s. f_equal.
  unfold MakeVec3s. rewrite !list_fmap_bind. apply bind_ext_in. intros i Hi%elem_of_seqZ.
  destruct (MakeVec3_floats MkVec3Scrubbed i) as (a & b & c & E & Ha & Hb & Hc); [lia|].
  unfold compose. cbn [enc scrubbed_wire unmanaged_wire]. rewrite E. destruct (Vec3Scrubbed_wf a b c Ha Hb Hc) as [_ ->]. unfold MakeVec3 in *. injection E as <- <- <-. done.
Qed.

Lemma zlen_bulk_bytes : zlen bulk_bytes = 49156.
Proof.
  unfold bulk_bytes. rewrite zlen_app, zlen_le_bytes, (zlen_bind_const _ 12), zlen_MakeVec3s; [done|].
  intros v (a & b & c & -> & Ha & Hb & Hc)%MakeVec3s_elem. apply (Vec3_rep_ok a b c Ha Hb Hc).
Qed.

Lemma bulk_reads : reads DefaultOptions 0 (ReadUnmanagedCollection (um_rep (T := Vec3))) bulk_bytes (MakeVec3s MkVec3 kVec3Count).
Proof.
  pose proof (reads_ReadUnmanagedCollection (um_rep (T := Vec3)) ltac:(done) DefaultOptions 0 (MakeVec3s MkVec3 kVec3Count)) as Hr.
  rewrite (zlen_MakeVec3s MkVec3) in Hr. apply Hr; [done..|].
  intros v (a & b & c & -> & Ha & Hb & Hc)%MakeVec3s_elem. by apply Vec3_rep_ok.
Qed.

Lemma bulk_reports a :
  reports BM_Serialize_UnmanagedCollection a [49156] 49156 ∧
  reports BM_Deserialize_UnmanagedCollection a [MakeVec3s MkVec3 kVec3Count] 49156.
Proof.
  pose proof zlen_bulk_bytes as Hz. pose proof (vec3s_fit 49156 ltac:(lia)) as Hf. pose proof bulk_emits as He.
  rewrite <-Hz in Hf |- *. split.
  - eapply (reports_ext _ (rewrite_loop (zlen bulk_bytes) (zlen bulk_bytes) _)); [|exact (reports_rewrite _ _ _ _ He (proj2 Hf) Hf)].
    intros n _. destruct (probe_size (Ob := Z) _ bulk_bytes (fresh n a) He (proj2 Hf)) as (w & E & Hw).
    unfold BM_Serialize_UnmanagedCollection. rewrite (step _ _ _ _ _ E). cbn [snd]. by rewrite Hw.
  - eapply (reports_ext _ _); [|apply (reports_read _ bulk_bytes _ a bulk_reads); [|lia]].
    + intros n _. destruct (taken_buffer (Ob := list Vec3) _ bulk_bytes (fresh n a) He (proj2 Hf)) as (w & E).
      unfold BM_Deserialize_UnmanagedCollection. by rewrite (step _ _ _ _ _ E).
    + apply bytes_ok_app; [apply le_bytes_ok|]. apply bytes_ok_bind.
      intros v (x & y & z & -> & Hx & Hy & Hz')%MakeVec3s_elem. apply (Vec3_rep_ok x y z Hx Hy Hz').
Qed.

Lemma read_elements {T} `{!MemoryPackFormatter T, !WireFormat T, !FormatterLaws T} (l : list T) n a :
  portable (Vector l) → zlen (enc (Vector l)) = n → n ≤ 2 ^ 16 →
  reports (bytes ← fresh_bytes (Vector l);
           for_state (λ _, r ← on_local (NewReader bytes DefaultOptions) ReadCollection; DoNotOptimize r.1 ;; mret r.1) [] ;;
           SetThroughput (zlen bytes)) a [l] n.
Proof.
  intros Hp <- Hn. assert (Hz : 0 ≤ zlen (enc (Vector l)) ≤ 2 ^ 16) by (split; [unfold zlen; lia|done]).
  pose proof (vec3s_fit _ Hz) as Hf. destruct Hp as [Hv Hw].
  eapply (reports_ext _ _); [|apply (reports_read ReadCollection (enc (Vector l)) l); [|by apply law_bytes|lia]].
  - intros k _. by rewrite (step _ _ _ _ _ (fresh_bytes_enc _ _ Hv (proj2 Hf))).
  - by apply reads_ReadCollection.
Qed.

Lemma generic_reports a :
  reports BM_Serialize_GenericCollection a [53252] 53252 ∧
  reports BM_Deserialize_GenericCollection a [MakeVec3s vec3_generic kVec3Count] 53252.
Proof.
  destruct generic_vec3s as [Hp Hz]. change (4 + kVec3Count * 13) with 53252 in Hz. split.
  - exact (per_element _ 53252 a Hp Hz ltac:(lia)).
  - exact (read_elements _ 53252 a Hp Hz ltac:(lia)).
Qed.

(** What section 7 of the suite compares is what it says, on every platform: the bulk
    path moves 4 + 12 bytes an element (49156 for 4096 vectors), the generic one, which
    writes an object header for each, 4 + 13 (53252); reading the bytes gives the same
    4096 vectors back in every iteration; and the exact and the scrubbed struct of section
    7b are written element by element as the very bytes of the bulk path. *)
Theorem bulk_path_saves_headers a :
  reports BM_Serialize_UnmanagedCollection a [49156] 49156 ∧
  reports BM_Deserialize_UnmanagedCollection a [MakeVec3s MkVec3 kVec3Count] 49156 ∧
  reports BM_Serialize_GenericCollection a [53252] 53252 ∧
  reports BM_Deserialize_GenericCollection a [MakeVec3s vec3_generic kVec3Count] 53252 ∧
  reports BM_Serialize_UnmanagedExact_PerElement a [49156] 49156 ∧
  reports BM_Serialize_UnmanagedScrubbed_PerElement a [49156] 49156 ∧
  SerializeNew (Vector (MakeVec3s MkVec3 kVec3Count)) = Ret bulk_bytes ∧
  SerializeNew (Vector (MakeVec3s MkVec3Scrubbed kVec3Count)) = Ret bulk_bytes.
Proof.
  destruct (bulk_reports a) as [H1 H2], (generic_reports a) as [H3 H4], vec3s as [Hp Hz], scrubbed_vec3s as [Hq Hy].
  change (4 + kVec3Count * 12) with 49156 in Hz, Hy. pose proof (vec3s_fit 49156 ltac:(lia)) as Hf.
  do 4 (split; [assumption|]).
  split; [exact (per_element _ 49156 a Hp Hz ltac:(lia))|]. split; [exact (per_element _ 49156 a Hq Hy ltac:(lia))|].
  rewrite !(SerializeNew_emits _ _ (law_emits _ (proj1 Hp))), !(SerializeNew_emits _ _ (law_emits _ (proj1 Hq))) by lia.
  by rewrite enc_exact_bulk, enc_scrubbed_bulk.
Qed.
End Vectors.

(** ** Integers: sections 3 and 4 *)

Section Integers.
Context `{Platform} (a : Z) (Ha : 0 ≤ a < 2 ^ 28 - 1).

Lemma MakeIntVector_values : pval <$> elements (MakeIntVector a) = seqZ 0 a.
Proof.
  unfold MakeIntVector. cbn [elements]. rewrite <-list_fmap_compose. transitivity (Datatypes.id <$> seqZ 0 a); [|apply list_fmap_id]. apply list_fmap_ext.
  intros k i Hi%list_elem_of_lookup_2%elem_of_seqZ. cbn. apply (arith_ok_unsigned Int32). arith_ranges. lia.
Qed.

Lemma int_values_ok : Forall (arith_ok Int32) (seqZ 0 a).
Proof. apply Forall_forall. intros i Hi%elem_of_seqZ. arith_ranges. lia. Qed.

Lemma zlen_seqZ : zlen (seqZ 0 a) = a.
Proof. unfold zlen. rewrite length_seqZ. lia. Qed.

Lemma zlen_MakeIntVector : zlen (elements (MakeIntVector a)) = a.
Proof. rewrite <-zlen_seqZ at 2. rewrite <-MakeIntVector_values. unfold zlen. by rewrite length_fmap. Qed.

Lemma enc_MakeIntVector : enc (MakeIntVector a) = le_bytes 4 a ++ (seqZ 0 a ≫= le_bytes 4).
Proof. cbn [enc vector_wire]. unfold enc_elements. by rewrite zlen_MakeIntVector, <-MakeIntVector_values, list_fmap_bind. Qed.

Lemma zlen_int_bytes : zlen (enc (MakeIntVector a)) = 4 + 4 * a.
Proof.
  rewrite enc_MakeIntVector, zlen_app, zlen_le_bytes, (zlen_bind_const _ 4), zlen_seqZ; [lia|]. intros. apply zlen_le_bytes.
Qed.

Lemma MakeIntVector_portable : portable (MakeIntVector a).
Proof.
  assert (Hw : ∀ v, v ∈ elements (MakeIntVector a) → wf v).
  { intros v Hv. pose proof int_values_ok as Hok. rewrite <-MakeIntVector_values, Forall_fmap, Forall_forall in Hok. by apply Hok. }
  split; (split; [rewrite zlen_MakeIntVector; cbn; lia|done]).
Qed.

Lemma int_bytes_fit : zlen (enc (MakeIntVector a)) ≤ grow_limit.
Proof. rewrite zlen_int_bytes. unfold grow_limit. destruct size_t_is_32; lia. Qed.

Lemma int_vector_step {Ob} n : int_vector (fresh (O := Ob) n a) = (Ret (MakeIntVector a), fresh n a).
Proof. unfold int_vector, gets. cbn [range fresh]. rewrite Z.mod_small; [done|]. unfold size_mod. destruct size_t_is_32; lia. Qed.

(** The integer benchmarks, for any argument below [2 ^ 28 - 1]. *)
Lemma int_vector_reports :
  reports BM_Serialize_IntVector a [enc (MakeIntVector a)] (4 + 4 * a) ∧
  reports BM_Deserialize_IntVector a [MakeIntVector a] (4 + 4 * a) ∧
  reports BM_Deserialize_IntVector_InPlace a [seqZ 0 a] (4 + 4 * a).
Proof.
  pose proof MakeIntVector_portable as Hp. pose proof int_bytes_fit as Hf. rewrite <-zlen_int_bytes. split_and!.
  - apply (reports_ext _ _ _ _ _ (λ n _, step _ _ _ _ _ (int_vector_step n))). exact (reports_append _ Hp Hf a).
  - apply (reports_ext _ _ _ _ _ (λ n _, step _ _ _ _ _ (int_vector_step n))). exact (reports_decode _ Hp Hf _ a).
  - eapply (reports_ext _ _); [|apply (reports_read (ReadVector Int32) (enc (MakeIntVector a)) (seqZ 0 a)); [|by apply law_bytes, Hp|done]].
    + intros n _. unfold BM_Deserialize_IntVector_InPlace. rewrite (step _ _ _ _ _ (int_vector_step n)).
      by rewrite (step _ _ _ _ _ (fresh_bytes_enc _ _ (proj1 Hp) Hf)).
    + pose proof (reads_ReadVector DefaultOptions 0 Int32 (seqZ 0 a) int_values_ok) as Hr. rewrite zlen_seqZ in Hr.
      rewrite enc_MakeIntVector. apply Hr; cbn; lia.
Qed.
End Integers.

(** ** Packet framing: section 8 *)

Section Framing.
Context `{P : Platform}.

Definition new_parser : PacketFrameParser := NewParser (8 * 1024 * 1024).

(** One round: the frame is consumed completely, so the parser is as good as new. *)
Lemma framing_round decoded (b : bench framed) :
  MakePacket kPlayerStatePacketId MakePlayerState = Ret ([233; 3; 32; 0; 0; 0] ++ small_packet) ∧
  feed_frame ([233; 3; 32; 0; 0; 0] ++ small_packet) (new_parser, decoded) b =
    (Ret (true, (new_parser, MakePlayerState)), watched [Id kPlayerStatePacketId] b).
Proof. destruct b, decoded, P as [[] [] [] []]; split; by vm_compute. Qed.

(** The end-to-end benchmark: on every platform and in every iteration the packet of 38
    bytes ([6] of header) goes through [MakePacket], the parser and [Deserialize], the
    callback sees id 1001 once, [Feed] returns true, and the value comes back; the parser
    is empty again after every frame, so what it buffers does not grow with the run. *)
Theorem framing_reports a :
  reports BM_PacketFraming_RoundTrip a [Id 1001; Fed true; Decoded MakePlayerState] 38 ∧
  ∀ decoded b, ∃ frame b', MakePacket kPlayerStatePacketId MakePlayerState = Ret frame ∧
    feed_frame frame (new_parser, decoded) b = (Ret (true, (new_parser, MakePlayerState)), b').
Proof.
  split; [|intros decoded b; destruct (framing_round decoded b) as [E1 E2]; by eauto].
  apply (reports_loop _ a (λ s, s.1 = new_parser) (λ s,
    frame ← lift_outcome (MakePacket kPlayerStatePacketId MakePlayerState);
    r ← feed_frame frame s;
    DoNotOptimize (Fed r.1) ;;
    DoNotOptimize (Decoded r.2.2) ;;
    mret r.2) (new_parser, default_value)); [|lia|done|].
  - intros n _. unfold BM_PacketFraming_RoundTrip. destruct (framing_round default_value (fresh n a)) as [-> _]. done.
  - intros [parser decoded] b Hs. cbn in Hs. subst parser. destruct (framing_round decoded b) as [-> E].
    eexists. split; [|shelve]. unfold mbind at 1, M_bind at 1, lift_outcome. rewrite (step _ _ _ _ _ E).
    unfold mbind, M_bind. rewrite !DoNotOptimize_watched, !watched_watched. done.
    Unshelve. done.
Qed.
End Framing.

(** ** Strings and nested objects: sections 5 and 6 *)

Section Strings.
Context `{P : Platform}.

(** A string of ASCII text, decided by computation. *)
Definition short_text (s : list Z) : bool := forallb (λ c, (0 <=? c) && (c <? 128)) s && (zlen s <? 2 ^ 16).

Lemma short_text_portable s : short_text s = true → wf (Str s) ∧ within DefaultOptions 1 (Str s).
Proof.
  intros [Hb Hl%Z.ltb_lt]%andb_true_iff. apply portable_string; [|done]. apply Forall_forall. intros c Hc.
  rewrite forallb_forall in Hb. specialize (Hb c). rewrite <-list_elem_of_In in Hb.
  destruct (andb_prop _ _ (Hb Hc)) as [?%Z.leb_le ?%Z.ltb_lt]. unfold byte_ok. lia.
Qed.

Lemma MakeChatMessage_portable : portable MakeChatMessage.
Proof.
  apply portable_object. apply Forall_cons. split; [by apply portable_prim|].
  repeat (apply Forall_cons; split; [by apply short_text_portable|]). by apply Forall_nil.
Qed.

Lemma chat_size : zlen (enc MakeChatMessage) = 97.
Proof. by vm_compute. Qed.

Lemma on_local_returns {Q S A} (m : M S A) s a (b : Q) : (m s).1 = Ret a → on_local s m b = (Ret (a, (m s).2), b).
Proof. unfold on_local. destruct (m s) as [o s']. cbn. by intros ->. Qed.

Lemma string_view_round b bytes : bytes = enc MakeChatMessage →
  (r ← on_local (NewReader bytes DefaultOptions) ReadObjectHeader;
   let '(header, reader) := r in
   DoNotOptimize (Header header) ;;
   r ← on_local reader ReadInt64;
   let '(timestamp, reader) := r in
   DoNotOptimize (Timestamp timestamp) ;;
   r ← on_local reader ReadStringView;
   let '(sender, reader) := r in
   r ← on_local reader ReadStringView;
   let '(body, reader) := r in
   DoNotOptimize (View sender) ;;
   DoNotOptimize (View body)) b =
  (Ret tt, watched [Header (MkHeader 3 false); Timestamp (pval (timestamp MakeChatMessage));
                    View (Some (bytes_of (sender MakeChatMessage))); View (Some (bytes_of (body MakeChatMessage)))] b).
Proof.
  intros ->. set (r0 := NewReader _ _). set (r1 := (ReadObjectHeader r0).2). set (r2 := (ReadInt64 r1).2). set (r3 := (ReadStringView r2).2).
  rewrite (step _ _ _ _ _ (on_local_returns ReadObjectHeader r0 (MkHeader 3 false) b ltac:(destruct P as [[] [] [] []]; by vm_compute))).
  rewrite (step _ _ _ _ _ (DoNotOptimize_watched _ _)).
  rewrite (step _ _ _ _ _ (on_local_returns ReadInt64 r1 (pval (timestamp MakeChatMessage)) _ ltac:(destruct P as [[] [] [] []]; by vm_compute))).
  rewrite (step _ _ _ _ _ (DoNotOptimize_watched _ _)).
  rewrite (step _ _ _ _ _ (on_local_returns ReadStringView r2 (Some (bytes_of (sender MakeChatMessage))) _ ltac:(destruct P as [[] [] [] []]; by vm_compute))).
  rewrite (step _ _ _ _ _ (on_local_returns ReadStringView r3 (Some (bytes_of (body MakeChatMessage))) _ ltac:(destruct P as [[] [] [] []]; by vm_compute))).
  rewrite (step _ _ _ _ _ (DoNotOptimize_watched _ _)), DoNotOptimize_watched, !watched_watched. done.
Qed.

(** The chat message, written, decoded into strings and viewed in place. *)
Lemma chat_reports a :
  reports BM_Serialize_ChatMessage a [enc MakeChatMessage] 97 ∧
  reports BM_Deserialize_ChatMessage a [MakeChatMessage] 97 ∧
  reports BM_Deserialize_ChatMessage_StringView a
    [Header (MkHeader 3 false); Timestamp (pval (timestamp MakeChatMessage));
     View (Some (bytes_of (sender MakeChatMessage))); View (Some (bytes_of (body MakeChatMessage)))] 97.
Proof.
  pose proof MakeChatMessage_portable as Hp.
  assert (Hf : zlen (enc MakeChatMessage) ≤ grow_limit) by (rewrite chat_size; unfold grow_limit; by destruct size_t_is_32).
  split; [exact (reports_append _ Hp Hf a)|]. split; [exact (reports_decode _ Hp Hf default_value a)|].
  eapply (reports_loop _ a (λ _, True) _ tt); [|lia|done|].
  - intros n _. unfold BM_Deserialize_ChatMessage_StringView.
    by rewrite (step _ _ _ _ _ (fresh_bytes_enc _ _ (proj1 Hp) Hf)), chat_size.
  - intros s b _. exists tt. split; [|done]. by apply string_view_round.
Qed.

Definition item_ok (i : Z) : bool :=
  (- 2 ^ 31 <=? i) && (i <? 2 ^ 31) && short_text (bytes_of (name (MakeItem i))) && (0 <=? pval (count (MakeItem i))) && (pval (count (MakeItem i)) <? 8).

Lemma MakeItem_portable i : 0 ≤ i < kItemCount → wf (MakeItem i) ∧ within DefaultOptions 1 (MakeItem i).
Proof.
  intros Hi. assert (Hall : forallb item_ok (seqZ 0 kItemCount) = true) by (vm_compute; reflexivity).
  rewrite forallb_forall in Hall. specialize (Hall i). rewrite <-list_elem_of_In, elem_of_seqZ in Hall.
  destruct (andb_prop _ _ (Hall ltac:(lia))) as [H1 H2%Z.ltb_lt].
  apply andb_prop in H1 as [H1 H3%Z.leb_le]. apply andb_prop in H1 as [_ Hs].
  assert (Hm : Forall (λ s, wf (m_get (ms_member s) (MakeItem i)) ∧ within DefaultOptions 2 (m_get (ms_member s) (MakeItem i))) specs).
  { apply Forall_cons. split; [split; [|done]; change (arith_ok Int32 i); arith_ranges; unfold kItemCount in Hi; lia|].
    apply Forall_cons. split; [split; [|]; by apply (short_text_portable _ Hs)|].
    apply Forall_singleton. split; [|done]. change (arith_ok Int32 (pval (count (MakeItem i)))). arith_ranges. lia. }
  rewrite Forall_forall in Hm. split; [|split; [done|]]; intros s Hin; by apply Hm.
Qed.

Lemma MakeItemList_portable : portable (MakeItemList kItemCount).
Proof.
  apply portable_object, Forall_singleton. apply (portable_vector (MakeItem <$> seqZ 0 kItemCount)); [by vm_compute|].
  apply Forall_fmap, Forall_forall. intros i Hi%elem_of_seqZ. apply MakeItem_portable. lia.
Qed.

(** The list of 100 items. *)
Lemma item_list_reports a : ∃ size, zlen (enc (MakeItemList kItemCount)) = size ∧
  reports BM_Serialize_ItemList a [enc (MakeItemList kItemCount)] size ∧
  reports BM_Deserialize_ItemList a [MakeItemList kItemCount] size.
Proof.
  pose proof MakeItemList_portable as Hp. exists (zlen (enc (MakeItemList kItemCount))). split; [done|].
  assert (Hf : zlen (enc (MakeItemList kItemCount)) ≤ grow_limit).
  { assert (E : zlen (enc (MakeItemList kItemCount)) = 2395) by (vm_compute; reflexivity). rewrite E.
    unfold grow_limit. by destruct size_t_is_32. }
  split; [exact (reports_append _ Hp Hf a)|exact (reports_decode _ Hp Hf default_value a)].
Qed.
End Strings.
