(* ===== verification/Progress.v ===== *)
(** Progress of [MemoryPackReader]: a read never moves the cursor back, whatever the bytes
    and whether it succeeds, and a read of a header moves it on. Loops that run until the
    end of the input therefore terminate. *)
From S2P Require Import Prelude Endian Writer Reader Headers Utf Strings Formatter Collections Unmanaged.

Section Forward.
Context `{Platform}.

(** [m] does not move the reader back. *)
Definition forward_at {A} (r : MemoryPackReader) (m : R A) : Prop := pos_ r ≤ pos_ (m r).2.
Abbreviation forward m := (∀ r, r_ok r → forward_at r m).

Lemma forward_bind {A B} r (m : R A) (k : A → R B) P : safe_at r m P → forward_at r m →
  (∀ x r', r_ok r' → P x r' → forward_at r' (k x)) → forward_at r (m ≫= k).
Proof.
  unfold safe_at, forward_at, mbind, M_bind. destruct (m r) as [[x|e off|] r']; [|done..]. cbn.
  intros (S & _ & HP) Hm Hk. specialize (Hk x r' (rstep_ok _ _ S) HP). lia.
Qed.

Lemma forward_ret {A} r (x : A) : forward_at r (mret x).
Proof. apply Z.le_refl. Qed.

Lemma forward_gets {A B} r (f : MemoryPackReader → A) (k : A → R B) : forward_at r (k (f r)) → forward_at r (gets f ≫= k).
Proof. done. Qed.

Lemma forward_Fail r e : forward_at r (Fail e).
Proof. unfold forward_at, Fail. destruct (decide _), has_exceptions; apply Z.le_refl. Qed.

Lemma forward_fail_ret {A} r e (x : A) : forward_at r (Fail e ;; mret x).
Proof.
  pose proof (forward_Fail r e) as Hf. unfold forward_at, mbind, M_bind in *. by destruct (Fail e r) as [[[]| |] r'].
Qed.

Lemma forward_EnsureBytes r n : forward_at r (EnsureBytes n).
Proof.
  unfold forward_at, EnsureBytes. destruct (decide _); [|apply Z.le_refl].
  destruct (_ >? _); [apply (forward_fail_ret r)|apply Z.le_refl].
Qed.

Lemma forward_take n : 0 ≤ n → forward (take_bytes n).
Proof.
  intros Hn r Hr. unfold take_bytes. eapply forward_bind; [by apply safe_EnsureBytes|apply forward_EnsureBytes|].
  intros [|] r' Hr'; [|intros; apply forward_ret]. intros (-> & _ & Hroom).
  pose proof (ok_pos r Hr). pose proof (ok_size r Hr).
  unfold forward_at, mbind, M_bind, gets, load. cbn. destruct (_ && _); cbn; [|lia]. rewrite size_add_small by lia. lia.
Qed.

Lemma forward_ReadRaw t : forward (ReadRaw t).
Proof.
  intros r Hr. pose proof (sizeof_pos t). eapply forward_bind; [by apply safe_take_bytes; [|lia]|by apply forward_take; [lia|]|].
  intros. apply forward_ret.
Qed.

Lemma forward_ReadByte : forward ReadByte.
Proof.
  intros r Hr. eapply forward_bind; [by apply safe_take_bytes|by apply forward_take|]. intros. apply forward_ret.
Qed.
End Forward.

Abbreviation forward m := (∀ r, r_ok r → forward_at r m).

Create HintDb forward.
#[export] Hint Resolve forward_Fail forward_EnsureBytes forward_take forward_ReadRaw forward_ReadByte : forward.
#[export] Hint Extern 1 (_ ≤ _) => lia : forward.

(** One step: a rule for the head construct. *)
Ltac forward_step :=
  lazymatch goal with
  | |- forall _, _ => intros ? ?
  | |- forward_at _ (gets _ ≫= _) => apply forward_gets
  | |- forward_at _ (Fail _ ;; mret _) => apply forward_fail_ret
  | |- forward_at _ (mbind _ _) =>
      eapply forward_bind; [solve [eauto with safe]|solve [eauto with forward]|cbv beta; intros]
  | |- forward_at _ (mret _) => apply forward_ret
  | |- forward_at _ (if ?b then _ else _) => destruct b eqn:?
  | |- forward_at _ (match ?x with _ => _ end) => destruct x eqn:?
  | |- forward_at _ _ => solve [eauto with forward]
  end.
Ltac forward_go := repeat forward_step.

Section ForwardOps.
Context `{Platform}.

Lemma forward_ReadObjectHeader : forward ReadObjectHeader.
Proof. unfold ReadObjectHeader. forward_go. Qed.

Lemma forward_ReadUnionHeader : forward ReadUnionHeader.
Proof. unfold ReadUnionHeader. forward_go. Qed.

Lemma forward_ReadVarIntLength : forward ReadVarIntLength.
Proof. unfold ReadVarIntLength. forward_go. Qed.

Lemma forward_ReadCollectionLength m : forward (ReadCollectionLength m).
Proof. unfold ReadCollectionLength. forward_go. Qed.

Lemma forward_CheckStringLength n u : forward (CheckStringLength n u).
Proof. unfold CheckStringLength. forward_go. Qed.

Lemma forward_Advance n : 0 ≤ n → forward (Advance n).
Proof.
  intros Hn r Hr. unfold Advance. eapply forward_bind; [by apply safe_EnsureBytes|apply forward_EnsureBytes|].
  intros [|] r' Hr'; [|intros; apply forward_ret]. intros (-> & _ & Hroom).
  pose proof (ok_pos r Hr). pose proof (ok_size r Hr).
  unfold forward_at. cbn. rewrite size_add_small by lia. lia.
Qed.

(** A header that was read without an error is behind the cursor. *)
Lemma ReadByte_advances r : r_ok r → error_ r = NoError → pos_ r < size_ r →
  ∃ b, ReadByte r = (Ret b, skip 1 r).
Proof.
  intros Hr E Hroom. pose proof (reads_ReadByte (options_ r) (depth_ r) (nth (Z.to_nat (pos_ r)) (data_ r) 0) r) as Hb.
  eexists. apply Hb; [by split|]. pose proof (ok_pos r Hr). unfold rest, size_, zlen in *.
  destruct (drop (Z.to_nat (pos_ r)) (data_ r)) as [|x l] eqn:El.
  - assert (Hl : length (drop (Z.to_nat (pos_ r)) (data_ r)) = 0%nat) by (by rewrite El). rewrite length_drop in Hl. lia.
  - assert (Hx : nth (Z.to_nat (pos_ r)) (data_ r) 0 = x).
    { rewrite <-(take_drop (Z.to_nat (pos_ r)) (data_ r)), El, app_nth2; rewrite length_take; [|lia].
      by replace (_ - _)%nat with 0%nat by lia. }
    rewrite Hx. by exists l.
Qed.
End ForwardOps.

#[export] Hint Resolve forward_ReadObjectHeader forward_ReadUnionHeader forward_ReadVarIntLength
  forward_ReadCollectionLength forward_CheckStringLength forward_Advance : forward.
#[export] Hint Resolve safe_ReadRaw safe_ReadCollectionLength safe_CheckStringLength safe_ReadVarIntLength
  safe_ReadUnionHeader safe_ReadObjectHeader : safe.

Section ForwardStrings.
Context `{Platform}.

Lemma forward_ReadUtf16Payload n r : r_ok r → 0 ≤ n < 2 ^ 31 → forward_at r (ReadUtf16Payload n).
Proof.
  intros Hr Hn. unfold ReadUtf16Payload. pose proof size_mod_pos. rewrite Z.mod_small by lia.
  eapply forward_bind; [by apply safe_EnsureBytes|apply forward_EnsureBytes|]. intros [|] r1 Hr1 He; [|apply forward_ret].
  destruct He as (-> & Herr & Hroom). cbn [negb].
  destruct (bytes_units (Z.to_nat n) (take (Z.to_nat (n * 2)) (rest r))) as (units & Hl & Hu & Hok).
  { apply Forall_take, Forall_drop, Hr. }
  { pose proof (rest_length r Hr) as Hlr. unfold zlen in Hlr. rewrite length_take. lia. }
  assert (Hrest : rest r = (units ≫= le_bytes 2) ++ drop (Z.to_nat (n * 2)) (rest r)) by (by rewrite <-Hu, take_drop).
  unfold forward_at. rewrite <-Hl, (read_utf16_loop_spec (options_ r) (depth_ r) (length units) units [] _ r) by done.
  cbn. zlen_pos. lia.
Qed.

Lemma forward_ReadUtf8Payload n r : r_ok r → 0 ≤ n → forward_at r (ReadUtf8Payload n).
Proof. intros Hr Hn. unfold ReadUtf8Payload. forward_go. Qed.

Lemma forward_ReadUtf16String n r : r_ok r → 0 ≤ n < 2 ^ 31 → forward_at r (ReadUtf16String n).
Proof.
  intros Hr Hn. unfold ReadUtf16String. forward_step. destruct (negb _); [apply forward_ret|].
  by apply forward_ReadUtf16Payload.
Qed.

Lemma forward_ReadString : forward ReadString.
Proof.
  intros r Hr. unfold ReadString. eapply forward_bind; [by apply safe_ReadRaw|by apply forward_ReadRaw|].
  intros header r1 Hr1 Hh. cbv beta in Hh. arith_ranges. forward_go.
  - eapply forward_bind; [apply safe_ReadUtf16String; [done|lia]|apply forward_ReadUtf16String; [done|lia]|].
    intros. apply forward_ret.
  - assert (0 ≤ Z.lnot header) by (unfold Z.lnot; lia).
    eapply forward_bind; [by apply safe_ReadUtf8Payload|by apply forward_ReadUtf8Payload|]. intros. apply forward_ret.
Qed.

(** [ReadStringView] goes back to the header it could not use, which is where it started. *)
Lemma view_rewind r r1 : r_ok r → r_step r r1 → Failed r1 = false → r_step r1 (set_pos (pos_ r) r1).
Proof.
  intros Hr S E%bool_decide_eq_false. pose proof (ok_pos r Hr) as Hp. split; try done.
  apply r_ok_set_pos; [apply S|]. unfold size_ in *. by rewrite (rstep_data _ _ S).
Qed.

Lemma safe_ReadStringView : safe ReadStringView anything.
Proof.
  intros r Hr. unfold ReadStringView. apply safe_at_gets_bind. eapply safe_at_bind; [by apply safe_ReadRaw|].
  intros header r1 Hr1 S1 Hh. cbv beta in Hh. arith_ranges. safe_go.
  - eapply safe_at_bind; [|intros; by apply safe_at_ret].
    apply (safe_at_modify _ _ anything); [by apply view_rewind|done|done].
  - eapply safe_at_anything. apply safe_ReadUtf8Payload; [done|unfold Z.lnot; lia].
Qed.

Lemma forward_ReadStringView : forward ReadStringView.
Proof.
  intros r Hr. unfold ReadStringView. apply forward_gets.
  pose proof (safe_ReadRaw r Int32 Hr ltac:(done)) as Hs. pose proof (forward_ReadRaw Int32 r Hr) as Hf.
  unfold safe_at, forward_at in *. unfold mbind at 1, M_bind at 1.
  destruct (ReadRaw Int32 r) as [[header|e off|] r1]; [|done..]. destruct Hs as (S & _ & Hh). cbn in Hf. arith_ranges.
  unfold mbind at 1, M_bind at 1, gets at 1. cbn [fst snd]. repeat case_match; try done. etrans; [exact Hf|].
  apply forward_ReadUtf8Payload; [apply S|unfold Z.lnot; lia].
Qed.
End ForwardStrings.

#[export] Hint Resolve forward_ReadString safe_ReadStringView forward_ReadStringView : forward.

(** ** Loops and collections *)

Section ForwardCollections.
Context `{Platform}.

Lemma forward_read_fold {A B} n (m : R A) (ins : B → A → B) : safe m anything → forward m → ∀ acc, forward (read_fold n m ins acc).
Proof.
  intros Sm Fm. induction n as [|n IH]; intros acc r Hr; [apply forward_ret|]. cbn [read_fold].
  apply forward_gets. destruct (Failed r); [apply forward_ret|].
  eapply forward_bind; [by apply Sm|by apply Fm|]. intros. by apply IH.
Qed.

Lemma forward_read_all {A} n (m : R A) : safe m anything → forward m → ∀ out, forward (read_all n m out).
Proof.
  intros Sm Fm. induction n as [|n IH]; intros out r Hr; [apply forward_ret|]. cbn [read_all].
  eapply forward_bind; [by apply Sm|by apply Fm|]. intros. by apply IH.
Qed.

Lemma forward_take_block r count e : r_ok r → 0 ≤ count * e < size_mod → forward_at r (take_block count e).
Proof.
  intros Hr Hn. unfold forward_at. rewrite take_block_take_bytes by done. apply forward_take; [lia|done].
Qed.

Lemma forward_map {A B} (m : R A) (f : A → B) r : forward_at r m → forward_at r (x ← m; mret (f x)).
Proof. unfold forward_at, mbind, M_bind. by destruct (m r) as [[x|e off|] r']. Qed.

(** A loop over an accepted length. *)
Lemma forward_collection {B} m (dflt : B) (k : Z → R B) : 0 < m →
  (∀ len r, r_ok r → length_accepted m len r → 0 < len → forward_at r (k len)) →
  forward (len ← ReadCollectionLength m; if len <=? 0 then mret dflt else k len).
Proof.
  intros Hm Hk r Hr. eapply forward_bind; [by apply safe_ReadCollectionLength|by apply forward_ReadCollectionLength|].
  intros len r' Hr' Hlen. destruct (Z.leb_spec len 0); [apply forward_ret|by apply Hk].
Qed.

Lemma forward_raws n t out r : r_ok r → forward_at r (read_all n (ReadRaw t) out).
Proof. intros Hr. apply forward_read_all; [apply safe_ReadRaw_any|apply forward_ReadRaw|done]. Qed.

Lemma forward_ReadVector t : forward (ReadVector t).
Proof.
  pose proof (sizeof_pos t). apply (forward_collection _ [] (read_vector_body t)); [lia|].
  intros len r Hr Hlen Hpos. unfold read_vector_body. destruct native_little.
  - apply forward_map, forward_take_block; [done|]. by apply (accepted_no_wrap _ _ r); [|lia|..].
  - eapply forward_bind; [by apply safe_EnsureBytes|apply forward_EnsureBytes|].
    intros [|] r1 Hr1 _; [by apply forward_raws|apply forward_ret].
Qed.

Lemma forward_ReadStringVector : forward ReadStringVector.
Proof.
  apply forward_collection; [lia|]. intros len r Hr _ _.
  apply forward_read_fold; [apply safe_map, safe_ReadString_any| |done].
  intros r' Hr'. by apply forward_map, forward_ReadString.
Qed.

Lemma forward_ReadArrayKept r t arr n : r_ok r → 0 ≤ n * sizeof t < size_mod → forward_at r (ReadArrayKept t arr n).
Proof.
  intros Hr Hn. unfold ReadArrayKept. destruct (_ >? _); [apply Z.le_refl|]. destruct native_little.
  - by apply forward_map, forward_take_block.
  - eapply forward_bind; [by apply safe_EnsureBytes|apply forward_EnsureBytes|].
    intros [|] r1 Hr1 _; [by apply forward_map, forward_raws|apply forward_ret].
Qed.

Lemma forward_ReadArraySkip t n : forward (ReadArraySkip t n).
Proof.
  intros r Hr. unfold forward_at. rewrite ReadArraySkip_Advance. destruct (n >? 0); [|apply Z.le_refl].
  pose proof size_mod_pos. apply forward_Advance; [apply Z.mod_pos_bound; lia|done].
Qed.

Lemma forward_ReadArray t arr n : n ≤ zlen arr → forward (ReadArray t arr n).
Proof.
  intros Hn. pose proof (sizeof_pos t). apply (forward_collection _ (0, arr) (read_array_body t arr n)); [lia|].
  intros len r Hr Hlen Hpos. pose proof (accepted_no_wrap (sizeof t) len r Hr ltac:(lia) Hlen Hpos).
  unfold read_array_body. set (k := if len <=? n then len else n).
  assert (Hk : k ≤ len ∧ k ≤ zlen arr) by (unfold k; destruct (Z.leb_spec len n); lia).
  eapply (forward_bind _ _ _ anything).
  - destruct (Z.gtb_spec k 0); [apply safe_ReadArrayKept; [done|nia|lia]|by apply safe_at_ret].
  - destruct (Z.gtb_spec k 0); [apply forward_ReadArrayKept; [done|nia]|apply forward_ret].
  - intros [arr'|] r1 Hr1 _; [by apply forward_map, forward_ReadArraySkip|apply forward_ret].
Qed.

Lemma forward_ReadStdArray t N : 0 ≤ N → forward (ReadStdArray t N).
Proof.
  intros HN r Hr. apply forward_map, forward_ReadArray; [|done]. by rewrite zlen_replicate_Z.
Qed.

Lemma safe_ReadStdArray t N : 0 ≤ N → safe (ReadStdArray t N) anything.
Proof. intros HN. apply safe_map, safe_ReadArray. by rewrite zlen_replicate_Z. Qed.

Lemma forward_ReadUnmanaged {T} (rep : object_rep T) init : 0 < rep_size rep → forward (ReadUnmanaged rep init).
Proof. intros Hs r Hr. apply forward_map, forward_take; [lia|done]. Qed.
End ForwardCollections.
