(* ===== verification/Fuzz.v ===== *)
(** The fuzz target ([tests/fuzz/fuzz_deserialize.cpp]): the types it reads, its harness
    around the reader and the frame parser, and its entry point. The recursive type [Deep]
    has a formatter per level of nesting, which is undefined below the last level. *)
From S2P Require Import Prelude Endian Writer Reader Headers Utf Strings Formatter Collections Assoc Nullable Objects Union Unmanaged DotNet Api Packet.

(** ** [namespace fuzztypes] *)

Module fuzztypes.

Record Item := MkItem { id : prim Int32; name : string; count : prim Int32 }.

Record Inventory := MkInventory {
  ownerId : prim Int32;
  items : vector Item;
  tags : std_map string (prim Int32);
}.

Inductive Deep := MkDeep (depth : prim Int32) (children : vector Deep).

Definition depth (v : Deep) : prim Int32 := let 'MkDeep d _ := v in d.
Definition children (v : Deep) : vector Deep := let 'MkDeep _ c := v in c.

(** The components of [std::tuple<int32_t, std::string>]. *)
Record int_string := MkIntString { get0 : prim Int32; get1 : string }.

Record Everything := MkEverything {
  flag : prim Bool_t;
  i8 : prim Int8;
  u16 : prim UInt16;
  i64 : prim Int64;
  d : prim Float64;
  text : string;
  maybeText : option string;
  maybeInt : option (prim Int32);
  numbers : vector (prim Int32);
  flags : vector (prim Bool_t);
  names : vector string;
  matrix : vector (vector (prim Int32));
  lookup : std_map (prim Int32) string;
  unique : std_set (prim Int32);
  pair : prim Int32 * string;
  tuple_ : tuple int_string;
}.

Record AltA := MkAltA { a : prim Int32 }.
Record AltB := MkAltB { b : string }.

(** [std::variant<AltA, AltB>]. *)
Definition Alt : Type := AltA + AltB.

Record Vec3 := MkVec3 { x : Z; y : Z; z : Z }.

Definition zero {t} : prim t := Prim 0.

Section Definitions.
Context `{Platform}.

#[export] Instance Item_members : Members Item := {
  default_value := MkItem zero (Str []) zero;
  members := [
    Member (prim Int32) id (λ x v, MkItem x (name v) (count v));
    Member string name (λ x v, MkItem (id v) x (count v));
    Member (prim Int32) count (λ x v, MkItem (id v) (name v) x)] }.

#[export] Instance Inventory_members : Members Inventory := {
  default_value := MkInventory zero (Vector []) c_clear;
  members := [
    Member (prim Int32) ownerId (λ x v, MkInventory x (items v) (tags v));
    Member (vector Item) items (λ x v, MkInventory (ownerId v) x (tags v));
    Member (std_map string (prim Int32)) tags (λ x v, MkInventory (ownerId v) (items v) x)] }.

(** The members of [Deep], given what reads and writes the children. *)
Definition Deep_members (child : MemoryPackFormatter Deep) : Members Deep := {|
  default_value := MkDeep zero (Vector []);
  members := [
    Member (prim Int32) depth (λ x v, MkDeep x (children v));
    Member (vector Deep) children (λ x v, MkDeep (depth v) x)] |}.

Fixpoint Deep_formatter (levels : nat) : MemoryPackFormatter Deep :=
  match levels with
  | O => {|
      value_init := MkDeep zero (Vector []);
      kind := OtherType;
      Serialize := λ _, undefined;
      Deserialize := λ _, undefined |}
  | S levels' => object_formatter (H0 := Deep_members (Deep_formatter levels'))
  end.

#[export] Instance int_string_members : Members int_string := {
  default_value := MkIntString zero (Str []);
  members := [
    Member (prim Int32) get0 (λ x v, MkIntString x (get1 v));
    Member string get1 (λ x v, MkIntString (get0 v) x)] }.

#[export] Instance Everything_members : Members Everything := {
  default_value := MkEverything zero zero zero zero zero (Str []) None None (Vector []) (Vector []) (Vector [])
    (Vector []) c_clear c_clear (zero, Str []) (Tuple default_value);
  members := [
    Member (prim Bool_t) flag (λ x v, MkEverything x (i8 v) (u16 v) (i64 v) (d v) (text v) (maybeText v) (maybeInt v) (numbers v) (flags v) (names v) (matrix v) (lookup v) (unique v) (pair v) (tuple_ v));
    Member (prim Int8) i8 (λ x v, MkEverything (flag v) x (u16 v) (i64 v) (d v) (text v) (maybeText v) (maybeInt v) (numbers v) (flags v) (names v) (matrix v) (lookup v) (unique v) (pair v) (tuple_ v));
    Member (prim UInt16) u16 (λ x v, MkEverything (flag v) (i8 v) x (i64 v) (d v) (text v) (maybeText v) (maybeInt v) (numbers v) (flags v) (names v) (matrix v) (lookup v) (unique v) (pair v) (tuple_ v));
    Member (prim Int64) i64 (λ x v, MkEverything (flag v) (i8 v) (u16 v) x (d v) (text v) (maybeText v) (maybeInt v) (numbers v) (flags v) (names v) (matrix v) (lookup v) (unique v) (pair v) (tuple_ v));
    Member (prim Float64) d (λ x v, MkEverything (flag v) (i8 v) (u16 v) (i64 v) x (text v) (maybeText v) (maybeInt v) (numbers v) (flags v) (names v) (matrix v) (lookup v) (unique v) (pair v) (tuple_ v));
    Member string text (λ x v, MkEverything (flag v) (i8 v) (u16 v) (i64 v) (d v) x (maybeText v) (maybeInt v) (numbers v) (flags v) (names v) (matrix v) (lookup v) (unique v) (pair v) (tuple_ v));
    Member (option string) maybeText (λ x v, MkEverything (flag v) (i8 v) (u16 v) (i64 v) (d v) (text v) x (maybeInt v) (numbers v) (flags v) (names v) (matrix v) (lookup v) (unique v) (pair v) (tuple_ v));
    Member (option (prim Int32)) maybeInt (λ x v, MkEverything (flag v) (i8 v) (u16 v) (i64 v) (d v) (text v) (maybeText v) x (numbers v) (flags v) (names v) (matrix v) (lookup v) (unique v) (pair v) (tuple_ v));
    Member (vector (prim Int32)) numbers (λ x v, MkEverything (flag v) (i8 v) (u16 v) (i64 v) (d v) (text v) (maybeText v) (maybeInt v) x (flags v) (names v) (matrix v) (lookup v) (unique v) (pair v) (tuple_ v));
    Member (vector (prim Bool_t)) flags (λ x v, MkEverything (flag v) (i8 v) (u16 v) (i64 v) (d v) (text v) (maybeText v) (maybeInt v) (numbers v) x (names v) (matrix v) (lookup v) (unique v) (pair v) (tuple_ v));
    Member (vector string) names (λ x v, MkEverything (flag v) (i8 v) (u16 v) (i64 v) (d v) (text v) (maybeText v) (maybeInt v) (numbers v) (flags v) x (matrix v) (lookup v) (unique v) (pair v) (tuple_ v));
    Member (vector (vector (prim Int32))) matrix (λ x v, MkEverything (flag v) (i8 v) (u16 v) (i64 v) (d v) (text v) (maybeText v) (maybeInt v) (numbers v) (flags v) (names v) x (lookup v) (unique v) (pair v) (tuple_ v));
    Member (std_map (prim Int32) string) lookup (λ x v, MkEverything (flag v) (i8 v) (u16 v) (i64 v) (d v) (text v) (maybeText v) (maybeInt v) (numbers v) (flags v) (names v) (matrix v) x (unique v) (pair v) (tuple_ v));
    Member (std_set (prim Int32)) unique (λ x v, MkEverything (flag v) (i8 v) (u16 v) (i64 v) (d v) (text v) (maybeText v) (maybeInt v) (numbers v) (flags v) (names v) (matrix v) (lookup v) x (pair v) (tuple_ v));
    Member (prim Int32 * string) pair (λ x v, MkEverything (flag v) (i8 v) (u16 v) (i64 v) (d v) (text v) (maybeText v) (maybeInt v) (numbers v) (flags v) (names v) (matrix v) (lookup v) (unique v) x (tuple_ v));
    Member (tuple int_string) tuple_ (λ x v, MkEverything (flag v) (i8 v) (u16 v) (i64 v) (d v) (text v) (maybeText v) (maybeInt v) (numbers v) (flags v) (names v) (matrix v) (lookup v) (unique v) (pair v) x)] }.

#[export] Instance AltA_members : Members AltA := {
  default_value := MkAltA zero;
  members := [Member (prim Int32) a (λ x _, MkAltA x)] }.

#[export] Instance AltB_members : Members AltB := {
  default_value := MkAltB (Str []);
  members := [Member string b (λ x _, MkAltB x)] }.

#[export] Instance Alt_variant : Variant Alt := {
  first_alternative := inl default_value;
  alternatives := [
    Alternative AltA 0 inl (λ v, if v is inl x then Some x else None);
    Alternative AltB 300 inr (λ v, if v is inr x then Some x else None)] }.

#[export] Instance Vec3_unmanaged : Unmanaged Vec3 := {
  um_rep := float_struct 3 (λ v, [x v; y v; z v]) (λ l, MkVec3 (nth 0 l 0) (nth 1 l 0) (nth 2 l 0));
  um_init := MkVec3 0 0 0 }.
End Definitions.
End fuzztypes.

Import fuzztypes.

(** ** The harness *)

Section Harness.
Context `{Platform}.

(** [try { ... } catch (const MemoryPackException&) {}], or just the block in a build
    without exceptions. *)
Definition swallow {A} (o : outcome A) : outcome unit :=
  match o with
  | Ret _ => Ret tt
  | Throw e off => if has_exceptions then Ret tt else Throw e off
  | UB => UB
  end.

Definition TryOne (T : Type) `{!MemoryPackFormatter T} (data : list Z) (options : ReaderOptions) : outcome unit :=
  swallow (fst (ReadInto (T := T) value_init (NewReader data options))).

(** The body of the loop of [TryPrimitives]. *)
Definition try_round : R unit :=
  _ ← ReadObjectHeader;
  _ ← ReadUnionHeader;
  _ ← ReadVarIntLength;
  _ ← ReadInt32;
  _ ← ReadDouble;
  _ ← ReadString;
  _ ← ReadStringView;
  _ ← ReadVector Int32;
  _ ← ReadStringVector;
  _ ← ReadStdArray Int32 4;
  _ ← ReadUnmanaged (um_rep (T := Vec3)) um_init;
  mret tt.

Fixpoint try_loop (fuel : nat) : R unit :=
  more ← gets (λ r, negb (IsEnd r) && negb (Failed r));
  if negb more then mret tt else
  match fuel with
  | O => undefined
  | S fuel' => try_round ;; try_loop fuel'
  end.

(** A round consumes at least one byte. *)
Definition TryPrimitives (data : list Z) (options : ReaderOptions) : outcome unit :=
  swallow (fst (try_loop (length data) (NewReader data options))).

(** The callback of [TryFraming]. *)
Definition try_body (_ : Z) (body : list Z) : M unit unit := lift_outcome (swallow (DeserializeNew (T := Item) body)).

(** [data.subspan(offset, n)]. *)
Definition subspan {S} (offset n : Z) (data : list Z) : M S (list Z) :=
  if (0 <=? offset) && (offset + n <=? zlen data) then mret (slice offset n data) else undefined.

Fixpoint framing_loop (fuel : nat) (data : list Z) (offset : Z) : M (PacketFrameParser * unit) unit :=
  if offset <? zlen data then
    match fuel with
    | O => undefined
    | S fuel' =>
        let chunk := Z.min 7 (size_sub (zlen data) offset) in
        bytes ← subspan offset chunk data;
        ok ← Feed bytes try_body;
        if negb ok then mret tt else framing_loop fuel' data (size_add offset chunk)
    end
  else mret tt.

Definition TryFraming (data : list Z) : outcome unit :=
  fst (framing_loop (length data) data 0 (NewParser (64 * 1024), tt)).

(** The limits of the target. *)
Definition fuzz_options : ReaderOptions := MkOptions (2 ^ 20) (2 ^ 20) 64.

(** [Deep] is read with one level more than the nesting the options allow. *)
Definition fuzz_payload (selector : Z) (payload : list Z) : outcome unit :=
  match selector mod 12 with
  | 0 => TryOne Item payload fuzz_options
  | 1 => TryOne Inventory payload fuzz_options
  | 2 => TryOne Everything payload fuzz_options
  | 3 => @TryOne Deep (Deep_formatter (S (Z.to_nat (maxDepth fuzz_options)))) payload fuzz_options
  | 4 => TryOne string payload fuzz_options
  | 5 => TryOne (vector (prim Int32)) payload fuzz_options
  | 6 => TryOne (vector string) payload fuzz_options
  | 7 => TryOne (std_map string string) payload fuzz_options
  | 8 => TryOne Alt payload fuzz_options
  | 9 => TryOne (option Item) payload fuzz_options
  | 10 => TryPrimitives payload fuzz_options
  | _ => TryFraming payload
  end.

Definition LLVMFuzzerTestOneInput (data : list Z) : outcome Z :=
  match data with
  | [] => Ret 0
  | selector :: payload => outcome_map (λ _, 0) (fuzz_payload selector payload)
  end.
End Harness.

(** Inputs that reach each decoder, on a host with exceptions and one without. *)
Definition fuzz_seeds : list (list Z) :=
  [[]; [0; 3; 1; 0; 0; 0]; [2; 255]; [3; 2; 7; 0; 0; 0; 2; 0; 0; 0; 2; 1; 0; 0; 0; 0; 0; 0; 0; 255];
   [8; 250; 44; 1; 1; 255; 255; 255; 255]; [9; 255]; [10; 1; 2; 3; 4; 5; 6]; [11; 1; 0; 255; 255; 255; 255]].

Example fuzz_seeds_run :
  (@LLVMFuzzerTestOneInput host64 <$> fuzz_seeds) = replicate 8 (Ret 0) ∧
  (@LLVMFuzzerTestOneInput host32 <$> fuzz_seeds) = replicate 8 (Ret 0).
Proof. by vm_compute. Qed.
