(* ===== verification/FuzzTheorems.v ===== *)
(** No input crashes the fuzz target ([Fuzz]): whatever the bytes, the decoder they select
    stays inside the input, terminates and lets no exception out, and the entry point
    returns 0. *)
From S2P Require Import Prelude Endian Writer Reader Headers Utf Strings Formatter Collections Assoc Nullable Objects Union Unmanaged Decoded DotNet Api Packet Progress Fuzz.
Import fuzztypes.

(** ** The laws of the types *)

Section Fuzz.
Context `{Platform}.

#[local] Instance Item_laws : MembersLaws Item := {
  specs := [
    MemberSpec (Member (V := Item) (prim Int32) id (λ x v, MkItem x (name v) (count v)));
    MemberSpec (Member (V := Item) string name (λ x v, MkItem (id v) x (count v)));
    MemberSpec (Member (V := Item) (prim Int32) count (λ x v, MkItem (id v) (name v) x))];
  specs_members := eq_refl;
  specs_count := ltac:(done);
  specs_rebuild := ltac:(by intros [] []);
}.

#[local] Instance int_string_laws : MembersLaws int_string := {
  specs := [
    MemberSpec (Member (V := int_string) (prim Int32) get0 (λ x v, MkIntString x (get1 v)));
    MemberSpec (Member (V := int_string) string get1 (λ x v, MkIntString (get0 v) x))];
  specs_members := eq_refl;
  specs_count := ltac:(done);
  specs_rebuild := ltac:(by intros [] []);
}.

#[local] Instance AltA_laws : MembersLaws AltA := {
  specs := [MemberSpec (Member (V := AltA) (prim Int32) a (λ x _, MkAltA x))];
  specs_members := eq_refl;
  specs_count := ltac:(done);
  specs_rebuild := ltac:(by intros [] []);
}.

#[local] Instance AltB_laws : MembersLaws AltB := {
  specs := [MemberSpec (Member (V := AltB) string b (λ x _, MkAltB x))];
  specs_members := eq_refl;
  specs_count := ltac:(done);
  specs_rebuild := ltac:(by intros [] []);
}.

#[local] Instance Alt_laws : VariantLaws Alt.
Proof.
  refine {| alt_specs := [
    AlternativeSpec (Alternative (V := Alt) AltA 0 inl (λ v, if v is inl x then Some x else None));
    AlternativeSpec (Alternative (V := Alt) AltB 300 inr (λ v, if v is inr x then Some x else None))] |}.
  - done.
  - repeat (apply Forall_cons; split; [cbn; lia|]). by apply Forall_nil_2.
  - cbn. repeat (apply NoDup_cons; split; [set_solver|]). apply NoDup_nil_2.
  - intros alt v y Hin. repeat (apply elem_of_cons in Hin as [->|Hin]; [by destruct v; intros [= ->]|]). by apply elem_of_nil in Hin.
  - intros [v|v]; [apply Exists_cons_hd|apply Exists_cons_tl, Exists_cons_hd]; by eexists.
Defined.

#[local] Instance Vec3_laws : UnmanagedLaws Vec3.
Proof. by split. Qed.

(** Every member of an object reads safely, so the object does. *)
Lemma safe_object {V} `{!Members V} (old : V) :
  Forall (λ m : member V, ∀ v : m_type m, safe (ReadInto v) anything) members → safe (Define_Deserialize old) anything.
Proof.
  intros Hm r Hr. apply (safe_Define_inv (λ _ _, True)); try done.
  eapply Forall_impl; [exact Hm|]. intros m Hread v r' Hr' _. eapply safe_at_mono; [by apply Hread|done].
Qed.

Ltac members_safe :=
  apply safe_object; unfold members; cbn; repeat (apply Forall_cons; split; [intros v; apply law_safe|]); by apply Forall_nil_2.

Lemma safe_Inventory old : safe (Deserialize (T := Inventory) old) anything.
Proof. members_safe. Qed.

Lemma safe_Everything old : safe (Deserialize (T := Everything) old) anything.
Proof. members_safe. Qed.

(** ** The recursive type *)

(** The reader is at depth [d] and clean, or in the error state. *)
Definition at_depth (d : Z) (r : MemoryPackReader) : Prop := error_ r = NoError → depth_ r = d.

(** Reads that leave the depth alone. *)
Definition keeps_depth {A} (m : R A) : Prop := ∀ r, depth_ (m r).2 = depth_ r.

Lemma keeps_depth_bind {A B} (m : R A) (k : A → R B) : keeps_depth m → (∀ x, keeps_depth (k x)) → keeps_depth (m ≫= k).
Proof.
  intros Hm Hk r. specialize (Hm r). unfold mbind, M_bind. destruct (m r) as [[x|e off|] r']; [|done..].
  cbn in Hm. by rewrite <-Hm, Hk.
Qed.

Lemma keeps_depth_ret {A} (x : A) : keeps_depth (mret x).
Proof. done. Qed.

Lemma keeps_depth_gets {A} (f : MemoryPackReader → A) : keeps_depth (gets f).
Proof. done. Qed.

Lemma keeps_depth_Fail e : keeps_depth (Fail e).
Proof. intros r. unfold Fail. destruct (decide _), has_exceptions; done. Qed.

Lemma keeps_depth_EnsureBytes n : keeps_depth (EnsureBytes n).
Proof.
  intros r. unfold EnsureBytes. destruct (decide _); [|done]. destruct (_ >? _); [|done].
  apply (keeps_depth_bind _ _ (keeps_depth_Fail _)). intros. apply keeps_depth_ret.
Qed.

Lemma keeps_depth_take n : keeps_depth (take_bytes n).
Proof.
  apply keeps_depth_bind; [apply keeps_depth_EnsureBytes|]. intros [|]; [|apply keeps_depth_ret].
  apply keeps_depth_bind; [apply keeps_depth_gets|]. intros p.
  apply keeps_depth_bind; [intros r; unfold load; by destruct (_ && _)|]. intros bs.
  by apply keeps_depth_bind.
Qed.

Lemma keeps_depth_ReadRaw t : keeps_depth (ReadRaw t).
Proof. apply keeps_depth_bind; [apply keeps_depth_take|]. intros. apply keeps_depth_ret. Qed.

Lemma keeps_depth_ReadByte : keeps_depth ReadByte.
Proof. apply keeps_depth_bind; [apply keeps_depth_take|]. intros. apply keeps_depth_ret. Qed.

Lemma keeps_depth_fail_ret {A} e (x : A) : keeps_depth (Fail e ;; mret x).
Proof. apply keeps_depth_bind; [apply keeps_depth_Fail|]. intros. apply keeps_depth_ret. Qed.

Lemma keeps_depth_header : keeps_depth ReadObjectHeader.
Proof.
  apply keeps_depth_bind; [apply keeps_depth_ReadByte|]. intros x.
  repeat case_match; first [apply keeps_depth_ret|apply keeps_depth_fail_ret].
Qed.

Lemma keeps_depth_length m : keeps_depth (ReadCollectionLength m).
Proof.
  apply keeps_depth_bind; [apply keeps_depth_ReadRaw|]. intros len. destruct (len <? 0).
  { destruct (negb _); [apply keeps_depth_fail_ret|apply keeps_depth_ret]. }
  apply keeps_depth_bind; [apply keeps_depth_gets|]. intros o.
  apply keeps_depth_bind; [apply keeps_depth_gets|]. intros n.
  repeat case_match; first [apply keeps_depth_ret|apply keeps_depth_fail_ret].
Qed.

(** A safe read that leaves the depth alone keeps a reader at its depth. *)
Lemma safe_keeps {A} r (m : R A) Q : keeps_depth m → safe_at r m Q → safe_at r m (λ x r', Q x r' ∧ depth_ r' = depth_ r).
Proof.
  intros Hk. specialize (Hk r). unfold safe_at. destruct (m r) as [[x|e off|] r']; [|done..]. cbn in Hk.
  intros (S & N & HQ). by split_and!.
Qed.

Lemma safe_EnterObject_depth r : r_ok r → maxDepth (options_ r) + 1 < 2 ^ 32 → depth_ r ≤ maxDepth (options_ r) →
  safe_at r EnterObject (λ ok r', if ok : bool then depth_ r' = depth_ r + 1 ∧ depth_ r' ≤ maxDepth (options_ r) else error_ r' ≠ NoError).
Proof.
  intros Hr Ho Hd. pose proof (ok_depth r Hr). unfold EnterObject. eapply safe_at_bind.
  - apply (safe_at_modify r _ (λ _ r', depth_ r' = depth_ r + 1 ∧ options_ r' = options_ r)); try done.
    + apply r_step_set_depth; [done|]. by apply Z.mod_pos_bound.
    + split; [|done]. apply Z.mod_small. lia.
  - intros _ r' Hr' S [Ed Eo]. apply safe_at_gets_bind, safe_at_gets_bind. rewrite Ed, Eo.
    destruct (Z.gtb_spec (depth_ r + 1) (maxDepth (options_ r))).
    + by apply (safe_Fail_bind _ _ _ (λ (ok : bool) r', if ok then _ else error_ r' ≠ NoError)).
    + apply safe_at_ret; [done|lia].
Qed.

(** What reading a child needs of the reader: it is clean, and the levels suffice for the
    nesting still allowed. *)
Definition levels_ok (n : nat) (o : ReaderOptions) (d : Z) : Prop :=
  maxDepth o + 1 < 2 ^ 32 ∧ 0 ≤ d ≤ maxDepth o ∧ maxDepth o - d < Z.of_nat n.

Definition child_safe (n : nat) : Prop := ∀ (old : Deep) r, r_ok r → error_ r = NoError →
  levels_ok n (options_ r) (depth_ r) →
  safe_at r (Deserialize (MemoryPackFormatter := Deep_formatter n) old) (λ _ r', at_depth (depth_ r) r').

Lemma Failed_clean r : Failed r = false → error_ r = NoError.
Proof. unfold Failed. intros E%bool_decide_eq_false. by destruct (decide (error_ r = NoError)). Qed.

Lemma safe_children_loop n k o d : child_safe n → levels_ok n o d → ∀ acc r, r_ok r → options_ r = o → at_depth d r →
  safe_at r (read_fold k (Read (H := Deep_formatter n)) push_back acc) (λ _ r', at_depth d r').
Proof.
  intros Hc Hl. induction k as [|k IH]; intros acc r Hr Ho Hd; [by apply safe_at_ret|]. cbn [read_fold].
  apply safe_at_gets_bind. destruct (Failed r) eqn:E; [by apply safe_at_ret|]. apply Failed_clean in E.
  specialize (Hd E). eapply safe_at_bind; [apply Hc; [done|done|by rewrite Ho, Hd]|].
  intros x r1 Hr1 S1 Hd1. apply IH; [done|by rewrite (rstep_options _ _ S1)|]. by rewrite <-Hd.
Qed.

Lemma safe_children n (old : vector Deep) r : child_safe n → r_ok r → levels_ok n (options_ r) (depth_ r) →
  safe_at r (ReadInto (H := vector_formatter (MemoryPackFormatter0 := Deep_formatter n)) old) (λ _ r', at_depth (depth_ r) r').
Proof.
  intros Hc Hr Hl. unfold ReadInto. cbn [Deserialize vector_formatter].
  eapply (safe_at_bind _ _ _ (λ _ r', at_depth (depth_ r) r')).
  2: { intros l r' Hr' _ Hd. by apply safe_at_ret. }
  unfold ReadCollection. replace (kind (MemoryPackFormatter := Deep_formatter n)) with (@OtherType Deep) by by destruct n.
  cbn [MinEncodedSize]. eapply safe_at_bind; [apply safe_keeps; [apply keeps_depth_length|by apply safe_ReadCollectionLength]|].
  intros len r1 Hr1 S1 [_ Hd1]. destruct (len <=? 0); [by apply safe_at_ret; [|intros _]|].
  by apply (safe_children_loop n _ (options_ r)); [| | |apply S1|intros _].
Qed.

Lemma safe_LeaveObject_depth r d : r_ok r → 0 ≤ d → at_depth (d + 1) r → safe_at r LeaveObject (λ _ r', at_depth d r').
Proof.
  intros Hr Hd Ha. pose proof (ok_depth r Hr). unfold LeaveObject. apply safe_at_modify.
  - destruct (Z.gtb_spec (depth_ r) 0); [|by apply r_step_refl]. apply r_step_set_depth; [done|lia].
  - by destruct (_ >? _).
  - intros E. assert (error_ r = NoError) as Er by by destruct (_ >? _). specialize (Ha Er).
    destruct (Z.gtb_spec (depth_ r) 0); cbn; lia.
Qed.

Lemma keeps_depth_int32 (old : prim Int32) : keeps_depth (ReadInto old).
Proof. apply keeps_depth_bind; [apply keeps_depth_ReadRaw|]. intros. apply keeps_depth_ret. Qed.

Lemma safe_Deep_members n c (old : Deep) r : child_safe n → r_ok r → levels_ok n (options_ r) (depth_ r) →
  safe_at r (read_members c 0 (members (Members := Deep_members (Deep_formatter n))) old) (λ _ r', at_depth (depth_ r) r').
Proof.
  intros Hc Hr Hl. unfold members. cbn [Deep_members read_members].
  eapply (safe_at_bind _ _ _ (λ _ r', depth_ r' = depth_ r)).
  - destruct (c >? 0); [|by apply safe_at_ret]. eapply safe_at_bind; [apply safe_keeps; [apply keeps_depth_int32|by apply law_safe]|].
    intros x r1 Hr1 _ [_ Hd]. by apply safe_at_ret.
  - intros v r1 Hr1 S1 Hd1. eapply (safe_at_bind _ _ _ (λ _ r', at_depth (depth_ r) r')).
    + destruct (c >? 0 + 1); [|by apply safe_at_ret; [|intros _]]. eapply safe_at_bind.
      * apply safe_children; [done|done|]. by rewrite (rstep_options _ _ S1), Hd1.
      * intros x r2 Hr2 _ Hd2. rewrite Hd1 in Hd2. by apply safe_at_ret.
    + intros v' r2 Hr2 _ Hd2. by apply safe_at_ret.
Qed.

Lemma Deep_safe n : child_safe n.
Proof.
  induction n as [|n IH]; intros old r Hr E (Ho & Hd & Hn); [lia|].
  cbn [Deep_formatter Deserialize object_formatter]. unfold Define_Deserialize.
  eapply safe_at_bind; [apply safe_keeps; [apply keeps_depth_header|by apply safe_ReadObjectHeader]|].
  intros h r1 Hr1 S1 [_ Hd1]. destruct (isNull h); [by apply safe_at_ret; [|intros _]|].
  rewrite <-Hd1 in Hd, Hn |- *. rewrite <-(rstep_options _ _ S1) in Ho, Hd, Hn. eapply safe_at_bind; [by apply safe_EnterObject_depth; [| |lia]|].
  intros [|] r2 Hr2 S2 Henter; [|by apply safe_at_ret; [|intros ?]]. destruct Henter as [Hd2 Hmax].
  eapply safe_at_bind; [apply safe_Deep_members; [done|done|]|].
  { rewrite (rstep_options _ _ S2), Hd2. split_and!; lia. }
  intros v r3 Hr3 S3 Hd3. rewrite Hd2 in Hd3.
  eapply safe_at_bind; [apply (safe_LeaveObject_depth _ (depth_ r1)); [done|lia|done]|].
  intros ? r4 Hr4 ? Hd4. by apply safe_at_ret.
Qed.

(** ** The harness *)

Lemma swallow_safe {A} (m : R A) r Q : safe_at r m Q → swallow (fst (m r)) = Ret tt.
Proof.
  unfold safe_at. destruct (m r) as [[x|e off|] r']; [done| |done]. intros [E _]. cbn. by rewrite E.
Qed.

Lemma NewReader_ok data o : bytes_ok data → zlen data < size_mod → maxDepth o < 2 ^ 32 → r_ok (NewReader data o).
Proof. intros Hb Hs Ho. by eapply ready_ok, new_reader_ready. Qed.

Lemma TryOne_returns T `{!MemoryPackFormatter T} data o : (∀ old : T, safe (Deserialize old) anything) →
  r_ok (NewReader data o) → TryOne T data o = Ret tt.
Proof. intros Hs Hr. by eapply swallow_safe, Hs. Qed.

(** *** [TryPrimitives] *)

(** Safe, and the cursor ends at [n] or beyond. *)
Definition reaches {A} (n : Z) (r : MemoryPackReader) (m : R A) : Prop := safe_at r m (λ _ r', n ≤ pos_ r').

Lemma reaches_bind {A B} n r (m : R A) (k : A → R B) : reaches n r m →
  (∀ x r', r_ok r' → n ≤ pos_ r' → reaches n r' (k x)) → reaches n r (m ≫= k).
Proof. intros Hm Hk. eapply safe_at_bind; [exact Hm|]. intros x r' Hr' _ Hn. by apply Hk. Qed.

Lemma reaches_forward {A} n r (m : R A) : r_ok r → n ≤ pos_ r → safe m anything → forward m → reaches n r m.
Proof.
  intros Hr Hn Sm Fm. specialize (Sm r Hr). specialize (Fm r Hr). unfold reaches, safe_at, forward_at in *.
  destruct (m r) as [[x|e off|] r']; [|done..]. destruct Sm as (S & N & _). cbn in Fm. split_and!; [done|done|lia].
Qed.

Lemma header_reaches r : r_ok r → error_ r = NoError → pos_ r < size_ r → reaches (pos_ r + 1) r ReadObjectHeader.
Proof.
  intros Hr E Hroom. destruct (ReadByte_advances r Hr E Hroom) as [x Ex].
  pose proof (safe_ReadByte r Hr) as Hs. unfold safe_at in Hs. rewrite Ex in Hs. destruct Hs as (S & N & _).
  unfold ReadObjectHeader. eapply (safe_at_bind _ _ _ (λ _ r', r' = skip 1 r)); [unfold safe_at; by rewrite Ex|].
  intros y r' Hr' _ ->. apply (reaches_forward (pos_ r + 1)); [done|done| |].
  - intros r' Hr1. safe_go.
  - intros r' Hr1. forward_go.
Qed.

Lemma reaches_try_round r : r_ok r → error_ r = NoError → pos_ r < size_ r → reaches (pos_ r + 1) r try_round.
Proof.
  intros Hr E Hroom. unfold try_round. apply reaches_bind; [by apply header_reaches|]. intros _.
  repeat match goal with
  | |- ∀ _ : _, _ => intros ?
  | |- reaches _ _ (mret _) => by apply safe_at_ret
  | |- reaches _ _ (_ ≫= _) => apply reaches_bind
  end.
  all: apply reaches_forward; [done|done|..].
  - apply safe_ReadUnionHeader_any.
  - apply forward_ReadUnionHeader.
  - eapply safe_anything, safe_ReadVarIntLength.
  - apply forward_ReadVarIntLength.
  - apply safe_ReadRaw_any.
  - apply forward_ReadRaw.
  - apply safe_ReadRaw_any.
  - apply forward_ReadRaw.
  - apply safe_ReadString_any.
  - apply forward_ReadString.
  - apply safe_ReadStringView.
  - apply forward_ReadStringView.
  - apply safe_ReadVector.
  - apply forward_ReadVector.
  - apply safe_ReadStringVector.
  - apply forward_ReadStringVector.
  - by apply safe_ReadStdArray.
  - by apply forward_ReadStdArray.
  - by apply safe_ReadUnmanaged.
  - by apply forward_ReadUnmanaged.
Qed.

(** The loop ends within a round per byte left. *)
Lemma safe_try_loop fuel : ∀ r, r_ok r → size_ r - pos_ r ≤ Z.of_nat fuel → safe_at r (try_loop fuel) anything.
Proof.
  induction fuel as [|fuel IH]; intros r Hr Hf; cbn [try_loop]; apply safe_at_gets_bind;
    destruct (IsEnd r) eqn:Eend; try by apply safe_at_ret.
  all: unfold IsEnd in Eend; destruct (Failed r) eqn:E; try by apply safe_at_ret.
  { pose proof (ok_pos r Hr). lia. }
  cbn [negb andb]. apply Failed_clean in E. eapply safe_at_bind; [by apply reaches_try_round; [| |lia]|].
  intros ? r' Hr' S Hp. cbv beta in Hp. apply IH; [done|]. unfold size_ in *. rewrite (rstep_data _ _ S). lia.
Qed.

Lemma TryPrimitives_returns data o : r_ok (NewReader data o) → TryPrimitives data o = Ret tt.
Proof. intros Hr. eapply swallow_safe, safe_try_loop; [done|]. unfold size_, zlen. cbn. lia. Qed.

(** *** [TryFraming] *)

Lemma deliver_bodies (ps : list packet) : Forall (λ q : packet, bytes_ok q.2 ∧ zlen q.2 ≤ 64 * 1024) ps →
  deliver try_body ps tt = (Ret tt, tt).
Proof.
  pose proof size_mod_pos. induction 1 as [|q ps [Hb Hl] _ IH]; [done|].
  unfold deliver in *. cbn [mapM_]. unfold mbind, M_bind, try_body at 1, lift_outcome.
  assert (E : swallow (DeserializeNew (T := Item) q.2) = Ret tt).
  { eapply (swallow_safe (ReadInto (T := Item) value_init)), law_safe. apply NewReader_ok; [done|lia|done]. }
  by rewrite E.
Qed.

Lemma framing_loop_returns data fuel : bytes_ok data → zlen data < size_mod → ∀ offset p,
  parser_ok p → maxBodyLength_ p = 64 * 1024 → zlen (buffer_ p) ≤ offset ≤ zlen data → zlen data - offset ≤ Z.of_nat fuel →
  ∃ p', framing_loop fuel data offset (p, tt) = (Ret tt, (p', tt)).
Proof.
  intros Hb Hs. induction fuel as [|fuel IH]; intros offset p Hp Hmax Ho Hf; cbn [framing_loop].
  { destruct (Z.ltb_spec offset (zlen data)); [lia|]. by eexists. }
  destruct (Z.ltb_spec offset (zlen data)); [|by eexists]. pose proof (zlen_nonneg (buffer_ p)).
  rewrite size_sub_small by lia. set (n := Z.min 7 (zlen data - offset)). assert (1 ≤ n ≤ zlen data - offset) by lia.
  unfold subspan. destruct (Z.leb_spec 0 offset); [|lia]. destruct (Z.leb_spec (offset + n) (zlen data)); [|lia].
  cbn [andb]. unfold mbind at 1, M_bind at 1. cbn [mret M_ret].
  assert (Hc : bytes_ok (slice offset n data)) by by apply Forall_slice.
  assert (Hl : zlen (slice offset n data) = n) by (apply zlen_slice; lia).
  destruct (decodes_total (maxBodyLength_ p) (pending p ++ slice offset n data)) as (ps & rest & ok & Hd).
  destruct (decodes_packets _ _ _ _ _ Hd) as [Hps _].
  { apply bytes_ok_app; [|done]. unfold pending. by apply Forall_drop, Hp. }
  rewrite Hmax in Hps. destruct (Feed_returns try_body _ p tt ps rest ok tt Hp Hc ltac:(lia) Hd (deliver_bodies ps Hps))
    as (p' & E & Hp' & Hmax' & Hle & _).
  unfold mbind at 1, M_bind at 1. rewrite E. destruct ok; cbn [negb]; [|by eexists].
  rewrite size_add_small by lia. apply IH; [done|congruence|lia|lia].
Qed.

Lemma TryFraming_returns data : bytes_ok data → zlen data < size_mod → TryFraming data = Ret tt.
Proof.
  intros Hb Hs. unfold TryFraming. zlen_pos.
  destruct (framing_loop_returns data (length data) Hb Hs 0 (NewParser (64 * 1024))) as [p' E];
    [apply NewParser_ok|done|split; [apply Z.le_refl|done]|unfold zlen; lia|by rewrite E].
Qed.

(** *** The entry point *)

Lemma fuzz_payload_returns selector payload : bytes_ok payload → zlen payload < size_mod →
  fuzz_payload selector payload = Ret tt.
Proof.
  intros Hb Hs. pose proof (NewReader_ok payload fuzz_options Hb Hs ltac:(done)) as Hr.
  assert (Hdeep : @TryOne _ Deep (Deep_formatter 65) payload fuzz_options = Ret tt).
  { eapply swallow_safe, (Deep_safe 65); [done|done|]. by split_and!. }
  unfold fuzz_payload. repeat case_match; try exact Hdeep; try by apply TryFraming_returns.
  all: try by apply TryPrimitives_returns.
  all: apply TryOne_returns; [|done].
  all: first [apply safe_Inventory|apply safe_Everything|intros; apply law_safe].
Qed.

(** C3: No input crashes the deserializer: for every byte string and every decoder of the
    fuzz target, reading it has no undefined behaviour (so no access outside the input),
    ends, and lets no exception escape, with and without exceptions compiled in. *)
Theorem fuzz_never_crashes data : bytes_ok data → zlen data < size_mod → LLVMFuzzerTestOneInput data = Ret 0.
Proof.
  intros Hb Hs. destruct data as [|selector payload]; [done|]. apply Forall_cons in Hb as [_ Hb].
  rewrite zlen_cons in Hs. unfold LLVMFuzzerTestOneInput. by rewrite fuzz_payload_returns by (done || lia).
Qed.
End Fuzz.

Lemma fuzz_never_crashes_witness :
  @LLVMFuzzerTestOneInput host64 [3; 2; 7; 0; 0; 0; 255; 255; 255; 127] = Ret 0.
Proof. apply (fuzz_never_crashes (H := host64)); [bytes_lit|done]. Defined.
