(* ===== verification/Floats.v ===== *)
(** Decimal literals and comparisons of [float] and [double] on their bit patterns, as the
    test programs use them. *)
From S2P Require Import Prelude Console.

(** The floating-point number nearest to [n / d], ties to even, as bits: [mb] bits of
    mantissa, exponents biased by [bias]. For positive [n / d] in the normal range. *)
Definition nearest (mb bias n d : Z) : Z :=
  let e0 := Z.log2 n - Z.log2 d in
  let e := if (if 0 <=? e0 then d * 2 ^ e0 <=? n else d <=? n * 2 ^ (- e0)) then e0 else e0 - 1 in
  let k := mb - e in
  let mant := if 0 <=? k then div_half_even (n * 2 ^ k) d else div_half_even n (d * 2 ^ (- k)) in
  (e + bias) * 2 ^ mb + (mant - 2 ^ mb).

Definition float_lit (n d : Z) : Z := nearest 23 127 n d.
Definition double_lit (n d : Z) : Z := nearest 52 1023 n d.

(** The sign bit set. *)
Definition neg_double (b : Z) : Z := 2 ^ 63 + b.

Example literals : float_lit 314159 100000 = 0x40490FD0 ∧ double_lit 1 10 = 0x3FB999999999999A ∧
  float_lit 1 3 = 0x3EAAAAAB ∧ double_lit 2 1 = 0x4000000000000000 ∧ float_lit 5 2 = float_of 5 (-1).
Proof. by vm_compute. Qed.

(** [std::isnan], [std::isinf], [std::signbit] and comparison with zero. *)
Definition is_inf (b : Z) : bool := Z.land b 0x7FFFFFFF =? 0x7F800000.
Definition float_positive (b : Z) : bool := negb (is_nan b) && negb (Z.testbit b 31) && negb (Z.land b 0x7FFFFFFF =? 0).
Definition float_negative (b : Z) : bool := negb (is_nan b) && Z.testbit b 31 && negb (Z.land b 0x7FFFFFFF =? 0).

Definition magnitude (b : Z) : Z := Z.land b 0x7FFFFFFFFFFFFFFF.
Definition double_is_nan (b : Z) : bool := 0x7FF0000000000000 <? magnitude b.
Definition double_is_inf (b : Z) : bool := magnitude b =? 0x7FF0000000000000.
Definition double_positive (b : Z) : bool := negb (double_is_nan b) && negb (Z.testbit b 63) && negb (magnitude b =? 0).
Definition double_signbit (b : Z) : bool := Z.testbit b 63.
Definition double_eq (a b : Z) : bool :=
  negb (double_is_nan a) && negb (double_is_nan b) && ((a =? b) || (magnitude (Z.lor a b) =? 0)).

(** A finite [float] as a multiple of 2^-149, which every one is. *)
Definition float_units (b : Z) : Z :=
  let e := Z.land (Z.shiftr b 23) 0xFF in
  let m := Z.land b (2 ^ 23 - 1) in
  (if Z.testbit b 31 then -1 else 1) * if e =? 0 then m else (2 ^ 23 + m) * 2 ^ (e - 1).

(** The nearest [float] to a number of units, in units; past the largest it is infinite,
    which compares the same. *)
Definition round_units (n : Z) : Z :=
  let k := Z.log2 n - 23 in
  if k <=? 0 then n else div_half_even n (2 ^ k) * 2 ^ k.

(** [std::fabs(a - b) < c] for a finite [c]. *)
Definition float_closer (a b c : Z) : bool :=
  negb (is_nan a || is_inf a || is_nan b || is_inf b) &&
  (round_units (Z.abs (float_units a - float_units b)) <? float_units c).

Example closeness :
  float_closer (float_lit 4 10) (float_lit 4 10) (float_lit 1 1000000) = true ∧
  float_closer (float_lit 4 10) (float_lit 400002 1000000) (float_lit 1 1000000) = false ∧
  float_closer 0x7F800000 0x7F800000 (float_lit 1 1000000) = false.
Proof. by vm_compute. Qed.
