(* ===== verification/Files.v ===== *)
(** What the test programs use of a file system: files and directories are parameters;
    paths are joined the way [std::filesystem::path] does it on POSIX. *)
From S2P Require Import Prelude Console.

(** [file p] is the content of [p], when it is a regular file that can be opened and read;
    [directory p] are the entries of [p], when it is a directory, in the order of
    [directory_iterator], each with [is_regular_file()]. *)
Class Filesystem := {
  file : list Z → option (list Z);
  directory : list Z → option (list (list Z * bool));
}.

Definition SLASH : Z := 47.

(** [dir / name] for a relative [name]. *)
Definition path_join (dir name : list Z) : list Z :=
  match rev dir with
  | [] => name
  | c :: _ => if c =? SLASH then dir ++ name else dir ++ [SLASH] ++ name
  end.
