(* ===== verification/TestHarness.v ===== *)
(** The harness of the test programs ([tests/test_harness.hpp]): its counters, the report
    of a failed check, and the [CHECK] macros. [__FILE__] is a parameter of the build, and
    a macro is given the line it stands on and the text it makes of its argument. *)
From stdpp Require Import strings.
From S2P Require Import Prelude Formatter Assoc Console.

(** The globals of [namespace mptest]. *)
Record mptest := MkTest { g_checks : Z; g_failures : Z; g_currentCase : list Z }.

Definition no_tests : mptest := MkTest 0 0 [].

(** The program's source file. *)
Class Build := source_file : list Z.

(** A hexadecimal digit in [HexString]. *)
Definition upper_digit (d : Z) : Z := if d <? 10 then 48 + d else 55 + d.

Definition hex_pair (b : Z) : list Z := [upper_digit (Z.shiftr b 4); upper_digit (Z.land b 15)].

(** The two digits of every byte, a space before each but the first. *)
Definition HexString (data : list Z) : list Z :=
  match data with
  | [] => []
  | b :: data' => hex_pair b ++ (data' ≫= λ b, 32 :: hex_pair b)
  end.

(** The [std::span] form, and the one with a list of [int]s. *)
Definition BytesEqual (a b : list Z) : bool :=
  (zlen a =? zlen b) && (bool_decide (a = []) || bool_decide (a = b)).
Definition BytesEqualInts (got : list Z) (expected : list Z) : bool :=
  (zlen got =? zlen expected) && bool_decide (got = (λ e, e mod 256) <$> expected).

(** ** What the tests use of the language and its library *)

(** [map.at(k)]; for a key that is not there it throws [std::out_of_range], which no handler
    catches. *)
Definition map_at {S K V} `{EqDecision K} (k : K) (m : std_map K V) : M S V :=
  match list_find (λ e, e.1 = k) (nodes m) with Some (_, e) => mret e.2 | None => undefined end.
Definition map_contains {K V} `{EqDecision K} (k : K) (m : std_map K V) : bool := bool_decide (k ∈ (nodes m).*1).

(** [a && b] where [b] may have an effect. *)
Definition and_then {S} (a : bool) (b : M S bool) : M S bool := if a then b else mret false.

(** A computation that is undefined where [int64_t] overflows. *)
Definition defined {S A} (o : option A) : M S A := match o with Some a => mret a | None => undefined end.

(** [o.has_value() && f( *o)] *)
Definition holds {A} (f : A → bool) (o : option A) : bool := match o with Some a => f a | None => false end.

Section Harness.
Context `{Platform, Build} {E : Type}.

(** A test program: the harness and its other globals. *)
Abbreviation T := (M (program (mptest * E))).

Definition update_test (f : mptest → mptest) : T unit := set_globals (λ g, (f g.1, g.2)).

(** [++counter] on an [int]. *)
Definition increment (n : Z) : T Z := if n <? 2 ^ 31 - 1 then mret (n + 1) else undefined.

Definition count_check : T unit :=
  t ← gets (λ p, (globals p).1);
  n ← increment (g_checks t);
  update_test (λ t, MkTest n (g_failures t) (g_currentCase t)).

Definition BeginCase (name : list Z) : T unit :=
  update_test (λ t, MkTest (g_checks t) (g_failures t) name) ;;
  printf "[%s]\n" [Text name].

Definition ReportFailure (line : Z) (expr : list Z) : T unit :=
  t ← gets (λ p, (globals p).1);
  n ← increment (g_failures t);
  update_test (λ t, MkTest (g_checks t) n (g_currentCase t)) ;;
  printf "  [FAIL] %s:%d  in <%s>\n         %s\n" [Text source_file; Int line; Text (g_currentCase t); Text expr].

Definition ReportBytes (label : String.string) (data : list Z) : T unit :=
  printf "         %-9s (%zu bytes) %s\n" [Text (c_literal label); Int (zlen data); Text (HexString data)].

Definition Summarize (suiteName : String.string) : T Z :=
  t ← gets (λ p, (globals p).1);
  printf "\n%s: %d checks, %d failure(s)\n" [Text (c_literal suiteName); Int (g_checks t); Int (g_failures t)] ;;
  if g_failures t =? 0 then
    printf "ALL TESTS PASSED\n" [] ;;
    mret 0
  else
    printf "TESTS FAILED\n" [] ;;
    mret 1.

(** [CHECK(cond)] and [CHECK_MSG(cond, msg)]: [text] is what is reported. *)
Definition CHECK (line : Z) (text : String.string) (cond : bool) : T unit :=
  count_check ;;
  if cond then mret tt else ReportFailure line (c_literal text).

(** [CHECK] of a condition that has an effect, and of one that changes the local object [s]. *)
Definition CHECK_DO (line : Z) (text : String.string) (cond : T bool) : T unit :=
  count_check ;;
  b ← cond;
  if b : bool then mret tt else ReportFailure line (c_literal text).

Definition CHECK_ON {S} (line : Z) (text : String.string) (s : S) (cond : M S bool) : T S :=
  count_check ;;
  r ← on_local s cond;
  (if r.1 : bool then mret tt else ReportFailure line (c_literal text)) ;;
  mret r.2.

(** [CHECK_BYTES_EQ(actual, expected, what)]. *)
Definition CHECK_BYTES_EQ (line : Z) (actual expected : list Z) (what : String.string) : T unit :=
  count_check ;;
  if BytesEqual actual expected then mret tt else
  ReportFailure line (c_literal what) ;;
  ReportBytes "actual" actual ;;
  ReportBytes "expected" expected.

(** [CHECK_BYTES(data, size, ...)]. *)
Definition CHECK_BYTES (line : Z) (data expected : list Z) : T unit :=
  count_check ;;
  if BytesEqualInts data expected then mret tt else
  ReportFailure line (c_literal "byte mismatch") ;;
  ReportBytes "actual" data ;;
  ReportBytes "expected" ((λ e, e mod 256) <$> expected).

(** [CHECK_THROWS(expr)]: nothing without exceptions. *)
Definition CHECK_THROWS {A} (line : Z) (text : String.string) (expr : T A) : T unit :=
  if has_exceptions then
    count_check ;;
    threw ← try_catch (expr ;; mret false) (λ _ _, mret true);
    if threw : bool then mret tt else ReportFailure line (c_literal text)
  else mret tt.

(** [CHECK_FAILS(desc, { block })]. *)
Definition CHECK_FAILS (line : Z) (desc : String.string) (block : T bool) : T unit :=
  count_check ;;
  failed ← (if has_exceptions then try_catch block (λ _ _, mret true) else block);
  if failed : bool then mret tt else ReportFailure line (c_literal "expected failure: " ++ c_literal desc).
End Harness.

