(* ===== verification/InteropTypes.v ===== *)
(** The types of the interop suite ([tests/interop_types.hpp]): the C++ mirrors of the C#
    types its fixtures were made from, and their serializers. A struct that C# copies
    verbatim is its bytes, so that what its padding holds is part of the value. *)
From stdpp Require Import strings.
From S2P Require Import Prelude Endian Writer Reader Headers Utf Strings Formatter Collections Assoc Nullable Objects Union VersionTolerant Unmanaged DotNet.

Module interop.

(** ** Structs *)

Abbreviation int8 := (prim Int8).
Abbreviation int16 := (prim Int16).
Abbreviation int32 := (prim Int32).
Abbreviation int64 := (prim Int64).
Abbreviation uint8 := (prim UInt8).
Abbreviation uint16 := (prim UInt16).
Abbreviation uint32 := (prim UInt32).
Abbreviation uint64 := (prim UInt64).
Abbreviation float := (prim Float32).
Abbreviation double := (prim Float64).
Abbreviation bool := (prim Bool_t).
Abbreviation char16 := (prim Char16).

Definition zero {t} : prim t := Prim 0.

Record SimplePacket := MkSimplePacket { SimplePacket_id : int32; SimplePacket_name : string }.
Record AllPrimitives := MkAllPrimitives { AllPrimitives_boolValue : bool; AllPrimitives_byteValue : uint8; AllPrimitives_sbyteValue : int8; AllPrimitives_shortValue : int16; AllPrimitives_ushortValue : uint16; AllPrimitives_intValue : int32; AllPrimitives_uintValue : uint32; AllPrimitives_longValue : int64; AllPrimitives_ulongValue : uint64; AllPrimitives_floatValue : float; AllPrimitives_doubleValue : double }.
Record EmptyPacket := MkEmptyPacket { }.
Record StringPacket := MkStringPacket { StringPacket_ascii : string; StringPacket_korean : string; StringPacket_emoji : string; StringPacket_empty : string; StringPacket_nullString : option string }.
Record Item := MkItem { Item_itemId : int32; Item_itemName : string; Item_count : int32 }.
Record Inventory := MkInventory { Inventory_ownerId : int32; Inventory_items : vector Item }.
Record NestedObject := MkNestedObject { NestedObject_id : int32; NestedObject_child : option Item }.
Record NestedList := MkNestedList { NestedList_rows : vector (vector int32) }.
Record ListOfNullableObjects := MkListOfNullableObjects { ListOfNullableObjects_items : vector (option Item) }.
Record NullMembers := MkNullMembers { NullMembers_nullString : option string; NullMembers_emptyString : string; NullMembers_nullList : option (vector int32); NullMembers_emptyList : vector int32; NullMembers_nullChild : option Item }.
Record BoolCollection := MkBoolCollection { BoolCollection_flags : vector bool; BoolCollection_flagArray : vector bool }.
Record ArrayPacket := MkArrayPacket { ArrayPacket_shorts : vector int16; ArrayPacket_ints : vector int32; ArrayPacket_longs : vector int64; ArrayPacket_bytes : vector uint8; ArrayPacket_sbytes : vector int8; ArrayPacket_floats : vector float; ArrayPacket_doubles : vector double; ArrayPacket_strings : vector string }.
Record ManyMembers := MkManyMembers { ManyMembers_m00 : int32; ManyMembers_m01 : int32; ManyMembers_m02 : int32; ManyMembers_m03 : int32; ManyMembers_m04 : int32; ManyMembers_m05 : int32; ManyMembers_m06 : int32; ManyMembers_m07 : int32; ManyMembers_m08 : int32; ManyMembers_m09 : int32 }.
Record OrderedPacket := MkOrderedPacket { OrderedPacket_first : int32; OrderedPacket_second : int32 }.

(** Enumerations with an underlying type, and their enumerators. *)
Definition ColorU16 : Type := enum UInt16.
Definition ColorI8 : Type := enum Int8.
Definition ColorI32 : Type := enum Int32.
Definition Red : ColorU16 := Enum 1.
Definition Green : ColorU16 := Enum 2.
Definition Blue : ColorU16 := Enum 3.
Definition Neg : ColorI8 := Enum (-2).
Definition Zero : ColorI8 := Enum 0.
Definition Pos : ColorI8 := Enum 5.
Definition A : ColorI32 := Enum 0.
Definition B : ColorI32 := Enum 1000000.

Record EnumPacket := MkEnumPacket { EnumPacket_u16 : ColorU16; EnumPacket_i8 : ColorI8; EnumPacket_i32 : ColorI32 }.

(** A struct C# copies verbatim, as its bytes. *)
Record Vec3 := MkVec3 { Vec3_bytes : list Z }.
Record PaddedStruct := MkPaddedStruct { PaddedStruct_bytes : list Z }.
Record PackedStruct := MkPackedStruct { PackedStruct_bytes : list Z }.
Record ValueTuple2i := MkValueTuple2i { ValueTuple2i_bytes : list Z }.
Record ValueTupleIFD := MkValueTupleIFD { ValueTupleIFD_bytes : list Z }.

(** [std::tuple<int32_t, std::string>]. *)
Record int_string := MkIntString { get0 : int32; get1 : string }.

Record UnmanagedHolder := MkUnmanagedHolder { UnmanagedHolder_position : Vec3; UnmanagedHolder_padded : PaddedStruct }.
Record UnmanagedList := MkUnmanagedList { UnmanagedList_points : vector Vec3 }.
Record ManagedStruct := MkManagedStruct { ManagedStruct_id : int32; ManagedStruct_label : string }.
Record ManagedStructHolder := MkManagedStructHolder { ManagedStructHolder_value : ManagedStruct }.
Record NumericsTypes := MkNumericsTypes { NumericsTypes_v2 : Vector2; NumericsTypes_v3 : Vector3; NumericsTypes_v4 : Vector4; NumericsTypes_quat : Quaternion }.
Record NullablePacket := MkNullablePacket { NullablePacket_maybeInt : option int32; NullablePacket_nullInt : option int32; NullablePacket_maybeFloat : option float; NullablePacket_maybeVec : option Vec3; NullablePacket_nullVec : option Vec3 }.
Record ManagedNullableTarget := MkManagedNullableTarget { ManagedNullableTarget_a : int32; ManagedNullableTarget_b : string }.
Record NullableManagedHolder := MkNullableManagedHolder { NullableManagedHolder_value : option ManagedNullableTarget }.
Record DictPacket := MkDictPacket { DictPacket_intMap : std_map int32 int32; DictPacket_stringMap : std_map string int32; DictPacket_intToString : std_map int32 string }.
Record DictObjectPacket := MkDictObjectPacket { DictObjectPacket_items : std_map int32 Item }.
Record SetPacket := MkSetPacket { SetPacket_intSet : std_set int32; SetPacket_stringSet : std_set string }.
Record KvpPacket := MkKvpPacket { KvpPacket_intPair : int32 * int32; KvpPacket_mixedPair : int32 * string }.
Record TuplePacket := MkTuplePacket { TuplePacket_refTuple : option (tuple int_string); TuplePacket_unmanagedValueTuple : ValueTuple2i; TuplePacket_mixedValueTuple : int32 * string; TuplePacket_tripleUnmanaged : ValueTupleIFD }.
Record DotNetTypes := MkDotNetTypes { DotNetTypes_guidValue : Guid; DotNetTypes_dateTimeValue : DateTime; DotNetTypes_timeSpanValue : TimeSpan; DotNetTypes_dateTimeOffsetValue : DateTimeOffset; DotNetTypes_charValue : char16; DotNetTypes_decimalValue : Decimal; DotNetTypes_halfValue : Half; DotNetTypes_int128Value : Int128; DotNetTypes_uint128Value : UInt128 }.
Record CircleShape := MkCircleShape { CircleShape_radius : float }.
Record RectShape := MkRectShape { RectShape_width : float; RectShape_height : float }.
Record WideShape := MkWideShape { WideShape_sides : int32 }.

(** [std::variant<CircleShape, RectShape, WideShape>]. *)
Inductive Shape := Circle (s : CircleShape) | Rect (s : RectShape) | Wide (s : WideShape).

Record UnionHolder := MkUnionHolder { UnionHolder_shape : option Shape }.

Record SpecialFloats := MkSpecialFloats { SpecialFloats_nanF : float; SpecialFloats_posInfF : float; SpecialFloats_negInfF : float; SpecialFloats_nanD : double; SpecialFloats_posInfD : double; SpecialFloats_negZeroD : double }.
Record VersionTolerantPacket := MkVersionTolerantPacket { VersionTolerantPacket_id : int32; VersionTolerantPacket_name : string; VersionTolerantPacket_score : float }.
Record VersionTolerantLong := MkVersionTolerantLong { VersionTolerantLong_id : int32; VersionTolerantLong_big : string; VersionTolerantLong_tail : int32 }.

(** ** Serializers *)

Section Definitions.
Context `{Platform}.

(** *** Members of the structs of bytes *)

(** The arithmetic member of type [t] at offset [off]. *)
Definition field_at (t : arith_ty) (off : Z) (bytes : list Z) : Z := of_object_bytes t (slice off (sizeof t) bytes).

Definition Vec3_x (v : Vec3) : Z := field_at Float32 0 (Vec3_bytes v).
Definition Vec3_y (v : Vec3) : Z := field_at Float32 4 (Vec3_bytes v).
Definition Vec3_z (v : Vec3) : Z := field_at Float32 8 (Vec3_bytes v).
Definition PaddedStruct_tag (v : PaddedStruct) : Z := field_at UInt8 0 (PaddedStruct_bytes v).
Definition PaddedStruct_value (v : PaddedStruct) : Z := field_at Int32 4 (PaddedStruct_bytes v).
Definition PackedStruct_tag (v : PackedStruct) : Z := field_at UInt8 0 (PackedStruct_bytes v).
Definition PackedStruct_value (v : PackedStruct) : Z := field_at Int32 1 (PackedStruct_bytes v).
Definition ValueTuple2i_item1 (v : ValueTuple2i) : Z := field_at Int32 0 (ValueTuple2i_bytes v).
Definition ValueTuple2i_item2 (v : ValueTuple2i) : Z := field_at Int32 4 (ValueTuple2i_bytes v).
Definition ValueTupleIFD_item3 (v : ValueTupleIFD) : Z := field_at Float64 0 (ValueTupleIFD_bytes v).
Definition ValueTupleIFD_item1 (v : ValueTupleIFD) : Z := field_at Int32 8 (ValueTupleIFD_bytes v).
Definition ValueTupleIFD_item2 (v : ValueTupleIFD) : Z := field_at Float32 12 (ValueTupleIFD_bytes v).

#[global] Instance Vec3_unmanaged : Unmanaged Vec3 := {
  um_rep := MkRep 12 4 Vec3_bytes MkVec3;
  um_init := MkVec3 (replicate 12 0) }.

#[global] Instance PaddedStruct_scrubbed : Scrubbed PaddedStruct := {
  sc_rep := MkRep 8 4 PaddedStruct_bytes MkPaddedStruct;
  sc_init := MkPaddedStruct (replicate 8 0);
  sc_fields := [(0, 1); (4, 4)] }.

#[global] Instance PackedStruct_unmanaged : Unmanaged PackedStruct := {
  um_rep := MkRep 5 1 PackedStruct_bytes MkPackedStruct;
  um_init := MkPackedStruct (replicate 5 0) }.

#[global] Instance ValueTuple2i_unmanaged : Unmanaged ValueTuple2i := {
  um_rep := MkRep 8 4 ValueTuple2i_bytes MkValueTuple2i;
  um_init := MkValueTuple2i (replicate 8 0) }.

#[global] Instance ValueTupleIFD_unmanaged : Unmanaged ValueTupleIFD := {
  um_rep := MkRep 16 (alignof Float64) ValueTupleIFD_bytes MkValueTupleIFD;
  um_init := MkValueTupleIFD (replicate 16 0) }.

(** The assertions of [MEMORYPACK_UNMANAGED_EXACT]: no padding. *)
Example exact_structs :
  exact_assert (um_rep (T := Vec3)) [(0, 4); (4, 4); (8, 4)] && exact_assert (um_rep (T := PackedStruct)) [(0, 1); (1, 4)] &&
  exact_assert (um_rep (T := ValueTuple2i)) [(0, 4); (4, 4)] &&
  exact_assert (um_rep (T := ValueTupleIFD)) [(0, 8); (8, 4); (12, 4)] = true.
Proof. done. Qed.

(** *** [MEMORYPACK_DEFINE] *)

#[global] Instance SimplePacket_members : Members SimplePacket := {
  default_value := MkSimplePacket zero (Str []);
  members := [
    Member int32 SimplePacket_id (λ a v, MkSimplePacket a (SimplePacket_name v));
    Member string SimplePacket_name (λ a v, MkSimplePacket (SimplePacket_id v) a)] }.

#[global] Instance AllPrimitives_members : Members AllPrimitives := {
  default_value := MkAllPrimitives zero zero zero zero zero zero zero zero zero zero zero;
  members := [
    Member bool AllPrimitives_boolValue (λ a v, MkAllPrimitives a (AllPrimitives_byteValue v) (AllPrimitives_sbyteValue v) (AllPrimitives_shortValue v) (AllPrimitives_ushortValue v) (AllPrimitives_intValue v) (AllPrimitives_uintValue v) (AllPrimitives_longValue v) (AllPrimitives_ulongValue v) (AllPrimitives_floatValue v) (AllPrimitives_doubleValue v));
    Member uint8 AllPrimitives_byteValue (λ a v, MkAllPrimitives (AllPrimitives_boolValue v) a (AllPrimitives_sbyteValue v) (AllPrimitives_shortValue v) (AllPrimitives_ushortValue v) (AllPrimitives_intValue v) (AllPrimitives_uintValue v) (AllPrimitives_longValue v) (AllPrimitives_ulongValue v) (AllPrimitives_floatValue v) (AllPrimitives_doubleValue v));
    Member int8 AllPrimitives_sbyteValue (λ a v, MkAllPrimitives (AllPrimitives_boolValue v) (AllPrimitives_byteValue v) a (AllPrimitives_shortValue v) (AllPrimitives_ushortValue v) (AllPrimitives_intValue v) (AllPrimitives_uintValue v) (AllPrimitives_longValue v) (AllPrimitives_ulongValue v) (AllPrimitives_floatValue v) (AllPrimitives_doubleValue v));
    Member int16 AllPrimitives_shortValue (λ a v, MkAllPrimitives (AllPrimitives_boolValue v) (AllPrimitives_byteValue v) (AllPrimitives_sbyteValue v) a (AllPrimitives_ushortValue v) (AllPrimitives_intValue v) (AllPrimitives_uintValue v) (AllPrimitives_longValue v) (AllPrimitives_ulongValue v) (AllPrimitives_floatValue v) (AllPrimitives_doubleValue v));
    Member uint16 AllPrimitives_ushortValue (λ a v, MkAllPrimitives (AllPrimitives_boolValue v) (AllPrimitives_byteValue v) (AllPrimitives_sbyteValue v) (AllPrimitives_shortValue v) a (AllPrimitives_intValue v) (AllPrimitives_uintValue v) (AllPrimitives_longValue v) (AllPrimitives_ulongValue v) (AllPrimitives_floatValue v) (AllPrimitives_doubleValue v));
    Member int32 AllPrimitives_intValue (λ a v, MkAllPrimitives (AllPrimitives_boolValue v) (AllPrimitives_byteValue v) (AllPrimitives_sbyteValue v) (AllPrimitives_shortValue v) (AllPrimitives_ushortValue v) a (AllPrimitives_uintValue v) (AllPrimitives_longValue v) (AllPrimitives_ulongValue v) (AllPrimitives_floatValue v) (AllPrimitives_doubleValue v));
    Member uint32 AllPrimitives_uintValue (λ a v, MkAllPrimitives (AllPrimitives_boolValue v) (AllPrimitives_byteValue v) (AllPrimitives_sbyteValue v) (AllPrimitives_shortValue v) (AllPrimitives_ushortValue v) (AllPrimitives_intValue v) a (AllPrimitives_longValue v) (AllPrimitives_ulongValue v) (AllPrimitives_floatValue v) (AllPrimitives_doubleValue v));
    Member int64 AllPrimitives_longValue (λ a v, MkAllPrimitives (AllPrimitives_boolValue v) (AllPrimitives_byteValue v) (AllPrimitives_sbyteValue v) (AllPrimitives_shortValue v) (AllPrimitives_ushortValue v) (AllPrimitives_intValue v) (AllPrimitives_uintValue v) a (AllPrimitives_ulongValue v) (AllPrimitives_floatValue v) (AllPrimitives_doubleValue v));
    Member uint64 AllPrimitives_ulongValue (λ a v, MkAllPrimitives (AllPrimitives_boolValue v) (AllPrimitives_byteValue v) (AllPrimitives_sbyteValue v) (AllPrimitives_shortValue v) (AllPrimitives_ushortValue v) (AllPrimitives_intValue v) (AllPrimitives_uintValue v) (AllPrimitives_longValue v) a (AllPrimitives_floatValue v) (AllPrimitives_doubleValue v));
    Member float AllPrimitives_floatValue (λ a v, MkAllPrimitives (AllPrimitives_boolValue v) (AllPrimitives_byteValue v) (AllPrimitives_sbyteValue v) (AllPrimitives_shortValue v) (AllPrimitives_ushortValue v) (AllPrimitives_intValue v) (AllPrimitives_uintValue v) (AllPrimitives_longValue v) (AllPrimitives_ulongValue v) a (AllPrimitives_doubleValue v));
    Member double AllPrimitives_doubleValue (λ a v, MkAllPrimitives (AllPrimitives_boolValue v) (AllPrimitives_byteValue v) (AllPrimitives_sbyteValue v) (AllPrimitives_shortValue v) (AllPrimitives_ushortValue v) (AllPrimitives_intValue v) (AllPrimitives_uintValue v) (AllPrimitives_longValue v) (AllPrimitives_ulongValue v) (AllPrimitives_floatValue v) a)] }.

#[global] Instance EmptyPacket_members : NoMembers EmptyPacket := MkEmptyPacket.

#[global] Instance StringPacket_members : Members StringPacket := {
  default_value := MkStringPacket (Str []) (Str []) (Str []) (Str []) None;
  members := [
    Member string StringPacket_ascii (λ a v, MkStringPacket a (StringPacket_korean v) (StringPacket_emoji v) (StringPacket_empty v) (StringPacket_nullString v));
    Member string StringPacket_korean (λ a v, MkStringPacket (StringPacket_ascii v) a (StringPacket_emoji v) (StringPacket_empty v) (StringPacket_nullString v));
    Member string StringPacket_emoji (λ a v, MkStringPacket (StringPacket_ascii v) (StringPacket_korean v) a (StringPacket_empty v) (StringPacket_nullString v));
    Member string StringPacket_empty (λ a v, MkStringPacket (StringPacket_ascii v) (StringPacket_korean v) (StringPacket_emoji v) a (StringPacket_nullString v));
    Member (option string) StringPacket_nullString (λ a v, MkStringPacket (StringPacket_ascii v) (StringPacket_korean v) (StringPacket_emoji v) (StringPacket_empty v) a)] }.

#[global] Instance Item_members : Members Item := {
  default_value := MkItem zero (Str []) zero;
  members := [
    Member int32 Item_itemId (λ a v, MkItem a (Item_itemName v) (Item_count v));
    Member string Item_itemName (λ a v, MkItem (Item_itemId v) a (Item_count v));
    Member int32 Item_count (λ a v, MkItem (Item_itemId v) (Item_itemName v) a)] }.

#[global] Instance Inventory_members : Members Inventory := {
  default_value := MkInventory zero (Vector []);
  members := [
    Member int32 Inventory_ownerId (λ a v, MkInventory a (Inventory_items v));
    Member (vector Item) Inventory_items (λ a v, MkInventory (Inventory_ownerId v) a)] }.

#[global] Instance NestedObject_members : Members NestedObject := {
  default_value := MkNestedObject zero None;
  members := [
    Member int32 NestedObject_id (λ a v, MkNestedObject a (NestedObject_child v));
    Member (option Item) NestedObject_child (λ a v, MkNestedObject (NestedObject_id v) a)] }.

#[global] Instance NestedList_members : Members NestedList := {
  default_value := MkNestedList (Vector []);
  members := [
    Member (vector (vector int32)) NestedList_rows (λ a _, MkNestedList a)] }.

#[global] Instance ListOfNullableObjects_members : Members ListOfNullableObjects := {
  default_value := MkListOfNullableObjects (Vector []);
  members := [
    Member (vector (option Item)) ListOfNullableObjects_items (λ a _, MkListOfNullableObjects a)] }.

#[global] Instance NullMembers_members : Members NullMembers := {
  default_value := MkNullMembers None (Str []) None (Vector []) None;
  members := [
    Member (option string) NullMembers_nullString (λ a v, MkNullMembers a (NullMembers_emptyString v) (NullMembers_nullList v) (NullMembers_emptyList v) (NullMembers_nullChild v));
    Member string NullMembers_emptyString (λ a v, MkNullMembers (NullMembers_nullString v) a (NullMembers_nullList v) (NullMembers_emptyList v) (NullMembers_nullChild v));
    Member (option (vector int32)) NullMembers_nullList (λ a v, MkNullMembers (NullMembers_nullString v) (NullMembers_emptyString v) a (NullMembers_emptyList v) (NullMembers_nullChild v));
    Member (vector int32) NullMembers_emptyList (λ a v, MkNullMembers (NullMembers_nullString v) (NullMembers_emptyString v) (NullMembers_nullList v) a (NullMembers_nullChild v));
    Member (option Item) NullMembers_nullChild (λ a v, MkNullMembers (NullMembers_nullString v) (NullMembers_emptyString v) (NullMembers_nullList v) (NullMembers_emptyList v) a)] }.

#[global] Instance BoolCollection_members : Members BoolCollection := {
  default_value := MkBoolCollection (Vector []) (Vector []);
  members := [
    Member (vector bool) BoolCollection_flags (λ a v, MkBoolCollection a (BoolCollection_flagArray v));
    Member (vector bool) BoolCollection_flagArray (λ a v, MkBoolCollection (BoolCollection_flags v) a)] }.

#[global] Instance ArrayPacket_members : Members ArrayPacket := {
  default_value := MkArrayPacket (Vector []) (Vector []) (Vector []) (Vector []) (Vector []) (Vector []) (Vector []) (Vector []);
  members := [
    Member (vector int16) ArrayPacket_shorts (λ a v, MkArrayPacket a (ArrayPacket_ints v) (ArrayPacket_longs v) (ArrayPacket_bytes v) (ArrayPacket_sbytes v) (ArrayPacket_floats v) (ArrayPacket_doubles v) (ArrayPacket_strings v));
    Member (vector int32) ArrayPacket_ints (λ a v, MkArrayPacket (ArrayPacket_shorts v) a (ArrayPacket_longs v) (ArrayPacket_bytes v) (ArrayPacket_sbytes v) (ArrayPacket_floats v) (ArrayPacket_doubles v) (ArrayPacket_strings v));
    Member (vector int64) ArrayPacket_longs (λ a v, MkArrayPacket (ArrayPacket_shorts v) (ArrayPacket_ints v) a (ArrayPacket_bytes v) (ArrayPacket_sbytes v) (ArrayPacket_floats v) (ArrayPacket_doubles v) (ArrayPacket_strings v));
    Member (vector uint8) ArrayPacket_bytes (λ a v, MkArrayPacket (ArrayPacket_shorts v) (ArrayPacket_ints v) (ArrayPacket_longs v) a (ArrayPacket_sbytes v) (ArrayPacket_floats v) (ArrayPacket_doubles v) (ArrayPacket_strings v));
    Member (vector int8) ArrayPacket_sbytes (λ a v, MkArrayPacket (ArrayPacket_shorts v) (ArrayPacket_ints v) (ArrayPacket_longs v) (ArrayPacket_bytes v) a (ArrayPacket_floats v) (ArrayPacket_doubles v) (ArrayPacket_strings v));
    Member (vector float) ArrayPacket_floats (λ a v, MkArrayPacket (ArrayPacket_shorts v) (ArrayPacket_ints v) (ArrayPacket_longs v) (ArrayPacket_bytes v) (ArrayPacket_sbytes v) a (ArrayPacket_doubles v) (ArrayPacket_strings v));
    Member (vector double) ArrayPacket_doubles (λ a v, MkArrayPacket (ArrayPacket_shorts v) (ArrayPacket_ints v) (ArrayPacket_longs v) (ArrayPacket_bytes v) (ArrayPacket_sbytes v) (ArrayPacket_floats v) a (ArrayPacket_strings v));
    Member (vector string) ArrayPacket_strings (λ a v, MkArrayPacket (ArrayPacket_shorts v) (ArrayPacket_ints v) (ArrayPacket_longs v) (ArrayPacket_bytes v) (ArrayPacket_sbytes v) (ArrayPacket_floats v) (ArrayPacket_doubles v) a)] }.

#[global] Instance ManyMembers_members : Members ManyMembers := {
  default_value := MkManyMembers zero zero zero zero zero zero zero zero zero zero;
  members := [
    Member int32 ManyMembers_m00 (λ a v, MkManyMembers a (ManyMembers_m01 v) (ManyMembers_m02 v) (ManyMembers_m03 v) (ManyMembers_m04 v) (ManyMembers_m05 v) (ManyMembers_m06 v) (ManyMembers_m07 v) (ManyMembers_m08 v) (ManyMembers_m09 v));
    Member int32 ManyMembers_m01 (λ a v, MkManyMembers (ManyMembers_m00 v) a (ManyMembers_m02 v) (ManyMembers_m03 v) (ManyMembers_m04 v) (ManyMembers_m05 v) (ManyMembers_m06 v) (ManyMembers_m07 v) (ManyMembers_m08 v) (ManyMembers_m09 v));
    Member int32 ManyMembers_m02 (λ a v, MkManyMembers (ManyMembers_m00 v) (ManyMembers_m01 v) a (ManyMembers_m03 v) (ManyMembers_m04 v) (ManyMembers_m05 v) (ManyMembers_m06 v) (ManyMembers_m07 v) (ManyMembers_m08 v) (ManyMembers_m09 v));
    Member int32 ManyMembers_m03 (λ a v, MkManyMembers (ManyMembers_m00 v) (ManyMembers_m01 v) (ManyMembers_m02 v) a (ManyMembers_m04 v) (ManyMembers_m05 v) (ManyMembers_m06 v) (ManyMembers_m07 v) (ManyMembers_m08 v) (ManyMembers_m09 v));
    Member int32 ManyMembers_m04 (λ a v, MkManyMembers (ManyMembers_m00 v) (ManyMembers_m01 v) (ManyMembers_m02 v) (ManyMembers_m03 v) a (ManyMembers_m05 v) (ManyMembers_m06 v) (ManyMembers_m07 v) (ManyMembers_m08 v) (ManyMembers_m09 v));
    Member int32 ManyMembers_m05 (λ a v, MkManyMembers (ManyMembers_m00 v) (ManyMembers_m01 v) (ManyMembers_m02 v) (ManyMembers_m03 v) (ManyMembers_m04 v) a (ManyMembers_m06 v) (ManyMembers_m07 v) (ManyMembers_m08 v) (ManyMembers_m09 v));
    Member int32 ManyMembers_m06 (λ a v, MkManyMembers (ManyMembers_m00 v) (ManyMembers_m01 v) (ManyMembers_m02 v) (ManyMembers_m03 v) (ManyMembers_m04 v) (ManyMembers_m05 v) a (ManyMembers_m07 v) (ManyMembers_m08 v) (ManyMembers_m09 v));
    Member int32 ManyMembers_m07 (λ a v, MkManyMembers (ManyMembers_m00 v) (ManyMembers_m01 v) (ManyMembers_m02 v) (ManyMembers_m03 v) (ManyMembers_m04 v) (ManyMembers_m05 v) (ManyMembers_m06 v) a (ManyMembers_m08 v) (ManyMembers_m09 v));
    Member int32 ManyMembers_m08 (λ a v, MkManyMembers (ManyMembers_m00 v) (ManyMembers_m01 v) (ManyMembers_m02 v) (ManyMembers_m03 v) (ManyMembers_m04 v) (ManyMembers_m05 v) (ManyMembers_m06 v) (ManyMembers_m07 v) a (ManyMembers_m09 v));
    Member int32 ManyMembers_m09 (λ a v, MkManyMembers (ManyMembers_m00 v) (ManyMembers_m01 v) (ManyMembers_m02 v) (ManyMembers_m03 v) (ManyMembers_m04 v) (ManyMembers_m05 v) (ManyMembers_m06 v) (ManyMembers_m07 v) (ManyMembers_m08 v) a)] }.

#[global] Instance OrderedPacket_members : Members OrderedPacket := {
  default_value := MkOrderedPacket zero zero;
  members := [
    Member int32 OrderedPacket_first (λ a v, MkOrderedPacket a (OrderedPacket_second v));
    Member int32 OrderedPacket_second (λ a v, MkOrderedPacket (OrderedPacket_first v) a)] }.

#[global] Instance EnumPacket_members : Members EnumPacket := {
  default_value := MkEnumPacket (Enum 1) (Enum 0) (Enum 0);
  members := [
    Member ColorU16 EnumPacket_u16 (λ a v, MkEnumPacket a (EnumPacket_i8 v) (EnumPacket_i32 v));
    Member ColorI8 EnumPacket_i8 (λ a v, MkEnumPacket (EnumPacket_u16 v) a (EnumPacket_i32 v));
    Member ColorI32 EnumPacket_i32 (λ a v, MkEnumPacket (EnumPacket_u16 v) (EnumPacket_i8 v) a)] }.

#[global] Instance UnmanagedHolder_members : Members UnmanagedHolder := {
  default_value := MkUnmanagedHolder value_init value_init;
  members := [
    Member Vec3 UnmanagedHolder_position (λ a v, MkUnmanagedHolder a (UnmanagedHolder_padded v));
    Member PaddedStruct UnmanagedHolder_padded (λ a v, MkUnmanagedHolder (UnmanagedHolder_position v) a)] }.

#[global] Instance ManagedStruct_members : Members ManagedStruct := {
  default_value := MkManagedStruct zero (Str []);
  members := [
    Member int32 ManagedStruct_id (λ a v, MkManagedStruct a (ManagedStruct_label v));
    Member string ManagedStruct_label (λ a v, MkManagedStruct (ManagedStruct_id v) a)] }.

#[global] Instance ManagedStructHolder_members : Members ManagedStructHolder := {
  default_value := MkManagedStructHolder value_init;
  members := [
    Member ManagedStruct ManagedStructHolder_value (λ a _, MkManagedStructHolder a)] }.

#[global] Instance NumericsTypes_members : Members NumericsTypes := {
  default_value := MkNumericsTypes value_init value_init value_init value_init;
  members := [
    Member Vector2 NumericsTypes_v2 (λ a v, MkNumericsTypes a (NumericsTypes_v3 v) (NumericsTypes_v4 v) (NumericsTypes_quat v));
    Member Vector3 NumericsTypes_v3 (λ a v, MkNumericsTypes (NumericsTypes_v2 v) a (NumericsTypes_v4 v) (NumericsTypes_quat v));
    Member Vector4 NumericsTypes_v4 (λ a v, MkNumericsTypes (NumericsTypes_v2 v) (NumericsTypes_v3 v) a (NumericsTypes_quat v));
    Member Quaternion NumericsTypes_quat (λ a v, MkNumericsTypes (NumericsTypes_v2 v) (NumericsTypes_v3 v) (NumericsTypes_v4 v) a)] }.

#[global] Instance NullablePacket_members : Members NullablePacket := {
  default_value := MkNullablePacket None None None None None;
  members := [
    Member (option int32) NullablePacket_maybeInt (λ a v, MkNullablePacket a (NullablePacket_nullInt v) (NullablePacket_maybeFloat v) (NullablePacket_maybeVec v) (NullablePacket_nullVec v));
    Member (option int32) NullablePacket_nullInt (λ a v, MkNullablePacket (NullablePacket_maybeInt v) a (NullablePacket_maybeFloat v) (NullablePacket_maybeVec v) (NullablePacket_nullVec v));
    Member (option float) NullablePacket_maybeFloat (λ a v, MkNullablePacket (NullablePacket_maybeInt v) (NullablePacket_nullInt v) a (NullablePacket_maybeVec v) (NullablePacket_nullVec v));
    Member (option Vec3) NullablePacket_maybeVec (λ a v, MkNullablePacket (NullablePacket_maybeInt v) (NullablePacket_nullInt v) (NullablePacket_maybeFloat v) a (NullablePacket_nullVec v));
    Member (option Vec3) NullablePacket_nullVec (λ a v, MkNullablePacket (NullablePacket_maybeInt v) (NullablePacket_nullInt v) (NullablePacket_maybeFloat v) (NullablePacket_maybeVec v) a)] }.

#[global] Instance ManagedNullableTarget_members : Members ManagedNullableTarget := {
  default_value := MkManagedNullableTarget zero (Str []);
  members := [
    Member int32 ManagedNullableTarget_a (λ a v, MkManagedNullableTarget a (ManagedNullableTarget_b v));
    Member string ManagedNullableTarget_b (λ a v, MkManagedNullableTarget (ManagedNullableTarget_a v) a)] }.

#[global] Instance DictPacket_members : Members DictPacket := {
  default_value := MkDictPacket c_clear c_clear c_clear;
  members := [
    Member (std_map int32 int32) DictPacket_intMap (λ a v, MkDictPacket a (DictPacket_stringMap v) (DictPacket_intToString v));
    Member (std_map string int32) DictPacket_stringMap (λ a v, MkDictPacket (DictPacket_intMap v) a (DictPacket_intToString v));
    Member (std_map int32 string) DictPacket_intToString (λ a v, MkDictPacket (DictPacket_intMap v) (DictPacket_stringMap v) a)] }.

#[global] Instance DictObjectPacket_members : Members DictObjectPacket := {
  default_value := MkDictObjectPacket c_clear;
  members := [
    Member (std_map int32 Item) DictObjectPacket_items (λ a _, MkDictObjectPacket a)] }.

#[global] Instance SetPacket_members : Members SetPacket := {
  default_value := MkSetPacket c_clear c_clear;
  members := [
    Member (std_set int32) SetPacket_intSet (λ a v, MkSetPacket a (SetPacket_stringSet v));
    Member (std_set string) SetPacket_stringSet (λ a v, MkSetPacket (SetPacket_intSet v) a)] }.

#[global] Instance KvpPacket_members : Members KvpPacket := {
  default_value := MkKvpPacket (zero, zero) (zero, (Str []));
  members := [
    Member (int32 * int32) KvpPacket_intPair (λ a v, MkKvpPacket a (KvpPacket_mixedPair v));
    Member (int32 * string) KvpPacket_mixedPair (λ a v, MkKvpPacket (KvpPacket_intPair v) a)] }.

#[global] Instance int_string_members : Members int_string := {
  default_value := MkIntString zero (Str []);
  members := [
    Member int32 get0 (λ a v, MkIntString a (get1 v));
    Member string get1 (λ a v, MkIntString (get0 v) a)] }.

#[global] Instance TuplePacket_members : Members TuplePacket := {
  default_value := MkTuplePacket None value_init (zero, (Str [])) value_init;
  members := [
    Member (option (tuple int_string)) TuplePacket_refTuple (λ a v, MkTuplePacket a (TuplePacket_unmanagedValueTuple v) (TuplePacket_mixedValueTuple v) (TuplePacket_tripleUnmanaged v));
    Member ValueTuple2i TuplePacket_unmanagedValueTuple (λ a v, MkTuplePacket (TuplePacket_refTuple v) a (TuplePacket_mixedValueTuple v) (TuplePacket_tripleUnmanaged v));
    Member (int32 * string) TuplePacket_mixedValueTuple (λ a v, MkTuplePacket (TuplePacket_refTuple v) (TuplePacket_unmanagedValueTuple v) a (TuplePacket_tripleUnmanaged v));
    Member ValueTupleIFD TuplePacket_tripleUnmanaged (λ a v, MkTuplePacket (TuplePacket_refTuple v) (TuplePacket_unmanagedValueTuple v) (TuplePacket_mixedValueTuple v) a)] }.

#[global] Instance DotNetTypes_members : Members DotNetTypes := {
  default_value := MkDotNetTypes value_init value_init value_init value_init zero value_init value_init value_init value_init;
  members := [
    Member Guid DotNetTypes_guidValue (λ a v, MkDotNetTypes a (DotNetTypes_dateTimeValue v) (DotNetTypes_timeSpanValue v) (DotNetTypes_dateTimeOffsetValue v) (DotNetTypes_charValue v) (DotNetTypes_decimalValue v) (DotNetTypes_halfValue v) (DotNetTypes_int128Value v) (DotNetTypes_uint128Value v));
    Member DateTime DotNetTypes_dateTimeValue (λ a v, MkDotNetTypes (DotNetTypes_guidValue v) a (DotNetTypes_timeSpanValue v) (DotNetTypes_dateTimeOffsetValue v) (DotNetTypes_charValue v) (DotNetTypes_decimalValue v) (DotNetTypes_halfValue v) (DotNetTypes_int128Value v) (DotNetTypes_uint128Value v));
    Member TimeSpan DotNetTypes_timeSpanValue (λ a v, MkDotNetTypes (DotNetTypes_guidValue v) (DotNetTypes_dateTimeValue v) a (DotNetTypes_dateTimeOffsetValue v) (DotNetTypes_charValue v) (DotNetTypes_decimalValue v) (DotNetTypes_halfValue v) (DotNetTypes_int128Value v) (DotNetTypes_uint128Value v));
    Member DateTimeOffset DotNetTypes_dateTimeOffsetValue (λ a v, MkDotNetTypes (DotNetTypes_guidValue v) (DotNetTypes_dateTimeValue v) (DotNetTypes_timeSpanValue v) a (DotNetTypes_charValue v) (DotNetTypes_decimalValue v) (DotNetTypes_halfValue v) (DotNetTypes_int128Value v) (DotNetTypes_uint128Value v));
    Member char16 DotNetTypes_charValue (λ a v, MkDotNetTypes (DotNetTypes_guidValue v) (DotNetTypes_dateTimeValue v) (DotNetTypes_timeSpanValue v) (DotNetTypes_dateTimeOffsetValue v) a (DotNetTypes_decimalValue v) (DotNetTypes_halfValue v) (DotNetTypes_int128Value v) (DotNetTypes_uint128Value v));
    Member Decimal DotNetTypes_decimalValue (λ a v, MkDotNetTypes (DotNetTypes_guidValue v) (DotNetTypes_dateTimeValue v) (DotNetTypes_timeSpanValue v) (DotNetTypes_dateTimeOffsetValue v) (DotNetTypes_charValue v) a (DotNetTypes_halfValue v) (DotNetTypes_int128Value v) (DotNetTypes_uint128Value v));
    Member Half DotNetTypes_halfValue (λ a v, MkDotNetTypes (DotNetTypes_guidValue v) (DotNetTypes_dateTimeValue v) (DotNetTypes_timeSpanValue v) (DotNetTypes_dateTimeOffsetValue v) (DotNetTypes_charValue v) (DotNetTypes_decimalValue v) a (DotNetTypes_int128Value v) (DotNetTypes_uint128Value v));
    Member Int128 DotNetTypes_int128Value (λ a v, MkDotNetTypes (DotNetTypes_guidValue v) (DotNetTypes_dateTimeValue v) (DotNetTypes_timeSpanValue v) (DotNetTypes_dateTimeOffsetValue v) (DotNetTypes_charValue v) (DotNetTypes_decimalValue v) (DotNetTypes_halfValue v) a (DotNetTypes_uint128Value v));
    Member UInt128 DotNetTypes_uint128Value (λ a v, MkDotNetTypes (DotNetTypes_guidValue v) (DotNetTypes_dateTimeValue v) (DotNetTypes_timeSpanValue v) (DotNetTypes_dateTimeOffsetValue v) (DotNetTypes_charValue v) (DotNetTypes_decimalValue v) (DotNetTypes_halfValue v) (DotNetTypes_int128Value v) a)] }.

#[global] Instance CircleShape_members : Members CircleShape := {
  default_value := MkCircleShape zero;
  members := [
    Member float CircleShape_radius (λ a _, MkCircleShape a)] }.

#[global] Instance RectShape_members : Members RectShape := {
  default_value := MkRectShape zero zero;
  members := [
    Member float RectShape_width (λ a v, MkRectShape a (RectShape_height v));
    Member float RectShape_height (λ a v, MkRectShape (RectShape_width v) a)] }.

#[global] Instance WideShape_members : Members WideShape := {
  default_value := MkWideShape zero;
  members := [
    Member int32 WideShape_sides (λ a _, MkWideShape a)] }.

#[global] Instance SpecialFloats_members : Members SpecialFloats := {
  default_value := MkSpecialFloats zero zero zero zero zero zero;
  members := [
    Member float SpecialFloats_nanF (λ a v, MkSpecialFloats a (SpecialFloats_posInfF v) (SpecialFloats_negInfF v) (SpecialFloats_nanD v) (SpecialFloats_posInfD v) (SpecialFloats_negZeroD v));
    Member float SpecialFloats_posInfF (λ a v, MkSpecialFloats (SpecialFloats_nanF v) a (SpecialFloats_negInfF v) (SpecialFloats_nanD v) (SpecialFloats_posInfD v) (SpecialFloats_negZeroD v));
    Member float SpecialFloats_negInfF (λ a v, MkSpecialFloats (SpecialFloats_nanF v) (SpecialFloats_posInfF v) a (SpecialFloats_nanD v) (SpecialFloats_posInfD v) (SpecialFloats_negZeroD v));
    Member double SpecialFloats_nanD (λ a v, MkSpecialFloats (SpecialFloats_nanF v) (SpecialFloats_posInfF v) (SpecialFloats_negInfF v) a (SpecialFloats_posInfD v) (SpecialFloats_negZeroD v));
    Member double SpecialFloats_posInfD (λ a v, MkSpecialFloats (SpecialFloats_nanF v) (SpecialFloats_posInfF v) (SpecialFloats_negInfF v) (SpecialFloats_nanD v) a (SpecialFloats_negZeroD v));
    Member double SpecialFloats_negZeroD (λ a v, MkSpecialFloats (SpecialFloats_nanF v) (SpecialFloats_posInfF v) (SpecialFloats_negInfF v) (SpecialFloats_nanD v) (SpecialFloats_posInfD v) a)] }.

#[global] Instance Shape_variant : Variant Shape := {
  first_alternative := Circle default_value;
  alternatives := [
    Alternative CircleShape 0 Circle (λ v, if v is Circle s then Some s else None);
    Alternative RectShape 1 Rect (λ v, if v is Rect s then Some s else None);
    Alternative WideShape 300 Wide (λ v, if v is Wide s then Some s else None)] }.

(** *** Serializers written by hand *)

(** [if (header.count >= 1) m(v);] after an object header; a null object leaves [v]. *)
Definition one_member {V} (m : V → R V) (v : V) : R V :=
  header ← ReadObjectHeader;
  if isNull header then mret v else
  if count header >=? 1 then m v else mret v.

Definition UnmanagedList_Serialize (v : option UnmanagedList) : W unit :=
  match v with
  | None => WriteNullObjectHeader
  | Some v => WriteObjectHeader 1 ;; WriteUnmanagedCollection (um_rep (T := Vec3)) (elements (UnmanagedList_points v))
  end.

Definition UnmanagedList_Deserialize : UnmanagedList → R UnmanagedList :=
  one_member (λ _, l ← ReadUnmanagedCollection (um_rep (T := Vec3)); mret (MkUnmanagedList (Vector l))).

Definition NullableManagedHolder_Serialize (v : option NullableManagedHolder) : W unit :=
  match v with
  | None => WriteNullObjectHeader
  | Some v => WriteObjectHeader 1 ;; WriteNullableObject (NullableManagedHolder_value v)
  end.

Definition NullableManagedHolder_Deserialize : NullableManagedHolder → R NullableManagedHolder :=
  one_member (λ _, x ← ReadNullableObject; mret (MkNullableManagedHolder x)).

Definition UnionHolder_Serialize (v : option UnionHolder) : W unit :=
  match v with
  | None => WriteNullObjectHeader
  | Some v => WriteObjectHeader 1 ;; Write (UnionHolder_shape v)
  end.

Definition UnionHolder_Deserialize : UnionHolder → R UnionHolder :=
  one_member (λ v, x ← ReadInto (UnionHolder_shape v); mret (MkUnionHolder x)).

#[global] Instance UnmanagedList_formatter : MemoryPackFormatter UnmanagedList := {
  value_init := MkUnmanagedList (Vector []);
  kind := OtherType;
  Serialize := λ v, UnmanagedList_Serialize (Some v);
  Deserialize := UnmanagedList_Deserialize }.

#[global] Instance NullableManagedHolder_formatter : MemoryPackFormatter NullableManagedHolder := {
  value_init := MkNullableManagedHolder None;
  kind := OtherType;
  Serialize := λ v, NullableManagedHolder_Serialize (Some v);
  Deserialize := NullableManagedHolder_Deserialize }.

#[global] Instance UnionHolder_formatter : MemoryPackFormatter UnionHolder := {
  value_init := MkUnionHolder None;
  kind := OtherType;
  Serialize := λ v, UnionHolder_Serialize (Some v);
  Deserialize := UnionHolder_Deserialize }.

Definition VersionTolerantPacket_members : list (member VersionTolerantPacket) := [
    Member int32 VersionTolerantPacket_id (λ a v, MkVersionTolerantPacket a (VersionTolerantPacket_name v) (VersionTolerantPacket_score v));
    Member string VersionTolerantPacket_name (λ a v, MkVersionTolerantPacket (VersionTolerantPacket_id v) a (VersionTolerantPacket_score v));
    Member float VersionTolerantPacket_score (λ a v, MkVersionTolerantPacket (VersionTolerantPacket_id v) (VersionTolerantPacket_name v) a)].
Definition VersionTolerantPacket_default : VersionTolerantPacket := MkVersionTolerantPacket zero (Str []) zero.

Definition VersionTolerantLong_members : list (member VersionTolerantLong) := [
    Member int32 VersionTolerantLong_id (λ a v, MkVersionTolerantLong a (VersionTolerantLong_big v) (VersionTolerantLong_tail v));
    Member string VersionTolerantLong_big (λ a v, MkVersionTolerantLong (VersionTolerantLong_id v) a (VersionTolerantLong_tail v));
    Member int32 VersionTolerantLong_tail (λ a v, MkVersionTolerantLong (VersionTolerantLong_id v) (VersionTolerantLong_big v) a)].
Definition VersionTolerantLong_default : VersionTolerantLong := MkVersionTolerantLong zero (Str []) zero.

(** [VersionTolerantWriter vt(w); vt.WriteMember(...); ...], and the reader likewise. *)
#[global] Instance VersionTolerantPacket_formatter : MemoryPackFormatter VersionTolerantPacket := {
  value_init := VersionTolerantPacket_default;
  kind := OtherType;
  Serialize := WriteVersionTolerant VersionTolerantPacket_members;
  Deserialize := ReadVersionTolerant VersionTolerantPacket_members }.

#[global] Instance VersionTolerantLong_formatter : MemoryPackFormatter VersionTolerantLong := {
  value_init := VersionTolerantLong_default;
  kind := OtherType;
  Serialize := WriteVersionTolerant VersionTolerantLong_members;
  Deserialize := ReadVersionTolerant VersionTolerantLong_members }.
End Definitions.
End interop.
