(* ===== verification/InteropCatalogue.v ===== *)
(** The types of the interop suite that the library's macros define ([interop_types.hpp])
    are in the catalogue: what it shows of every serializable type holds of all of them,
    up to the deepest members. (The five structs whose serializers are written by hand are
    not built from the library's formatters alone.) *)
From S2P Require Import Prelude Endian Writer Reader Headers Utf Strings Formatter Collections Assoc Nullable Objects Union Unmanaged Decoded DotNet Typing Api Catalogue InteropTypes.

Import interop.

#[global] Set Default Goal Selector "!".

Section Types.
Context `{Platform}.

#[global] Instance Vec3_laws : UnmanagedLaws Vec3.
Proof. split; [done|]. first [done|apply alignof_pos]. Qed.

#[global] Instance PaddedStruct_laws : ScrubbedLaws PaddedStruct.
Proof. split; [done|done|]. repeat constructor; done. Qed.

#[global] Instance PackedStruct_laws : UnmanagedLaws PackedStruct.
Proof. split; [done|]. first [done|apply alignof_pos]. Qed.

#[global] Instance ValueTuple2i_laws : UnmanagedLaws ValueTuple2i.
Proof. split; [done|]. first [done|apply alignof_pos]. Qed.

#[global] Instance ValueTupleIFD_laws : UnmanagedLaws ValueTupleIFD.
Proof. split; [done|]. first [done|apply alignof_pos]. Qed.

#[global] Instance SimplePacket_struct : Struct SimplePacket.
Proof. struct_members_of. Defined.
#[global] Instance SimplePacket_serializable : serializable SimplePacket _ _ _.
Proof. apply ser_object. serializable_members. Qed.

#[global] Instance AllPrimitives_struct : Struct AllPrimitives.
Proof. struct_members_of. Defined.
#[global] Instance AllPrimitives_serializable : serializable AllPrimitives _ _ _.
Proof. apply ser_object. serializable_members. Qed.

#[global] Instance EmptyPacket_laws : EmptyLaws EmptyPacket.
Proof. by intros []. Qed.

#[global] Instance StringPacket_struct : Struct StringPacket.
Proof. struct_members_of. Defined.
#[global] Instance StringPacket_serializable : serializable StringPacket _ _ _.
Proof. apply ser_object. serializable_members. Qed.

#[global] Instance Item_struct : Struct Item.
Proof. struct_members_of. Defined.
#[global] Instance Item_serializable : serializable Item _ _ _.
Proof. apply ser_object. serializable_members. Qed.

#[global] Instance Inventory_struct : Struct Inventory.
Proof. struct_members_of. Defined.
#[global] Instance Inventory_serializable : serializable Inventory _ _ _.
Proof. apply ser_object. serializable_members. Qed.

#[global] Instance NestedObject_struct : Struct NestedObject.
Proof. struct_members_of. Defined.
#[global] Instance NestedObject_serializable : serializable NestedObject _ _ _.
Proof. apply ser_object. serializable_members. Qed.

#[global] Instance NestedList_struct : Struct NestedList.
Proof. struct_members_of. Defined.
#[global] Instance NestedList_serializable : serializable NestedList _ _ _.
Proof. apply ser_object. serializable_members. Qed.

#[global] Instance ListOfNullableObjects_struct : Struct ListOfNullableObjects.
Proof. struct_members_of. Defined.
#[global] Instance ListOfNullableObjects_serializable : serializable ListOfNullableObjects _ _ _.
Proof. apply ser_object. serializable_members. Qed.

#[global] Instance NullMembers_struct : Struct NullMembers.
Proof. struct_members_of. Defined.
#[global] Instance NullMembers_serializable : serializable NullMembers _ _ _.
Proof. apply ser_object. serializable_members. Qed.

#[global] Instance BoolCollection_struct : Struct BoolCollection.
Proof. struct_members_of. Defined.
#[global] Instance BoolCollection_serializable : serializable BoolCollection _ _ _.
Proof. apply ser_object. serializable_members. Qed.

#[global] Instance ArrayPacket_struct : Struct ArrayPacket.
Proof. struct_members_of. Defined.
#[global] Instance ArrayPacket_serializable : serializable ArrayPacket _ _ _.
Proof. apply ser_object. serializable_members. Qed.

#[global] Instance ManyMembers_struct : Struct ManyMembers.
Proof. struct_members_of. Defined.
#[global] Instance ManyMembers_serializable : serializable ManyMembers _ _ _.
Proof. apply ser_object. serializable_members. Qed.

#[global] Instance OrderedPacket_struct : Struct OrderedPacket.
Proof. struct_members_of. Defined.
#[global] Instance OrderedPacket_serializable : serializable OrderedPacket _ _ _.
Proof. apply ser_object. serializable_members. Qed.

#[global] Instance EnumPacket_struct : Struct EnumPacket.
Proof. struct_members_of. Defined.
#[global] Instance EnumPacket_serializable : serializable EnumPacket _ _ _.
Proof. apply ser_object. serializable_members. Qed.

#[global] Instance UnmanagedHolder_struct : Struct UnmanagedHolder.
Proof. struct_members_of. Defined.
#[global] Instance UnmanagedHolder_serializable : serializable UnmanagedHolder _ _ _.
Proof. apply ser_object. serializable_members. Qed.

#[global] Instance ManagedStruct_struct : Struct ManagedStruct.
Proof. struct_members_of. Defined.
#[global] Instance ManagedStruct_serializable : serializable ManagedStruct _ _ _.
Proof. apply ser_object. serializable_members. Qed.

#[global] Instance ManagedStructHolder_struct : Struct ManagedStructHolder.
Proof. struct_members_of. Defined.
#[global] Instance ManagedStructHolder_serializable : serializable ManagedStructHolder _ _ _.
Proof. apply ser_object. serializable_members. Qed.

#[global] Instance NumericsTypes_struct : Struct NumericsTypes.
Proof. struct_members_of. Defined.
#[global] Instance NumericsTypes_serializable : serializable NumericsTypes _ _ _.
Proof. apply ser_object. serializable_members. Qed.

#[global] Instance NullablePacket_struct : Struct NullablePacket.
Proof. struct_members_of. Defined.
#[global] Instance NullablePacket_serializable : serializable NullablePacket _ _ _.
Proof. apply ser_object. serializable_members. Qed.

#[global] Instance ManagedNullableTarget_struct : Struct ManagedNullableTarget.
Proof. struct_members_of. Defined.
#[global] Instance ManagedNullableTarget_serializable : serializable ManagedNullableTarget _ _ _.
Proof. apply ser_object. serializable_members. Qed.

#[global] Instance DictPacket_struct : Struct DictPacket.
Proof. struct_members_of. Defined.
#[global] Instance DictPacket_serializable : serializable DictPacket _ _ _.
Proof. apply ser_object. serializable_members. Qed.

#[global] Instance DictObjectPacket_struct : Struct DictObjectPacket.
Proof. struct_members_of. Defined.
#[global] Instance DictObjectPacket_serializable : serializable DictObjectPacket _ _ _.
Proof. apply ser_object. serializable_members. Qed.

#[global] Instance SetPacket_struct : Struct SetPacket.
Proof. struct_members_of. Defined.
#[global] Instance SetPacket_serializable : serializable SetPacket _ _ _.
Proof. apply ser_object. serializable_members. Qed.

#[global] Instance KvpPacket_struct : Struct KvpPacket.
Proof. struct_members_of. Defined.
#[global] Instance KvpPacket_serializable : serializable KvpPacket _ _ _.
Proof. apply ser_object. serializable_members. Qed.

#[global] Instance int_string_struct : Struct int_string.
Proof. struct_members_of. Defined.
#[global] Instance int_string_serializable : serializable int_string _ _ _.
Proof. apply ser_object. serializable_members. Qed.
#[global] Instance int_string_tuple : serializable (tuple int_string) _ _ _.
Proof. apply ser_tuple. serializable_members. Qed.

#[global] Instance TuplePacket_struct : Struct TuplePacket.
Proof. struct_members_of. Defined.
#[global] Instance TuplePacket_serializable : serializable TuplePacket _ _ _.
Proof. apply ser_object. serializable_members. Qed.

#[global] Instance DotNetTypes_struct : Struct DotNetTypes.
Proof. struct_members_of. Defined.
#[global] Instance DotNetTypes_serializable : serializable DotNetTypes _ _ _.
Proof. apply ser_object. serializable_members. Qed.

#[global] Instance CircleShape_struct : Struct CircleShape.
Proof. struct_members_of. Defined.
#[global] Instance CircleShape_serializable : serializable CircleShape _ _ _.
Proof. apply ser_object. serializable_members. Qed.

#[global] Instance RectShape_struct : Struct RectShape.
Proof. struct_members_of. Defined.
#[global] Instance RectShape_serializable : serializable RectShape _ _ _.
Proof. apply ser_object. serializable_members. Qed.

#[global] Instance WideShape_struct : Struct WideShape.
Proof. struct_members_of. Defined.
#[global] Instance WideShape_serializable : serializable WideShape _ _ _.
Proof. apply ser_object. serializable_members. Qed.

#[global] Instance SpecialFloats_struct : Struct SpecialFloats.
Proof. struct_members_of. Defined.
#[global] Instance SpecialFloats_serializable : serializable SpecialFloats _ _ _.
Proof. apply ser_object. serializable_members. Qed.

#[global] Instance Shape_alternatives : Alternatives Shape.
Proof. alternatives_of. Defined.
#[global] Instance Shape_serializable : serializable Shape _ _ _.
Proof. apply ser_variant. serializable_members. Qed.

End Types.
