(* ===== verification/InteropTests.v ===== *)
(** The interop suite ([tests/interop_tests.cpp]): every fixture, a file of bytes made by the
    C# library, is decoded, checked and encoded again. The command line, the file system and
    [MEMORYPACK_FIXTURE_DIR] are parameters; what the suite writes to its output directory is
    recorded in order. *)
From stdpp Require Import strings.
From S2P Require Import Prelude Endian Writer Reader Headers Utf Strings Formatter Collections Assoc Nullable Objects Union VersionTolerant Unmanaged DotNet Api Text Console Floats Files TestHarness InteropTypes.

(** The other globals: the directories, the number of fixtures missing, and the files
    written. *)
Record suite := Suite { g_fixtureDir : list Z; g_outputDir : list Z; g_missing : Z; g_written : list (list Z * list Z) }.

Class FixtureDir := MEMORYPACK_FIXTURE_DIR : list Z.

(** The elements of two [vector]s of [float] or [double]. *)
Fixpoint all_eq (eq : Z → Z → bool) (a b : list Z) : bool :=
  match a, b with
  | [], [] => true
  | x :: a', y :: b' => eq x y && all_eq eq a' b'
  | _, _ => false
  end.

Section Suite.
Context `{Platform, Build, Filesystem, FixtureDir}.

Abbreviation T := (M (program (mptest * suite))).

Definition update_suite (f : suite → suite) : T unit := set_globals (λ g, (g.1, f g.2)).

Definition get_suite : T suite := gets (λ p, (globals p).2).

Definition file_name (name : list Z) : list Z := name ++ c_literal ".bin".

Definition LoadFixture (name : list Z) : T (list Z) :=
  s ← get_suite;
  let path := path_join (g_fixtureDir s) (file_name name) in
  match file path with
  | Some bytes => mret bytes
  | None =>
      n ← increment (g_missing s);
      update_suite (λ s, Suite (g_fixtureDir s) (g_outputDir s) n (g_written s)) ;;
      printf "  [MISS] fixture not found: %s\n" [Text path] ;;
      mret []
  end.

Definition SaveOutput (name bytes : list Z) : T unit :=
  s ← get_suite;
  if bool_decide (g_outputDir s = []) then mret tt else
  update_suite (λ s, Suite (g_fixtureDir s) (g_outputDir s) (g_missing s)
    (g_written s ++ [(path_join (g_outputDir s) (file_name name), bytes)])).

(** [expected.empty() && g_missing] *)
Definition skipped (expected : list Z) : T bool :=
  s ← get_suite;
  mret (bool_decide (expected = []) && negb (g_missing s =? 0)).

Definition Roundtrip (V : Type) `{!MemoryPackFormatter V} (name : String.string) (verify : V → T unit) : T unit :=
  BeginCase (c_literal name) ;;
  expected ← LoadFixture (c_literal name);
  skip ← skipped expected;
  if skip : bool then mret tt else
  r ← on_local (NewReader expected DefaultOptions) (ReadInto (T := V) value_init);
  let '(value, reader) := r in
  CHECK 61 "reader reported an error decoding the C# bytes" (negb (Failed reader)) ;;
  CHECK 62 "reader did not consume the whole C# payload" (IsEnd reader) ;;
  verify value ;;
  actual ← serialize value;
  CHECK_BYTES_EQ 66 actual expected "re-serialized bytes differ from C# MemoryPack" ;;
  SaveOutput (c_literal name) actual.

Definition RoundtripValue (V : Type) `{!MemoryPackFormatter V} (name : String.string) (seed : V) (verify : V → T unit) : T unit :=
  BeginCase (c_literal name) ;;
  expected ← LoadFixture (c_literal name);
  skip ← skipped expected;
  if skip : bool then mret tt else
  r ← on_local (NewReader expected DefaultOptions) (ReadInto seed);
  let '(value, reader) := r in
  CHECK 82 "reader reported an error decoding the C# bytes" (negb (Failed reader)) ;;
  verify value ;;
  actual ← serialize value;
  CHECK_BYTES_EQ 86 actual expected "re-serialized bytes differ from C# MemoryPack" ;;
  SaveOutput (c_literal name) actual.

Definition NearlyEqual (a b : Z) : bool := float_closer a b (float_lit 1 1000000).

(** The lambda that checks nothing. *)
Definition nothing {V} (_ : V) : T unit := mret tt.

(** ** The cases *)

Import interop.

Definition verify_SimplePacket (v : SimplePacket) : T unit :=
  CHECK 97 "CHECK(v.id == 42)" (pval (SimplePacket_id v) =? 42) ;;
  CHECK 98 "CHECK(v.name == \qABC\q)" (bool_decide (SimplePacket_name v = str "ABC")).

Definition verify_AllPrimitives (v : AllPrimitives) : T unit :=
  CHECK 102 "CHECK(v.boolValue == true)" (pval (AllPrimitives_boolValue v) =? 1) ;;
  CHECK 103 "CHECK(v.byteValue == 200)" (pval (AllPrimitives_byteValue v) =? 200) ;;
  CHECK 104 "CHECK(v.sbyteValue == -5)" (pval (AllPrimitives_sbyteValue v) =? -5) ;;
  CHECK 105 "CHECK(v.shortValue == -1234)" (pval (AllPrimitives_shortValue v) =? -1234) ;;
  CHECK 106 "CHECK(v.ushortValue == 54321)" (pval (AllPrimitives_ushortValue v) =? 54321) ;;
  CHECK 107 "CHECK(v.intValue == -123456)" (pval (AllPrimitives_intValue v) =? -123456) ;;
  CHECK 108 "CHECK(v.uintValue == 3000000000u)" (pval (AllPrimitives_uintValue v) =? 3000000000) ;;
  CHECK 109 "CHECK(v.longValue == -1234567890123LL)" (pval (AllPrimitives_longValue v) =? -1234567890123) ;;
  CHECK 110 "CHECK(v.ulongValue == 12345678901234567890ULL)" (pval (AllPrimitives_ulongValue v) =? 12345678901234567890) ;;
  CHECK 111 "CHECK(v.floatValue == 3.14159f)" (float_eq (pval (AllPrimitives_floatValue v)) (float_lit 314159 100000)) ;;
  CHECK 112 "CHECK(v.doubleValue == 2.718281828459045)" (double_eq (pval (AllPrimitives_doubleValue v)) (double_lit 2718281828459045 1000000000000000)).

Definition verify_ManyMembers (v : ManyMembers) : T unit :=
  CHECK 118 "CHECK(v.m00 == 0 && v.m04 == 4 && v.m09 == 9)" ((pval (ManyMembers_m00 v) =? 0) && (pval (ManyMembers_m04 v) =? 4) && (pval (ManyMembers_m09 v) =? 9)).

Definition verify_OrderedPacket (v : OrderedPacket) : T unit :=
  CHECK 122 "CHECK(v.first == 1)" (pval (OrderedPacket_first v) =? 1) ;;
  CHECK 123 "CHECK(v.second == 2)" (pval (OrderedPacket_second v) =? 2).

Definition null_object : T unit :=
  BeginCase (c_literal "null_object") ;;
  expected ← LoadFixture (c_literal "null_object");
  if bool_decide (expected = []) then mret tt else
  CHECK 131 "CHECK(expected.size() == 1 && expected[0] == NULL_OBJECT)" ((zlen expected =? 1) && bool_decide (head expected = Some NULL_OBJECT)) ;;
  r ← on_local NewWriter (Define_Serialize (None : option SimplePacket));
  CHECK_BYTES_EQ 134 (GetSpan r.2) expected "null object header" ;;
  SaveOutput (c_literal "null_object") (GetSpan r.2).

Definition verify_NestedObject (v : NestedObject) : T unit :=
  CHECK 140 "CHECK(v.id == 5)" (pval (NestedObject_id v) =? 5) ;;
  CHECK 141 "CHECK(v.child.has_value())" (bool_decide (is_Some (NestedObject_child v))) ;;
  match NestedObject_child v with
  | Some child =>
  CHECK 143 "CHECK(v.child->itemId == 9)" (pval (Item_itemId child) =? 9) ;;
  CHECK 144 "CHECK(v.child->itemName == \qGem\q)" (bool_decide (Item_itemName child = str "Gem")) ;;
  CHECK 145 "CHECK(v.child->count == 3)" (pval (Item_count child) =? 3)
  | None => mret tt
  end.

Definition verify_NullMembers (v : NullMembers) : T unit :=
  CHECK 150 "CHECK(!v.nullString.has_value())" (negb (bool_decide (is_Some (NullMembers_nullString v)))) ;;
  CHECK 151 "CHECK(v.emptyString.empty())" (bool_decide (NullMembers_emptyString v = Str [])) ;;
  CHECK 152 "CHECK(!v.nullList.has_value())" (negb (bool_decide (is_Some (NullMembers_nullList v)))) ;;
  CHECK 153 "CHECK(v.emptyList.empty())" (bool_decide (NullMembers_emptyList v = Vector [])) ;;
  CHECK 154 "CHECK(!v.nullChild.has_value())" (negb (bool_decide (is_Some (NullMembers_nullChild v)))).

Definition TestObjects : T unit :=
  Roundtrip SimplePacket "simple_packet" verify_SimplePacket ;;
  Roundtrip AllPrimitives "all_primitives" verify_AllPrimitives ;;
  Roundtrip EmptyPacket "empty_packet" nothing ;;
  Roundtrip ManyMembers "many_members" verify_ManyMembers ;;
  Roundtrip OrderedPacket "ordered_packet" verify_OrderedPacket ;;
  null_object ;;
  Roundtrip NestedObject "nested_object" verify_NestedObject ;;
  Roundtrip NullMembers "null_members" verify_NullMembers.

Definition verify_EnumPacket (v : EnumPacket) : T unit :=
  CHECK 160 "CHECK(v.u16 == interop::ColorU16::Green)" (evalue (EnumPacket_u16 v) =? evalue Green) ;;
  CHECK 161 "CHECK(v.i8 == interop::ColorI8::Neg)" (evalue (EnumPacket_i8 v) =? evalue Neg) ;;
  CHECK 162 "CHECK(v.i32 == interop::ColorI32::B)" (evalue (EnumPacket_i32 v) =? evalue B).

Definition TestEnums : T unit := Roundtrip EnumPacket "enum_packet" verify_EnumPacket.

Definition verify_StringPacket (v : StringPacket) : T unit :=
  CHECK 168 "CHECK(v.ascii == \qHello\q)" (bool_decide (StringPacket_ascii v = str "Hello")) ;;
  CHECK 169 "CHECK(v.korean == \q\\xED\\x95\\x9C\\xEA\\xB8\\x80\q)" (bool_decide (StringPacket_korean v = Str [0xED; 0x95; 0x9C; 0xEA; 0xB8; 0x80])) ;;
  CHECK 170 "CHECK(v.emoji == \q\\xF0\\x9F\\x98\\x80\q)" (bool_decide (StringPacket_emoji v = Str [0xF0; 0x9F; 0x98; 0x80])) ;;
  CHECK 171 "CHECK(v.empty.empty())" (bool_decide (StringPacket_empty v = Str [])) ;;
  CHECK 172 "CHECK(!v.nullString.has_value())" (negb (bool_decide (is_Some (StringPacket_nullString v)))).

Definition verify_hello (v : string) : T unit :=
  CHECK 175 "CHECK(v == \qHello\q)" (bool_decide (v = str "Hello")).

Definition verify_empty_string (v : string) : T unit :=
  CHECK 176 "CHECK(v.empty())" (bool_decide (v = Str [])).

Definition verify_null_string (v : option string) : T unit :=
  CHECK 179 "CHECK(!v.has_value())" (negb (bool_decide (is_Some v))).

(** The view ends where the reader stands, so it starts [zlen view] before. *)
Definition string_view_zero_copy : T unit :=
  BeginCase (c_literal "string_view_zero_copy") ;;
  bytes ← LoadFixture (c_literal "string_top_level");
  if bool_decide (bytes = []) then mret tt else
  r ← on_local (NewReader bytes DefaultOptions) ReadStringView;
  let '(view, reader) := r in
  CHECK 188 "CHECK(view.has_value() && *view == \qHello\q)" (bool_decide (view = Some (c_literal "Hello"))) ;;
  CHECK 189 "the view must point into the input buffer, not a copy"
    (match view with
     | Some view => (0 <=? pos_ reader - zlen view) && (pos_ reader - zlen view <? zlen bytes)
     | None => false
     end).

Definition TestStrings : T unit :=
  Roundtrip StringPacket "string_packet" verify_StringPacket ;;
  Roundtrip string "string_top_level" verify_hello ;;
  Roundtrip string "string_top_level_empty" verify_empty_string ;;
  RoundtripValue (option string) "string_top_level_null" (Some (str "seed")) verify_null_string ;;
  string_view_zero_copy.

(** A [vector] of numbers. *)
Definition numbers {t} (l : list Z) : vector (prim t) := Vector (Prim <$> l).

Definition verify_ArrayPacket (v : ArrayPacket) : T unit :=
  CHECK 198 "CHECK((v.shorts == std::vector<int16_t>{1, -2, 3}))" (bool_decide (ArrayPacket_shorts v = numbers [1; -2; 3])) ;;
  CHECK 199 "CHECK((v.ints == std::vector<int32_t>{10, 20, 30}))" (bool_decide (ArrayPacket_ints v = numbers [10; 20; 30])) ;;
  CHECK 200 "CHECK((v.longs == std::vector<int64_t>{-1, 2}))" (bool_decide (ArrayPacket_longs v = numbers [-1; 2])) ;;
  CHECK 201 "CHECK((v.bytes == std::vector<uint8_t>{0, 128, 255}))" (bool_decide (ArrayPacket_bytes v = numbers [0; 128; 255])) ;;
  CHECK 202 "CHECK((v.sbytes == std::vector<int8_t>{-128, 0, 127}))" (bool_decide (ArrayPacket_sbytes v = numbers [-128; 0; 127])) ;;
  CHECK 203 "CHECK((v.floats == std::vector<float>{1.5f, -2.5f}))" (all_eq float_eq (pval <$> elements (ArrayPacket_floats v)) [float_of 3 (-1); float_of (-5) (-1)]) ;;
  CHECK 204 "CHECK((v.doubles == std::vector<double>{1.25, -2.5}))" (all_eq double_eq (pval <$> elements (ArrayPacket_doubles v)) [double_lit 5 4; neg_double (double_lit 5 2)]) ;;
  CHECK 205 "CHECK((v.strings == std::vector<std::string>{\qa\q, \qbb\q, \qccc\q}))" (bool_decide (ArrayPacket_strings v = Vector [str "a"; str "bb"; str "ccc"])).

Definition verify_int_list (v : vector int32) : T unit :=
  CHECK 209 "CHECK((v == std::vector<int32_t>{10, 20, 30}))" (bool_decide (v = numbers [10; 20; 30])).

Definition verify_empty_list (v : vector int32) : T unit :=
  CHECK 211 "CHECK(v.empty())" (bool_decide (v = Vector [])).

Definition verify_null_list (v : option (vector int32)) : T unit :=
  CHECK 215 "CHECK(!v.has_value())" (negb (bool_decide (is_Some v))).

Definition verify_BoolCollection (v : BoolCollection) : T unit :=
  CHECK 218 "CHECK((v.flags == std::vector<bool>{true, false, true}))" (bool_decide (BoolCollection_flags v = numbers [1; 0; 1])) ;;
  CHECK 219 "CHECK((v.flagArray == std::vector<bool>{false, true}))" (bool_decide (BoolCollection_flagArray v = numbers [0; 1])).

Definition verify_NestedList (v : NestedList) : T unit :=
  CHECK 223 "CHECK(v.rows.size() == 3)" (zlen (elements (NestedList_rows v)) =? 3) ;;
  match elements (NestedList_rows v) with
  | [r0; r1; r2] =>
  CHECK 225 "CHECK((v.rows[0] == std::vector<int32_t>{1, 2}))" (bool_decide (r0 = numbers [1; 2])) ;;
  CHECK 226 "CHECK((v.rows[1] == std::vector<int32_t>{3}))" (bool_decide (r1 = numbers [3])) ;;
  CHECK 227 "CHECK(v.rows[2].empty())" (bool_decide (r2 = Vector []))
  | _ => mret tt
  end.

Definition verify_Inventory (v : Inventory) : T unit :=
  CHECK 232 "CHECK(v.ownerId == 7)" (pval (Inventory_ownerId v) =? 7) ;;
  CHECK 233 "CHECK(v.items.size() == 3)" (zlen (elements (Inventory_items v)) =? 3) ;;
  match elements (Inventory_items v) with
  | [i0; i1; i2] =>
  CHECK 235 "CHECK(v.items[0].itemId == 1 && v.items[0].itemName == \qSword\q && v.items[0].count == 10)" ((pval (Item_itemId i0) =? 1) && bool_decide (Item_itemName i0 = str "Sword") && (pval (Item_count i0) =? 10)) ;;
  CHECK 236 "CHECK(v.items[1].itemName == \qShield\q)" (bool_decide (Item_itemName i1 = str "Shield")) ;;
  CHECK 237 "CHECK(v.items[2].itemName == \qPotion\q && v.items[2].count == 30)" (bool_decide (Item_itemName i2 = str "Potion") && (pval (Item_count i2) =? 30))
  | _ => mret tt
  end.

Definition verify_ListOfNullableObjects (v : ListOfNullableObjects) : T unit :=
  CHECK 242 "CHECK(v.items.size() == 2)" (zlen (elements (ListOfNullableObjects_items v)) =? 2) ;;
  match elements (ListOfNullableObjects_items v) with
  | [i0; i1] =>
  CHECK 244 "CHECK(v.items[0].has_value() && v.items[0]->itemName == \qA\q)" (bool_decide (Item_itemName <$> i0 = Some (str "A"))) ;;
  CHECK 245 "CHECK(!v.items[1].has_value())" (negb (bool_decide (is_Some i1)))
  | _ => mret tt
  end.

Definition TestCollections : T unit :=
  Roundtrip ArrayPacket "array_packet" verify_ArrayPacket ;;
  Roundtrip (vector int32) "int_list_top_level" verify_int_list ;;
  Roundtrip (vector int32) "int_list_empty" verify_empty_list ;;
  RoundtripValue (option (vector int32)) "int_list_null" (Some (numbers [1; 2])) verify_null_list ;;
  Roundtrip BoolCollection "bool_collection" verify_BoolCollection ;;
  Roundtrip NestedList "nested_list" verify_NestedList ;;
  Roundtrip Inventory "inventory" verify_Inventory ;;
  Roundtrip ListOfNullableObjects "list_of_nullable_objects" verify_ListOfNullableObjects.

Definition verify_DictPacket (v : DictPacket) : T unit :=
  b ← and_then (zlen (nodes (DictPacket_intMap v)) =? 3) (x ← map_at (i32 2) (DictPacket_intMap v); mret (pval x =? 20));
  CHECK 252 "CHECK(v.intMap.size() == 3 && v.intMap.at(2) == 20)" (b) ;;
  b ← and_then (zlen (nodes (DictPacket_stringMap v)) =? 2) (x ← map_at (str "b") (DictPacket_stringMap v); mret (pval x =? 2));
  CHECK 253 "CHECK(v.stringMap.size() == 2 && v.stringMap.at(\qb\q) == 2)" (b) ;;
  b ← and_then (zlen (nodes (DictPacket_intToString v)) =? 2) (x ← map_at (i32 1) (DictPacket_intToString v); mret (bool_decide (x = str "one")));
  CHECK 254 "CHECK(v.intToString.size() == 2 && v.intToString.at(1) == \qone\q)" (b).

Definition verify_DictObjectPacket (v : DictObjectPacket) : T unit :=
  CHECK 258 "CHECK(v.items.size() == 1)" (zlen (nodes (DictObjectPacket_items v)) =? 1) ;;
  if map_contains (i32 1) (DictObjectPacket_items v) then
    x ← map_at (i32 1) (DictObjectPacket_items v);
  CHECK 259 "CHECK(v.items.at(1).itemName == \qA\q)" (bool_decide (Item_itemName x = str "A"))
  else mret tt.

Definition verify_SetPacket (v : SetPacket) : T unit :=
  CHECK 263 "CHECK(v.intSet.size() == 3 && v.intSet.contains(30))" ((zlen (keys (SetPacket_intSet v)) =? 3) && bool_decide (i32 30 ∈ keys (SetPacket_intSet v))) ;;
  CHECK 264 "CHECK(v.stringSet.size() == 2 && v.stringSet.contains(\qbeta\q))" ((zlen (keys (SetPacket_stringSet v)) =? 2) && bool_decide (str "beta" ∈ keys (SetPacket_stringSet v))).

Definition verify_KvpPacket (v : KvpPacket) : T unit :=
  CHECK 268 "CHECK(v.intPair.first == 1 && v.intPair.second == 2)" ((pval (KvpPacket_intPair v).1 =? 1) && (pval (KvpPacket_intPair v).2 =? 2)) ;;
  CHECK 269 "CHECK(v.mixedPair.first == 3 && v.mixedPair.second == \qkv\q)" ((pval (KvpPacket_mixedPair v).1 =? 3) && bool_decide ((KvpPacket_mixedPair v).2 = str "kv")).

Definition TestMapsAndSets : T unit :=
  Roundtrip DictPacket "dict_packet" verify_DictPacket ;;
  Roundtrip DictObjectPacket "dict_object_packet" verify_DictObjectPacket ;;
  Roundtrip SetPacket "set_packet" verify_SetPacket ;;
  Roundtrip KvpPacket "kvp_packet" verify_KvpPacket.

Definition verify_Vec3 (v : Vec3) : T unit :=
  CHECK 275 "CHECK(v.x == 1.5f && v.y == 2.5f && v.z == 3.5f)" (float_eq (Vec3_x v) (float_of 3 (-1)) && float_eq (Vec3_y v) (float_of 5 (-1)) && float_eq (Vec3_z v) (float_of 7 (-1))).

Definition verify_PaddedStruct (v : PaddedStruct) : T unit :=
  CHECK 279 "CHECK(v.tag == 7 && v.value == 1000)" ((PaddedStruct_tag v =? 7) && (PaddedStruct_value v =? 1000)).

Definition verify_PackedStruct (v : PackedStruct) : T unit :=
  CHECK 283 "CHECK(v.tag == 7 && v.value == 1000)" ((PackedStruct_tag v =? 7) && (PackedStruct_value v =? 1000)).

Definition verify_UnmanagedHolder (v : UnmanagedHolder) : T unit :=
  CHECK 287 "CHECK(v.position.x == 1.5f && v.position.z == 3.5f)" (float_eq (Vec3_x (UnmanagedHolder_position v)) (float_of 3 (-1)) && float_eq (Vec3_z (UnmanagedHolder_position v)) (float_of 7 (-1))) ;;
  CHECK 288 "CHECK(v.padded.tag == 7 && v.padded.value == 1000)" ((PaddedStruct_tag (UnmanagedHolder_padded v) =? 7) && (PaddedStruct_value (UnmanagedHolder_padded v) =? 1000)).

Definition verify_UnmanagedList (v : UnmanagedList) : T unit :=
  CHECK 292 "CHECK(v.points.size() == 2)" (zlen (elements (UnmanagedList_points v)) =? 2) ;;
  match elements (UnmanagedList_points v) with
  | [p0; p1] =>
  CHECK 294 "CHECK(v.points[0].x == 1.f && v.points[0].z == 3.f)" (float_eq (Vec3_x p0) (float_of 1 0) && float_eq (Vec3_z p0) (float_of 3 0)) ;;
  CHECK 295 "CHECK(v.points[1].x == 4.f && v.points[1].z == 6.f)" (float_eq (Vec3_x p1) (float_of 4 0) && float_eq (Vec3_z p1) (float_of 6 0))
  | _ => mret tt
  end.

Definition verify_ManagedStructHolder (v : ManagedStructHolder) : T unit :=
  let value := ManagedStructHolder_value v in
  CHECK 300 "CHECK(v.value.id == 4 && v.value.label == \qlbl\q)" ((pval (ManagedStruct_id value) =? 4) && bool_decide (ManagedStruct_label value = str "lbl")).

Definition verify_NumericsTypes (v : NumericsTypes) : T unit :=
  CHECK 304 "CHECK(v.v2.x == 1.f && v.v2.y == 2.f)" (float_eq (v2_x (NumericsTypes_v2 v)) (float_of 1 0) && float_eq (v2_y (NumericsTypes_v2 v)) (float_of 2 0)) ;;
  CHECK 305 "CHECK(v.v3.z == 5.f)" (float_eq (v3_z (NumericsTypes_v3 v)) (float_of 5 0)) ;;
  CHECK 306 "CHECK(v.v4.w == 9.f)" (float_eq (v4_w (NumericsTypes_v4 v)) (float_of 9 0)) ;;
  CHECK 307 "CHECK(NearlyEqual(v.quat.w, 0.4f))" (NearlyEqual (q_w (NumericsTypes_quat v)) (float_lit 4 10)).

Definition TestUnmanaged : T unit :=
  Roundtrip Vec3 "vec3_top_level" verify_Vec3 ;;
  Roundtrip PaddedStruct "padded_struct_top_level" verify_PaddedStruct ;;
  Roundtrip PackedStruct "packed_struct_top_level" verify_PackedStruct ;;
  Roundtrip UnmanagedHolder "unmanaged_holder" verify_UnmanagedHolder ;;
  Roundtrip UnmanagedList "unmanaged_list" verify_UnmanagedList ;;
  Roundtrip ManagedStructHolder "managed_struct_holder" verify_ManagedStructHolder ;;
  Roundtrip NumericsTypes "numerics_types" verify_NumericsTypes.

Definition verify_NullablePacket (v : NullablePacket) : T unit :=
  CHECK 313 "CHECK(v.maybeInt.has_value() && *v.maybeInt == 99)" (holds (λ x, pval x =? 99) (NullablePacket_maybeInt v)) ;;
  CHECK 314 "CHECK(!v.nullInt.has_value())" (negb (bool_decide (is_Some (NullablePacket_nullInt v)))) ;;
  CHECK 315 "CHECK(v.maybeFloat.has_value() && *v.maybeFloat == 1.25f)" (holds (λ x, float_eq (pval x) (float_of 5 (-2))) (NullablePacket_maybeFloat v)) ;;
  CHECK 316 "CHECK(v.maybeVec.has_value() && v.maybeVec->x == 1.f && v.maybeVec->z == 3.f)" (holds (λ p, float_eq (Vec3_x p) (float_of 1 0) && float_eq (Vec3_z p) (float_of 3 0)) (NullablePacket_maybeVec v)) ;;
  CHECK 317 "CHECK(!v.nullVec.has_value())" (negb (bool_decide (is_Some (NullablePacket_nullVec v)))).

Definition verify_some_int (v : option int32) : T unit :=
  CHECK 321 "CHECK(v.has_value() && *v == 42)" (holds (λ x, pval x =? 42) v).

Definition verify_no_int (v : option int32) : T unit :=
  CHECK 325 "CHECK(!v.has_value())" (negb (bool_decide (is_Some v))).

Definition verify_NullableManagedHolder (v : NullableManagedHolder) : T unit :=
  CHECK 328 "CHECK(v.value.has_value())" (bool_decide (is_Some (NullableManagedHolder_value v))) ;;
  match NullableManagedHolder_value v with
  | Some x =>
  CHECK 329 "CHECK(v.value->a == 3 && v.value->b == \qn\q)" ((pval (ManagedNullableTarget_a x) =? 3) && bool_decide (ManagedNullableTarget_b x = str "n"))
  | None => mret tt
  end.

Definition verify_null_holder (v : NullableManagedHolder) : T unit :=
  CHECK 333 "CHECK(!v.value.has_value())" (negb (bool_decide (is_Some (NullableManagedHolder_value v)))).

Definition TestNullable : T unit :=
  Roundtrip NullablePacket "nullable_packet" verify_NullablePacket ;;
  Roundtrip (option int32) "nullable_int_top_level" verify_some_int ;;
  RoundtripValue (option int32) "nullable_int_top_level_null" (Some (i32 7)) verify_no_int ;;
  Roundtrip NullableManagedHolder "nullable_managed_holder" verify_NullableManagedHolder ;;
  Roundtrip NullableManagedHolder "nullable_managed_holder_null" verify_null_holder.

Definition verify_TuplePacket (v : TuplePacket) : T unit :=
  CHECK 339 "CHECK(v.refTuple.has_value())" (bool_decide (is_Some (TuplePacket_refTuple v))) ;;
  (match TuplePacket_refTuple v with
   | Some t =>
  CHECK 341 "CHECK(std::get<0>(*v.refTuple) == 7)" (pval (get0 (components t)) =? 7) ;;
  CHECK 342 "CHECK(std::get<1>(*v.refTuple) == \qref\q)" (bool_decide (get1 (components t) = str "ref"))
   | None => mret tt
   end) ;;
  CHECK 344 "CHECK(v.unmanagedValueTuple.item1 == 11 && v.unmanagedValueTuple.item2 == 22)" ((ValueTuple2i_item1 (TuplePacket_unmanagedValueTuple v) =? 11) && (ValueTuple2i_item2 (TuplePacket_unmanagedValueTuple v) =? 22)) ;;
  CHECK 345 "CHECK(v.mixedValueTuple.first == 33 && v.mixedValueTuple.second == \qtuple\q)" ((pval (TuplePacket_mixedValueTuple v).1 =? 33) && bool_decide ((TuplePacket_mixedValueTuple v).2 = str "tuple")) ;;
  CHECK 346 "CHECK(v.tripleUnmanaged.item1 == 44)" (ValueTupleIFD_item1 (TuplePacket_tripleUnmanaged v) =? 44) ;;
  CHECK 347 "CHECK(v.tripleUnmanaged.item2 == 1.5f)" (float_eq (ValueTupleIFD_item2 (TuplePacket_tripleUnmanaged v)) (float_of 3 (-1))) ;;
  CHECK 348 "CHECK(v.tripleUnmanaged.item3 == 2.5)" (double_eq (ValueTupleIFD_item3 (TuplePacket_tripleUnmanaged v)) (double_lit 5 2)).

Definition verify_ValueTuple2i (v : ValueTuple2i) : T unit :=
  CHECK 352 "CHECK(v.item1 == 11 && v.item2 == 22)" ((ValueTuple2i_item1 v =? 11) && (ValueTuple2i_item2 v =? 22)).

Definition TestTuples : T unit :=
  Roundtrip TuplePacket "value_tuple" verify_TuplePacket ;;
  Roundtrip ValueTuple2i "value_tuple_top_level" verify_ValueTuple2i.

Definition guid_text : list Z := c_literal "01020304-0506-0708-090a-0b0c0d0e0f10".

Definition verify_DotNetTypes (v : DotNetTypes) : T unit :=
  CHECK 358 "CHECK(v.guidValue.ToString() == \q01020304-0506-0708-090a-0b0c0d0e0f10\q)" (bool_decide (Guid_ToString (DotNetTypes_guidValue v) = guid_text)) ;;
  CHECK 359 "CHECK(v.dateTimeValue.GetKind() == DateTimeKind::Utc)" (GetKind (DotNetTypes_dateTimeValue v) =? kind_value Utc) ;;
  CHECK 360 "CHECK(v.timeSpanValue.ticks == 900000000LL)" (ticks (DotNetTypes_timeSpanValue v) =? 900000000) ;;
  CHECK 361 "CHECK(v.dateTimeOffsetValue.offsetMinutes == 540)" (offsetMinutes (DotNetTypes_dateTimeOffsetValue v) =? 540) ;;
  CHECK 362 "CHECK(v.charValue == u'A')" (pval (DotNetTypes_charValue v) =? 65) ;;
  f ← defined (ToFloat (DotNetTypes_halfValue v));
  CHECK 363 "CHECK(NearlyEqual(v.halfValue.ToFloat(), 1.5f))" (NearlyEqual f (float_of 3 (-1))) ;;
  CHECK 364 "CHECK(v.int128Value.high == static_cast<int64_t>(0x8000000000000000ULL))" (DotNet.high (DotNetTypes_int128Value v) =? - 2 ^ 63) ;;
  CHECK 365 "CHECK(v.int128Value.low == 7)" (DotNet.low (DotNetTypes_int128Value v) =? 7) ;;
  CHECK 366 "CHECK(v.uint128Value.low == 123456789 && v.uint128Value.high == 0)" ((ulow (DotNetTypes_uint128Value v) =? 123456789) && (uhigh (DotNetTypes_uint128Value v) =? 0)).

Definition verify_Guid (v : Guid) : T unit :=
  CHECK 370 "CHECK(v.ToString() == \q01020304-0506-0708-090a-0b0c0d0e0f10\q)" (bool_decide (Guid_ToString v = guid_text)) ;;
  CHECK 372 "CHECK(parsed.has_value() && *parsed == v)" (holds (λ parsed, Guid_eq parsed v) (Guid_Parse guid_text)).

(** [clock] is the period of [std::chrono::system_clock]. *)
Definition verify_DateTime (clock : Z * Z) (v : DateTime) : T unit :=
  CHECK 376 "CHECK(v.GetKind() == DateTimeKind::Utc)" (GetKind v =? kind_value Utc) ;;
  tp ← defined (ToTimePoint clock v);
  secs ← defined (duration_cast clock (1, 1) tp);
  CHECK 381 "CHECK(secs == 1788093296LL)" (secs =? 1788093296).

Definition TestDotNetTypes (clock : Z * Z) : T unit :=
  Roundtrip DotNetTypes "dotnet_types" verify_DotNetTypes ;;
  Roundtrip Guid "guid_top_level" verify_Guid ;;
  Roundtrip DateTime "datetime_top_level" (verify_DateTime clock).

Definition as_circle (s : Shape) : option CircleShape := match s with Circle c => Some c | _ => None end.
Definition as_rect (s : Shape) : option RectShape := match s with Rect r => Some r | _ => None end.
Definition as_wide (s : Shape) : option WideShape := match s with Wide w => Some w | _ => None end.

(** [v.shape && std::holds_alternative<A>( *v.shape)], and the alternative. *)
Definition alternative_of {A} (f : Shape → option A) (v : UnionHolder) : option A := UnionHolder_shape v ≫= f.

Definition verify_union_circle (v : UnionHolder) : T unit :=
  CHECK 387 "CHECK(v.shape.has_value())" (bool_decide (is_Some (UnionHolder_shape v))) ;;
  CHECK 388 "CHECK(v.shape && std::holds_alternative<interop::CircleShape>(*v.shape))" (bool_decide (is_Some (alternative_of as_circle v))) ;;
  match alternative_of as_circle v with
  | Some c =>
  CHECK 390 "CHECK(std::get<interop::CircleShape>(*v.shape).radius == 2.5f)" (float_eq (pval (CircleShape_radius c)) (float_of 5 (-1)))
  | None => mret tt
  end.

Definition verify_union_rect (v : UnionHolder) : T unit :=
  CHECK 394 "CHECK(v.shape && std::holds_alternative<interop::RectShape>(*v.shape))" (bool_decide (is_Some (alternative_of as_rect v))) ;;
  match alternative_of as_rect v with
  | Some r =>
  CHECK 397 "CHECK(r.width == 3.f && r.height == 4.f)" (float_eq (pval (RectShape_width r)) (float_of 3 0) && float_eq (pval (RectShape_height r)) (float_of 4 0))
  | None => mret tt
  end.

Definition verify_union_wide (v : UnionHolder) : T unit :=
  CHECK 403 "CHECK(v.shape && std::holds_alternative<interop::WideShape>(*v.shape))" (bool_decide (is_Some (alternative_of as_wide v))) ;;
  match alternative_of as_wide v with
  | Some w =>
  CHECK 405 "CHECK(std::get<interop::WideShape>(*v.shape).sides == 12)" (pval (WideShape_sides w) =? 12)
  | None => mret tt
  end.

Definition verify_union_null (v : UnionHolder) : T unit :=
  CHECK 409 "CHECK(!v.shape.has_value())" (negb (bool_decide (is_Some (UnionHolder_shape v)))).

Definition verify_union_top_level (v : Shape) : T unit :=
  CHECK 413 "CHECK(std::holds_alternative<interop::CircleShape>(v))" (bool_decide (is_Some (as_circle v))).

Definition TestUnions : T unit :=
  Roundtrip UnionHolder "union_circle" verify_union_circle ;;
  Roundtrip UnionHolder "union_rect" verify_union_rect ;;
  Roundtrip UnionHolder "union_wide" verify_union_wide ;;
  Roundtrip UnionHolder "union_null" verify_union_null ;;
  Roundtrip Shape "union_top_level" verify_union_top_level.

Definition verify_VersionTolerantPacket (v : VersionTolerantPacket) : T unit :=
  CHECK 419 "CHECK(v.id == 77)" (pval (VersionTolerantPacket_id v) =? 77) ;;
  CHECK 420 "CHECK(v.name == \qvt\q)" (bool_decide (VersionTolerantPacket_name v = str "vt")) ;;
  CHECK 421 "CHECK(v.score == 0.5f)" (float_eq (pval (VersionTolerantPacket_score v)) (float_of 1 (-1))).

(** [v.id == 1 && v.big.size() == n && v.tail == 9] *)
Definition long_ok (n : Z) (v : VersionTolerantLong) : Datatypes.bool :=
  (pval (VersionTolerantLong_id v) =? 1) && (zlen (bytes_of (VersionTolerantLong_big v)) =? n) && (pval (VersionTolerantLong_tail v) =? 9).

Definition verify_vt_len_120 (v : VersionTolerantLong) : T unit :=
  CHECK 426 "CHECK(v.id == 1 && v.big.size() == 112 && v.tail == 9)" (long_ok 112 v).

Definition verify_vt_len_130 (v : VersionTolerantLong) : T unit :=
  CHECK 429 "CHECK(v.id == 1 && v.big.size() == 122 && v.tail == 9)" (long_ok 122 v).

Definition verify_version_tolerant_long (v : VersionTolerantLong) : T unit :=
  CHECK 432 "CHECK(v.id == 1 && v.big.size() == 300 && v.tail == 9)" (long_ok 300 v).

Definition verify_vt_len_70000 (v : VersionTolerantLong) : T unit :=
  CHECK 435 "CHECK(v.id == 1 && v.big.size() == 69992 && v.tail == 9)" (long_ok 69992 v).

Definition TestVersionTolerant : T unit :=
  Roundtrip VersionTolerantPacket "version_tolerant" verify_VersionTolerantPacket ;;
  Roundtrip VersionTolerantLong "vt_len_120" verify_vt_len_120 ;;
  Roundtrip VersionTolerantLong "vt_len_130" verify_vt_len_130 ;;
  Roundtrip VersionTolerantLong "version_tolerant_long" verify_version_tolerant_long ;;
  Roundtrip VersionTolerantLong "vt_len_70000" verify_vt_len_70000.

Definition verify_SpecialFloats (v : SpecialFloats) : T unit :=
  CHECK 441 "CHECK(std::isnan(v.nanF))" (is_nan (pval (SpecialFloats_nanF v))) ;;
  CHECK 442 "CHECK(std::isinf(v.posInfF) && v.posInfF > 0)" (is_inf (pval (SpecialFloats_posInfF v)) && float_positive (pval (SpecialFloats_posInfF v))) ;;
  CHECK 443 "CHECK(std::isinf(v.negInfF) && v.negInfF < 0)" (is_inf (pval (SpecialFloats_negInfF v)) && float_negative (pval (SpecialFloats_negInfF v))) ;;
  CHECK 444 "CHECK(std::isnan(v.nanD))" (double_is_nan (pval (SpecialFloats_nanD v))) ;;
  CHECK 445 "CHECK(std::isinf(v.posInfD) && v.posInfD > 0)" (double_is_inf (pval (SpecialFloats_posInfD v)) && double_positive (pval (SpecialFloats_posInfD v))) ;;
  CHECK 446 "CHECK(v.negZeroD == 0.0 && std::signbit(v.negZeroD))" (double_eq (pval (SpecialFloats_negZeroD v)) 0 && double_signbit (pval (SpecialFloats_negZeroD v))).

Definition TestSpecialFloats : T unit := Roundtrip SpecialFloats "special_floats" verify_SpecialFloats.

(** ** The program *)

(** [argv[i]], when it is there and not empty. *)
Definition argument (args : list (list Z)) (i : nat) : option (list Z) :=
  match args !! i with Some (c :: s) => Some (c :: s) | _ => None end.

Definition set_directories (args : list (list Z)) : T unit :=
  update_suite (λ s, Suite (default MEMORYPACK_FIXTURE_DIR (argument args 1)) (g_outputDir s) (g_missing s) (g_written s)) ;;
  match argument args 2 with
  | Some dir => update_suite (λ s, Suite (g_fixtureDir s) dir (g_missing s) (g_written s))
  | None => mret tt
  end.

Definition print_directories : T unit :=
  s ← get_suite;
  printf "fixtures: %s\n" [Text (g_fixtureDir s)] ;;
  (if bool_decide (g_outputDir s = []) then mret tt else printf "writing C++ output to: %s\n" [Text (g_outputDir s)]) ;;
  printf "\n" [].

(** [args] is [argv], the name of the program first. *)
Definition main (clock : Z * Z) (args : list (list Z)) : T Z :=
  set_directories args ;;
  print_directories ;;
  TestObjects ;;
  TestEnums ;;
  TestStrings ;;
  TestCollections ;;
  TestMapsAndSets ;;
  TestUnmanaged ;;
  TestNullable ;;
  TestTuples ;;
  TestDotNetTypes clock ;;
  TestUnions ;;
  TestVersionTolerant ;;
  TestSpecialFloats ;;
  s ← get_suite;
  if g_missing s >? 0 then
    printf "\n%d fixture file(s) were missing. Regenerate them with:\n  dotnet run --project tools/FormatProbe -- generate tests/fixtures\n" [Int (g_missing s)] ;;
    mret 1
  else Summarize "interop_tests".

(** The globals before [main]. *)
Definition before_main : mptest * suite := (no_tests, Suite [] [] 0 []).
End Suite.
