(* ===== verification/Fixtures.v ===== *)
(** The fixtures of the interop suite: the bytes the C# library produced, as
    [tests/fixtures/manifest.json] lists them beside the [.bin] files. *)
From stdpp Require Import strings.
From S2P Require Import Prelude Console.

(** The byte of two hexadecimal digits, upper case. *)
Definition hex_value (c : Z) : Z := if c <? 58 then c - 48 else c - 55.

Fixpoint hex_bytes (s : list Z) : list Z :=
  match s with
  | a :: b :: s' => 16 * hex_value a + hex_value b :: hex_bytes s'
  | _ => []
  end.

Definition hex (s : String.string) : list Z := hex_bytes (c_literal s).

Example hex_digits : hex "00FF2A" = [0; 255; 42].
Proof. by vm_compute. Qed.

Definition simple_packet : list Z := hex "022A000000FCFFFFFF03000000414243".
Definition all_primitives : list Z := hex "0B01C8FB2EFB31D4C01DFEFF005ED0B235FB048EE0FEFFFFD20A1FEB8CA954ABD00F49406957148B0ABF0540".
Definition empty_packet : list Z := hex "00".
Definition null_object : list Z := hex "FF".
Definition string_packet : list Z := hex "05FAFFFFFF0500000048656C6C6FF9FFFFFF02000000ED959CEAB880FBFFFFFF02000000F09F988000000000FFFFFFFF".
Definition string_top_level : list Z := hex "FAFFFFFF0500000048656C6C6F".
Definition string_top_level_empty : list Z := hex "00000000".
Definition string_top_level_null : list Z := hex "FFFFFFFF".
Definition array_packet : list Z := hex "08030000000100FEFF0300030000000A000000140000001E00000002000000FFFFFFFFFFFFFFFF0200000000000000030000000080FF0300000080007F020000000000C03F000020C002000000000000000000F43F00000000000004C003000000FEFFFFFF0100000061FDFFFFFF020000006262FCFFFFFF03000000636363".
Definition int_list_top_level : list Z := hex "030000000A000000140000001E000000".
Definition int_list_empty : list Z := hex "00000000".
Definition int_list_null : list Z := hex "FFFFFFFF".
Definition bool_collection : list Z := hex "0203000000010001020000000001".
Definition nested_list : list Z := hex "0103000000020000000100000002000000010000000300000000000000".
Definition inventory : list Z := hex "0207000000030000000301000000FAFFFFFF0500000053776F72640A0000000302000000F9FFFFFF06000000536869656C64140000000303000000F9FFFFFF06000000506F74696F6E1E000000".
Definition nested_object : list Z := hex "02050000000309000000FCFFFFFF0300000047656D03000000".
Definition null_members : list Z := hex "05FFFFFFFF00000000FFFFFFFF00000000FF".
Definition enum_packet : list Z := hex "030200FE40420F00".
Definition vec3_top_level : list Z := hex "0000C03F0000204000006040".
Definition padded_struct_top_level : list Z := hex "07000000E8030000".
Definition packed_struct_top_level : list Z := hex "07E8030000".
Definition unmanaged_holder : list Z := hex "020000C03F000020400000604007000000E8030000".
Definition unmanaged_list : list Z := hex "01020000000000803F0000004000004040000080400000A0400000C040".
Definition managed_struct_holder : list Z := hex "010204000000FCFFFFFF030000006C626C".
Definition numerics_types : list Z := hex "040000803F0000004000004040000080400000A0400000C0400000E0400000004100001041CDCCCC3DCDCC4C3E9A99993ECDCCCC3E".
Definition nullable_packet : list Z := hex "0501000000630000000000000000000000010000000000A03F010000000000803F000000400000404000000000000000000000000000000000".
Definition nullable_int_top_level : list Z := hex "010000002A000000".
Definition nullable_int_top_level_null : list Z := hex "0000000000000000".
Definition dict_packet : list Z := hex "0303000000010000000A0000000200000014000000030000001E00000002000000FEFFFFFF010000006101000000FEFFFFFF0100000062020000000200000001000000FCFFFFFF030000006F6E6502000000FCFFFFFF0300000074776F".
Definition dict_object_packet : list Z := hex "0101000000010000000301000000FEFFFFFF010000004101000000".
Definition set_packet : list Z := hex "02030000000A000000140000001E00000002000000FAFFFFFF05000000616C706861FBFFFFFF0400000062657461".
Definition kvp_packet : list Z := hex "02010000000200000003000000FDFFFFFF020000006B76".
Definition value_tuple : list Z := hex "040207000000FCFFFFFF030000007265660B0000001600000021000000FAFFFFFF050000007475706C6500000000000004402C0000000000C03F".
Definition value_tuple_top_level : list Z := hex "0B00000016000000".
Definition dotnet_types : list Z := hex "090403020106050807090A0B0C0D0E0F1000D80A199306DF4800E9A435000000001C02000000000000003023A94706DF084100000003000000000040E2010000000000003E0700000000000000000000000000008015CD5B07000000000000000000000000".
Definition guid_top_level : list Z := hex "0403020106050807090A0B0C0D0E0F10".
Definition datetime_top_level : list Z := hex "00D80A199306DF48".
Definition union_circle : list Z := hex "01000100002040".
Definition union_rect : list Z := hex "0101020000404000008040".
Definition union_wide : list Z := hex "01FA2C01010C000000".
Definition union_null : list Z := hex "01FF".
Definition union_top_level : list Z := hex "000100002040".
Definition ordered_packet : list Z := hex "020100000002000000".
Definition version_tolerant : list Z := hex "03040A044D000000FDFFFFFF0200000076740000003F".
Definition special_floats : list Z := hex "060000C0FF0000807F000080FF000000000000F8FF000000000000F07F0000000000000080".
Definition version_tolerant_long : list Z := hex "03048434010401000000D3FEFFFF2C010000" ++ replicate (Z.to_nat 300) 0x78 ++ hex "09000000".
Definition list_of_nullable_objects : list Z := hex "01020000000301000000FEFFFFFF010000004101000000FF".
Definition many_members : list Z := hex "0A00000000010000000200000003000000040000000500000006000000070000000800000009000000".
Definition nullable_managed_holder : list Z := hex "01010203000000FEFFFFFF010000006E".
Definition nullable_managed_holder_null : list Z := hex "01FF".
Definition vt_len_120 : list Z := hex "03047804010000008FFFFFFF70000000" ++ replicate (Z.to_nat 112) 0x79 ++ hex "09000000".
Definition vt_len_130 : list Z := hex "0304848200040100000085FFFFFF7A000000" ++ replicate (Z.to_nat 122) 0x79 ++ hex "09000000".
Definition vt_len_70000 : list Z := hex "03048270110100040100000097EEFEFF68110100" ++ replicate (Z.to_nat 69992) 0x79 ++ hex "09000000".

(** The fixtures in the order the suite reads them, by test function. *)
Definition Objects_fixtures : list (String.string * list Z) := [("simple_packet"%string, simple_packet); ("all_primitives"%string, all_primitives); ("empty_packet"%string, empty_packet); ("many_members"%string, many_members); ("ordered_packet"%string, ordered_packet); ("null_object"%string, null_object); ("nested_object"%string, nested_object); ("null_members"%string, null_members)].
Definition Enums_fixtures : list (String.string * list Z) := [("enum_packet"%string, enum_packet)].
Definition Strings_fixtures : list (String.string * list Z) := [("string_packet"%string, string_packet); ("string_top_level"%string, string_top_level); ("string_top_level_empty"%string, string_top_level_empty); ("string_top_level_null"%string, string_top_level_null)].
Definition Collections_fixtures : list (String.string * list Z) := [("array_packet"%string, array_packet); ("int_list_top_level"%string, int_list_top_level); ("int_list_empty"%string, int_list_empty); ("int_list_null"%string, int_list_null); ("bool_collection"%string, bool_collection); ("nested_list"%string, nested_list); ("inventory"%string, inventory); ("list_of_nullable_objects"%string, list_of_nullable_objects)].
Definition MapsAndSets_fixtures : list (String.string * list Z) := [("dict_packet"%string, dict_packet); ("dict_object_packet"%string, dict_object_packet); ("set_packet"%string, set_packet); ("kvp_packet"%string, kvp_packet)].
Definition Unmanaged_fixtures : list (String.string * list Z) := [("vec3_top_level"%string, vec3_top_level); ("padded_struct_top_level"%string, padded_struct_top_level); ("packed_struct_top_level"%string, packed_struct_top_level); ("unmanaged_holder"%string, unmanaged_holder); ("unmanaged_list"%string, unmanaged_list); ("managed_struct_holder"%string, managed_struct_holder); ("numerics_types"%string, numerics_types)].
Definition Nullable_fixtures : list (String.string * list Z) := [("nullable_packet"%string, nullable_packet); ("nullable_int_top_level"%string, nullable_int_top_level); ("nullable_int_top_level_null"%string, nullable_int_top_level_null); ("nullable_managed_holder"%string, nullable_managed_holder); ("nullable_managed_holder_null"%string, nullable_managed_holder_null)].
Definition Tuples_fixtures : list (String.string * list Z) := [("value_tuple"%string, value_tuple); ("value_tuple_top_level"%string, value_tuple_top_level)].
Definition DotNetTypes_fixtures : list (String.string * list Z) := [("dotnet_types"%string, dotnet_types); ("guid_top_level"%string, guid_top_level); ("datetime_top_level"%string, datetime_top_level)].
Definition Unions_fixtures : list (String.string * list Z) := [("union_circle"%string, union_circle); ("union_rect"%string, union_rect); ("union_wide"%string, union_wide); ("union_null"%string, union_null); ("union_top_level"%string, union_top_level)].
Definition VersionTolerant_fixtures : list (String.string * list Z) := [("version_tolerant"%string, version_tolerant); ("vt_len_120"%string, vt_len_120); ("vt_len_130"%string, vt_len_130); ("version_tolerant_long"%string, version_tolerant_long); ("vt_len_70000"%string, vt_len_70000)].
Definition SpecialFloats_fixtures : list (String.string * list Z) := [("special_floats"%string, special_floats)].

Definition fixtures : list (String.string * list Z) :=
  Objects_fixtures ++ Enums_fixtures ++ Strings_fixtures ++ Collections_fixtures ++ MapsAndSets_fixtures ++ Unmanaged_fixtures ++ Nullable_fixtures ++ Tuples_fixtures ++ DotNetTypes_fixtures ++ Unions_fixtures ++ VersionTolerant_fixtures ++ SpecialFloats_fixtures.
