(* ===== verification/InteropTheorems.v ===== *)
(** The library agrees with C#: run on the bytes the C# library made ([Fixtures]), the
    interop suite passes, so every fixture is decoded to the value it was made from and
    that value is encoded to the very same bytes. *)
From stdpp Require Import strings.
From S2P Require Import Prelude Endian Writer Reader Headers Utf Strings Formatter Collections Assoc Nullable Objects Union VersionTolerant Unmanaged DotNet Api Text Console Floats Files TestHarness InteropTypes InteropTests Fixtures.

(** ** Runs that pass *)

Section Runs.
Context `{Platform, Build, Filesystem, FixtureDir} (dir out : list Z).

Abbreviation T := (M (program (mptest * suite))).

(** The suite is using the two directories and has missed no fixture. *)
Definition in_suite (p : program (mptest * suite)) : Prop :=
  g_fixtureDir (globals p).2 = dir ∧ g_outputDir (globals p).2 = out ∧ g_missing (globals p).2 = 0.

(** From [p] to [p']: [n] checks, none of which failed, and the files [ws] written. *)
Definition passed (n : Z) (ws : list (list Z * list Z)) (p p' : program (mptest * suite)) : Prop :=
  in_suite p' ∧ g_checks (globals p').1 = g_checks (globals p).1 + n ∧
  g_failures (globals p').1 = g_failures (globals p).1 ∧ g_written (globals p').2 = g_written (globals p).2 ++ ws.

(** [m] passes: from any state with room for [n] more checks. *)
Definition passes (n : Z) (ws : list (list Z * list Z)) (m : T unit) : Prop :=
  0 ≤ n ∧ ∀ p, in_suite p → g_checks (globals p).1 + n < 2 ^ 31 → ∃ p', m p = (Ret tt, p') ∧ passed n ws p p'.

Lemma passes_bind n1 n2 ws1 ws2 (m : T unit) (k : T unit) :
  passes n1 ws1 m → passes n2 ws2 k → passes (n1 + n2) (ws1 ++ ws2) (m ;; k).
Proof.
  intros [N1 Hm] [N2 Hk]. split; [lia|]. intros p Hp Hn. destruct (Hm p Hp ltac:(lia)) as (p1 & E1 & Hp1 & C1 & F1 & W1).
  destruct (Hk p1 Hp1 ltac:(lia)) as (p2 & E2 & Hp2 & C2 & F2 & W2). exists p2. unfold mbind, M_bind. rewrite E1, E2.
  split; [done|]. split_and!; [done|lia|congruence|by rewrite W2, W1, app_assoc].
Qed.

Lemma passes_ret : passes 0 [] (mret tt).
Proof.
  split; [done|]. intros p Hp _. exists p. split; [done|]. split_and!; [done|lia|done|by rewrite app_nil_r].
Qed.

(** A step without a check. *)
Lemma passes_skip (m : T unit) : (∀ p, in_suite p → ∃ p', m p = (Ret tt, p') ∧ passed 0 [] p p') → passes 0 [] m.
Proof. intros Hm. split; [done|]. intros p Hp _. by apply Hm. Qed.

Lemma count_check_passes : passes 1 [] count_check.
Proof.
  split; [done|]. intros p Hp Hn. eexists. unfold count_check, increment, mbind, M_bind, gets.
  destruct (Z.ltb_spec (g_checks (globals p).1) (2 ^ 31 - 1)); [|lia]. split; [reflexivity|].
  split_and!; try done. by rewrite app_nil_r.
Qed.

Lemma CHECK_passes line text cond : cond = true → passes 1 [] (CHECK line text cond).
Proof. intros ->. apply (passes_bind 1 0 [] []); [apply count_check_passes|apply passes_ret]. Qed.

Lemma BytesEqual_refl b : BytesEqual b b = true.
Proof. unfold BytesEqual. rewrite Z.eqb_refl, (bool_decide_eq_true_2 (b = b)) by done. apply orb_true_r. Qed.

Lemma CHECK_BYTES_EQ_passes line bytes what : passes 1 [] (CHECK_BYTES_EQ line bytes bytes what).
Proof.
  unfold CHECK_BYTES_EQ. rewrite BytesEqual_refl. apply (passes_bind 1 0 [] []); [apply count_check_passes|apply passes_ret].
Qed.

Lemma printf_skips fmt args t : format None (c_literal fmt) args = Some t → passes 0 [] (printf fmt args).
Proof.
  intros E. apply passes_skip. intros p Hp. eexists. unfold printf. rewrite E. split; [reflexivity|].
  split_and!; try done; [cbn; lia|by rewrite app_nil_r].
Qed.

(** A pure step. *)
Lemma passes_value {A} n ws (m : T A) (k : A → T unit) x : (∀ p, m p = (Ret x, p)) → passes n ws (k x) → passes n ws (m ≫= k).
Proof. intros Hm [N Hk]. split; [done|]. intros p Hp Hn. unfold mbind, M_bind. rewrite Hm. by apply Hk. Qed.

Lemma passes_suite {A} n ws (f : suite → A) (k : A → T unit) :
  (∀ s, g_fixtureDir s = dir → g_outputDir s = out → g_missing s = 0 → passes n ws (k (f s))) →
  0 ≤ n → passes n ws (gets (λ p, f (globals p).2) ≫= k).
Proof.
  intros Hk N. split; [done|]. intros p (Hd & Ho & Hm) Hn. unfold mbind, M_bind, gets.
  by apply Hk; [| | |split_and!|].
Qed.

Lemma BeginCase_passes name : passes 0 [] (BeginCase name).
Proof.
  apply passes_skip. intros p Hp. eexists. unfold BeginCase, printf. unfold mbind, M_bind.
  replace (format None (c_literal "[%s]\n") [Text name]) with (Some (91 :: justify no_spec (until_null name) ++ [93; 10])) by done.
  split; [reflexivity|]. split_and!; try done; [cbn; lia|by rewrite app_nil_r].
Qed.

Lemma LoadFixture_reads n ws name bytes (k : list Z → T unit) : file (path_join dir (file_name name)) = Some bytes →
  passes n ws (k bytes) → passes n ws (LoadFixture name ≫= k).
Proof.
  intros Hf Hk. destruct (Hk) as [N _]. unfold LoadFixture, get_suite. split; [done|]. intros p Hp Hn. destruct (Hp) as (Hd & _).
  unfold mbind, M_bind, gets. rewrite Hd, Hf. by apply Hk.
Qed.

Lemma not_skipped n ws bytes (k : bool → T unit) : passes n ws (k false) → passes n ws (skipped bytes ≫= k).
Proof.
  intros Hk. destruct (Hk) as [N _]. unfold skipped, get_suite. split; [done|]. intros p Hp Hn. destruct (Hp) as (_ & _ & Hm).
  unfold mbind, M_bind, gets. rewrite Hm. cbn [mret M_ret]. rewrite andb_false_r. by apply Hk.
Qed.

(** What is written for a fixture: nothing without an output directory. *)
Definition output (name bytes : list Z) : list (list Z * list Z) :=
  if bool_decide (out = []) then [] else [(path_join out (file_name name), bytes)].

Lemma SaveOutput_passes name bytes : passes 0 (output name bytes) (SaveOutput name bytes).
Proof.
  unfold SaveOutput, get_suite, output. split; [done|]. intros p (Hd & Ho & Hm) _. unfold mbind, M_bind, gets.
  rewrite Ho. destruct (bool_decide (out = [])); eexists; (split; [reflexivity|]); split_and!; try done; try (cbn; lia).
  - by rewrite app_nil_r.
  - cbn. by rewrite Ho.
Qed.

(** A fixture that decodes to [v], which encodes to it. *)
Lemma round_trip_passes line name bytes n V `{!MemoryPackFormatter V} (v : V) (verify : V → T unit) :
  passes n [] (verify v) → SerializeNew v = Ret bytes →
  passes (n + 1) (output name bytes)
    (verify v ;; (actual ← serialize v;
     CHECK_BYTES_EQ line actual bytes "re-serialized bytes differ from C# MemoryPack" ;; SaveOutput name actual)).
Proof.
  intros Hv Hs. apply (passes_bind n 1 []); [done|]. apply (passes_value _ _ _ _ bytes); [intros p; unfold serialize, lift_outcome; by rewrite Hs|].
  apply (passes_bind 1 0 []); [apply CHECK_BYTES_EQ_passes|apply SaveOutput_passes].
Qed.

Lemma Roundtrip_passes V `{!MemoryPackFormatter V} name bytes n (v : V) r (verify : V → T unit) :
  file (path_join dir (file_name (c_literal name))) = Some bytes →
  ReadInto value_init (NewReader bytes DefaultOptions) = (Ret v, r) → Failed r = false → IsEnd r = true →
  SerializeNew v = Ret bytes → passes n [] (verify v) →
  passes (n + 3) (output (c_literal name) bytes) (Roundtrip V name verify).
Proof.
  intros Hf Hr Hok Hend Hs Hv. unfold Roundtrip. replace (n + 3) with (0 + (1 + (1 + (n + 1)))) by lia.
  apply (passes_bind _ _ [] _); [apply BeginCase_passes|]. apply (LoadFixture_reads _ _ _ bytes); [done|]. apply not_skipped.
  apply (passes_value _ _ _ _ (v, r)); [intros p; unfold on_local; by rewrite Hr|].
  apply (passes_bind _ _ [] _); [apply CHECK_passes; by rewrite Hok|].
  apply (passes_bind _ _ [] _); [by apply CHECK_passes|]. by apply round_trip_passes.
Qed.

Lemma RoundtripValue_passes V `{!MemoryPackFormatter V} name bytes n (v seed : V) r (verify : V → T unit) :
  file (path_join dir (file_name (c_literal name))) = Some bytes →
  ReadInto seed (NewReader bytes DefaultOptions) = (Ret v, r) → Failed r = false →
  SerializeNew v = Ret bytes → passes n [] (verify v) →
  passes (n + 2) (output (c_literal name) bytes) (RoundtripValue V name seed verify).
Proof.
  intros Hf Hr Hok Hs Hv. unfold RoundtripValue. replace (n + 2) with (0 + (1 + (n + 1))) by lia.
  apply (passes_bind _ _ [] _); [apply BeginCase_passes|]. apply (LoadFixture_reads _ _ _ bytes); [done|]. apply not_skipped.
  apply (passes_value _ _ _ _ (v, r)); [intros p; unfold on_local; by rewrite Hr|].
  apply (passes_bind _ _ [] _); [apply CHECK_passes; by rewrite Hok|]. by apply round_trip_passes.
Qed.
End Runs.

Create HintDb interop.
Create HintDb fixtures.
#[local] Hint Unfold Objects_fixtures Enums_fixtures Strings_fixtures Collections_fixtures MapsAndSets_fixtures Unmanaged_fixtures
  Nullable_fixtures Tuples_fixtures DotNetTypes_fixtures Unions_fixtures VersionTolerant_fixtures SpecialFloats_fixtures : fixtures.
#[local] Hint Unfold verify_SimplePacket verify_AllPrimitives verify_ManyMembers verify_OrderedPacket verify_NestedObject verify_NullMembers verify_EnumPacket verify_StringPacket verify_hello verify_empty_string verify_null_string verify_ArrayPacket verify_int_list verify_empty_list verify_null_list verify_BoolCollection verify_NestedList verify_Inventory verify_ListOfNullableObjects verify_DictPacket verify_DictObjectPacket verify_SetPacket verify_KvpPacket verify_Vec3 verify_PaddedStruct verify_PackedStruct verify_UnmanagedHolder verify_UnmanagedList verify_ManagedStructHolder verify_NumericsTypes verify_NullablePacket verify_some_int verify_no_int verify_NullableManagedHolder verify_null_holder verify_TuplePacket verify_ValueTuple2i verify_DotNetTypes verify_Guid verify_DateTime verify_union_circle verify_union_rect verify_union_wide verify_union_null verify_union_top_level verify_VersionTolerantPacket verify_vt_len_120 verify_vt_len_130 verify_version_tolerant_long verify_vt_len_70000 verify_SpecialFloats nothing and_then : interop.

(** ** The cases *)

(** The next part of a lambda that checks a value: a check, a choice the value decides, or a
    computation that returns. *)
Ltac verify_step :=
  lazymatch goal with
  | |- passes _ _ _ _ (mret tt) => apply passes_ret
  | |- passes _ _ _ _ (CHECK _ _ _) => apply CHECK_passes; vm_compute; reflexivity
  | |- passes _ _ _ _ (CHECK _ _ _ ;; ?k) => eapply (passes_bind _ _ 1 _ [] []); [apply CHECK_passes; vm_compute; reflexivity|]
  | |- passes _ _ _ _ (match ?x with _ => _ end) => let x' := eval vm_compute in x in change x with x'; cbv iota
  | |- passes _ _ _ _ (match ?x with _ => _ end ;; ?k) =>
      eapply (passes_bind _ _ _ _ [] []); [let x' := eval vm_compute in x in change x with x'; cbv iota|]
  | |- passes _ _ _ _ (_ ≫= _) => eapply passes_value; [intros p; vm_compute; reflexivity|cbv beta]
  end.

Ltac verify_case := autounfold with interop; cbv zeta; repeat verify_step.

(** A fixture is in the list of its test function. *)
Ltac find_here := first [apply list_elem_of_here|apply list_elem_of_further; find_here].
Ltac find_fixture := unfold fixtures; repeat first [apply elem_of_app; left; find_here|apply elem_of_app; right]; try find_here.

Section Cases.
Context `{P : Platform, Build, Filesystem, FixtureDir} (dir out : list Z).
Context (little : native_little = true).
Context (Hfiles : ∀ name bytes, (name, bytes) ∈ fixtures → file (path_join dir (file_name (c_literal name))) = Some bytes).

(** What is written for a list of fixtures. *)
Definition written (fs : list (String.string * list Z)) : list (list Z * list Z) := fs ≫= λ f, output out (c_literal f.1) f.2.

Lemma passes_eq n n' ws ws' (m : M (program (mptest * suite)) unit) : passes dir out n ws m → n = n' → ws = ws' → passes dir out n' ws' m.
Proof. by intros ? <- <-. Qed.

Ltac run_case :=
  lazymatch goal with
  | |- passes _ _ _ _ (Roundtrip _ "vt_len_70000" _) => eassumption
  | |- passes _ _ _ _ (Roundtrip _ _ _) =>
      eapply Roundtrip_passes; [apply Hfiles; find_fixture|vm_compute; reflexivity|reflexivity|reflexivity|vm_compute; reflexivity|verify_case]
  | |- passes _ _ _ _ (RoundtripValue _ _ _ _) =>
      eapply RoundtripValue_passes; [apply Hfiles; find_fixture|vm_compute; reflexivity|reflexivity|vm_compute; reflexivity|verify_case]
  | |- passes _ _ _ _ InteropTests.null_object => eassumption
  | |- passes _ _ _ _ string_view_zero_copy => eassumption
  end.

Ltac run_cases := repeat first [eapply passes_bind; [run_case|]|run_case].

Ltac same_files := unfold written; autounfold with fixtures; cbn [mbind list_bind fst snd]; rewrite ?app_nil_r; reflexivity.

Ltac run_group :=
  destruct P as [[] [] [] []]; cbn in little; try discriminate little;
  (eapply passes_eq; [run_cases|vm_compute; reflexivity|same_files]).

Lemma null_object_passes : passes dir out 2 (output out (c_literal "null_object") null_object) InteropTests.null_object.
Proof.
  unfold InteropTests.null_object. apply (passes_bind _ _ 0 2 [] _); [apply BeginCase_passes|].
  eapply LoadFixture_reads; [apply Hfiles; find_fixture|]. rewrite (bool_decide_eq_false_2 (null_object = [])) by done.
  apply (passes_bind _ _ 1 1 [] _); [apply CHECK_passes; vm_compute; reflexivity|].
  destruct P as [[] [] [] []]; (eapply passes_value; [intros p; vm_compute; reflexivity|]);
    (apply (passes_bind _ _ 1 0 [] _); [apply CHECK_BYTES_EQ_passes|apply SaveOutput_passes]).
Qed.

Lemma view_passes : passes dir out 2 [] string_view_zero_copy.
Proof.
  unfold string_view_zero_copy. apply (passes_bind _ _ 0 2 [] []); [apply BeginCase_passes|].
  eapply LoadFixture_reads; [apply Hfiles; find_fixture|]. rewrite (bool_decide_eq_false_2 (string_top_level = [])) by done.
  destruct P as [[] [] [] []]; (eapply passes_value; [intros p; vm_compute; reflexivity|]);
    (apply (passes_bind _ _ 1 1 [] []); [apply CHECK_passes; vm_compute; reflexivity|apply CHECK_passes; vm_compute; reflexivity]).
Qed.

Lemma TestObjects_passes : passes dir out 49 (written Objects_fixtures) TestObjects.
Proof. unfold TestObjects. pose proof null_object_passes as Hn. run_group. Qed.

Lemma TestEnums_passes : passes dir out 6 (written Enums_fixtures) TestEnums.
Proof. unfold TestEnums. run_group. Qed.

Lemma TestStrings_passes : passes dir out 21 (written Strings_fixtures) TestStrings.
Proof. unfold TestStrings. pose proof view_passes. run_group. Qed.

Lemma TestCollections_passes : passes dir out 48 (written Collections_fixtures) TestCollections.
Proof. unfold TestCollections. run_group. Qed.

Lemma TestMapsAndSets_passes : passes dir out 21 (written MapsAndSets_fixtures) TestMapsAndSets.
Proof. unfold TestMapsAndSets. run_group. Qed.

Lemma TestUnmanaged_passes : passes dir out 34 (written Unmanaged_fixtures) TestUnmanaged.
Proof. unfold TestUnmanaged. run_group. Qed.

Lemma TestNullable_passes : passes dir out 24 (written Nullable_fixtures) TestNullable.
Proof. unfold TestNullable. run_group. Qed.

Lemma TestTuples_passes : passes dir out 15 (written Tuples_fixtures) TestTuples.
Proof. unfold TestTuples. run_group. Qed.

Lemma TestUnions_passes : passes dir out 24 (written Unions_fixtures) TestUnions.
Proof. unfold TestUnions. run_group. Qed.

Lemma TestSpecialFloats_passes : passes dir out 9 (written SpecialFloats_fixtures) TestSpecialFloats.
Proof. unfold TestSpecialFloats. run_group. Qed.

(** The clocks of the three standard libraries: nanoseconds, microseconds and ticks of 100
    nanoseconds. *)
Definition system_clock_ok (clock : Z * Z) : Prop := clock = (1, 1000000000) ∨ clock = (1, 1000000) ∨ clock = (1, 10000000).

Lemma TestDotNetTypes_passes clock : system_clock_ok clock →
  passes dir out 22 (written DotNetTypes_fixtures) (TestDotNetTypes clock).
Proof. intros [-> | [-> | ->]]; unfold TestDotNetTypes; run_group. Qed.

(** *** The long version-tolerant object *)

Definition long_specs : list (member_spec interop.VersionTolerantLong) := [
  MemberSpec (Member (V := interop.VersionTolerantLong) (prim Int32) interop.VersionTolerantLong_id
    (λ a v, interop.MkVersionTolerantLong a (interop.VersionTolerantLong_big v) (interop.VersionTolerantLong_tail v)));
  MemberSpec (Member (V := interop.VersionTolerantLong) string interop.VersionTolerantLong_big
    (λ a v, interop.MkVersionTolerantLong (interop.VersionTolerantLong_id v) a (interop.VersionTolerantLong_tail v)));
  MemberSpec (Member (V := interop.VersionTolerantLong) (prim Int32) interop.VersionTolerantLong_tail
    (λ a v, interop.MkVersionTolerantLong (interop.VersionTolerantLong_id v) (interop.VersionTolerantLong_big v) a))].

Definition long_value (s : list Z) : interop.VersionTolerantLong := interop.MkVersionTolerantLong (Prim 1) (Str s) (Prim 9).

Definition long_bytes (s : list Z) : list Z := hex "03048270110100040100000097EEFEFF68110100" ++ s ++ hex "09000000".

(** Everything about a long ASCII string that its contents do not change. *)
Section LongString.
Context (s : list Z) (Hb : bytes_ok s) (Ha : Forall (λ b, b < 0x80) s) (Hl : zlen s = 69992).

Lemma long_enc : enc_string s = hex "97EEFEFF68110100" ++ s.
Proof.
  unfold enc_string. rewrite utf16_length_count, count_ascii, Hl by done.
  change (69992 =? 0) with false. cbv iota. rewrite app_assoc. by replace (le_bytes 4 (Z.lnot 69992) ++ le_bytes 4 69992) with (hex "97EEFEFF68110100") by (by vm_compute).
Qed.

Lemma long_parts : member_parts long_specs (long_value s) = [le_bytes 4 1; hex "97EEFEFF68110100" ++ s; le_bytes 4 9].
Proof.
  unfold member_parts, long_specs. cbn [fmap list_fmap ms_member m_get].
  cbn [enc prim_wire string_wire ms_wire bytes_of pval long_value interop.VersionTolerantLong_id interop.VersionTolerantLong_big interop.VersionTolerantLong_tail].
  by rewrite long_enc.
Qed.

Lemma long_lengths : vt_lengths_bytes (member_parts long_specs (long_value s)) = hex "04827011010004".
Proof.
  rewrite long_parts. unfold vt_lengths_bytes. cbn [mbind list_bind]. rewrite (zlen_app (hex _) s), Hl. by vm_compute.
Qed.

Lemma long_layout : vt_bytes (member_parts long_specs (long_value s)) = long_bytes s.
Proof. unfold vt_bytes. rewrite long_lengths, long_parts. by vm_compute. Qed.

Lemma long_string_ok : string_ok s.
Proof. unfold string_ok. rewrite utf16_length_count, count_ascii, Hl by done. done. Qed.

Lemma long_wf : members_wf long_specs (long_value s).
Proof.
  intros m Hm. unfold long_specs in Hm.
  repeat (apply elem_of_cons in Hm as [->|Hm]; [|]); [done|apply long_string_ok|done|by apply elem_of_nil in Hm].
Qed.

Lemma long_within : members_within DefaultOptions 0 long_specs (long_value s).
Proof.
  intros m Hm. unfold long_specs in Hm. repeat (apply elem_of_cons in Hm as [->|Hm]; [|]); [done| |done|by apply elem_of_nil in Hm].
  change (zlen s ≤ 4294967295). lia.
Qed.

Lemma zlen_long_bytes : zlen (long_bytes s) = 70016.
Proof. unfold long_bytes. rewrite !zlen_app, Hl. by vm_compute. Qed.

Lemma zlen_long_members : zlen (enc_members long_specs (long_value s)) = 70008.
Proof.
  rewrite <-concat_member_parts. pose proof zlen_long_bytes as Hz. rewrite <-long_layout in Hz. unfold vt_bytes in Hz.
  rewrite long_lengths, zlen_cons, zlen_app in Hz. change (zlen (hex "04827011010004")) with 7 in Hz. lia.
Qed.

Lemma long_bytes_ok : bytes_ok (long_bytes s).
Proof. unfold long_bytes. repeat apply bytes_ok_app; [|done|]; match goal with |- bytes_ok ?l => let l' := eval vm_compute in l in change (bytes_ok l') end; bytes_lit. Qed.

Lemma long_serializes : SerializeNew (long_value s) = Ret (long_bytes s).
Proof.
  pose proof size_mod_pos. pose proof grow_limit_bounds.
  destruct (WriteVersionTolerant_fits long_specs (long_value s) NewWriter) as (w & E & Hs & G & _).
  - apply NewWriter_ok.
  - apply long_wf.
  - vm_compute. discriminate.
  - rewrite zlen_long_members. lia.
  - rewrite zlen_long_members. lia.
  - rewrite long_layout, zlen_long_bytes. change (w_Size NewWriter) with 0. change (w_limit NewWriter) with grow_limit. lia.
  - eapply SerializeNew_writes; [exact E|done|]. by rewrite G, long_layout.
Qed.

Lemma long_deserializes : ∃ r, Deserialize (T := interop.VersionTolerantLong) value_init (NewReader (long_bytes s) DefaultOptions) = (Ret (long_value s), r) ∧
  Failed r = false ∧ IsEnd r = true.
Proof.
  pose proof size_mod_pos. eexists. split; [|].
  - cbn [Deserialize interop.VersionTolerantLong_formatter].
    change interop.VersionTolerantLong_members with (ms_member <$> long_specs).
    eapply eq_trans; [apply (ReadVersionTolerant_ready DefaultOptions 0 _ long_specs (member_parts long_specs (long_value s)) [] (long_value s))|done].
    + apply new_reader_ready; [done|apply long_bytes_ok|rewrite zlen_long_bytes; lia].
    + done.
    + vm_compute. discriminate.
    + intros p Hp. eapply member_parts_small; [|done]. rewrite zlen_long_members. lia.
    + rewrite app_nil_r, long_layout. done.
    + intros j m p Hm Hp. unfold member_parts in Hp. apply list_lookup_fmap_Some_1 in Hp as (m' & -> & Hm'). rewrite Hm in Hm'. injection Hm' as <-.
      apply list_elem_of_lookup_2 in Hm. split_and!; [by apply long_wf|by apply long_within|done].
  - split; [done|]. unfold IsEnd, skip, size_, NewReader. cbn [pos_ data_ set_pos]. rewrite Z.add_0_l, long_layout. apply Z.geb_le, Z.le_refl.
Qed.

Lemma long_passes : file (path_join dir (file_name (c_literal "vt_len_70000"))) = Some (long_bytes s) →
  passes dir out 4 (output out (c_literal "vt_len_70000") (long_bytes s)) (Roundtrip interop.VersionTolerantLong "vt_len_70000" verify_vt_len_70000).
Proof.
  intros Hf. destruct long_deserializes as (r & E & Hok & Hend).
  apply (Roundtrip_passes dir out _ _ _ 1 (long_value s) r); try done; [apply long_serializes|].
  apply CHECK_passes. unfold long_ok. cbn. by rewrite Hl.
Qed.
End LongString.

#[local] Opaque replicate hex app.
Lemma vt_len_70000_long : vt_len_70000 = long_bytes (replicate (Z.to_nat 69992) 0x79).
Proof. reflexivity. Qed.
#[local] Transparent replicate hex app.

Lemma vt_len_70000_passes :
  passes dir out 4 (output out (c_literal "vt_len_70000") vt_len_70000) (Roundtrip interop.VersionTolerantLong "vt_len_70000" verify_vt_len_70000).
Proof.
  pose proof (Hfiles "vt_len_70000" vt_len_70000) as Hf. rewrite vt_len_70000_long in Hf |- *. apply long_passes.
  - by apply Forall_replicate.
  - by apply Forall_replicate.
  - by apply zlen_replicate_Z.
  - apply Hf. rewrite <-vt_len_70000_long. find_fixture.
Qed.

Lemma TestVersionTolerant_passes : passes dir out 22 (written VersionTolerant_fixtures) TestVersionTolerant.
Proof. unfold TestVersionTolerant. pose proof vt_len_70000_passes. run_group. Qed.

(** ** The program *)

Lemma set_directories_run args : dir = default MEMORYPACK_FIXTURE_DIR (argument args 1) → out = default [] (argument args 2) →
  set_directories args (started before_main) = (Ret tt, Program [] (no_tests, Suite dir out 0 [])).
Proof. intros -> ->. unfold set_directories, mbind, M_bind. by destruct (argument args 2). Qed.

Lemma print_directories_passes : passes dir out 0 [] print_directories.
Proof.
  unfold print_directories, get_suite. split; [done|]. intros p Hp Hn. destruct (Hp) as (Hd & Ho & _).
  unfold mbind at 1, M_bind at 1, gets. rewrite Hd, Ho.
  assert (Hk : passes dir out 0 [] (printf "fixtures: %s\n" [Text dir] ;;
    (if bool_decide (out = []) then mret tt else printf "writing C++ output to: %s\n" [Text out]) ;; printf "\n" [])).
  { apply (passes_bind _ _ 0 0 [] []); [by eapply printf_skips|].
    apply (passes_bind _ _ 0 0 [] []); [|by eapply printf_skips]. destruct (bool_decide _); [apply passes_ret|by eapply printf_skips]. }
  by apply Hk.
Qed.

(** A passing part of a program, and what follows it. *)
Lemma passes_then {A} n ws (m : M (program (mptest * suite)) unit) (k : M (program (mptest * suite)) A) p (Q : outcome A * program (mptest * suite) → Prop) :
  passes dir out n ws m → in_suite dir out p → g_checks (globals p).1 + n < 2 ^ 31 →
  (∀ p', passed dir out n ws p p' → Q (k p')) → Q ((m ;; k) p).
Proof. intros [_ Hm] Hp Hn Hk. destruct (Hm p Hp Hn) as (p' & E & Hp'). unfold mbind, M_bind. rewrite E. by apply Hk. Qed.

Lemma passed_trans n1 n2 ws1 ws2 p p1 p2 : passed dir out n1 ws1 p p1 → passed dir out n2 ws2 p1 p2 →
  passed dir out (n1 + n2) (ws1 ++ ws2) p p2.
Proof.
  intros (_ & C1 & F1 & W1) (Hp & C2 & F2 & W2). split_and!; [done|lia|congruence|by rewrite W2, W1, app_assoc].
Qed.

Lemma written_app fs1 fs2 : written (fs1 ++ fs2) = written fs1 ++ written fs2.
Proof. apply bind_app. Qed.

(** After the last test: nothing was missing and nothing failed. *)
Lemma summary_passes p : in_suite dir out p → g_failures (globals p).1 = 0 →
  ∃ p', (s ← get_suite;
         if g_missing s >? 0 then
           printf "\n%d fixture file(s) were missing. Regenerate them with:\n  dotnet run --project tools/FormatProbe -- generate tests/fixtures\n" [Int (g_missing s)] ;;
           mret 1
         else Summarize "interop_tests") p = (Ret 0, p') ∧ globals p' = globals p.
Proof.
  intros (_ & _ & Hm) Hf. unfold get_suite, mbind at 1, M_bind at 1, gets. rewrite Hm. cbn [Z.gtb Z.compare].
  unfold Summarize, printf, mbind, M_bind, gets. rewrite Hf. by eexists.
Qed.
End Cases.

Section Main.
Context `{P : Platform, Build, Filesystem, FixtureDir}.

(** The next test function of [main]. *)
Ltac next_test lem :=
  match goal with
  | Hp : passed _ _ _ _ (Program [] _) ?p |- _ =>
      eapply (passes_then _ _ _ _ _ _ p); [eapply lem; eassumption|apply Hp|destruct Hp as (_ & Hc & _); rewrite Hc; cbn; lia|];
      let p' := fresh "p" in let Hp' := fresh "Hp" in
      intros p' Hp'; pose proof (passed_trans _ _ _ _ _ _ _ _ _ Hp Hp'); clear Hp Hp'
  end.

(** C4: On the bytes the C# library produced, the interop suite passes: every fixture decodes
    to the expected value and encodes to the same bytes; all 295 checks hold, and what is
    written for the C# side to read back are exactly the fixtures. The host is
    little-endian, as C# writes unmanaged structs. *)
Theorem interop_tests_pass clock args : native_little = true → system_clock_ok clock →
  let dir := default MEMORYPACK_FIXTURE_DIR (argument args 1) in
  let out := default [] (argument args 2) in
  (∀ name bytes, (name, bytes) ∈ fixtures → file (path_join dir (file_name (c_literal name))) = Some bytes) →
  ∃ p, main clock args (started before_main) = (Ret 0, p) ∧ g_checks (globals p).1 = 295 ∧ g_failures (globals p).1 = 0 ∧
    g_written (globals p).2 = written out fixtures.
Proof.
  intros Hl Hclock dir out Hfiles. unfold main. unfold mbind at 1, M_bind at 1.
  rewrite (set_directories_run dir out) by done. set (p0 := Program [] _).
  set (Q := λ r : outcome Z * program (mptest * suite), ∃ p, r = (Ret 0, p) ∧ g_checks (globals p).1 = 295 ∧
    g_failures (globals p).1 = 0 ∧ g_written (globals p).2 = written out fixtures).
  match goal with |- ∃ p, ?r = _ ∧ _ => change (Q r) end.
  assert (Hp : passed dir out 0 [] p0 p0) by by split_and!.
  subst p0. next_test print_directories_passes.
  next_test TestObjects_passes. next_test TestEnums_passes. next_test TestStrings_passes.
  next_test TestCollections_passes. next_test TestMapsAndSets_passes. next_test TestUnmanaged_passes.
  next_test TestNullable_passes. next_test TestTuples_passes. next_test TestDotNetTypes_passes.
  next_test TestUnions_passes. next_test TestVersionTolerant_passes. next_test TestSpecialFloats_passes.
  match goal with H : passed _ _ _ _ _ ?p |- _ => destruct H as (Hp & Hc & Hf & Hw); destruct (summary_passes dir out p Hp Hf) as (p' & E & Eg) end.
  exists p'. split; [exact E|]. rewrite Eg, Hc, Hf, Hw. split_and!; [done|done|].
  unfold fixtures. rewrite !written_app, <-?app_assoc. done.
Qed.
End Main.

(** A file system that holds the fixtures in the directory [d]. *)
Section Witness.
#[local] Existing Instance host64.
#[local] Instance fixture_files : Filesystem := {|
  file p := snd ∘ snd <$> list_find (λ f, path_join (c_literal "d") (file_name (c_literal f.1)) = p) fixtures;
  directory _ := None |}.
#[local] Instance test_build : Build := c_literal "interop_tests.cpp".
#[local] Instance test_dir : FixtureDir := c_literal "d".

Lemma fixture_files_hold name bytes : (name, bytes) ∈ fixtures → file (path_join (c_literal "d") (file_name (c_literal name))) = Some bytes.
Proof.
  unfold fixtures. intros Hin. repeat (apply elem_of_app in Hin as [Hin|Hin]).
  all: autounfold with fixtures in Hin; repeat (apply elem_of_cons in Hin as [[= -> ->]|Hin]; [reflexivity|]); by apply elem_of_nil in Hin.
Qed.

Lemma interop_tests_pass_witness : ∃ p, main (1, 1000000000) [] (started before_main) = (Ret 0, p).
Proof.
  destruct (interop_tests_pass (1, 1000000000) []) as (p & E & _); [done|by left|exact fixture_files_hold|]. by exists p.
Defined.
End Witness.
