(* ===== verification/UnitTypes.v ===== *)
(** The types of the unit tests ([tests/memorypack_tests.cpp], its first part). A struct that
    is copied verbatim is its bytes, padding included. *)
From stdpp Require Import strings countable.
From S2P Require Import Prelude Endian Writer Reader Headers Utf Strings Formatter Collections Assoc Nullable Objects Union Unmanaged Console.

(** Keys of hash tables. *)
#[export] Instance prim_countable t : Countable (prim t) := inj_countable' pval Prim (λ '(Prim _), eq_refl).
#[export] Instance string_countable : Countable string := inj_countable' bytes_of Str (λ '(Str _), eq_refl).

Module unit_types.
Abbreviation int32 := (prim Int32).

Record TestPacket := MkTestPacket { TestPacket_id : int32; TestPacket_name : string }.

Definition Color : Type := enum UInt16.
Definition Red : Color := Enum 1.
Definition Green : Color := Enum 2.
Definition Blue : Color := Enum 3.
Definition Signed : Type := enum Int8.
Definition Low : Signed := Enum (-128).
Definition Zero : Signed := Enum 0.
Definition High : Signed := Enum 127.

Record MacroPacket := MkMacroPacket { MacroPacket_id : int32; MacroPacket_name : string }.
Record Nested := MkNested { outer : int32; inner : MacroPacket; more : vector MacroPacket }.

Record PlainVec3 := MkPlainVec3 { PlainVec3_bytes : list Z }.
Record PaddedPair := MkPaddedPair { PaddedPair_bytes : list Z }.
Record ScrubbedPair := MkScrubbedPair { ScrubbedPair_bytes : list Z }.
Record PackedPair := MkPackedPair { PackedPair_bytes : list Z }.

Record AltA := MkAltA { AltA_a : int32 }.
Record AltB := MkAltB { AltB_b : string }.
(** [std::variant<AltA, AltB>]. *)
Definition Alt : Type := AltA + AltB.

(** The components of the tuples of the tests. *)
Record int_int := MkIntInt { ii_0 : int32; ii_1 : int32 }.
Record int_string_double := MkIntStringDouble { isd_0 : int32; isd_1 : string; isd_2 : prim Float64 }.

#[export] Instance MacroPacket_eq_dec : EqDecision MacroPacket.
Proof. solve_decision. Defined.

Section Definitions.
Context `{Platform}.

(** *** [IMemoryPackable<TestPacket>], written by hand *)

Definition TestPacket_Serialize (v : option TestPacket) : W unit :=
  match v with
  | None => WriteNullObjectHeader
  | Some v =>
      WriteObjectHeader 2 ;;
      WriteInt32 (pval (TestPacket_id v)) ;;
      WriteString (bytes_of (TestPacket_name v))
  end.

Definition TestPacket_Deserialize (v : TestPacket) : R TestPacket :=
  header ← ReadObjectHeader;
  if isNull header then mret v else
  v ← (if count header >=? 1 then id ← ReadInt32; mret (MkTestPacket (Prim id) (TestPacket_name v)) else mret v);
  if count header >=? 2 then s ← ReadString; mret (MkTestPacket (TestPacket_id v) (Str (default [] s))) else mret v.

#[global] Instance TestPacket_formatter : MemoryPackFormatter TestPacket := {
  value_init := MkTestPacket (Prim 0) (Str []);
  kind := OtherType;
  Serialize := λ v, TestPacket_Serialize (Some v);
  Deserialize := TestPacket_Deserialize }.

(** *** [MEMORYPACK_DEFINE] *)

#[global] Instance MacroPacket_members : Members MacroPacket := {
  default_value := MkMacroPacket (Prim 0) (Str []);
  members := [
    Member int32 MacroPacket_id (λ a v, MkMacroPacket a (MacroPacket_name v));
    Member string MacroPacket_name (λ a v, MkMacroPacket (MacroPacket_id v) a)] }.

#[global] Instance Nested_members : Members Nested := {
  default_value := MkNested (Prim 0) default_value (Vector []);
  members := [
    Member int32 outer (λ a v, MkNested a (inner v) (more v));
    Member MacroPacket inner (λ a v, MkNested (outer v) a (more v));
    Member (vector MacroPacket) more (λ a v, MkNested (outer v) (inner v) a)] }.

#[global] Instance AltA_members : Members AltA := {
  default_value := MkAltA (Prim 0);
  members := [Member int32 AltA_a (λ a _, MkAltA a)] }.

#[global] Instance AltB_members : Members AltB := {
  default_value := MkAltB (Str []);
  members := [Member string AltB_b (λ a _, MkAltB a)] }.

#[global] Instance Alt_variant : Variant Alt := {
  first_alternative := inl default_value;
  alternatives := [
    Alternative AltA 0 inl (λ v, if v is inl x then Some x else None);
    Alternative AltB 300 inr (λ v, if v is inr x then Some x else None)] }.

#[global] Instance int_int_members : Members int_int := {
  default_value := MkIntInt (Prim 0) (Prim 0);
  members := [
    Member int32 ii_0 (λ a v, MkIntInt a (ii_1 v));
    Member int32 ii_1 (λ a v, MkIntInt (ii_0 v) a)] }.

#[global] Instance int_string_double_members : Members int_string_double := {
  default_value := MkIntStringDouble (Prim 0) (Str []) (Prim 0);
  members := [
    Member int32 isd_0 (λ a v, MkIntStringDouble a (isd_1 v) (isd_2 v));
    Member string isd_1 (λ a v, MkIntStringDouble (isd_0 v) a (isd_2 v));
    Member (prim Float64) isd_2 (λ a v, MkIntStringDouble (isd_0 v) (isd_1 v) a)] }.

(** *** Unmanaged structs *)

(** The member of type [t] at offset [off], and its assignment. *)
Definition get_field (t : arith_ty) (off : Z) (bytes : list Z) : Z := of_object_bytes t (slice off (sizeof t) bytes).
Definition set_field (t : arith_ty) (off x : Z) (bytes : list Z) : list Z := overwrite off (object_bytes t x) bytes.

(** [PlainVec3{x, y, z}]. *)
Definition vec3 (x y z : Z) : PlainVec3 :=
  MkPlainVec3 (set_field Float32 8 z (set_field Float32 4 y (set_field Float32 0 x (replicate 12 0)))).

Definition PlainVec3_eq (a b : PlainVec3) : bool :=
  forallb (λ off, float_eq (get_field Float32 off (PlainVec3_bytes a)) (get_field Float32 off (PlainVec3_bytes b))) [0; 4; 8].

(** [p.tag = tag; p.value = value;] where [value] lies at offset [off]. *)
Definition fill_pair (off tag value : Z) (p : list Z) : list Z := set_field Int32 off value (set_field UInt8 0 tag p).

(** The member-wise [operator==]. *)
Definition pair_eq (off : Z) (a b : list Z) : bool :=
  (get_field UInt8 0 a =? get_field UInt8 0 b) && (get_field Int32 off a =? get_field Int32 off b).

#[global] Instance PlainVec3_unmanaged : Unmanaged PlainVec3 := {
  um_rep := MkRep 12 4 PlainVec3_bytes MkPlainVec3;
  um_init := MkPlainVec3 (replicate 12 0) }.

#[global] Instance PaddedPair_unmanaged : Unmanaged PaddedPair := {
  um_rep := MkRep 8 4 PaddedPair_bytes MkPaddedPair;
  um_init := MkPaddedPair (replicate 8 0) }.

#[global] Instance ScrubbedPair_scrubbed : Scrubbed ScrubbedPair := {
  sc_rep := MkRep 8 4 ScrubbedPair_bytes MkScrubbedPair;
  sc_init := MkScrubbedPair (replicate 8 0);
  sc_fields := [(0, 1); (4, 4)] }.

#[global] Instance PackedPair_unmanaged : Unmanaged PackedPair := {
  um_rep := MkRep 5 1 PackedPair_bytes MkPackedPair;
  um_init := MkPackedPair (replicate 5 0) }.

(** The assertions of [MEMORYPACK_UNMANAGED_EXACT], which [PaddedPair] would not pass. *)
Example exact_types :
  exact_assert (um_rep (T := PlainVec3)) [(0, 4); (4, 4); (8, 4)] && exact_assert (um_rep (T := PackedPair)) [(0, 1); (1, 4)] &&
  negb (exact_assert (um_rep (T := PaddedPair)) [(0, 1); (4, 4)]) = true.
Proof. done. Qed.
End Definitions.
End unit_types.
