(* ===== verification/UnitTests.v ===== *)
(** The unit tests ([tests/memorypack_tests.cpp]), built with [std::expected]: every test
    function and [main]. The order in which hash tables are traversed, the period of the
    system clock and the time it shows are parameters. *)
From stdpp Require Import strings gmap.
From S2P Require Import Prelude Endian Writer Reader Headers Utf Strings Formatter Collections Assoc Nullable Objects Union VersionTolerant Unmanaged DotNet Api Packet Text Console Floats TestHarness UnitTypes.

Import unit_types.

Section Tests.
Context `{Platform, Build, HashOrder (gmap int32 int32) (int32 * int32), HashOrder (gset string) string}.

Abbreviation T := (M (program (mptest * unit))).

(** *** Local objects *)

(** [MemoryPackWriter w; m;], and with [auto buf = w.TakeBuffer();]. *)
Definition writing (m : W unit) : T MemoryPackWriter := r ← on_local NewWriter m; mret r.2.
Definition written (m : W unit) : T (list Z) := r ← on_local NewWriter (m ;; TakeBuffer); mret r.1.

(** [MemoryPackReader r(data);] *)
Definition reader (data : list Z) : MemoryPackReader := NewReader data DefaultOptions.

(** A [std::array] at a constant index. *)
Definition cell (a : list Z) (i : nat) : Z := nth i a 0.

(** [v[i]] *)
Definition at_ {A} (l : list A) (i : nat) : T A := match l !! i with Some x => mret x | None => undefined end.

Definition empty {A} (l : list A) : bool := bool_decide (l = []).
Definition has_value {A} (o : option A) : bool := bool_decide (is_Some o).

(** [p.id == id && p.name == name] *)
Definition is_packet (id : Z) (name : String.string) (p : MacroPacket) : bool :=
  (pval (MacroPacket_id p) =? id) && bool_decide (MacroPacket_name p = str name).
Definition packet_named (name : String.string) (p : MacroPacket) : bool := bool_decide (MacroPacket_name p = str name).

Definition packet_of (id : Z) (name : String.string) : MacroPacket := MkMacroPacket (i32 id) (str name).

Definition ints (l : list Z) : vector int32 := Vector (i32 <$> l).
Definition bools (l : list bool) : vector (prim Bool_t) := Vector ((λ b : bool, Prim (if b then 1 else 0)) <$> l).

(** *** Primitives *)

Definition float_nan : Z := 0x7FC00000.
Definition float_infinity : Z := 0x7F800000.
Definition minus_infinity : Z := 0xFF800000.
Definition minus_zero : Z := 2 ^ 63.
Definition denorm_min : Z := 1.

Definition test_primitives : T unit :=
  BeginCase (c_literal "primitives") ;;
  buf ← written (
    WriteBool true ;;
    WriteBool false ;;
    WriteInt8 (-5) ;;
    WriteUInt8 200 ;;
    WriteInt16 (-1234) ;;
    WriteUInt16 54321 ;;
    WriteInt32 (-123456) ;;
    WriteUInt32 3000000000 ;;
    WriteInt64 (-1234567890123) ;;
    WriteUInt64 12345678901234567890 ;;
    WriteFloat (float_lit 314159 100000) ;;
    WriteDouble (double_lit 2718281828459045 1000000000000000));
  let r := reader buf in
  r ← CHECK_ON 154 "CHECK(r.ReadBool() == true)" r (b ← ReadBool; mret (eqb b true));
  r ← CHECK_ON 155 "CHECK(r.ReadBool() == false)" r (b ← ReadBool; mret (eqb b false));
  r ← CHECK_ON 156 "CHECK(r.ReadInt8() == -5)" r (x ← ReadInt8; mret (x =? -5));
  r ← CHECK_ON 157 "CHECK(r.ReadUInt8() == 200)" r (x ← ReadUInt8; mret (x =? 200));
  r ← CHECK_ON 158 "CHECK(r.ReadInt16() == -1234)" r (x ← ReadInt16; mret (x =? -1234));
  r ← CHECK_ON 159 "CHECK(r.ReadUInt16() == 54321)" r (x ← ReadUInt16; mret (x =? 54321));
  r ← CHECK_ON 160 "CHECK(r.ReadInt32() == -123456)" r (x ← ReadInt32; mret (x =? -123456));
  r ← CHECK_ON 161 "CHECK(r.ReadUInt32() == 3000000000u)" r (x ← ReadUInt32; mret (x =? 3000000000));
  r ← CHECK_ON 162 "CHECK(r.ReadInt64() == -1234567890123LL)" r (x ← ReadInt64; mret (x =? -1234567890123));
  r ← CHECK_ON 163 "CHECK(r.ReadUInt64() == 12345678901234567890ULL)" r (x ← ReadUInt64; mret (x =? 12345678901234567890));
  r ← CHECK_ON 164 "CHECK(r.ReadFloat() == 3.14159f)" r (x ← ReadFloat; mret (float_eq x (float_lit 314159 100000)));
  r ← CHECK_ON 165 "CHECK(r.ReadDouble() == 2.718281828459045)" r (x ← ReadDouble; mret (double_eq x (double_lit 2718281828459045 1000000000000000)));
  CHECK 166 "CHECK(r.IsEnd())" (IsEnd r) ;;
  mret tt.

Definition test_special_floats : T unit :=
  BeginCase (c_literal "special floats") ;;
  buf ← written (
    WriteFloat float_nan ;;
    WriteFloat float_infinity ;;
    WriteFloat minus_infinity ;;
    WriteDouble minus_zero ;;
    WriteDouble denorm_min);
  let r := reader buf in
  r ← CHECK_ON 181 "CHECK(std::isnan(r.ReadFloat()))" r (x ← ReadFloat; mret (is_nan x));
  r ← CHECK_ON 182 "CHECK(std::isinf(r.ReadFloat()))" r (x ← ReadFloat; mret (is_inf x));
  r ← CHECK_ON 183 "CHECK(std::isinf(r.ReadFloat()))" r (x ← ReadFloat; mret (is_inf x));
  x ← on_local r ReadDouble;
  let '(negZero, r) := x in
  CHECK 185 "CHECK(negZero == 0.0 && std::signbit(negZero))" (double_eq negZero 0 && double_signbit negZero) ;;
  r ← CHECK_ON 186 "CHECK(r.ReadDouble() == std::numeric_limits<double>::denorm_min())" r (x ← ReadDouble; mret (double_eq x denorm_min));
  mret tt.

(** [MemoryPackWriter w; m; CHECK_BYTES(w.Data(), w.Size(), ...)] *)
Definition check_written (line : Z) (m : W unit) (expected : list Z) : T unit :=
  w ← writing m;
  CHECK_BYTES line (GetSpan w) expected.

Definition test_golden_bytes : T unit :=
  BeginCase (c_literal "golden bytes") ;;
  check_written 196 (WriteString (c_literal "Hello"))
    ([0xFA; 0xFF; 0xFF; 0xFF; 0x05; 0; 0; 0] ++ c_literal "Hello") ;;
  check_written 202 (WriteVector Int32 [10; 20; 30])
    [0x03; 0; 0; 0; 0x0A; 0; 0; 0; 0x14; 0; 0; 0; 0x1E; 0; 0; 0] ;;
  check_written 210 (WriteObjectHeader 2 ;; WriteInt32 42 ;; WriteString (c_literal "ABC"))
    ([0x02; 0x2A; 0; 0; 0; 0xFC; 0xFF; 0xFF; 0xFF; 0x03; 0; 0; 0] ++ c_literal "ABC") ;;
  check_written 216 (WriteMap (C := std_map int32 int32) (K := int32) (V := int32) (StdMap [(i32 1, i32 10)]))
    [0x01; 0; 0; 0; 0x01; 0; 0; 0; 0x0A; 0; 0; 0] ;;
  check_written 222 (WriteTuple (MkIntInt (i32 7) (i32 8)))
    [0x02; 0x07; 0; 0; 0; 0x08; 0; 0; 0] ;;
  check_written 228 (WriteEnum UInt16 (evalue Green)) [0x02; 0x00] ;;
  check_written 235 (WriteUnionHeader 3 ;; WriteUnionHeader 300 ;; WriteNullUnionHeader)
    [0x03; 0xFA; 0x2C; 0x01; 0xFF].

(** *** Strings *)

Definition test_string : T unit :=
  BeginCase (c_literal "string") ;;
  buf ← written (
    WriteString [] ;;
    WriteString (c_literal "hello world") ;;
    WriteNullString ;;
    WriteOptionalString None ;;
    WriteOptionalString (Some (c_literal "opt")));
  x ← on_local (reader buf) ReadString; let '(a, r) := x in
  CHECK 252 "CHECK(a.has_value() && *a == \q\q)" (bool_decide (a = Some [])) ;;
  x ← on_local r ReadString; let '(b, r) := x in
  CHECK 253 "CHECK(b.has_value() && *b == \qhello world\q)" (bool_decide (b = Some (c_literal "hello world"))) ;;
  x ← on_local r ReadString; let '(c, r) := x in
  CHECK 254 "CHECK(!c.has_value())" (negb (has_value c)) ;;
  x ← on_local r ReadString; let '(d, r) := x in
  CHECK 255 "CHECK(!d.has_value())" (negb (has_value d)) ;;
  x ← on_local r ReadString; let '(e, r) := x in
  CHECK 256 "CHECK(e.has_value() && *e == \qopt\q)" (bool_decide (e = Some (c_literal "opt"))) ;;
  mret tt.

(** UTF-8 in the source's escapes: e-acute, a Hangul syllable, U+1F600. *)
Definition e_acute : list Z := [0xC3; 0xA9].
Definition hangul : list Z := [0xED; 0x95; 0x9C].
Definition emoji : list Z := [0xF0; 0x9F; 0x98; 0x80].
Definition mixed : list Z := [65] ++ hangul ++ emoji.
(** U+FFFD *)
Definition replacement : list Z := [0xEF; 0xBF; 0xBD].

(** The bytes of [test_string_format], and its round trip of one string. *)
Definition string_bytes : T unit :=
  check_written 264 (WriteString (c_literal "ABC")) ([0xFC; 0xFF; 0xFF; 0xFF; 0x03; 0; 0; 0] ++ c_literal "ABC") ;;
  check_written 266 (WriteString []) [0x00; 0; 0; 0] ;;
  check_written 268 (WriteString e_acute) [0xFD; 0xFF; 0xFF; 0xFF; 0x01; 0; 0; 0; 0xC3; 0xA9] ;;
  check_written 270 (WriteString hangul) [0xFC; 0xFF; 0xFF; 0xFF; 0x01; 0; 0; 0; 0xED; 0x95; 0x9C] ;;
  check_written 272 (WriteString emoji) [0xFB; 0xFF; 0xFF; 0xFF; 0x02; 0; 0; 0; 0xF0; 0x9F; 0x98; 0x80] ;;
  check_written 275 (WriteString mixed)
    [0xF7; 0xFF; 0xFF; 0xFF; 0x04; 0; 0; 0; 0x41; 0xED; 0x95; 0x9C; 0xF0; 0x9F; 0x98; 0x80] ;;
  check_written 279 WriteNullString [0xFF; 0xFF; 0xFF; 0xFF].

Definition string_trip (s : list Z) : T unit :=
  buf ← written (WriteString s);
  x ← on_local (reader buf) ReadString; let '(got, r) := x in
  CHECK 290 "CHECK(got.has_value() && *got == s)" (bool_decide (got = Some s)) ;;
  CHECK 291 "CHECK(r.IsEnd())" (IsEnd r) ;;
  mret tt.

Definition test_string_format : T unit :=
  BeginCase (c_literal "string format / MemoryPack compat") ;;
  string_bytes ;;
  mapM_ string_trip [c_literal "ABC"; []; e_acute; hangul; emoji; mixed] ;;
  buf ← written WriteNullString;
  let r := reader buf in
  r ← CHECK_ON 296 "CHECK(!r.ReadString().has_value())" r (s ← ReadString; mret (negb (has_value s)));
  x ← on_local (reader [0x03; 0; 0; 0; 0x41; 0x00; 0x42; 0x00; 0x43; 0x00]) ReadString;
  CHECK 302 "CHECK(got.has_value() && *got == \qABC\q)" (bool_decide (x.1 = Some (c_literal "ABC"))) ;;
  x ← on_local (reader [0x02; 0; 0; 0; 0x3D; 0xD8; 0x00; 0xDE]) ReadString;
  CHECK 307 "CHECK(got.has_value() && *got == \q\\xF0\\x9F\\x98\\x80\q)" (bool_decide (x.1 = Some emoji)) ;;
  mret tt.

Definition test_string_bad_surrogates : T unit :=
  BeginCase (c_literal "string / lone surrogates") ;;
  x ← on_local (reader [0x02; 0; 0; 0; 0x3D; 0xD8; 0x41; 0x00]) ReadString;
  CHECK 317 "CHECK(got.has_value())" (has_value x.1) ;;
  CHECK 318 "CHECK(got && *got == \q\\xEF\\xBF\\xBD\q \qA\q)" (bool_decide (x.1 = Some (replacement ++ [65]))) ;;
  x ← on_local (reader [0x01; 0; 0; 0; 0x00; 0xDC]) ReadString;
  CHECK 324 "CHECK(got.has_value() && *got == \q\\xEF\\xBF\\xBD\q)" (bool_decide (x.1 = Some replacement)) ;;
  x ← on_local (reader [0x01; 0; 0; 0; 0x3D; 0xD8]) ReadString;
  CHECK 330 "CHECK(got.has_value() && *got == \q\\xEF\\xBF\\xBD\q)" (bool_decide (x.1 = Some replacement)) ;;
  mret tt.

(** A view ends where the reader stands, so it starts [zlen view] before. *)
Definition test_string_view_and_inplace : T unit :=
  BeginCase (c_literal "string / view and in-place read") ;;
  buf ← written (WriteString (c_literal "borrowed") ;; WriteString (c_literal "second"));
  x ← on_local (reader buf) ReadStringView; let '(view, r) := x in
  CHECK 343 "CHECK(view.has_value() && *view == \qborrowed\q)" (bool_decide (view = Some (c_literal "borrowed"))) ;;
  CHECK 344 "ReadStringView must borrow the input, not copy it"
    (holds (λ view, (0 <=? pos_ r - zlen view) && (pos_ r - zlen view <? zlen buf)) view) ;;
  x ← on_local r ReadStringInto; let '((ok, reused), r) := x in
  CHECK 349 "CHECK(r.ReadString(reused))" (ok : bool) ;;
  CHECK 350 "CHECK(reused == \qsecond\q)" (bool_decide (reused = c_literal "second")) ;;
  let r16 := reader [0x01; 0; 0; 0; 0x41; 0x00] in
  r16 ← CHECK_ON 355 "CHECK(!r16.ReadStringView().has_value())" r16 (v ← ReadStringView; mret (negb (has_value v)));
  CHECK 356 "CHECK(r16.Position() == 0)" (Position r16 =? 0) ;;
  x ← on_local r16 ReadString;
  CHECK 358 "CHECK(viaCopy.has_value() && *viaCopy == \qA\q)" (bool_decide (x.1 = Some (c_literal "A"))) ;;
  mret tt.

Definition test_utf16_strings : T unit :=
  BeginCase (c_literal "string / UTF-16 output") ;;
  w ← writing (WriteStringUtf16 (c_literal "ABC"));
  CHECK_BYTES 365 (GetSpan w) [0x03; 0; 0; 0; 65; 0; 66; 0; 67; 0] ;;
  x ← on_local (reader (GetSpan w)) (ReadInto (Str16 []));
  CHECK 370 "CHECK(back == u\qABC\q)" (bool_decide (units_of x.1 = c_literal "ABC")) ;;
  let wide := Str16 [65; 0xD83D; 0xDE00] in
  bytes ← serialize wide;
  restored ← deserialize u16string bytes;
  CHECK 378 "CHECK(restored == wide)" (bool_decide (units_of restored = units_of wide)) ;;
  mret tt.

(** *** Objects *)

Definition test_object : T unit :=
  BeginCase (c_literal "object / IMemoryPackable") ;;
  data ← serialize (MkTestPacket (i32 42) (str "ABC"));
  CHECK_BYTES 387 data ([0x02; 0x2A; 0; 0; 0; 0xFC; 0xFF; 0xFF; 0xFF; 0x03; 0; 0; 0] ++ c_literal "ABC") ;;
  back ← deserialize TestPacket data;
  CHECK 391 "CHECK(back.id == 42)" (pval (TestPacket_id back) =? 42) ;;
  CHECK 392 "CHECK(back.name == \qABC\q)" (bool_decide (TestPacket_name back = str "ABC")) ;;
  buf ← written (WriteObjectHeader 1 ;; WriteInt32 7);
  vt ← deserialize TestPacket buf;
  CHECK 400 "CHECK(vt.id == 7)" (pval (TestPacket_id vt) =? 7) ;;
  CHECK 401 "CHECK(vt.name == \q\q)" (bool_decide (TestPacket_name vt = Str [])) ;;
  wn ← writing WriteNullObjectHeader;
  x ← on_local (reader (GetSpan wn)) ReadObjectHeader;
  CHECK 408 "CHECK(isNull)" (isNull x.1) ;;
  CHECK 409 "CHECK(cnt == 0)" (count x.1 =? 0) ;;
  target ← lift_outcome (DeserializeInto data (MkTestPacket (i32 0) (Str [])));
  CHECK 414 "CHECK(target.id == 42 && target.name == \qABC\q)" ((pval (TestPacket_id target) =? 42) && bool_decide (TestPacket_name target = str "ABC")) ;;
  mret tt.

Definition test_define_macro : T unit :=
  BeginCase (c_literal "MEMORYPACK_DEFINE") ;;
  handBytes ← serialize (MkTestPacket (i32 42) (str "ABC"));
  macroBytes ← serialize (packet_of 42 "ABC");
  CHECK_BYTES_EQ 424 macroBytes handBytes "macro-generated encoding must match the hand-written one" ;;
  back ← deserialize MacroPacket macroBytes;
  CHECK 428 "CHECK(back.id == 42 && back.name == \qABC\q)" (is_packet 42 "ABC" back) ;;
  CHECK 429 "CHECK(IMemoryPackable<MacroPacket>::MemberCount == 2)" (MemberCount (V := MacroPacket) =? 2) ;;
  partial ← written (WriteObjectHeader 1 ;; WriteInt32 9);
  vt ← deserialize MacroPacket partial;
  CHECK 437 "CHECK(vt.id == 9 && vt.name.empty())" (is_packet 9 "" vt) ;;
  nestedBytes ← serialize (MkNested (i32 1) (packet_of 2 "inner") (Vector [packet_of 3 "a"; packet_of 4 "b"]));
  nestedBack ← deserialize Nested nestedBytes;
  CHECK 443 "CHECK(nestedBack.outer == 1)" (pval (outer nestedBack) =? 1) ;;
  CHECK 444 "CHECK(nestedBack.inner.id == 2 && nestedBack.inner.name == \qinner\q)" (is_packet 2 "inner" (inner nestedBack)) ;;
  CHECK 445 "CHECK(nestedBack.more.size() == 2)" (zlen (elements (more nestedBack)) =? 2) ;;
  match elements (more nestedBack) with
  | [more0; more1] =>
  CHECK 447 "CHECK(nestedBack.more[0].name == \qa\q)" (packet_named "a" more0) ;;
  CHECK 448 "CHECK(nestedBack.more[1].id == 4)" (pval (MacroPacket_id more1) =? 4) ;;
      mret tt
  | _ => mret tt
  end.

(** *** Collections *)

(** Writes, then reads back with [m] and compares; [line] and [text] are those of the check. *)
Definition trip {A} `{EqDecision A} (line : Z) (text : String.string) (write : W unit) (m : R A) (expected : A) : T unit :=
  buf ← written write;
  CHECK_ON line text (reader buf) (x ← m; mret (bool_decide (x = expected))) ;;
  mret tt.

Definition misaligned_vector : T unit :=
  buf ← written (WriteInt8 1 ;; WriteVector Int32 [10; 20; 30]);
  let r := reader buf in
  r ← CHECK_ON 474 "CHECK(r.ReadInt8() == 1)" r (x ← ReadInt8; mret (x =? 1));
  x ← on_local r (ReadVector Int32); let '(misaligned, r) := x in
  CHECK 477 "CHECK((misaligned == std::vector<int32_t>{10, 20, 30}))" (bool_decide (misaligned = [10; 20; 30])) ;;
  CHECK 478 "CHECK(!r.Failed())" (negb (Failed r)) ;;
  mret tt.

Definition null_elements : T unit :=
  buf ← written (WriteCollectionHeader 2 ;; WriteString (c_literal "x") ;; WriteNullString);
  x ← on_local (reader buf) ReadStringVector;
  CHECK 506 "CHECK(got.size() == 2 && got[0] == \qx\q && got[1].empty())" (bool_decide (x.1 = [c_literal "x"; []])) ;;
  mret tt.

Definition test_collections : T unit :=
  BeginCase (c_literal "collections") ;;
  trip 460 "CHECK(r.ReadVector<int32_t>() == v)" (WriteVector Int32 [1; 2; 3; -4; 5]) (ReadVector Int32) [1; 2; 3; -4; 5] ;;
  misaligned_vector ;;
  trip 483 "CHECK(r.ReadVector<uint8_t>() == v)" (WriteVector UInt8 [0; 1; 2; 255; 128]) (ReadVector UInt8) [0; 1; 2; 255; 128] ;;
  trip 487 "CHECK(r.ReadVector<int32_t>().empty())" (WriteVector Int32 []) (ReadVector Int32) [] ;;
  trip 492 "CHECK(r.ReadVector<int32_t>().empty())" WriteNullCollectionHeader (ReadVector Int32) [] ;;
  trip 497 "CHECK(r.ReadStringVector() == v)" (WriteStringVector [c_literal "a"; c_literal "bb"; c_literal "ccc"]) ReadStringVector [c_literal "a"; c_literal "bb"; c_literal "ccc"] ;;
  null_elements.

Definition test_vector_bool : T unit :=
  BeginCase (c_literal "collections / vector<bool>") ;;
  let v := [true; false; true] in
  w ← writing (WriteVectorBool v);
  CHECK_BYTES 516 (GetSpan w) [0x03; 0; 0; 0; 0x01; 0x00; 0x01] ;;
  x ← on_local w TakeBuffer;
  x ← on_local (reader x.1) ReadVectorBool;
  CHECK 522 "CHECK(back == v)" (bool_decide (x.1 = v)) ;;
  bytes ← serialize (bools v);
  CHECK_DO 526 "CHECK(Deserialize<std::vector<bool>>(bytes) == v)" (back ← deserialize (vector (prim Bool_t)) bytes; mret (bool_decide (back = bools v))) ;;
  CHECK_DO 527 "CHECK(Serialize(std::vector<bool>{}).size() == 4)" (bytes ← serialize (bools []); mret (zlen bytes =? 4)) ;;
  mret tt.

Definition sequences : T unit :=
  let d := Sequence (i32 <$> [1; 2; 3]) in
  bytes ← serialize d;
  asVector ← serialize (ints [1; 2; 3]);
  CHECK_BYTES_EQ 546 bytes asVector "deque must encode like vector" ;;
  CHECK_DO 548 "CHECK(Deserialize<std::deque<int32_t>>(bytes) == d)" (back ← deserialize (sequence int32) bytes; mret (bool_decide (items back = items d))) ;;
  let l := Sequence [str "a"; str "b"] in
  lbytes ← serialize l;
  CHECK_DO 552 "CHECK(Deserialize<std::list<std::string>>(lbytes) == l)" (back ← deserialize (sequence string) lbytes; mret (bool_decide (items back = items l))) ;;
  mret tt.

Definition std_sets : T unit :=
  let s := StdSet (i32 <$> [1; 2; 3]) in
  bytes ← serialize s;
  CHECK_DO 556 "CHECK(Deserialize<std::set<int32_t>>(bytes) == s)" (back ← deserialize (std_set int32) bytes; mret (bool_decide (back = s))) ;;
  mret tt.

Definition words : gset string := {[str "x"; str "y"]}.

Definition hashed_sets : T unit :=
  ubytes ← serialize (UnorderedSet words);
  CHECK_DO 560 "CHECK(Deserialize<std::unordered_set<std::string>>(ubytes) == us)" (back ← deserialize (unordered_set string) ubytes; mret (bool_decide (Assoc.members back = words))) ;;
  mret tt.

Definition test_generic_collections : T unit :=
  BeginCase (c_literal "collections / generic element types") ;;
  bytes ← serialize (Vector [packet_of 1 "a"; packet_of 2 "bb"]);
  back ← deserialize (vector MacroPacket) bytes;
  CHECK 536 "CHECK(back.size() == 2 && back[1].name == \qbb\q)" ((zlen (elements back) =? 2) && holds (packet_named "bb") (elements back !! 1%nat)) ;;
  bytes ← serialize (Vector [ints [1; 2]; ints []; ints [3]]);
  back ← deserialize (vector (vector int32)) bytes;
  CHECK_DO 541 "CHECK(back.size() == 3 && back[0].size() == 2 && back[1].empty() && back[2][0] == 3)" (match elements <$> elements back with [b0; b1; b2] => if (zlen b0 =? 2) && empty b1 then x ← at_ b2 0; mret (pval x =? 3) else mret false | _ => mret false end) ;;
  sequences ;;
  std_sets ;;
  hashed_sets ;;
  bytes ← serialize (Array [packet_of 1 "p"; packet_of 2 "q"] : array MacroPacket 2);
  back ← deserialize (array MacroPacket 2) bytes;
  CHECK 565 "CHECK(back[0].name == \qp\q && back[1].id == 2)" (holds (packet_named "p") (cells back !! 0%nat) && holds (λ p, pval (MacroPacket_id p) =? 2) (cells back !! 1%nat)) ;;
  mret tt.

Definition test_arrays : T unit :=
  BeginCase (c_literal "arrays") ;;
  trip 574 "CHECK(r.ReadArray<int32_t, 4>() == a)" (WriteStdArray Int32 [10; 20; 30; 40]) (ReadStdArray Int32 4) [10; 20; 30; 40] ;;
  buf ← written (WriteVector Int32 [1; 2; 3; 4; 5]);
  x ← on_local (reader buf) (ReadStdArray Int32 3); let '(got, r) := x in
  CHECK 580 "CHECK(got[0] == 1 && got[1] == 2 && got[2] == 3)" ((cell got 0 =? 1) && (cell got 1 =? 2) && (cell got 2 =? 3)) ;;
  CHECK 581 "CHECK(r.IsEnd())" (IsEnd r) ;;
  buf ← written (WriteVector Int32 [7; 8]);
  x ← on_local (reader buf) (ReadStdArray Int32 4); let '(got, r) := x in
  CHECK 587 "CHECK(got[0] == 7 && got[1] == 8 && got[2] == 0 && got[3] == 0)" ((cell got 0 =? 7) && (cell got 1 =? 8) && (cell got 2 =? 0) && (cell got 3 =? 0)) ;;
  buf ← written (WriteArray Int32 [5; 6; 7; 8; 9] 5);
  x ← on_local (reader buf) (ReadArray Int32 [0; 0; 0] 3); let '((n, dst), r) := x in
  CHECK 594 "CHECK(n == 3)" (n =? 3) ;;
  CHECK 595 "CHECK(dst[0] == 5 && dst[1] == 6 && dst[2] == 7)" ((cell dst 0 =? 5) && (cell dst 1 =? 6) && (cell dst 2 =? 7)) ;;
  CHECK 596 "CHECK(r.IsEnd())" (IsEnd r) ;;
  buf ← written (WriteArray Int32 [1; 2] 2);
  x ← on_local (reader buf) (ReadArray Int32 [-1; -1; -1; -1] 4); let '((n, dst), r) := x in
  CHECK 603 "CHECK(n == 2)" (n =? 2) ;;
  CHECK 604 "CHECK(dst[0] == 1 && dst[1] == 2)" ((cell dst 0 =? 1) && (cell dst 1 =? 2)) ;;
  mret tt.

(** *** Maps, tuples, enums *)

Definition hundreds : gmap int32 int32 := {[i32 1 := i32 100; i32 2 := i32 200]}.

Definition hashed_maps : T unit :=
  buf ← written (WriteMap (C := unordered_map int32 int32) (K := int32) (V := int32) (UnorderedMap hundreds));
  CHECK_ON 620 "CHECK((r.ReadUnorderedMap<int32_t, int32_t>() == m))" (reader buf)
    (m ← ReadUnorderedMap (C := unordered_map int32 int32) (K := int32) (V := int32); mret (bool_decide (mapping m = hundreds))) ;;
  mret tt.

Definition tuples : T unit :=
  buf ← written (WriteTuple (MkIntStringDouble (i32 99) (str "x") (Prim (double_lit 3 2))));
  x ← on_local (reader buf) ReadTuple; let got : int_string_double := x.1 in
  CHECK 636 "CHECK(std::get<0>(got) == 99)" (pval (isd_0 got) =? 99) ;;
  CHECK 637 "CHECK(std::get<1>(got) == \qx\q)" (bool_decide (isd_1 got = str "x")) ;;
  CHECK 638 "CHECK(std::get<2>(got) == 1.5)" (double_eq (pval (isd_2 got)) (double_lit 3 2)) ;;
  mret tt.

Definition enums : T unit :=
  w ← writing (WriteEnum UInt16 (evalue Green));
  CHECK_BYTES 645 (GetSpan w) [0x02; 0x00] ;;
  x ← on_local w TakeBuffer;
  let r := reader x.1 in
  r ← CHECK_ON 648 "CHECK(r.ReadEnum<Color>() == Color::Green)" r (x ← ReadEnum UInt16; mret (x =? evalue Green));
  w ← writing (WriteEnum Int8 (evalue Low));
  CHECK_BYTES 651 (GetSpan w) [0x80] ;;
  x ← on_local w TakeBuffer;
  let r := reader x.1 in
  r ← CHECK_ON 654 "CHECK(r.ReadEnum<Signed>() == Signed::Low)" r (x ← ReadEnum Int8; mret (x =? evalue Low));
  bytes ← serialize Blue;
  CHECK_DO 657 "CHECK(Deserialize<Color>(bytes) == Color::Blue)" (back ← deserialize Color bytes; mret (evalue back =? evalue Blue)) ;;
  mret tt.

Definition test_extended : T unit :=
  BeginCase (c_literal "map / tuple / enum") ;;
  let m := StdMap [(i32 1, i32 10); (i32 2, i32 20); (i32 3, i32 30)] in
  trip 615 "CHECK((r.ReadMap<int32_t, int32_t>() == m))" (WriteMap (C := std_map int32 int32) (K := int32) (V := int32) m)
    (ReadMap (C := std_map int32 int32) (K := int32) (V := int32)) m ;;
  hashed_maps ;;
  let m := StdMap [(str "a", i32 1); (str "b", i32 2)] in
  trip 625 "CHECK((r.ReadMap<std::string, int32_t>() == m))" (WriteMap (C := std_map string int32) (K := string) (V := int32) m)
    (ReadMap (C := std_map string int32) (K := string) (V := int32)) m ;;
  bytes ← serialize (StdMap [(i32 1, packet_of 1 "one"); (i32 2, packet_of 2 "two")]);
  back ← deserialize (std_map int32 MacroPacket) bytes;
  CHECK_DO 630 "CHECK(back.size() == 2 && back.at(2).name == \qtwo\q)" (if zlen (nodes back) =? 2 then p ← map_at (i32 2) back; mret (packet_named "two" p) else mret false) ;;
  tuples ;;
  bytes ← serialize (i32 1, i32 2);
  CHECK_BYTES 642 bytes [0x01; 0; 0; 0; 0x02; 0; 0; 0] ;;
  CHECK_DO 643 "CHECK((Deserialize<std::pair<int32_t, int32_t>>(bytes) == p))" (back ← deserialize (int32 * int32) bytes; mret (bool_decide (back = (i32 1, i32 2)))) ;;
  enums.

(** *** Optionals, unmanaged structs, unions *)

Definition optional_ints : T unit :=
  let some := Some (i32 42) in
  bytes ← serialize some;
  CHECK_BYTES 667 bytes [0x01; 0; 0; 0; 0x2A; 0; 0; 0] ;;
  CHECK_DO 668 "CHECK(Deserialize<std::optional<int32_t>>(bytes) == some)" (back ← deserialize (option int32) bytes; mret (bool_decide (back = some))) ;;
  noneBytes ← serialize (None : option int32);
  CHECK_BYTES 672 noneBytes [0; 0; 0; 0; 0; 0; 0; 0] ;;
  CHECK_DO 673 "CHECK(!Deserialize<std::optional<int32_t>>(noneBytes).has_value())" (back ← deserialize (option int32) noneBytes; mret (negb (has_value back))) ;;
  mret tt.

Definition optional_strings : T unit :=
  bytes ← serialize (None : option string);
  CHECK_BYTES 677 bytes [0xFF; 0xFF; 0xFF; 0xFF] ;;
  CHECK_DO 678 "CHECK(!Deserialize<std::optional<std::string>>(bytes).has_value())" (back ← deserialize (option string) bytes; mret (negb (has_value back))) ;;
  let some := Some (str "hi") in
  CHECK_DO 681 "CHECK(Deserialize<std::optional<std::string>>(Serialize(some)) == some)" (bytes ← serialize some; back ← deserialize (option string) bytes; mret (bool_decide (back = some))) ;;
  mret tt.

Definition optional_vectors : T unit :=
  nullBytes ← serialize (None : option (vector int32));
  CHECK_BYTES 685 nullBytes [0xFF; 0xFF; 0xFF; 0xFF] ;;
  CHECK_DO 686 "CHECK(!Deserialize<std::optional<std::vector<int32_t>>>(nullBytes).has_value())" (back ← deserialize (option (vector int32)) nullBytes; mret (negb (has_value back))) ;;
  emptyBytes ← serialize (Some (ints []));
  CHECK_BYTES 690 emptyBytes [0; 0; 0; 0] ;;
  backEmpty ← deserialize (option (vector int32)) emptyBytes;
  CHECK 692 "CHECK(backEmpty.has_value() && backEmpty->empty())" (holds (λ v, empty (elements v)) backEmpty) ;;
  mret tt.

Definition optional_objects : T unit :=
  bytes ← serialize (None : option MacroPacket);
  CHECK_BYTES 696 bytes [0xFF] ;;
  CHECK_DO 697 "CHECK(!Deserialize<std::optional<MacroPacket>>(bytes).has_value())" (back ← deserialize (option MacroPacket) bytes; mret (negb (has_value back))) ;;
  bytes ← serialize (Some (packet_of 5 "s"));
  back ← deserialize (option MacroPacket) bytes;
  CHECK 701 "CHECK(back.has_value() && back->id == 5)" (holds (λ p, pval (MacroPacket_id p) =? 5) back) ;;
  mret tt.

Definition nullable_structs : T unit :=
  w ← writing (WriteNullableObject (Some (packet_of 1 "m")));
  CHECK_DO 705 "CHECK(w.Size() > 0 && w.Data()[0] == 0x01)" (if w_Size w >? 0 then b ← at_ (Data w) 0; mret (b =? 0x01) else mret false) ;;
  x ← on_local (reader (GetSpan w)) (ReadNullableObject (T := MacroPacket)); let back := x.1 in
  CHECK 708 "CHECK(back.has_value() && back->name == \qm\q)" (holds (packet_named "m") back) ;;
  check_written 712 (WriteNullableObject (None : option MacroPacket)) [0xFF].

Definition smart_pointers : T unit :=
  bytes ← serialize (Pointer (Some (packet_of 3 "u")));
  back ← deserialize (pointer MacroPacket) bytes;
  CHECK 718 "CHECK(back && back->id == 3)" (holds (λ p, pval (MacroPacket_id p) =? 3) (pointee back)) ;;
  nullBytes ← serialize (Pointer (None : option MacroPacket));
  CHECK_BYTES 722 nullBytes [0xFF].

Definition test_optionals : T unit :=
  BeginCase (c_literal "optional / nullable") ;;
  optional_ints ;;
  optional_strings ;;
  optional_vectors ;;
  optional_objects ;;
  nullable_structs ;;
  smart_pointers.

(** Vectors of structs compare element by element. *)
Fixpoint points_eq (a b : list PlainVec3) : bool :=
  match a, b with
  | [], [] => true
  | x :: a', y :: b' => PlainVec3_eq x y && points_eq a' b'
  | _, _ => false
  end.

Definition test_unmanaged : T unit :=
  BeginCase (c_literal "unmanaged structs") ;;
  let v := vec3 (float_of 3 (-1)) (float_of 5 (-1)) (float_of 7 (-1)) in
  bytes ← serialize v;
  CHECK 729 "CHECK(bytes.size() == 12)" (zlen bytes =? 12) ;;
  CHECK_DO 730 "CHECK(Deserialize<PlainVec3>(bytes) == v)" (back ← deserialize PlainVec3 bytes; mret (PlainVec3_eq back v)) ;;
  let points := [vec3 (float_of 1 0) (float_of 2 0) (float_of 3 0); vec3 (float_of 4 0) (float_of 5 0) (float_of 6 0)] in
  w ← writing (WriteUnmanagedCollection um_rep points);
  CHECK 736 "CHECK(w.Size() == 4 + 2 * 12)" (w_Size w =? 4 + 2 * 12) ;;
  x ← on_local (reader (GetSpan w)) (ReadUnmanagedCollection (um_rep (T := PlainVec3)));
  CHECK 741 "CHECK(back == points)" (points_eq x.1 points) ;;
  optBytes ← serialize (Some v);
  CHECK 746 "CHECK(optBytes.size() == 16)" (zlen optBytes =? 16) ;;
  CHECK_DO 747 "CHECK(optBytes[0] == 1)" (b ← at_ optBytes 0; mret (b =? 1)) ;;
  CHECK_DO 748 "CHECK(Deserialize<std::optional<PlainVec3>>(optBytes) == some)" (back ← deserialize (option PlainVec3) optBytes; mret (holds (λ p, PlainVec3_eq p v) back)) ;;
  noneBytes ← serialize (None : option PlainVec3);
  CHECK_DO 752 "CHECK(noneBytes.size() == 16 && noneBytes[0] == 0)" (if zlen noneBytes =? 16 then b ← at_ noneBytes 0; mret (b =? 0) else mret false) ;;
  CHECK_DO 753 "CHECK(!Deserialize<std::optional<PlainVec3>>(noneBytes).has_value())" (back ← deserialize (option PlainVec3) noneBytes; mret (negb (has_value back))) ;;
  mret tt.

(** Two objects of [size] bytes, all 0x00 and all 0xFF before [fill]. *)
Definition SerializesDeterministically {V} `{!MemoryPackFormatter V} (make : list Z → V) (size : nat) (fill : list Z → list Z) : T bool :=
  a ← serialize (make (fill (replicate size 0x00)));
  b ← serialize (make (fill (replicate size 0xFF)));
  mret (bool_decide (a = b)).

Definition kValue : Z := 0x11223344.

(** The lambda [encode]. *)
Definition encode : T (list Z) := serialize (MkPaddedPair (fill_pair 4 3 kValue (replicate 8 0))).

(** The array of noise is not read. *)
Definition test_unmanaged_padding : T unit :=
  BeginCase (c_literal "unmanaged structs / padding is deterministic when value-initialized") ;;
  first ← encode;
  second ← encode;
  CHECK 795 "CHECK(first.size() == 8)" (zlen first =? 8) ;;
  CHECK_BYTES 796 first [0x03; 0x00; 0x00; 0x00; 0x44; 0x33; 0x22; 0x11] ;;
  CHECK_BYTES_EQ 797 first second "value-initialized structs must serialize reproducibly" ;;
  packed ← serialize (MkPackedPair (fill_pair 1 3 kValue (replicate 5 0)));
  CHECK 805 "CHECK(packed.size() == 5)" (zlen packed =? 5) ;;
  CHECK_BYTES 806 packed [0x03; 0x44; 0x33; 0x22; 0x11] ;;
  CHECK_DO 808 "CHECK(Deserialize<PaddedPair>(first) == PaddedPair{3, 0x11223344})" (back ← deserialize PaddedPair first; mret (pair_eq 4 (PaddedPair_bytes back) (fill_pair 4 3 kValue (replicate 8 0)))) ;;
  CHECK_DO 809 "CHECK(Deserialize<PackedPair>(packed) == PackedPair{3, 0x11223344})" (back ← deserialize PackedPair packed; mret (pair_eq 1 (PackedPair_bytes back) (fill_pair 1 3 kValue (replicate 5 0)))) ;;
  CHECK_DO 820 "CHECK(!SerializesDeterministically<PaddedPair>(fillPair))" (b ← SerializesDeterministically MkPaddedPair 8 (fill_pair 4 3 kValue); mret (negb b)) ;;
  CHECK_DO 825 "CHECK(SerializesDeterministically<ScrubbedPair>(fillPair))" (SerializesDeterministically MkScrubbedPair 8 (fill_pair 4 3 kValue)) ;;
  CHECK_DO 829 "CHECK(SerializesDeterministically<PackedPair>(fillPair))" (SerializesDeterministically MkPackedPair 5 (fill_pair 1 3 kValue)) ;;
  mret tt.

Definition is_AltA (v : Alt) : option AltA := if v is inl a then Some a else None.
Definition is_AltB (v : Alt) : option AltB := if v is inr b then Some b else None.

(** [std::get<A>(v)], which throws for another alternative. *)
Definition get_ {A} (o : option A) : T A := match o with Some a => mret a | None => undefined end.

Definition test_unions : T unit :=
  BeginCase (c_literal "union / variant") ;;
  bytes ← serialize (inl (MkAltA (i32 7)) : Alt);
  CHECK_BYTES 836 bytes [0x00; 0x01; 0x07; 0; 0; 0] ;;
  back ← deserialize Alt bytes;
  CHECK 838 "CHECK(std::holds_alternative<AltA>(back))" (has_value (is_AltA back)) ;;
  CHECK_DO 839 "CHECK(std::get<AltA>(back).a == 7)" (a ← get_ (is_AltA back); mret (pval (AltA_a a) =? 7)) ;;
  bytes ← serialize (inr (MkAltB (str "wide")) : Alt);
  CHECK 843 "CHECK(bytes.size() >= 4)" (zlen bytes >=? 4) ;;
  CHECK_DO 844 "CHECK(bytes[0] == 0xFA && bytes[1] == 0x2C && bytes[2] == 0x01)" (b0 ← at_ bytes 0; b1 ← at_ bytes 1; b2 ← at_ bytes 2; mret ((b0 =? 0xFA) && (b1 =? 0x2C) && (b2 =? 0x01))) ;;
  back ← deserialize Alt bytes;
  CHECK 846 "CHECK(std::holds_alternative<AltB>(back))" (has_value (is_AltB back)) ;;
  CHECK_DO 847 "CHECK(std::get<AltB>(back).b == \qwide\q)" (b ← get_ (is_AltB back); mret (bool_decide (AltB_b b = str "wide"))) ;;
  bytes ← serialize (None : option Alt);
  CHECK_BYTES 851 bytes [0xFF] ;;
  CHECK_DO 852 "CHECK(!Deserialize<std::optional<Alt>>(bytes).has_value())" (back ← deserialize (option Alt) bytes; mret (negb (has_value back))) ;;
  bytes ← serialize (Some (inl (MkAltA (i32 1)) : Alt));
  back ← deserialize (option Alt) bytes;
  CHECK 856 "CHECK(back.has_value() && std::holds_alternative<AltA>(*back))" (holds (λ v, has_value (is_AltA v)) back) ;;
  mret tt.

(** *** VersionTolerant *)

(** [{ VersionTolerantWriter vt(w); m; }]: the destructor flushes. *)
Definition vt_scope (m : VW unit) : W unit := λ w,
  match m (NewVTWriter w) with
  | (Ret _, s) => match vt_Destroy s with (o, s') => (o, vt_out s') end
  | (o, s) => match vt_Destroy s with (_, s') => (o, vt_out s') end
  end.

(** [VersionTolerantReader vt(r);] *)
Definition vt_reader (data : list Z) : T VersionTolerantReader :=
  x ← on_local (reader data) NewVTReader;
  let '((lengths, count, next, null), r) := x in
  mret (MkVTReader r lengths count 0 next null).

Definition varint_lengths : T unit :=
  w ← writing (WriteVarIntLength 4 ;; WriteVarIntLength 127 ;; WriteVarIntLength 130 ;; WriteVarIntLength 70000);
  CHECK_BYTES 870 (GetSpan w) [0x04; 0x7F; 0x84; 0x82; 0x00; 0x82; 0x70; 0x11; 0x01; 0x00] ;;
  let r := reader (GetSpan w) in
  r ← CHECK_ON 877 "CHECK(r.ReadVarIntLength() == 4)" r (x ← ReadVarIntLength; mret (x =? 4));
  r ← CHECK_ON 878 "CHECK(r.ReadVarIntLength() == 127)" r (x ← ReadVarIntLength; mret (x =? 127));
  r ← CHECK_ON 879 "CHECK(r.ReadVarIntLength() == 130)" r (x ← ReadVarIntLength; mret (x =? 130));
  r ← CHECK_ON 880 "CHECK(r.ReadVarIntLength() == 70000)" r (x ← ReadVarIntLength; mret (x =? 70000));
  mret tt.

Definition three_members : T unit :=
  w ← writing (vt_scope (WriteMember (i32 77) ;; WriteMember (str "vt") ;; WriteMember (f32 1 (-1))));
  CHECK_BYTES 890 (GetSpan w)
    ([0x03; 0x04; 0x0A; 0x04; 0x4D; 0; 0; 0; 0xFD; 0xFF; 0xFF; 0xFF; 0x02; 0; 0; 0] ++ c_literal "vt" ++ [0x00; 0x00; 0x00; 0x3F]) ;;
  vt ← vt_reader (GetSpan w);
  CHECK 898 "CHECK(!vt.IsNull())" (negb (vr_IsNull vt)) ;;
  CHECK 899 "CHECK(vt.Count() == 3)" (vr_Count vt =? 3) ;;
  x ← on_local vt (ReadMember (i32 0)); let '((ok, id), vt) := x in
  CHECK 901 "CHECK(vt.ReadMember(id))" (ok : bool) ;;
  x ← on_local vt (ReadMember (Str [])); let '((ok, name), vt) := x in
  CHECK 902 "CHECK(vt.ReadMember(name))" (ok : bool) ;;
  x ← on_local vt (ReadMember (Prim 0 : prim Float32)); let '((ok, score), vt) := x in
  CHECK 903 "CHECK(vt.ReadMember(score))" (ok : bool) ;;
  x ← on_local vt vr_Finish; let vt := x.2 in
  CHECK 905 "CHECK(id == 77 && name == \qvt\q && score == 0.5f)" ((pval id =? 77) && bool_decide (name = str "vt") && float_eq (pval score) (float_of 1 (-1))) ;;
  CHECK 906 "CHECK(r.IsEnd())" (IsEnd (vr_in vt)) ;;
  mret tt.

Definition fewer_members : T unit :=
  w ← writing (vt_scope (WriteMember (i32 1) ;; WriteMember (str "dropped") ;; WriteMember (i32 2)) ;; WriteInt32 0x5A5A5A5A);
  vt ← vt_reader (GetSpan w);
  x ← on_local vt (ReadMember (i32 0)); let '((ok, first), vt) := x in
  CHECK 921 "CHECK(vt.ReadMember(first))" (ok : bool) ;;
  x ← on_local vt vr_Finish; let r := vr_in x.2 in
  CHECK 923 "CHECK(first == 1)" (pval first =? 1) ;;
  r ← CHECK_ON 924 "CHECK(r.ReadInt32() == 0x5A5A5A5A)" r (x ← ReadInt32; mret (x =? 0x5A5A5A5A));
  CHECK 925 "CHECK(r.IsEnd())" (IsEnd r) ;;
  mret tt.

Definition test_version_tolerant : T unit :=
  BeginCase (c_literal "version tolerant") ;;
  varint_lengths ;;
  three_members ;;
  fewer_members.

(** *** Buffers *)

(** [std::array<uint8_t, n> buf{}; MemoryPackWriter w(buf);] *)
Definition array_writer (n : Z) : MemoryPackWriter := WriterOfBuffer (Some (replicate (Z.to_nat n) 0)) n.

Definition external_vectors : T unit :=
  x ← on_local (WriterOfVector []) (WriteInt32 123); let w := x.2 in
  let ext := default [] (vec_ w) in
  CHECK 935 "CHECK(ext.size() == 4)" (zlen ext =? 4) ;;
  CHECK 936 "CHECK(w.Size() == 4)" (w_Size w =? 4) ;;
  let sendBuffer := replicate 6 0 in
  let headerSize := zlen sendBuffer in
  x ← on_local (WriterOfVector sendBuffer) (Write (packet_of 1 "hdr")); let w := x.2 in
  let sendBuffer := default [] (vec_ w) in
  CHECK 944 "CHECK(sendBuffer.size() == w.Size())" (zlen sendBuffer =? w_Size w) ;;
  let bodyLen := size_sub (zlen sendBuffer) headerSize in
  CHECK_DO 946 "CHECK(bodyLen == Serialize(MacroPacket{1, \qhdr\q}).size())" (bytes ← serialize (packet_of 1 "hdr"); mret (bodyLen =? zlen bytes)) ;;
  mret tt.

Definition fixed_arrays : T unit :=
  x ← on_local (array_writer 8) (WriteInt32 1 ;; WriteInt32 2); let w := x.2 in
  CHECK 951 "CHECK(w.Size() == 8)" (w_Size w =? 8) ;;
  CHECK 952 "CHECK(w.RemainingCapacity() == 0)" (RemainingCapacity w =? 0) ;;
  x ← on_local (array_writer 8) (WriteInt32 1 ;; Clear); let w := x.2 in
  CHECK 957 "CHECK(w.Size() == 0)" (w_Size w =? 0) ;;
  x ← on_local w (WriteInt16 7); let w := x.2 in
  CHECK 959 "CHECK(w.Size() == 2)" (w_Size w =? 2) ;;
  mret tt.

Definition taken_and_moved : T unit :=
  x ← on_local NewWriter (WriteInt32 1 ;; TakeBuffer); let '(first, w) := x in
  CHECK 964 "CHECK(first.size() == 4)" (zlen first =? 4) ;;
  CHECK 965 "CHECK(w.Size() == 0)" (w_Size w =? 0) ;;
  x ← on_local w (WriteInt64 2 ;; TakeBuffer); let second := x.1 in
  CHECK 968 "CHECK(second.size() == 8)" (zlen second =? 8) ;;
  w ← writing (WriteInt32 5);
  let moved := (MoveWriter w).1 in
  x ← on_local moved (WriteInt32 6); let moved := x.2 in
  CHECK 974 "CHECK(moved.Size() == 8)" (w_Size moved =? 8) ;;
  x ← on_local moved TakeBuffer;
  let r := reader x.1 in
  r ← CHECK_ON 977 "CHECK(r.ReadInt32() == 5)" r (x ← ReadInt32; mret (x =? 5));
  r ← CHECK_ON 978 "CHECK(r.ReadInt32() == 6)" r (x ← ReadInt32; mret (x =? 6));
  mret tt.

(** [Serialize(value, out);] *)
Definition serialize_into {V} `{!MemoryPackFormatter V} (value : V) (out : list Z) : T (list Z) :=
  let '(o, out) := SerializeInto value out in
  lift_outcome o ;;
  mret out.

Definition test_buffers : T unit :=
  BeginCase (c_literal "buffers") ;;
  external_vectors ;;
  fixed_arrays ;;
  taken_and_moved ;;
  let '(o, buf) := SerializeTo (Some (replicate 64 0)) (packet_of 9 "fix") in
  n ← lift_outcome o;
  CHECK 982 "CHECK(n > 0)" (n >? 0) ;;
  back ← deserialize MacroPacket (slice 0 n (default [] buf));
  CHECK 984 "CHECK(back.id == 9 && back.name == \qfix\q)" (is_packet 9 "fix" back) ;;
  out ← serialize_into (packet_of 1 "a") [];
  let afterFirst := zlen out in
  out ← serialize_into (packet_of 2 "b") out;
  CHECK 990 "CHECK(out.size() > afterFirst)" (zlen out >? afterFirst) ;;
  let r := reader out in
  r ← CHECK_ON 992 "CHECK(r.Read<MacroPacket>().name == \qa\q)" r (p ← Read; mret (packet_named "a" p));
  r ← CHECK_ON 993 "CHECK(r.Read<MacroPacket>().name == \qb\q)" r (p ← Read; mret (packet_named "b" p));
  CHECK 994 "CHECK(r.IsEnd())" (IsEnd r) ;;
  mret tt.

(** *** Errors and hostile input *)

(** The block [MemoryPackReader r(data, options); (void)m; return r.Failed();] *)
Definition fails_reading {A} (data : list Z) (options : ReaderOptions) (m : R A) : T bool :=
  x ← on_local (NewReader data options) m;
  mret (Failed x.2).

(** ... and [MemoryPackWriter w; m; return w.Failed();] *)
Definition fails_writing (w : MemoryPackWriter) (m : W unit) : T bool :=
  x ← on_local w m;
  mret (w_Failed x.2).

Definition bomb : list Z := [0xFF; 0xFF; 0xFF; 0x7F].

Definition test_errors : T unit :=
  BeginCase (c_literal "errors / bounds") ;;
  CHECK_FAILS 1003 "fixed buffer overflow" (fails_writing (array_writer 2) (WriteInt32 1)) ;;
  CHECK_FAILS 1011 "reader underflow" (fails_reading [0] DefaultOptions ReadInt32) ;;
  CHECK_FAILS 1019 "truncated utf-8 string" (fails_reading [0xFC; 0xFF; 0xFF; 0xFF; 0x03; 0; 0; 0; 0x41] DefaultOptions ReadString) ;;
  CHECK_FAILS 1027 "reserved object header" (fails_reading [0xFB] DefaultOptions ReadObjectHeader) ;;
  CHECK_FAILS 1035 "reserved union header" (fails_reading [0xFC] DefaultOptions ReadUnionHeader) ;;
  CHECK_FAILS 1043 "member count above 249" (fails_writing NewWriter (WriteObjectHeader 250)) ;;
  CHECK_FAILS 1051 "vector length bomb" (fails_reading bomb DefaultOptions (ReadVector Int32)) ;;
  CHECK_FAILS 1057 "unordered_map length bomb" (fails_reading bomb DefaultOptions (ReadUnorderedMap (C := unordered_map int32 int32) (K := int32) (V := int32))) ;;
  CHECK_FAILS 1063 "map length bomb" (fails_reading bomb DefaultOptions (ReadMap (C := std_map int32 int32) (K := int32) (V := int32))) ;;
  CHECK_FAILS 1069 "string vector length bomb" (fails_reading bomb DefaultOptions ReadStringVector) ;;
  CHECK_FAILS 1075 "object collection length bomb" (fails_reading bomb DefaultOptions (ReadCollection (T := MacroPacket))) ;;
  CHECK_FAILS 1081 "string length bomb" (fails_reading ([0x00; 0x00; 0x00; 0x80] ++ bomb) DefaultOptions ReadString) ;;
  CHECK_FAILS 1090 "negative collection length" (fails_reading [0xFE; 0xFF; 0xFF; 0xFF] DefaultOptions (ReadCollectionLength 4)) ;;
  CHECK_FAILS 1098 "seek past end" (fails_reading [1; 2; 3; 4] DefaultOptions (Seek 99)) ;;
  CHECK_FAILS 1106 "unknown varint marker" (fails_reading [0x90; 0x00] DefaultOptions ReadVarIntLength).

Definition strict : ReaderOptions := MkOptions 3 (maxStringLength DefaultOptions) (maxDepth DefaultOptions).
Definition shortStrings : ReaderOptions := MkOptions (maxCollectionLength DefaultOptions) 4 (maxDepth DefaultOptions).
Definition shallow : ReaderOptions := MkOptions (maxCollectionLength DefaultOptions) (maxStringLength DefaultOptions) 0.

Definition test_reader_limits : T unit :=
  BeginCase (c_literal "errors / configurable limits") ;;
  bytes ← serialize (ints [1; 2; 3; 4; 5]);
  CHECK_FAILS 1118 "collection above the configured limit" (fails_reading bytes strict (ReadVector Int32)) ;;
  let ok := reader bytes in
  ok ← CHECK_ON 1128 "CHECK(ok.ReadVector<int32_t>().size() == 5)" ok (l ← ReadVector Int32; mret (zlen l =? 5));
  text ← serialize (str "abcdefghij");
  CHECK_FAILS 1131 "string above the configured limit" (fails_reading text shortStrings ReadString) ;;
  nested ← serialize (packet_of 1 "x");
  CHECK_FAILS 1141 "object nested deeper than the configured limit" (fails_reading nested shallow (Read (T := MacroPacket))).

Definition test_deserialize_exact : T unit :=
  BeginCase (c_literal "errors / trailing bytes") ;;
  bytes ← serialize (packet_of 1 "x");
  let bytes := bytes ++ [0xAA] in
  lenient ← deserialize MacroPacket bytes;
  CHECK 1157 "CHECK(lenient.id == 1)" (pval (MacroPacket_id lenient) =? 1) ;;
  CHECK_FAILS 1163 "DeserializeExact reports trailing bytes"
    (fails_reading bytes DefaultOptions (v ← ReadInto (default_value : MacroPacket); RequireEnd)).

Definition test_reader_navigation : T unit :=
  BeginCase (c_literal "reader / navigation") ;;
  bytes ← written (WriteInt32 1 ;; WriteInt32 2 ;; WriteInt32 3);
  let r := reader bytes in
  r ← CHECK_ON 1181 "CHECK(r.ReadInt32() == 1)" r (x ← ReadInt32; mret (x =? 1));
  CHECK 1182 "CHECK(r.Position() == 4)" (Position r =? 4) ;;
  x ← on_local r (Seek 8); let r := x.2 in
  r ← CHECK_ON 1184 "CHECK(r.ReadInt32() == 3)" r (x ← ReadInt32; mret (x =? 3));
  CHECK 1185 "CHECK(r.IsEnd())" (IsEnd r) ;;
  let r := ResetReader r in
  CHECK 1187 "CHECK(r.Position() == 0)" (Position r =? 0) ;;
  r ← CHECK_ON 1188 "CHECK(r.ReadInt32() == 1)" r (x ← ReadInt32; mret (x =? 1));
  let r := ResetReader r in
  x ← on_local r (SubReader 8); let '(sub, r) := x in
  CHECK 1193 "CHECK(sub.Remaining() == 8)" (Remaining sub =? 8) ;;
  sub ← CHECK_ON 1194 "CHECK(sub.ReadInt32() == 1)" sub (x ← ReadInt32; mret (x =? 1));
  sub ← CHECK_ON 1195 "CHECK(sub.ReadInt32() == 2)" sub (x ← ReadInt32; mret (x =? 2));
  CHECK 1196 "CHECK(sub.IsEnd())" (IsEnd sub) ;;
  CHECK 1197 "CHECK(r.Position() == 8)" (Position r =? 8) ;;
  r ← CHECK_ON 1198 "CHECK(r.ReadInt32() == 3)" r (x ← ReadInt32; mret (x =? 3));
  mret tt.

(** *** [std::expected] *)

Definition value_of {A} (e : MemoryPackError + A) : option A := if e is inr a then Some a else None.
Definition error_of {A} (e : MemoryPackError + A) : option MemoryPackError := if e is inl e then Some e else None.

Definition test_expected_api : T unit :=
  BeginCase (c_literal "std::expected API") ;;
  good ← serialize (packet_of 4 "ok");
  ok ← lift_outcome (TryDeserialize (T := MacroPacket) good);
  CHECK 1206 "CHECK(ok.has_value())" (has_value (value_of ok)) ;;
  CHECK 1207 "CHECK(ok && ok->id == 4)" (holds (λ p, pval (MacroPacket_id p) =? 4) (value_of ok)) ;;
  bad ← lift_outcome (TryDeserialize (T := MacroPacket) [0x02; 0x01]);
  CHECK 1211 "CHECK(!bad.has_value())" (negb (has_value (value_of bad))) ;;
  CHECK 1212 "CHECK(!bad && bad.error() == MemoryPackError::BufferUnderflow)" (bool_decide (error_of bad = Some BufferUnderflow)) ;;
  small ← lift_outcome (TrySerializeTo (Some [0; 0]) (packet_of 1 "too long")).1;
  CHECK 1216 "CHECK(!small.has_value())" (negb (has_value (value_of small))) ;;
  CHECK 1217 "CHECK(!small && small.error() == MemoryPackError::BufferOverflow)" (bool_decide (error_of small = Some BufferOverflow)) ;;
  fits ← lift_outcome (TrySerializeTo (Some (replicate 64 0)) (packet_of 1 "ok")).1;
  CHECK 1221 "CHECK(fits.has_value())" (has_value (value_of fits)) ;;
  mret tt.

(** *** Packet framing *)

(** [parser.Feed(bytes, onPacket)] where the callback captures the locals [l] by reference. *)
Definition feed {L} (parser : PacketFrameParser) (bytes : list Z) (l : L)
    (onPacket : Z → list Z → M (L * program (mptest * unit)) unit) : T (bool * PacketFrameParser * L) := λ p,
  match Feed bytes onPacket (parser, (l, p)) with
  | (Ret ok, (parser', (l', p'))) => (Ret (ok, parser', l'), p')
  | (Throw e off, (_, (_, p'))) => (Throw e off, p')
  | (UB, (_, (_, p'))) => (UB, p')
  end.

(** What a callback does besides changing its locals. *)
Definition in_program {L A} (m : T A) : M (L * program (mptest * unit)) A := λ s,
  match m s.2 with (o, p) => (o, (s.1, p)) end.

(** The callbacks of the two parsers; the local is the number of packets so far. *)
Definition count_framed (id : Z) (body : list Z) : M (Z * program (mptest * unit)) unit :=
  modify (λ s, (s.1 + 1, s.2)) ;;
  in_program (
  CHECK 1242 "CHECK(id == 101)" (id =? 101) ;;
  v ← deserialize MacroPacket body;
  CHECK 1244 "CHECK(v.id == 7 && v.name == \qframed\q)" (is_packet 7 "framed" v) ;;
  mret tt).

Definition count_ids (id : Z) (_ : list Z) : M (Z * program (mptest * unit)) unit :=
  modify (λ s, (s.1 + 1, s.2)) ;;
  n ← gets fst;
  in_program (CHECK 1257 "CHECK(id == static_cast<uint16_t>(count))" (id =? n mod 2 ^ 16)).

(** [size_t maxBodyLength = 8u * 1024u * 1024u]. *)
Definition default_parser : PacketFrameParser := NewParser (8 * 1024 * 1024).

Definition feed_byte (s : PacketFrameParser * Z) (byte : Z) : T (PacketFrameParser * Z) :=
  x ← feed s.1 [byte] s.2 count_framed;
  let '(ok, parser, delivered) := x in
  CHECK 1246 "CHECK(ok)" (ok : bool) ;;
  mret (parser, delivered).

(** [WritePacket(out, id, body);] *)
Definition write_packet {V} `{!MemoryPackFormatter V} (out : list Z) (id : Z) (body : V) : T (list Z) :=
  let '(o, out) := WritePacket out id body in
  lift_outcome o ;;
  mret out.

Definition test_packet_framing : T unit :=
  BeginCase (c_literal "packet framing") ;;
  packet ← lift_outcome (MakePacket 101 (packet_of 7 "framed"));
  let header := PeekPacketHeader packet in
  CHECK 1231 "CHECK(header.has_value())" (has_value header) ;;
  CHECK 1232 "CHECK(header && header->id == 101)" (holds (λ h, ph_id h =? 101) header) ;;
  CHECK 1233 "CHECK(header && static_cast<size_t>(header->bodyLength) == packet.size() - PACKET_HEADER_SIZE)" (holds (λ h, ph_bodyLength h mod size_mod =? size_sub (zlen packet) HeaderSize_) header) ;;
  s ← fold_loop feed_byte packet (default_parser, 0);
  let '(parser, delivered) := s in
  CHECK 1248 "CHECK(delivered == 1)" (delivered =? 1) ;;
  CHECK 1249 "CHECK(parser.Buffered() == 0)" (Buffered parser =? 0) ;;
  two ← write_packet [] 1 (packet_of 1 "a");
  two ← write_packet two 2 (packet_of 2 "b");
  x ← feed default_parser two 0 count_ids;
  let '(ok, _, count) := x in
  CHECK 1257 "CHECK(p2.Feed(two, [&](uint16_t id, std::span<const uint8_t>) { ++count; CHECK(id == static_cast<uint16_t>(count)); }))" ok ;;
  CHECK 1261 "CHECK(count == 2)" (count =? 2) ;;
  let hostile := [0; 0; 0xFF; 0xFF; 0xFF; 0x7F] in
  x ← feed (NewParser 16) hostile tt (λ _ _, mret tt);
  CHECK 1267 "CHECK(!guarded.Feed(hostile, [](uint16_t, std::span<const uint8_t>) {}))" (negb x.1.1) ;;
  mret tt.

(** *** .NET types *)

Definition seconds : Z * Z := (1, 1).
Definition guid_text : list Z := c_literal "01020304-0506-0708-090a-0b0c0d0e0f10".

Definition guids : T unit :=
  let guid := Guid_Parse guid_text in
  CHECK 1275 "CHECK(guid.has_value())" (has_value guid) ;;
  CHECK 1276 "CHECK(guid && guid->ToString() == \q01020304-0506-0708-090a-0b0c0d0e0f10\q)" (holds (λ g, bool_decide (Guid_ToString g = guid_text)) guid) ;;
  CHECK 1277 "CHECK(!Guid::Parse(\qnot-a-guid\q).has_value())" (negb (has_value (Guid_Parse (c_literal "not-a-guid")))) ;;
  CHECK 1278 "CHECK(!Guid::Parse(\q01020304-0506-0708-090a-0b0c0d0e0f1\q).has_value())" (negb (has_value (Guid_Parse (c_literal "01020304-0506-0708-090a-0b0c0d0e0f1")))) ;;
  match guid with
  | Some guid =>
      bytes ← serialize guid;
  CHECK 1281 "CHECK(bytes.size() == 16)" (zlen bytes =? 16) ;;
  CHECK_DO 1282 "CHECK(Deserialize<Guid>(bytes) == *guid)" (back ← deserialize Guid bytes; mret (Guid_eq back guid)) ;;
      mret tt
  | None => mret tt
  end.

Definition date_and_span : T unit :=
  let dt := FromTicks 638000000000000000 (kind_value Utc) in
  CHECK 1286 "CHECK(dt.GetKind() == DateTimeKind::Utc)" (GetKind dt =? kind_value Utc) ;;
  CHECK 1287 "CHECK(dt.GetTicks() == 638000000000000000LL)" (GetTicks dt =? 638000000000000000) ;;
  CHECK_DO 1288 "CHECK(Deserialize<DateTime>(Serialize(dt)) == dt)" (bytes ← serialize dt; back ← deserialize DateTime bytes; mret (DateTime_eq back dt)) ;;
  ts ← defined (FromDuration seconds 90);
  CHECK 1291 "CHECK(ts.ticks == 900000000LL)" (ticks ts =? 900000000) ;;
  CHECK_DO 1292 "CHECK(ts.ToDuration() == std::chrono::seconds(90))" (d ← defined (ToDuration ts); mret (d =? 90 * 1000000000)) ;;
  mret tt.

Definition half_floats : list Z :=
  [0; float_of 1 0; float_of (-1) 0; float_of 3 (-1); float_of 1 (-1); float_of 65504 0; float_of (-1) (-2)].

Definition half_trip (f : Z) : T unit :=
  CHECK_DO 1296 "CHECK(Half::FromFloat(f).ToFloat() == f)" (x ← defined (ToFloat (FromFloat f)); mret (float_eq x f)) ;;
  mret tt.

Definition halves : T unit :=
  mapM_ half_trip half_floats ;;
  CHECK_DO 1298 "CHECK(std::isinf(Half::FromFloat(1e30f).ToFloat()))" (x ← defined (ToFloat (FromFloat (float_lit (10 ^ 30) 1))); mret (is_inf x)) ;;
  CHECK_DO 1299 "CHECK(std::isnan(Half::FromFloat(std::nanf(\q\q)).ToFloat()))" (x ← defined (ToFloat (FromFloat float_nan)); mret (is_nan x)) ;;
  mret tt.

(** [now] in units of [clock]. *)
Definition chrono (clock : Z * Z) (now : Z) : T unit :=
  dt ← defined (FromTimePoint clock now);
  roundTripped ← defined (ToTimePoint clock dt);
  distance ← defined (int64 (if roundTripped >? now then roundTripped - now else now - roundTripped));
  diff ← defined (duration_cast clock seconds distance);
  CHECK 1305 "CHECK(diff.count() == 0)" (diff =? 0) ;;
  mret tt.

Definition test_dotnet_helpers (clock : Z * Z) (now : Z) : T unit :=
  BeginCase (c_literal ".NET type helpers") ;;
  guids ;;
  date_and_span ;;
  halves ;;
  chrono clock now.

(** *** Generic dispatch *)

Definition test_generic_dispatch : T unit :=
  BeginCase (c_literal "generic Write/Read") ;;
  w ← writing (Write (i32 1) ;; Write (str "two") ;; Write (ints [3; 4]) ;; Write Blue ;; Write (packet_of 5 "five"));
  let r := reader (GetSpan w) in
  r ← CHECK_ON 1320 "CHECK(r.Read<int32_t>() == 1)" r (x ← Read; mret (pval (x : int32) =? 1));
  r ← CHECK_ON 1321 "CHECK(r.Read<std::string>() == \qtwo\q)" r (x ← Read; mret (bool_decide (x = str "two")));
  r ← CHECK_ON 1322 "CHECK((r.Read<std::vector<int32_t>>() == std::vector<int32_t>{3, 4}))" r (x ← Read; mret (bool_decide (x = ints [3; 4])));
  r ← CHECK_ON 1323 "CHECK(r.Read<Color>() == Color::Blue)" r (x ← Read; mret (evalue (x : Color) =? evalue Blue));
  r ← CHECK_ON 1324 "CHECK(r.Read<MacroPacket>().name == \qfive\q)" r (x ← Read; mret (packet_named "five" x));
  CHECK 1325 "CHECK(r.IsEnd())" (IsEnd r) ;;
  mret tt.

Definition main (clock : Z * Z) (now : Z) : T Z :=
  test_primitives ;;
  test_special_floats ;;
  test_golden_bytes ;;
  test_string ;;
  test_string_format ;;
  test_string_bad_surrogates ;;
  test_string_view_and_inplace ;;
  test_utf16_strings ;;
  test_object ;;
  test_define_macro ;;
  test_collections ;;
  test_vector_bool ;;
  test_generic_collections ;;
  test_arrays ;;
  test_extended ;;
  test_optionals ;;
  test_unmanaged ;;
  test_unmanaged_padding ;;
  test_unions ;;
  test_version_tolerant ;;
  test_buffers ;;
  test_errors ;;
  test_reader_limits ;;
  test_deserialize_exact ;;
  test_reader_navigation ;;
  test_expected_api ;;
  test_packet_framing ;;
  test_dotnet_helpers clock now ;;
  test_generic_dispatch ;;
  Summarize "memorypack_tests".
End Tests.
