(* ===== verification/UnitTheorems.v ===== *)
(** The unit tests pass: on every little-endian platform, for every order in which hash
    tables may be traversed, and at any time a [DateTime] can represent. *)
From stdpp Require Import strings gmap.
From S2P Require Import Prelude Endian Writer Reader Headers Utf Strings Formatter Collections Assoc Nullable Objects Union VersionTolerant Unmanaged DotNet Api Packet Text Console Floats TestHarness UnitTypes UnitTests.

Import unit_types.

(** A program is what its parts are. *)
Ltac pointwise tac :=
  lazymatch goal with
  | |- mbind _ _ _ = _ => apply bind_pointwise; [intros ?; tac|intros ? ?; pointwise tac]
  | |- _ => idtac
  end.

(** ** Hash tables *)

(** The orders the tests are run with to see what they do. *)
#[local] Instance list_order : HashOrder (gmap int32 int32) (int32 * int32) := map_to_list.
#[local] Instance element_order : HashOrder (gset string) string := base.elements.

Section HashTables.
Context `{Platform}.

Section AnyOrder.
Context {set_order : HashOrder (gset string) string} `{!SetOrderLaws string}.
Context {map_order : HashOrder (gmap int32 int32) (int32 * int32)} `{!MapOrderLaws int32 int32}.

(** The element ["x"] or ["y"], and an entry of the map. *)
Definition word_bytes (c : Z) : list Z := [0xFE; 0xFF; 0xFF; 0xFF; 1; 0; 0; 0; c].
Definition entry_bytes (k v : Z) : list Z := le_bytes 4 k ++ le_bytes 4 v.

Lemma words_written : ∃ a b, (a, b) ∈ [(120, 121); (121, 120)] ∧
  SerializeNew (UnorderedSet words) = Ret (le_bytes 4 2 ++ word_bytes a ++ word_bytes b).
Proof.
  assert (E : hash_order words = [str "x"; str "y"] ∨ hash_order words = [str "y"; str "x"]).
  { apply Permutation_length_2_inv. rewrite set_order_perm. vm_compute. apply Permutation_refl || apply perm_swap. }
  unfold SerializeNew, Write, Serialize, unordered_set_formatter, SetFormatter_Serialize, c_iterate, unordered_set_container; cbn [Assoc.members].
  destruct E as [-> | ->]; [exists 120, 121|exists 121, 120]; (split; [by vm_compute; set_solver|]).
  all: destruct H as [[] [] [] []]; vm_compute; reflexivity.
Qed.

Lemma words_read a b : (a, b) ∈ [(120, 121); (121, 120)] →
  match DeserializeNew (T := unordered_set string) (le_bytes 4 2 ++ word_bytes a ++ word_bytes b) with
  | Ret s => bool_decide (Assoc.members s = words)
  | _ => false
  end = true.
Proof.
  intros [[= -> ->]|[[= -> ->]|Hab%elem_of_nil]%elem_of_cons]%elem_of_cons; [..|done].
  all: destruct H as [[] [] [] []]; vm_compute; reflexivity.
Qed.

(** What is left of a check that holds. *)
Definition counted `{Build} : M (program (mptest * unit)) unit := count_check ;; mret tt.

Lemma check_holds `{Build} line text (cond : M (program (mptest * unit)) bool) p :
  (∀ p, cond p = (Ret true, p)) → (CHECK_DO line text cond ;; mret tt) p = counted p.
Proof.
  intros Hc. unfold counted, CHECK_DO, mbind, M_bind. destruct (count_check p) as [[[]| |] p']; [|done..]. by rewrite Hc.
Qed.

Lemma hashed_sets_counted `{Build} p : hashed_sets p = counted p.
Proof.
  destruct words_written as (a & b & Hab & E1). pose proof (words_read a b Hab) as E2. 
  unfold hashed_sets, serialize, deserialize. rewrite E1.
  unfold mbind at 1, M_bind at 1. cbn [lift_outcome]. 
  destruct (DeserializeNew _) as [s| |]; [|done..]. apply check_holds. intros p'. unfold mbind, M_bind, lift_outcome. by rewrite E2.
Qed.
(** The entries of the map, in one order or the other. *)
Lemma hundreds_written : ∃ a b, (a, b) ∈ [(1, 2); (2, 1)] ∧ ∃ w,
  (WriteMap (C := unordered_map int32 int32) (K := int32) (V := int32) (UnorderedMap hundreds) ;; TakeBuffer) NewWriter =
  (Ret (le_bytes 4 2 ++ entry_bytes a (100 * a) ++ entry_bytes b (100 * b)), w).
Proof.
  assert (E : hash_order hundreds = [(i32 1, i32 100); (i32 2, i32 200)] ∨ hash_order hundreds = [(i32 2, i32 200); (i32 1, i32 100)]).
  { apply Permutation_length_2_inv. rewrite map_order_perm. vm_compute. apply Permutation_refl || apply perm_swap. }
  unfold WriteMap, MapFormatter_Serialize, c_iterate, unordered_map_container; cbn [mapping].
  destruct E as [-> | ->]; [exists 1, 2|exists 2, 1]; (split; [set_solver|]).
  all: destruct H as [[] [] [] []]; eexists; vm_compute; reflexivity.
Qed.

Lemma hundreds_read a b : (a, b) ∈ [(1, 2); (2, 1)] →
  match ReadUnorderedMap (C := unordered_map int32 int32) (K := int32) (V := int32) (reader (le_bytes 4 2 ++ entry_bytes a (100 * a) ++ entry_bytes b (100 * b))) with
  | (Ret m, _) => bool_decide (mapping m = hundreds)
  | _ => false
  end = true.
Proof.
  intros [[= -> ->]|[[= -> ->]|Hab%elem_of_nil]%elem_of_cons]%elem_of_cons; [..|done].
  all: destruct H as [[] [] [] []]; vm_compute; reflexivity.
Qed.

Lemma hashed_maps_counted `{Build} p : hashed_maps p = counted p.
Proof.
  destruct hundreds_written as (a & b & Hab & w & E1). pose proof (hundreds_read a b Hab) as E2.
  unfold hashed_maps, UnitTests.written, on_local at 1. unfold mbind at 1 2, M_bind at 1 2. rewrite E1. cbn [mret M_ret fst].
  unfold counted, CHECK_ON, on_local, mbind, M_bind. cbn [mret M_ret fst]. destruct (count_check p) as [[[]| |] p']; [|done..].
  destruct (ReadUnorderedMap _) as [[m| |] r]; [|done..]. cbn [mret M_ret fst]. by rewrite E2.
Qed.
End AnyOrder.
End HashTables.

#[local] Instance list_order_laws : MapOrderLaws int32 int32.
Proof. intros ?. apply Permutation_refl. Qed.
#[local] Instance element_order_laws : SetOrderLaws string.
Proof. intros ?. apply Permutation_refl. Qed.

(** ** The clock, and the whole program *)

Section Main.
Context `{Platform, Build}.
Context {map_order : HashOrder (gmap int32 int32) (int32 * int32)} `{!MapOrderLaws int32 int32}.
Context {set_order : HashOrder (gset string) string} `{!SetOrderLaws string}.

Lemma generic_collections_any_order p :
  test_generic_collections (H2 := set_order) p = test_generic_collections (H2 := element_order) p.
Proof.
  unfold test_generic_collections.
  pointwise ltac:(reflexivity || rewrite (hashed_sets_counted (set_order := set_order)); by rewrite (hashed_sets_counted (set_order := element_order))).
  reflexivity.
Qed.

Lemma extended_any_order p : test_extended (H1 := map_order) p = test_extended (H1 := list_order) p.
Proof.
  unfold test_extended.
  pointwise ltac:(reflexivity || rewrite (hashed_maps_counted (map_order := map_order)); by rewrite (hashed_maps_counted (map_order := list_order))).
  reflexivity.
Qed.
Lemma errors_any_order p : test_errors (H1 := map_order) p = test_errors (H1 := list_order) p.
Proof. unfold test_errors. pointwise ltac:(reflexivity). reflexivity. Qed.

(** The time does not matter. *)
Lemma chrono_counted clock now p : clock_at clock now → chrono clock now p = counted p.
Proof.
  intros Hc. destruct (clock_at_drift clock now Hc) as (dt & back & d & E1 & _ & E2 & E3 & E4).
  unfold chrono. rewrite E1. unfold mbind at 1, M_bind at 1. cbn [defined mret M_ret]. rewrite E2.
  unfold mbind at 1, M_bind at 1. cbn [defined mret M_ret]. rewrite E3.
  unfold mbind at 1, M_bind at 1. cbn [defined mret M_ret]. unfold seconds. rewrite E4.
  unfold counted, CHECK, mbind, M_bind. cbn [defined mret M_ret Z.eqb]. by destruct (count_check p) as [[[]| |] p'].
Qed.

Lemma dotnet_helpers_any_time clock now p : clock_at clock now →
  test_dotnet_helpers clock now p = test_dotnet_helpers (1, TICKS_PER_SECOND) 0 p.
Proof.
  intros Hc. unfold test_dotnet_helpers. pointwise ltac:(reflexivity).
  assert (clock_at (1, TICKS_PER_SECOND) 0) by (apply standard_clock_at; [auto|done]). by rewrite !chrono_counted.
Qed.

(** One of the parts of [main]. *)
Ltac same_part :=
  idtac; lazymatch goal with
  | |- test_generic_collections _ = _ => apply generic_collections_any_order
  | |- test_extended _ = _ => apply extended_any_order
  | |- test_errors _ = _ => apply errors_any_order
  | |- test_dotnet_helpers _ _ _ = _ => by apply dotnet_helpers_any_time
  | |- _ => reflexivity
  end.

Lemma main_any clock now p : clock_at clock now →
  main (H1 := map_order) (H2 := set_order) clock now p =
  main (H1 := list_order) (H2 := element_order) (1, TICKS_PER_SECOND) 0 p.
Proof.
  intros Hc. unfold main. pointwise same_part. reflexivity.
Qed.

(** C5: The unit tests pass: on every little-endian platform (any width of [size_t], any
    alignment of 8-byte types, with or without exceptions), whatever the order in which hash
    tables are traversed, and at any time a [DateTime] can represent on a system clock whose
    period is a second over a multiple or a divisor of 10^7 (those of the three standard
    libraries are: nanoseconds, ticks of 100 ns, microseconds), all 316 checks hold and the
    program returns 0. *)
Theorem unit_tests_pass clock now : native_little = true → clock_at clock now →
  ∃ p, main clock now (started (no_tests, tt)) = (Ret 0, p) ∧
    g_checks (globals p).1 = 316 ∧ g_failures (globals p).1 = 0.
Proof.
  intros El Hc. rewrite main_any by done.
  assert (E : match main (H1 := list_order) (H2 := element_order) (1, TICKS_PER_SECOND) 0 (started (no_tests, tt)) with
              | (Ret c, p) => (c =? 0) && (g_checks (globals p).1 =? 316) && (g_failures (globals p).1 =? 0)
              | _ => false
              end = true).
  { destruct H as [[] [] [] []]; cbn [native_little] in El; (discriminate El || (vm_compute; reflexivity)). }
  destruct (main (H1 := list_order) _ _ _) as [[c| |] p]; [|done..].
  apply andb_true_iff in E as [[Ec%Z.eqb_eq Ek%Z.eqb_eq]%andb_true_iff Ef%Z.eqb_eq]. subst c. by exists p.
Qed.
End Main.

(** In August 2025, on a clock in nanoseconds and on one in microseconds. *)
Lemma unit_tests_pass_witness :
  (∃ p, main (H := host64) (H0 := []) (H1 := list_order) (H2 := element_order) (1, 1000000000) 1756557296000000000 (started (no_tests, tt)) = (Ret 0, p)) ∧
  (∃ p, main (H := host64) (H0 := []) (H1 := list_order) (H2 := element_order) (1, 1000000) 1756557296000000 (started (no_tests, tt)) = (Ret 0, p)).
Proof.
  pose proof (unit_tests_pass (H := host64) (H0 := []) (map_order := list_order) (set_order := element_order)) as Hpass.
  split.
  - destruct (Hpass (1, 1000000000) 1756557296000000000) as (p & E & _); [done|apply standard_clock_at; [auto|done]|by exists p].
  - destruct (Hpass (1, 1000000) 1756557296000000) as (p & E & _); [done|apply standard_clock_at; [auto|done]|by exists p].
Defined.
