(* ===== verification/FuzzReplay.v ===== *)
(** The driver that replays a corpus through the fuzz target ([tests/fuzz/fuzz_replay.cpp]).
    Directories and files are parameters; the program's global is what it wrote to
    [stderr]. *)
From stdpp Require Import strings.
From S2P Require Import Prelude Endian Writer Reader Fuzz Text Console Files FuzzTheorems ConsoleTheorems.

(** Whether the content of a file that opens can be read. *)
Class Disk := read_ok : list Z → bool.

Section Replay.
Context `{Platform, Filesystem, Disk}.

Abbreviation T := (M (program (list Z))).

(** [std::fprintf(stderr, ...)] *)
Definition eprintf (fmt : String.string) (args : list arg) : T unit :=
  match format None (c_literal fmt) args with
  | Some t => set_globals (λ err, err ++ t)
  | None => undefined
  end.

Definition ReplayFile (path : list Z) : T bool :=
  match file path with
  | None =>
      eprintf "fuzz_replay: cannot open %s\n" [Text path] ;;
      mret false
  | Some data =>
      if (zlen data >? 0) && negb (read_ok path) then
        eprintf "fuzz_replay: failed to read %s\n" [Text path] ;;
        mret false
      else
        lift_outcome (LLVMFuzzerTestOneInput data) ;;
        mret true
  end.

(** The entries of [dir]: the number of files replayed so far, none when [main] returns 1. *)
Fixpoint replay_entries (dir : list Z) (entries : list (list Z * bool)) (total : Z) : T (option Z) :=
  match entries with
  | [] => mret (Some total)
  | (name, regular) :: entries' =>
      if negb regular then replay_entries dir entries' total else
      ok ← ReplayFile (path_join dir name);
      if negb ok then mret None else replay_entries dir entries' (size_add total 1)
  end.

Fixpoint replay_directories (dirs : list (list Z)) (total : Z) : T (option Z) :=
  match dirs with
  | [] => mret (Some total)
  | dir :: dirs' =>
      match directory dir with
      | None =>
          eprintf "fuzz_replay: not a directory: %s\n" [Text dir] ;;
          mret None
      | Some entries =>
          r ← replay_entries dir entries total;
          match r with
          | None => mret None
          | Some total => replay_directories dirs' total
          end
      end
  end.

(** [args] is [argv], the name of the program first. *)
Definition main (args : list (list Z)) : T Z :=
  if (length args <? 2)%nat then
    eprintf "usage: fuzz_replay <corpus-dir> [more-dirs...]\n" [] ;;
    mret 1
  else
    r ← replay_directories (tail args) 0;
    match r with
    | None => mret 1
    | Some total =>
        printf "fuzz_replay: replayed %zu corpus file(s) without a crash\n" [Int total] ;;
        mret 0
    end.

(** ** A replay does not crash *)

(** What a file holds are bytes, fewer than [size_t] can count. *)
Definition files_ok : Prop := ∀ path data, file path = Some data → bytes_ok data ∧ zlen data < size_mod.

Lemma target_returns data : bytes_ok data → zlen data < size_mod → LLVMFuzzerTestOneInput data = Ret 0.
Proof.
  intros Hb Hs. destruct data as [|selector payload]; [done|]. apply Forall_cons in Hb as [_ Hb].
  rewrite zlen_cons in Hs. unfold LLVMFuzzerTestOneInput. by rewrite fuzz_payload_returns by (done || lia).
Qed.

Definition returns {A} (Q : A → Prop) (m : T A) : Prop := ∀ p, ∃ a p', m p = (Ret a, p') ∧ Q a.

Lemma returns_bind {A B} (Q : A → Prop) (Q' : B → Prop) (m : T A) (k : A → T B) :
  returns Q m → (∀ a, Q a → returns Q' (k a)) → returns Q' (m ≫= k).
Proof. intros Hm Hk p. destruct (Hm p) as (a & p' & E & Ha). destruct (Hk a Ha p') as (b & p'' & E' & Hb). exists b, p''. unfold mbind, M_bind. by rewrite E. Qed.

Lemma returns_ret {A} (Q : A → Prop) (a : A) : Q a → returns Q (mret a).
Proof. intros Ha p. by exists a, p. Qed.

(** A format with one text fits a text. *)
Lemma eprintf_returns fmt args : is_Some (format None (c_literal fmt) args) → returns (λ _, True) (eprintf fmt args).
Proof. intros [t E] p. unfold eprintf. rewrite E. by eexists _, _. Qed.

Lemma ReplayFile_returns path : files_ok → returns (λ _, True) (ReplayFile path).
Proof.
  intros Hf. unfold ReplayFile. destruct (file path) as [data|] eqn:E.
  - destruct (Hf path data E) as [Hb Hs]. case_match.
    + eapply returns_bind; [apply eprintf_returns; by vm_compute; eexists|by intros; apply returns_ret].
    + intros p. unfold mbind, M_bind, lift_outcome. rewrite target_returns by done. by eexists _, _.
  - eapply returns_bind; [apply eprintf_returns; by vm_compute; eexists|by intros; apply returns_ret].
Qed.

(** The number of files, when there is one. *)
Definition count_ok (r : option Z) : Prop := if r is Some total then 0 ≤ total else True.

Lemma replay_entries_returns dir entries total : files_ok → 0 ≤ total → returns count_ok (replay_entries dir entries total).
Proof.
  intros Hf. revert total. induction entries as [|[name regular] entries IH]; intros total Ht; cbn [replay_entries]; [by apply returns_ret|].
  destruct regular; cbn [negb]; [|by apply IH].
  eapply returns_bind; [by apply ReplayFile_returns|]. intros [] _; cbn [negb]; [|by apply returns_ret].
  apply IH. unfold size_add. pose proof size_mod_pos. apply Z.mod_pos_bound. lia.
Qed.

Lemma replay_directories_returns dirs total : files_ok → 0 ≤ total → returns count_ok (replay_directories dirs total).
Proof.
  intros Hf. revert total. induction dirs as [|dir dirs IH]; intros total Ht; cbn [replay_directories]; [by apply returns_ret|].
  destruct (directory dir).
  - eapply returns_bind; [by apply replay_entries_returns|]. intros [] Hr; [by apply IH|by apply returns_ret].
  - eapply returns_bind; [apply eprintf_returns; by vm_compute; eexists|by intros; apply returns_ret].
Qed.

(** The line [main] ends with. *)
Definition summary (total : Z) : list Z := c_literal "fuzz_replay: replayed " ++ to_string total ++ c_literal " corpus file(s) without a crash\n".

Lemma printf_summary total (p : program (list Z)) : 0 ≤ total →
  printf "fuzz_replay: replayed %zu corpus file(s) without a crash\n" [Int total] p = (Ret tt, Program (stdout p ++ summary total) (globals p)).
Proof.
  intros Ht. apply printf_writes. unfold summary. assert (convert no_spec u_conversion (Int total) = Some (to_string total)) as E.
  { unfold convert. by replace (total <? 0) with false by lia. }
  assert (justify no_spec (to_string total) = to_string total) as J.
  { unfold justify, pad_left. cbn -[to_string Z.sub]. pose proof (zlen_nonneg (to_string total)).
    by replace (Z.to_nat (0 - zlen (to_string total))) with 0%nat by lia. }
  revert E J. generalize (Int total), (to_string total). intros a t E J.
  lazy -[convert justify app] in E, J |- *. by rewrite E, J.
Qed.

(** Whatever the command line, the disk and the files hold, the driver ends with exit code 0
    or 1: no input in a corpus makes it crash. *)
Theorem replay_never_crashes args : files_ok → ∃ c p, main args (started []) = (Ret c, p) ∧ (c = 0 ∨ c = 1).
Proof.
  intros Hf. cut (returns (λ c, c = 0 ∨ c = 1) (main args)); [intros Hm; apply Hm|].
  unfold main. case_match.
  { eapply returns_bind; [apply eprintf_returns; by vm_compute; eexists|intros; apply returns_ret; by right]. }
  eapply returns_bind; [by apply replay_directories_returns|]. intros [total|] Ht; [|apply returns_ret; by right].
  intros p. unfold mbind, M_bind. rewrite printf_summary by done. eexists 0, _. by split; [|left].
Qed.

(** *** A complete corpus *)

(** An entry that is replayed, unless it is not a regular file. *)
Definition replayable (dir : list Z) (e : list Z * bool) : Prop :=
  e.2 = true → ∃ data, file (path_join dir e.1) = Some data ∧ (0 < zlen data → read_ok (path_join dir e.1) = true).

Definition regular_files (entries : list (list Z * bool)) : Z := zlen (filter (λ e, e.2 = true) entries).

(** The directories, with what they hold. *)
Definition corpus (dirs : list (list Z)) (es : list (list (list Z * bool))) : Prop :=
  Forall2 (λ dir entries, directory dir = Some entries ∧ Forall (replayable dir) entries) dirs es.

Definition corpus_size (es : list (list (list Z * bool))) : Z := foldr (λ e n, regular_files e + n) 0 es.

Lemma regular_files_nonneg entries : 0 ≤ regular_files entries.
Proof. apply zlen_nonneg. Qed.

Lemma corpus_size_nonneg es : 0 ≤ corpus_size es.
Proof. induction es as [|e es IH]; cbn; [lia|]. pose proof (regular_files_nonneg e). unfold corpus_size in IH. lia. Qed.

Lemma ReplayFile_ok dir e p : files_ok → replayable dir e → e.2 = true → ReplayFile (path_join dir e.1) p = (Ret true, p).
Proof.
  intros Hf He Hr. destruct (He Hr) as (data & E & Hd). destruct (Hf _ _ E) as [Hb Hs].
  unfold ReplayFile. rewrite E. assert ((zlen data >? 0) && negb (read_ok (path_join dir e.1)) = false) as ->.
  { destruct (Z.gtb_spec (zlen data) 0); [|done]. by rewrite Hd by lia. }
  unfold mbind, M_bind, lift_outcome. by rewrite target_returns by done.
Qed.

Lemma replay_entries_ok dir entries total p : files_ok → Forall (replayable dir) entries →
  0 ≤ total → total + regular_files entries < size_mod →
  replay_entries dir entries total p = (Ret (Some (total + regular_files entries)), p).
Proof.
  intros Hf He. revert total. induction He as [|[name regular] entries He _ IH]; intros total Ht Hs; cbn [replay_entries].
  { unfold regular_files, zlen. cbn. by rewrite Z.add_0_r. }
  unfold regular_files in *. rewrite filter_cons in Hs. rewrite filter_cons. cbn [snd] in *. destruct regular; cbn [negb].
  - rewrite decide_True in Hs by done. rewrite decide_True by done. rewrite zlen_cons in Hs. rewrite zlen_cons. unfold mbind, M_bind.
    rewrite (ReplayFile_ok dir (name, true)) by done. cbn [negb].
    pose proof (zlen_nonneg (filter (λ e : list Z * bool, e.2 = true) entries)).
    unfold size_add. rewrite Z.mod_small by lia. rewrite IH by lia. do 3 f_equal. lia.
  - rewrite decide_False in Hs by done. rewrite decide_False by done. by apply IH.
Qed.

Lemma replay_directories_ok dirs es total p : files_ok → corpus dirs es →
  0 ≤ total → total + corpus_size es < size_mod →
  replay_directories dirs total p = (Ret (Some (total + corpus_size es)), p).
Proof.
  intros Hf Hc. revert total. induction Hc as [|dir entries dirs es [Hd He] _ IH]; intros total Ht Hs; cbn [replay_directories] in *.
  { by rewrite Z.add_0_r. }
  pose proof (corpus_size_nonneg es). pose proof (regular_files_nonneg entries). unfold corpus_size in *. cbn [foldr] in *.
  rewrite Hd. unfold mbind, M_bind. rewrite replay_entries_ok by (done || lia). rewrite IH by lia. do 3 f_equal. lia.
Qed.

(** A corpus whose directories and files can all be opened is replayed to the end: the
    driver counts its regular files, writes nothing to [stderr] and returns 0. *)
Theorem corpus_replayed name dirs es : files_ok → dirs ≠ [] → corpus dirs es →
  let total := corpus_size es in
  total < size_mod →
  main (name :: dirs) (started []) =
    (Ret 0, Program (summary total) []).
Proof.
  intros Hf Hd Hc total Ht. unfold main. destruct dirs as [|dir dirs]; [done|]. cbn [length Nat.ltb Nat.leb tail].
  unfold mbind at 1, M_bind at 1. rewrite (replay_directories_ok _ es) by (done || lia). fold total. rewrite Z.add_0_l.
  unfold mbind, M_bind. by rewrite printf_summary by (apply corpus_size_nonneg).
Qed.
End Replay.

(** A directory of two files, one of them malformed. *)
Section Witness.
#[local] Existing Instance host64.
Definition two_contents (p : list Z) : option (list Z) :=
  match p with
  | [100; 47; 97] => Some [1; 255]
  | [100; 47; 98] => Some []
  | _ => None
  end.
#[local] Instance two_files : Filesystem := {|
  file := two_contents;
  directory p := match p with [100] => Some [([97], true); ([98], true); ([99], false)] | _ => None end |}.
#[local] Instance good_disk : Disk := λ _, true.

Lemma two_files_ok : files_ok.
Proof.
  intros path data. change (file path) with (two_contents path). unfold two_contents. intros E.
  repeat case_match; try discriminate E; injection E as <-; (split; [bytes_lit|by vm_compute]).
Qed.

Lemma replay_never_crashes_witness : ∃ c p, main [c_literal "fuzz_replay"; c_literal "d"] (started []) = (Ret c, p) ∧ (c = 0 ∨ c = 1).
Proof. apply replay_never_crashes, two_files_ok. Defined.

Lemma two_files_corpus : corpus [c_literal "d"] [[([97], true); ([98], true); ([99], false)]].
Proof.
  constructor; [|constructor]. split; [by vm_compute|].
  constructor; [|constructor; [|constructor; [|constructor]]]; intros Hr; [exists [1; 255]|exists []|discriminate Hr]; by vm_compute.
Qed.

Lemma corpus_replayed_witness : ∃ p, main [c_literal "fuzz_replay"; c_literal "d"] (started []) = (Ret 0, p).
Proof.
  eexists. refine (corpus_replayed _ _ _ two_files_ok _ two_files_corpus _); [discriminate|by vm_compute].
Defined.
End Witness.
